(* ===== verification/_CoqProject ===== *)
-Q . S2P
Prelude.v
GoStd.v
GoSlice.v
Errors.v
Query.v
QueryProps.v
Contexts.v
Labels.v
WhereClause.v
QueryBuilder.v
QueryBuilderProps.v
WebFilters.v
WebRegistry.v
WebProps.v
OperationTypes.v
Cascade.v
CascadeProps.v
CascadeTheorems.v
Repository.v
Scheduler.v
SchedulerProps.v
SchedulerTheorems.v
Maintainer.v
MaintainerProps.v
MaintainerTheorems.v
CascadeCreate.v
Interceptors.v
TransactionalRepository.v
InterceptorsProps.v
InterceptorsTheorems.v
Notifications.v
NotificationsProps.v
Delivery.v
DeliveryInvariant.v
DeliveryTheorems.v
DomainTypes.v
Smaap.v
InstanceInterceptor.v
BindingInterceptor.v
SmaapProps.v
SmaapJournal.v
SmaapRequests.v
SmaapDeletion.v
SmaapTheorems.v
Encryption.v
StorageEntities.v
EncryptionProps.v
KeyStore.v
EncryptionTheorems.v
OSBWorld.v
OSBStore.v
OSBStoreProps.v
OSBMirror.v
OSBRefinement.v
OSBTheorems.v
OSBOutcomes.v
Sharing.v
SharingTheorems.v
OSBPlugins.v
OSBChain.v
OSBChainTheorems.v
OSBGuards.v
RequestBody.v
BaseController.v
PagingTheorems.v
ControllerTheorems.v
WorldMonad.v
Catalog.v
CatalogProps.v
CatalogPlans.v
CatalogTheorems.v
Registry.v
PublicPlans.v
PublicPlansTheorems.v
NotificationHooks.v
NotificationTheorems.v
ApiFilters.v
ApiChain.v
ApiFilterTheorems.v
StorageRows.v
