(* ===== verification/Prelude.v ===== *)
(** * Service Manager: a verification of its core (root of the development)

    Service Manager is a registry between platforms (Cloud Foundry, Kubernetes) and service
    brokers.  A REST request passes a chain of filters, which narrow it with query criteria;
    a controller hands a storage action and an operation to the operation scheduler; the
    scheduler runs the action on the repository, now or in a job, and records the outcome in
    the operation; the repository runs interceptors around and inside a database
    transaction and builds SQL from the criteria.  Deleting a whole hierarchy makes a tree
    of operations, which the maintainer works off from the leaves, with other jobs that
    clean up and repeat.  Service Manager also is a platform itself ("SMAAP"): interceptors
    of instances and bindings call the service broker, poll it and clean up after it; and it
    is a broker to the platforms: their OSB requests pass a chain of plugins, which check
    them, forward them to the real broker and store what it answered.  Secrets pass two
    decorators of the repository that encrypt them and guard their integrity.  This library
    models these parts of the Go sources and proves what they rely on of each other.

    ** Files

    - [Prelude] (this file): error values, the [result] monad with panics, notations, hints
      and lemmas on lists used everywhere.  [GoStd]: the functions of Go's standard library
      that the code calls (strings, strconv, sort, time, base64).  [GoSlice]: slices as windows of
      backing arrays in a heap, with [append] and its choice of capacity ([GrowPolicy]).
    - [Errors]: pkg/util/errors.go and pkg/instance_sharing, errors and their HTTP form.
    - [Query], [QueryProps]: pkg/query/operators.go, selection.go and listener.go: operators,
      criteria, their validation, and the listener that turns a parse tree into criteria.
      [Contexts]: the criteria of a request context, with the memory they share.
    - [Labels]: pkg/types/labels.go and pkg/query/update.go.
    - [WhereClause], [QueryBuilder], [QueryBuilderProps]: storage/postgres
      where_clause_tree.go, labels.go and query_builder.go: where clauses, templates,
      placeholders and parameters.
    - [WebFilters], [WebRegistry], [WebProps]: pkg/web matcher.go, filter.go, plugin.go,
      api.go and dynamic_matching_filter.go, pkg/util/slice: which filters run for a route
      and in which order, and how they are registered.
    - [OperationTypes]: pkg/types/operation.go and operations/config.go.
    - [Repository]: the interface of storage/interfaces.go as the scheduler uses it, the
      world (database, heap of operations, clock, worker pool, jobs) and its monad;
      [RepositoryLaws] is what the scheduler relies on, with an instance in memory.
      [Scheduler], [SchedulerProps], [SchedulerTheorems]:
      operations/scheduler.go, all of it.
    - [Cascade], [CascadeProps], [CascadeTheorems]: pkg/types/cascade and
      operations/cascade_utils.go, the tree of operations of a cascade deletion.
      [CascadeCreate]: the interceptors that create it
      (storage/interceptors/smaap_cascade_operation_create_interceptor.go and its virtual
      counterpart).
    - [Maintainer], [MaintainerProps], [MaintainerTheorems]:
      operations/maintainer.go.
    - [Interceptors], [TransactionalRepository], [InterceptorsProps],
      [InterceptorsTheorems]: storage/interceptable_repository.go
      and interceptors_create.go, interceptors_update.go, interceptors_delete.go.
    - [Notifications], [NotificationsProps]: storage/notification_queue.go and
      storage/postgres/notificator.go, the critical sections of the notificator;
      [Delivery], [DeliveryInvariant], [DeliveryTheorems]: these as
      steps in any order, with the database (notification_storage.go) and the consumers.
    - [DomainTypes]: the entities of pkg/types with validation, comparison and sanitizing.
    - [Smaap] (shared parts: the journal of a run, the broker client, contexts, polling),
      [InstanceInterceptor], [BindingInterceptor]:
      storage/interceptors/smaap_service_instance_interceptor.go and
      smaap_service_binding_interceptor.go, all hooks; [SmaapProps], [SmaapJournal],
      [SmaapRequests], [SmaapDeletion] the lemmas, [SmaapTheorems].
    - [Encryption], [EncryptionProps], [EncryptionTheorems]: storage/encrypting_repository.go,
      storage/integrity_repository.go, pkg/security/encrypter.go and integrity.go, and the
      secrets of the types.  [KeyStore]: storage/postgres/locker.go and keystore.go, and the
      start that makes the encryption key.
    - [OSBWorld] (the request, the rows and the outside calls), [OSBStore]:
      api/osb/osb_store_plugin.go, all handlers.  [OSBStoreProps], [OSBMirror] (the abstract
      specification), [OSBRefinement], [OSBTheorems], [OSBOutcomes]: what it stores.
    - [Sharing], [SharingTheorems]: api/common/sharing/utils.go, storage/utils.go and
      api/filters/reference_instance_filter.go.  [OSBPlugins]: the other plugins of api/osb
      and osb_controller.go.  [OSBChain], [OSBChainTheorems], [OSBGuards]:
      the chain in the order pkg/sm/sm.go registers it.
    - [RequestBody]: pkg/util/api.go, how a body is read.  [BaseController], [PagingTheorems],
      [ControllerTheorems]: api/base_controller.go, all handlers.
    - [WorldMonad]: computations over a world with errors and loops, for the following files.
      [Catalog]: storage/interceptors/broker_create_catalog_interceptor.go and
      broker_update_catalog_interceptor.go, storage/catalog/loader.go and
      schemas/predefined_plans.go: preparing, storing and resynchronizing a catalog;
      [CatalogProps], [CatalogPlans] the lemmas, [CatalogTheorems].
    - [Registry]: the tables of platforms, brokers, offerings, plans, visibilities and
      notifications.  [PublicPlans], [PublicPlansTheorems]:
      storage/service_plans/resolver.go and
      storage/interceptors/broker_public_plans_interceptor.go, the platforms a plan is for and
      its visibilities.  [NotificationHooks], [NotificationTheorems]:
      storage/interceptors/notifications_interceptor.go with its users for visibilities and
      for brokers.
    - [ApiFilters]: the filters of api/filters; [ApiChain]: their matchers and the order in
      which api/api.go and pkg/sm/sm.go register them; [ApiFilterTheorems].
    - [StorageEntities]: the structs of the tables and their conversions, a file of
      storage/postgres each.  [StorageRows]: abstract.go, interfaces.go and the calls of
      storage.go there: columns, label rows, statements and reading rows.

    ** What the theorems show

    - Scheduler: an action runs only after its operation passed every precondition and was
      stored; a rejected operation changes nothing, but one over its time limits is stored as
      failed; the complete matrix of conflicts; what is stored after success and after
      failure, all or nothing; one worker and one wait group count per unfinished job in
      every reachable state; time limits; recovery of panicking jobs.
    - Cascade deletion: the operations are the listing of the complete deletion tree, for
      exactly the objects below the root, with each parent before its children; they are
      created as a sequence of legal steps; in every reachable state a deletion was begun
      only after all deletions directly below it succeeded.  Building the tree ends with the
      whole listing for a hierarchy without cycles and overflows the stack for one with a cycle.
    - Maintainer: polling changes nothing but pending cascade operations; cleaning in
      batches ends and leaves nothing to clean.
    - Interceptors: nested calls end and restore the chains; hooks run in their registered
      order around and inside one transaction; after any registrations each hook is in its
      chain once; which registrations panic; which hooks [InTransaction] leaves out.
    - Notifications: in orderly runs (commits in the order of revisions, an empty channel when
      listening begins and no insertion between listening and reading the last revision) a
      consumer gets the notifications for its platform from the revision it came with, each once
      and in order, while its queue is open; of the other runs one loses a notification and one
      delivers one twice; a failed registration leaves nothing behind.
    - Filters: the chain of a route runs exactly the filters that apply, in order, to the
      first that answers; names stay unique.
    - Queries: what [validateCriteria] and [Parse] accept and return; statements have as
      many placeholders as parameters; label changes refine a pure specification.
    - Error handling is total and idempotent.
    - SMAAP: every answer of the broker that the next execution has to know of is stored
      before anything else happens; a run sends at most one changing request, none when it
      only resumes; all outcomes of polling and its time limit; an instance leaves the
      storage only after the broker confirmed.
    - Secrets: the credentials of what is created are read back, are encrypted in the row below
      and validated whenever they are read; the encryption key is made once, and a start that
      cannot read it makes no other.
    - OSB: every request refines a step of the mirror of the broker, or changes nothing; after
      any sequence of requests what is stored agrees with the newest operation; requests of
      foreign platforms, for invisible plans, and deletions of referenced instances do not
      reach the broker; references lead to shared instances of the tenant.
    - API: a body is accepted exactly when no object in it repeats a key; listing page by page
      misses nothing that stays, repeats nothing and keeps the page size; a created object is
      stored under its operation and ready in the end; a patch cannot change id, times or,
      but for the label changes and a key that only differs from "labels" in case, labels.
    - Catalogs: after the update of a broker its stored services and plans are those of its new
      catalog, and what was known kept its id, labels and paging sequence.  The resolver gives a plan the platforms that
      the type of the plan says it supports; after a resync a public plan is visible once for
      each of them, or once for all, and a private one for none without labels.  An update
      writes, for each platform that had or has access, the notifications it has to see.
    - Filters of the API: with tenants, and their label among the protected ones, every request
      reaches its handler confined to its tenant and every object is created with its label; lists by visibility agree with lookups of
      single resources; stripping a body ends; transfers of instances and deletions of platforms
      are guarded.  The parameter subQuery of a request becomes text of an SQL statement.
    - Storage: each entity is read back from its table as it was stored; rows joined with label
      rows are read as the objects they came from; the statements of a label update leave the
      labels that are computed in memory, if no change of a key follows a removal from it.
    - Where the code does not do what it means to, a theorem states what it does do.

    ** Modelling

    A Go function returning [(T, error)] is a [result]; a run-time panic is [Panic], which
    nothing catches but the deferred recovery of a job.  Integers and times are [Z]; where
    64 bits matter, in the polling durations, they wrap and saturate as in Go ([wrap64],
    [saturate64]); strings are bytes, maps are [gmap].  Iteration
    over a map has an arbitrary order: a parameter ([range_order]) where the order shows.
    Slices and operation pointers live in heaps where aliasing matters.  Jobs run one at a
    time, between other steps, in any order: their interleaving inside is not modelled.
    The locks of the maintainer are taken or not, by a parameter.  The notificator's critical
    sections are atomic steps, but notifications may be inserted inside the first one of a
    registration, between its calls of [Listen] and [GetLastRevision]; a notification is inserted
    when its transaction commits, so revisions need not grow in this order.

    A run of a SMAAP hook is a computation over the operation it holds and a journal of the
    events so far; broker, storage and clock answer as functions of the journal, so the
    theorems hold for any answers.  The [select] of a polling loop is a finite number of
    ticks, then the end of the context or of the polling time ([env_select]): a broker that
    never finishes is a context that ends.  An OSB request is a computation over the
    request, the rows of the database and the number of outside calls; any call of the
    storage may fail ([fault]); where a theorem needs that a failing storage does not claim
    a row missing, the hypothesis is [honest].  The rows ([tables]) stand for PostgreSQL: keys,
    the foreign key of bindings and the enum of operation states are those of the
    migrations; requests run one after the other, and the ids of instances and of bindings
    are apart ([is_binding]).

    Recursion of the code that is not structural takes the depth of the stack, and exceeding
    it is a panic, as in Go: [recursiveGetAllLevelsCascadeOperations] (a depth beyond the
    number of objects is enough without cycles, [cascade_building_terminates]), [scoped_call] (beyond the
    number of chains, [nested_calls_terminate]) and [itr_call] (hooks around a transaction
    may call the repository without bound).  Loops over lists are structural; the loop over
    batches has the number of batches the code computes, which is infinite for a batch size
    of 0 and then a parameter.  The loop over batches of label rows ([insert_batches]) has the
    number of rows as fuel, which is enough since no batch is empty.

    Parameters stand for code that is not in the repository, or that the modelled code only
    calls: the ANTLR parser ([antlr_parse]), sqlx ([sqlx_In], [rebind]), glob patterns
    ([glob_compile]), the action of a caller and waiting for it ([caller_action], [await]),
    printing of durations and of JSON errors, UUIDs and the clock, the lists of the storage,
    the raw repository under the interceptors ([RawRepository]) and the hooks themselves
    (programs of calls, [prog]), the OSB client, the storage under the SMAAP hooks and the
    clock ([SmaapEnv]), encoding and decoding of JSON ([JSONText], [JSONQueries], [OSBJson],
    [SharingJson]), signing ([ContextSigning]), the cipher and the random numbers
    ([Crypto]), TLS settings and the reverse proxy ([TLSSettings], [OSBProxy]), parsing of
    media types and of JSON ([Bodies]), decoding of objects and removal of their secrets
    ([ObjectTypes]), the calls of the repository by the API ([ApiRepository]), the catalog
    fetcher, the storage of catalogs and changes of catalog texts ([CatalogEnv]), times, ids
    and the orders of maps of the registry ([RegistryEnv]), the bodies as the filters read them
    ([BodyJson]), the certificate and settings of the process ([FilterEnv]), the JSON of the
    values of an update ([UpdateValuesJson]) and the calls of the database under the storage
    ([Postgres]).  Hypotheses about them are the records of laws
    ([RepositoryLaws], [OperationQueriesLaws], [CryptoLaws], [EncrypterLaws], [StoreLaws], [ListingLaws], [BodyLaws], [LabelLaws],
    [StripLaws], [EntityLaws], [LabelTable], [SortSlice]) and those the theorems name; the witnesses of
    the claims have an instance of each.  The laws of a storage say what its calls do to rows, with
    the fields that the database sets (the time of an update, the paging sequence) left open, and
    let it fail; criteria and statements have a meaning of their own ([listing], [exec_delete]) which
    does not look at the code that makes them.  The tables of catalogs have no paging sequence of
    their own for new rows.

    ** Not modelled

    The entities of operations and notifications, the registration of entities, opening and
    migrating the database (storage/postgres), the
    websockets of notifications, the controllers of single resource types and the filters for
    timeouts, rate limits and logging (api), the filter of the OSB catalog and the TLS transport of the proxy
    (api/osb), the interceptors that check unique names, generate credentials or label
    requests with their tenant, security, generated code, and everything that is input and output: configuration, logging, health, HTTP clients,
    assembly of the server. *)

From stdpp Require Import base gmap strings list fin_maps sorting pretty.
From Stdlib Require Import ZArith.

(** ** Errors

    The error values of pkg/util/errors.go.  Errors made with [errors.New] or
    [fmt.Errorf] inside a function are [EPlain]; package-level sentinels, which
    Go compares by identity, are constructors of their own. *)
Inductive error :=
  | EPlain (msg : string)
  | EUnsupportedQuery (msg : string)
  | EHTTP (etype descr : string) (status : Z)
  | ENotFoundInStorage
  | ESharedInstanceHasReferences
  | EUnsharingInstanceWithReferences
  | EAlreadyExistsInStorage
  | EConcurrentResourceModification
  | EInvalidNotificationRevision
  | EBadRequestStorage (cause : error)
  | EForeignKeyViolation (entity reference_entity : string)
  | ECatalogUsesReservedPlanName
  | EPlanMustBeBindable
  | EAsyncNotSupportedForSharing
  | EReferencedInstanceNotShared
  | EReferencedInstanceNotFound
  | EMultipleReferenceSelectorResults
  | ENoResultsForReferenceSelector
  | EReferenceWithWrongServiceOffering
  | EChangingPlanOfReferenceInstance
  | ENewPlanDoesNotSupportInstanceSharing
  | EPlanDoesNotSupportInstanceSharing
  | EChangingParametersOfReferenceInstance
  | EMissingOrInvalidReferenceParameter
  | ESharedPlanHasReferences
  | EInvalidShareRequest
  | EInvalidProvisionRequestWithSharedProperty
  | ERequestBodyContainsReferencedInstanceID.

#[global] Instance error_eq_dec : EqDecision error.
Proof. solve_decision. Defined.

(** ** Results of Go code

    A Go function returning [(T, error)] is a [result T]; [Panic] is a run-time
    panic (an index out of range, a nil dereference, a call of [panic]). *)
Inductive result (A : Type) : Type :=
  | Ok (a : A)
  | Err (e : error)
  | Panic (msg : string).
Arguments Ok {A} a.
Arguments Err {A} e.
Arguments Panic {A} msg.

#[global] Instance result_eq_dec {A} `{EqDecision A} : EqDecision (result A).
Proof. solve_decision. Defined.

#[global] Instance result_ret : MRet result := @Ok.
#[global] Instance result_bind : MBind result := fun A B f r =>
  match r with
  | Ok a => f a
  | Err e => Err e
  | Panic m => Panic m
  end.
#[global] Instance result_fmap : FMap result := fun A B f r =>
  match r with
  | Ok a => Ok (f a)
  | Err e => Err e
  | Panic m => Panic m
  end.

(** [if err := f(); err != nil { return err }]: a check with no value. *)
Definition guard_err (b : bool) (e : error) : result unit :=
  if b then Err e else Ok tt.

Declare Scope sm_scope.
Delimit Scope sm_scope with sm.
Notation "'let*' x ':=' m 'in' k" := (mbind (M:=result) (fun x => k) m)
  (at level 10, x pattern, m at level 100, k at level 200) : sm_scope.
Notation "m ';;;' k" := (mbind (M:=result) (fun _ => k) m)
  (at level 100, right associativity) : sm_scope.
Open Scope sm_scope.

Definition is_ok {A} (r : result A) : bool :=
  match r with Ok _ => true | _ => false end.

Lemma bind_ok {A B} (r : result A) (f : A -> result B) b :
  mbind f r = Ok b <-> exists a, r = Ok a /\ f a = Ok b.
Proof. destruct r; naive_solver. Qed.

Lemma guard_err_ok b e u : guard_err b e = Ok u <-> b = false.
Proof. destruct b, u; naive_solver. Qed.

(** A [range] loop whose body may return an error: the first failing element
    ends the loop. *)
Fixpoint for_each {A} (f : A -> result unit) (l : list A) : result unit :=
  match l with
  | [] => Ok tt
  | x :: l' => f x ;;; for_each f l'
  end.

Lemma for_each_ok {A} (f : A -> result unit) l :
  for_each f l = Ok tt <-> Forall (fun x => f x = Ok tt) l.
Proof.
  induction l as [|x l IH]; simpl.
  - split; [constructor | done].
  - rewrite bind_ok, Forall_cons, <- IH. split.
    + intros ([] & ? & ?); auto.
    + intros [? ?]; exists tt; auto.
Qed.

Lemma for_each_guard {A} (b : A -> bool) (e : A -> error) l :
  for_each (fun x => guard_err (b x) (e x)) l = Ok tt <-> Forall (fun x => b x = false) l.
Proof. rewrite for_each_ok. apply Forall_iff. intros x. by rewrite guard_err_ok. Qed.

Lemma bind_unit_ok {B} (r : result unit) (k : result B) b :
  (r ;;; k) = Ok b <-> r = Ok tt /\ k = Ok b.
Proof. rewrite bind_ok. split; [intros ([] & ? & ?) | intros [? ?]; exists tt]; auto. Qed.

(** Computations that never panic. *)
Definition no_panic {A} (r : result A) : Prop := forall m, r <> Panic m.

Lemma no_panic_ok {A} (a : A) : no_panic (Ok a).
Proof. done. Qed.
Lemma no_panic_err {A} e : no_panic (Err (A:=A) e).
Proof. done. Qed.
Lemma no_panic_guard b e : no_panic (guard_err b e).
Proof. by destruct b. Qed.
Lemma no_panic_bind {A B} (r : result A) (f : A -> result B) :
  no_panic r -> (forall a, r = Ok a -> no_panic (f a)) -> no_panic (mbind f r).
Proof. destruct r as [a| |m]; simpl; [eauto|done|]. intros H. by specialize (H m). Qed.
Lemma no_panic_for_each {A} (f : A -> result unit) l :
  (forall x, no_panic (f x)) -> no_panic (for_each f l).
Proof.
  intros Hf. induction l as [|x l IH]; simpl; [apply no_panic_ok|]. by apply no_panic_bind.
Qed.

(** A [range] loop that threads a state. *)
Fixpoint fold_result {A S} (f : S -> A -> result S) (s : S) (l : list A) : result S :=
  match l with
  | [] => Ok s
  | x :: l' => let* s' := f s x in fold_result f s' l'
  end.

Lemma fold_result_app {A S} (f : S -> A -> result S) s l1 l2 :
  fold_result f s (l1 ++ l2) = let* s' := fold_result f s l1 in fold_result f s' l2.
Proof.
  revert s; induction l1 as [|x l1 IH]; intros s; simpl; [done|].
  destruct (f s x); simpl; auto.
Qed.

(** Invariants of a state-threading loop. *)
Lemma fold_result_inv {A S} (P : S -> Prop) (f : S -> A -> result S) l s s' :
  (forall s x s', x ∈ l -> P s -> f s x = Ok s' -> P s') ->
  P s -> fold_result f s l = Ok s' -> P s'.
Proof.
  revert s. induction l as [|x l IH]; simpl; intros s Hstep Hs.
  - by intros [= <-].
  - rewrite bind_ok. intros (s1 & H1 & H2). eapply IH; [|eapply Hstep|done]; eauto.
    + intros ??? Hin. apply Hstep. by right.
    + by left.
Qed.

Create HintDb sm.
#[export] Hint Resolve no_panic_ok no_panic_err no_panic_guard : sm.
Create Rewrite HintDb sm_rw.
#[export] Hint Rewrite @bind_ok @guard_err_ok @for_each_ok : sm_rw.

(** Case analysis on every [match] of a hypothesis or of the goal. *)
Ltac go_cases :=
  repeat (simplify_eq/=; first
    [ progress case_match
    | match goal with
      | H : mbind _ _ = Ok _ |- _ => apply bind_ok in H; destruct H as (? & ? & ?)
      | H : guard_err _ _ = Ok _ |- _ => apply guard_err_ok in H
      end ]).

(** ** Filtered lists *)
Lemma filter_iff_in {A} (P Q : A -> Prop) `{!forall x, Decision (P x)} `{!forall x, Decision (Q x)} (l : list A) :
  (forall x, x ∈ l -> P x <-> Q x) -> filter P l = filter Q l.
Proof.
  induction l as [|x l IH]; intros HP; [done|]. rewrite !filter_cons, IH by (intros y Hy; apply HP; by right).
  specialize (HP x ltac:(by left)). destruct (decide (P x)), (decide (Q x)); tauto.
Qed.
Lemma filter_none {A} (P : A -> Prop) `{!forall x, Decision (P x)} (l : list A) :
  (forall x, x ∈ l -> ~ P x) -> filter P l = [].
Proof.
  intros HP. rewrite (filter_iff_in P (fun _ => False)); [|intros x Hx; specialize (HP x Hx); tauto].
  induction l as [|x l IH]; [done|]. rewrite filter_cons_False by tauto. apply IH. intros y Hy. apply HP. by right.
Qed.
Lemma filter_keeps {A} (P : A -> Prop) `{!forall x, Decision (P x)} (l : list A) :
  (forall x, x ∈ l -> P x) -> filter P l = l.
Proof.
  induction l as [|x l IH]; intros HP; [done|]. rewrite filter_cons_True by (apply HP; by left).
  f_equal. apply IH. intros y Hy. apply HP. by right.
Qed.
