(* ===== verification/GoStd.v ===== *)
(** * The parts of the Go standard library the modelled code calls

    Strings are byte sequences ([string], a list of 8-bit [ascii]), as in Go.
    Packages: [strings] (Contains, ContainsRune on an ASCII rune, Split on one
    byte, Replace, Trim), [strconv] (Atoi and the acceptance of ParseFloat at 64
    bits) and [time] (the acceptance of time.Parse with the RFC3339 layout). *)

From S2P Require Import Prelude.
From stdpp Require Import base strings list pretty.
From Stdlib Require Import ZArith Ascii String Lia.
Local Open Scope string_scope.

(** ** strings *)
Module Strings.

(** [strings.HasPrefix]. *)
Definition has_prefix (s p : string) : bool := String.prefix p s.

(** [strings.Contains]: some suffix of [s] starts with [sub]. *)
Fixpoint contains (s sub : string) : bool :=
  String.prefix sub s ||
  match s with
  | EmptyString => false
  | String _ s' => contains s' sub
  end.

(** [strings.ContainsRune] for an ASCII rune. *)
Fixpoint contains_byte (s : string) (c : ascii) : bool :=
  match s with
  | EmptyString => false
  | String d s' => Ascii.eqb d c || contains_byte s' c
  end.

(** [strings.Split] with a one-byte separator: never the empty list. *)
Fixpoint split_byte (s : string) (c : ascii) : list string :=
  match s with
  | EmptyString => [""]
  | String d s' =>
      if Ascii.eqb d c then "" :: split_byte s' c
      else match split_byte s' c with
           | [] => [String d ""]
           | w :: ws => String d w :: ws
           end
  end.

(** [strings.Replace(s, "cc", "c", -1)]: every non-overlapping pair of [c], from
    the left, becomes one [c]. *)
Fixpoint halve_pairs (c : ascii) (s : string) : string :=
  match s with
  | String a (String b s' as t) =>
      if Ascii.eqb a c && Ascii.eqb b c then String c (halve_pairs c s')
      else String a (halve_pairs c t)
  | _ => s
  end.

Fixpoint trim_left (c : ascii) (s : string) : string :=
  match s with
  | String a s' => if Ascii.eqb a c then trim_left c s' else s
  | EmptyString => EmptyString
  end.

Fixpoint trim_right (c : ascii) (s : string) : string :=
  match s with
  | EmptyString => EmptyString
  | String a s' =>
      match trim_right c s' with
      | EmptyString => if Ascii.eqb a c then "" else String a ""
      | t => String a t
      end
  end.

(** [strings.Trim] with a one-byte cutset. *)
Definition trim_byte (c : ascii) (s : string) : string := trim_right c (trim_left c s).

(** [strings.Join]. *)
Definition join (sep : string) (l : list string) : string := String.concat sep l.

(** [fmt]'s [%s] of a [[]string]: the elements between brackets, a space apart. *)
Definition fmt_strings (l : list string) : string := "[" ++ join " " l ++ "]".

(** The one-byte string holding a double quote. *)
Definition dquote : string := String "034" "".

(** The number of occurrences of a byte. *)
Fixpoint count_byte (c : ascii) (s : string) : nat :=
  match s with
  | EmptyString => 0
  | String d s' => (if Ascii.eqb d c then 1 else 0) + count_byte c s'
  end.

Definition to_upper_byte (c : ascii) : ascii :=
  let n := nat_of_ascii c in
  if (97 <=? n)%nat && (n <=? 122)%nat then ascii_of_nat (n - 32) else c.

(** [strings.ToUpper] on ASCII text. *)
Fixpoint to_upper (s : string) : string :=
  match s with
  | EmptyString => EmptyString
  | String c s' => String (to_upper_byte c) (to_upper s')
  end.

Lemma count_byte_app c s t : count_byte c (s ++ t) = (count_byte c s + count_byte c t)%nat.
Proof. induction s as [|d s IH]; simpl; [done|]. rewrite IH. lia. Qed.

Lemma count_byte_join c sep l :
  count_byte c sep = 0%nat ->
  count_byte c (join sep l) = list_sum (map (count_byte c) l).
Proof.
  intros Hsep. unfold join. induction l as [|x l IH]; [done|].
  destruct l as [|y l].
  - simpl. lia.
  - change (String.concat sep (x :: y :: l)) with (x ++ sep ++ String.concat sep (y :: l)).
    rewrite !count_byte_app, IH, Hsep. done.
Qed.

Lemma contains_byte_count s c : contains_byte s c = false <-> count_byte c s = 0%nat.
Proof.
  induction s as [|d s IH]; simpl; [done|].
  destruct (Ascii.eqb d c); simpl; [|by rewrite IH]. split; [done|lia].
Qed.

Lemma split_byte_nonempty s c : split_byte s c <> [].
Proof. destruct s as [|d s]; simpl; [done|]. destruct (Ascii.eqb d c); [done|]. by destruct (split_byte s c). Qed.

Lemma app_cons a s t : String a s ++ t = String a (s ++ t).
Proof. reflexivity. Qed.

Lemma halve_pairs_ne c a s :
  a <> c -> halve_pairs c (String a s) = String a (halve_pairs c s).
Proof. intros Hne. destruct s as [|b s]; [done|]. cbn. by rewrite (proj2 (Ascii.eqb_neq _ _)). Qed.

Lemma halve_pairs_eq c s : halve_pairs c (String c (String c s)) = String c (halve_pairs c s).
Proof. cbn. by rewrite Ascii.eqb_refl. Qed.

Lemma halve_pairs_one c b s :
  b <> c -> halve_pairs c (String c (String b s)) = String c (halve_pairs c (String b s)).
Proof. intros Hne. cbn. rewrite (proj2 (Ascii.eqb_neq b c)), andb_false_r by done. done. Qed.

Lemma app_nonempty_r s t : t <> "" -> s ++ t <> "".
Proof. by destruct s. Qed.

Lemma has_prefix_app p t : has_prefix (p ++ t) p = true.
Proof.
  unfold has_prefix. induction p as [|a p IH]; [by destruct t|].
  rewrite app_cons. simpl. destruct (Ascii.ascii_dec a a); done.
Qed.

Lemma app_assoc s t u : (s ++ t) ++ u = s ++ (t ++ u).
Proof. induction s as [|a s IH]; [done|]. rewrite !app_cons. by rewrite IH. Qed.

Lemma app_inj_l p s t : p ++ s = p ++ t -> s = t.
Proof. induction p as [|a p IH]; [done|]. rewrite !app_cons. intros [= ?]. auto. Qed.

Lemma append_length_zero s t : String.length (s ++ t) = 0%nat <-> s = "" /\ t = "".
Proof. destruct s, t; simpl; naive_solver. Qed.

End Strings.

#[export] Hint Rewrite Strings.count_byte_app : sm_rw.

(** ** strconv *)
Module Strconv.

Definition digit_val (c : ascii) : option Z :=
  let n := Z.of_nat (nat_of_ascii c) in
  if (48 <=? n)%Z && (n <=? 57)%Z then Some (n - 48)%Z else None.

Definition is_digit (c : ascii) : bool :=
  match digit_val c with Some _ => true | None => false end.

(** [c | 0x20], strconv's [lower]. *)
Definition lower_code (c : ascii) : Z := Z.lor (Z.of_nat (nat_of_ascii c)) 32.

Fixpoint digits_acc (acc : Z) (s : string) : option Z :=
  match s with
  | EmptyString => Some acc
  | String c s' => match digit_val c with
                   | Some d => digits_acc (acc * 10 + d) s'
                   | None => None
                   end
  end.

Definition digits (s : string) : option Z :=
  match s with EmptyString => None | _ => digits_acc 0 s end.

Definition int64_min : Z := - 2 ^ 63.
Definition int64_max : Z := 2 ^ 63 - 1.
Definition in_int64 (z : Z) : option Z :=
  if (int64_min <=? z)%Z && (z <=? int64_max)%Z then Some z else None.

(** The result of arithmetic on 64-bit integers. *)
Definition wrap64 (z : Z) : Z := ((z + 2 ^ 63) mod 2 ^ 64 - 2 ^ 63)%Z.

(** [strconv.Atoi] (int is 64 bits wide): [None] is any error. *)
Definition atoi (s : string) : option Z :=
  match s with
  | String "-" r => match digits r with Some n => in_int64 (- n) | None => None end
  | String "+" r => match digits r with Some n => in_int64 n | None => None end
  | _ => match digits s with Some n => in_int64 n | None => None end
  end.

(** *** ParseFloat *)

(** The mantissa scanner of [readFloat]: the digits read so far as an integer,
    how many of them follow the point, the flags and the unread rest. *)
Record mantissa := {
  m_val : Z; m_frac : Z; m_dot : bool; m_digits : bool; m_under : bool
}.

Definition hex_val (c : ascii) : option Z :=
  let n := lower_code c in
  if (97 <=? n)%Z && (n <=? 102)%Z then Some (n - 87)%Z else None.

Definition mantissa_digit (hex : bool) (c : ascii) : option Z :=
  match digit_val c with
  | Some d => Some d
  | None => if hex then hex_val c else None
  end.

Fixpoint read_mantissa (hex : bool) (m : mantissa) (s : string) : mantissa * string :=
  match s with
  | EmptyString => (m, s)
  | String c s' =>
      if Ascii.eqb c "_" then
        read_mantissa hex {| m_val := m_val m; m_frac := m_frac m; m_dot := m_dot m;
                             m_digits := m_digits m; m_under := true |} s'
      else if Ascii.eqb c "." then
        if m_dot m then (m, s)
        else read_mantissa hex {| m_val := m_val m; m_frac := m_frac m; m_dot := true;
                                  m_digits := m_digits m; m_under := m_under m |} s'
      else match mantissa_digit hex c with
           | Some d =>
               read_mantissa hex
                 {| m_val := m_val m * (if hex then 16 else 10) + d;
                    m_frac := m_frac m + (if m_dot m then 1 else 0);
                    m_dot := m_dot m; m_digits := true; m_under := m_under m |} s'
           | None => (m, s)
           end
  end.

(** The exponent digits; the accumulator stops growing at 10000. *)
Fixpoint read_exponent (e : Z) (under : bool) (s : string) : Z * bool * string :=
  match s with
  | EmptyString => (e, under, s)
  | String c s' =>
      if Ascii.eqb c "_" then read_exponent e true s'
      else match digit_val c with
           | Some d => read_exponent (if (e <? 10000)%Z then e * 10 + d else e) under s'
           | None => (e, under, s)
           end
  end.

(** [underscoreOK], after the optional sign and base prefix: [saw] is the class
    of the last byte (0 a digit, 1 an underscore, 2 anything else). *)
Fixpoint underscore_scan (hex : bool) (saw : nat) (s : string) : bool :=
  match s with
  | EmptyString => negb (Nat.eqb saw 1)
  | String c s' =>
      if is_digit c || (hex && match hex_val c with Some _ => true | None => false end)
      then underscore_scan hex 0 s'
      else if Ascii.eqb c "_" then
        if Nat.eqb saw 0 then underscore_scan hex 1 s' else false
      else if Nat.eqb saw 1 then false
      else underscore_scan hex 2 s'
  end.

Definition strip_sign (s : string) : bool * string :=
  match s with
  | String "-" r => (true, r)
  | String "+" r => (false, r)
  | _ => (false, s)
  end.

(** Does [s] start with 0x or 0X (and have a third byte, as readFloat asks)? *)
Definition hex_prefix (s : string) : option string :=
  match s with
  | String "0" (String x (String y r)) =>
      if (lower_code x =? 120)%Z then Some (String y r) else None
  | _ => None
  end.

Definition underscore_ok (s : string) : bool :=
  let s1 := snd (strip_sign s) in
  match s1 with
  | String "0" (String x r) =>
      let l := lower_code x in
      if (l =? 98)%Z || (l =? 111)%Z || (l =? 120)%Z
      then underscore_scan (l =? 120)%Z 0 r
      else underscore_scan false 2 s1
  | _ => underscore_scan false 2 s1
  end.

(** |v| >= 2^1024 - 2^970 rounds to infinity, which ParseFloat reports as a range
    error; the value is [m * base10or2 ^ e]. *)
Definition float64_overflow : Z := 2 ^ 1024 - 2 ^ 970.
Definition overflows (hex : bool) (m e : Z) : bool :=
  let b := if hex then 2%Z else 10%Z in
  if (0 <=? e)%Z then (float64_overflow <=? m * b ^ e)%Z
  else (float64_overflow * b ^ (- e) <=? m)%Z.

Fixpoint to_lower (s : string) : string :=
  match s with
  | EmptyString => EmptyString
  | String c s' =>
      let n := nat_of_ascii c in
      String (if (65 <=? n)%nat && (n <=? 90)%nat then ascii_of_nat (n + 32) else c) (to_lower s')
  end.

(** [special]: the names of the infinities and of NaN, in any case. *)
Definition special_float (s : string) : bool :=
  let u := to_lower s in let v := to_lower (snd (strip_sign s)) in
  String.eqb v "inf" || String.eqb v "infinity" || String.eqb u "nan".

Definition m_init : mantissa :=
  {| m_val := 0; m_frac := 0; m_dot := false; m_digits := false; m_under := false |}.

(** Is [strconv.ParseFloat(s, 64)] without error? *)
Definition parse_float_ok (s : string) : bool :=
  if special_float s then true else
  let s1 := snd (strip_sign s) in
  let '(hex, s2) := match hex_prefix s1 with Some r => (true, r) | None => (false, s1) end in
  let '(m, rest) := read_mantissa hex m_init s2 in
  let finish (e : Z) (under : bool) :=
    (negb under || underscore_ok s) &&
    negb (overflows hex (m_val m) (if hex then e - 4 * m_frac m else e - m_frac m)) in
  if negb (m_digits m) then false else
  match rest with
  | EmptyString => if hex then false else finish 0%Z (m_under m)
  | String c r =>
      if (lower_code c =? (if hex then 112 else 101))%Z then
        let '(neg, r1) := strip_sign r in
        match r1 with
        | String d _ =>
            if is_digit d then
              let '(e, under, r2) := read_exponent 0 (m_under m) r1 in
              match r2 with
              | EmptyString => finish (if neg then - e else e)%Z under
              | _ => false
              end
            else false
        | EmptyString => false
        end
      else false
  end.

End Strconv.

(** ** time *)
Module Time.
Import Strconv.

(** A fixed two-digit field. *)
Definition num2 (s : string) : option (Z * string) :=
  match s with
  | String a (String b r) =>
      match digit_val a, digit_val b with
      | Some x, Some y => Some (x * 10 + y, r)%Z
      | _, _ => None
      end
  | _ => None
  end.

(** [getnum(value, false)]: one digit is enough (the hour field). *)
Definition num12 (s : string) : option (Z * string) :=
  match s with
  | String a r =>
      match digit_val a with
      | Some x =>
          match r with
          | String b r' => match digit_val b with
                           | Some y => Some (x * 10 + y, r')%Z
                           | None => Some (x, r)
                           end
          | EmptyString => None
          end
      | None => None
      end
  | EmptyString => None
  end.

Definition expect (c : ascii) (s : string) : option string :=
  match s with String d r => if Ascii.eqb c d then Some r else None | _ => None end.

Definition in_range (lo hi : Z) (x : Z) : option unit :=
  if (lo <=? x)%Z && (x <=? hi)%Z then Some tt else None.

Fixpoint skip_digits (s : string) : string :=
  match s with
  | String c s' => if is_digit c then skip_digits s' else s
  | EmptyString => EmptyString
  end.

(** An optional fraction after the seconds: a point or comma and digits. *)
Definition skip_fraction (s : string) : string :=
  match s with
  | String p (String d _ as r) =>
      if (Ascii.eqb p "." || Ascii.eqb p ",") && is_digit d then skip_digits r else s
  | _ => s
  end.

Definition is_leap (y : Z) : bool :=
  ((y mod 4 =? 0) && (negb (y mod 100 =? 0) || (y mod 400 =? 0)))%Z.

Definition days_in (m y : Z) : Z :=
  if (m =? 2)%Z then (if is_leap y then 29 else 28)%Z
  else if ((m =? 4) || (m =? 6) || (m =? 9) || (m =? 11))%Z then 30%Z else 31%Z.

(** The zone: [Z], or a sign, two digits, a colon and two digits. *)
Definition zone_ok (s : string) : bool :=
  match s with
  | String "Z" r => String.eqb r ""
  | String c r =>
      if Ascii.eqb c "+" || Ascii.eqb c "-" then
        match num2 r with
        | Some (h, r1) =>
            match expect ":" r1 with
            | Some r2 => match num2 r2 with
                         | Some (m, r3) => (h <=? 24)%Z && (m <=? 60)%Z && String.eqb r3 ""
                         | None => false
                         end
            | None => false
            end
        | None => false
        end
      else false
  | EmptyString => false
  end.

(** Is [time.Parse(time.RFC3339, s)] without error? *)
Definition rfc3339_ok (s : string) : bool :=
  match
    ('(yh, r) ← num2 s; '(yl, r) ← num2 r; r ← expect "-" r;
     '(mo, r) ← num2 r; _ ← in_range 1 12 mo; r ← expect "-" r;
     '(dd, r) ← num2 r; r ← expect "T" r;
     '(hh, r) ← num12 r; _ ← in_range 0 23 hh; r ← expect ":" r;
     '(mi, r) ← num2 r; _ ← in_range 0 59 mi; r ← expect ":" r;
     '(ss, r) ← num2 r; _ ← in_range 0 59 ss;
     _ ← in_range 1 (days_in mo (yh * 100 + yl)) dd;
     Some (zone_ok (skip_fraction r)))
  with
  | Some b => b
  | None => false
  end.

(** *** [Time.UTC().Format(time.RFC3339Nano)] of nanoseconds since 1970 *)

(** The proleptic Gregorian date of a day counted from 1970-01-01. *)
Definition civil_of_days (days : Z) : Z * Z * Z :=
  (let z := days + 719468 in
   let era := z / 146097 in
   let doe := z mod 146097 in
   let yoe := (doe - doe / 1460 + doe / 36524 - doe / 146096) / 365 in
   let doy := doe - (365 * yoe + yoe / 4 - yoe / 100) in
   let mp := (5 * doy + 2) / 153 in
   let m := if mp <? 10 then mp + 3 else mp - 9 in
   (yoe + era * 400 + (if m <=? 2 then 1 else 0), m, doy - (153 * mp + 2) / 5 + 1))%Z.
Fixpoint zeros (n : nat) : string := match n with 0%nat => "" | S n => String "0" (zeros n) end.
(** A non-negative number with at least [width] digits. *)
Definition padded (width : nat) (z : Z) : string :=
  let s := pretty z in (zeros (width - String.length s) ++ s)%string.
Fixpoint trim_zeros (s : string) : string :=
  match s with
  | EmptyString => EmptyString
  | String c r => match trim_zeros r with
                  | EmptyString => if Ascii.eqb c "0" then EmptyString else String c EmptyString
                  | t => String c t
                  end
  end.
Definition format_rfc3339_nano (ns : Z) : string :=
  let seconds := (ns / 1000000000)%Z in
  let nanos := (ns mod 1000000000)%Z in
  let '(y, m, d) := civil_of_days (seconds / 86400) in
  let sod := (seconds mod 86400)%Z in
  let fraction := trim_zeros (padded 9 nanos) in
  (padded 4 y ++ "-" ++ padded 2 m ++ "-" ++ padded 2 d ++ "T" ++
   padded 2 (sod / 3600) ++ ":" ++ padded 2 (sod / 60 mod 60) ++ ":" ++ padded 2 (sod mod 60) ++
   (if String.eqb fraction "" then "" else "." ++ fraction) ++ "Z")%string.

End Time.

Example format_examples :
  map Time.format_rfc3339_nano [0; 951782400000000000; 1735689599123000000; -1]%Z =
  ["1970-01-01T00:00:00Z"; "2000-02-29T00:00:00Z"; "2024-12-31T23:59:59.123Z"; "1969-12-31T23:59:59.999999999Z"].
Proof. vm_compute. reflexivity. Qed.

Example atoi_examples :
  Strconv.atoi "-42" = Some (-42)%Z /\ Strconv.atoi "" = None /\
  Strconv.atoi "9223372036854775808" = None /\ Strconv.atoi "-9223372036854775808" = Some (- 2 ^ 63)%Z.
Proof. vm_compute. auto. Qed.

Example parse_float_examples :
  map Strconv.parse_float_ok ["1.5"; ".5"; "1e400"; "1e308"; "0x1p-2"; "0x1"; "1_0"; "_1"; "Inf"; "nan"; ""; "."; "1e"; "5.e+1"]
  = [true; true; false; true; true; false; true; false; true; true; false; false; false; true].
Proof. vm_compute. reflexivity. Qed.

Example rfc3339_examples :
  map Time.rfc3339_ok ["2018-11-02T15:04:05Z"; "2018-11-31T15:04:05Z"; "2020-02-29T1:04:05.25+02:00"; "2019-02-29T01:04:05Z"; "2018-11-02t15:04:05Z"; "2018-11-02"]
  = [true; false; true; false; false; false].
Proof. vm_compute. reflexivity. Qed.

(** ** encoding/base64 and strconv.FormatInt

    [base64.StdEncoding] as the controllers use it for page tokens: encoding with padding, and
    decoding, which skips line breaks, wants the padding and ignores the bits that the last
    digit of a short group has too many.  Decoding what was encoded gives it back, and so does
    parsing a formatted integer. *)
Module Base64.
Local Open Scope Z_scope.

Definition byte_val (c : ascii) : Z := Z.of_nat (nat_of_ascii c).
Definition val_byte (z : Z) : ascii := ascii_of_nat (Z.to_nat z).

Definition alphabet : string := "ABCDEFGHIJKLMNOPQRSTUVWXYZabcdefghijklmnopqrstuvwxyz0123456789+/".
Definition encode_digit (z : Z) : ascii := default "="%char (String.get (Z.to_nat z) alphabet).
Fixpoint index_of (c : ascii) (s : string) (i : Z) : option Z :=
  match s with
  | EmptyString => None
  | String a s' => if Ascii.eqb a c then Some i else index_of c s' (i + 1)
  end.
Definition decode_digit (c : ascii) : option Z := index_of c alphabet 0.

(** The digits of a group of three bytes. *)
Definition group (a b c : Z) : Z := a * 65536 + b * 256 + c.
Definition digit (n i : Z) : ascii := encode_digit ((n / 64 ^ i) mod 64).

Fixpoint EncodeToString (s : string) : string :=
  match s with
  | String a (String b (String c s')) =>
      let n := group (byte_val a) (byte_val b) (byte_val c) in
      String (digit n 3) (String (digit n 2) (String (digit n 1) (String (digit n 0) (EncodeToString s'))))
  | String a (String b EmptyString) =>
      let n := group (byte_val a) (byte_val b) 0 in
      String (digit n 3) (String (digit n 2) (String (digit n 1) "="))
  | String a EmptyString =>
      let n := group (byte_val a) 0 0 in
      String (digit n 3) (String (digit n 2) "==")
  | EmptyString => ""
  end.

Definition is_break (c : ascii) : bool := Ascii.eqb c "010" || Ascii.eqb c "013".
Fixpoint skip_breaks (s : string) : string :=
  match s with
  | EmptyString => ""
  | String c s' => if is_break c then skip_breaks s' else String c (skip_breaks s')
  end.

(** The groups of four digits; only the last may be padded. *)
Fixpoint decode_groups (s : string) : option string :=
  match s with
  | EmptyString => Some ""
  | String a (String b (String c (String d s'))) =>
      match decode_digit a, decode_digit b, decode_digit c, decode_digit d with
      | Some x, Some y, Some z, Some w =>
          let n := ((x * 64 + y) * 64 + z) * 64 + w in
          match decode_groups s' with
          | Some r => Some (String (val_byte (n / 65536)) (String (val_byte ((n / 256) mod 256))
                             (String (val_byte (n mod 256)) r)))
          | None => None
          end
      | Some x, Some y, Some z, None =>
          if Ascii.eqb d "=" && String.eqb s' "" then
            let n := ((x * 64 + y) * 64 + z) * 64 in
            Some (String (val_byte (n / 65536)) (String (val_byte ((n / 256) mod 256)) ""))
          else None
      | Some x, Some y, None, _ =>
          if Ascii.eqb c "=" && Ascii.eqb d "=" && String.eqb s' "" then
            Some (String (val_byte (((x * 64 + y) * 4096) / 65536)) "")
          else None
      | _, _, _, _ => None
      end
  | _ => None
  end.
Definition DecodeString (s : string) : option string := decode_groups (skip_breaks s).

(** ** Round trip *)
Lemma byte_val_range c : 0 <= byte_val c < 256.
Proof. unfold byte_val. pose proof (nat_ascii_bounded c). lia. Qed.
Lemma val_byte_val c : val_byte (byte_val c) = c.
Proof. unfold val_byte, byte_val. by rewrite Nat2Z.id, ascii_nat_embedding. Qed.

Lemma digits_checked :
  forallb (fun n => let z := Z.of_nat n in
    match decode_digit (encode_digit z) with Some y => Z.eqb y z | None => false end &&
    negb (is_break (encode_digit z))) (seq 0 64) = true.
Proof. by vm_compute. Qed.
Lemma digit_spec n i : decode_digit (digit n i) = Some ((n / 64 ^ i) mod 64) /\ is_break (digit n i) = false.
Proof.
  unfold digit. set (z := (n / 64 ^ i) mod 64). assert (Hz : 0 <= z < 64) by (apply Z.mod_pos_bound; lia).
  pose proof digits_checked as Hc. rewrite forallb_forall in Hc. specialize (Hc (Z.to_nat z)).
  rewrite Z2Nat.id in Hc by lia. cbv zeta in Hc. apply andb_prop in Hc as [Hd Hb].
  - split; [|by apply negb_true_iff]. destruct (decode_digit _); [|done]. by apply Z.eqb_eq in Hd as ->.
  - apply in_seq. lia.
Qed.

Lemma digits_group n : 0 <= n < 16777216 ->
  ((((n / 64 ^ 3) mod 64 * 64 + (n / 64 ^ 2) mod 64) * 64 + (n / 64 ^ 1) mod 64) * 64 + (n / 64 ^ 0) mod 64 = n) /\
  (n mod 64 = 0 -> (((n / 64 ^ 3) mod 64 * 64 + (n / 64 ^ 2) mod 64) * 64 + (n / 64 ^ 1) mod 64) * 64 = n) /\
  (n mod 4096 = 0 -> ((n / 64 ^ 3) mod 64 * 64 + (n / 64 ^ 2) mod 64) * 4096 = n).
Proof.
  change (64 ^ 3) with 262144. change (64 ^ 2) with 4096. change (64 ^ 1) with 64. change (64 ^ 0) with 1.
  intros Hn. Z.to_euclidean_division_equations. lia.
Qed.
Lemma group_bytes a b c : 0 <= a < 256 -> 0 <= b < 256 -> 0 <= c < 256 ->
  0 <= group a b c < 16777216 /\ group a b c / 65536 = a /\ (group a b c / 256) mod 256 = b /\
  group a b c mod 256 = c.
Proof. unfold group. intros. Z.to_euclidean_division_equations. lia. Qed.

Lemma decode_encode s : decode_groups (EncodeToString s) = Some s.
Proof.
  induction s as [s IH] using (well_founded_ind (well_founded_ltof _ String.length)).
  destruct s as [|a [|b [|c s]]]; [done| | |]; cbn [EncodeToString decode_groups];
    rewrite ?(proj1 (digit_spec _ _)); pose proof (byte_val_range a) as Ha;
    try pose proof (byte_val_range b) as Hb; try pose proof (byte_val_range c) as Hc.
  - change (decode_digit "=") with (@None Z).
    destruct (group_bytes (byte_val a) 0 0) as (Hn & H1 & _); [lia..|].
    destruct (digits_group _ Hn) as (_ & _ & H3). cbn [Ascii.eqb Bool.eqb andb String.eqb]. rewrite H3.
    + by rewrite H1, val_byte_val.
    + unfold group. Z.to_euclidean_division_equations. lia.
  - change (decode_digit "=") with (@None Z).
    destruct (group_bytes (byte_val a) (byte_val b) 0) as (Hn & H1 & H2 & _); [lia..|].
    destruct (digits_group _ Hn) as (_ & H3 & _). cbn [Ascii.eqb Bool.eqb andb String.eqb]. rewrite H3.
    + by rewrite H1, H2, !val_byte_val.
    + unfold group. Z.to_euclidean_division_equations. lia.
  - destruct (group_bytes (byte_val a) (byte_val b) (byte_val c)) as (Hn & H1 & H2 & H3); [lia..|].
    destruct (digits_group _ Hn) as (H4 & _). rewrite H4, IH by (unfold ltof; simpl; lia).
    by rewrite H1, H2, H3, !val_byte_val.
Qed.
Lemma skip_breaks_encoded s : skip_breaks (EncodeToString s) = EncodeToString s.
Proof.
  induction s as [s IH] using (well_founded_ind (well_founded_ltof _ String.length)).
  destruct s as [|a [|b [|c s]]]; cbn [EncodeToString skip_breaks]; rewrite ?(proj2 (digit_spec _ _)); try done.
  by rewrite IH by (unfold ltof; simpl; lia).
Qed.
Lemma DecodeString_EncodeToString s : DecodeString (EncodeToString s) = Some s.
Proof. unfold DecodeString. by rewrite skip_breaks_encoded, decode_encode. Qed.
End Base64.

(** [strconv.FormatInt(z, 10)] *)
Definition FormatInt (z : Z) : string := pretty z.

Lemma digit_val_pretty x : (x < 10)%N -> Strconv.digit_val (pretty_N_char x) = Some (Z.of_N x).
Proof. intros Hx. destruct x as [|[[[[]|[]|]|[[]|[]|]|]|[[[]|[]|]|[[]|[]|]|]|]]; try done; lia. Qed.
Lemma digits_acc_pretty x : forall s, (0 < x)%N ->
  Strconv.digits_acc 0 (pretty_N_go x s) = Strconv.digits_acc (Z.of_N x) s.
Proof.
  induction (N.lt_wf_0 x) as [x _ IH]. intros s Hx. pose proof (N.div_mod x 10 ltac:(done)) as Hdm.
  rewrite pretty_N_go_step by done. destruct (N.eq_dec (x / 10) 0) as [Hz|Hz].
  - rewrite Hz, pretty_N_go_0. cbn [Strconv.digits_acc].
    rewrite digit_val_pretty by (apply N.mod_lt; lia). f_equal. lia.
  - assert (x / 10 < x)%N by (apply N.div_lt; lia). assert (0 < x / 10)%N by (by apply N.neq_0_lt_0).
    rewrite IH by done. cbn [Strconv.digits_acc].
    rewrite digit_val_pretty by (apply N.mod_lt; lia). f_equal. lia.
Qed.
Lemma pretty_N_go_nonempty x s : (0 < x)%N -> exists c r, pretty_N_go x s = String c r /\ is_Some (Strconv.digit_val c).
Proof.
  revert s. induction (N.lt_wf_0 x) as [x _ IH]. intros s Hx. rewrite pretty_N_go_step by done.
  destruct (N.eq_dec (x / 10) 0) as [Hz|Hz].
  - rewrite Hz, pretty_N_go_0. eexists _, _. split; [done|]. rewrite digit_val_pretty by (apply N.mod_lt; lia). by eexists.
  - apply IH; [apply N.div_lt; lia|by apply N.neq_0_lt_0].
Qed.

Lemma atoi_FormatInt z : (0 <= z <= Strconv.int64_max)%Z -> Strconv.atoi (FormatInt z) = Some z.
Proof.
  intros [H0 Hm]. unfold FormatInt. destruct z as [|p|p]; [done| |lia].
  change (pretty (Zpos p)) with (pretty_N_go (Npos p) "").
  assert (Hin : Strconv.in_int64 (Zpos p) = Some (Zpos p)).
  { unfold Strconv.in_int64, Strconv.int64_min. destruct (Z.leb_spec (Zpos p) Strconv.int64_max); [|lia].
    rewrite andb_true_r. destruct (Z.leb_spec (- 2 ^ 63) (Zpos p)); [done|]. lia. }
  destruct (pretty_N_go_nonempty (Npos p) "") as (c & r & Hs & Hc); [done|].
  assert (Hd : Strconv.digits (pretty_N_go (Npos p) "") = Some (Zpos p)).
  { unfold Strconv.digits. rewrite Hs, <- Hs. by rewrite digits_acc_pretty. }
  unfold Strconv.atoi. rewrite Hd, Hs in *. 
  destruct c as [[] [] [] [] [] [] [] []]; try (by destruct Hc); exact Hin.
Qed.
