(* ===== verification/GoSlice.v ===== *)
(** * Go slices over a heap of backing arrays

    A slice is a window [off, off+len) of a backing array, with room up to its
    capacity; slices of the same array alias.  [append] writes in place when the
    capacity allows and otherwise copies to a fresh array whose capacity the runtime
    chooses: the choice is the interface [GrowPolicy]. *)

From S2P Require Import Prelude.
From stdpp Require Import base gmap strings list fin_maps.
Local Open Scope string_scope.
Local Open Scope list_scope.
Local Open Scope nat_scope.

(** What the Go runtime promises about a reallocated slice: enough capacity. *)
Class GrowPolicy := {
  grow : nat -> nat -> nat;
  grow_ge : forall cap needed, needed <= grow cap needed
}.

(** The doubling policy of the runtime for small slices. *)
#[export] Instance doubling_policy : GrowPolicy.
Proof. exists (fun cap needed => Nat.max (2 * cap) needed). intros; lia. Defined.

Record slice := { ptr : nat; off : nat; slen : nat; scap : nat }.
Definition nil_slice : slice := {| ptr := 0; off := 0; slen := 0; scap := 0 |}.

Section Slices.
Context {A : Type} `{Inhabited A} `{GrowPolicy}.

(** The elements of the backing array from the start of the slice on. *)
Definition array (h : gmap nat (list A)) (p : nat) : list A := default [] (h !! p).
Definition read (h : gmap nat (list A)) (s : slice) : list A :=
  take (slen s) (drop (off s) (array h (ptr s))).

(** [x[i]] for a loop variable of [range x]: the element now in the array. *)
Definition index (h : gmap nat (list A)) (s : slice) (i : nat) : result A :=
  if decide (i < slen s) then
    match read h s !! i with Some a => Ok a | None => Panic "index out of range" end
  else Panic "index out of range".

(** [s[:hi]] and [s[lo:]], with Go's bounds checks. *)
Definition slice_to (s : slice) (hi : nat) : result slice :=
  if decide (hi <= scap s)
  then Ok {| ptr := ptr s; off := off s; slen := hi; scap := scap s |}
  else Panic "slice bounds out of range".
Definition slice_from (s : slice) (lo : nat) : result slice :=
  if decide (lo <= slen s)
  then Ok {| ptr := ptr s; off := off s + lo; slen := slen s - lo; scap := scap s - lo |}
  else Panic "slice bounds out of range".

(** Overwrite the array from position [i] on. *)
Definition write_at (l : list A) (i : nat) (xs : list A) : list A :=
  take i l ++ xs ++ drop (i + length xs) l.

(** [append(s, xs...)]. *)
Definition append (h : gmap nat (list A)) (s : slice) (xs : list A)
    : gmap nat (list A) * slice :=
  let needed := slen s + length xs in
  if decide (needed <= scap s) then
    (match xs with
     | [] => h
     | _ => <[ptr s := write_at (array h (ptr s)) (off s + slen s) xs]> h
     end,
     {| ptr := ptr s; off := off s; slen := needed; scap := scap s |})
  else
    let cap := grow (scap s) needed in
    let p := fresh (dom h) in
    (<[p := read h s ++ xs ++ replicate (cap - needed) inhabitant]> h,
     {| ptr := p; off := 0; slen := needed; scap := cap |}).

(** A slice with capacity holds the array [p]; a slice without one holds nothing. *)
Definition owns (s : slice) (p : nat) : Prop := 0 < scap s /\ ptr s = p.

Definition wf_slice (h : gmap nat (list A)) (s : slice) : Prop :=
  slen s <= scap s /\
  (0 < scap s -> exists l, h !! ptr s = Some l /\ off s + scap s <= length l).

Lemma read_length h s : wf_slice h s -> length (read h s) = slen s.
Proof.
  intros [Hle Hex]. unfold read. rewrite length_take, length_drop.
  destruct (decide (0 < scap s)) as [Hc|Hc]; [|lia].
  destruct (Hex Hc) as (l & Hl & ?). unfold array. rewrite Hl. simpl. lia.
Qed.

Lemma owns_dom h s p : wf_slice h s -> owns s p -> p ∈ dom h.
Proof. intros [_ Hex] [Hc <-]. destruct (Hex Hc) as (l & Hl & _). apply elem_of_dom. eauto. Qed.

(** Writing one array leaves the slices of the others alone. *)
Lemma read_insert_ne h s p l : ~ owns s p -> wf_slice h s -> read (<[p:=l]> h) s = read h s.
Proof.
  intros Hno [Hle _]. unfold read, array.
  destruct (decide (ptr s = p)) as [<-|Hne]; [|by rewrite lookup_insert_ne].
  assert (scap s = 0) by (unfold owns in Hno; destruct (scap s); [done|exfalso; apply Hno; split; [lia|done]]).
  assert (slen s = 0) as -> by lia. done.
Qed.

Lemma wf_insert h s p l :
  wf_slice h s -> (forall l0, h !! p = Some l0 -> length l0 <= length l) -> wf_slice (<[p:=l]> h) s.
Proof.
  intros [Hle Hex] Hl. split; [done|]. intros Hc. destruct (Hex Hc) as (l0 & Hl0 & ?).
  destruct (decide (ptr s = p)) as [<-|Hne].
  - exists l. rewrite lookup_insert_eq. specialize (Hl _ Hl0). split; [done|lia].
  - exists l0. rewrite lookup_insert_ne by done. eauto.
Qed.

Lemma length_write_at l i xs : i + length xs <= length l -> length (write_at l i xs) = length l.
Proof. intros. unfold write_at. rewrite !length_app, length_take, length_drop. lia. Qed.

Lemma read_write_at l o n xs :
  o + n + length xs <= length l ->
  take (n + length xs) (drop o (write_at l (o + n) xs)) = take n (drop o l) ++ xs.
Proof.
  intros Hb. unfold write_at.
  rewrite drop_app_le by (rewrite length_take; lia).
  rewrite take_app_ge by (rewrite length_drop, length_take; lia).
  replace (drop o (take (o + n) l)) with (take n (drop o l))
    by (rewrite (take_drop_commute l n o); done).
  f_equal. rewrite length_take, length_drop.
  replace (n + length xs - min n (length l - o)) with (length xs) by lia.
  by rewrite take_app_length.
Qed.

Lemma lookup_write_at l i xs j :
  i + length xs <= length l ->
  write_at l i xs !! j =
    if decide (j < i) then l !! j
    else if decide (j < i + length xs) then xs !! (j - i) else l !! j.
Proof.
  intros Hb. unfold write_at. case_decide as Hj.
  - rewrite lookup_app_l by (rewrite length_take; lia). by apply lookup_take_lt.
  - rewrite lookup_app_r by (rewrite length_take; lia). rewrite length_take.
    replace (j - min i (length l)) with (j - i) by lia.
    case_decide as Hk.
    + by rewrite lookup_app_l by lia.
    + rewrite lookup_app_r, lookup_drop by lia. f_equal. lia.
Qed.

Lemma lookup_read h s i :
  read h s !! i = if decide (i < slen s) then array h (ptr s) !! (off s + i) else None.
Proof.
  unfold read. case_decide.
  - by rewrite lookup_take_lt, lookup_drop.
  - by rewrite lookup_take_ge by lia.
Qed.

(** What [append] does to a slice: its contents grow by [xs], it stays well-formed,
    no array shrinks or goes away, and the only array written is its own or a
    fresh one. *)
Lemma append_spec h s xs h' s' :
  wf_slice h s -> append h s xs = (h', s') ->
  read h' s' = read h s ++ xs /\ wf_slice h' s' /\ dom h ⊆ dom h' /\
  (forall p, owns s' p -> owns s p \/ p ∉ dom h) /\
  (forall t, wf_slice h t -> wf_slice h' t) /\
  (forall t, wf_slice h t -> (forall p, owns s p -> ~ owns t p) -> read h' t = read h t).
Proof.
  intros Hwf. unfold append. case_decide as Hfit.
  - intros [= <- <-]. destruct xs as [|x xs'] eqn:Exs.
    { simpl. rewrite Nat.add_0_r, app_nil_r. split; [done|]. split; [exact Hwf|].
      split; [done|]. split; [|done]. intros p [Hp <-]. by left. }
    rewrite <- Exs in *. assert (Hc : 0 < scap s) by (subst xs; simpl in *; lia).
    destruct Hwf as [Hle Hex]. destruct (Hex Hc) as (l & Hl & Hlen).
    assert (Harr : array h (ptr s) = l) by (unfold array; by rewrite Hl).
    rewrite !Harr.
    assert (Hlw : length (write_at l (off s + slen s) xs) = length l) by (apply length_write_at; lia).
    assert (Hother : forall t, wf_slice h t -> wf_slice (<[ptr s:=write_at l (off s + slen s) xs]> h) t).
    { intros t Ht. apply wf_insert; [done|]. intros l0 Hl0. rewrite Hlw. rewrite Hl in Hl0. by simplify_eq. }
    split; [|split; [|split; [|split; [|split]]]].
    + unfold read, array. simpl. rewrite lookup_insert_eq. simpl. rewrite Hl. simpl.
      rewrite read_write_at by lia. done.
    + split; simpl; [lia|]. intros _. eexists. rewrite lookup_insert_eq. split; [done|]. lia.
    + rewrite dom_insert. set_solver.
    + intros p [? <-]. by left.
    + exact Hother.
    + intros t Ht Hd. apply read_insert_ne; [|done]. by apply Hd.
  - intros [= <- <-]. set (p := fresh (dom h)). assert (Hp : p ∉ dom h) by apply is_fresh.
    pose proof (grow_ge (scap s) (slen s + length xs)) as Hg.
    split; [|split; [|split; [|split; [|split]]]].
    + unfold read at 1, array. simpl. rewrite lookup_insert_eq. simpl.
      rewrite drop_0, app_assoc. rewrite take_app_le by (rewrite length_app, read_length by done; lia).
      rewrite take_ge; [done|]. rewrite length_app, read_length by done. lia.
    + split; simpl; [done|]. intros _. eexists. rewrite lookup_insert_eq. split; [done|].
      rewrite !length_app, read_length, length_replicate by done. lia.
    + rewrite dom_insert. set_solver.
    + intros q [_ <-]. by right.
    + intros t Ht. apply wf_insert; [done|]. intros l0 Hl0. exfalso. apply Hp, elem_of_dom. eauto.
    + intros t Ht _. apply read_insert_ne; [|done]. intros Ho. by apply Hp, (owns_dom h t).
Qed.

(** What a slice shows of its array is not written by an [append] to it: only the
    room behind it is. *)
Lemma append_keeps h s xs h' s' :
  wf_slice h s -> append h s xs = (h', s') -> read h' s = read h s.
Proof.
  intros Hwf. unfold append. case_decide as Hfit; intros [= <- <-].
  - destruct xs as [|x xs']; [done|]. set (xs := x :: xs') in *.
    destruct Hwf as [Hle Hex]. destruct (Hex ltac:(simpl in Hfit; lia)) as (l & Hl & Hlen).
    assert (Harr : array h (ptr s) = l) by (unfold array; by rewrite Hl). rewrite !Harr.
    apply list_eq. intros i. rewrite !lookup_read. case_decide; [|done].
    unfold array. rewrite lookup_insert_eq, Hl. simpl.
    rewrite lookup_write_at, decide_True by lia. done.
  - apply read_insert_ne; [|done]. intros Ho. by apply (is_fresh (dom h)), (owns_dom h s).
Qed.

(** [append] of something never leaves an empty slice without memory. *)
Lemma slice_to_ok s hi : hi <= scap s ->
  slice_to s hi = Ok {| ptr := ptr s; off := off s; slen := hi; scap := scap s |}.
Proof. intros. unfold slice_to. by rewrite decide_True. Qed.
Lemma slice_from_ok s lo : lo <= slen s ->
  slice_from s lo = Ok {| ptr := ptr s; off := off s + lo; slen := slen s - lo; scap := scap s - lo |}.
Proof. intros. unfold slice_from. by rewrite decide_True. Qed.

Lemma index_ok h s i a : wf_slice h s -> read h s !! i = Some a -> index h s i = Ok a.
Proof.
  intros Hwf Hi. unfold index. rewrite decide_True, Hi; [done|].
  rewrite <- (read_length h s) by done. by eapply lookup_lt_Some.
Qed.

(** [append(s[:i], s[i+1:]...)]: the element at [i] goes, in place. *)
Lemma delete_at_spec h s i :
  wf_slice h s -> i < slen s ->
  let s1 := {| ptr := ptr s; off := off s; slen := i; scap := scap s |} in
  let s2 := {| ptr := ptr s; off := off s + S i; slen := slen s - S i; scap := scap s - S i |} in
  wf_slice h s1 /\ read h s1 = take i (read h s) /\ read h s2 = drop (S i) (read h s).
Proof.
  intros [Hle Hex] Hi. simpl. split; [|split].
  - split; simpl; [lia|done].
  - unfold read; simpl. rewrite take_take. f_equal. lia.
  - unfold read; simpl. rewrite skipn_firstn_comm, drop_drop. done.
Qed.

End Slices.
