(* ===== verification/Errors.v ===== *)
(** * Error values and their HTTP form (pkg/util/errors.go)

    How the errors of the storage, of the references of shared instances and of
    instance sharing become HTTP errors, and how an error becomes a response. *)

From S2P Require Import Prelude GoStd.
From stdpp Require Import base strings list pretty.
From Stdlib Require Import ZArith.
Local Open Scope string_scope.
Local Open Scope Z_scope.

Definition StatusBadRequest : Z := 400.
Definition StatusNotFound : Z := 404.
Definition StatusConflict : Z := 409.
Definition StatusPreconditionFailed : Z := 412.
Definition StatusInternalServerError : Z := 500.

Definition SupportsInstanceSharingKey : string := "supportsInstanceSharing".

(** The [Error] method: the texts of the sentinels and of the error types. *)
Fixpoint Error (e : error) : string :=
  match e with
  | EPlain msg => msg
  | EUnsupportedQuery msg => msg
  | EHTTP _ descr _ => descr
  | EBadRequestStorage cause => Error cause
  | EForeignKeyViolation entity reference =>
      "Could not delete entity " ++ entity ++ " due to existing reference entity " ++ reference
  | ENotFoundInStorage => "not found"
  | ESharedInstanceHasReferences => "shared instance has references"
  | EUnsharingInstanceWithReferences => "failed un-sharing instance with references"
  | EAlreadyExistsInStorage => "unique constraint violation"
  | EConcurrentResourceModification => "another resource update happened concurrently. Please reattempt the update"
  | EInvalidNotificationRevision => "notification revision is not valid"
  | ECatalogUsesReservedPlanName => "catalog contains a reserved plan name"
  | EPlanMustBeBindable => "plan must be bindable"
  | EAsyncNotSupportedForSharing => "can't use async for sharing instances"
  | EReferencedInstanceNotShared => "referenced-instance should be shared first"
  | EReferencedInstanceNotFound => "referenced-instance not found"
  | EMultipleReferenceSelectorResults => "multiple selector results"
  | ENoResultsForReferenceSelector => "no results for reference selector"
  | EReferenceWithWrongServiceOffering => "referenced-instance not matches the service offering"
  | EChangingPlanOfReferenceInstance => "changing plan of reference instance"
  | ENewPlanDoesNotSupportInstanceSharing => "changing shared instance plan to a non-shareable plan"
  | EPlanDoesNotSupportInstanceSharing => "plan does not support instance sharing"
  | EChangingParametersOfReferenceInstance => "changing parameters of reference instance"
  | EMissingOrInvalidReferenceParameter => "missing or invalid referenced_instance_id parameter"
  | ESharedPlanHasReferences => "shared plan has references"
  | EInvalidShareRequest => "invalid share request"
  | EInvalidProvisionRequestWithSharedProperty => "invalid provision request"
  | ERequestBodyContainsReferencedInstanceID => "invalid provision request body with reference key"
  end.

(** [HTTPError] of a response: the pointer [t] of the source, with its status filled
    in when it was zero. *)
Record HTTPError := { ErrorType : string; Description : string; StatusCode : Z }.

Definition ToHTTPError (err : error) : HTTPError :=
  match err with
  | EUnsupportedQuery _ =>
      {| ErrorType := "BadRequest"; Description := Error err; StatusCode := StatusBadRequest |}
  | EHTTP t d s =>
      {| ErrorType := t; Description := d;
         StatusCode := if Z.eqb s 0 then StatusInternalServerError else s |}
  | _ =>
      {| ErrorType := "InternalError"; Description := "Internal server error";
         StatusCode := StatusInternalServerError |}
  end.

(** [HandleResponseError]: the body read from the response or the error of reading it,
    and method and URL of the request when the response has one. *)
Definition HandleResponseError (status : Z) (body : string + error) (request : option (string * string))
    : error :=
  let body := match body with
              | inl b => b
              | inr e => "error reading response body: " ++ Error e
              end in
  let err := "StatusCode: " ++ pretty status ++ " Body: " ++ body in
  match request with
  | Some (method, url) => EPlain ("request " ++ method ++ " " ++ url ++ " failed: " ++ err)
  | None => EPlain ("request failed: " ++ err)
  end.

(** A nil error is [None]. *)
Definition HandleStorageError (err : option error) (entityName : string) : option error :=
  match err with
  | None => None
  | Some (EHTTP _ _ _) => err
  | Some e =>
      let entityName := if String.eqb entityName "" then "entity" else entityName in
      Some match e with
      | EAlreadyExistsInStorage =>
          EHTTP "Conflict" ("found conflicting " ++ entityName) StatusConflict
      | ENotFoundInStorage =>
          EHTTP "NotFound" ("could not find such " ++ entityName) StatusNotFound
      | EConcurrentResourceModification =>
          EHTTP "ConcurrentResourceUpdate"
            "Another concurrent resource update occurred. Please reattempt the update operation"
            StatusPreconditionFailed
      | EForeignKeyViolation _ _ =>
          EHTTP "ExistingReferenceEntity"
            ("Error deleting entity " ++ entityName ++ ": " ++ Error e) StatusConflict
      | EBadRequestStorage _ =>
          EHTTP "BadRequest" ("storage err: " ++ Error e) StatusBadRequest
      | _ => e
      end
  end.

Definition HandleReferencesError (err : option error) (guidsArray : list string) : option error :=
  match err with
  | None => None
  | Some (EHTTP _ _ _) => err
  | Some e =>
      Some match e with
      | ESharedInstanceHasReferences =>
          EHTTP "BadRequest"
            ("Couldn't delete the service instance. Before you can delete it, you first need to delete these " ++
             pretty (Z.of_nat (length guidsArray)) ++ " references: " ++ Strings.fmt_strings guidsArray)
            StatusBadRequest
      | EUnsharingInstanceWithReferences =>
          EHTTP "BadRequest"
            ("Couldn't unshare the service instance. Before you can unshare it, you first need to delete these " ++
             pretty (Z.of_nat (length guidsArray)) ++ " references: " ++ Strings.fmt_strings guidsArray)
            StatusBadRequest
      | _ => e
      end
  end.

Definition HandleInstanceSharingError (err : option error) (entityName : string) : option error :=
  match err with
  | None => None
  | Some (EHTTP _ _ _) => err
  | Some e =>
      Some match e with
      | ECatalogUsesReservedPlanName =>
          EHTTP "BadRequest"
            ("Catalog registration failed. The plan name " ++ Strings.dquote ++ entityName ++
             Strings.dquote ++ " is a reserved name; you must choose a different plan name.")
            StatusBadRequest
      | EPlanMustBeBindable =>
          EHTTP "BadRequest"
            ("The plan " ++ entityName ++
             " must be defined as 'bindable' so that it can support instance sharing.")
            StatusBadRequest
      | EReferencedInstanceNotShared =>
          EHTTP "BadRequest"
            ("Failed to create the instance. The instance " ++ entityName ++
             ", to which you want to refer, must be shared first.")
            StatusBadRequest
      | EReferencedInstanceNotFound =>
          EHTTP "NotFound"
            ("Failed to create the instance. The instance " ++ entityName ++
             ", to which you want to refer, was not found.")
            StatusNotFound
      | EReferenceWithWrongServiceOffering =>
          EHTTP "NotFound"
            ("Failed to create the instance. The instance " ++ entityName ++
             ", to which you want to refer, does not belong to the specified service offering.")
            StatusNotFound
      | EMultipleReferenceSelectorResults =>
          EHTTP "BadRequest"
            ("Failed to create the instance. There are multiple shared instances that match your criteria. Refine your search criteria or specify the shared instance ID.")
            StatusNotFound
      | ENoResultsForReferenceSelector =>
          EHTTP "NotFound"
            ("Failed to create the instance. Could not find a shared instance that matches your criteria. Refine your search criteria or specify the shared instance ID.")
            StatusNotFound
      | EChangingPlanOfReferenceInstance =>
          EHTTP "BadRequest"
            ("Failed to update the instance " ++ entityName ++
             ". It is not allowed to change the plan of a reference instance.")
            StatusBadRequest
      | ENewPlanDoesNotSupportInstanceSharing =>
          EHTTP "BadRequest"
            ("Failed to update the instance’s plan. The new plan must support instance sharing.")
            StatusBadRequest
      | EPlanDoesNotSupportInstanceSharing =>
          EHTTP "BadRequest"
            ("Failed to share the instance. The plan " ++ entityName ++
             " does not support instance sharing.")
            StatusBadRequest
      | EChangingParametersOfReferenceInstance =>
          EHTTP "BadRequest"
            ("Failed to update the instance " ++ entityName ++
             ". It is not allowed to change the parameters of a reference instance.")
            StatusBadRequest
      | EMissingOrInvalidReferenceParameter =>
          EHTTP "BadRequest"
            ("Failed to create the instance. Check your parameter specifications for the instance to which you want to refer and try again.")
            StatusBadRequest
      | ESharedPlanHasReferences =>
          EHTTP "BadRequest"
            ("Failed to update the service plan " ++ entityName ++ ". Before you can set " ++
             SupportsInstanceSharingKey ++
             " to false, you first need to unshare its shared instances.")
            StatusBadRequest
      | EInvalidShareRequest =>
          EHTTP "BadRequest"
            ("Failed to update the instance " ++ entityName ++
             ". It is not allowed to modify the " ++ Strings.dquote ++ "shared" ++
             Strings.dquote ++ " property in the request that also modifies other properties.")
            StatusBadRequest
      | EInvalidProvisionRequestWithSharedProperty =>
          EHTTP "BadRequest"
            ("Failed to create the instance. Setting the instance as " ++ Strings.dquote ++
             "shared" ++ Strings.dquote ++ " is only possible after the instance has been created.")
            StatusBadRequest
      | EAsyncNotSupportedForSharing =>
          EHTTP "BadRequest"
            ("Async requests are not supported when modifying the " ++ Strings.dquote ++
             "shared" ++ Strings.dquote ++ " property. Try again with " ++ Strings.dquote ++
             "async" ++ Strings.dquote ++ " = " ++ Strings.dquote ++ "false" ++ Strings.dquote ++
             ".")
            StatusBadRequest
      | ERequestBodyContainsReferencedInstanceID =>
          EHTTP "BadRequest"
            ("Invalid request. Place the " ++ Strings.dquote ++ entityName ++ Strings.dquote ++
             " key in the " ++ Strings.dquote ++ "parameters" ++ Strings.dquote ++
             " section of the request.")
            StatusBadRequest
      | _ => e
      end
  end.

(** ** Specification *)
Definition is_http (e : error) : bool := match e with EHTTP _ _ _ => true | _ => false end.

(** The errors of instance sharing. *)
Definition sharing_error (e : error) : bool :=
  match e with
  | ECatalogUsesReservedPlanName | EPlanMustBeBindable | EAsyncNotSupportedForSharing
  | EReferencedInstanceNotShared | EReferencedInstanceNotFound | EMultipleReferenceSelectorResults
  | ENoResultsForReferenceSelector | EReferenceWithWrongServiceOffering
  | EChangingPlanOfReferenceInstance | ENewPlanDoesNotSupportInstanceSharing
  | EPlanDoesNotSupportInstanceSharing | EChangingParametersOfReferenceInstance
  | EMissingOrInvalidReferenceParameter | ESharedPlanHasReferences | EInvalidShareRequest
  | EInvalidProvisionRequestWithSharedProperty | ERequestBodyContainsReferencedInstanceID => true
  | _ => false
  end.

(** The class of the response an error of the storage leads to: error type and status. *)
Definition storage_class (e : error) : string * Z :=
  match e with
  | EAlreadyExistsInStorage => ("Conflict", 409)
  | ENotFoundInStorage => ("NotFound", 404)
  | EConcurrentResourceModification => ("ConcurrentResourceUpdate", 412)
  | EForeignKeyViolation _ _ => ("ExistingReferenceEntity", 409)
  | EBadRequestStorage _ | EUnsupportedQuery _ => ("BadRequest", 400)
  | EHTTP t _ s => (t, if Z.eqb s 0 then 500 else s)
  | _ => ("InternalError", 500)
  end.

(** The status an error type announces. *)
Definition type_status (t : string) : Z :=
  if String.eqb t "NotFound" then 404 else if String.eqb t "BadRequest" then 400 else 0.

Lemma http_untouched e name guids :
  is_http e = true ->
  HandleStorageError (Some e) name = Some e /\ HandleReferencesError (Some e) guids = Some e /\
  HandleInstanceSharingError (Some e) name = Some e.
Proof. by destruct e. Qed.

(** An error of the storage handled with [HandleStorageError] and then written with
    [ToHTTPError] gives the error type and status of its class, never a zero status,
    and an unclassified error tells the client nothing but "Internal server error". *)
Theorem storage_error_response e name :
  exists e', HandleStorageError (Some e) name = Some e' /\
    (ErrorType (ToHTTPError e'), StatusCode (ToHTTPError e')) = storage_class e /\
    StatusCode (ToHTTPError e') <> 0 /\
    (storage_class e = ("InternalError", 500) -> is_http e = false ->
     Description (ToHTTPError e') = "Internal server error").
Proof.
  destruct e; eexists; (split; [reflexivity|]); simpl; repeat split; try done.
  destruct (Z.eqb_spec status 0); done.
Qed.

(** Handling is done once: a handler leaves its own results as they are, and each of
    the three leaves every HTTP error, so also those the others made, whatever entity or
    references are named the second time. *)
Theorem error_handling_idempotent err name name' guids guids' :
  HandleStorageError (HandleStorageError err name) name' = HandleStorageError err name /\
  HandleReferencesError (HandleReferencesError err guids) guids' = HandleReferencesError err guids /\
  HandleInstanceSharingError (HandleInstanceSharingError err name) name' = HandleInstanceSharingError err name /\
  (forall e, is_http e = true ->
     HandleStorageError (Some e) name' = Some e /\ HandleReferencesError (Some e) guids' = Some e /\
     HandleInstanceSharingError (Some e) name' = Some e).
Proof.
  split; [by destruct err as [[]|]|]. split; [by destruct err as [[]|]|].
  split; [by destruct err as [[]|]|]. intros e He. by apply http_untouched.
Qed.

(** Every instance sharing error becomes a client error, and its status is the one
    its type announces for all of them but [ErrMultipleReferenceSelectorResults], a
    "BadRequest" sent with status 404; no other error is changed. *)
Theorem sharing_error_response e name :
  (sharing_error e = true ->
   exists t d s, HandleInstanceSharingError (Some e) name = Some (EHTTP t d s) /\
     (s = 400 \/ s = 404) /\ (s = type_status t <-> e <> EMultipleReferenceSelectorResults)) /\
  (sharing_error e = false -> HandleInstanceSharingError (Some e) name = Some e).
Proof.
  split; intros He; destruct e; try done; eexists _, _, _; (split; [reflexivity|]); vm_compute;
    (split; [auto|]); (split; [congruence|]); intros Hn; try done; by destruct Hn.
Qed.
