(* ===== verification/Query.v ===== *)
(** * pkg/query: operators, criteria, their validation and the query parser's listener

    [Operators] models operators.go, [Criteria] the criterion constructors and the
    validation of selection.go, [Listener] listener.go together with [Parse].  The
    ANTLR parser is generated code running on a third-party runtime: it is the
    parameter [antlr_parse] of [Listener], which gives a parse tree of the grammar
    Query.g4 and the syntax errors it reported. *)

From S2P Require Import Prelude GoStd.
From stdpp Require Import base gmap strings list sorting pretty.
From Stdlib Require Import ZArith Ascii.
Local Open Scope string_scope.

(** ** operators.go *)
Module Operators.

Inductive OperatorType := UnivariateOperator | MultivariateOperator.

Inductive Operator :=
  | EqualsOperator | NotEqualsOperator | GreaterThanOperator
  | GreaterThanOrEqualOperator | ContainsOperator | LessThanOperator
  | LessThanOrEqualOperator | InOperator | InSubqueryOperator | NotInOperator
  | NotExistsSubquery | ExistsSubquery | EqualsOrNilOperator | NoOperator.

#[global] Instance OperatorType_eq_dec : EqDecision OperatorType.
Proof. solve_decision. Defined.
#[global] Instance Operator_eq_dec : EqDecision Operator.
Proof. solve_decision. Defined.

(** The method set of the interface [Operator]. *)
Record methods := {
  m_String : string; m_Type : OperatorType; m_IsNullable : bool; m_IsNumeric : bool
}.

Definition eqOperator : methods :=
  {| m_String := "eq"; m_Type := UnivariateOperator; m_IsNullable := false; m_IsNumeric := false |}.
Definition neOperator : methods :=
  {| m_String := "ne"; m_Type := UnivariateOperator; m_IsNullable := false; m_IsNumeric := false |}.
Definition gtOperator : methods :=
  {| m_String := "gt"; m_Type := UnivariateOperator; m_IsNullable := false; m_IsNumeric := true |}.
Definition ltOperator : methods :=
  {| m_String := "lt"; m_Type := UnivariateOperator; m_IsNullable := false; m_IsNumeric := true |}.
Definition inOperator : methods :=
  {| m_String := "in"; m_Type := MultivariateOperator; m_IsNullable := false; m_IsNumeric := false |}.
Definition notInOperator : methods :=
  {| m_String := "notin"; m_Type := MultivariateOperator; m_IsNullable := false; m_IsNumeric := false |}.
Definition containsOperator : methods :=
  {| m_String := "contains"; m_Type := UnivariateOperator; m_IsNullable := false; m_IsNumeric := false |}.
Definition inSubqueryOperator : methods :=
  {| m_String := "inSubquery"; m_Type := UnivariateOperator; m_IsNullable := false; m_IsNumeric := false |}.
Definition existsSubquery : methods :=
  {| m_String := "exists"; m_Type := UnivariateOperator; m_IsNullable := false; m_IsNumeric := false |}.
Definition notExistsSubquery : methods :=
  {| m_String := "notexists"; m_Type := UnivariateOperator; m_IsNullable := false; m_IsNumeric := false |}.
Definition enOperator : methods :=
  {| m_String := "en"; m_Type := UnivariateOperator; m_IsNullable := true; m_IsNumeric := false |}.
Definition geOperator : methods :=
  {| m_String := "ge"; m_Type := UnivariateOperator; m_IsNullable := false; m_IsNumeric := true |}.
Definition leOperator : methods :=
  {| m_String := "le"; m_Type := UnivariateOperator; m_IsNullable := false; m_IsNumeric := true |}.
Definition noOperator : methods :=
  {| m_String := "nop"; m_Type := MultivariateOperator; m_IsNullable := false; m_IsNumeric := false |}.

(** Dynamic dispatch: the method set of each operator constant. *)
Definition dispatch (o : Operator) : methods :=
  match o with
  | EqualsOperator => eqOperator
  | NotEqualsOperator => neOperator
  | GreaterThanOperator => gtOperator
  | GreaterThanOrEqualOperator => geOperator
  | ContainsOperator => containsOperator
  | LessThanOperator => ltOperator
  | LessThanOrEqualOperator => leOperator
  | InOperator => inOperator
  | InSubqueryOperator => inSubqueryOperator
  | NotInOperator => notInOperator
  | NotExistsSubquery => notExistsSubquery
  | ExistsSubquery => existsSubquery
  | EqualsOrNilOperator => enOperator
  | NoOperator => noOperator
  end.

Definition op_String (o : Operator) : string := m_String (dispatch o).
Definition op_Type (o : Operator) : OperatorType := m_Type (dispatch o).
Definition op_IsNullable (o : Operator) : bool := m_IsNullable (dispatch o).
Definition op_IsNumeric (o : Operator) : bool := m_IsNumeric (dispatch o).

(** The operators a query expression may use ([Operators] of selection.go). *)
Definition Operators : list Operator :=
  [EqualsOperator; NotEqualsOperator; GreaterThanOperator; LessThanOperator;
   GreaterThanOrEqualOperator; LessThanOrEqualOperator; InOperator; NotInOperator;
   EqualsOrNilOperator; ContainsOperator].

#[global] Instance op_String_inj : Inj (=) (=) op_String.
Proof. intros [] []; done. Qed.

End Operators.
Export Operators.

(** ** Criteria (selection.go) *)
Module Criteria.

Definition Separator : string := "and".
Definition OrderBy : string := "orderBy".
Definition Limit : string := "limit".

Inductive CriterionType := FieldQuery | LabelQuery | ResultQuery | ExistQuery | Subquery.
#[global] Instance CriterionType_eq_dec : EqDecision CriterionType.
Proof. solve_decision. Defined.

Definition type_String (t : CriterionType) : string :=
  match t with
  | FieldQuery => "fieldQuery" | LabelQuery => "labelQuery" | ResultQuery => "resultQuery"
  | ExistQuery => "existQuery" | Subquery => "subQuery"
  end.

Inductive OrderType := AscOrder | DescOrder.
Definition order_String (t : OrderType) : string :=
  match t with AscOrder => "ASC" | DescOrder => "DESC" end.

Record Criterion := {
  LeftOp : string; COperator : Operator; RightOp : list string; CType : CriterionType
}.
#[global] Instance Criterion_eq_dec : EqDecision Criterion.
Proof. solve_decision. Defined.

Definition NewCriterion (leftOp : string) (operator : Operator) (rightOp : list string)
    (criteriaType : CriterionType) : Criterion :=
  {| LeftOp := leftOp; COperator := operator; RightOp := rightOp; CType := criteriaType |}.
Definition ByField (operator : Operator) (leftOp : string) (rightOp : list string) : Criterion :=
  NewCriterion leftOp operator rightOp FieldQuery.
Definition ByNotExists (subQuery : string) : Criterion :=
  NewCriterion "" NotExistsSubquery [subQuery] ExistQuery.
Definition ByExists (subQuery : string) : Criterion :=
  NewCriterion "" ExistsSubquery [subQuery] ExistQuery.
Definition BySubquery (operator : Operator) (leftOp subQuery : string) : Criterion :=
  NewCriterion leftOp operator [subQuery] Subquery.
Definition ByLabel (operator : Operator) (leftOp : string) (rightOp : list string) : Criterion :=
  NewCriterion leftOp operator rightOp LabelQuery.
Definition OrderResultBy (field : string) (orderType : OrderType) : Criterion :=
  NewCriterion OrderBy NoOperator [field; order_String orderType] ResultQuery.
Definition LimitResultBy (limit : Z) : Criterion :=
  NewCriterion Limit NoOperator [pretty limit] ResultQuery.

Definition isNumeric (str : string) : bool :=
  match Strconv.atoi str with
  | Some _ => true
  | None => Strconv.parse_float_ok str
  end.

Definition isDateTime (str : string) : bool := Time.rfc3339_ok str.

(** Does the left operand hold the separator [and] next to a space, or equal it? *)
Definition has_separator (s : string) : bool :=
  Strings.contains s (" " ++ Separator ++ " ") || Strings.contains s (Separator ++ " ") ||
  Strings.contains s (" " ++ Separator) || String.eqb s Separator.

Definition newline : ascii := "010".

(** [Criterion.Validate]. *)
Definition Validate (c : Criterion) : result unit :=
  match RightOp c with
  | [] => Err (EPlain "missing right operand")
  | r0 :: rs =>
      if bool_decide (CType c = ResultQuery) then
        (if String.eqb (LeftOp c) Limit then
           match Strconv.atoi r0 with
           | None => Err (EPlain "could not convert string to int")
           | Some limit =>
               guard_err (limit <? 0)%Z
                 (EUnsupportedQuery ("limit (" ++ pretty limit ++
                    ") is invalid. Limit should be positive number"))
           end
         else Ok tt) ;;;
        (if String.eqb (LeftOp c) OrderBy then
           guard_err (length (RightOp c) <? 2)%nat
             (EUnsupportedQuery "order by result expects field name and order type")
         else Ok tt)
      else
        guard_err ((1 <? length (RightOp c))%nat &&
                   bool_decide (op_Type (COperator c) = UnivariateOperator))
          (EUnsupportedQuery ("multiple values " ++ Strings.fmt_strings (RightOp c) ++
             " received for single value operation " ++ op_String (COperator c))) ;;;
        guard_err (op_IsNullable (COperator c) && negb (bool_decide (CType c = FieldQuery)))
          (EUnsupportedQuery "nullable operations are supported only for field queries") ;;;
        guard_err (op_IsNumeric (COperator c) && negb (isNumeric r0) && negb (isDateTime r0))
          (EUnsupportedQuery (op_String (COperator c) ++ " is numeric operator, but the right operand "
             ++ r0 ++ " is not numeric or datetime")) ;;;
        guard_err (has_separator (LeftOp c))
          (EUnsupportedQuery ("separator " ++ Separator ++ " is not allowed in "
             ++ type_String (CType c) ++ " with left operand " ++ Strings.dquote ++ LeftOp c ++ Strings.dquote ++ ".")) ;;;
        for_each (fun op =>
          guard_err (Strings.contains_byte op newline &&
                     negb (bool_decide (CType c = ExistQuery)) &&
                     negb (bool_decide (CType c = Subquery)))
            (EUnsupportedQuery (type_String (CType c) ++ " with key " ++ Strings.dquote ++ LeftOp c ++
               Strings.dquote ++ " has value " ++ Strings.dquote ++ op ++ Strings.dquote ++
               " contaning forbidden new line character")))
          (RightOp c)
  end.

(** The counter maps of [validateCriteria]. *)
Definition count_left_operands (t : CriterionType) (criteria : list Criterion) : gmap string nat :=
  foldl (fun m c =>
    if bool_decide (CType c = t) then <[LeftOp c := S (default 0 (m !! LeftOp c))]> m else m)
    ∅ criteria.

(** [validateWholeCriteria]: at most one criterion whose left operand is [limit]. *)
Fixpoint validateWhole_loop (isLimited : bool) (criteria : list Criterion) : result unit :=
  match criteria with
  | [] => Ok tt
  | c :: rest =>
      if String.eqb (LeftOp c) Limit then
        if isLimited then
          Err (EPlain "zero/one limit criterion expected but multiple provided")
        else validateWhole_loop true rest
      else validateWhole_loop isLimited rest
  end.
Definition validateWholeCriteria (criteria : list Criterion) : result unit :=
  validateWhole_loop false criteria.

(** [validateCriteria]. *)
Definition validateCriteria (criteria : list Criterion) : result unit :=
  let labelQueryLeftOperands := count_left_operands LabelQuery criteria in
  for_each (fun c =>
    let leftOp := LeftOp c in
    guard_err (match labelQueryLeftOperands !! leftOp with
               | Some count => (1 <? count)%nat && bool_decide (CType c = LabelQuery)
               | None => false
               end)
      (EUnsupportedQuery ("duplicate label query key: " ++ leftOp)) ;;;
    Validate c) criteria ;;;
  validateWholeCriteria criteria.

(** [RetrieveFromCriteria]: the first criterion on [key]; an empty right operand
    is an index out of range. *)
Fixpoint RetrieveFromCriteria (key : string) (criteria : list Criterion) : result string :=
  match criteria with
  | [] => Ok ""
  | c :: rest =>
      if String.eqb (LeftOp c) key then
        match RightOp c with
        | r0 :: _ => Ok r0
        | [] => Panic "index out of range"
        end
      else RetrieveFromCriteria key rest
  end.

(** ** What a valid criterion is, declaratively *)
Definition valid_result_criterion (c : Criterion) : Prop :=
  (LeftOp c = Limit -> exists n, Strconv.atoi (hd "" (RightOp c)) = Some n /\ (0 <= n)%Z) /\
  (LeftOp c = OrderBy -> (2 <= length (RightOp c))%nat).

Definition valid_filter_criterion (c : Criterion) : Prop :=
  (op_Type (COperator c) = UnivariateOperator -> length (RightOp c) = 1%nat) /\
  (op_IsNullable (COperator c) = true -> CType c = FieldQuery) /\
  (op_IsNumeric (COperator c) = true ->
     isNumeric (hd "" (RightOp c)) = true \/ isDateTime (hd "" (RightOp c)) = true) /\
  has_separator (LeftOp c) = false /\
  (CType c <> ExistQuery -> CType c <> Subquery ->
     Forall (fun r => Strings.contains_byte r newline = false) (RightOp c)).

Definition valid_criterion (c : Criterion) : Prop :=
  RightOp c <> [] /\
  if bool_decide (CType c = ResultQuery) then valid_result_criterion c
  else valid_filter_criterion c.

(** The keys of the label criteria, and the criteria on [limit]. *)
Definition label_keys (criteria : list Criterion) : list string :=
  map LeftOp (List.filter (fun c => bool_decide (CType c = LabelQuery)) criteria).
Definition limits (criteria : list Criterion) : list Criterion :=
  List.filter (fun c => String.eqb (LeftOp c) Limit) criteria.

(** *** Lemmas *)
Lemma guard_false_iff (b : bool) e : guard_err b e = Ok tt <-> b = false.
Proof. apply guard_err_ok. Qed.

Lemma limit_check_ok r0 :
  match Strconv.atoi r0 with
  | None => Err (EPlain "could not convert string to int")
  | Some limit =>
      guard_err (limit <? 0)%Z
        (EUnsupportedQuery ("limit (" ++ pretty limit ++
           ") is invalid. Limit should be positive number"))
  end = Ok tt <-> exists n, Strconv.atoi r0 = Some n /\ (0 <= n)%Z.
Proof.
  destruct (Strconv.atoi r0) as [n|]; [|naive_solver].
  rewrite guard_false_iff, Z.ltb_ge. naive_solver.
Qed.

Lemma if_ok (b : bool) (r : result unit) (P : Prop) :
  (r = Ok tt <-> P) -> (if b then r else Ok tt) = Ok tt <-> (b = true -> P).
Proof. destruct b; naive_solver. Qed.

Lemma newline_check_iff t l :
  Forall (fun r => Strings.contains_byte r newline && negb (bool_decide (t = ExistQuery)) &&
                   negb (bool_decide (t = Subquery)) = false) l <->
  (t <> ExistQuery -> t <> Subquery ->
   Forall (fun r => Strings.contains_byte r newline = false) l).
Proof.
  rewrite !Forall_forall.
  destruct t; simpl; setoid_rewrite andb_false_iff; setoid_rewrite andb_false_iff; naive_solver.
Qed.

Lemma Validate_result_iff c r0 rs :
  RightOp c = r0 :: rs -> CType c = ResultQuery ->
  Validate c = Ok tt <-> valid_result_criterion c.
Proof.
  intros Hr Ht. unfold Validate, valid_result_criterion. rewrite Hr, bool_decide_true by done.
  rewrite bind_unit_ok, (if_ok _ _ _ (limit_check_ok r0)).
  rewrite (if_ok _ _ (2 <= length (r0 :: rs))%nat) by (rewrite guard_false_iff, Nat.ltb_ge; lia).
  by rewrite !String.eqb_eq.
Qed.

Lemma Validate_filter_iff c r0 rs :
  RightOp c = r0 :: rs -> CType c <> ResultQuery ->
  Validate c = Ok tt <-> valid_filter_criterion c.
Proof.
  intros Hr Ht. unfold Validate, valid_filter_criterion.
  rewrite Hr, bool_decide_false by done.
  rewrite !bind_unit_ok, !guard_false_iff, for_each_guard.
  rewrite (newline_check_iff (CType c)), !andb_false_iff, Nat.ltb_ge, bool_decide_eq_false,
    !negb_false_iff, bool_decide_eq_true.
  simpl.
  destruct (op_Type (COperator c)), (op_IsNullable (COperator c)), (op_IsNumeric (COperator c));
    simpl; intuition (try congruence; try lia).
Qed.

Lemma Validate_iff c : Validate c = Ok tt <-> valid_criterion c.
Proof.
  unfold valid_criterion. destruct (RightOp c) as [|r0 rs] eqn:Hr.
  - unfold Validate. rewrite Hr. naive_solver.
  - case_bool_decide.
    + rewrite Validate_result_iff by eauto. naive_solver.
    + rewrite Validate_filter_iff by eauto. naive_solver.
Qed.

Lemma Validate_no_panic c : no_panic (Validate c).
Proof.
  unfold Validate. destruct (RightOp c) as [|r0 rs]; [done|]. case_bool_decide.
  - apply no_panic_bind; [|intros _ _]; repeat case_match; auto with sm.
  - repeat (apply no_panic_bind; [auto with sm|intros _ _]). apply no_panic_for_each. auto with sm.
Qed.

Definition keys_of (t : CriterionType) (cs : list Criterion) : list string :=
  map LeftOp (List.filter (fun c => bool_decide (CType c = t)) cs).

(** The counter map counts the left operands of the criteria of its type. *)
Lemma count_left_operands_spec t cs k :
  default 0 (count_left_operands t cs !! k) = count_occ String.eq_dec (keys_of t cs) k.
Proof.
  unfold count_left_operands, keys_of.
  enough (G : forall m, default 0 (foldl (fun m c =>
      if bool_decide (CType c = t) then <[LeftOp c := S (default 0 (m !! LeftOp c))]> m else m)
      m cs !! k) =
    (default 0 (m !! k) +
      count_occ String.eq_dec (map LeftOp (List.filter (fun c => bool_decide (CType c = t)) cs)) k)%nat)
    by (rewrite G, lookup_empty; done).
  induction cs as [|c cs IH]; intros m; simpl; [lia|].
  rewrite IH. case_bool_decide; simpl; [|done].
  destruct (String.eq_dec (LeftOp c) k) as [<-|Hne].
  - rewrite lookup_insert_eq. simpl. lia.
  - by rewrite lookup_insert_ne.
Qed.

Lemma validateWhole_loop_ok b cs :
  validateWhole_loop b cs = Ok tt <-> ((if b then 1 else 0) + length (limits cs) <= 1)%nat.
Proof.
  unfold limits. revert b; induction cs as [|c cs IH]; intros b; simpl; [by destruct b; split; intros; try lia|].
  destruct (String.eqb (LeftOp c) Limit); simpl; [|apply IH].
  destruct b; [split; [done|lia]|]. rewrite IH. lia.
Qed.

Lemma keys_of_elem c cs : c ∈ cs -> CType c = LabelQuery -> LeftOp c ∈ label_keys cs.
Proof.
  intros Hin Ht. apply list_elem_of_In, in_map, filter_In.
  rewrite bool_decide_true by done. by rewrite <- list_elem_of_In.
Qed.

(** No criterion trips the duplicate-label check exactly when the label keys are
    pairwise distinct. *)
Lemma label_duplicates_ok cs :
  Forall (fun c => match count_left_operands LabelQuery cs !! LeftOp c with
                   | Some n => (1 <? n)%nat && bool_decide (CType c = LabelQuery)
                   | None => false
                   end = false) cs <-> NoDup (label_keys cs).
Proof.
  rewrite NoDup_ListNoDup, (NoDup_count_occ String.eq_dec), Forall_forall.
  setoid_rewrite <- (count_left_operands_spec LabelQuery cs).
  split.
  - intros H x. destruct (count_left_operands LabelQuery cs !! x) as [n|] eqn:E; simpl; [|lia].
    destruct (decide (x ∈ label_keys cs)) as [Hin|Hnin].
    + apply list_elem_of_In, in_map_iff in Hin as (c & <- & [Hc Ht]%filter_In).
      specialize (H c). rewrite E, Ht, andb_true_r in H.
      apply Nat.ltb_ge, H. by apply list_elem_of_In.
    + pose proof (count_left_operands_spec LabelQuery cs x) as Hs. rewrite E in Hs. simpl in Hs.
      rewrite Hs, (proj1 (count_occ_not_In String.eq_dec _ _)); [lia|].
      by rewrite <- list_elem_of_In.
  - intros H c _. specialize (H (LeftOp c)).
    destruct (count_left_operands LabelQuery cs !! LeftOp c); simpl in *; [|done].
    by rewrite (proj2 (Nat.ltb_ge _ _)).
Qed.

Lemma validateCriteria_iff cs :
  validateCriteria cs = Ok tt <->
  NoDup (label_keys cs) /\ Forall valid_criterion cs /\ (length (limits cs) <= 1)%nat.
Proof.
  unfold validateCriteria, validateWholeCriteria.
  rewrite bind_unit_ok, for_each_ok, validateWhole_loop_ok, <- label_duplicates_ok.
  rewrite <- Logic.and_assoc, <- Forall_and. simpl. f_equiv.
  apply Forall_iff. intros c. by rewrite bind_unit_ok, guard_false_iff, Validate_iff.
Qed.

End Criteria.
Export Criteria.

(** ** The listener (listener.go) and Parse *)
Module Listener.

(** Parse trees of the grammar Query.g4: [manyValues: Value (ValueSeparator
    manyValues)?], [multivariate: Key MultiOp (manyValues?)] and
    [univariate: Key UniOp Value]; an expression is a list of criteria. *)
Inductive manyValues :=
  | LastValue (value : string)
  | MoreValues (value : string) (rest : manyValues).
Inductive criterion_node :=
  | Univariate (key uniOp value : string)
  | Multivariate (key multiOp : string) (values : option manyValues).

Record parse_outcome := {
  syntax_errors : list (Z * string);   (** column and message, in order *)
  expression : list criterion_node
}.

(** The state of the listener.  [l_rightOp] is [None] for Go's nil slice, which
    [ExitMultivariate] tells apart from an empty one. *)
Record queryListener := {
  l_err : option error;
  l_leftOp : string;
  l_rightOp : option (list string);
  l_op : string;
  l_criteriaType : CriterionType;
  l_result : list Criterion
}.

Definition new_listener (t : CriterionType) : queryListener :=
  {| l_err := None; l_leftOp := ""; l_rightOp := None; l_op := ""; l_criteriaType := t;
     l_result := [] |}.

(** [getCriterionFields]: the texts of the key, the operator and the value, the
    value with doubled quotes halved and then stripped of quotes at both ends. *)
Definition quote : ascii := "'".
Definition value_text (text : string) : string :=
  Strings.trim_byte quote (Strings.halve_pairs quote text).
Definition getCriterionFields (key op right : option string) : string * string * string :=
  (default "" key, default "" op, default "" (value_text <$> right)).

(** [findOpByString]. *)
Fixpoint find_op (op : string) (l : list Operator) : result Operator :=
  match l with
  | [] => Err (EPlain ("provided operator " ++ op ++ " is not supported"))
  | o :: l' => if String.eqb (op_String o) op then Ok o else find_op op l'
  end.
Definition findOpByString (op : string) : result Operator := find_op op Operators.

Definition set_err (s : queryListener) (e : option error) : queryListener :=
  {| l_err := e; l_leftOp := l_leftOp s; l_rightOp := l_rightOp s; l_op := l_op s;
     l_criteriaType := l_criteriaType s; l_result := l_result s |}.
Definition set_fields (s : queryListener) (left op : string) (right : option (list string))
    : queryListener :=
  {| l_err := l_err s; l_leftOp := left; l_rightOp := right; l_op := op;
     l_criteriaType := l_criteriaType s; l_result := l_result s |}.

(** [storeCriterion]: on success the criterion is appended and [rightOp] becomes
    the empty, non-nil slice; the returned error is stored by the caller. *)
Definition storeCriterion (s : queryListener) : queryListener :=
  match findOpByString (l_op s) with
  | Ok operator =>
      let criterion := NewCriterion (l_leftOp s) operator (default [] (l_rightOp s))
                         (l_criteriaType s) in
      match Validate criterion with
      | Ok _ =>
          {| l_err := None; l_leftOp := l_leftOp s; l_rightOp := Some []; l_op := l_op s;
             l_criteriaType := l_criteriaType s; l_result := (l_result s ++ [criterion])%list |}
      | Err e => set_err s (Some e)
      | Panic m => set_err s (Some (EPlain m))
      end
  | Err e => set_err s (Some e)
  | Panic m => set_err s (Some (EPlain m))
  end.

Definition ExitUnivariate (s : queryListener) (key op value : string) : queryListener :=
  match l_err s with
  | Some _ => s
  | None =>
      let '(leftOp, operator, rightOp) := getCriterionFields (Some key) (Some op) (Some value) in
      storeCriterion (set_fields s leftOp operator (Some [rightOp]))
  end.

Definition ExitManyValues (s : queryListener) (value : string) : queryListener :=
  match l_err s with
  | Some _ => s
  | None =>
      let '(_, _, rightOp) := getCriterionFields None None (Some value) in
      set_fields s (l_leftOp s) (l_op s) (Some (default [] (l_rightOp s) ++ [rightOp])%list)
  end.

Definition ExitMultivariate (s : queryListener) (key op : string) : queryListener :=
  match l_err s with
  | Some _ => s
  | None =>
      let '(leftOp, operator, _) := getCriterionFields (Some key) (Some op) None in
      let right := match l_rightOp s with None => Some [""] | r => r end in
      storeCriterion (set_fields s leftOp operator right)
  end.

Definition SyntaxError (s : queryListener) (column : Z) (msg : string) : queryListener :=
  set_err s (Some (EUnsupportedQuery ("error while parsing " ++ type_String (l_criteriaType s)
    ++ " at column " ++ pretty column ++ ": " ++ msg))).

(** The tree walk calls the Exit methods bottom-up: a nested [manyValues] exits
    before the one that holds it. *)
Fixpoint walk_values (s : queryListener) (v : manyValues) : queryListener :=
  match v with
  | LastValue x => ExitManyValues s x
  | MoreValues x rest => ExitManyValues (walk_values s rest) x
  end.
Definition walk_node (s : queryListener) (n : criterion_node) : queryListener :=
  match n with
  | Univariate key op value => ExitUnivariate s key op value
  | Multivariate key op values =>
      ExitMultivariate (match values with Some v => walk_values s v | None => s end) key op
  end.
Definition Walk (s : queryListener) (nodes : list criterion_node) : queryListener :=
  foldl walk_node s nodes.

(** [sort.Slice] by left operand: an order of equal operands is not promised. *)
Definition left_le (a b : Criterion) : Prop := String.le (LeftOp a) (LeftOp b).
#[global] Instance left_le_dec : RelDecision left_le.
Proof. unfold left_le. solve_decision. Defined.
#[global] Instance left_le_trans : Transitive left_le.
Proof. intros a b c. unfold left_le. apply transitivity. Qed.
#[global] Instance left_le_total : Total left_le.
Proof. intros a b. unfold left_le. apply total. apply _. Qed.

Class SortSlice := {
  sort_slice : list Criterion -> list Criterion;
  sort_slice_sorted l : Sorted left_le (sort_slice l);
  sort_slice_permutation l : sort_slice l ≡ₚ l
}.
#[export] Instance sorted_by_merging : SortSlice := {|
  sort_slice := merge_sort left_le;
  sort_slice_sorted l := Sorted_merge_sort left_le l;
  sort_slice_permutation l := merge_sort_Permutation left_le l
|}.

Section Parse.
Context `{SortSlice}.
Variable antlr_parse : string -> parse_outcome.

(** [Parse]: the parser reports its syntax errors to the listener while it builds
    the tree, and the listener walks the tree afterwards. *)
Definition Parse (criterionType : CriterionType) (expr : string) : result (list Criterion) :=
  if String.eqb expr "" then Ok []
  else
    let out := antlr_parse expr in
    let s0 := foldl (fun s '(column, msg) => SyntaxError s column msg)
                (new_listener criterionType) (syntax_errors out) in
    let s := Walk s0 (expression out) in
    match l_err s with
    | Some e => Err e
    | None =>
        validateCriteria (l_result s) ;;;
        Ok (sort_slice (l_result s))
    end.
End Parse.

(** *** The meaning of a parse tree, without the listener's state *)
Fixpoint values_of (v : manyValues) : list string :=
  match v with
  | LastValue x => [value_text x]
  | MoreValues x rest => (values_of rest ++ [value_text x])%list
  end.

Definition node_criterion (t : CriterionType) (n : criterion_node) : result Criterion :=
  match n with
  | Univariate key op value =>
      let* o := findOpByString op in Ok (NewCriterion key o [value_text value] t)
  | Multivariate key op values =>
      let* o := findOpByString op in
      Ok (NewCriterion key o (match values with Some v => values_of v | None => [""] end) t)
  end.

Definition empty_list_node (n : criterion_node) : bool :=
  match n with Multivariate _ _ None => true | _ => false end.

(** The criterion a node denotes, when it denotes a valid one. *)
Definition node_denotes (t : CriterionType) (n : criterion_node) (c : Criterion) : Prop :=
  node_criterion t n = Ok c /\ Validate c = Ok tt.

(** The state after a run with no error: the criteria so far, and [rightOp] empty. *)
Definition settled (s : queryListener) (t : CriterionType) (cs : list Criterion) (fresh : bool) : Prop :=
  l_err s = None /\ l_criteriaType s = t /\ l_result s = cs /\
  l_rightOp s = if fresh then None else Some [].

Lemma walk_values_spec s v :
  l_err s = None ->
  walk_values s v =
    set_fields s (l_leftOp s) (l_op s) (Some (default [] (l_rightOp s) ++ values_of v)%list).
Proof.
  intros He. induction v as [x|x rest IH]; simpl.
  - unfold ExitManyValues. by rewrite He.
  - rewrite IH. unfold ExitManyValues, set_fields. simpl. rewrite He. simpl.
    by rewrite <- app_assoc.
Qed.

Lemma storeCriterion_spec s o :
  l_err s = None -> findOpByString (l_op s) = Ok o ->
  let c := NewCriterion (l_leftOp s) o (default [] (l_rightOp s)) (l_criteriaType s) in
  Validate c = Ok tt ->
  settled (storeCriterion s) (l_criteriaType s) (l_result s ++ [c])%list false.
Proof. intros He Ho c Hv. unfold storeCriterion. rewrite Ho. fold c. by rewrite Hv. Qed.

Lemma storeCriterion_no_err s :
  l_err (storeCriterion s) = None ->
  exists o, findOpByString (l_op s) = Ok o /\
    Validate (NewCriterion (l_leftOp s) o (default [] (l_rightOp s)) (l_criteriaType s)) = Ok tt.
Proof.
  unfold storeCriterion. destruct (findOpByString (l_op s)) as [o| |]; [|done..].
  destruct (Validate _) as [[]| |] eqn:Hv; [|done..]. eauto.
Qed.

(** The state in which [storeCriterion] runs for a node. *)
Definition before_store (s : queryListener) (n : criterion_node) : queryListener :=
  match n with
  | Univariate key op value => set_fields s key op (Some [value_text value])
  | Multivariate key op values =>
      set_fields s key op
        (match values, l_rightOp s with
         | None, None => Some [""]
         | None, r => r
         | Some v, r => Some (default [] r ++ values_of v)%list
         end)
  end.

Lemma walk_node_store s n :
  l_err s = None -> walk_node s n = storeCriterion (before_store s n).
Proof.
  intros He. destruct n as [key op value|key op [v|]]; simpl.
  - unfold ExitUnivariate. by rewrite He.
  - rewrite walk_values_spec by done. unfold ExitMultivariate. simpl. by rewrite He.
  - unfold ExitMultivariate. rewrite He. by destruct (l_rightOp s).
Qed.

Lemma walk_node_err s n e : l_err s = Some e -> walk_node s n = s.
Proof.
  intros He. destruct n as [key op value|key op [v|]]; simpl;
    unfold ExitUnivariate, ExitMultivariate; rewrite ?He; try done.
  enough (walk_values s v = s) as -> by by rewrite He.
  induction v as [x|x rest IH]; simpl; [|rewrite IH]; unfold ExitManyValues; by rewrite He.
Qed.

Lemma Walk_err s nodes e : l_err s = Some e -> Walk s nodes = s.
Proof.
  unfold Walk. revert s; induction nodes as [|n ns IH]; intros s He; simpl; [done|].
  rewrite (walk_node_err _ _ e) by done. eauto.
Qed.

(** The right operands the node stores are those it denotes, unless an empty value
    list follows another criterion. *)
Lemma before_store_right s n t cs fresh :
  settled s t cs fresh -> (fresh = true \/ empty_list_node n = false) ->
  forall o, findOpByString (l_op (before_store s n)) = Ok o ->
  node_criterion t n = Ok (NewCriterion (l_leftOp (before_store s n)) o
    (default [] (l_rightOp (before_store s n))) t).
Proof.
  intros (He & Ht & Hr & Ho) Hf o.
  destruct n as [key op value|key op [v|]]; simpl; intros Hfind; rewrite ?Ho, Hfind; simpl; try done;
    destruct fresh; simpl; try done; naive_solver.
Qed.

Lemma walk_node_complete s n t cs fresh c :
  settled s t cs fresh -> (fresh = true \/ empty_list_node n = false) ->
  node_denotes t n c -> settled (walk_node s n) t (cs ++ [c])%list false.
Proof.
  intros Hs Hf [Hn Hv]. pose proof Hs as (He & Ht & Hr & Ho).
  rewrite walk_node_store by done.
  assert (Hfind : exists o, findOpByString (l_op (before_store s n)) = Ok o)
    by (destruct n; simpl in *; destruct (findOpByString _); naive_solver).
  destruct Hfind as [o Hfind].
  pose proof (before_store_right s n t cs fresh Hs Hf o Hfind) as Hc. rewrite Hn in Hc.
  injection Hc as Hc.
  assert (Hbs : l_err (before_store s n) = None /\ l_criteriaType (before_store s n) = t /\
    l_result (before_store s n) = cs) by by destruct n.
  destruct Hbs as (Hbe & Hbt & Hbr).
  pose proof (storeCriterion_spec (before_store s n) o Hbe Hfind) as Hst.
  rewrite Hbt, Hbr, <- Hc in Hst. by apply Hst.
Qed.

Lemma walk_node_sound s n t cs fresh :
  settled s t cs fresh -> l_err (walk_node s n) = None ->
  (fresh = true \/ empty_list_node n = false) /\ exists c, node_denotes t n c.
Proof.
  intros Hs. pose proof Hs as (He & Ht & Hr & Ho).
  rewrite walk_node_store by done. intros Hn.
  apply storeCriterion_no_err in Hn as (o & Hfind & Hv).
  assert (Hbt : l_criteriaType (before_store s n) = t) by by destruct n.
  rewrite Hbt in Hv.
  assert (Hf : fresh = true \/ empty_list_node n = false).
  { destruct fresh; [by left|right]. destruct n as [|key op [v|]]; try done.
    simpl in Hv. rewrite Ho in Hv. done. }
  split; [done|]. eexists. split; [|exact Hv]. by eapply before_store_right.
Qed.

(** No empty value list except in the first criterion. *)
Definition no_late_empty (fresh : bool) (nodes : list criterion_node) : Prop :=
  Forall (fun n => empty_list_node n = false) (if fresh then tail nodes else nodes).

(** The listener computes the denotation of the tree, node by node, and fails on
    an empty value list that follows another criterion. *)
Lemma Walk_spec nodes : forall s t cs fresh,
  settled s t cs fresh ->
  (l_err (Walk s nodes) = None <->
     no_late_empty fresh nodes /\ exists cs', Forall2 (node_denotes t) nodes cs') /\
  (forall cs', no_late_empty fresh nodes -> Forall2 (node_denotes t) nodes cs' ->
     l_result (Walk s nodes) = (cs ++ cs')%list).
Proof.
  induction nodes as [|n ns IH]; intros s t cs fresh Hs; pose proof Hs as (He & Ht & Hr & Ho).
  - split.
    + split; [|done]. intros _. split; [by destruct fresh; constructor|].
      exists []. constructor.
    + intros cs' _ H. inversion H. subst. by rewrite app_nil_r.
  - change (Walk s (n :: ns)) with (Walk (walk_node s n) ns).
    assert (Hcomp : forall c, (fresh = true \/ empty_list_node n = false) -> node_denotes t n c ->
      settled (walk_node s n) t (cs ++ [c])%list false) by eauto using walk_node_complete.
    assert (Hne : no_late_empty fresh (n :: ns) <->
      (fresh = true \/ empty_list_node n = false) /\ no_late_empty false ns).
    { unfold no_late_empty. destruct fresh; simpl; rewrite ?Forall_cons; naive_solver. }
    split.
    + split.
      * intros Hnone. destruct (l_err (walk_node s n)) as [e|] eqn:E.
        { rewrite (Walk_err _ _ e) in Hnone by done. congruence. }
        destruct (walk_node_sound s n t cs fresh Hs E) as [Hf [c Hc]].
        destruct (IH _ _ _ _ (Hcomp c Hf Hc)) as [[IH1 _] _].
        destruct (IH1 Hnone) as [? [cs' ?]]. split; [by apply Hne|]. exists (c :: cs'). by constructor.
      * intros [Hlate [cs' Hcs]]. apply Hne in Hlate as [Hf Hl].
        inversion Hcs as [|? c ? cs0 Hc Hcs0]; subst.
        destruct (IH _ _ _ _ (Hcomp c Hf Hc)) as [[_ IH2] _]. apply IH2. eauto.
    + intros cs' Hlate Hcs. apply Hne in Hlate as [Hf Hl].
      inversion Hcs as [|? c ? cs0 Hc Hcs0]; subst.
      destruct (IH _ _ _ _ (Hcomp c Hf Hc)) as [_ IH3].
      rewrite (IH3 cs0) by done. by rewrite <- app_assoc.
Qed.

End Listener.
