(* ===== verification/QueryProps.v ===== *)
(** * Properties of pkg/query

    The validation of criteria, the contexts that hold them, the query parser and
    the quoting of query values. *)

From S2P Require Import Prelude GoStd Query.
From stdpp Require Import base gmap strings list sorting pretty.
From Stdlib Require Import ZArith Ascii.
Local Open Scope string_scope.
Import Query.Listener.

(** How a client writes a value in a query: between quotes, its own quotes doubled. *)
Fixpoint double_quotes (v : string) : string :=
  match v with
  | EmptyString => EmptyString
  | String a v' =>
      if Ascii.eqb a quote then String quote (String quote (double_quotes v'))
      else String a (double_quotes v')
  end.
Definition quote_value (v : string) : string :=
  String quote (double_quotes v ++ String quote "").

(** ** Quoting *)
#[local] Arguments Strings.halve_pairs : simpl never.
#[local] Arguments quote : simpl never.

Lemma halve_double v :
  Strings.halve_pairs quote (double_quotes v ++ String quote "") = v ++ String quote "".
Proof.
  induction v as [|a v IH]; [done|]. simpl double_quotes.
  destruct (Ascii.eqb_spec a quote) as [->|Hne]; rewrite !Strings.app_cons.
  - by rewrite Strings.halve_pairs_eq, IH.
  - by rewrite Strings.halve_pairs_ne, IH.
Qed.

Lemma trim_left_halve_quoted v :
  Strings.trim_left quote (Strings.halve_pairs quote (quote_value v)) =
  Strings.trim_left quote (v ++ String quote "").
Proof.
  unfold quote_value. induction v as [|a v IH]; [done|]. simpl double_quotes.
  destruct (Ascii.eqb_spec a quote) as [->|Hne]; rewrite !Strings.app_cons.
  - rewrite Strings.halve_pairs_eq. exact IH.
  - rewrite Strings.halve_pairs_one, Strings.halve_pairs_ne, halve_double by done. done.
Qed.

Lemma trim_right_snoc x : Strings.trim_right quote (x ++ String quote "") = Strings.trim_right quote x.
Proof. induction x as [|a x IH]; [done|]. rewrite Strings.app_cons. simpl. by rewrite IH. Qed.

Lemma trim_left_snoc v :
  Strings.trim_left quote (v ++ String quote "") =
    if String.eqb (Strings.trim_left quote v) "" then ""
    else Strings.trim_left quote v ++ String quote "".
Proof.
  induction v as [|a v IH]; [done|]. rewrite Strings.app_cons. simpl.
  destruct (Ascii.eqb a quote); [exact IH|done].
Qed.

Lemma value_text_quote v : value_text (quote_value v) = Strings.trim_byte quote v.
Proof.
  unfold value_text, Strings.trim_byte. rewrite trim_left_halve_quoted, trim_left_snoc.
  destruct (String.eqb_spec (Strings.trim_left quote v) "") as [->|]; [done|].
  apply trim_right_snoc.
Qed.

(** ** Parsing *)
Lemma node_denotes_fun t nodes cs1 cs2 :
  Forall2 (node_denotes t) nodes cs1 -> Forall2 (node_denotes t) nodes cs2 -> cs1 = cs2.
Proof.
  intros H1; revert cs2. induction H1 as [|n c ns cs [Hn _] _ IH]; intros cs2 H2;
    inversion H2 as [|? c2 ? ? [Hn2 _]]; subst; [done|].
  f_equal; [congruence|eauto].
Qed.

Lemma node_denotes_valid t nodes cs :
  Forall2 (node_denotes t) nodes cs -> Forall valid_criterion cs /\ Forall (fun c => CType c = t) cs.
Proof.
  induction 1 as [|n c ns cs [Hn Hv] _ [IH1 IH2]]; [done|].
  split; constructor; try done; [by apply Validate_iff|].
  destruct n; simpl in Hn; destruct (findOpByString _); naive_solver.
Qed.

Lemma syntax_errors_stay t errs :
  let s := foldl (fun s '(column, msg) => SyntaxError s column msg) (new_listener t) errs in
  errs <> [] -> is_Some (l_err s).
Proof.
  intros s Hne. subst s. destruct errs as [|err errs] using rev_ind; [done|].
  rewrite foldl_app. destruct err as [col msg]. simpl. eauto.
Qed.

Lemma Parse_iff `{SortSlice} (antlr_parse : string -> parse_outcome) t expr cs' :
  let nodes := expression (antlr_parse expr) in
  Parse antlr_parse t expr = Ok cs' <->
  (expr = "" /\ cs' = []) \/
  (expr <> "" /\ syntax_errors (antlr_parse expr) = [] /\ no_late_empty true nodes /\
   exists cs, Forall2 (node_denotes t) nodes cs /\
     NoDup (label_keys cs) /\ (length (limits cs) <= 1)%nat /\
     cs' = sort_slice cs).
Proof.
  intros nodes. unfold Parse. destruct (String.eqb_spec expr "") as [->|Hne]; [naive_solver|].
  destruct (decide (syntax_errors (antlr_parse expr) = [])) as [Hsyn|Hsyn].
  2: { pose proof (syntax_errors_stay t _ Hsyn) as [e He]. rewrite (Walk_err _ _ e), He by done.
       naive_solver. }
  rewrite Hsyn. simpl. fold nodes.
  destruct (Walk_spec nodes (new_listener t) t [] true) as [Herr Hres]; [done|].
  destruct (l_err (Walk (new_listener t) nodes)) as [e|] eqn:E.
  - split; [done|]. intros [[? _]|(_ & _ & Hl & cs & Hcs & _)]; [done|].
    destruct Herr as [_ Herr]. discriminate Herr. eauto.
  - destruct Herr as [Herr _]. destruct (Herr eq_refl) as [Hl [cs0 Hcs0]].
    rewrite (Hres cs0) by done. simpl. rewrite bind_unit_ok, validateCriteria_iff.
    destruct (node_denotes_valid _ _ _ Hcs0) as [Hv _]. split.
    + intros [(? & _ & ?) [= <-]]. right. eauto 10.
    + intros [[? _]|(_ & _ & _ & cs & Hcs & Hd & Hlim & ->)]; [done|].
      by rewrite (node_denotes_fun _ _ _ _ Hcs Hcs0) in *.
Qed.

(** ** The claims *)

(** [validateCriteria] accepts a list of criteria exactly when the keys of its
    label criteria are pairwise distinct, every criterion is valid (it has a right
    operand; a limit is a non-negative integer and an order rule has a field and a
    direction; otherwise single-valued operators have one value, nullable operators
    are used on fields, numeric operators on numbers or datetimes, the key does not
    hold the separator and no value holds a newline, sub-queries apart), and at most
    one criterion is on the limit. *)
Theorem validateCriteria_correct cs :
  validateCriteria cs = Ok tt <->
  NoDup (label_keys cs) /\ Forall valid_criterion cs /\ (length (limits cs) <= 1)%nat.
Proof. apply validateCriteria_iff. Qed.

(** C39: [Parse] of the empty expression is the empty list; otherwise it succeeds
    exactly when the parser reports no syntax error, no empty value list follows
    another criterion, every node of the tree denotes a valid criterion, the label
    keys are distinct and there is at most one limit; it then returns the criteria
    the tree denotes in the order that [sort.Slice] gives them, sorted by left operand. *)
Theorem Parse_correct `{SortSlice} (antlr_parse : string -> parse_outcome) t expr cs' :
  let nodes := expression (antlr_parse expr) in
  Parse antlr_parse t expr = Ok cs' <->
  (expr = "" /\ cs' = []) \/
  (expr <> "" /\ syntax_errors (antlr_parse expr) = [] /\ no_late_empty true nodes /\
   exists cs, Forall2 (node_denotes t) nodes cs /\
     NoDup (label_keys cs) /\ (length (limits cs) <= 1)%nat /\
     cs' = sort_slice cs /\ Sorted left_le cs' /\ cs' ≡ₚ cs).
Proof.
  intros nodes. rewrite Parse_iff. fold nodes. split; (intros [?|(? & ? & ? & cs & ? & ? & ? & Hs)]; [by left|right]);
    (do 3 (split; [done|]); exists cs; do 3 (split; [done|])); [|by destruct Hs].
  rewrite Hs. split_and!; [done|apply sort_slice_sorted|apply sort_slice_permutation].
Qed.

(** What [Parse] returns is sorted by left operand, of the requested type, valid
    as a whole, and a permutation of what the nodes of the tree denote. *)
Theorem Parse_sorted `{SortSlice} (antlr_parse : string -> parse_outcome) t expr cs' :
  Parse antlr_parse t expr = Ok cs' ->
  Sorted left_le cs' /\ Forall (fun c => CType c = t) cs' /\ Forall valid_criterion cs' /\
  (expr <> "" ->
   exists cs, Forall2 (node_denotes t) (expression (antlr_parse expr)) cs /\ cs' ≡ₚ cs).
Proof.
  intros [[-> ->]|(Hne & _ & _ & cs & Hcs & _ & _ & ->)]%Parse_iff.
  - repeat split; try constructor. done.
  - destruct (node_denotes_valid _ _ _ Hcs) as [Hv Ht].
    pose proof (sort_slice_permutation cs) as Hp.
    split; [apply sort_slice_sorted|]. rewrite Hp. eauto.
Qed.

(** An ANTLR outcome for two criteria, used as a concrete parser in witnesses. *)
Definition sample_parser (_ : string) : parse_outcome :=
  {| syntax_errors := [];
     expression := [Univariate "name" "eq" "'it''s'";
                    Multivariate "id" "in" (Some (MoreValues "'1'" (LastValue "'2'")))] |}.

Lemma Parse_sorted_witness :
  exists cs', Parse sample_parser FieldQuery "name eq 'it''s' and id in ('1','2')" = Ok cs' /\
    Sorted left_le cs'.
Proof.
  eexists. split; [vm_compute; reflexivity|].
  refine (proj1 (Parse_sorted sample_parser FieldQuery
    "name eq 'it''s' and id in ('1','2')" _ _)).
  vm_compute. reflexivity.
Defined.

(** A value list may be left empty only in the first criterion: [key in ()] alone
    is the criterion on the empty value, and the same criterion after another one
    makes [Parse] fail with an error that is not a query error. *)
Theorem late_empty_list_rejected `{SortSlice} (antlr_parse : string -> parse_outcome) t e1 e2 n c key op o :
  e1 <> "" -> e2 <> "" ->
  syntax_errors (antlr_parse e1) = [] -> syntax_errors (antlr_parse e2) = [] ->
  findOpByString op = Ok o -> Validate (NewCriterion key o [""] t) = Ok tt ->
  node_denotes t n c ->
  expression (antlr_parse e1) = [Multivariate key op None] ->
  expression (antlr_parse e2) = [n; Multivariate key op None] ->
  (key <> Limit -> Parse antlr_parse t e1 = Ok [NewCriterion key o [""] t]) /\
  Parse antlr_parse t e2 = Err (EPlain "missing right operand").
Proof.
  intros H1 H2 Hs1 Hs2 Ho Hv Hn Ht1 Ht2. split.
  - intros Hk. apply Parse_iff. right. rewrite Hs1, Ht1. repeat split; try done.
    + constructor.
    + exists [NewCriterion key o [""] t]. repeat split; try done.
      * constructor; [|constructor]. split; [|done]. simpl. by rewrite Ho.
      * unfold label_keys. simpl. case_bool_decide; simpl; [apply NoDup_singleton|constructor].
      * unfold limits. simpl. case_match; simpl; lia.
      * symmetry. apply Permutation_singleton_r, sort_slice_permutation.
  - unfold Parse. rewrite (proj2 (String.eqb_neq _ _)), Hs2, Ht2 by done.
    unfold Walk. cbn [foldl].
    pose proof (walk_node_complete (new_listener t) n t [] true c) as (He & Hty & _ & Hr);
      [done|by left|done|].
    rewrite (walk_node_store (walk_node _ n)) by done. unfold storeCriterion.
    simpl. rewrite Ho, Hr. done.
Qed.

Definition empty_list_parser (e : string) : parse_outcome :=
  {| syntax_errors := [];
     expression := if String.eqb e "id in ()" then [Multivariate "id" "in" None]
                   else [Univariate "name" "eq" "'x'"; Multivariate "id" "in" None] |}.

Lemma late_empty_list_rejected_witness :
  Parse empty_list_parser FieldQuery "id in ()" = Ok [ByField InOperator "id" [""]] /\
  Parse empty_list_parser FieldQuery "name eq 'x' and id in ()" =
    Err (EPlain "missing right operand").
Proof.
  split.
  - refine (proj1 (late_empty_list_rejected empty_list_parser FieldQuery "id in ()"
      "name eq 'x' and id in ()" (Univariate "name" "eq" "'x'")
      (ByField EqualsOperator "name" ["x"]) "id" "in" InOperator _ _ _ _ _ _ _ _ _) _); done.
  - refine (proj2 (late_empty_list_rejected empty_list_parser FieldQuery "id in ()"
      "name eq 'x' and id in ()" (Univariate "name" "eq" "'x'")
      (ByField EqualsOperator "name" ["x"]) "id" "in" InOperator _ _ _ _ _ _ _ _ _)); done.
Defined.

(** Reading back a quoted query value gives the value without its leading and
    trailing quotes; so quoting round-trips exactly on the values that neither start
    nor end with a quote. *)
Theorem quoted_value_roundtrip v :
  value_text (quote_value v) = Strings.trim_byte quote v /\
  (value_text (quote_value v) = v <-> Strings.trim_byte quote v = v).
Proof. rewrite value_text_quote. done. Qed.
