(* ===== verification/Contexts.v ===== *)
(** * Criteria in a request context (pkg/query/selection.go)

    A context carries a slice of criteria.  [AddCriteria] appends to the slice of the
    context it is given, so that contexts made from the same parent may share a
    backing array: the heap of arrays is part of the state. *)

From S2P Require Import Prelude GoStd GoSlice Query.
From stdpp Require Import base gmap strings list relations.
Local Open Scope string_scope.
Import Query.Operators Query.Criteria.

#[export] Instance Criterion_inhabited : Inhabited Criterion :=
  populate (NewCriterion "" NoOperator [] FieldQuery).

Section Contexts.
Context `{GrowPolicy}.
Notation heap := (gmap nat (list Criterion)).

(** The slice stored under [criteriaCtxKey]; [None] is a context without one. *)
Definition CriteriaForContext (ctx : option slice) : slice := default nil_slice ctx.

Definition AddCriteria (h : heap) (ctx : option slice) (newCriteria : list Criterion)
    : heap * result (option slice) :=
  let '(h', criteria) := append h (CriteriaForContext ctx) newCriteria in
  (h', validateCriteria (read h' criteria) ;;; Ok (Some criteria)).

Definition ContextWithCriteria (h : heap) (ctx : option slice) (criteria : slice)
    : result (option slice) :=
  validateCriteria (read h criteria) ;;; Ok (Some criteria).

Definition criteria_of (h : heap) (ctx : option slice) : list Criterion :=
  read h (CriteriaForContext ctx).

(** A request handled by a chain of filters: each works on the context the one before
    it made. *)
Inductive ctx_step : heap * option slice -> heap * option slice -> Prop :=
  | step_add h ctx cs h' ctx' :
      AddCriteria h ctx cs = (h', Ok ctx') -> ctx_step (h, ctx) (h', ctx')
  | step_rejected h ctx cs h' e :
      AddCriteria h ctx cs = (h', Err e) -> ctx_step (h, ctx) (h', ctx)
  | step_with h ctx s ctx' :
      wf_slice h s -> ContextWithCriteria h ctx s = Ok ctx' -> ctx_step (h, ctx) (h, ctx').

Definition wf_context (h : heap) (ctx : option slice) : Prop :=
  wf_slice h (CriteriaForContext ctx) /\ validateCriteria (criteria_of h ctx) = Ok tt.

(** [AddCriteria] on a well-formed context. *)
Lemma AddCriteria_spec h ctx cs h' r :
  wf_slice h (CriteriaForContext ctx) -> AddCriteria h ctx cs = (h', r) ->
  criteria_of h' ctx = criteria_of h ctx /\ wf_slice h' (CriteriaForContext ctx) /\
  match validateCriteria (criteria_of h ctx ++ cs) with
  | Ok _ => exists ctx', r = Ok ctx' /\ wf_context h' ctx' /\
              criteria_of h' ctx' = (criteria_of h ctx ++ cs)%list
  | Err e => r = Err e
  | Panic m => r = Panic m
  end.
Proof.
  intros Hwf. unfold AddCriteria. destruct (append h _ cs) as [h1 s1] eqn:Happ. intros [= -> <-].
  destruct (append_spec _ _ _ _ _ Hwf Happ) as (Hread & Hwf1 & _ & _ & Hkeep & _).
  split; [by eapply append_keeps|]. split; [by apply Hkeep|]. rewrite Hread.
  unfold criteria_of. destruct (validateCriteria _) as [[]| |] eqn:Hv; simpl; [|done..].
  exists (Some s1). split; [done|]. split; [|done]. split; [done|]. unfold criteria_of. simpl. by rewrite Hread.
Qed.

Lemma wf_nil_context : wf_context ∅ None.
Proof. split; [split; simpl; lia|by vm_compute]. Qed.

Lemma ctx_step_wf st st' : ctx_step st st' -> wf_context st.1 st.2 -> wf_context st'.1 st'.2.
Proof.
  destruct 1 as [h ctx cs h' ctx' Hadd|h ctx cs h' e Hadd|h ctx s ctx' Hs Hw]; simpl; intros [Hwf Hv].
  - destruct (AddCriteria_spec _ _ _ _ _ Hwf Hadd) as (_ & _ & Hm).
    destruct (validateCriteria (criteria_of h ctx ++ cs)); [|done..]. by destruct Hm as (? & [= <-] & ? & _).
  - destruct (AddCriteria_spec _ _ _ _ _ Hwf Hadd) as (Hk & Hwf' & _). split; [done|]. by rewrite Hk.
  - apply bind_unit_ok in Hw as [Hw [= <-]]. done.
Qed.

Lemma ctx_steps_wf st st' : rtc ctx_step st st' -> wf_context st.1 st.2 -> wf_context st'.1 st'.2.
Proof. induction 1; eauto using ctx_step_wf. Qed.

(** Along a chain of filters, each adding to the context of the one before it
    (rejected additions included), the criteria of the context are valid as a whole;
    adding criteria succeeds exactly when the result is valid, keeps the earlier ones in
    front, in order, and does not change the context it started from. *)
Theorem context_chain_valid h ctx cs h' r :
  rtc ctx_step (∅, None) (h, ctx) -> AddCriteria h ctx cs = (h', r) ->
  wf_context h ctx /\ criteria_of h' ctx = criteria_of h ctx /\
  match validateCriteria (criteria_of h ctx ++ cs) with
  | Ok _ => exists ctx', r = Ok ctx' /\ wf_context h' ctx' /\
              criteria_of h' ctx' = (criteria_of h ctx ++ cs)%list
  | Err e => r = Err e
  | Panic m => r = Panic m
  end.
Proof.
  intros Hr Hadd. pose proof (ctx_steps_wf _ _ Hr wf_nil_context) as Hwf. simpl in Hwf.
  split; [done|]. by destruct (AddCriteria_spec _ _ _ _ _ (proj1 Hwf) Hadd) as (? & _ & ?).
Qed.

(** Contexts made from one parent are not independent: when the parent's slice has
    room for one more criterion, a second [AddCriteria] on the parent replaces the
    criterion the first one added, in the context the first one returned. *)
Theorem sibling_contexts_overlap h ctx c1 c2 h1 ctx1 h2 r2 :
  wf_slice h (CriteriaForContext ctx) ->
  slen (CriteriaForContext ctx) < scap (CriteriaForContext ctx) ->
  AddCriteria h ctx [c1] = (h1, Ok ctx1) ->
  AddCriteria h1 ctx [c2] = (h2, r2) ->
  criteria_of h1 ctx1 = (criteria_of h ctx ++ [c1])%list /\
  criteria_of h2 ctx1 = (criteria_of h ctx ++ [c2])%list.
Proof.
  intros Hwf Hroom H1 H2.
  destruct (AddCriteria_spec _ _ _ _ _ Hwf H1) as (Hk & Hwf1 & Hm).
  assert (Hread1 : criteria_of h1 ctx1 = (criteria_of h ctx ++ [c1])%list).
  { destruct (validateCriteria _); [|done..]. by destruct Hm as (? & [= <-] & _ & ?). }
  split; [done|]. rewrite <- Hk.
  unfold AddCriteria in H1, H2. destruct (append h _ [c1]) as [g1 s1] eqn:A1.
  destruct (append h1 _ [c2]) as [g2 s2] eqn:A2.
  injection H1 as -> Hc1. apply bind_unit_ok in Hc1 as [_ [= <-]]. injection H2 as -> _.
  destruct (append_spec _ _ _ _ _ Hwf1 A2) as (Hread & _).
  unfold append in A1, A2. simpl in A1, A2.
  rewrite decide_True in A1 by lia. rewrite decide_True in A2 by lia.
  injection A1 as _ <-. injection A2 as _ <-. exact Hread.
Qed.

End Contexts.

Definition sample (name : string) : Criterion := ByField EqualsOperator name ["1"].
Definition sample_chain : gmap nat (list Criterion) * option slice :=
  match AddCriteria ∅ None [sample "a"; sample "b"] with
  | (h, Ok ctx) => match AddCriteria h ctx [sample "c"] with (h', Ok ctx') => (h', ctx') | _ => (∅, None) end
  | _ => (∅, None)
  end.

Lemma context_chain_valid_witness :
  exists h r, AddCriteria sample_chain.1 sample_chain.2 [sample "d"] = (h, r) /\
    exists ctx', r = Ok ctx' /\ wf_context h ctx' /\
      criteria_of h ctx' = [sample "a"; sample "b"; sample "c"; sample "d"].
Proof.
  destruct (AddCriteria sample_chain.1 sample_chain.2 [sample "d"]) as [h r] eqn:E. exists h, r. split; [done|].
  apply (context_chain_valid sample_chain.1 sample_chain.2 [sample "d"] h r); [|exact E].
  eapply rtc_l; [by apply (step_add ∅ None [sample "a"; sample "b"])|].
  apply rtc_once. by eapply (step_add _ _ [sample "c"]).
Defined.

Lemma sibling_contexts_overlap_witness :
  exists h1 ctx1 h2 r2,
    AddCriteria sample_chain.1 sample_chain.2 [sample "d"] = (h1, Ok ctx1) /\
    AddCriteria h1 sample_chain.2 [sample "e"] = (h2, r2) /\
    criteria_of h1 ctx1 = [sample "a"; sample "b"; sample "c"; sample "d"] /\
    criteria_of h2 ctx1 = [sample "a"; sample "b"; sample "c"; sample "e"].
Proof.
  eexists _, _, _, _. split; [vm_compute; reflexivity|]. split; [vm_compute; reflexivity|].
  eapply (sibling_contexts_overlap sample_chain.1 sample_chain.2 (sample "d") (sample "e")).
  - split; [vm_compute; lia|]. intros _. eexists. split; [vm_compute; reflexivity|vm_compute; lia].
  - vm_compute; lia.
  - vm_compute; reflexivity.
  - vm_compute; reflexivity.
Defined.
