(* ===== verification/Labels.v ===== *)
(** * Labels and label changes (pkg/types/labels.go, pkg/query/update.go)

    [Labels] is a map from keys to slices of values.  [ApplyLabelChangesToLabels]
    copies the map but not the slices, then edits the copy with [append] and with
    in-place removal inside a [range] loop; it is modelled over the heap of backing
    arrays of GoSlice, so that the aliasing with the caller's labels shows. *)

From S2P Require Import Prelude GoStd GoSlice.
From stdpp Require Import base gmap strings list fin_maps.
From Stdlib Require Import Ascii.
Local Open Scope string_scope.
Local Open Scope list_scope.
Local Open Scope nat_scope.

(** ** labels.go *)
Inductive LabelOperation :=
  | AddLabelOperation | AddLabelValuesOperation
  | RemoveLabelOperation | RemoveLabelValuesOperation
  | OtherOperation (name : string).   (** any other text of the JSON field [op] *)

#[global] Instance LabelOperation_eq_dec : EqDecision LabelOperation.
Proof. solve_decision. Defined.

Definition RequiresValues (o : LabelOperation) : bool :=
  negb (bool_decide (o = RemoveLabelOperation)) && negb (bool_decide (o = AddLabelOperation)).

Record LabelChange := { lc_Operation : LabelOperation; lc_Key : string; lc_Values : list string }.

(** [LabelChange.Validate]. *)
Definition LabelChange_Validate (lc : LabelChange) : result unit :=
  guard_err (RequiresValues (lc_Operation lc) && bool_decide (lc_Values lc = []))
    (EPlain "operation requires values to be provided") ;;;
  guard_err (String.eqb (lc_Key lc) "" || bool_decide (lc_Operation lc = OtherOperation ""))
    (EPlain "both key and operation are missing but are required for label change").

(** [LabelChanges.Validate]. *)
Definition LabelChanges_Validate (lcs : list LabelChange) : result unit :=
  for_each LabelChange_Validate lcs.

Definition space : ascii := " ".
Definition newline : ascii := "010".

(** [Labels.Validate]; Go ranges over the map in an unspecified order, which shows
    only in which of several errors is reported. *)
Definition Labels_Validate (l : gmap string (list string)) : result unit :=
  for_each (fun '(key, values) =>
    guard_err (Strings.contains_byte key space || Strings.contains_byte key newline)
      (EPlain "label key cannot contain whitespaces") ;;;
    for_each (fun val =>
      guard_err (Strings.contains_byte val newline)
        (EPlain "label has value contaning forbidden new line character")) values)
    (map_to_list l).

(** ** update.go *)
Section Update.
Context `{GrowPolicy}.

Record label_store := {
  heap : gmap nat (list string);
  mergedLabels : gmap string slice;
  labelsToAdd : gmap string slice;
  labelsToRemove : gmap string slice
}.

(** Indexing a Go map: a missing key gives the nil slice. *)
Definition at_key (m : gmap string slice) (k : string) : slice := default nil_slice (m !! k).

(** [addValue]. *)
Definition addValue (st : label_store) (key value : string) : label_store :=
  if bool_decide (value ∈ read (heap st) (at_key (mergedLabels st) key)) then st
  else
    let '(h1, added) := append (heap st) (at_key (labelsToAdd st) key) [value] in
    let '(h2, merged) := append h1 (at_key (mergedLabels st) key) [value] in
    {| heap := h2;
       mergedLabels := <[key := merged]> (mergedLabels st);
       labelsToAdd := <[key := added]> (labelsToAdd st);
       labelsToRemove := labelsToRemove st |}.

Definition set_merged (st : label_store) (h : gmap nat (list string)) (m : gmap string slice)
    : label_store :=
  {| heap := h; mergedLabels := m; labelsToAdd := labelsToAdd st;
     labelsToRemove := labelsToRemove st |}.

(** The body of the removal loop on a hit at index [i]:
    [merged[k] = append(merged[k][:i], merged[k][i+1:]...)], the key deleted when
    nothing is left. *)
Definition remove_at (st : label_store) (key : string) (i : nat) : result label_store :=
  let cur := at_key (mergedLabels st) key in
  let* s1 := slice_to cur i in
  let* s2 := slice_from cur (S i) in
  let '(h', s') := append (heap st) s1 (read (heap st) s2) in
  Ok (set_merged st h'
        (if decide (slen s' = 0) then delete key (mergedLabels st)
         else <[key := s']> (mergedLabels st))).

(** [for i, value := range x]: the slice [x] is evaluated once, its elements are read
    from the array as the loop goes, [n] iterations are left. *)
Fixpoint remove_loop (n : nat) (x : slice) (i : nat) (key valueToRemove : string)
    (st : label_store) : result label_store :=
  match n with
  | 0 => Ok st
  | S n' =>
      let* value := index (heap st) x i in
      let* st' := (if bool_decide (value = valueToRemove) then remove_at st key i else Ok st) in
      remove_loop n' x (S i) key valueToRemove st'
  end.

Definition remove_value (st : label_store) (key valueToRemove : string) : result label_store :=
  let x := at_key (mergedLabels st) key in
  remove_loop (slen x) x 0 key valueToRemove st.

(** The add cases of the switch: no values means the empty value. *)
Definition apply_add (st : label_store) (key : string) (values : list string) : label_store :=
  foldl (fun s v => addValue s key v)
    (if decide (values = []) then addValue st key "" else st) values.

(** The remove cases: no values means the whole label, as the caller has it. *)
Definition apply_remove (labels : gmap string slice) (st : label_store) (key : string)
    (values : list string) : result label_store :=
  if decide (values = []) then
    Ok {| heap := heap st; mergedLabels := delete key (mergedLabels st);
          labelsToAdd := labelsToAdd st;
          labelsToRemove := <[key := at_key labels key]> (labelsToRemove st) |}
  else
    let '(h', removed) := append (heap st) (at_key (labelsToRemove st) key) values in
    fold_result (fun s v => remove_value s key v)
      {| heap := h'; mergedLabels := mergedLabels st; labelsToAdd := labelsToAdd st;
         labelsToRemove := <[key := removed]> (labelsToRemove st) |} values.

(** One label change; [labels] is the caller's map. *)
Definition apply_change (labels : gmap string slice) (st : label_store) (change : LabelChange)
    : result label_store :=
  match lc_Operation change with
  | AddLabelOperation | AddLabelValuesOperation =>
      Ok (apply_add st (lc_Key change) (lc_Values change))
  | RemoveLabelOperation | RemoveLabelValuesOperation =>
      apply_remove labels st (lc_Key change) (lc_Values change)
  | OtherOperation _ => Ok st
  end.

(** [ApplyLabelChangesToLabels]: a new map that shares the caller's slices. *)
Definition ApplyLabelChangesToLabels (h : gmap nat (list string)) (changes : list LabelChange)
    (labels : gmap string slice) : result label_store :=
  fold_result (apply_change labels)
    {| heap := h; mergedLabels := labels; labelsToAdd := ∅; labelsToRemove := ∅ |} changes.

(** The values a map of slices holds. *)
Definition contents (h : gmap nat (list string)) (m : gmap string slice)
    : gmap string (list string) := read h <$> m.

(** ** Reference: label changes on plain maps *)
Definition spec_add (k v : string) (m : gmap string (list string)) : gmap string (list string) :=
  let l := default [] (m !! k) in
  if decide (v ∈ l) then m else <[k := l ++ [v]]> m.

Definition spec_remove (k v : string) (m : gmap string (list string)) : gmap string (list string) :=
  let l := default [] (m !! k) in
  if decide (v ∈ l) then
    let l' := filter (fun x => x <> v) l in
    if decide (l' = []) then delete k m else <[k := l']> m
  else m.

Definition spec_change (m : gmap string (list string)) (c : LabelChange) : gmap string (list string) :=
  let k := lc_Key c in
  match lc_Operation c with
  | AddLabelOperation | AddLabelValuesOperation =>
      foldl (fun m v => spec_add k v m) m (if decide (lc_Values c = []) then [""] else lc_Values c)
  | RemoveLabelOperation | RemoveLabelValuesOperation =>
      if decide (lc_Values c = []) then delete k m
      else foldl (fun m v => spec_remove k v m) m (lc_Values c)
  | OtherOperation _ => m
  end.

(** ** Separation of the backing arrays *)
Definition disjoint_from (s : slice) (m : gmap string slice) : Prop :=
  forall k s' p, m !! k = Some s' -> owns s p -> ~ owns s' p.

(** Labels read from the database or from JSON: each slice has its own array, and no
    value is repeated under a key. *)
Record wf_labels (h : gmap nat (list string)) (labels : gmap string slice) : Prop := {
  wl_wf : forall k s, labels !! k = Some s -> wf_slice h s /\ NoDup (read h s);
  wl_sep : forall k1 k2 s1 s2 p, labels !! k1 = Some s1 -> labels !! k2 = Some s2 ->
    owns s1 p -> owns s2 p -> k1 = k2
}.

Record inv (labels : gmap string slice) (st : label_store) : Prop := {
  inv_merged : wf_labels (heap st) (mergedLabels st);
  inv_labels : forall k s, labels !! k = Some s -> wf_slice (heap st) s;
  inv_alias : forall k s p k' s', mergedLabels st !! k = Some s -> owns s p ->
    labels !! k' = Some s' -> owns s' p -> k' = k;
  inv_labels_sep : forall k1 k2 s1 s2 p, labels !! k1 = Some s1 -> labels !! k2 = Some s2 ->
    owns s1 p -> owns s2 p -> k1 = k2;
  inv_out : forall k s, labelsToAdd st !! k = Some s \/ labelsToRemove st !! k = Some s ->
    wf_slice (heap st) s /\ disjoint_from s (mergedLabels st)
}.

Lemma nil_wf h : wf_slice (A:=string) h nil_slice.
Proof. split; simpl; [lia|]. intros; lia. Qed.
Lemma nil_disjoint m : disjoint_from nil_slice m.
Proof. intros ???? [Hc _]. simpl in Hc. lia. Qed.

Lemma at_key_out labels st k :
  inv labels st ->
  (wf_slice (heap st) (at_key (labelsToAdd st) k) /\ disjoint_from (at_key (labelsToAdd st) k) (mergedLabels st)) /\
  (wf_slice (heap st) (at_key (labelsToRemove st) k) /\ disjoint_from (at_key (labelsToRemove st) k) (mergedLabels st)).
Proof.
  intros Hi. unfold at_key. split.
  - destruct (labelsToAdd st !! k) eqn:E; simpl; [|split; [apply nil_wf|apply nil_disjoint]].
    apply (inv_out _ _ Hi k). auto.
  - destruct (labelsToRemove st !! k) eqn:E; simpl; [|split; [apply nil_wf|apply nil_disjoint]].
    apply (inv_out _ _ Hi k). auto.
Qed.

Lemma at_key_merged labels st k :
  inv labels st ->
  wf_slice (heap st) (at_key (mergedLabels st) k) /\ NoDup (read (heap st) (at_key (mergedLabels st) k)) /\
  default [] (contents (heap st) (mergedLabels st) !! k) = read (heap st) (at_key (mergedLabels st) k).
Proof.
  intros Hi. unfold at_key, contents. rewrite lookup_fmap.
  destruct (mergedLabels st !! k) as [s|] eqn:E; simpl.
  - destruct (wl_wf _ _ (inv_merged _ _ Hi) _ _ E). auto.
  - split; [apply nil_wf|]. split; [constructor|done].
Qed.

(** Appending to a slice that shares no array with the merged labels. *)
Lemma append_frame labels st s xs h' s' :
  inv labels st -> wf_slice (heap st) s -> disjoint_from s (mergedLabels st) ->
  append (heap st) s xs = (h', s') ->
  contents h' (mergedLabels st) = contents (heap st) (mergedLabels st) /\
  wf_slice h' s' /\ disjoint_from s' (mergedLabels st) /\
  inv labels (set_merged st h' (mergedLabels st)).
Proof.
  intros Hi Hwf Hd Happ.
  destruct (append_spec _ _ _ _ _ Hwf Happ) as (_ & Hwf' & Hdom & Hown & Hkeep & Hread).
  assert (Hr : forall k t, mergedLabels st !! k = Some t -> read h' t = read (heap st) t).
  { intros k t Ht. apply Hread; [by apply (wl_wf _ _ (inv_merged _ _ Hi) k)|].
    intros p Hp. by eapply Hd. }
  split; [|split; [done|split]].
  - unfold contents. apply map_fmap_ext. eauto.
  - intros k t p Ht Hp Hq. destruct (Hown p Hp) as [Ho|Hf]; [by eapply Hd|].
    apply Hf. eapply owns_dom; [|done]. by apply (wl_wf _ _ (inv_merged _ _ Hi) k).
  - destruct Hi as [[Hw Hs] Hl Ha Hls Ho]. constructor; simpl; eauto.
    + constructor; [|done]. intros k t Ht. rewrite (Hr k t Ht). destruct (Hw _ _ Ht). eauto.
    + intros k t Ht. destruct (Ho _ _ Ht). eauto.
Qed.

(** Replacing the slice of one key by one that holds the same array or a fresh one. *)
Lemma replace_merged labels st k s h' s' l :
  inv labels st -> at_key (mergedLabels st) k = s ->
  wf_slice h' s' -> read h' s' = l -> NoDup l ->
  (forall p, owns s' p -> owns s p \/ p ∉ dom (heap st)) ->
  (forall t, wf_slice (heap st) t -> wf_slice h' t) ->
  (forall t, wf_slice (heap st) t -> (forall p, owns s p -> ~ owns t p) -> read h' t = read (heap st) t) ->
  inv labels (set_merged st h' (<[k := s']> (mergedLabels st))) /\
  contents h' (<[k := s']> (mergedLabels st)) = <[k := l]> (contents (heap st) (mergedLabels st)).
Proof.
  intros Hi Hs Hwf Hl Hnd Hown Hkeep Hread.
  assert (Hsown : forall p, owns s p -> exists s0, mergedLabels st !! k = Some s0 /\ owns s0 p).
  { intros p Hp. subst s. unfold at_key in *. destruct (mergedLabels st !! k); simpl in *; eauto.
    destruct Hp; simpl in *; lia. }
  destruct Hi as [[Hw Hsep] Hlab Halias Hlsep Hout].
  assert (Hother : forall k1 t, k1 <> k -> mergedLabels st !! k1 = Some t ->
     read h' t = read (heap st) t).
  { intros k1 t Hne Ht. apply Hread; [by eapply Hw|]. intros p Hp Hq.
    destruct (Hsown p Hp) as (s0 & ? & ?). by apply Hne, (Hsep k1 k t s0 p). }
  assert (Hdisj : forall k1 t p, k1 <> k -> mergedLabels st !! k1 = Some t -> owns s' p -> ~ owns t p).
  { intros k1 t p Hne Ht Hp Hq. destruct (Hown p Hp) as [Ho|Hf].
    - destruct (Hsown p Ho) as (s0 & ? & ?). by apply Hne, (Hsep k1 k t s0 p).
    - apply Hf. eapply owns_dom; [|done]. by eapply Hw. }
  split.
  - constructor; simpl.
    + constructor.
      * intros k1 t. rewrite lookup_insert. case_decide as Hk; intros Ht; simplify_eq; [done|].
        rewrite (Hother k1 t) by done. destruct (Hw _ _ Ht). eauto.
      * intros k1 k2 s1 s2 p. rewrite !lookup_insert.
        repeat case_decide; intros; simplify_eq; try done; try (exfalso; by eapply Hdisj).
        by eapply Hsep.
    + eauto.
    + intros k1 t p k' t'. rewrite lookup_insert. case_decide as Hk; intros Ht Hp Ht' Hq; [|by eapply Halias].
      simplify_eq. destruct (Hown p Hp) as [Ho|Hf].
      * destruct (Hsown p Ho) as (s0 & ? & ?). by eapply Halias.
      * exfalso. apply Hf. eapply owns_dom; [|done]. by eapply Hlab.
    + done.
    + intros k1 t Ht. destruct (Hout _ _ Ht) as [Hwt Hdt]. split; [eauto|].
      intros k2 t2 p. rewrite lookup_insert. case_decide as Hk; intros Ht2 Hp Hq; [|by eapply Hdt].
      simplify_eq. destruct (Hown p Hq) as [Ho|Hf].
      * destruct (Hsown p Ho) as (s0 & ? & ?). by eapply Hdt.
      * apply Hf. by eapply owns_dom.
  - unfold contents. rewrite fmap_insert, Hl. apply map_eq. intros k1.
    rewrite !lookup_insert, !lookup_fmap. case_decide; [done|].
    destruct (mergedLabels st !! k1) as [t|] eqn:Et; simpl; [|done]. f_equal. eauto.
Qed.

Lemma delete_merged labels st k :
  inv labels st -> inv labels (set_merged st (heap st) (delete k (mergedLabels st))).
Proof.
  intros [[Hw Hsep] Hlab Halias Hlsep Hout].
  assert (Hd : forall k1 t, delete k (mergedLabels st) !! k1 = Some t -> mergedLabels st !! k1 = Some t)
    by (intros ?? ?%lookup_delete_Some; naive_solver).
  constructor; simpl; eauto.
  - constructor; eauto.
  - intros k1 t Ht. destruct (Hout _ _ Ht) as [Hwt Hdt]. split; [done|].
    intros k2 t2 p Hk2. eauto.
Qed.

(** ** addValue *)
Lemma addValue_spec labels st k v :
  inv labels st ->
  inv labels (addValue st k v) /\
  contents (heap (addValue st k v)) (mergedLabels (addValue st k v)) =
    spec_add k v (contents (heap st) (mergedLabels st)).
Proof.
  intros Hi. unfold addValue, spec_add.
  destruct (at_key_merged _ _ k Hi) as (Hwm & Hnd & ->).
  case_bool_decide as Hin; [by rewrite decide_True|]. rewrite decide_False by done.
  destruct (append (heap st) (at_key (labelsToAdd st) k) [v]) as [h1 added] eqn:E1.
  destruct (at_key_out _ _ k Hi) as [[Hwa Hda] _].
  destruct (append_frame _ _ _ _ _ _ Hi Hwa Hda E1) as (Hc1 & Hw1 & Hd1 & Hi1).
  set (st1 := {| heap := h1; mergedLabels := mergedLabels st;
                 labelsToAdd := <[k := added]> (labelsToAdd st);
                 labelsToRemove := labelsToRemove st |}).
  assert (Hi2 : inv labels st1).
  { destruct Hi1 as [? ? ? ? Ho]. simpl in *. constructor; simpl; eauto. intros k1 t [Ht|Ht]; [|eauto].
    rewrite lookup_insert in Ht. case_decide; simplify_eq; eauto. }
  destruct (append h1 (at_key (mergedLabels st) k) [v]) as [h2 merged] eqn:E2.
  destruct (at_key_merged _ _ k Hi2) as (Hwm2 & _ & Hr2). simpl in Hwm2, Hr2.
  destruct (append_spec _ _ _ _ _ Hwm2 E2) as (Hr & Hw2 & Hdom & Hown & Hkeep & Hread).
  assert (Hrd : read h1 (at_key (mergedLabels st) k) = read (heap st) (at_key (mergedLabels st) k)).
  { rewrite <- Hr2, Hc1. by apply at_key_merged with (labels:=labels). }
  rewrite Hrd in Hr.
  destruct (replace_merged labels st1 k _ h2 merged _ Hi2 eq_refl Hw2 Hr) as [Hi3 Hc3]; eauto.
  { apply NoDup_app. split; [done|]. split; [|apply NoDup_singleton]. set_solver. }
  simpl in *. split; [exact Hi3|]. by rewrite Hc3, Hc1.
Qed.

(** ** Removal *)

(** On a hit the element goes from the merged slice; the array keeps a stale copy of
    the last element, so the rest of the loop still reads elements of the old tail. *)
Lemma in_place_delete_tail (h : gmap nat (list string)) cur i l h' s' :
  wf_slice h cur -> read h cur = l -> i < length l ->
  append h {| ptr := ptr cur; off := off cur; slen := i; scap := scap cur |} (drop (S i) l) = (h', s') ->
  forall j, i < j -> j < length l -> exists a, read h' cur !! j = Some a /\ a ∈ drop (S i) l.
Proof.
  intros Hwf Hl Hi E j Hij Hj.
  assert (Hn : slen cur = length l) by (subst l; by rewrite read_length).
  destruct Hwf as [Hle Hex]. destruct (Hex ltac:(lia)) as (arr & Harr & Hlen).
  unfold append in E. simpl in E.
  assert (Hxs : length (drop (S i) l) = length l - S i) by apply length_drop.
  rewrite decide_True in E by lia. injection E as Eh _.
  assert (Hne : drop (S i) l <> []) by (intros Hd; rewrite Hd in Hxs; simpl in Hxs; lia).
  destruct (drop (S i) l) as [|x xs] eqn:Ed; [done|]. rewrite <- Ed in *. subst h'.
  rewrite lookup_read, decide_True by lia. unfold array. rewrite lookup_insert_eq, Harr. simpl.
  rewrite lookup_write_at by lia. rewrite decide_False by lia. case_decide as Hc.
  - destruct (lookup_lt_is_Some_2 (drop (S i) l) (off cur + j - (off cur + i))) as [a Ha]; [lia|].
    exists a. split; [done|]. by eapply list_elem_of_lookup_2.
  - destruct (lookup_lt_is_Some_2 l j) as [a Ha]; [done|].
    exists a. split.
    + rewrite <- Hl, lookup_read, decide_True in Ha by lia. unfold array in Ha. by rewrite Harr in Ha.
    + apply (list_elem_of_lookup_2 _ (j - S i)). rewrite lookup_drop. rewrite <- Ha. f_equal. lia.
Qed.

(** What a step on the merged labels leaves alone: the values to add and to remove, and every
    slice that shares no array with the merged labels. *)
Definition out_kept (st st' : label_store) : Prop :=
  labelsToAdd st' = labelsToAdd st /\ labelsToRemove st' = labelsToRemove st /\
  forall t, wf_slice (heap st) t -> disjoint_from t (mergedLabels st) -> read (heap st') t = read (heap st) t.

Lemma remove_at_spec labels st k cur i l :
  inv labels st -> mergedLabels st !! k = Some cur -> read (heap st) cur = l -> i < length l ->
  exists st', remove_at st k i = Ok st' /\ inv labels st' /\
    contents (heap st') (mergedLabels st') =
      (if decide (delete i l = []) then delete k (contents (heap st) (mergedLabels st))
       else <[k := delete i l]> (contents (heap st) (mergedLabels st))) /\
    wf_slice (heap st') cur /\ out_kept st st' /\
    (forall j, i < j -> j < length l -> exists a, read (heap st') cur !! j = Some a /\ a ∈ drop (S i) l).
Proof.
  intros Hi Hm Hl Hlt. destruct (wl_wf _ _ (inv_merged _ _ Hi) _ _ Hm) as [Hwf Hnd].
  assert (Hn : slen cur = length l) by (subst l; by rewrite read_length).
  assert (Hak : at_key (mergedLabels st) k = cur) by (unfold at_key; by rewrite Hm).
  destruct (delete_at_spec (heap st) cur i Hwf) as (Hw1 & Hr1 & Hr2); [lia|]. simpl in Hw1, Hr1, Hr2.
  unfold remove_at. rewrite Hak. pose proof Hwf as [Hle Hex].
  rewrite slice_to_ok, slice_from_ok by lia. simpl. rewrite Hr2, Hl. rewrite Hl in Hr1, Hnd.
  destruct (append (heap st) _ (drop (S i) l)) as [h' s'] eqn:E.
  pose proof (in_place_delete_tail _ _ _ _ _ _ Hwf Hl Hlt E) as Htail.
  destruct (append_spec _ _ _ _ _ Hw1 E) as (Hr & Hw' & Hdom & Hown & Hkeep & Hread).
  rewrite Hr1, <- delete_take_drop in Hr.
  assert (Hs' : slen s' = length (delete i l)) by (rewrite <- Hr; by rewrite read_length).
  assert (Hnd' : NoDup (delete i l)) by (eapply sublist_NoDup; [done|apply sublist_delete]).
  eexists. split; [reflexivity|]. case_decide as Hz.
  - assert (Hnil : delete i l = []) by (apply length_zero_iff_nil; lia).
    rewrite decide_True by done. rewrite delete_take_drop in Hnil. apply app_nil in Hnil as [_ Hd].
    assert (h' = heap st) as ->.
    { unfold append in E. rewrite Hd in E. simpl in E. rewrite decide_True in E by lia. by injection E. }
    simpl. split; [by apply delete_merged|]. split; [unfold contents; by rewrite fmap_delete|].
    split; [done|]. split; [|exact Htail]. by split; [|split].
  - assert (Hne : delete i l <> []) by (intros Hd; rewrite Hd in Hs'; done).
    rewrite decide_False by done.
    destruct (replace_merged labels st k cur h' s' _ Hi Hak Hw' Hr Hnd') as [Hi' Hc']; eauto.
    split; [exact Hi'|]. split; [exact Hc'|]. split; [by apply Hkeep|]. split; [|exact Htail].
    split; [done|]. split; [done|]. intros t Ht Hd. apply Hread; [done|]. intros p Hp Hq. by eapply Hd; [exact Hm|exact Hq|].
Qed.

(** A stretch of the loop without a hit changes nothing. *)
Lemma remove_loop_nohit n x i k v st :
  (forall j, i <= j -> j < i + n -> exists a, index (heap st) x j = Ok a /\ a <> v) ->
  remove_loop n x i k v st = Ok st.
Proof.
  revert i. induction n as [|n IH]; intros i Hno; simpl; [done|].
  destruct (Hno i) as (a & -> & Ha); [lia|lia|]. simpl. rewrite bool_decide_false by done. simpl.
  apply IH. intros j ? ?. apply Hno; lia.
Qed.

(** The loop up to the first hit. *)
Lemma remove_loop_until n x i k v st j :
  i <= j -> j < i + n ->
  (forall i', i <= i' -> i' < j -> exists a, index (heap st) x i' = Ok a /\ a <> v) ->
  index (heap st) x j = Ok v ->
  remove_loop n x i k v st =
    let* st' := remove_at st k j in remove_loop (i + n - S j) x (S j) k v st'.
Proof.
  revert i. induction n as [|n IH]; intros i Hij Hj Hno Hhit; [lia|]. simpl.
  destruct (decide (i = j)) as [<-|Hne].
  - rewrite Hhit. simpl. rewrite bool_decide_true by done. by replace (i + S n - S i) with n by lia.
  - destruct (Hno i) as (a & -> & Ha); [lia|lia|]. simpl. rewrite bool_decide_false by done. simpl.
    rewrite IH; [by replace (S i + n - S j) with (i + S n - S j) by lia|lia|lia| |done].
    intros i' ? ?. apply Hno; lia.
Qed.

Lemma filter_ne_delete (l : list string) j v :
  NoDup l -> l !! j = Some v -> filter (fun x => x <> v) l = delete j l.
Proof.
  revert j. induction l as [|a l IH]; intros j Hnd Hj; [done|].
  apply NoDup_cons in Hnd as [Hna Hnd]. rewrite filter_cons. destruct j as [|j]; simpl in Hj.
  - simplify_eq. rewrite decide_False by (intros Hc; by apply Hc). simpl.
    clear IH. induction l as [|b l IHl]; [done|]. apply not_elem_of_cons in Hna as [? ?].
    rewrite filter_cons, decide_True by done. f_equal. apply IHl; [done|by inversion Hnd].
  - rewrite decide_True; [by rewrite (IH j)|]. intros ->. by apply Hna, (list_elem_of_lookup_2 _ j).
Qed.

Lemma remove_value_spec labels st k v :
  inv labels st ->
  exists st', remove_value st k v = Ok st' /\ inv labels st' /\
    contents (heap st') (mergedLabels st') = spec_remove k v (contents (heap st) (mergedLabels st)) /\ out_kept st st'.
Proof.
  intros Hi. unfold remove_value, spec_remove.
  destruct (at_key_merged _ _ k Hi) as (Hwf & Hnd & ->).
  set (x := at_key (mergedLabels st) k) in *. set (l := read (heap st) x) in *.
  assert (Hn : slen x = length l) by (unfold l; by rewrite read_length).
  assert (Hidx : forall j a, l !! j = Some a -> index (heap st) x j = Ok a)
    by (intros; by apply index_ok).
  destruct (decide (v ∈ l)) as [Hin|Hnin].
  2: { exists st. split; [|done]. apply remove_loop_nohit. intros j _ Hj.
       destruct (lookup_lt_is_Some_2 l j) as [a Ha]; [lia|]. exists a. split; [eauto|].
       intros ->. by apply Hnin, (list_elem_of_lookup_2 _ j). }
  apply list_elem_of_lookup in Hin as [j Hj]. pose proof (lookup_lt_Some _ _ _ Hj) as Hjl.
  rewrite (filter_ne_delete l j v) by done.
  assert (Hm : mergedLabels st !! k = Some x).
  { unfold x, at_key in *. destruct (mergedLabels st !! k) eqn:Em; [done|].
    simpl in *. lia. }
  destruct (remove_at_spec labels st k x j l Hi Hm eq_refl Hjl) as (st' & Hrem & Hi' & Hc & Hwx & Hkept & Htail).
  exists st'. split; [|done].
  rewrite (remove_loop_until _ _ _ _ _ _ j); [|lia|lia| |eauto].
  - rewrite Hrem. simpl. apply remove_loop_nohit. intros i ? ?.
    destruct (Htail i) as (a & Ha & Hin); [lia|lia|]. exists a. split; [by apply index_ok|].
    intros ->. apply list_elem_of_lookup in Hin as [i' Hi2]. rewrite lookup_drop in Hi2.
    pose proof (NoDup_lookup _ _ _ _ Hnd Hj Hi2). lia.
  - intros i _ Hlt. destruct (lookup_lt_is_Some_2 l i) as [a Ha]; [lia|]. exists a.
    split; [eauto|]. intros ->. pose proof (NoDup_lookup _ _ _ _ Hnd Hj Ha). lia.
Qed.

(** ** Whole changes *)
Lemma addValues_spec labels k vs : forall st, inv labels st ->
  let st' := foldl (fun s v => addValue s k v) st vs in
  inv labels st' /\ contents (heap st') (mergedLabels st') =
    foldl (fun m v => spec_add k v m) (contents (heap st) (mergedLabels st)) vs.
Proof.
  induction vs as [|v vs IH]; intros st Hi; simpl; [done|].
  destruct (addValue_spec labels st k v Hi) as [Hi' Hc]. rewrite <- Hc. by apply IH.
Qed.

Lemma removeValues_spec labels k vs : forall st, inv labels st ->
  exists st', fold_result (fun s v => remove_value s k v) st vs = Ok st' /\ inv labels st' /\
    contents (heap st') (mergedLabels st') =
      foldl (fun m v => spec_remove k v m) (contents (heap st) (mergedLabels st)) vs.
Proof.
  induction vs as [|v vs IH]; intros st Hi; simpl; [by eauto|].
  destruct (remove_value_spec labels st k v Hi) as (st' & -> & Hi' & Hc & _). simpl.
  destruct (IH st' Hi') as (st2 & ? & ? & Hc2). exists st2. by rewrite Hc2, Hc.
Qed.

Lemma out_remove labels st k s :
  inv labels st -> wf_slice (heap st) s -> disjoint_from s (mergedLabels st) ->
  inv labels {| heap := heap st; mergedLabels := mergedLabels st; labelsToAdd := labelsToAdd st;
                labelsToRemove := <[k := s]> (labelsToRemove st) |}.
Proof.
  intros [? ? ? ? Ho] Hw Hd. constructor; simpl; eauto.
  intros k1 t [Ht|Ht]; [eauto|]. rewrite lookup_insert in Ht. case_decide; simplify_eq; eauto.
Qed.

Lemma labels_disjoint_deleted labels st k :
  inv labels st ->
  wf_slice (heap st) (at_key labels k) /\ disjoint_from (at_key labels k) (delete k (mergedLabels st)).
Proof.
  intros Hi. unfold at_key. destruct (labels !! k) as [s|] eqn:E; simpl.
  - split; [by eapply inv_labels|]. intros k' s' p [Hne Hm]%lookup_delete_Some Hp Hq.
    apply Hne. by eapply (inv_alias _ _ Hi k' s' p k s).
  - split; [apply nil_wf|apply nil_disjoint].
Qed.

Lemma apply_add_spec labels st k vs :
  inv labels st ->
  inv labels (apply_add st k vs) /\
  contents (heap (apply_add st k vs)) (mergedLabels (apply_add st k vs)) =
    foldl (fun m v => spec_add k v m) (contents (heap st) (mergedLabels st))
      (if decide (vs = []) then [""] else vs).
Proof.
  intros Hi. unfold apply_add. case_decide as Hv.
  - subst vs. simpl. by apply addValue_spec.
  - by apply addValues_spec.
Qed.

Lemma apply_remove_spec labels st k vs :
  inv labels st ->
  exists st', apply_remove labels st k vs = Ok st' /\ inv labels st' /\
    contents (heap st') (mergedLabels st') =
      (if decide (vs = []) then delete k (contents (heap st) (mergedLabels st))
       else foldl (fun m v => spec_remove k v m) (contents (heap st) (mergedLabels st)) vs).
Proof.
  intros Hi. unfold apply_remove. case_decide as Hv.
  - eexists. split; [reflexivity|]. simpl. split; [|unfold contents; by rewrite fmap_delete].
    destruct (labels_disjoint_deleted labels st k Hi).
    by apply (out_remove labels (set_merged st (heap st) (delete k (mergedLabels st)))
      k (at_key labels k) (delete_merged labels st k Hi)).
  - destruct (append _ _ vs) as [h' removed] eqn:E.
    destruct (at_key_out labels st k Hi) as [_ [Hw Hd]].
    destruct (append_frame _ _ _ _ _ _ Hi Hw Hd E) as (Hc & Hw' & Hd' & Hi').
    destruct (removeValues_spec labels k vs _ (out_remove _ _ k removed Hi' Hw' Hd'))
      as (st' & Hf & ? & Hc').
    exists st'. simpl in Hf, Hc'. rewrite <- Hc. done.
Qed.

Lemma apply_change_spec labels st c :
  inv labels st ->
  exists st', apply_change labels st c = Ok st' /\ inv labels st' /\
    contents (heap st') (mergedLabels st') = spec_change (contents (heap st) (mergedLabels st)) c.
Proof.
  intros Hi. unfold apply_change, spec_change.
  destruct (lc_Operation c); eauto using apply_remove_spec;
    eexists; (split; [reflexivity|]); by apply apply_add_spec.
Qed.

Lemma apply_changes_spec labels changes : forall st, inv labels st ->
  exists st', fold_result (apply_change labels) st changes = Ok st' /\
    contents (heap st') (mergedLabels st') =
      foldl spec_change (contents (heap st) (mergedLabels st)) changes /\ inv labels st'.
Proof.
  induction changes as [|c cs IH]; intros st Hi; simpl; [by eauto|].
  destruct (apply_change_spec labels st c Hi) as (st1 & -> & Hi1 & Hc1). simpl.
  destruct (IH st1 Hi1) as (st2 & ? & Hc2 & ?). exists st2. by rewrite Hc2, Hc1.
Qed.

Lemma Apply_spec h labels changes :
  wf_labels h labels ->
  exists st, ApplyLabelChangesToLabels h changes labels = Ok st /\
    contents (heap st) (mergedLabels st) = foldl spec_change (contents h labels) changes /\
    wf_labels (heap st) (mergedLabels st).
Proof.
  intros Hwf. unfold ApplyLabelChangesToLabels.
  assert (Hi : inv labels {| heap := h; mergedLabels := labels; labelsToAdd := ∅; labelsToRemove := ∅ |}).
  { destruct Hwf as [Hw Hs]. constructor; simpl; eauto.
    - constructor; eauto.
    - intros k s Hk. by apply (Hw k).
    - intros k s [Hk|Hk]; by rewrite lookup_empty in Hk. }
  destruct (apply_changes_spec labels changes _ Hi) as (st & ? & ? & Hi').
  exists st. split; [done|]. split; [done|]. apply (inv_merged _ _ Hi').
Qed.

(** ** Labels read from the database

    The labels as the code keeps them: slices, each with an array of its own. *)
Definition alloc_labels (labels : gmap string (list string)) : gmap nat (list string) * gmap string slice :=
  let entries := map_to_list labels in
  (list_to_map (zip (seq 0 (length entries)) (map snd entries)),
   list_to_map (imap (fun i '(key, values) =>
     (key, {| ptr := i; off := 0; slen := length values; scap := length values |})) entries)).

Lemma alloc_lookup labels k s : (alloc_labels labels).2 !! k = Some s ->
  exists i l, map_to_list labels !! i = Some (k, l) /\ s = {| ptr := i; off := 0; slen := length l; scap := length l |}.
Proof.
  simpl. intros Hs%elem_of_list_to_map_2. apply elem_of_lookup_imap in Hs as (i & [k' l] & [= -> ->] & Hi). eauto.
Qed.
Lemma alloc_heap labels i k l : map_to_list labels !! i = Some (k, l) -> (alloc_labels labels).1 !! i = Some l.
Proof.
  intros Hi. simpl. apply elem_of_list_to_map_1.
  - rewrite fst_zip by (rewrite length_seq, length_map; lia). apply NoDup_ListNoDup, seq_NoDup.
  - apply list_elem_of_lookup. exists i. rewrite lookup_zip_with.
    rewrite lookup_seq_lt by (by eapply lookup_lt_Some). simpl. by rewrite list_lookup_fmap, Hi.
Qed.
Lemma alloc_key labels k l : labels !! k = Some l ->
  exists i, map_to_list labels !! i = Some (k, l) /\
    (alloc_labels labels).2 !! k = Some {| ptr := i; off := 0; slen := length l; scap := length l |}.
Proof.
  intros Hk%elem_of_map_to_list. apply list_elem_of_lookup in Hk as [i Hi]. exists i. split; [done|]. simpl.
  apply elem_of_list_to_map_1.
  - replace ((imap _ (map_to_list labels)).*1) with ((map_to_list labels).*1); [apply NoDup_fst_map_to_list|].
    apply list_eq. intros j. rewrite !list_lookup_fmap, list_lookup_imap. by destruct (map_to_list labels !! j) as [[]|].
  - apply elem_of_lookup_imap. exists i, (k, l). done.
Qed.
Lemma alloc_read labels i k l : map_to_list labels !! i = Some (k, l) ->
  read (alloc_labels labels).1 {| ptr := i; off := 0; slen := length l; scap := length l |} = l.
Proof.
  intros Hi%alloc_heap. unfold read, array. cbn [ptr off slen]. rewrite Hi. cbn [default from_option id].
  by rewrite drop_0, firstn_all.
Qed.

Lemma alloc_contents labels : contents (alloc_labels labels).1 (alloc_labels labels).2 = labels.
Proof.
  apply map_eq. intros k. unfold contents. rewrite lookup_fmap. destruct (labels !! k) as [l|] eqn:Hk.
  - destruct (alloc_key _ _ _ Hk) as (i & Hi & ->). exact (f_equal Some (alloc_read _ _ _ _ Hi)).
  - destruct ((alloc_labels labels).2 !! k) as [s|] eqn:Hs; [|done].
    destruct (alloc_lookup _ _ _ Hs) as (i & l & Hi & _). apply list_elem_of_lookup_2, elem_of_map_to_list in Hi. congruence.
Qed.
Lemma alloc_wf labels : (forall k l, labels !! k = Some l -> NoDup l) ->
  wf_labels (alloc_labels labels).1 (alloc_labels labels).2.
Proof.
  intros Hd. constructor.
  - intros k s Hs. destruct (alloc_lookup _ _ _ Hs) as (i & l & Hi & ->). rewrite (alloc_read _ _ _ _ Hi). split.
    + split; simpl; [lia|]. intros _. exists l. split; [by eapply alloc_heap|done].
    + apply (Hd k). by apply elem_of_map_to_list, list_elem_of_lookup_2 with i.
  - intros k1 k2 s1 s2 p H1 H2. destruct (alloc_lookup _ _ _ H1) as (i & l1 & Hi & ->), (alloc_lookup _ _ _ H2) as (j & l2 & Hj & ->).
    intros [_ <-] [_ Hp]. simpl in Hp. subst j. rewrite Hi in Hj. by injection Hj.
Qed.
(** Changes on labels that were just read. *)
Lemma apply_to_read labels changes : (forall k l, labels !! k = Some l -> NoDup l) ->
  exists st, ApplyLabelChangesToLabels (alloc_labels labels).1 changes (alloc_labels labels).2 = Ok st /\
    contents (heap st) (mergedLabels st) = foldl spec_change labels changes.
Proof.
  intros Hd. destruct (Apply_spec _ _ changes (alloc_wf labels Hd)) as (st & ? & Hc & _). exists st.
  by rewrite alloc_contents in Hc.
Qed.

(** ** Which values a label ends up with *)
Definition has_value (m : gmap string (list string)) (k v : string) : Prop :=
  v ∈ default [] (m !! k).

(** What a change says of one value of one key: added, removed, or nothing. *)
Definition effect (c : LabelChange) (k v : string) : option bool :=
  if decide (lc_Key c = k) then
    match lc_Operation c with
    | AddLabelOperation | AddLabelValuesOperation =>
        if decide (v ∈ (if decide (lc_Values c = []) then [""] else lc_Values c))
        then Some true else None
    | RemoveLabelOperation | RemoveLabelValuesOperation =>
        if decide (lc_Values c = [] \/ v ∈ lc_Values c) then Some false else None
    | OtherOperation _ => None
    end
  else None.

(** The last change that says something decides. *)
Definition last_effect (cs : list LabelChange) (k v : string) : option bool :=
  foldl (fun acc c => match effect c k v with Some b => Some b | None => acc end) None cs.

Lemma has_value_add k v m k' v' :
  has_value (spec_add k v m) k' v' <-> (k = k' /\ v' = v) \/ has_value m k' v'.
Proof.
  unfold spec_add, has_value. case_decide as Hin.
  - split; [by right|]. intros [[<- ->]|?]; done.
  - rewrite lookup_insert. case_decide as Hk; simpl; [subst k'|naive_solver].
    rewrite elem_of_app, list_elem_of_singleton. naive_solver.
Qed.

Lemma has_value_remove k v m k' v' :
  has_value (spec_remove k v m) k' v' <-> has_value m k' v' /\ ~ (k = k' /\ v' = v).
Proof.
  unfold spec_remove, has_value. case_decide as Hin.
  - assert (Hf : forall x, x ∈ filter (fun x => x <> v) (default [] (m !! k)) <->
      x <> v /\ x ∈ default [] (m !! k)) by (intros; by rewrite list_elem_of_filter).
    case_decide as Hnil.
    + rewrite lookup_delete. case_decide as Hk; simpl; [subst k'|naive_solver].
      rewrite Hnil in Hf. specialize (Hf v'). rewrite elem_of_nil in *. naive_solver.
    + rewrite lookup_insert. case_decide as Hk; simpl; [subst k'|naive_solver].
      rewrite Hf. naive_solver.
  - split; [|by intros [? _]]. intros Hv. split; [done|]. intros [<- ->]. done.
Qed.

Lemma has_value_adds k vs : forall m k' v',
  has_value (foldl (fun m v => spec_add k v m) m vs) k' v' <->
  (k = k' /\ v' ∈ vs) \/ has_value m k' v'.
Proof.
  induction vs as [|v vs IH]; intros m k' v'; simpl.
  - rewrite elem_of_nil. naive_solver.
  - rewrite IH, has_value_add, elem_of_cons. naive_solver.
Qed.

Lemma has_value_removes k vs : forall m k' v',
  has_value (foldl (fun m v => spec_remove k v m) m vs) k' v' <->
  has_value m k' v' /\ ~ (k = k' /\ v' ∈ vs).
Proof.
  induction vs as [|v vs IH]; intros m k' v'; simpl.
  - rewrite elem_of_nil. naive_solver.
  - rewrite IH, has_value_remove, elem_of_cons. naive_solver.
Qed.

Lemma has_value_change m c k v :
  has_value (spec_change m c) k v <->
  match effect c k v with Some b => b = true | None => has_value m k v end.
Proof.
  assert (Hdel : has_value (delete (lc_Key c) m) k v <-> lc_Key c <> k /\ has_value m k v).
  { unfold has_value. rewrite lookup_delete. case_decide; simpl; rewrite ?elem_of_nil; naive_solver. }
  unfold spec_change, effect. destruct (lc_Operation c);
    repeat case_decide; rewrite ?has_value_adds, ?has_value_removes, ?Hdel, ?elem_of_nil; naive_solver.
Qed.

Lemma has_value_changes cs k v : forall m,
  has_value (foldl spec_change m cs) k v <->
  match last_effect cs k v with Some b => b = true | None => has_value m k v end.
Proof.
  unfold last_effect. induction cs as [|c cs IH] using rev_ind; intros m; [done|].
  rewrite !foldl_app. simpl. rewrite has_value_change. destruct (effect c k v); [done|]. apply IH.
Qed.

(** ** The claims *)

(** C38: on labels whose values are pairwise distinct under each key and whose slices
    have arrays of their own, [ApplyLabelChangesToLabels] never panics, and the merged
    labels it returns are those of the changes applied in order to plain maps: adding
    appends a value that is not there (the empty value for a change without values),
    removing drops the value and the key when nothing is left, and removing without
    values drops the key. *)
Theorem label_changes_refine_spec h labels changes :
  wf_labels h labels ->
  exists st, ApplyLabelChangesToLabels h changes labels = Ok st /\
    contents (heap st) (mergedLabels st) = foldl spec_change (contents h labels) changes /\
    wf_labels (heap st) (mergedLabels st).
Proof. apply Apply_spec. Qed.

(** After [ApplyLabelChangesToLabels] a key has a value exactly when the last
    change that mentions the value (or removes the whole key) adds it, or no change
    mentions it and the key had it before; so applying the same changes again, as the
    update path does, adds or removes nothing more. *)
Theorem label_changes_last_wins h labels changes st st2 :
  wf_labels h labels ->
  ApplyLabelChangesToLabels h changes labels = Ok st ->
  ApplyLabelChangesToLabels (heap st) changes (mergedLabels st) = Ok st2 ->
  forall k v,
    (has_value (contents (heap st) (mergedLabels st)) k v <->
     match last_effect changes k v with
     | Some b => b = true
     | None => has_value (contents h labels) k v
     end) /\
    (has_value (contents (heap st2) (mergedLabels st2)) k v <->
     has_value (contents (heap st) (mergedLabels st)) k v).
Proof.
  intros Hwf H1 H2 k v.
  destruct (Apply_spec h labels changes Hwf) as (st' & E1 & Hc1 & Hwf1).
  rewrite H1 in E1. injection E1 as <-.
  destruct (Apply_spec _ _ changes Hwf1) as (st2' & E2 & Hc2 & _).
  rewrite H2 in E2. injection E2 as <-.
  rewrite Hc2, Hc1, !has_value_changes.
  destruct (last_effect changes k v) eqn:E; rewrite ?has_value_changes, ?E; done.
Qed.

(** ** Two values under one key *)
Definition pair_slice : slice := {| ptr := 0; off := 0; slen := 2; scap := 2 |}.
Definition remove_change (key v : string) : LabelChange :=
  {| lc_Operation := RemoveLabelValuesOperation; lc_Key := key; lc_Values := [v] |}.

#[local] Arguments remove_loop : simpl never.

(** The state in which the removal loop starts: the pair is still in its array. *)
Lemma pair_removal_start key a b v :
  exists h toRemove,
    array h 0 = [a; b] /\
    ApplyLabelChangesToLabels {[ 0 := [a; b] ]} [remove_change key v] {[ key := pair_slice ]} =
    remove_loop 2 pair_slice 0 key v
      {| heap := h; mergedLabels := {[ key := pair_slice ]}; labelsToAdd := ∅;
         labelsToRemove := toRemove |}.
Proof.
  unfold ApplyLabelChangesToLabels, apply_change, apply_remove. simpl.
  destruct (append _ (at_key ∅ key) [v]) as [h r] eqn:E.
  assert (Hh : array h 0 = [a; b]).
  { unfold append, at_key in E. rewrite lookup_empty, decide_False in E by (simpl; lia).
    injection E as <- _. set (p := fresh _).
    assert (Hp : p ∉ dom ({[ 0 := [a; b] ]} : gmap nat (list string))) by apply is_fresh.
    rewrite dom_singleton, not_elem_of_singleton in Hp.
    unfold array. by rewrite lookup_insert_ne, lookup_singleton_eq. }
  exists h, (<[key := r]> ∅). split; [done|].
  unfold remove_value, at_key. simpl. rewrite lookup_singleton_eq. simpl.
  by destruct (remove_loop _ _ _ _ _ _).
Qed.

Lemma remove_at_first key a b st :
  array (heap st) 0 = [a; b] -> mergedLabels st = {[ key := pair_slice ]} ->
  exists st', remove_at st key 0 = Ok st' /\ array (heap st') 0 = [b; b] /\
    mergedLabels st' = {[ key := {| ptr := 0; off := 0; slen := 1; scap := 2 |} ]}.
Proof.
  intros Ha Hm. unfold remove_at, at_key. rewrite Hm, lookup_singleton_eq. simpl.
  unfold slice_to, slice_from. simpl. unfold read. simpl. rewrite Ha. simpl.
  unfold append. simpl. rewrite Ha. eexists. split; [reflexivity|]. simpl. split.
  - unfold array. by rewrite lookup_insert_eq.
  - by rewrite insert_singleton_eq.
Qed.

(** A key that holds a value twice makes [ApplyLabelChangesToLabels] panic when the
    value is removed: the loop goes on over the array the first removal shifted. *)
Theorem duplicate_value_removal_panics key v :
  ApplyLabelChangesToLabels {[ 0 := [v; v] ]} [remove_change key v] {[ key := pair_slice ]}
  = Panic "slice bounds out of range".
Proof.
  destruct (pair_removal_start key v v v) as (h & r & Hh & ->).
  rewrite (remove_loop_until 2 _ 0 _ _ _ 0); [|lia|lia|intros; lia|].
  2: { unfold index, read. simpl. by rewrite Hh. }
  destruct (remove_at_first key v v {| heap := h; mergedLabels := {[ key := pair_slice ]};
    labelsToAdd := ∅; labelsToRemove := r |}) as (st' & -> & Hh' & Hm'); [done..|].
  simpl. unfold remove_loop, index, read. simpl. rewrite Hh'. simpl. rewrite bool_decide_true by done.
  unfold remove_at, at_key. by rewrite Hm', lookup_singleton_eq.
Qed.

(** Removing a value changes the caller's labels too, since the merged map shares
    their arrays: the caller's key with values [a], [b] reads [b], [b] afterwards. *)
Theorem removal_corrupts_caller_labels key a b :
  a <> b ->
  exists st,
    ApplyLabelChangesToLabels {[ 0 := [a; b] ]} [remove_change key a] {[ key := pair_slice ]} = Ok st /\
    contents (heap st) (mergedLabels st) = {[ key := [b] ]} /\
    contents (heap st) {[ key := pair_slice ]} = {[ key := [b; b] ]}.
Proof.
  intros Hne. destruct (pair_removal_start key a b a) as (h & r & Hh & ->).
  rewrite (remove_loop_until 2 _ 0 _ _ _ 0); [|lia|lia|intros; lia|].
  2: { unfold index, read. simpl. by rewrite Hh. }
  destruct (remove_at_first key a b {| heap := h; mergedLabels := {[ key := pair_slice ]};
    labelsToAdd := ∅; labelsToRemove := r |}) as (st' & -> & Hh' & Hm'); [done..|].
  exists st'. simpl. unfold remove_loop, index, read. simpl. rewrite Hh'. simpl.
  rewrite bool_decide_false by done. split; [done|].
  unfold contents. rewrite Hm', !map_fmap_singleton. unfold read. simpl. by rewrite Hh'.
Qed.

End Update.

(** Labels of one key with two values, and changes to them. *)
Definition sample_heap : gmap nat (list string) := {[ 0 := ["a"; "b"] ]}.
Definition sample_labels : gmap string slice :=
  {[ "k" := {| ptr := 0; off := 0; slen := 2; scap := 2 |} ]}.
Definition sample_changes : list LabelChange :=
  [ {| lc_Operation := RemoveLabelValuesOperation; lc_Key := "k"; lc_Values := ["a"] |};
    {| lc_Operation := AddLabelOperation; lc_Key := "k"; lc_Values := ["c"] |} ].

Lemma sample_wf : wf_labels sample_heap sample_labels.
Proof.
  unfold sample_heap, sample_labels. constructor.
  - intros k s [<- <-]%lookup_singleton_Some. split; [split; simpl; [lia|]|].
    + intros _. exists ["a"; "b"]. split; [by rewrite lookup_singleton_eq|simpl; lia].
    + vm_compute read. apply NoDup_cons. split; [set_solver|apply NoDup_singleton].
  - intros k1 k2 s1 s2 p [<- _]%lookup_singleton_Some [<- _]%lookup_singleton_Some. done.
Qed.

Lemma label_changes_refine_spec_witness :
  exists st, ApplyLabelChangesToLabels sample_heap sample_changes sample_labels = Ok st /\
    contents (heap st) (mergedLabels st) = {[ "k" := ["b"; "c"] ]}.
Proof.
  destruct (label_changes_refine_spec sample_heap sample_labels sample_changes sample_wf)
    as (st & Hst & Hc & _).
  exists st. split; [exact Hst|]. rewrite Hc. vm_compute. reflexivity.
Defined.

Lemma label_changes_last_wins_witness :
  exists st st2, ApplyLabelChangesToLabels sample_heap sample_changes sample_labels = Ok st /\
    ApplyLabelChangesToLabels (heap st) sample_changes (mergedLabels st) = Ok st2 /\
    (has_value (contents (heap st2) (mergedLabels st2)) "k" "c" <->
     has_value (contents (heap st) (mergedLabels st)) "k" "c").
Proof.
  eexists _, _. split; [vm_compute; reflexivity|]. split; [vm_compute; reflexivity|].
  eapply (fun H1 H2 => proj2 (label_changes_last_wins sample_heap sample_labels sample_changes _ _
    sample_wf H1 H2 "k" "c")); vm_compute; reflexivity.
Defined.

Lemma removal_corrupts_caller_labels_witness :
  exists st,
    ApplyLabelChangesToLabels {[ 0 := ["a"; "b"] ]} [remove_change "k" "a"]
      {[ "k" := pair_slice ]} = Ok st /\
    contents (heap st) (mergedLabels st) = {[ "k" := ["b"] ]} /\
    contents (heap st) {[ "k" := pair_slice ]} = {[ "k" := ["b"; "b"] ]}.
Proof. apply (removal_corrupts_caller_labels "k" "a" "b"). discriminate. Defined.
