(* ===== verification/WhereClause.v ===== *)
(** * The SQL where clause (storage/postgres/where_clause_tree.go, labels.go)

    Columns and their Go types, the SQL of one criterion and the compilation of a
    tree of criteria into a clause with [?] placeholders and its parameters. *)

From S2P Require Import Prelude GoStd Query.
From stdpp Require Import base gmap strings list pretty.
From Stdlib Require Import ZArith Ascii.
Local Open Scope string_scope.
Import Query.Operators Query.Criteria.

(** ** Columns (labels.go, abstract.go) *)

(** The [reflect.Type]s the code compares with; any other type is [OtherType]. *)
Inductive colType :=
  | intType | int64Type | timeType | byteSliceType | stringType | nullableStringType
  | jsonType | OtherType (name : string).
#[global] Instance colType_eq_dec : EqDecision colType.
Proof. solve_decision. Defined.

Record tagType := { Tag : string; TType : colType }.

(** [strings.Split(tag, ",")[0]]: the column name of a db tag. *)
Definition tag_column (t : tagType) : string := hd "" (Strings.split_byte (Tag t) ",").

Fixpoint findTagType (tags : list tagType) (tagName : string) : option colType :=
  match tags with
  | [] => None
  | t :: rest => if String.eqb (tag_column t) tagName then Some (TType t) else findTagType rest tagName
  end.

Definition determineCastByType (t : option colType) : string :=
  match t with
  | Some intType | Some int64Type | Some timeType | Some byteSliceType => ""
  | _ => "::text"
  end.

Definition hasMultiVariateOp (criteria : list Criterion) : bool :=
  existsb (fun c => bool_decide (op_Type (COperator c) = MultivariateOperator)) criteria.

(** [columnsByTags], as the list of the true keys of the map. *)
Definition columnsByTags (tags : list tagType) : list string := map tag_column tags.

(** ** SQL of a criterion *)
Inductive param := PText (s : string) | PList (l : list string).

Definition convertToJsonKey (key : string) : string * bool :=
  match Strings.split_byte key "/" with
  | [] => ("", false)
  | [col] => (col, false)
  | col :: parts =>
      (col ++ String.concat "" (map (fun p => "->" ++ "'" ++ p ++ "'") (removelast parts))
           ++ "->>" ++ "'" ++ List.last parts "" ++ "'", true)
  end.

Definition buildRightOp (operator : Operator) (rightOp : list string) : result (string * param) :=
  match op_Type operator with
  | MultivariateOperator => Ok ("(?)", PList rightOp)
  | UnivariateOperator =>
      match rightOp with
      | [] => Panic "index out of range"
      | r0 :: _ =>
          Ok (if bool_decide (operator = ContainsOperator) then "'%' || ? || '%'" else "?", PText r0)
      end
  end.

Definition translateOperationToSQLEquivalent (operator : Operator) : string :=
  match operator with
  | LessThanOperator => "<"
  | LessThanOrEqualOperator => "<="
  | GreaterThanOperator => ">"
  | GreaterThanOrEqualOperator => ">="
  | NotInOperator => "NOT IN"
  | InSubqueryOperator => "IN"
  | ExistsSubquery => "EXISTS"
  | NotExistsSubquery => "NOT EXISTS"
  | EqualsOperator | EqualsOrNilOperator => "="
  | NotEqualsOperator => "!="
  | ContainsOperator => "LIKE"
  | _ => Strings.to_upper (op_String operator)
  end.

(** The type assertion [rightOpQueryValue.(string)]. *)
Definition as_string (p : param) : result string :=
  match p with PText s => Ok s | PList _ => Panic "interface conversion" end.

Definition criterionSQL (c : Criterion) (dbTags : list tagType) (tableAlias : string)
    : result (string * param) :=
  let* (rightOpBindVar, rightOpQueryValue) := buildRightOp (COperator c) (RightOp c) in
  let sqlOperation := translateOperationToSQLEquivalent (COperator c) in
  let column := hd "" (Strings.split_byte (LeftOp c) "/") in
  let ttype := findTagType dbTags column in
  let '(leftOp, isCompound) :=
    if bool_decide (ttype = Some jsonType) then convertToJsonKey (LeftOp c) else (LeftOp c, false) in
  let dbCast := if isCompound then "" else determineCastByType ttype in
  let* clause :=
    match CType c with
    | Subquery =>
        let* sub := as_string rightOpQueryValue in
        Ok (leftOp ++ " " ++ sqlOperation ++ " (" ++ sub ++ ")")
    | ExistQuery =>
        let* sub := as_string rightOpQueryValue in
        Ok (sqlOperation ++ " (" ++ sub ++ ")")
    | _ =>
        if String.eqb tableAlias "" then
          Ok (leftOp ++ dbCast ++ " " ++ sqlOperation ++ " " ++ rightOpBindVar)
        else
          Ok (tableAlias ++ "." ++ leftOp ++ dbCast ++ " " ++ sqlOperation ++ " " ++ rightOpBindVar)
    end in
  Ok (if op_IsNullable (COperator c)
      then "(" ++ clause ++ " OR " ++ leftOp ++ " IS NULL)"
      else clause, rightOpQueryValue).

(** ** The tree *)

(** The functions a [treeSqlBuilder] may hold: the default one, the one that
    intersects the label queries of an entity, and the sub-select used for a single
    label query among several. *)
Inductive sqlBuilderFunc :=
  | DefaultBuilder
  | LabelsBuilder (referenceColumn : string)
  | SubSelectBuilder (referenceColumn labelsTable : string).

Definition buildSQL (b : sqlBuilderFunc) (childrenSQL : list string) : string :=
  match b with
  | DefaultBuilder => "(" ++ Strings.join " AND " childrenSQL ++ ")"
  | LabelsBuilder ref => "(" ++ ref ++ " IN (" ++ Strings.join " INTERSECT " childrenSQL ++ "))"
  | SubSelectBuilder ref table =>
      "(SELECT " ++ ref ++ " FROM " ++ table ++ " WHERE (" ++ Strings.join " AND " childrenSQL ++ "))"
  end.

(** A node; [t_criterion] is [None] for the zero [Criterion], and [t_builder] is the
    address of a [treeSqlBuilder] shared through pointers ([None] for nil). *)
Inductive whereClauseTree := Tree {
  t_criterion : option Criterion;
  t_dbTags : list tagType;
  t_tableName : string;
  t_children : list whereClauseTree;
  t_builder : option nat
}.

Definition isLeaf (t : whereClauseTree) : bool := bool_decide (t_children t = []).
Definition isEmpty (t : whereClauseTree) : bool :=
  match t_criterion t with None => bool_decide (t_children t = []) | Some _ => false end.

(** Are the parameters of this child left out ([ExistQuery] and [Subquery])? *)
Definition subquery_node (t : whereClauseTree) : bool :=
  match t_criterion t with
  | Some c => bool_decide (CType c = ExistQuery) || bool_decide (CType c = Subquery)
  | None => false
  end.

(** The SQL of a node from that of its children; a nil builder is the default one. *)
Definition node_sql (builders : gmap nat sqlBuilderFunc) (b : option nat) (childrenSQL : list string)
    : string :=
  match childrenSQL with
  | [] => ""
  | [s] => s
  | _ => buildSQL (match b with
                   | Some a => default DefaultBuilder (builders !! a)
                   | None => DefaultBuilder
                   end) childrenSQL
  end.

(** [compileSQL]. *)
Fixpoint compileSQL (builders : gmap nat sqlBuilderFunc) (t : whereClauseTree)
    : result (string * list param) :=
  match t with
  | Tree crit tags table children b =>
      match crit, children with
      | None, [] => Ok ("", [])
      | Some c, [] =>
          let* (sql, queryParam) := criterionSQL c tags table in Ok (sql, [queryParam])
      | _, _ =>
          let* (childrenSQL, queryParams) :=
            (fix loop (l : list whereClauseTree) : result (list string * list param) :=
               match l with
               | [] => Ok ([], [])
               | child :: rest =>
                   let* (childSQL, childParams) := compileSQL builders child in
                   let* (sqls, params) := loop rest in
                   if String.eqb childSQL "" then Ok (sqls, params)
                   else Ok (childSQL :: sqls,
                            ((if subquery_node child then [] else childParams) ++ params)%list)
               end) children in
          Ok (node_sql builders b childrenSQL, queryParams)
      end
  end.

(** The loop of [compileSQL] over the children, on its own. *)
Fixpoint compile_children (builders : gmap nat sqlBuilderFunc) (l : list whereClauseTree)
    : result (list string * list param) :=
  match l with
  | [] => Ok ([], [])
  | child :: rest =>
      let* (childSQL, childParams) := compileSQL builders child in
      let* (sqls, params) := compile_children builders rest in
      if String.eqb childSQL "" then Ok (sqls, params)
      else Ok (childSQL :: sqls, ((if subquery_node child then [] else childParams) ++ params)%list)
  end.

Lemma compileSQL_children builders crit tags table child rest b :
  compileSQL builders (Tree crit tags table (child :: rest) b) =
  let* (sqls, params) := compile_children builders (child :: rest) in
  Ok (node_sql builders b sqls, params).
Proof.
  assert (Hloop : forall l,
    (fix loop (l : list whereClauseTree) : result (list string * list param) :=
       match l with
       | [] => Ok ([], [])
       | child :: rest =>
           let* (childSQL, childParams) := compileSQL builders child in
           let* (sqls, params) := loop rest in
           if String.eqb childSQL "" then Ok (sqls, params)
           else Ok (childSQL :: sqls,
                    ((if subquery_node child then [] else childParams) ++ params)%list)
       end) l = compile_children builders l).
  { induction l as [|x l IH]; [done|]. cbn [compile_children]. by rewrite IH. }
  simpl compileSQL. destruct crit; rewrite Hloop; reflexivity.
Qed.

(** ** Placeholders *)
Definition qmark : ascii := "?".
Definition marks (s : string) : nat := Strings.count_byte qmark s.
Definition clean (s : string) : Prop := marks s = 0.

Lemma marks_app s t : marks (s ++ t) = (marks s + marks t)%nat.
Proof. apply Strings.count_byte_app. Qed.

Lemma marks_join sep l : clean sep -> marks (Strings.join sep l) = list_sum (map marks l).
Proof. apply Strings.count_byte_join. Qed.

Lemma split_clean s c : clean s -> Forall clean (Strings.split_byte s c).
Proof.
  unfold clean, marks. induction s as [|d s IH]; simpl; intros Hs; [by constructor|].
  specialize (IH ltac:(lia)). destruct (Ascii.eqb d c); [by constructor|].
  destruct (Strings.split_byte s c) as [|w ws]; simpl.
  - constructor; [simpl; lia|constructor].
  - inversion IH; subst. constructor; [simpl; lia|done].
Qed.

Lemma concat_clean l : Forall clean l -> clean (String.concat "" l).
Proof.
  intros Hl. pose proof (marks_join "" l eq_refl) as Hm. unfold Strings.join in Hm.
  unfold clean. rewrite Hm. induction Hl as [|x l Hx _ IH]; simpl; [done|]. rewrite Hx. simpl.
  apply IH. apply (marks_join "" l eq_refl).
Qed.

Lemma json_key_clean key : clean key -> clean (fst (convertToJsonKey key)).
Proof.
  intros Hk. unfold convertToJsonKey. pose proof (split_clean key "/" Hk) as Hs.
  destruct (Strings.split_byte key "/") as [|col [|p ps]]; cbn [fst]; [done|by inversion Hs|].
  inversion Hs as [|? ? Hcol Hps]; subst. set (parts := p :: ps) in *.
  assert (Hlast : clean (List.last parts "")).
  { apply Forall_forall with (x := List.last parts "") in Hps; [done|].
    apply list_elem_of_In. destruct (exists_last (l:=parts)) as (l' & a & ->); [done|].
    rewrite last_last. apply in_or_app. right. by left. }
  assert (Hinit : Forall clean (map (fun p => "->" ++ "'" ++ p ++ "'") (removelast parts))).
  { rewrite Forall_map. destruct (exists_last (l:=parts)) as (l' & a & E); [done|].
    rewrite E, removelast_last in *. apply Forall_app in Hps as [Hl' _].
    eapply Forall_impl; [done|]. simpl. intros x Hx. unfold clean in *. rewrite !marks_app, Hx. done. }
  apply concat_clean in Hinit. unfold clean in *. rewrite !marks_app, Hcol, Hinit, Hlast. done.
Qed.

(** The texts a criterion puts in the SQL itself are free of placeholders. *)
Definition clean_criterion (c : Criterion) : Prop :=
  clean (LeftOp c) /\
  (CType c = ExistQuery \/ CType c = Subquery -> Forall clean (RightOp c)).

Lemma buildRightOp_marks op rs bv p : buildRightOp op rs = Ok (bv, p) -> marks bv = 1.
Proof.
  unfold buildRightOp. destruct (op_Type op); [destruct rs; [done|]|]; intros [= <- <-]; [|done].
  by case_bool_decide.
Qed.

Lemma sql_operation_clean op : clean (translateOperationToSQLEquivalent op).
Proof. by destruct op. Qed.

Lemma cast_clean t : clean (determineCastByType t).
Proof. by destruct t as [[]|]. Qed.

Lemma buildRightOp_text op rs bv s :
  buildRightOp op rs = Ok (bv, PText s) -> s ∈ rs.
Proof.
  unfold buildRightOp. destruct (op_Type op); [destruct rs; [done|]|]; intros [= _ ?]; simplify_eq; by left.
Qed.

(** A plain criterion has one placeholder, an exist or sub-query none. *)
Lemma criterionSQL_marks c tags alias sql p :
  clean_criterion c -> clean alias -> criterionSQL c tags alias = Ok (sql, p) ->
  sql <> "" /\
  marks sql = if bool_decide (CType c = ExistQuery) || bool_decide (CType c = Subquery) then 0 else 1.
Proof.
  intros [Hleft Hsub] Halias. unfold criterionSQL.
  destruct (buildRightOp (COperator c) (RightOp c)) as [[bv rv]| |] eqn:Hr; simpl; [|done..].
  pose proof (buildRightOp_marks _ _ _ _ Hr) as Hbv.
  pose proof (sql_operation_clean (COperator c)) as Hop.
  set (ttype := findTagType tags _).
  destruct (if bool_decide (ttype = Some jsonType) then convertToJsonKey (LeftOp c)
            else (LeftOp c, false)) as [leftOp comp] eqn:Hk.
  assert (Hl : clean leftOp).
  { destruct (bool_decide (ttype = Some jsonType)).
    - pose proof (json_key_clean _ Hleft) as Hj. by rewrite Hk in Hj.
    - by injection Hk as <- _. }
  pose proof (cast_clean ttype) as Hcast.
  assert (Hcast' : clean (if comp then "" else determineCastByType ttype)) by by destruct comp.
  assert (Hs : (CType c = ExistQuery \/ CType c = Subquery) -> forall s, rv = PText s -> clean s).
  { intros Hc s ->. eapply Forall_forall; [by apply Hsub|]. by eapply buildRightOp_text. }
  unfold clean in *. set (cast := if comp then "" else determineCastByType ttype) in *.
  intros Hres. apply bind_ok in Hres as (clause & Hcl & [= <- _]).
  assert (Hclause : marks clause = (if bool_decide (CType c = ExistQuery) || bool_decide (CType c = Subquery) then 0 else 1)).
  { destruct (CType c); simpl; try (destruct (String.eqb alias ""); injection Hcl as <-;
      rewrite !marks_app; rewrite ?Hl, ?Hcast', ?Hop, ?Hbv, ?Halias; reflexivity);
      destruct rv as [s|]; simpl in Hcl; [|done|..]; injection Hcl as <- || done;
      rewrite !marks_app, ?Hl, ?Hop; rewrite (Hs ltac:(auto) s eq_refl); reflexivity. }
  destruct (op_IsNullable (COperator c)) eqn:Hnull.
  - split; [done|]. rewrite !marks_app, Hclause, Hl. simpl. by rewrite Nat.add_0_r.
  - split; [|done]. intros ->.
    destruct (CType c); simpl in Hclause; try done; destruct rv; simpl in Hcl; try done;
      injection Hcl as Hcl; revert Hcl; by apply Strings.app_nonempty_r.
Qed.

(** ** Placeholders of a tree *)
Definition tree_rect' (P : whereClauseTree -> Prop)
    (H : forall crit tags table children b,
      Forall P children -> P (Tree crit tags table children b)) : forall t, P t :=
  fix rec (t : whereClauseTree) : P t :=
    match t with
    | Tree crit tags table children b =>
        H crit tags table children b
          ((fix all (l : list whereClauseTree) : Forall P l :=
              match l with
              | [] => List.Forall_nil P
              | x :: l' => @List.Forall_cons _ P x l' (rec x) (all l')
              end) children)
    end.

(** Leaves carry a clean criterion, inner nodes none. *)
Fixpoint clean_tree (t : whereClauseTree) : Prop :=
  match t with
  | Tree (Some c) _ table [] _ => clean_criterion c /\ clean table
  | Tree (Some _) _ _ (_ :: _) _ => False
  | Tree None _ _ children _ =>
      (fix all (l : list whereClauseTree) : Prop :=
         match l with [] => True | x :: l' => clean_tree x /\ all l' end) children
  end.

Lemma clean_tree_children tags table children b :
  clean_tree (Tree None tags table children b) <-> Forall clean_tree children.
Proof.
  simpl. induction children as [|x l IH]; simpl; [by split|].
  rewrite Forall_cons, <- IH. done.
Qed.

Definition clean_builder (b : sqlBuilderFunc) : Prop :=
  match b with
  | DefaultBuilder => True
  | LabelsBuilder ref => clean ref
  | SubSelectBuilder ref table => clean ref /\ clean table
  end.
Definition clean_builders (bs : gmap nat sqlBuilderFunc) : Prop :=
  map_Forall (fun _ b => clean_builder b) bs.

Lemma buildSQL_marks b l : clean_builder b -> marks (buildSQL b l) = list_sum (map marks l).
Proof.
  assert (Hlit : marks "(" = 0 /\ marks ")" = 0 /\ marks " IN (" = 0 /\ marks "))" = 0 /\
    marks "(SELECT " = 0 /\ marks " FROM " = 0 /\ marks " WHERE (" = 0) by done.
  unfold clean_builder, buildSQL, clean.
  destruct b as [|ref|ref table]; intros Hb; rewrite !marks_app, marks_join by done; [lia|lia|].
  destruct Hb. lia.
Qed.

Lemma node_sql_marks bs b l :
  clean_builders bs -> marks (node_sql bs b l) = list_sum (map marks l).
Proof.
  intros Hbs. destruct l as [|s [|s' l]]; [done|simpl; lia|].
  apply buildSQL_marks. destruct b as [a|]; [|done].
  destruct (bs !! a) as [f|] eqn:E; [|done]. by eapply Hbs.
Qed.

Lemma compile_children_marks bs l sqls params :
  Forall (fun t => forall sql ps, clean_tree t -> compileSQL bs t = Ok (sql, ps) ->
    marks sql = (if subquery_node t then 0 else length ps) /\ (sql = "" -> ps = [])) l ->
  Forall clean_tree l -> compile_children bs l = Ok (sqls, params) ->
  list_sum (map marks sqls) = length params.
Proof.
  intros Hl. revert sqls params. induction Hl as [|t l Ht _ IH]; intros sqls params Hc; simpl.
  - by intros [= <- <-].
  - apply Forall_cons in Hc as [Hct Hcl].
    intros ([sql ps] & E1 & ([ss pp] & E2 & E3)%bind_ok)%bind_ok.
    destruct (Ht _ _ Hct E1) as [Hm Hnil]. specialize (IH _ _ Hcl E2).
    destruct (String.eqb_spec sql "") as [->|Hne]; injection E3 as <- <-; [done|].
    simpl. rewrite length_app, IH, Hm. by destruct (subquery_node t).
Qed.

Lemma compile_marks bs t : clean_builders bs -> forall sql ps,
  clean_tree t -> compileSQL bs t = Ok (sql, ps) ->
  marks sql = (if subquery_node t then 0 else length ps) /\ (sql = "" -> ps = []).
Proof.
  intros Hbs. induction t as [crit tags table children b IH] using tree_rect'.
  intros sql ps Hc Hcomp. destruct children as [|x l].
  - destruct crit as [c|]; simpl in *; [|by injection Hcomp as <- <-].
    apply bind_ok in Hcomp as ([sql' p] & Hsql & [= <- <-]). destruct Hc as [Hcc Ht].
    destruct (criterionSQL_marks _ _ _ _ _ Hcc Ht Hsql) as [Hne ->].
    split; [|done]. unfold subquery_node. simpl. by destruct (_ || _).
  - destruct crit as [c|]; [done|]. apply clean_tree_children in Hc.
    rewrite compileSQL_children in Hcomp. apply bind_ok in Hcomp as ([sqls params] & E & [= <- <-]).
    pose proof (compile_children_marks _ _ _ _ IH Hc E) as Hm.
    assert (Hnode : marks (node_sql bs b sqls) = length params) by by rewrite node_sql_marks.
    split; [done|]. intros Hz. rewrite Hz in Hnode. by apply symmetry, nil_length_inv in Hnode.
Qed.
