(* ===== verification/QueryBuilder.v ===== *)
(** * The query builder (storage/postgres/query_builder.go)

    A [pgQuery] collects criteria into the two where-clause trees, the order rules,
    the limit and the lock, and is rendered through an SQL template.  The templates are
    syntax trees of the text/template actions they use; runs of white space in them are
    written as one space, which is what [finalizeSQL] makes of them.  [sqlx.In] and
    [Rebind] are third-party and parameters of the rendering. *)

From S2P Require Import Prelude GoStd Query WhereClause.
From stdpp Require Import base gmap strings list pretty.
From Stdlib Require Import ZArith Ascii.
Local Open Scope string_scope.
Import Query.Operators Query.Criteria.

Definition PrimaryKeyColumn : string := "id".

(** What the builder asks of an entity: its table, its columns and, when it has
    labels, the label table with its reference column and columns. *)
Record labelEntity := { LabelsTableName : string; ReferenceColumn : string }.
Record entity := {
  TableName : string; LabelEntity : option labelEntity;
  entity_tags : list tagType; label_entity_tags : list tagType
}.

Record orderRule := { or_field : string; or_orderType : string }.

Record pgQuery := {
  q_inTx : bool;                       (** is [db] a transaction? *)
  q_labelEntity : option labelEntity;
  q_entityTags : list tagType;
  q_labelEntityTags : list tagType;
  q_queryParams : list param;
  q_orderByFields : list orderRule;
  q_hasLock : bool;
  q_limit : string;
  q_returningFields : list string;
  q_entityTableName : string;
  q_fields : list whereClauseTree;     (** children of [fieldsWhereClause] *)
  q_labels : list whereClauseTree;     (** children of [labelsWhereClause] *)
  q_shouldRebind : bool;
  q_err : option error;
  q_builders : gmap nat sqlBuilderFunc (** the [treeSqlBuilder]s the trees point to *)
}.

(** The address of the builder of [labelsWhereClause]. *)
Definition labels_builder : nat := 0.

Definition fieldsWhereClause (q : pgQuery) : whereClauseTree := Tree None [] "" (q_fields q) None.
Definition labelsWhereClause (q : pgQuery) : whereClauseTree :=
  Tree None [] "" (q_labels q) (Some labels_builder).

Definition ref_column (l : option labelEntity) : string := default "" (ReferenceColumn <$> l).
Definition labels_table (l : option labelEntity) : string := default "" (LabelsTableName <$> l).

Definition NewQuery (inTx : bool) (e : entity) : pgQuery :=
  {| q_inTx := inTx; q_labelEntity := LabelEntity e; q_entityTags := entity_tags e;
     q_labelEntityTags := label_entity_tags e; q_queryParams := []; q_orderByFields := [];
     q_hasLock := false; q_limit := ""; q_returningFields := []; q_entityTableName := TableName e;
     q_fields := []; q_labels := []; q_shouldRebind := false; q_err := None;
     q_builders := {[ labels_builder := LabelsBuilder (ref_column (LabelEntity e)) ]} |}.

(** Field updates. *)
Definition with_err (q : pgQuery) (e : error) : pgQuery :=
  {| q_inTx := q_inTx q; q_labelEntity := q_labelEntity q; q_entityTags := q_entityTags q;
     q_labelEntityTags := q_labelEntityTags q; q_queryParams := q_queryParams q;
     q_orderByFields := q_orderByFields q; q_hasLock := q_hasLock q; q_limit := q_limit q;
     q_returningFields := q_returningFields q; q_entityTableName := q_entityTableName q;
     q_fields := q_fields q; q_labels := q_labels q; q_shouldRebind := q_shouldRebind q;
     q_err := Some e; q_builders := q_builders q |}.
Definition with_clauses (q : pgQuery) (fields labels : list whereClauseTree)
    (builders : gmap nat sqlBuilderFunc) : pgQuery :=
  {| q_inTx := q_inTx q; q_labelEntity := q_labelEntity q; q_entityTags := q_entityTags q;
     q_labelEntityTags := q_labelEntityTags q; q_queryParams := q_queryParams q;
     q_orderByFields := q_orderByFields q; q_hasLock := q_hasLock q; q_limit := q_limit q;
     q_returningFields := q_returningFields q; q_entityTableName := q_entityTableName q;
     q_fields := fields; q_labels := labels; q_shouldRebind := q_shouldRebind q;
     q_err := q_err q; q_builders := builders |}.
Definition with_result (q : pgQuery) (order : list orderRule) (limit : string) : pgQuery :=
  {| q_inTx := q_inTx q; q_labelEntity := q_labelEntity q; q_entityTags := q_entityTags q;
     q_labelEntityTags := q_labelEntityTags q; q_queryParams := q_queryParams q;
     q_orderByFields := order; q_hasLock := q_hasLock q; q_limit := limit;
     q_returningFields := q_returningFields q; q_entityTableName := q_entityTableName q;
     q_fields := q_fields q; q_labels := q_labels q; q_shouldRebind := q_shouldRebind q;
     q_err := q_err q; q_builders := q_builders q |}.
Definition with_flags (q : pgQuery) (lock rebind : bool) (returning : list string)
    (params : list param) : pgQuery :=
  {| q_inTx := q_inTx q; q_labelEntity := q_labelEntity q; q_entityTags := q_entityTags q;
     q_labelEntityTags := q_labelEntityTags q; q_queryParams := params;
     q_orderByFields := q_orderByFields q; q_hasLock := lock; q_limit := q_limit q;
     q_returningFields := returning; q_entityTableName := q_entityTableName q;
     q_fields := q_fields q; q_labels := q_labels q; q_shouldRebind := rebind;
     q_err := q_err q; q_builders := q_builders q |}.

(** ** Validation of fields *)
Definition validateFields (columns : list string) (message : string) (fields : list string)
    : result unit :=
  for_each (fun field =>
    guard_err (negb (bool_decide (field ∈ columns))) (EUnsupportedQuery (message ++ field))) fields.

Definition validateOrderFields (columns : list string) (rules : list orderRule) : result unit :=
  validateFields ["ASC"; "DESC"] "unsupported order type: " (map or_orderType rules) ;;;
  validateFields columns "unsupported entity field for order by: " (map or_field rules).

Definition validateReturningFields (columns : list string) (returningFields : list string) : result unit :=
  guard_err (bool_decide (returningFields = [])) (EPlain "returning fields cannot be empty") ;;;
  validateFields columns "unsupported entity field for return type: "
    (List.filter (fun f => negb (Strings.contains f "*")) returningFields).

(** ** Criteria *)
Definition processResultCriteria (q : pgQuery) (c : Criterion) : result pgQuery :=
  if negb (bool_decide (CType c = ResultQuery)) then
    Ok (with_err q (EPlain ("result query is expected, but " ++ type_String (CType c) ++ " is provided")))
  else if String.eqb (LeftOp c) OrderBy then
    match RightOp c with
    | f :: o :: _ =>
        let rule := {| or_field := f; or_orderType := o |} in
        match validateOrderFields (columnsByTags (q_entityTags q)) [rule] with
        | Ok _ => Ok (with_result q (q_orderByFields q ++ [rule])%list (q_limit q))
        | Err e => Ok (with_err q e)
        | Panic m => Panic m
        end
    | _ => Panic "index out of range"
    end
  else if String.eqb (LeftOp c) Limit then
    if negb (String.eqb (q_limit q) "") then
      Ok (with_err q (EPlain "zero/one limit expected but multiple provided"))
    else match RightOp c with
         | r0 :: _ => Ok (with_result q (q_orderByFields q) r0)
         | [] => Panic "index out of range"
         end
  else Ok q.

(** The leaf of a field, exist or sub-query criterion. *)
Definition field_leaf (q : pgQuery) (c : Criterion) : whereClauseTree :=
  Tree (Some c) (q_entityTags q) (q_entityTableName q) [] None.
Definition add_field (q : pgQuery) (c : Criterion) : pgQuery :=
  with_clauses q (q_fields q ++ [field_leaf q c])%list (q_labels q) (q_builders q).

(** The node of a label criterion: its key and its values, under the builder at [addr]. *)
Definition label_node (q : pgQuery) (addr : nat) (c : Criterion) : whereClauseTree :=
  Tree None [] ""
    [Tree (Some (ByField EqualsOperator "key" [LeftOp c])) (q_labelEntityTags q) "" [] None;
     Tree (Some (ByField (COperator c) "val" (RightOp c))) (q_labelEntityTags q) "" [] None]
    (Some addr).

(** The checks of a field criterion. *)
Definition check_field (q : pgQuery) (c : Criterion) : result unit :=
  let columnName := if Strings.contains_byte (LeftOp c) "/"
                    then hd "" (Strings.split_byte (LeftOp c) "/") else LeftOp c in
  guard_err (Strings.contains_byte (LeftOp c) "/" &&
             negb (bool_decide (findTagType (q_entityTags q) columnName = Some jsonType)))
    (EUnsupportedQuery ("unsupported field query: json notation on non json column: " ++ columnName)) ;;;
  guard_err (negb (bool_decide (columnName ∈ columnsByTags (q_entityTags q))))
    (EUnsupportedQuery ("unsupported field query key: " ++ LeftOp c)) ;;;
  guard_err (bool_decide (COperator c = ContainsOperator) &&
             negb (bool_decide (findTagType (q_entityTags q) columnName = Some stringType)) &&
             negb (bool_decide (findTagType (q_entityTags q) columnName = Some nullableStringType)) &&
             negb (bool_decide (findTagType (q_entityTags q) columnName = Some jsonType)))
    (EUnsupportedQuery ("unsupported field query: the operator '" ++ op_String (COperator c) ++
       "' is not applicable on non-string columns: " ++ columnName)).

(** One iteration of the loop of [WithCriteria]: the query, the number of label
    queries so far, and whether the loop goes on.  [addr] is the address of the local
    variable [builder], to which every label node of the call points. *)
Definition criterion_step (addr : nat) (all : list Criterion) (q : pgQuery) (n : nat) (c : Criterion)
    : result (pgQuery * nat * bool) :=
  match Validate c with
  | Panic m => Panic m
  | Err e => Ok (with_err q e, n, false)
  | Ok _ =>
      let q := with_flags q (q_hasLock q) (q_shouldRebind q || hasMultiVariateOp all)
                 (q_returningFields q) (q_queryParams q) in
      match CType c with
      | FieldQuery =>
          match check_field q c with
          | Ok _ => Ok (add_field q c, n, true)
          | Err e => Ok (with_err q e, n, false)
          | Panic m => Panic m
          end
      | LabelQuery =>
          let builders :=
            if (1 <? S n)%nat then
              <[addr := SubSelectBuilder (ref_column (q_labelEntity q)) (labels_table (q_labelEntity q))]>
                (q_builders q)
            else q_builders q in
          Ok (with_clauses q (q_fields q) (q_labels q ++ [label_node q addr c])%list builders, S n, true)
      | ResultQuery => let* q' := processResultCriteria q c in Ok (q', n, true)
      | ExistQuery | Subquery => Ok (add_field q c, n, true)
      end
  end.

Fixpoint criteria_loop (addr : nat) (all : list Criterion) (q : pgQuery) (n : nat)
    (criteria : list Criterion) : result pgQuery :=
  match criteria with
  | [] => Ok q
  | c :: rest =>
      let* (q', n', go) := criterion_step addr all q n c in
      if (go : bool) then criteria_loop addr all q' n' rest else Ok q'
  end.

(** [WithCriteria]: a fresh copy of the default builder is shared by the label nodes. *)
Definition WithCriteria (q : pgQuery) (criteria : list Criterion) : result pgQuery :=
  match q_err q with
  | Some _ => Ok q
  | None =>
      let addr := fresh (dom (q_builders q)) in
      criteria_loop addr criteria
        (with_clauses q (q_fields q) (q_labels q) (<[addr := DefaultBuilder]> (q_builders q))) 0 criteria
  end.

Definition WithLock (q : pgQuery) : pgQuery :=
  match q_err q with
  | Some _ => q
  | None =>
      if q_inTx q
      then with_flags q true (q_shouldRebind q) (q_returningFields q) (q_queryParams q)
      else q
  end.

(** ** The pieces of the statement *)
Definition joinSQL (q : pgQuery) : string :=
  match q_labels q with [] => "LEFT JOIN" | _ => "JOIN" end.

Definition whereSQL (q : pgQuery) : result (string * list param) :=
  let* (sql, params) :=
    compileSQL (q_builders q) (Tree None [] "" [fieldsWhereClause q; labelsWhereClause q] None) in
  if String.eqb sql "" then Ok ("", []) else Ok (" WHERE " ++ sql, params).

Definition lockSQL (q : pgQuery) : string :=
  if q_hasLock q then "FOR UPDATE OF " ++ q_entityTableName q else "".

(** The rules a comma apart: every rule is written with a comma after it and the
    last byte is cut off. *)
Definition orderBySQL (q : pgQuery) : string :=
  match q_orderByFields q with
  | [] => "ORDER BY " ++ q_entityTableName q ++ ".paging_sequence ASC"
  | rules =>
      "ORDER BY" ++ Strings.join "," (map (fun r => " " ++ or_field r ++ " " ++ or_orderType r) rules)
  end.

Definition orderBySequenceSQL (q : pgQuery) : string :=
  if String.eqb (q_limit q) "" then "" else "ORDER BY " ++ q_entityTableName q ++ ".paging_sequence ASC".

Definition limitSQL (q : pgQuery) : string * list param :=
  if String.eqb (q_limit q) "" then ("", []) else ("LIMIT ?", [PText (q_limit q)]).

Definition returningSQL (q : pgQuery) : string :=
  match q_returningFields q with
  | [] => ""
  | fields => " RETURNING " ++ Strings.join ", " fields
  end.

(** ** Templates *)
Inductive tvar :=
  | ENTITY_TABLE | PRIMARY_KEY | LABELS_TABLE | REF_COLUMN | JOIN | WHERE | FOR_UPDATE_OF
  | ORDER_BY | ORDER_BY_SEQUENCE | LIMIT | RETURNING.
Inductive tcond := hasLabelCriteria | hasFieldCriteria | hasAnyCriteria.
Inductive tmpl :=
  | TText (s : string)
  | TVar (v : tvar)
  | TIf (c : tcond) (yes no : list tmpl).

Record tdata := { d_var : tvar -> string; d_hasField : bool; d_hasLabel : bool }.

Definition eval_cond (d : tdata) (c : tcond) : bool :=
  match c with
  | hasLabelCriteria => d_hasLabel d
  | hasFieldCriteria => d_hasField d
  | hasAnyCriteria => d_hasField d || d_hasLabel d
  end.

Fixpoint render_one (d : tdata) (t : tmpl) : string :=
  match t with
  | TText s => s
  | TVar v => d_var d v
  | TIf c yes no =>
      (fix render_all (l : list tmpl) : string :=
         match l with [] => "" | x :: l' => render_one d x ++ render_all l' end)
      (if eval_cond d c then yes else no)
  end.
Fixpoint render (d : tdata) (l : list tmpl) : string :=
  match l with [] => "" | x :: l' => render_one d x ++ render d l' end.

(** [ENTITY_TABLE.PRIMARY_KEY = LABELS_TABLE.REF_COLUMN], the join condition. *)
Definition on_clause : list tmpl :=
  [TText " ON "; TVar ENTITY_TABLE; TText "."; TVar PRIMARY_KEY; TText " = ";
   TVar LABELS_TABLE; TText "."; TVar REF_COLUMN; TText " "].

Definition CountQueryTemplate : list tmpl :=
  [TText " SELECT COUNT(DISTINCT "; TVar ENTITY_TABLE; TText "."; TVar PRIMARY_KEY; TText ") FROM ";
   TVar ENTITY_TABLE; TText " ";
   TIf hasLabelCriteria ([TText " "; TVar JOIN; TText " "; TVar LABELS_TABLE] ++ on_clause) [];
   TText " "; TVar WHERE; TText " "; TVar FOR_UPDATE_OF; TText " "; TVar LIMIT; TText ";"].

Definition CountLabelValuesQueryTemplate : list tmpl :=
  ([TText " SELECT COUNT(DISTINCT "; TVar LABELS_TABLE; TText "."; TVar PRIMARY_KEY; TText ") FROM ";
    TVar ENTITY_TABLE; TText " INNER JOIN "; TVar LABELS_TABLE] ++ on_clause ++
   [TText " "; TVar WHERE; TText " "; TVar FOR_UPDATE_OF; TText " "; TVar LIMIT; TText ";"])%list.

(** The common table expression of the matching resources. *)
Definition matching_resources : tmpl :=
  TIf hasAnyCriteria
    [TText " WITH matching_resources as (SELECT DISTINCT "; TVar ENTITY_TABLE;
     TText ".paging_sequence FROM "; TVar ENTITY_TABLE; TText " ";
     TIf hasLabelCriteria ([TText " "; TVar JOIN; TText " "; TVar LABELS_TABLE; TText " "] ++ on_clause) [];
     TText " "; TVar WHERE; TText " "; TVar ORDER_BY_SEQUENCE; TText " "; TVar LIMIT; TText ") "] [].

Definition in_matching_resources : tmpl :=
  TIf hasAnyCriteria
    [TText " WHERE "; TVar ENTITY_TABLE;
     TText ".paging_sequence IN (SELECT matching_resources.paging_sequence FROM matching_resources) "] [].

(** A label column selected under its qualified name. *)
Definition label_column (name : string) : list tmpl :=
  [TText " "; TVar LABELS_TABLE; TText ("." ++ name ++ " " ++ Strings.dquote); TVar LABELS_TABLE;
   TText ("." ++ name ++ Strings.dquote ++ ",")].

Definition SelectQueryTemplate : list tmpl :=
  ([TText " "; matching_resources; TText " SELECT "; TVar ENTITY_TABLE; TText ".*,"] ++
   label_column "id" ++ label_column "key" ++ label_column "val" ++ label_column "created_at" ++
   label_column "updated_at" ++
   [TText " "; TVar LABELS_TABLE; TText "."; TVar REF_COLUMN; TText (" " ++ Strings.dquote);
    TVar LABELS_TABLE; TText "."; TVar REF_COLUMN; TText (Strings.dquote ++ " FROM ");
    TVar ENTITY_TABLE; TText " "; TVar JOIN; TText " "; TVar LABELS_TABLE] ++ on_clause ++
   [in_matching_resources; TText " "; TVar ORDER_BY; TText " "; TVar FOR_UPDATE_OF; TText ";"])%list.

Definition SelectNoLabelsQueryTemplate : list tmpl :=
  [TText " "; matching_resources; TText " SELECT * FROM "; TVar ENTITY_TABLE; TText " ";
   in_matching_resources; TText " "; TVar ORDER_BY; TText " "; TVar FOR_UPDATE_OF; TText ";"].

Definition DeleteQueryTemplate : list tmpl :=
  [TText " DELETE FROM "; TVar ENTITY_TABLE; TText " ";
   TIf hasLabelCriteria
     ([TText " USING (SELECT "; TVar ENTITY_TABLE; TText "."; TVar PRIMARY_KEY; TText " FROM ";
       TVar ENTITY_TABLE; TText " "; TVar JOIN; TText " "; TVar LABELS_TABLE] ++ on_clause ++
      [TVar WHERE; TText ") t WHERE "; TVar ENTITY_TABLE; TText "."; TVar PRIMARY_KEY; TText " = t.";
       TVar PRIMARY_KEY; TText " "])
     [TIf hasFieldCriteria [TText " "; TVar WHERE; TText " "] []];
   TText " "; TVar RETURNING; TText ";"].

(** [getTemplateParams]: the calls in the map literal run from top to bottom, so the
    where parameters come before the limit. *)
Definition getTemplateParams (q : pgQuery) : result (tdata * list param) :=
  let* (w, wparams) := whereSQL q in
  let '(l, lparams) := limitSQL q in
  Ok ({| d_var := fun v => match v with
           | ENTITY_TABLE => q_entityTableName q
           | PRIMARY_KEY => PrimaryKeyColumn
           | LABELS_TABLE => labels_table (q_labelEntity q)
           | REF_COLUMN => ref_column (q_labelEntity q)
           | JOIN => joinSQL q
           | WHERE => w
           | FOR_UPDATE_OF => lockSQL q
           | ORDER_BY => orderBySQL q
           | ORDER_BY_SEQUENCE => orderBySequenceSQL q
           | LIMIT => l
           | RETURNING => returningSQL q
           end;
         d_hasField := negb (bool_decide (q_fields q = [])) || negb (String.eqb (q_limit q) "");
         d_hasLabel := negb (bool_decide (q_labels q = [])) |},
      (q_queryParams q ++ wparams ++ lparams)%list).

(** White space as the regular expression [\s] sees it: tab, newline, form feed,
    carriage return and space. *)
Definition is_space (c : ascii) : bool :=
  let n := nat_of_ascii c in
  Nat.eqb n 32 || Nat.eqb n 9 || Nat.eqb n 10 || Nat.eqb n 12 || Nat.eqb n 13.
Fixpoint collapse (s : string) : string :=
  match s with
  | EmptyString => EmptyString
  | String c s' =>
      let r := collapse s' in
      if is_space c then match r with String " " _ => r | _ => String " " r end else String c r
  end.

(** ** Statements *)
Section Resolve.
(** [sqlx.In] expands the list arguments; [Rebind] numbers the placeholders. *)
Variable sqlx_In : string -> list param -> result (string * list param).
Variable rebind : string -> string.

Definition finalizeSQL (q : pgQuery) (sql : string) (params : list param)
    : result (string * list param) :=
  let* (sql, params) := (if q_shouldRebind q then sqlx_In sql params else Ok (sql, params)) in
  Ok (Strings.trim_byte " " (collapse (rebind sql)), params).

(** [resolveQueryTemplate]: the statement and the arguments of the call to the
    database. *)
Definition resolveQueryTemplate (q : pgQuery) (template : list tmpl) : result (string * list param) :=
  match q_err q with
  | Some e => Err e
  | None =>
      match q_labelEntity q with
      | None => Err (EPlain "query builder requires the entity to have associated label entity")
      | Some _ =>
          let* (data, params) := getTemplateParams q in
          finalizeSQL q (render data template) params
      end
  end.

Definition List_ (q : pgQuery) := resolveQueryTemplate q SelectQueryTemplate.
Definition ListNoLabels (q : pgQuery) := resolveQueryTemplate q SelectNoLabelsQueryTemplate.
Definition Count (q : pgQuery) := resolveQueryTemplate q CountQueryTemplate.
Definition CountLabelValues (q : pgQuery) := resolveQueryTemplate q CountLabelValuesQueryTemplate.
Definition Delete (q : pgQuery) := resolveQueryTemplate q DeleteQueryTemplate.
Definition DeleteReturning (q : pgQuery) (fields : list string) : result (string * list param) :=
  validateReturningFields (columnsByTags (q_entityTags q)) fields ;;;
  resolveQueryTemplate
    (with_flags q (q_hasLock q) (q_shouldRebind q) (q_returningFields q ++ fields)%list (q_queryParams q))
    DeleteQueryTemplate.
End Resolve.
