(* ===== verification/QueryBuilderProps.v ===== *)
(** * Placeholders and parameters of the built statements

    The statements of query_builder.go are sent with the list [queryParams]: the
    database needs as many [?] in the text as there are parameters, in the same order. *)

From S2P Require Import Prelude GoStd Query WhereClause QueryBuilder.
From stdpp Require Import base gmap strings list pretty.
From Stdlib Require Import ZArith Ascii.
Local Open Scope string_scope.
Import Query.Operators Query.Criteria.

(** ** Templates *)
(** How often a variable is rendered, and whether every literal text is clean. *)
Section Occurrences.
Variable d : tdata.
Variable v : tvar.
Fixpoint occurs_one (t : tmpl) : nat :=
  match t with
  | TText _ => 0
  | TVar w => match v, w with
              | WHERE, WHERE => 1 | LIMIT, LIMIT => 1 | _, _ => 0
              end
  | TIf c yes no =>
      (fix all (l : list tmpl) : nat := match l with [] => 0 | x :: l' => occurs_one x + all l' end)
      (if eval_cond d c then yes else no)
  end.
Definition occurs (l : list tmpl) : nat := list_sum (map occurs_one l).
End Occurrences.

Fixpoint clean_texts_one (t : tmpl) : bool :=
  match t with
  | TText s => Nat.eqb (marks s) 0
  | TVar _ => true
  | TIf _ yes no =>
      (fix all (l : list tmpl) : bool := match l with [] => true | x :: l' => clean_texts_one x && all l' end) yes
      && (fix all (l : list tmpl) : bool := match l with [] => true | x :: l' => clean_texts_one x && all l' end) no
  end.
Definition clean_texts (l : list tmpl) : bool := forallb clean_texts_one l.

(** Every variable but the where clause and the limit is free of placeholders. *)
Definition clean_data (d : tdata) : Prop :=
  forall v, v <> WHERE -> v <> LIMIT -> clean (d_var d v).

Section TemplateInduction.
Variable P : tmpl -> Prop.
Hypothesis HText : forall s, P (TText s).
Hypothesis HVar : forall v, P (TVar v).
Hypothesis HIf : forall c yes no, Forall P yes -> Forall P no -> P (TIf c yes no).
Fixpoint tmpl_nested_ind (t : tmpl) : P t :=
  let all := fix all (l : list tmpl) : Forall P l :=
    match l with
    | [] => List.Forall_nil P
    | x :: l' => @List.Forall_cons _ P x l' (tmpl_nested_ind x) (all l')
    end in
  match t with
  | TText s => HText s
  | TVar v => HVar v
  | TIf c yes no => HIf c yes no (all yes) (all no)
  end.
End TemplateInduction.

Lemma render_marks_one d t :
  clean_data d -> clean_texts_one t = true ->
  marks (render_one d t) =
    (occurs_one d WHERE t * marks (d_var d WHERE) + occurs_one d LIMIT t * marks (d_var d LIMIT))%nat.
Proof.
  intros Hd. induction t as [s|v|c yes no IHy IHn] using tmpl_nested_ind; intros Hc.
  - simpl in *. by apply Nat.eqb_eq in Hc.
  - simpl. destruct v; simpl; try lia; apply Hd; done.
  - simpl in *. apply andb_true_iff in Hc as [Hy Hn].
    assert (G : forall l, Forall (fun t => clean_texts_one t = true ->
        marks (render_one d t) = (occurs_one d WHERE t * marks (d_var d WHERE) +
          occurs_one d LIMIT t * marks (d_var d LIMIT))%nat) l ->
      (fix all (l : list tmpl) : bool :=
         match l with [] => true | x :: l' => clean_texts_one x && all l' end) l = true ->
      marks ((fix render_all (l : list tmpl) : string :=
         match l with [] => "" | x :: l' => render_one d x ++ render_all l' end) l) =
      ((fix all (l : list tmpl) : nat :=
          match l with [] => 0 | x :: l' => occurs_one d WHERE x + all l' end) l * marks (d_var d WHERE) +
       (fix all (l : list tmpl) : nat :=
          match l with [] => 0 | x :: l' => occurs_one d LIMIT x + all l' end) l * marks (d_var d LIMIT))%nat).
    { intros l Hl. induction Hl as [|x l Hx _ IH]; intros Hcl; [done|].
      apply andb_true_iff in Hcl as [Hcx Hcl]. rewrite marks_app, (Hx Hcx), (IH Hcl). lia. }
    destruct (eval_cond d c); apply G; done.
Qed.

Lemma render_marks d l :
  clean_data d -> clean_texts l = true ->
  marks (render d l) =
    (occurs d WHERE l * marks (d_var d WHERE) + occurs d LIMIT l * marks (d_var d LIMIT))%nat.
Proof.
  intros Hd. unfold clean_texts, occurs. induction l as [|x l IH]; intros Hc; [done|].
  simpl in *. apply andb_true_iff in Hc as [Hx Hl].
  rewrite marks_app, render_marks_one, IH by done. lia.
Qed.

(** ** Inputs *)
(** The names of an entity hold no placeholder. *)
Definition clean_entity (e : entity) : Prop :=
  clean (TableName e) /\ clean (ref_column (LabelEntity e)) /\ clean (labels_table (LabelEntity e)) /\
  Forall clean (columnsByTags (entity_tags e)) /\ is_Some (LabelEntity e).

(** The keys and sub-queries of the criteria hold none either (label keys are
    parameters and free of this), and sub-queries come with a single-valued operator. *)
Definition clean_input (c : Criterion) : Prop :=
  (CType c <> LabelQuery -> clean_criterion c) /\
  (CType c = ExistQuery \/ CType c = Subquery -> op_Type (COperator c) = UnivariateOperator).

(** The parameters a list of criteria is to send: the values of the field criteria,
    then key and values of the label criteria, then the limit. *)
Definition value_param (o : Operator) (rs : list string) : param :=
  match op_Type o with
  | MultivariateOperator => PList rs
  | UnivariateOperator => PText (hd "" rs)
  end.
Definition is_type (t : CriterionType) (c : Criterion) : bool := bool_decide (CType c = t).
Definition is_field_like (c : Criterion) : bool :=
  is_type FieldQuery c || is_type ExistQuery c || is_type Subquery c.
Definition is_limit (c : Criterion) : bool := is_type ResultQuery c && String.eqb (LeftOp c) Limit.
Definition field_params (cs : list Criterion) : list param :=
  map (fun c => value_param (COperator c) (RightOp c)) (List.filter (is_type FieldQuery) cs).
Definition label_params (cs : list Criterion) : list param :=
  flat_map (fun c => [PText (LeftOp c); value_param (COperator c) (RightOp c)])
    (List.filter (is_type LabelQuery) cs).
Definition limit_of (cs : list Criterion) : string :=
  match List.filter is_limit cs with [] => "" | c :: _ => hd "" (RightOp c) end.
Definition limit_params (cs : list Criterion) : list param :=
  if String.eqb (limit_of cs) "" then [] else [PText (limit_of cs)].
Definition expected_params (cs : list Criterion) : list param :=
  (field_params cs ++ label_params cs ++ limit_params cs)%list.

(** ** What WithCriteria builds *)
Definition field_tree (e : entity) (c : Criterion) : whereClauseTree :=
  Tree (Some c) (entity_tags e) (TableName e) [] None.
Definition label_tree (e : entity) (addr : nat) (c : Criterion) : whereClauseTree :=
  Tree None [] ""
    [Tree (Some (ByField EqualsOperator "key" [LeftOp c])) (label_entity_tags e) "" [] None;
     Tree (Some (ByField (COperator c) "val" (RightOp c))) (label_entity_tags e) "" [] None]
    (Some addr).
(** The builder the label nodes share, by the number of label criteria. *)
Definition label_builder (e : entity) (n : nat) : sqlBuilderFunc :=
  if (1 <? n)%nat then SubSelectBuilder (ref_column (LabelEntity e)) (labels_table (LabelEntity e))
  else DefaultBuilder.

Record built (e : entity) (inTx : bool) (addr : nat) (q : pgQuery) (cs : list Criterion) : Prop := {
  b_inTx : q_inTx q = inTx;
  b_entity : q_labelEntity q = LabelEntity e;
  b_tags : q_entityTags q = entity_tags e;
  b_ltags : q_labelEntityTags q = label_entity_tags e;
  b_table : q_entityTableName q = TableName e;
  b_params : q_queryParams q = [];
  b_returning : q_returningFields q = [];
  b_builders : clean_builders (q_builders q);
  b_fields : q_fields q = map (field_tree e) (List.filter is_field_like cs);
  b_labels : q_labels q = map (label_tree e addr) (List.filter (is_type LabelQuery) cs);
  b_limit : q_limit q = limit_of cs;
  b_order : Forall (fun r => clean (or_field r) /\ clean (or_orderType r)) (q_orderByFields q);
  b_valid : Forall (fun c => Validate c = Ok tt) cs;
  b_kind : q_builders q !! addr =
    Some (label_builder e (length (List.filter (is_type LabelQuery) cs)))
}.

Lemma filter_snoc {A} (f : A -> bool) l x :
  List.filter f (l ++ [x]) = (List.filter f l ++ if f x then [x] else [])%list.
Proof. rewrite List.filter_app. simpl. by destruct (f x). Qed.

Lemma limit_value_nonempty c :
  Validate c = Ok tt -> is_limit c = true -> hd "" (RightOp c) <> "".
Proof.
  unfold is_limit, is_type. intros Hv [Ht%bool_decide_eq_true Hl%String.eqb_eq]%andb_true_iff.
  apply Validate_iff in Hv as [Hne Hv]. rewrite Ht in Hv. simpl in Hv. destruct Hv as [Hlim _].
  destruct (Hlim Hl) as (n & Hn & _). intros Hz. by rewrite Hz in Hn.
Qed.

Lemma limit_of_snoc_other cs c : is_limit c = false -> limit_of (cs ++ [c]) = limit_of cs.
Proof. intros Hc. unfold limit_of. by rewrite filter_snoc, Hc, app_nil_r. Qed.

Lemma limit_of_snoc cs c :
  Forall (fun c => Validate c = Ok tt) cs -> limit_of cs = "" -> is_limit c = true ->
  limit_of (cs ++ [c]) = hd "" (RightOp c).
Proof.
  intros Hv Hz Hc. unfold limit_of in *. rewrite filter_snoc, Hc.
  destruct (List.filter is_limit cs) as [|c0 l] eqn:E; [done|].
  exfalso. assert (Hin : In c0 (List.filter is_limit cs)) by (rewrite E; by left).
  apply filter_In in Hin as [Hin Hl0]. rewrite Forall_forall in Hv.
  apply (limit_value_nonempty c0); [by apply Hv, list_elem_of_In|done..].
Qed.

Lemma with_err_stays addr all q n c e r :
  q_err q = Some e -> criterion_step addr all q n c = Ok r -> is_Some (q_err (fst (fst r))).
Proof.
  intros He. unfold criterion_step, processResultCriteria.
  intros Hs. repeat case_match; simplify_eq/=; eauto.
  all: apply bind_ok in Hs as (q' & Hq & [= <-]); repeat case_match; simplify_eq/=; eauto.
Qed.

Lemma validateFields_ok columns msg fields :
  validateFields columns msg fields = Ok tt <-> Forall (fun f => f ∈ columns) fields.
Proof.
  unfold validateFields. rewrite for_each_guard. apply Forall_iff. intros f.
  by rewrite negb_false_iff, bool_decide_eq_true.
Qed.

Lemma order_fields_clean e rule :
  clean_entity e -> validateOrderFields (columnsByTags (entity_tags e)) [rule] = Ok tt ->
  clean (or_field rule) /\ clean (or_orderType rule).
Proof.
  intros (_ & _ & _ & Hcols & _). unfold validateOrderFields.
  rewrite bind_unit_ok, !validateFields_ok. simpl. rewrite !Forall_singleton.
  intros [Ho Hf]. split; [by eapply Forall_forall in Hcols|].
  apply elem_of_cons in Ho as [->|Ho]; [done|]. apply list_elem_of_singleton in Ho as ->. done.
Qed.

(** A result criterion that leaves no error adds an order rule, sets the limit or
    does nothing. *)
Lemma result_built e inTx addr q cs c q' :
  clean_entity e -> built e inTx addr q cs -> Validate c = Ok tt -> CType c = ResultQuery ->
  q_err q = None -> processResultCriteria q c = Ok q' -> q_err q' = None ->
  built e inTx addr q' (cs ++ [c]).
Proof.
  intros He Hb Hv Ht Hq. unfold processResultCriteria. rewrite bool_decide_true by done. simpl.
  assert (Hf : is_field_like c = false /\ is_type LabelQuery c = false)
    by (unfold is_field_like, is_type; rewrite Ht; done).
  destruct Hf as [Hf Hl].
  assert (Hkeep : q_limit q' = limit_of (cs ++ [c]) ->
    Forall (fun r => clean (or_field r) /\ clean (or_orderType r)) (q_orderByFields q') ->
    (exists order limit, q' = with_result q order limit) \/ q' = q ->
    built e inTx addr q' (cs ++ [c])).
  { intros Hlim Hord Heq. destruct Hb.
    destruct Heq as [(order & limit & Heq)|Heq]; subst q'; constructor; simpl in *; try done;
      rewrite ?filter_snoc, ?Hf, ?Hl, ?app_nil_r; try done; apply Forall_app; split; auto. }
  clear Hf Hl. destruct (String.eqb_spec (LeftOp c) OrderBy) as [Hob|Hob].
  - assert (Hnl : is_limit c = false) by (unfold is_limit; rewrite Hob; apply andb_false_r).
    destruct (RightOp c) as [|f [|o rs]]; [done..|]. rewrite (b_tags _ _ _ _ _ Hb).
    destruct (validateOrderFields _ _) as [[]| |] eqn:Hval; intros [= <-]; [|done].
    intros _. apply Hkeep; [by rewrite limit_of_snoc_other, <- (b_limit _ _ _ _ _ Hb)| |by left; eauto].
    simpl. apply Forall_app. split; [by apply Hb|]. apply Forall_singleton.
    by apply (order_fields_clean e).
  - destruct (String.eqb_spec (LeftOp c) Limit) as [Hlc|Hlc].
    + assert (Hil : is_limit c = true)
        by (unfold is_limit, is_type; rewrite Ht, Hlc; done).
      destruct (String.eqb_spec (q_limit q) "") as [Hz|Hz]; simpl; [|by intros [= <-]].
      pose proof (limit_of_snoc cs c (b_valid _ _ _ _ _ Hb)) as Hlim.
      rewrite <- (b_limit _ _ _ _ _ Hb), Hz in Hlim.
      destruct (RightOp c) as [|r0 rs]; [done|]. intros [= <-] _.
      apply Hkeep; [simpl; by rewrite Hlim|apply Hb|by left; eauto].
    + intros [= <-] _. apply Hkeep; [|apply Hb|by right].
      rewrite limit_of_snoc_other; [apply Hb|]. unfold is_limit.
      by rewrite (proj2 (String.eqb_neq _ _)), andb_false_r.
Qed.

Lemma filter_result_false c t :
  CType c = t -> t <> ResultQuery -> is_limit c = false.
Proof. intros <- Hne. unfold is_limit, is_type. by rewrite bool_decide_false. Qed.

Lemma step_built e inTx addr all q n c q' n' go cs :
  clean_entity e -> built e inTx addr q cs -> q_err q = None ->
  n = length (List.filter (is_type LabelQuery) cs) ->
  criterion_step addr all q n c = Ok (q', n', go) -> q_err q' = None ->
  go = true /\ built e inTx addr q' (cs ++ [c]) /\
  n' = length (List.filter (is_type LabelQuery) (cs ++ [c])).
Proof.
  intros He Hb Hq Hn. unfold criterion_step.
  destruct (Validate c) as [[]| |] eqn:Hv; [|by intros [= <- <- <-]|done].
  set (q1 := with_flags q _ _ _ _).
  assert (Hb1 : built e inTx addr q1 cs) by (destruct Hb; by constructor).
  assert (Hq1 : q_err q1 = None) by done. clearbody q1.
  assert (Hadd : forall f l bs,
    f = map (field_tree e) (List.filter is_field_like (cs ++ [c])) ->
    l = map (label_tree e addr) (List.filter (is_type LabelQuery) (cs ++ [c])) ->
    clean_builders bs -> limit_of (cs ++ [c]) = limit_of cs ->
    bs !! addr = Some (label_builder e (length (List.filter (is_type LabelQuery) (cs ++ [c])))) ->
    built e inTx addr (with_clauses q1 f l bs) (cs ++ [c])).
  { intros f l bs -> -> Hbs Hlim Hkind. destruct Hb1. constructor; simpl; try done; [by rewrite Hlim|].
    apply Forall_app. split; auto. }
  assert (Hfield : is_field_like c = true -> is_type LabelQuery c = false -> is_limit c = false ->
    built e inTx addr (add_field q1 c) (cs ++ [c]) /\
    n = length (List.filter (is_type LabelQuery) (cs ++ [c]))).
  { intros Hf Hl Hlim. split; [|by rewrite filter_snoc, Hl, app_nil_r].
    unfold add_field, field_leaf.
    apply Hadd; [..|apply Hb1|by apply limit_of_snoc_other|by rewrite filter_snoc, Hl, app_nil_r; apply Hb1].
    - by rewrite filter_snoc, Hf, map_app, (b_fields _ _ _ _ _ Hb1), (b_tags _ _ _ _ _ Hb1),
        (b_table _ _ _ _ _ Hb1).
    - by rewrite filter_snoc, Hl, app_nil_r, (b_labels _ _ _ _ _ Hb1). }
  unfold is_field_like, is_limit, is_type in Hfield. destruct (CType c) eqn:Ht.
  - destruct (check_field q1 c) as [[]| |]; intros [= <- <- <-]; [|done]. intros _.
    split; [done|]. by apply Hfield.
  - assert (Hlen : length (List.filter (is_type LabelQuery) (cs ++ [c])) = S n).
    { rewrite filter_snoc. unfold is_type at 2. rewrite Ht. simpl. rewrite length_app, <- Hn. simpl. lia. }
    intros [= <- <- <-] _. split; [done|]. split; [|done].
    assert (He' : clean_builder (SubSelectBuilder (ref_column (LabelEntity e)) (labels_table (LabelEntity e))))
      by (destruct He as (_ & ? & ? & _); done).
    apply Hadd.
    + rewrite filter_snoc. unfold is_field_like, is_type. rewrite Ht. simpl.
      by rewrite app_nil_r, (b_fields _ _ _ _ _ Hb1).
    + rewrite filter_snoc. unfold is_type at 2. rewrite Ht. simpl. rewrite map_app.
      rewrite (b_labels _ _ _ _ _ Hb1). unfold label_node, label_tree.
      by rewrite (b_ltags _ _ _ _ _ Hb1).
    + destruct (1 <? S n)%nat; [|apply Hb1]. apply map_Forall_insert_2; [|apply Hb1].
      by rewrite (b_entity _ _ _ _ _ Hb1).
    + apply limit_of_snoc_other. unfold is_limit, is_type. by rewrite Ht.
    + rewrite Hlen. unfold label_builder. destruct (1 <? S n)%nat eqn:E1.
      * by rewrite lookup_insert_eq, (b_entity _ _ _ _ _ Hb1).
      * rewrite (b_kind _ _ _ _ _ Hb1), <- Hn. unfold label_builder.
        apply Nat.ltb_ge in E1. by rewrite (proj2 (Nat.ltb_ge _ _)) by lia.
  - intros (q2 & Hp & [= <- <- <-])%bind_ok Hn'. split; [done|]. split; [by eapply result_built|].
    rewrite filter_snoc. unfold is_type at 2. rewrite Ht. simpl. by rewrite app_nil_r.
  - intros [= <- <- <-] _. split; [done|]. by apply Hfield.
  - intros [= <- <- <-] _. split; [done|]. by apply Hfield.
Qed.

Lemma loop_err addr all rest : forall q n q' e,
  q_err q = Some e -> criteria_loop addr all q n rest = Ok q' -> is_Some (q_err q').
Proof.
  induction rest as [|c rest IH]; intros q n q' e He; simpl; [intros [= <-]; eauto|].
  intros ([[q1 n1] go] & Hs & Hl)%bind_ok.
  destruct (with_err_stays _ _ _ _ _ _ _ He Hs) as [e1 He1]. simpl in He1.
  destruct go; [by eapply IH|]. injection Hl as <-. eauto.
Qed.

Lemma loop_built e inTx addr all rest : forall q n q' cs,
  clean_entity e -> built e inTx addr q cs -> q_err q = None ->
  n = length (List.filter (is_type LabelQuery) cs) ->
  criteria_loop addr all q n rest = Ok q' -> q_err q' = None ->
  built e inTx addr q' (cs ++ rest).
Proof.
  induction rest as [|c rest IH]; intros q n q' cs He Hb Hq Hn; simpl.
  - intros [= <-] _. by rewrite app_nil_r.
  - intros ([[q1 n1] go] & Hs & Hl)%bind_ok Hq'.
    destruct (q_err q1) as [e1|] eqn:E1.
    + destruct go; [|injection Hl as <-; congruence].
      destruct (loop_err _ _ _ _ _ _ _ E1 Hl). congruence.
    + destruct (step_built _ _ _ _ _ _ _ _ _ _ _ He Hb Hq Hn Hs E1) as (-> & Hb1 & Hn1).
      rewrite cons_middle, app_assoc. by eapply IH.
Qed.

Lemma WithCriteria_built e inTx cs q :
  clean_entity e -> WithCriteria (NewQuery inTx e) cs = Ok q -> q_err q = None ->
  exists addr, built e inTx addr q cs.
Proof.
  intros He Hw Hq. unfold WithCriteria in Hw. simpl in Hw. eexists.
  eapply (loop_built e inTx) with (cs := []) in Hw; [exact Hw|done| |done|done|done].
  constructor; simpl; try done.
  apply map_Forall_insert_2; [done|]. apply map_Forall_singleton. by destruct He as (_ & ? & _).
Qed.

(** ** The where clause of a built query *)
Definition ok_criterion (c : Criterion) : Prop := Validate c = Ok tt /\ clean_input c.

Lemma valid_nonempty c : Validate c = Ok tt -> RightOp c <> [].
Proof. rewrite Validate_iff. by intros [? _]. Qed.

Lemma buildRightOp_ok op rs :
  rs <> [] -> exists bv, buildRightOp op rs = Ok (bv, value_param op rs).
Proof.
  intros Hne. unfold buildRightOp, value_param. destruct (op_Type op); [|eauto].
  destruct rs; [done|]. eauto.
Qed.

Lemma criterionSQL_ok c tags alias :
  RightOp c <> [] ->
  (CType c = ExistQuery \/ CType c = Subquery -> op_Type (COperator c) = UnivariateOperator) ->
  exists sql, criterionSQL c tags alias = Ok (sql, value_param (COperator c) (RightOp c)).
Proof.
  intros Hne Huni. unfold criterionSQL. destruct (buildRightOp_ok (COperator c) _ Hne) as [bv ->]. simpl.
  destruct (if bool_decide (findTagType tags _ = Some jsonType) then _ else _) as [leftOp comp].
  destruct (CType c); try (destruct (String.eqb alias ""); simpl; eauto);
    unfold value_param; rewrite Huni by auto; simpl; eauto.
Qed.

Lemma label_leaf_clean op rs k : clean k -> clean_criterion (ByField op k rs).
Proof. intros Hk. split; [done|]. intros [?|?]; done. Qed.

Lemma node_sql_nonempty bs b l :
  l <> [] -> Forall (fun s => s <> "") l -> node_sql bs b l <> "".
Proof.
  intros Hne Hl. destruct l as [|s [|s' l]]; [done|by inversion Hl|]. simpl.
  by destruct (match b with Some a => default DefaultBuilder (bs !! a) | None => DefaultBuilder end).
Qed.

Section Compile.
Context (e : entity) (He : clean_entity e) (bs : gmap nat sqlBuilderFunc) (addr : nat).

Lemma compile_field c :
  ok_criterion c -> is_field_like c = true ->
  exists sql, compileSQL bs (field_tree e c) = Ok (sql, [value_param (COperator c) (RightOp c)]) /\ sql <> "".
Proof.
  intros [Hv [Hcl Hop]] Hf. simpl.
  destruct (criterionSQL_ok c (entity_tags e) (TableName e) (valid_nonempty _ Hv) Hop) as [sql Hs].
  exists sql. rewrite Hs. split; [done|]. eapply (criterionSQL_marks c); [|apply (proj1 He)|exact Hs].
  apply Hcl. unfold is_field_like, is_type in Hf. by destruct (CType c).
Qed.

Lemma compile_leaf op k rs tags :
  rs <> [] -> clean k ->
  exists sql, compileSQL bs (Tree (Some (ByField op k rs)) tags "" [] None) = Ok (sql, [value_param op rs]) /\
    sql <> "".
Proof.
  intros Hrs Hk. simpl.
  destruct (criterionSQL_ok (ByField op k rs) tags "" Hrs) as [sql Hs]; [by intros [|]|].
  exists sql. rewrite Hs. split; [done|]. exact (proj1 (criterionSQL_marks (ByField op k rs) tags "" _ _ (label_leaf_clean op rs k Hk) eq_refl Hs)).
Qed.

Lemma compile_label c :
  ok_criterion c ->
  exists sql, compileSQL bs (label_tree e addr c) =
    Ok (sql, [PText (LeftOp c); value_param (COperator c) (RightOp c)]) /\ sql <> "".
Proof.
  intros [Hv _]. unfold label_tree. rewrite compileSQL_children.
  destruct (compile_leaf EqualsOperator "key" [LeftOp c] (label_entity_tags e)) as (s1 & E1 & N1); [done..|].
  destruct (compile_leaf (COperator c) "val" (RightOp c) (label_entity_tags e)) as (s2 & E2 & N2);
    [by apply valid_nonempty|done|].
  cbn [compile_children]. rewrite E1, E2. simpl.
  rewrite !(proj2 (String.eqb_neq _ _)) by done. simpl.
  eexists. split; [reflexivity|]. by apply (node_sql_nonempty bs (Some addr) [s1; s2]); repeat constructor.
Qed.

(** Children that each give a non-empty clause with known parameters. *)
Lemma compile_children_ok {A} (tree : A -> whereClauseTree) (params : A -> list param) l :
  Forall (fun x => exists sql, compileSQL bs (tree x) = Ok (sql, params x) /\ sql <> "") l ->
  exists sqls, compile_children bs (map tree l) =
    Ok (sqls, flat_map (fun x => if subquery_node (tree x) then [] else params x) l) /\
    length sqls = length l /\ Forall (fun s => s <> "") sqls.
Proof.
  induction 1 as [|x l (sql & E & Hne) _ (sqls & IH & Hlen & Hall)]; [by exists []|].
  exists (sql :: sqls). simpl. rewrite E, IH. simpl. rewrite (proj2 (String.eqb_neq _ _)) by done.
  split; [done|]. split; [by rewrite Hlen|by constructor].
Qed.

(** A clause over such children: empty when there are none. *)
Lemma compile_clause_ok {A} (tree : A -> whereClauseTree) (params : A -> list param) l b :
  Forall (fun x => exists sql, compileSQL bs (tree x) = Ok (sql, params x) /\ sql <> "") l ->
  exists sql, compileSQL bs (Tree None [] "" (map tree l) b) =
    Ok (sql, flat_map (fun x => if subquery_node (tree x) then [] else params x) l) /\
    (sql = "" <-> l = []).
Proof.
  intros Hl. destruct l as [|x l]; [by exists ""|].
  destruct (compile_children_ok tree params (x :: l) Hl) as (sqls & E & Hlen & Hall).
  simpl map. rewrite compileSQL_children. simpl map in E. rewrite E. simpl.
  eexists. split; [reflexivity|]. split; [|done]. intros Hz. exfalso.
  apply (node_sql_nonempty bs b sqls); [by destruct sqls|done..].
Qed.
End Compile.

Lemma field_params_flat e cs :
  flat_map (fun c => if subquery_node (field_tree e c) then []
                     else [value_param (COperator c) (RightOp c)]) (List.filter is_field_like cs)
  = field_params cs.
Proof.
  unfold field_params, is_field_like, is_type, subquery_node. simpl.
  induction cs as [|c cs IH]; [done|]. simpl.
  destruct (CType c) eqn:Ht; simpl; rewrite ?Ht; simpl; try exact IH. by f_equal.
Qed.

Lemma label_params_flat e addr cs :
  flat_map (fun c => if subquery_node (label_tree e addr c) then []
                     else [PText (LeftOp c); value_param (COperator c) (RightOp c)])
    (List.filter (is_type LabelQuery) cs) = label_params cs.
Proof. done. Qed.

Lemma filter_ok f cs : Forall ok_criterion cs -> Forall (fun c => ok_criterion c /\ f c = true) (List.filter f cs).
Proof.
  rewrite !Forall_forall. intros H c [Hin Hf]%list_elem_of_In%filter_In.
  split; [|done]. by apply H, list_elem_of_In.
Qed.

Lemma built_clean_tree e inTx addr q cs :
  clean_entity e -> Forall ok_criterion cs -> built e inTx addr q cs ->
  clean_tree (Tree None [] "" [fieldsWhereClause q; labelsWhereClause q] None).
Proof.
  intros He Hok Hb. apply clean_tree_children. repeat constructor.
  - unfold fieldsWhereClause. apply clean_tree_children. rewrite (b_fields _ _ _ _ _ Hb), Forall_map.
    eapply Forall_impl; [by apply filter_ok|]. simpl. intros c [[_ [Hc _]] Hf].
    split; [|apply He]. apply Hc. unfold is_field_like, is_type in Hf. by destruct (CType c).
  - unfold labelsWhereClause. apply clean_tree_children. rewrite (b_labels _ _ _ _ _ Hb), Forall_map.
    apply Forall_forall. intros c _. unfold label_tree. apply clean_tree_children.
    constructor; [|constructor; [|constructor]]; (split; [by apply label_leaf_clean|done]).
Qed.

(** The where clause of a built query has its field and label parameters, in order,
    and as many placeholders; it is empty when there are no such criteria. *)
Lemma whereSQL_built e inTx addr q cs :
  clean_entity e -> Forall ok_criterion cs -> built e inTx addr q cs ->
  exists w, whereSQL q = Ok (w, (field_params cs ++ label_params cs)%list) /\
    marks w = length (field_params cs ++ label_params cs)%list /\
    (q_fields q = [] -> q_labels q = [] -> w = "").
Proof.
  intros He Hok Hb.
  destruct (compile_clause_ok (q_builders q) (field_tree e) _ (List.filter is_field_like cs) None
    (Forall_impl _ _ _ (filter_ok is_field_like _ Hok)
      (fun c H => compile_field e He (q_builders q) c (proj1 H) (proj2 H)))) as (fs & Ef & Hf).
  destruct (compile_clause_ok (q_builders q) (label_tree e addr) _ (List.filter (is_type LabelQuery) cs)
    (Some labels_builder)
    (Forall_impl _ _ _ (filter_ok (is_type LabelQuery) _ Hok)
      (fun c H => compile_label e (q_builders q) addr c (proj1 H)))) as (ls & El & Hl).
  rewrite field_params_flat in Ef. rewrite label_params_flat in El.
  pose proof (b_fields _ _ _ _ _ Hb) as Hbf. pose proof (b_labels _ _ _ _ _ Hb) as Hbl.
  pose proof (built_clean_tree _ _ _ _ _ He Hok Hb) as Hct.
  unfold whereSQL.
  assert (Hroot : exists sql, compileSQL (q_builders q)
      (Tree None [] "" [fieldsWhereClause q; labelsWhereClause q] None) =
      Ok (sql, (field_params cs ++ label_params cs)%list) /\
      (q_fields q = [] -> q_labels q = [] -> sql = "")).
  { rewrite compileSQL_children. cbn [compile_children].
    unfold fieldsWhereClause, labelsWhereClause. rewrite Hbf, Hbl, Ef, El. simpl.
    destruct (String.eqb_spec fs "") as [Hfz|Hfz], (String.eqb_spec ls "") as [Hlz|Hlz]; simpl.
    - exists "". apply Hf in Hfz. apply Hl in Hlz. split; [|done].
      rewrite <- (field_params_flat e), <- (label_params_flat e addr), Hfz, Hlz. done.
    - exists ls. rewrite app_nil_r. apply Hf in Hfz.
      rewrite <- (field_params_flat e), Hfz. split; [done|]. intros _ Hn. exfalso. apply Hlz, Hl.
      by apply map_eq_nil in Hn.
    - exists fs. rewrite app_nil_r. apply Hl in Hlz.
      rewrite <- (label_params_flat e addr), Hlz. simpl. rewrite app_nil_r. split; [done|].
      intros Hn _. exfalso. apply Hfz, Hf. by apply map_eq_nil in Hn.
    - eexists. rewrite app_nil_r. split; [reflexivity|]. intros Hn _. exfalso. apply Hfz, Hf.
      by apply map_eq_nil in Hn. }
  destruct Hroot as (sql & Hsql & Hempty). rewrite Hsql. simpl.
  destruct (compile_marks _ _ (b_builders _ _ _ _ _ Hb) _ _ Hct Hsql) as [Hm Hnil].
  change (subquery_node _) with false in Hm. cbv iota in Hm.
  destruct (String.eqb_spec sql "") as [->|Hne].
  - exists "". rewrite (Hnil eq_refl). done.
  - eexists. split; [reflexivity|]. split; [by rewrite marks_app, Hm|].
    intros H1 H2. exfalso. by apply Hne, Hempty.
Qed.

(** ** Template data of a built query *)
Lemma template_data_built e inTx addr q cs :
  clean_entity e -> Forall ok_criterion cs -> built e inTx addr q cs ->
  exists d, getTemplateParams q = Ok (d, expected_params cs) /\ clean_data d /\
    (marks (d_var d WHERE) + marks (d_var d LIMIT) = length (expected_params cs))%nat /\
    marks (d_var d LIMIT) = length (limit_params cs) /\
    (eval_cond d hasAnyCriteria = false ->
       marks (d_var d WHERE) = 0 /\ marks (d_var d LIMIT) = 0)%nat /\
    (d_hasLabel d = false -> d_hasField d = false -> marks (d_var d WHERE) = 0)%nat.
Proof.
  intros He Hok Hb. destruct (whereSQL_built e inTx addr q cs He Hok Hb) as (w & Hw & Hm & Hempty).
  unfold getTemplateParams. rewrite Hw. simpl. rewrite (b_params _ _ _ _ _ Hb).
  assert (Hlim : limitSQL q = (fst (limitSQL q), limit_params cs) /\
    marks (fst (limitSQL q)) = length (limit_params cs)).
  { unfold limitSQL, limit_params. rewrite (b_limit _ _ _ _ _ Hb). by destruct (String.eqb _ ""). }
  destruct Hlim as [Hl1 Hl2]. destruct (limitSQL q) as [l lp] eqn:El. simpl in Hl1, Hl2.
  injection Hl1 as ->.
  eexists. split; [unfold expected_params; rewrite app_nil_l, <- app_assoc; reflexivity|]. simpl.
  destruct He as (Ht & Href & Hlt & _).
  split; [|split; [|split; [|split]]].
  - intros [] Hnw Hnl; simpl; try done; rewrite ?(b_table _ _ _ _ _ Hb), ?(b_entity _ _ _ _ _ Hb); try done.
    + unfold joinSQL. by destruct (q_labels q).
    + unfold lockSQL, clean in *. destruct (q_hasLock q); [|done].
      by rewrite marks_app, (b_table _ _ _ _ _ Hb), Ht.
    + unfold orderBySQL. pose proof (b_order _ _ _ _ _ Hb) as Ho.
      destruct (q_orderByFields q) as [|r rs] eqn:Er; unfold clean in *.
      * by rewrite !marks_app, (b_table _ _ _ _ _ Hb), Ht.
      * rewrite marks_app, marks_join by done. clear -Ho.
        induction Ho as [|x l [Hx1 Hx2] _ IH]; [done|]. simpl map. simpl list_sum.
        rewrite !marks_app, Hx1, Hx2. exact IH.
    + unfold orderBySequenceSQL, clean in *. destruct (String.eqb (q_limit q) ""); [done|].
      by rewrite !marks_app, (b_table _ _ _ _ _ Hb), Ht.
    + unfold returningSQL. by rewrite (b_returning _ _ _ _ _ Hb).
  - unfold expected_params. rewrite app_assoc, (length_app (_ ++ _)), Hm, Hl2. done.
  - done.
  - intros [[Hf Hz]%orb_false_iff Hl]%orb_false_iff.
    apply negb_false_iff, bool_decide_eq_true in Hf. apply negb_false_iff, bool_decide_eq_true in Hl.
    rewrite (Hempty Hf Hl). split; [done|]. unfold limitSQL in El.
    apply negb_false_iff in Hz. rewrite Hz in El. by injection El as <- _.
  - intros Hl [Hf _]%orb_false_iff.
    apply negb_false_iff, bool_decide_eq_true in Hf. apply negb_false_iff, bool_decide_eq_true in Hl.
    by rewrite (Hempty Hf Hl).
Qed.

Definition read_templates : list (list tmpl) :=
  [SelectQueryTemplate; SelectNoLabelsQueryTemplate; CountQueryTemplate; CountLabelValuesQueryTemplate].

Lemma lock_built e inTx addr q cs : built e inTx addr q cs -> built e inTx addr (WithLock q) cs.
Proof. intros Hb. unfold WithLock. destruct (q_err q), (q_inTx q); try done; destruct Hb; by constructor. Qed.

(** [WithCriteria] never panics: the indexing it does is covered by [Validate]. *)
Lemma order_fields_no_panic cols rules : no_panic (validateOrderFields cols rules).
Proof.
  unfold validateOrderFields, validateFields.
  apply no_panic_bind; [|intros _ _]; apply no_panic_for_each; auto with sm.
Qed.

Lemma check_field_no_panic q c : no_panic (check_field q c).
Proof. unfold check_field. repeat (apply no_panic_bind; [auto with sm|intros _ _]). auto with sm. Qed.

Lemma criterion_step_total addr all q n c : exists r, criterion_step addr all q n c = Ok r.
Proof.
  unfold criterion_step. pose proof (Validate_no_panic c) as Hnp.
  destruct (Validate c) as [[]| |m] eqn:Hv; [|eauto|by destruct (Hnp m)].
  apply Validate_iff in Hv as [Hne Hv]. destruct (CType c) eqn:Ht; try eauto.
  - pose proof (check_field_no_panic (with_flags q (q_hasLock q) (q_shouldRebind q || hasMultiVariateOp all)
      (q_returningFields q) (q_queryParams q)) c) as Hc.
    destruct (check_field _ c) as [| |m]; [eauto..|by destruct (Hc m)].
  - unfold processResultCriteria. rewrite bool_decide_true by done. simpl in *. destruct Hv as [_ Hob].
    destruct (String.eqb_spec (LeftOp c) OrderBy) as [Ho|Ho].
    + specialize (Hob Ho). destruct (RightOp c) as [|f [|o rs]]; simpl in Hob; [lia..|].
      pose proof (order_fields_no_panic (columnsByTags (q_entityTags q)) [{| or_field := f; or_orderType := o |}]) as Hnp'.
      simpl. destruct (validateOrderFields _ _) as [| |m]; simpl; [eauto..|by destruct (Hnp' m)].
    + destruct (String.eqb (LeftOp c) Limit); [|simpl; eauto].
      destruct (negb _); simpl; [eauto|]. destruct (RightOp c); [done|]. simpl. eauto.
Qed.

Lemma WithCriteria_total q cs : exists q', WithCriteria q cs = Ok q'.
Proof.
  unfold WithCriteria. destruct (q_err q); [eauto|].
  set (q0 := with_clauses _ _ _ _). generalize 0. generalize (fresh (dom (q_builders q))) at 1. intros addr.
  assert (G : forall rest q n, exists q', criteria_loop addr cs q n rest = Ok q').
  { induction rest as [|c rest IH]; intros q1 n; simpl; [eauto|].
    destruct (criterion_step_total addr cs q1 n c) as [[[q2 n2] go] ->]. simpl.
    destruct go; eauto. }
  intros n. apply G.
Qed.

(** ** The claims *)

(** C37: for an entity and criteria whose names and sub-queries hold no question mark,
    [WithCriteria] ends, and when it leaves no error the statements of List,
    ListNoLabels, Count and CountLabelValues have exactly as many placeholders as
    parameters; the parameters are the values of the field criteria in order, then key
    and values of each label criterion, then the limit. *)
Theorem statement_params_match e inTx (lock : bool) cs :
  clean_entity e -> Forall clean_input cs ->
  exists q, WithCriteria (NewQuery inTx e) cs = Ok q /\
    (q_err q = None ->
     exists d, getTemplateParams (if lock then WithLock q else q) = Ok (d, expected_params cs) /\
       Forall (fun template => marks (render d template) = length (expected_params cs)) read_templates).
Proof.
  intros He Hin. destruct (WithCriteria_total (NewQuery inTx e) cs) as [q Hq]. exists q. split; [done|].
  intros Herr. destruct (WithCriteria_built e inTx cs q He Hq Herr) as [addr Hb].
  assert (Hb' : built e inTx addr (if lock then WithLock q else q) cs) by (destruct lock; auto using lock_built).
  assert (Hok : Forall ok_criterion cs) by (apply Forall_and; split; [apply Hb|done]).
  destruct (template_data_built _ _ _ _ _ He Hok Hb') as (d & Hd & Hcl & Hlen & _ & Hany & _).
  exists d. split; [done|].
  assert (Hr : forall t, clean_texts t = true ->
    (occurs d WHERE t = 1 /\ occurs d LIMIT t = 1 \/
     eval_cond d hasAnyCriteria = false) -> marks (render d t) = length (expected_params cs)).
  { intros t Ht Ho. rewrite render_marks by done. destruct Ho as [[-> ->]|Hn]; [lia|].
    destruct (Hany Hn). lia. }
  clear Hd Hcl Hlen Hany. destruct d as [dv hf hl].
  unfold read_templates. repeat constructor; apply Hr; try (by vm_compute);
    destruct hf, hl; vm_compute; auto.
Qed.

(** A delete statement has no limit clause, so its placeholders match its parameters
    exactly when no limit criterion was given; with one, it is sent with one
    parameter too many. *)
Theorem delete_ignores_limit e inTx cs q :
  clean_entity e -> Forall clean_input cs ->
  WithCriteria (NewQuery inTx e) cs = Ok q -> q_err q = None ->
  exists d, getTemplateParams q = Ok (d, expected_params cs) /\
    (marks (render d DeleteQueryTemplate) + length (limit_params cs) = length (expected_params cs))%nat.
Proof.
  intros He Hin Hq Herr. destruct (WithCriteria_built e inTx cs q He Hq Herr) as [addr Hb].
  assert (Hok : Forall ok_criterion cs) by (apply Forall_and; split; [apply Hb|done]).
  destruct (template_data_built _ _ _ _ _ He Hok Hb) as (d & Hd & Hcl & Hlen & Hlim & _ & Hnone).
  exists d. split; [done|]. rewrite render_marks by done. rewrite <- Hlim.
  unfold occurs. simpl.
  destruct (d_hasLabel d) eqn:E1; simpl; [lia|].
  destruct (d_hasField d) eqn:E2; simpl; [lia|]. rewrite (Hnone eq_refl eq_refl) in *. lia.
Qed.

(** The label nodes of a query share one builder: with a single label criterion its
    clause is the conjunction of its key and value tests, and with more each of them,
    the first included, is a sub-select on the label table, so that the clauses can be
    intersected. *)
Theorem label_clauses_share_builder e inTx cs q :
  clean_entity e -> Forall clean_input cs ->
  WithCriteria (NewQuery inTx e) cs = Ok q -> q_err q = None ->
  Forall2 (fun c t => exists K V p1 p2,
      criterionSQL (ByField EqualsOperator "key" [LeftOp c]) (label_entity_tags e) "" = Ok (K, p1) /\
      criterionSQL (ByField (COperator c) "val" (RightOp c)) (label_entity_tags e) "" = Ok (V, p2) /\
      compileSQL (q_builders q) t =
        Ok (buildSQL (label_builder e (length (List.filter (is_type LabelQuery) cs))) [K; V], [p1; p2]))
    (List.filter (is_type LabelQuery) cs) (q_labels q).
Proof.
  intros He Hin Hq Herr. destruct (WithCriteria_built e inTx cs q He Hq Herr) as [addr Hb].
  rewrite (b_labels _ _ _ _ _ Hb). apply Forall2_fmap_r, Forall_Forall2_diag.
  assert (Hok : Forall ok_criterion cs) by (apply Forall_and; split; [apply Hb|done]).
  eapply Forall_impl; [by apply (filter_ok (is_type LabelQuery))|]. intros c [[Hv _] _].
  assert (Hr : RightOp c <> []) by by apply valid_nonempty.
  destruct (criterionSQL_ok (ByField EqualsOperator "key" [LeftOp c]) (label_entity_tags e) "") as [K HK];
    [done|by intros [|]|].
  destruct (criterionSQL_ok (ByField (COperator c) "val" (RightOp c)) (label_entity_tags e) "") as [V HV];
    [done|by intros [|]|].
  destruct (criterionSQL_marks _ _ _ _ _ (label_leaf_clean _ _ "key" eq_refl) (eq_refl : clean "") HK) as [HKn _].
  destruct (criterionSQL_marks _ _ _ _ _ (label_leaf_clean _ _ "val" eq_refl) (eq_refl : clean "") HV) as [HVn _].
  exists K, V. eexists _, _. split; [exact HK|]. split; [exact HV|].
  unfold label_tree. rewrite compileSQL_children. cbn [compile_children].
  cbn [compileSQL]. rewrite HK, HV. simpl. rewrite !(proj2 (String.eqb_neq _ _)) by done. simpl.
  by rewrite (b_kind _ _ _ _ _ Hb).
Qed.


(** ** Witnesses *)
Definition sample_entity : entity :=
  {| TableName := "platforms";
     LabelEntity := Some {| LabelsTableName := "platform_labels"; ReferenceColumn := "platform_id" |};
     entity_tags := [{| Tag := "id"; TType := stringType |}; {| Tag := "name"; TType := stringType |}];
     label_entity_tags := [{| Tag := "key"; TType := stringType |}; {| Tag := "val"; TType := stringType |}] |}.
Definition sample_criteria : list Criterion :=
  [ByField EqualsOperator "name" ["cf?"]; ByLabel InOperator "tenant" ["a"; "b"];
   ByLabel EqualsOperator "zone?" ["eu"]; LimitResultBy 5%Z].

Lemma sample_entity_clean : clean_entity sample_entity.
Proof. repeat split; try by vm_compute. - vm_compute. repeat constructor. - by eexists. Qed.
Lemma sample_criteria_clean : Forall clean_input sample_criteria.
Proof.
  repeat apply List.Forall_cons; try apply List.Forall_nil;
    (split; [intros Ht; first [by destruct (Ht eq_refl) | split; [done|by intros [|]]]|by intros [|]]).
Qed.

Lemma statement_params_match_witness :
  exists q, WithCriteria (NewQuery true sample_entity) sample_criteria = Ok q /\
    (q_err q = None ->
     exists d, getTemplateParams (WithLock q) =
         Ok (d, [PText "cf?"; PText "tenant"; PList ["a"; "b"]; PText "zone?"; PText "eu"; PText "5"]) /\
       Forall (fun template => marks (render d template) = 6%nat) read_templates).
Proof.
  exact (statement_params_match sample_entity true true sample_criteria sample_entity_clean sample_criteria_clean).
Defined.

Definition sample_query : pgQuery :=
  match WithCriteria (NewQuery false sample_entity) sample_criteria with Ok q => q | _ => NewQuery false sample_entity end.

Lemma delete_ignores_limit_witness :
  exists d, getTemplateParams sample_query = Ok (d, expected_params sample_criteria) /\
    (marks (render d DeleteQueryTemplate) + 1 = 6)%nat.
Proof.
  apply (delete_ignores_limit sample_entity false sample_criteria sample_query sample_entity_clean sample_criteria_clean);
    vm_compute; reflexivity.
Defined.

Lemma label_clauses_share_builder_witness :
  exists c1 c2 t1 t2, q_labels sample_query = [t1; t2] /\
    List.filter (is_type LabelQuery) sample_criteria = [c1; c2] /\
  Forall2 (fun c t => exists K V p1 p2,
      criterionSQL (ByField EqualsOperator "key" [LeftOp c]) (label_entity_tags sample_entity) "" = Ok (K, p1) /\
      criterionSQL (ByField (COperator c) "val" (RightOp c)) (label_entity_tags sample_entity) "" = Ok (V, p2) /\
      compileSQL (q_builders sample_query) t =
        Ok (buildSQL (SubSelectBuilder "platform_id" "platform_labels") [K; V], [p1; p2]))
    [c1; c2] [t1; t2].
Proof.
  eexists _, _, _, _. split; [vm_compute; reflexivity|]. split; [vm_compute; reflexivity|].
  exact (label_clauses_share_builder sample_entity false sample_criteria sample_query sample_entity_clean
    sample_criteria_clean ltac:(vm_compute; reflexivity) ltac:(vm_compute; reflexivity)).
Defined.
