(* ===== verification/WebFilters.v ===== *)
(** * Filters, plugins and their registration (pkg/web, pkg/util/slice)

    [Slice] models pkg/util/slice/strings.go, [Matching] matcher.go and the matching and
    chaining of filter.go, [Registry] the registration of filters and plugins of api.go
    and [DynamicMatchingFilter].  Handlers and filters act on a state of the outside
    world which they pass on; the glob library is the parameter [glob_compile]. *)

From S2P Require Import Prelude GoStd.
From stdpp Require Import base strings list.
From Stdlib Require Import ZArith Ascii.
Local Open Scope string_scope.

(** ** pkg/util/slice *)
Module Slice.

Fixpoint StringsAnyEquals (l : list string) (str : string) : bool :=
  match l with
  | [] => false
  | v :: rest => if String.eqb v str then true else StringsAnyEquals rest str
  end.

(** The set built from [str1] is only asked for membership. *)
Definition StringsIntersection (str1 str2 : list string) : list string :=
  List.filter (StringsAnyEquals str1) str2.

Definition StringsContaining (l : list string) (str : string) : list string :=
  List.filter (fun v => Strings.contains v str) l.

Fixpoint StringsAnyPrefix (l : list string) (prefix : string) : bool :=
  match l with
  | [] => false
  | v :: rest => if Strings.has_prefix v prefix then true else StringsAnyPrefix rest prefix
  end.

(** [StringsDistinct]: what of the first slice is not in the second, and then the tail of
    the second behind the length of the first. *)
Definition StringsDistinct (str1 str2 : list string) : list string :=
  (List.filter (fun s1 => negb (StringsAnyEquals str2 s1)) str1 ++
   (if decide (length str1 < length str2)%nat then drop (length str1) str2 else []))%list.

Lemma any_equals_true l str : StringsAnyEquals l str = true <-> str ∈ l.
Proof.
  induction l as [|v l IH]; simpl; [by rewrite elem_of_nil|]. rewrite elem_of_cons.
  destruct (String.eqb_spec v str); naive_solver.
Qed.
Lemma any_equals_false l str : StringsAnyEquals l str = false <-> str ∉ l.
Proof. rewrite <- any_equals_true. destruct (StringsAnyEquals l str); naive_solver. Qed.
Lemma any_prefix_false l p :
  StringsAnyPrefix l p = false <-> Forall (fun v => Strings.has_prefix v p = false) l.
Proof.
  induction l as [|v l IH]; simpl; [by rewrite Forall_nil|]. rewrite Forall_cons, <- IH.
  destruct (Strings.has_prefix v p); naive_solver.
Qed.
Lemma filter_nil {A} (f : A -> bool) l : List.filter f l = [] <-> Forall (fun x => f x = false) l.
Proof.
  induction l as [|x l IH]; simpl; [by rewrite Forall_nil|]. rewrite Forall_cons, <- IH.
  destruct (f x); naive_solver.
Qed.
End Slice.

(** ** Matchers and chains *)
Record Endpoint := { Method : string; Path_ : string }.
Definition Matcher := Endpoint -> result bool.
Record FilterMatcher := { Matchers : list Matcher }.

Definition errEmptyPathPattern : error := EPlain "empty path pattern not allowed".
Definition errInvalidPathPattern : error := EPlain "invalid path pattern".
Definition errEmptyHTTPMethods : error := EPlain "empty http methods not allowed".

Fixpoint matchInArray (arr : list string) (value : string) : bool :=
  match arr with
  | [] => false
  | v :: rest => if String.eqb v value then true else matchInArray rest value
  end.

Definition Methods (methods : list string) : Matcher := fun endpoint =>
  match methods with
  | [] => Err errEmptyHTTPMethods
  | _ => Ok (matchInArray methods (Method endpoint))
  end.

Section Glob.
(** [glob.Compile(pattern, '/')]: a pattern matcher, or nothing for a bad pattern. *)
Variable glob_compile : string -> option (string -> bool).

Fixpoint match_patterns (patterns : list string) (path : string) : result bool :=
  match patterns with
  | [] => Ok false
  | pattern :: rest =>
      match glob_compile pattern with
      | None => Err errInvalidPathPattern
      | Some pat => if pat path || pat (path ++ "/") then Ok true else match_patterns rest path
      end
  end.

Definition Path (patterns : list string) : Matcher := fun endpoint =>
  match patterns with
  | [] => Err errEmptyPathPattern
  | _ => match_patterns patterns (Path_ endpoint)
  end.
End Glob.

Fixpoint not_loop (matchers : list Matcher) (endpoint : Endpoint) : result bool :=
  match matchers with
  | [] => Ok false
  | m :: rest =>
      let* matched := m endpoint in
      if negb matched then Ok true else not_loop rest endpoint
  end.
Definition Not (matchers : list Matcher) : Matcher := not_loop matchers.

(** The inner loop of [Matching]: true when a matcher says no. *)
Fixpoint miss_match (matchers : list Matcher) (endpoint : Endpoint) : result bool :=
  match matchers with
  | [] => Ok false
  | m :: rest =>
      let* matched := m endpoint in
      if (matched : bool) then miss_match rest endpoint else Ok true
  end.

Fixpoint Matching (filterMatchers : list FilterMatcher) (endpoint : Endpoint) : result bool :=
  match filterMatchers with
  | [] => Ok false
  | routeMatcher :: rest =>
      let* missMatch := miss_match (Matchers routeMatcher) endpoint in
      if (missMatch : bool) then Matching rest endpoint else Ok true
  end.

Section Chains.
Context {Req Resp St : Type}.

(** A handler turns a request into a response or an error, and changes the world. *)
Definition Handler := Req -> St -> St * result Resp.
Record Filter := {
  Name : string;
  FilterMatchers : list FilterMatcher;
  Run : Req -> Handler -> St -> St * result Resp
}.
Record Route := { Endpoint_ : Endpoint; Handler_ : Handler }.

(** [Chain]: the loop fills [wrappedFilters] from the end; each entry runs its filter
    with the next entry. *)
Fixpoint Chain (fs : list Filter) (h : Handler) : Handler :=
  match fs with
  | [] => h
  | f :: rest => fun r => Run f r (Chain rest h)
  end.

(** [Filters.Matching]: a filter without matchers is always taken. *)
Fixpoint MatchingFilters (fs : list Filter) (endpoint : Endpoint) : result (list Filter) :=
  match fs with
  | [] => Ok []
  | f :: rest =>
      let always := match FilterMatchers f with [] => [f] | _ => [] end in
      match Matching (FilterMatchers f) endpoint with
      | Err e => Panic ("error matching filter " ++ Name f)
      | Panic m => Panic m
      | Ok matches =>
          let* matched := MatchingFilters rest endpoint in
          Ok (always ++ (if matches then [f] else []) ++ matched)%list
      end
  end.

Definition ChainMatching (fs : list Filter) (route : Route) : result Handler :=
  let* filters := MatchingFilters fs (Endpoint_ route) in
  Ok (Chain filters (Handler_ route)).

End Chains.
Arguments Filter : clear implicits.
Arguments Handler : clear implicits.
Arguments Route : clear implicits.
