(* ===== verification/WebRegistry.v ===== *)
(** * Registration of filters and plugins (pkg/web/api.go, dynamic_matching_filter.go)

    The API's list of filters and the operations that register, replace and remove
    filters and plugins in it.  Misuse panics, as the code does at start-up. *)

From S2P Require Import Prelude GoStd WebFilters.
From stdpp Require Import base strings list.
From Stdlib Require Import ZArith Ascii.
Local Open Scope string_scope.
Import WebFilters.Slice.

(** The operations a plugin can intercept, one per interface of plugin.go. *)
Inductive PluginOp :=
  | FetchCatalog | FetchService | Provision | UpdateService | Deprovision | FetchBinding
  | Bind | Unbind | PollInstance | PollBinding | AdaptCredentials.
#[global] Instance PluginOp_eq_dec : EqDecision PluginOp.
Proof. solve_decision. Defined.

(** In the order [decomposePlugin] tests for them. *)
Definition plugin_ops : list PluginOp :=
  [FetchCatalog; FetchService; Provision; UpdateService; Deprovision; FetchBinding;
   Bind; Unbind; PollInstance; PollBinding; AdaptCredentials].

(** Name suffix, method and path pattern of a segment. *)
Definition segment_of (op : PluginOp) : string * string * string :=
  match op with
  | FetchCatalog => (":FetchCatalog", "GET", "/v1/osb/*/v2/catalog/*")
  | FetchService => (":FetchService", "GET", "/v1/osb/*/v2/service_instances/*")
  | Provision => (":Provision", "PUT", "/v1/osb/*/v2/service_instances/*")
  | UpdateService => (":UpdateService", "PATCH", "/v1/osb/*/v2/service_instances/*")
  | Deprovision => (":Deprovision", "DELETE", "/v1/osb/*/v2/service_instances/*")
  | FetchBinding => (":FetchBinding", "GET", "/v1/osb/*/v2/service_instances/*/service_bindings/*")
  | Bind => (":Bind", "PUT", "/v1/osb/*/v2/service_instances/*/service_bindings/*")
  | Unbind => (":Unbind", "DELETE", "/v1/osb/*/v2/service_instances/*/service_bindings/*")
  | PollInstance => (":PollInstance", "GET", "/v1/osb/*/v2/service_instances/*/last_operation")
  | PollBinding =>
      (":PollBinding", "GET", "/v1/osb/*/v2/service_instances/*/service_bindings/*/last_operation")
  | AdaptCredentials =>
      (":AdaptCredentials", "POST",
       "/v1/osb/*/v2/service_instances/*/service_bindings/*/adapt_credentials")
  end.

Section Registry.
Context {Req Resp St : Type}.
Variable glob_compile : string -> option (string -> bool).
Variable req_endpoint : Req -> Endpoint.   (** method and URL path of a request *)
Notation Filter := (WebFilters.Filter Req Resp St).
Notation Handler := (WebFilters.Handler Req Resp St).
Notation Middleware := (Req -> Handler -> St -> St * result Resp).

(** A plugin: its name and the middleware of each interface it implements. *)
Record Plugin := { PluginName : string; implements : PluginOp -> option Middleware }.

Definition newPluginSegment (name method pathPattern : string) (f : Middleware) : Filter :=
  {| Name := name;
     FilterMatchers := [{| Matchers := [Methods [method]; Path glob_compile [pathPattern]] |}];
     Run := f |}.

Definition filterNames (filters : list Filter) : list string := map Name filters.

Definition validateFilters (api filters : list Filter) : result unit :=
  let newFilterNames := filterNames filters in
  if StringsAnyEquals newFilterNames "" then Panic "Filters cannot have empty names" else
  match StringsIntersection (filterNames api) newFilterNames with
  | _ :: _ => Panic "Filters are already registered"
  | [] =>
      match StringsContaining newFilterNames ":" with
      | _ :: _ => Panic "Cannot register filters with : in their names"
      | [] => Ok tt
      end
  end.

(** The position of the first filter of that name, -1 when there is none. *)
Fixpoint find_from (i : Z) (api : list Filter) (filterName : string) : Z :=
  match api with
  | [] => -1
  | f :: rest => if String.eqb (Name f) filterName then i else find_from (i + 1) rest filterName
  end.
Definition findFilterPosition (api : list Filter) (filterName : string) : Z := find_from 0 api filterName.

(** Append a nil, shift the tail by one and store: the slice expressions panic when
    the position is outside. *)
Definition insert_filter (api : list Filter) (position : Z) (f : Filter) : result (list Filter) :=
  if (position <? 0)%Z || (Z.of_nat (length api) <? position)%Z then Panic "slice bounds out of range"
  else Ok (take (Z.to_nat position) api ++ f :: drop (Z.to_nat position) api)%list.

Definition registerFilterRelativelyOrDie (api : list Filter) (filterName : string) (newFilter : Filter)
    (newFilterPosition : Z -> Z) : result (list Filter) :=
  let position := findFilterPosition api filterName in
  if (position <? 0)%Z then Panic ("Filter with name " ++ filterName ++ " is not found")
  else insert_filter api (newFilterPosition position) newFilter.

Definition registerFilterRelatively (api : list Filter) (filterName : string) (newFilter : Filter)
    (newFilterPosition : Z -> Z) : result (list Filter) :=
  let position := findFilterPosition api filterName in
  if (position <? 0)%Z then Ok (api ++ [newFilter])%list
  else insert_filter api (newFilterPosition position) newFilter.

Definition RegisterFilters (api filters : list Filter) : result (list Filter) :=
  validateFilters api filters ;;; Ok (api ++ filters)%list.

Definition RegisterFiltersBefore (api : list Filter) (beforeFilterName : string) (filters : list Filter)
    : result (list Filter) :=
  fold_result (fun api f =>
    validateFilters api [f] ;;;
    registerFilterRelativelyOrDie api beforeFilterName f (fun position => position)) api filters.

(** The loop index [i] is part of the loop's state. *)
Fixpoint register_after (i : Z) (api : list Filter) (afterFilterName : string) (filters : list Filter)
    : result (list Filter) :=
  match filters with
  | [] => Ok api
  | f :: rest =>
      validateFilters api [f] ;;;
      let* api' := registerFilterRelativelyOrDie api afterFilterName f
                     (fun position => position + 1 + i)%Z in
      register_after (i + 1) api' afterFilterName rest
  end.
Definition RegisterFiltersAfter (api : list Filter) (afterFilterName : string) (filters : list Filter) :=
  register_after 0 api afterFilterName filters.

Definition ReplaceFilter (api : list Filter) (replacedFilterName : string) (f : Filter)
    : result (list Filter) :=
  validateFilters api [f] ;;;
  let position := findFilterPosition api replacedFilterName in
  if (position <? 0)%Z then Panic "index out of range" else Ok (<[Z.to_nat position := f]> api).

Definition RemoveFilter (api : list Filter) (name : string) : result (list Filter) :=
  let position := findFilterPosition api name in
  if (position <? 0)%Z then Panic "slice bounds out of range"
  else Ok (take (Z.to_nat position) api ++ drop (S (Z.to_nat position)) api)%list.

Definition decomposePlugin (plug : Plugin) : list Filter :=
  omap (fun op =>
    (fun f => let '(suffix, method, pattern) := segment_of op in
              newPluginSegment (PluginName plug ++ suffix) method pattern f) <$> implements plug op)
    plugin_ops.

Definition decomposePluginOrDie (plug : Plugin) : result (list Filter) :=
  match decomposePlugin plug with
  | [] => Panic "plugin does not implement any plugin operation"
  | segments => Ok segments
  end.

Definition RegisterPlugins (api : list Filter) (plugins : list Plugin) : result (list Filter) :=
  fold_result (fun api plugin =>
    if StringsAnyPrefix (filterNames api) (PluginName plugin ++ ":")
    then Panic ("Plugin " ++ PluginName plugin ++ " is already registered") else
    let* segments := decomposePluginOrDie plugin in
    Ok (api ++ segments)%list) api plugins.

Fixpoint first_of_plugin (names : list string) (pluginName : string) : string :=
  match names with
  | [] => ""
  | name :: rest =>
      if String.eqb (hd "" (Strings.split_byte name ":")) pluginName then name
      else first_of_plugin rest pluginName
  end.
Definition getFirstFilterNameOfPlugin (api : list Filter) (pluginName : string) : string :=
  first_of_plugin (filterNames api) pluginName.

Definition RegisterPluginsBefore (api : list Filter) (beforePluginName : string) (plugins : list Plugin)
    : result (list Filter) :=
  fold_result (fun api plugin =>
    if String.eqb (PluginName plugin) "" then Panic "Plugin name cannot be empty" else
    if StringsAnyPrefix (filterNames api) (PluginName plugin ++ ":")
    then Panic ("Plugin " ++ PluginName plugin ++ " is already registered") else
    let* segments := decomposePluginOrDie plugin in
    let first := getFirstFilterNameOfPlugin api beforePluginName in
    fold_result (fun api segment =>
      registerFilterRelatively api first segment (fun position => position)) api segments) api plugins.

(** ** DynamicMatchingFilter *)
Record DynamicMatchingFilter := { dmf_filters : list Filter; dmf_name : string }.
Definition NewDynamicMatchingFilter (name : string) : DynamicMatchingFilter :=
  {| dmf_filters := []; dmf_name := name |}.
Definition AddFilter (dmf : DynamicMatchingFilter) (f : Filter) : DynamicMatchingFilter :=
  {| dmf_filters := dmf_filters dmf ++ [f]; dmf_name := dmf_name dmf |}.
Definition ClearFilters (dmf : DynamicMatchingFilter) : DynamicMatchingFilter :=
  {| dmf_filters := []; dmf_name := dmf_name dmf |}.
(** [Run]: the filters are matched when the request comes. *)
Definition dmf_Run (dmf : DynamicMatchingFilter) (req : Req) (next : Handler) (s : St)
    : St * result Resp :=
  match ChainMatching (dmf_filters dmf) {| Endpoint_ := req_endpoint req; Handler_ := next |} with
  | Ok chain => chain req s
  | Err e => (s, Err e)
  | Panic m => (s, Panic m)
  end.
Definition dmf_FilterMatchers : list FilterMatcher :=
  [{| Matchers := [Path glob_compile ["/**"];
                   Methods ["GET"; "POST"; "PUT"; "PATCH"; "DELETE"; "HEAD"]] |}].

End Registry.
