(* ===== verification/WebProps.v ===== *)
(** * Properties of filter chains and of the filter registry *)

From S2P Require Import Prelude GoStd WebFilters WebRegistry.
From stdpp Require Import base strings list.
From Stdlib Require Import ZArith Ascii.
Local Open Scope string_scope.
Import WebFilters.Slice.

(** ** Matching *)
Definition decided (m : Matcher) (ep : Endpoint) : Prop := exists b, m ep = Ok b.
Definition says_yes (ep : Endpoint) (m : Matcher) : bool := match m ep with Ok b => b | _ => false end.
Definition group_matches (ep : Endpoint) (fm : FilterMatcher) : bool := forallb (says_yes ep) (Matchers fm).

Lemma miss_match_spec ms ep :
  Forall (fun m => decided m ep) ms -> miss_match ms ep = Ok (negb (forallb (says_yes ep) ms)).
Proof.
  induction 1 as [|m ms [b Hm] _ IH]; [done|]. simpl. unfold says_yes at 1. rewrite Hm. simpl.
  by destruct b.
Qed.

Lemma Matching_spec fms ep :
  Forall (fun fm => Forall (fun m => decided m ep) (Matchers fm)) fms ->
  Matching fms ep = Ok (existsb (group_matches ep) fms).
Proof.
  induction 1 as [|fm fms Hm _ IH]; [done|]. simpl. rewrite miss_match_spec by done. simpl.
  unfold group_matches at 1. by destruct (forallb _ _).
Qed.

Section Chains.
Context {Req Resp St : Type}.
Notation Filter := (WebFilters.Filter Req Resp St).

(** A filter applies to an endpoint when it has no matchers or all the matchers of one
    of its groups say yes. *)
Definition applies (ep : Endpoint) (f : Filter) : bool :=
  match FilterMatchers f with [] => true | fms => existsb (group_matches ep) fms end.
Definition decidable_at (ep : Endpoint) (f : Filter) : Prop :=
  Forall (fun fm => Forall (fun m => decided m ep) (Matchers fm)) (FilterMatchers f).

Lemma MatchingFilters_spec fs ep :
  Forall (decidable_at ep) fs -> MatchingFilters fs ep = Ok (List.filter (applies ep) fs).
Proof.
  induction 1 as [|f fs Hf _ IH]; [done|]. simpl. rewrite Matching_spec by done. rewrite IH. simpl.
  unfold applies. destruct (FilterMatchers f) as [|fm fms]; simpl; [done|].
  by destruct (group_matches ep fm || existsb (group_matches ep) fms).
Qed.

(** A filter that passes the request on, after changing it and the world by [pre]. *)
Definition forwards (pre : Req -> St -> Req * St) (f : Filter) : Prop :=
  forall r next s, Run f r next s = next (pre r s).1 (pre r s).2.
(** A filter that answers on its own. *)
Definition answers (out : Req -> St -> St * result Resp) (f : Filter) : Prop :=
  forall r next s, Run f r next s = out r s.

Definition run_pre (pre : Filter -> Req -> St -> Req * St) (fs : list Filter) (rs : Req * St) : Req * St :=
  foldl (fun rs f => pre f rs.1 rs.2) rs fs.

Lemma Chain_app (fs gs : list Filter) h : Chain (fs ++ gs) h = Chain fs (Chain gs h).
Proof. induction fs as [|f fs IH]; [done|]. simpl. by rewrite IH. Qed.

Lemma Chain_forwards pre fs h r s :
  Forall (fun f => forwards (pre f) f) fs ->
  Chain fs h r s = h (run_pre pre fs (r, s)).1 (run_pre pre fs (r, s)).2.
Proof.
  intros Hf. revert r s. induction Hf as [|f fs Hf _ IH]; intros r s; [done|].
  simpl. rewrite Hf, IH. unfold run_pre. simpl. by destruct (pre f r s).
Qed.

(** The chain built for a route runs exactly the filters that apply to its endpoint, in
    the order of the list, around the handler: filters that pass the request on are
    seen in that order, and the first that answers on its own ends the chain, no matter
    what is behind it. *)
Theorem chain_matching_runs_in_order pre (fs : list Filter) route r s :
  Forall (decidable_at (Endpoint_ route)) fs ->
  exists h, ChainMatching fs route = Ok h /\
    (Forall (fun f => forwards (pre f) f) (List.filter (applies (Endpoint_ route)) fs) ->
     h r s = let rs := run_pre pre (List.filter (applies (Endpoint_ route)) fs) (r, s) in
             Handler_ route rs.1 rs.2) /\
    (forall before f behind out,
       List.filter (applies (Endpoint_ route)) fs = (before ++ f :: behind)%list ->
       Forall (fun f => forwards (pre f) f) before -> answers out f ->
       h r s = let rs := run_pre pre before (r, s) in out rs.1 rs.2).
Proof.
  intros Hd. unfold ChainMatching. rewrite MatchingFilters_spec by done. eexists. split; [reflexivity|].
  split; [by apply Chain_forwards|]. intros before f behind out -> Hb Ho.
  rewrite Chain_app, (Chain_forwards pre) by done. simpl. apply Ho.
Qed.
End Chains.

(** ** The registry *)
Section Registry.
Context {Req Resp St : Type}.
Notation Filter := (WebFilters.Filter Req Resp St).
Notation Plugin := (@WebRegistry.Plugin Req Resp St).
Implicit Types (api fs : list Filter) (f : Filter) (plug : Plugin).

Lemma validateFilters_ok api fs :
  validateFilters api fs = Ok tt <->
  "" ∉ filterNames fs /\ (forall n, n ∈ filterNames fs -> n ∉ filterNames api) /\
  Forall (fun n => Strings.contains n ":" = false) (filterNames fs).
Proof.
  unfold validateFilters. destruct (StringsAnyEquals _ _) eqn:Ee.
  { apply any_equals_true in Ee. naive_solver. }
  apply any_equals_false in Ee. unfold StringsIntersection, StringsContaining.
  rewrite <- filter_nil.
  assert (Hi : List.filter (StringsAnyEquals (filterNames api)) (filterNames fs) = [] <->
    forall n, n ∈ filterNames fs -> n ∉ filterNames api).
  { rewrite filter_nil, Forall_forall. by setoid_rewrite any_equals_false. }
  destruct (List.filter (StringsAnyEquals _) _); [|naive_solver].
  destruct (List.filter _ (filterNames fs)); naive_solver.
Qed.

(** [findFilterPosition] finds the first filter of a name. *)
Lemma find_from_spec i api name :
  (find_from i api name = (-1)%Z /\ name ∉ filterNames api) \/
  exists l1 x l2, api = (l1 ++ x :: l2)%list /\ Name x = name /\ name ∉ filterNames l1 /\
    find_from i api name = (i + Z.of_nat (length l1))%Z.
Proof.
  revert i. induction api as [|f api IH]; intros i; simpl.
  { left. split; [done|apply not_elem_of_nil]. }
  destruct (String.eqb_spec (Name f) name) as [He|Hne].
  - right. exists [], f, api. repeat split; [done|apply not_elem_of_nil|simpl; lia].
  - destruct (IH (i + 1)%Z) as [[-> Hn]|(l1 & x & l2 & -> & Hx & Hl1 & ->)].
    + left. split; [done|]. apply not_elem_of_cons. by split; [congruence|].
    + right. exists (f :: l1), x, l2. repeat split; [done| |simpl; lia].
      apply not_elem_of_cons. by split; [congruence|].
Qed.

Lemma find_split l1 (x : Filter) l2 :
  Name x ∉ filterNames l1 -> findFilterPosition (l1 ++ x :: l2) (Name x) = Z.of_nat (length l1).
Proof.
  intros Hn. unfold findFilterPosition. enough (G : forall i, find_from i (l1 ++ x :: l2) (Name x) =
    (i + Z.of_nat (length l1))%Z) by apply G.
  induction l1 as [|y l1 IH]; intros i; simpl.
  - rewrite String.eqb_refl. lia.
  - apply not_elem_of_cons in Hn as [Hne Hn].
    rewrite (proj2 (String.eqb_neq _ _)) by congruence. rewrite IH by done. lia.
Qed.

Lemma insert_filter_app api1 api2 f :
  insert_filter (api1 ++ api2) (Z.of_nat (length api1)) f = Ok (api1 ++ f :: api2)%list.
Proof.
  unfold insert_filter. rewrite length_app.
  destruct (Z.ltb_spec (Z.of_nat (length api1)) 0); [lia|].
  destruct (Z.ltb_spec (Z.of_nat (length api1 + length api2)) (Z.of_nat (length api1))); [lia|]. simpl.
  by rewrite Nat2Z.id, take_app_length, drop_app_length.
Qed.

Lemma relatively_split (or_die : bool) l1 (x : Filter) l2 f k l21 l22 :
  Name x ∉ filterNames l1 -> (x :: l2 = l21 ++ l22)%list ->
  k (Z.of_nat (length l1)) = Z.of_nat (length (l1 ++ l21)) ->
  (if or_die then registerFilterRelativelyOrDie else registerFilterRelatively)
    (l1 ++ x :: l2)%list (Name x) f k = Ok (l1 ++ l21 ++ f :: l22)%list.
Proof.
  intros Hn Hl Hk.
  assert (H : insert_filter (l1 ++ x :: l2) (k (Z.of_nat (length l1))) f = Ok (l1 ++ l21 ++ f :: l22)%list).
  { rewrite Hk, Hl, (app_assoc l1 l21 l22), insert_filter_app. by rewrite <- app_assoc. }
  destruct or_die; unfold registerFilterRelativelyOrDie, registerFilterRelatively;
    rewrite find_split by done; destruct (Z.ltb_spec (Z.of_nat (length l1)) 0); (lia || exact H).
Qed.

Lemma relatively_missing api name f k :
  name ∉ filterNames api ->
  (exists m, registerFilterRelativelyOrDie api name f k = Panic m) /\
  registerFilterRelatively api name f k = Ok (api ++ [f])%list.
Proof.
  intros Hn. unfold registerFilterRelativelyOrDie, registerFilterRelatively.
  destruct (find_from_spec 0 api name) as [[Hf _]|(l1 & x & l2 & -> & <- & _)].
  - unfold findFilterPosition. rewrite Hf. simpl. eauto.
  - exfalso. apply Hn. unfold filterNames. rewrite map_app. apply elem_of_app. right. by left.
Qed.

Lemma names_app fs gs : filterNames (fs ++ gs) = (filterNames fs ++ filterNames gs)%list.
Proof. apply map_app. Qed.

Lemma first_split name fs : name ∈ filterNames fs ->
  exists l1 x l2, fs = (l1 ++ x :: l2)%list /\ Name x = name /\ name ∉ filterNames l1.
Proof.
  intros Hin. destruct (find_from_spec 0 fs name) as [[_ ?]|(l1 & x & l2 & ? & ? & ? & _)]; [done|eauto 8].
Qed.

(** New filters that may be registered: named, without a colon, with names that are
    new and differ from each other. *)
Definition valid_new api fs : Prop :=
  NoDup (filterNames fs) /\ "" ∉ filterNames fs /\
  (forall n, n ∈ filterNames fs -> n ∉ filterNames api) /\
  Forall (fun n => Strings.contains n ":" = false) (filterNames fs).

Definition panics {A} (r : result A) : Prop := exists m, r = Panic m.

Lemma validate_one api f : validateFilters api [f] = Ok tt \/ panics (validateFilters api [f]).
Proof. unfold validateFilters, panics. repeat case_match; eauto. Qed.

Lemma valid_new_cons api f fs api' :
  (forall n, n ∈ filterNames api' <-> n = Name f \/ n ∈ filterNames api) ->
  valid_new api (f :: fs) <-> validateFilters api [f] = Ok tt /\ valid_new api' fs.
Proof.
  intros Hn. rewrite validateFilters_ok. unfold valid_new. simpl.
  rewrite NoDup_cons, Forall_cons, Forall_singleton, not_elem_of_cons.
  setoid_rewrite elem_of_cons. setoid_rewrite Hn. setoid_rewrite elem_of_nil. split.
  - intros ((Hd & Hnd) & (He & Hes) & Hnew & Hc & Hcs). split_and!; try done.
    + by intros [?|[]].
    + naive_solver.
    + intros n Hin [->|Ha]; [done|]. by apply (Hnew n); [right|].
  - intros ((He & Ha & Hc) & Hnd & Hes & Hnew & Hcs). split_and!; try done.
    + intros Hin. apply (Hnew _ Hin). by left.
    + naive_solver.
    + intros n [->|Hin]; [by apply Ha; left|]. intros Hx. apply (Hnew _ Hin). by right.
Qed.

Lemma valid_new_nil api : valid_new api [].
Proof.
  repeat split; [by constructor|apply not_elem_of_nil| |by constructor].
  intros n Hn. by apply elem_of_nil in Hn.
Qed.

(** The outcome of a registration: it goes through exactly when the filters are valid. *)
Definition outcome (valid : Prop) (r : result (list Filter)) (api' : list Filter) : Prop :=
  (valid /\ r = Ok api') \/ (~ valid /\ panics r).

Lemma outcome_ok valid r expected api' : outcome valid r expected -> r = Ok api' -> valid /\ api' = expected.
Proof. intros [[? ->]|[_ [m ->]]] Hr; [by injection Hr as <-|done]. Qed.

Lemma before_loop fs l1 (x : Filter) l2 :
  Name x ∉ filterNames l1 ->
  outcome (valid_new (l1 ++ x :: l2) fs) (RegisterFiltersBefore (l1 ++ x :: l2) (Name x) fs)
    (l1 ++ fs ++ x :: l2)%list.
Proof.
  unfold RegisterFiltersBefore, outcome. revert l1. induction fs as [|f fs IH]; intros l1 Hx; simpl.
  { left. split; [apply valid_new_nil|done]. }
  rewrite (valid_new_cons _ f fs ((l1 ++ [f]) ++ x :: l2)).
  2:{ intros n. rewrite !names_app, !elem_of_app. simpl. rewrite !elem_of_cons, elem_of_nil. tauto. }
  destruct (validate_one (l1 ++ x :: l2) f) as [Hok|[m Hm]].
  2:{ rewrite Hm. right. split; [by intros [? _]|]. by exists m. }
  rewrite Hok. simpl.
  rewrite (relatively_split true l1 x l2 f (fun p => p) [] (x :: l2)) by (try done; by rewrite app_nil_r).
  simpl. change (l1 ++ f :: x :: l2)%list with (l1 ++ [f] ++ x :: l2)%list. rewrite app_assoc.
  assert (Hx' : Name x ∉ filterNames (l1 ++ [f])).
  { rewrite names_app. apply not_elem_of_app. split; [done|]. simpl. rewrite list_elem_of_singleton. intros He.
    apply validateFilters_ok in Hok as (_ & Hnew & _). apply (Hnew (Name f)); [by left|].
    rewrite names_app, <- He. apply elem_of_app. right. by left. }
  destruct (IH (l1 ++ [f])%list Hx') as [[Hv ->]|[Hv Hp]]; [left|right; naive_solver].
  split; [done|by rewrite <- app_assoc].
Qed.

Lemma after_loop fs l1 (x : Filter) behind l2 :
  Name x ∉ filterNames l1 ->
  outcome (valid_new (l1 ++ x :: behind ++ l2) fs)
    (register_after (Z.of_nat (length behind)) (l1 ++ x :: behind ++ l2) (Name x) fs)
    (l1 ++ x :: behind ++ fs ++ l2)%list.
Proof.
  intros Hx. unfold outcome. revert behind. induction fs as [|f fs IH]; intros behind; simpl.
  { left. split; [apply valid_new_nil|done]. }
  rewrite (valid_new_cons _ f fs (l1 ++ x :: (behind ++ [f]) ++ l2)).
  2:{ intros n. rewrite !names_app, !elem_of_app. simpl. rewrite !elem_of_cons, !names_app, !elem_of_app.
      simpl. rewrite elem_of_cons, elem_of_nil. tauto. }
  destruct (validate_one (l1 ++ x :: behind ++ l2) f) as [Hok|[m Hm]].
  2:{ rewrite Hm. right. split; [by intros [? _]|]. by exists m. }
  rewrite Hok. simpl.
  rewrite (relatively_split true l1 x (behind ++ l2) f _ (x :: behind) l2)
    by (try done; rewrite length_app; simpl; lia).
  simpl. change (behind ++ f :: l2)%list with (behind ++ [f] ++ l2)%list. rewrite (app_assoc behind [f]).
  replace (Z.of_nat (length behind) + 1)%Z with (Z.of_nat (length (behind ++ [f]))) by (rewrite length_app; simpl; lia).
  destruct (IH (behind ++ [f])%list) as [[Hv ->]|[Hv Hp]]; [left|right; naive_solver].
  split; [done|by rewrite <- app_assoc].
Qed.

(** Filters registered before or after a named filter end up next to it, in the order
    given, and nothing else moves; registration panics exactly when one of them has no
    name, a colon in its name, or the name of a filter already there. *)
Theorem register_next_to fs api l1 (x : Filter) l2 :
  api = (l1 ++ x :: l2)%list -> Name x ∉ filterNames l1 ->
  outcome (valid_new api fs) (RegisterFiltersBefore api (Name x) fs) (l1 ++ fs ++ x :: l2)%list /\
  outcome (valid_new api fs) (RegisterFiltersAfter api (Name x) fs) (l1 ++ x :: fs ++ l2)%list.
Proof. intros -> Hx. split; [by apply before_loop|by apply (after_loop fs l1 x [] l2)]. Qed.

(** ** The names stay distinct *)
Definition wf_api api : Prop := NoDup (filterNames api) /\ "" ∉ filterNames api.

Lemma wf_add api new api' :
  wf_api api -> NoDup new -> "" ∉ new -> (forall n, n ∈ new -> n ∉ filterNames api) ->
  filterNames api' ≡ₚ (new ++ filterNames api)%list -> wf_api api'.
Proof.
  intros [Hnd He] Hn Hne Hdis Hp. unfold wf_api. rewrite Hp. split.
  - apply NoDup_app. split; [done|]. split; [|done]. intros n. apply Hdis.
  - rewrite elem_of_app. tauto.
Qed.

Lemma wf_sub api api' l : wf_api api -> filterNames api ≡ₚ (l ++ filterNames api')%list -> wf_api api'.
Proof.
  intros [Hnd He] Hp. unfold wf_api in *. rewrite Hp in Hnd, He. split.
  - by apply NoDup_app in Hnd as (_ & _ & ?).
  - rewrite elem_of_app in He. tauto.
Qed.

Lemma valid_new_wf api fs api' :
  wf_api api -> valid_new api fs -> filterNames api' ≡ₚ (filterNames fs ++ filterNames api)%list -> wf_api api'.
Proof. intros Hwf (? & ? & ? & _) Hp. by eapply wf_add. Qed.

Lemma relative_wf (before : bool) api name fs api' :
  wf_api api ->
  (if before then RegisterFiltersBefore api name fs else RegisterFiltersAfter api name fs) = Ok api' ->
  wf_api api'.
Proof.
  intros Hwf Hr. destruct fs as [|f fs]; [destruct before; by injection Hr as <-|].
  destruct (decide (name ∈ filterNames api)) as [Hin|Hout].
  - destruct (first_split _ _ Hin) as (l1 & x & l2 & -> & <- & Hx). destruct before.
    + destruct (outcome_ok _ _ _ _ (before_loop (f :: fs) l1 x l2 Hx) Hr) as [Hv ->].
      eapply valid_new_wf; [done..|]. rewrite !names_app. apply Permutation_app_swap_app.
    + destruct (outcome_ok _ _ _ _ (after_loop (f :: fs) l1 x [] l2 Hx) Hr) as [Hv ->].
      eapply valid_new_wf; [done..|].
      change (x :: [] ++ (f :: fs) ++ l2)%list with ([x] ++ (f :: fs) ++ l2)%list.
      change (x :: l2) with ([x] ++ l2)%list. rewrite !names_app, (app_assoc (filterNames l1) (filterNames [x])).
      rewrite (app_assoc (filterNames l1) _ (filterNames l2)). apply Permutation_app_swap_app.
  - exfalso. destruct before; unfold RegisterFiltersBefore, RegisterFiltersAfter in Hr; simpl in Hr;
      destruct (validateFilters api [f]) as [[]| |]; try done; simpl in Hr;
      [destruct (proj1 (relatively_missing api name f (fun p => p) Hout)) as [m Hm]
      |destruct (proj1 (relatively_missing api name f (fun p => p + 1 + 0)%Z Hout)) as [m Hm]];
      by rewrite Hm in Hr.
Qed.

(** ** Plugins *)
Variable glob_compile : string -> option (string -> bool).
Definition suffix (op : PluginOp) : string := (segment_of op).1.1.
#[local] Instance suffix_inj : Inj (=) (=) suffix.
Proof. intros [] []; (reflexivity || discriminate). Qed.

Definition op_names (plug : Plugin) (ops : list PluginOp) : list string :=
  map (fun op => PluginName plug ++ suffix op)
    (List.filter (fun op => bool_decide (is_Some (implements plug op))) ops).

Lemma decompose_names plug : filterNames (decomposePlugin glob_compile plug) = op_names plug plugin_ops.
Proof.
  unfold decomposePlugin, op_names. induction plugin_ops as [|op ops IH]; [done|].
  cbn [omap list_omap List.filter]. destruct (implements plug op) as [m|] eqn:E; simpl; [|exact IH].
  unfold suffix. destruct (segment_of op) as [[sf me] pa] eqn:Es. simpl. f_equal. exact IH.
Qed.

Lemma plugin_names plug n :
  n ∈ filterNames (decomposePlugin glob_compile plug) ->
  n <> "" /\ Strings.has_prefix n (PluginName plug ++ ":") = true.
Proof.
  rewrite decompose_names. unfold op_names. intros (op & -> & _)%list_elem_of_fmap. split.
  - apply Strings.app_nonempty_r. by destruct op.
  - assert (exists t, suffix op = ":" ++ t) as [t ->] by (destruct op; eexists; reflexivity).
    rewrite <- Strings.app_assoc. apply Strings.has_prefix_app.
Qed.

Lemma plugin_names_nodup plug : NoDup (filterNames (decomposePlugin glob_compile plug)).
Proof.
  rewrite decompose_names. apply NoDup_fmap_2.
  - intros a b Hab. apply Strings.app_inj_l in Hab. by apply suffix_inj.
  - apply NoDup_ListNoDup, List.NoDup_filter, NoDup_ListNoDup. by apply (bool_decide_unpack _).
Qed.

Lemma decompose_or_die plug segs :
  decomposePluginOrDie glob_compile plug = Ok segs -> segs = decomposePlugin glob_compile plug.
Proof. unfold decomposePluginOrDie. destruct (decomposePlugin _ _); by intros [= <-]. Qed.

Lemma relatively_perm api name f api' :
  registerFilterRelatively api name f (fun p => p) = Ok api' ->
  filterNames api' ≡ₚ Name f :: filterNames api.
Proof.
  destruct (decide (name ∈ filterNames api)) as [Hin|Hout].
  - destruct (first_split _ _ Hin) as (l1 & x & l2 & -> & <- & Hx).
    rewrite (relatively_split false l1 x l2 f (fun p => p) [] (x :: l2)) by (try done; by rewrite app_nil_r).
    intros [= <-]. simpl. rewrite !names_app. simpl. symmetry. apply Permutation_middle.
  - rewrite (proj2 (relatively_missing api name f (fun p => p) Hout)). intros [= <-].
    rewrite names_app, (Permutation_app_comm (filterNames api)). done.
Qed.

Lemma segments_perm name segs api api' :
  fold_result (fun api f => registerFilterRelatively api name f (fun p => p)) api segs = Ok api' ->
  filterNames api' ≡ₚ (filterNames segs ++ filterNames api)%list.
Proof.
  revert api. induction segs as [|f segs IH]; intros api; simpl; [by intros [= <-]|].
  intros (api1 & H1 & H2)%bind_ok. rewrite (IH _ H2), (relatively_perm _ _ _ _ H1). symmetry.
  apply Permutation_middle.
Qed.

Lemma fresh_plugin_wf api plug api' :
  wf_api api -> StringsAnyPrefix (filterNames api) (PluginName plug ++ ":") = false ->
  filterNames api' ≡ₚ (filterNames (decomposePlugin glob_compile plug) ++ filterNames api)%list -> wf_api api'.
Proof.
  intros Hwf Hpre Hp. apply any_prefix_false in Hpre. rewrite Forall_forall in Hpre. eapply wf_add; [done|..|done].
  - apply plugin_names_nodup.
  - intros H. by apply plugin_names in H as [].
  - intros n Hn Hin. apply plugin_names in Hn as [_ Hn]. rewrite (Hpre _ Hin) in Hn. done.
Qed.

Lemma plugins_wf (before : option string) api plugins api' :
  wf_api api ->
  match before with
  | Some name => RegisterPluginsBefore glob_compile api name plugins
  | None => RegisterPlugins glob_compile api plugins
  end = Ok api' -> wf_api api'.
Proof.
  intros Hwf. destruct before as [name|]; apply fold_result_inv; try done; intros a plug a' _ Ha.
  - destruct (String.eqb _ ""); [done|]. destruct (StringsAnyPrefix _ _) eqn:Hp; [done|].
    intros (segs & ->%decompose_or_die & Hf)%bind_ok. eapply fresh_plugin_wf; [done..|]. by eapply segments_perm.
  - destruct (StringsAnyPrefix _ _) eqn:Hp; [done|].
    intros (segs & ->%decompose_or_die & [= <-])%bind_ok. eapply fresh_plugin_wf; [done..|].
    rewrite names_app. apply Permutation_app_comm.
Qed.

(** ** Histories of registrations *)
Inductive api_op :=
  | OpRegister (fs : list Filter)
  | OpBefore (name : string) (fs : list Filter)
  | OpAfter (name : string) (fs : list Filter)
  | OpReplace (name : string) (f : Filter)
  | OpRemove (name : string)
  | OpPlugins (plugins : list Plugin)
  | OpPluginsBefore (name : string) (plugins : list Plugin).

Definition run_op api (op : api_op) : result (list Filter) :=
  match op with
  | OpRegister fs => RegisterFilters api fs
  | OpBefore name fs => RegisterFiltersBefore api name fs
  | OpAfter name fs => RegisterFiltersAfter api name fs
  | OpReplace name f => ReplaceFilter api name f
  | OpRemove name => RemoveFilter api name
  | OpPlugins plugins => RegisterPlugins glob_compile api plugins
  | OpPluginsBefore name plugins => RegisterPluginsBefore glob_compile api name plugins
  end.

(** [RegisterFilters] does not compare the filters it is given with each other. *)
Definition distinct_batch (op : api_op) : Prop :=
  match op with OpRegister fs => NoDup (filterNames fs) | _ => True end.

Lemma replace_remove_split api name (p := findFilterPosition api name) :
  (p <? 0)%Z = false ->
  exists l1 x l2, api = (l1 ++ x :: l2)%list /\ Name x = name /\ name ∉ filterNames l1 /\ Z.to_nat p = length l1.
Proof.
  intros Hp. destruct (find_from_spec 0 api name) as [[Hf _]|(l1 & x & l2 & ? & ? & ? & Hf)];
    unfold p, findFilterPosition in *; rewrite Hf in *; [done|].
  exists l1, x, l2. split_and!; try done. lia.
Qed.

Lemma run_op_wf api op api' : distinct_batch op -> wf_api api -> run_op api op = Ok api' -> wf_api api'.
Proof.
  intros Hd Hwf. destruct op as [fs|name fs|name fs|name f|name|plugins|name plugins]; simpl.
  - intros [(He & Hnew & Hc)%validateFilters_ok [= <-]]%bind_unit_ok. eapply wf_add; [done| |done|done|]; [done|].
    rewrite names_app. apply Permutation_app_comm.
  - by apply (relative_wf true).
  - by apply (relative_wf false).
  - unfold ReplaceFilter. intros [(He & Hnew & _)%validateFilters_ok Hr]%bind_unit_ok.
    destruct (_ <? 0)%Z eqn:Hp; [done|]. injection Hr as <-.
    destruct (replace_remove_split _ _ Hp) as (l1 & x & l2 & -> & _ & _ & ->).
    rewrite insert_app_r_alt by lia. rewrite Nat.sub_diag. simpl.
    assert (Hsub : wf_api (l1 ++ l2)).
    { eapply (wf_sub _ _ [Name x]); [exact Hwf|]. rewrite !names_app. simpl. symmetry. apply Permutation_middle. }
    eapply (wf_add _ [Name f]); [exact Hsub|apply NoDup_singleton|exact He| |].
    + intros n Hn Hin. apply (Hnew n Hn). rewrite !names_app in *. simpl.
      rewrite elem_of_app, elem_of_cons. rewrite elem_of_app in Hin. tauto.
    + rewrite !names_app. simpl. symmetry. apply Permutation_middle.
  - unfold RemoveFilter. destruct (_ <? 0)%Z eqn:Hp; [done|]. intros [= <-].
    destruct (replace_remove_split _ _ Hp) as (l1 & x & l2 & -> & _ & _ & ->).
    rewrite take_app_length. change (S (length l1)) with (1 + length l1)%nat. rewrite Nat.add_comm, <- drop_drop, drop_app_length. simpl. rewrite drop_0.
    eapply (wf_sub _ _ [Name x]); [exact Hwf|]. rewrite !names_app. simpl. symmetry. apply Permutation_middle.
  - by apply (plugins_wf None).
  - by apply (plugins_wf (Some name)).
Qed.

(** Whatever filters and plugins are registered, replaced and removed, in any order,
    every registered name is unique and not empty, provided each call of
    [RegisterFilters] is given filters with different names. *)
Theorem registry_names_unique ops api :
  Forall distinct_batch ops -> fold_result run_op [] ops = Ok api -> wf_api api.
Proof.
  intros Hd. rewrite Forall_forall in Hd. apply fold_result_inv; [|by split; [constructor|apply not_elem_of_nil]].
  intros a op a' Hin. by apply run_op_wf, Hd.
Qed.

(** [RegisterFilters] compares new filters with the registered ones only: given the
    same filter twice in one call it registers both, and removing the filter by name
    afterwards leaves the other in place. *)
Theorem register_filters_misses_duplicates api f :
  validateFilters api [f] = Ok tt ->
  RegisterFilters api [f; f] = Ok (api ++ [f; f])%list /\ ~ wf_api (api ++ [f; f]) /\
  RemoveFilter (api ++ [f; f]) (Name f) = Ok (api ++ [f])%list.
Proof.
  rewrite validateFilters_ok. intros (He & Hnew & Hc).
  assert (Hn : Name f ∉ filterNames api) by (apply Hnew; by left). split; [|split].
  - unfold RegisterFilters. replace (validateFilters api [f; f]) with (Ok tt); [done|]. symmetry.
    apply validateFilters_ok. simpl in *. inversion Hc; subst. split; [|split; [|by repeat constructor]].
    + rewrite !not_elem_of_cons in *. tauto.
    + intros n. rewrite !elem_of_cons, elem_of_nil. intros [->|[->|[]]]; done.
  - intros [Hd _]. rewrite names_app in Hd. apply NoDup_app in Hd as (_ & _ & Hd).
    apply NoDup_cons in Hd as [Hd _]. apply Hd. by left.
  - unfold RemoveFilter. rewrite (find_split api f [f]) by done.
    destruct (Z.ltb_spec (Z.of_nat (length api)) 0); [lia|]. rewrite Nat2Z.id, take_app_length.
    change (S (length api)) with (1 + length api)%nat. rewrite Nat.add_comm, <- drop_drop, drop_app_length. done.
Qed.
End Registry.

(** ** Witnesses: filters that write their names into a trace *)
Definition trace_filter (name : string) : WebFilters.Filter Endpoint string (list string) :=
  {| Name := name; FilterMatchers := [{| Matchers := [Methods ["GET"]] |}];
     Run := fun r next s => next r (s ++ [name])%list |}.
Definition deny_filter (name : string) : WebFilters.Filter Endpoint string (list string) :=
  {| Name := name; FilterMatchers := [];
     Run := fun r next s => ((s ++ [name])%list, Ok "denied") |}.
Definition trace_pre (f : WebFilters.Filter Endpoint string (list string)) (r : Endpoint) (s : list string) :=
  (r, (s ++ [Name f])%list).
Definition get_endpoint : Endpoint := {| Method := "GET"; Path_ := "/v1/platforms" |}.
Definition trace_handler : WebFilters.Handler Endpoint string (list string) :=
  fun r s => ((s ++ ["handler"])%list, Ok "done").

Lemma chain_matching_runs_in_order_witness :
  exists h, ChainMatching [trace_filter "a"; trace_filter "b"; deny_filter "c"; trace_filter "d"]
      {| Endpoint_ := get_endpoint; Handler_ := trace_handler |} = Ok h /\
    h get_endpoint [] = (["a"; "b"; "c"], Ok "denied").
Proof.
  destruct (chain_matching_runs_in_order trace_pre
    [trace_filter "a"; trace_filter "b"; deny_filter "c"; trace_filter "d"]
    {| Endpoint_ := get_endpoint; Handler_ := trace_handler |} get_endpoint []) as (h & Hh & _ & Hans).
  { repeat apply List.Forall_cons; try apply List.Forall_nil; repeat constructor; eexists; reflexivity. }
  exists h. split; [exact Hh|].
  refine (Hans [trace_filter "a"; trace_filter "b"] (deny_filter "c") [trace_filter "d"]
    (fun _ s => ((s ++ ["c"])%list, Ok "denied")) eq_refl _ _).
  - repeat constructor.
  - intros r next s. reflexivity.
Defined.

Lemma register_next_to_witness :
  outcome (valid_new [trace_filter "a"; trace_filter "b"] [trace_filter "x"; trace_filter "y"])
    (RegisterFiltersBefore [trace_filter "a"; trace_filter "b"] "b" [trace_filter "x"; trace_filter "y"])
    [trace_filter "a"; trace_filter "x"; trace_filter "y"; trace_filter "b"] /\
  RegisterFiltersBefore [trace_filter "a"; trace_filter "b"] "b" [trace_filter "x"; trace_filter "y"] =
    Ok [trace_filter "a"; trace_filter "x"; trace_filter "y"; trace_filter "b"].
Proof.
  split; [|vm_compute; reflexivity].
  apply (register_next_to [trace_filter "x"; trace_filter "y"] [trace_filter "a"; trace_filter "b"]
    [trace_filter "a"] (trace_filter "b") []); [reflexivity|].
  intros Hin. apply list_elem_of_singleton in Hin. discriminate Hin.
Defined.

Definition sample_glob (pattern : string) : option (string -> bool) := Some (String.eqb pattern).
Definition sample_plugin : @Plugin Endpoint string (list string) :=
  {| PluginName := "p"; implements := fun op =>
       if decide (op = Bind) then Some (fun r next s => next r s) else None |}.
Definition sample_ops : list (@api_op Endpoint string (list string)) :=
  [OpRegister [trace_filter "a"; trace_filter "b"]; OpPlugins [sample_plugin]; OpAfter "a" [trace_filter "c"];
   OpReplace "b" (trace_filter "d"); OpRemove "a"].

Lemma registry_names_unique_witness :
  exists api, fold_result (run_op sample_glob) [] sample_ops = Ok api /\
    filterNames api = ["c"; "d"; "p:Bind"] /\ wf_api api.
Proof.
  eexists. split; [vm_compute; reflexivity|]. split; [vm_compute; reflexivity|].
  eapply (registry_names_unique sample_glob sample_ops); [|vm_compute; reflexivity].
  repeat apply List.Forall_cons; try exact I; [|apply List.Forall_nil].
  apply (bool_decide_unpack _). vm_compute. exact I.
Defined.

Lemma register_filters_misses_duplicates_witness :
  RegisterFilters [] [trace_filter "a"; trace_filter "a"] = Ok [trace_filter "a"; trace_filter "a"].
Proof. apply (register_filters_misses_duplicates [] (trace_filter "a")). vm_compute. reflexivity. Defined.
