(* ===== verification/OperationTypes.v ===== *)
(** * Operations (pkg/types/operation.go, operartion_utils.go) and the operation
    settings (operations/config.go)

    Times and durations are integers (nanoseconds); the zero [time.Time] is [None].
    [Errors] is JSON: an HTTP error with its type and description, or the errors collected
    from the operations below a failed one; an empty message is [None]. *)

From S2P Require Import Prelude GoStd Errors Query.
From stdpp Require Import base gmap strings list.
From Stdlib Require Import ZArith Ascii.
Local Open Scope string_scope.

(** The object types the code names (the URLs of pkg/web/routes.go). *)
Definition OperationType : string := "/v1/operations".
Definition ServiceBindingType : string := "/v1/service_bindings".
Definition ServiceInstanceType : string := "/v1/service_instances".

Inductive OperationCategory := CREATE | UPDATE | DELETE | OtherCategory (name : string).
Inductive OperationState := PENDING | SUCCEEDED | IN_PROGRESS | FAILED | OtherState (name : string).
#[global] Instance OperationCategory_eq_dec : EqDecision OperationCategory.
Proof. solve_decision. Defined.
#[global] Instance OperationState_eq_dec : EqDecision OperationState.
Proof. solve_decision. Defined.

Definition category_string (c : OperationCategory) : string :=
  match c with CREATE => "create" | UPDATE => "update" | DELETE => "delete" | OtherCategory s => s end.
Definition state_string (s : OperationState) : string :=
  match s with
  | PENDING => "pending" | SUCCEEDED => "succeeded" | IN_PROGRESS => "in progress"
  | FAILED => "failed" | OtherState s => s
  end.

(** [Criteria] is an [interface{}]: nil, or the criteria of a deletion. *)
Record RelatedType := {
  rel_ID : string; rel_Criteria : option (list Query.Criteria.Criterion); rel_Type : string;
  rel_OperationType : OperationCategory
}.

(** The JSON kept in [Errors]; [cascade.Error] and [cascade.CascadeErrors]. *)
Inductive errors_json :=
  | HTTPErrorJSON (etype descr : string)
  | CascadeErrorsJSON (errs : list cascade_error)
with cascade_error :=
  | CascadeError (parentType parentID resourceType resourceID : string) (message : errors_json).

Record UserInfo := { user_Platform : string; user_Info : string }.

Record OperationContext := {
  Async : bool; IsAsyncNotDefined : bool; Cascade : bool; ServicePlanID : string;
  ServiceInstanceID : string; UserInfo_ : option UserInfo; Params : gmap string string
}.

Record Operation := {
  ID : string;
  CreatedAt : Z;
  Labels_ : gmap string (list string);
  Ready : bool;
  Description_ : string;
  Type_ : OperationCategory;
  State : OperationState;
  ResourceID : string;
  TransitiveResources : list RelatedType;
  ResourceType : string;
  Errors_ : option errors_json;
  PlatformID : string;
  CorrelationID : string;
  ExternalID : string;
  ParentID : string;
  CascadeRootID : string;
  Context_ : option OperationContext;
  Reschedule : bool;
  RescheduleTimestamp : option Z;
  DeletionScheduled : option Z
}.

(** The assignments [op.State = ...] and the like. *)
Definition with_state (op : Operation) (st : OperationState) (errs : option errors_json)
    (deletion : option Z) (transitive : list RelatedType) : Operation :=
  {| ID := ID op; CreatedAt := CreatedAt op; Labels_ := Labels_ op; Ready := Ready op;
     Description_ := Description_ op; Type_ := Type_ op; State := st; ResourceID := ResourceID op;
     TransitiveResources := transitive; ResourceType := ResourceType op; Errors_ := errs;
     PlatformID := PlatformID op; CorrelationID := CorrelationID op; ExternalID := ExternalID op;
     ParentID := ParentID op; CascadeRootID := CascadeRootID op; Context_ := Context_ op;
     Reschedule := Reschedule op; RescheduleTimestamp := RescheduleTimestamp op;
     DeletionScheduled := deletion |}.
Definition set_State (op : Operation) (st : OperationState) : Operation :=
  with_state op st (Errors_ op) (DeletionScheduled op) (TransitiveResources op).
Definition set_Errors (op : Operation) (errs : option errors_json) : Operation :=
  with_state op (State op) errs (DeletionScheduled op) (TransitiveResources op).
Definition set_DeletionScheduled (op : Operation) (t : option Z) : Operation :=
  with_state op (State op) (Errors_ op) t (TransitiveResources op).
Definition set_TransitiveResources (op : Operation) (l : list RelatedType) : Operation :=
  with_state op (State op) (Errors_ op) (DeletionScheduled op) l.

Definition reservedSymbolsRFC3986 : string := ":/?#[]@!$&'()*+,;=".
Fixpoint contains_any (s chars : string) : bool :=
  match s with
  | EmptyString => false
  | String c s' => Strings.contains_byte chars c || contains_any s' chars
  end.
Definition HasRFC3986ReservedSymbols (input : string) : bool := contains_any input reservedSymbolsRFC3986.

Definition InOrphanMitigationState (e : Operation) : bool := bool_decide (is_Some (DeletionScheduled e)).

(** [Operation.Validate]. *)
Definition Operation_Validate (e : Operation) : result unit :=
  guard_err (HasRFC3986ReservedSymbols (ID e)) (EPlain (ID e ++ " contains invalid character(s)")) ;;;
  guard_err (String.eqb (category_string (Type_ e)) "") (EPlain "missing operation type") ;;;
  guard_err (String.eqb (state_string (State e)) "") (EPlain "missing operation state") ;;;
  guard_err (String.eqb (ResourceID e) "") (EPlain "missing resource id") ;;;
  guard_err (String.eqb (ResourceType e) "") (EPlain "missing resource type") ;;;
  guard_err (bool_decide (State e = PENDING) && String.eqb (CascadeRootID e) "")
    (EPlain "PENDING state only allowed for cascade operations") ;;;
  guard_err (negb (String.eqb (CascadeRootID e) "") && String.eqb (ParentID e) "" &&
             negb (String.eqb (CascadeRootID e) (ID e)))
    (EPlain "root operation should have the same CascadeRootID and ID").

Definition IsForceDeleteCascadeOperation (e : Operation) : bool :=
  let hasForceLabel := match Labels_ e !! "force" with
                       | Some (v :: _) => String.eqb v "true"
                       | _ => false
                       end in
  bool_decide (Type_ e = DELETE) && negb (String.eqb (CascadeRootID e) "") && hasForceLabel.

(** [Sanitize] on a non-nil operation. *)
Definition Sanitize (e : Operation) : Operation :=
  {| ID := ID e; CreatedAt := CreatedAt e; Labels_ := Labels_ e; Ready := Ready e;
     Description_ := Description_ e; Type_ := Type_ e; State := State e; ResourceID := ResourceID e;
     TransitiveResources := TransitiveResources e; ResourceType := ResourceType e; Errors_ := Errors_ e;
     PlatformID := PlatformID e; CorrelationID := CorrelationID e; ExternalID := ExternalID e;
     ParentID := ParentID e; CascadeRootID := CascadeRootID e; Context_ := None;
     Reschedule := Reschedule e; RescheduleTimestamp := RescheduleTimestamp e;
     DeletionScheduled := DeletionScheduled e |}.

(** [e.Context.Async] dereferences the context. *)
Definition IsAsyncResponse (e : Operation) : result bool :=
  match Context_ e with Some c => Ok (Async c) | None => Panic "nil pointer dereference" end.
Definition GetUserInfo (e : Operation) : option UserInfo := Context_ e ≫= UserInfo_.

(** ** Settings *)
Record PoolSettings := { Resource : string; Size : Z }.
Record Settings := {
  ActionTimeout : Z; ReconciliationOperationTimeout : Z; CascadeOrphanMitigationTimeout : Z;
  PollCascadeInterval : Z; CleanupInterval : Z; MaintainerRetryInterval : Z;
  DeleteOperationsBatchSize : Z; Lifespan : Z; ReschedulingInterval : Z;
  ReschedulingLongInterval : Z; PollingInterval : Z; DefaultPoolSize : Z;
  DefaultCascadePollingPoolSize : Z; Pools : list PoolSettings;
  SMSupportedPlatformType : list string
}.

Definition minTimePeriod : Z := 1.
Definition Second : Z := 1000000000.
Definition Minute : Z := 60 * Second.
Definition Hour : Z := 60 * Minute.

Definition DefaultSettings : Settings :=
  {| ActionTimeout := 15 * Minute; ReconciliationOperationTimeout := 7 * 24 * Hour;
     CascadeOrphanMitigationTimeout := 6 * Hour; PollCascadeInterval := 4 * Second;
     CleanupInterval := 1 * Hour; MaintainerRetryInterval := 10 * Minute;
     DeleteOperationsBatchSize := 1000; Lifespan := 7 * 24 * Hour;
     ReschedulingInterval := 10 * Second; ReschedulingLongInterval := 1 * Hour;
     PollingInterval := 4 * Second; DefaultPoolSize := 20; DefaultCascadePollingPoolSize := 20;
     Pools := []; SMSupportedPlatformType := ["service-manager"] |}.

Definition PoolSettings_Validate (ps : PoolSettings) : result unit :=
  guard_err (Size ps <=? 0)%Z
    (EPlain ("validate Settings: Pool size for resource '" ++ Resource ps ++ "' must be larger than 0")).

Definition period_error (field : string) : error :=
  EPlain ("validate Settings: " ++ field ++ " must be larger than 1ns").
Definition Settings_Validate (s : Settings) : result unit :=
  guard_err (ActionTimeout s <=? minTimePeriod)%Z (period_error "ActionTimeout") ;;;
  guard_err (CleanupInterval s <=? minTimePeriod)%Z (period_error "CleanupInterval") ;;;
  guard_err (ReconciliationOperationTimeout s <=? minTimePeriod)%Z
    (period_error "ReconciliationOperationTimeout") ;;;
  guard_err (ReschedulingInterval s <=? minTimePeriod)%Z (period_error "ReschedulingInterval") ;;;
  guard_err (PollingInterval s <=? minTimePeriod)%Z (period_error "PollingInterval") ;;;
  guard_err (MaintainerRetryInterval s <=? minTimePeriod)%Z (period_error "MaintainerRetryInterval") ;;;
  guard_err (DefaultPoolSize s <=? 0)%Z
    (EPlain "validate Settings: DefaultPoolSize must be larger than 0") ;;;
  guard_err (DefaultCascadePollingPoolSize s <=? 0)%Z
    (EPlain "validate Settings: DefaultCascadePollingPoolSize must be larger than 0") ;;;
  for_each PoolSettings_Validate (Pools s).

(** ** Facts used by the scheduler *)
Lemma Operation_Validate_ok e :
  Operation_Validate e = Ok tt <->
  HasRFC3986ReservedSymbols (ID e) = false /\ category_string (Type_ e) <> "" /\
  state_string (State e) <> "" /\ ResourceID e <> "" /\ ResourceType e <> "" /\
  (State e = PENDING -> CascadeRootID e <> "") /\
  (CascadeRootID e <> "" -> ParentID e = "" -> CascadeRootID e = ID e).
Proof.
  unfold Operation_Validate. rewrite !bind_unit_ok, !guard_err_ok, !String.eqb_neq.
  rewrite !andb_false_iff, bool_decide_eq_false, !negb_false_iff, !String.eqb_eq, !String.eqb_neq.
  destruct (decide (State e = PENDING)), (decide (CascadeRootID e = "")), (decide (ParentID e = "")),
    (decide (CascadeRootID e = ID e)); naive_solver.
Qed.

Lemma no_panic_validate e : no_panic (Operation_Validate e).
Proof. unfold Operation_Validate. repeat (apply no_panic_bind; [auto with sm|intros _ _]). auto with sm. Qed.
#[export] Hint Resolve no_panic_validate : sm.

Lemma default_settings_valid : Settings_Validate DefaultSettings = Ok tt.
Proof. reflexivity. Qed.
