(* ===== verification/Cascade.v ===== *)
(** * Cascade deletion: the tree of operations (pkg/types/cascade, operations/cascade_utils.go)

    Deleting a tenant, platform, broker or instance in cascade creates one pending
    operation per object below it.  Of an object the model keeps what the traversal
    reads.  The repository's [List], the source of UUIDs, the clock and the order in which
    Go ranges over a map are parameters; the last three are indexed by a counter that the
    traversal advances, so two iterations over a map may differ.  The recursion takes the
    depth of the stack: deeper calls end the process, as a stack overflow does. *)

From S2P Require Import Prelude GoStd Errors Query OperationTypes.
From stdpp Require Import base gmap strings list.
From Stdlib Require Import ZArith.
Import Operators Criteria.
Local Open Scope string_scope.

Definition TenantType : string := "/v1/tenants".
Definition PlatformType : string := "/v1/platforms".
Definition ServiceBrokerType : string := "/v1/service_brokers".
Definition ServiceOfferingType : string := "/v1/service_offerings".
Definition ServicePlanType : string := "/v1/service_plans".
Definition SMPlatform : string := "service-manager".
Definition ReferencedInstanceIDKey : string := "referenced_instance_id".

Definition IsVirtualType (objectType : string) : bool := String.eqb objectType TenantType.

(** A service offering with the ids of its plans. *)
Record ServiceOffering := { so_ID : string; so_Plans : list string }.

Inductive object :=
  | Tenant (id tenantIdentifier : string)
  | Platform (id : string)
  | ServiceBroker (id : string) (services : list ServiceOffering)
  | ServiceInstance (id servicePlanID platformID : string)
  | OfferingObject (o : ServiceOffering)
  | PlanObject (id : string)
  | OtherObject (type id : string).
#[global] Instance ServiceOffering_eq_dec : EqDecision ServiceOffering.
Proof. solve_decision. Defined.
#[global] Instance object_eq_dec : EqDecision object.
Proof. solve_decision. Defined.

Definition GetType (o : object) : string :=
  match o with
  | Tenant _ _ => TenantType | Platform _ => PlatformType | ServiceBroker _ _ => ServiceBrokerType
  | ServiceInstance _ _ _ => ServiceInstanceType | OfferingObject _ => ServiceOfferingType
  | PlanObject _ => ServicePlanType | OtherObject t _ => t
  end.
Definition GetID (o : object) : string :=
  match o with
  | Tenant id _ | Platform id | ServiceBroker id _ | ServiceInstance id _ _
  | PlanObject id | OtherObject _ id => id
  | OfferingObject o => so_ID o
  end.
Definition NewTenant (id tenantIdentifier : string) : object := Tenant id tenantIdentifier.

Notation ChildrenCriterion := (gmap string (list (list Criterion))).
Notation CascadeChildren := (gmap string (list object)).

(** A failed type assertion. *)
Definition bad_assertion {A} : result A := Panic "interface conversion".

Inductive CascadeObject :=
  | TenantCascade (id tenantIdentifier : string)
  | PlatformCascade (id : string)
  | ServiceBrokerCascade (services : list ServiceOffering)
  | ServiceInstanceCascade (id : string) (parentInstanceLabelKeys : list string).

(** The sub-query for the instances whose labels name a parent, with its parameters filled
    in by [GetSubQueryWithParams]. *)
Definition QueryForInstanceChildrenByLabel (parent_keys parent_id : string) : string :=
  " SELECT 1 FROM service_instances i INNER JOIN service_instance_labels l ON i.id = l.service_instance_id WHERE  l.key IN ("
  ++ parent_keys ++ ") AND l.val = '" ++ parent_id ++ "' AND i.id = service_instances.id".

Definition tenant_children (id ident : string) : ChildrenCriterion :=
  <[PlatformType := [[ByLabel EqualsOperator ident [id]]]]>
  (<[ServiceBrokerType := [[ByLabel EqualsOperator ident [id]]]]>
  {[ServiceInstanceType := [[ByLabel EqualsOperator ident [id]]]]}).
Definition platform_children (id : string) : ChildrenCriterion :=
  {[ServiceInstanceType := [[ByField EqualsOperator "platform_id" [id]]]]}.
Definition broker_children (services : list ServiceOffering) : ChildrenCriterion :=
  let planIDs := services ≫= so_Plans in
  {[ServiceInstanceType := [[ByField InOperator "service_plan_id" planIDs]]]}.
Definition instance_children (id : string) (parentInstanceLabelKeys : list string) : ChildrenCriterion :=
  let byReference := [ByField EqualsOperator ReferencedInstanceIDKey [id]] in
  let subQuery := QueryForInstanceChildrenByLabel ("'" ++ Strings.join "','" parentInstanceLabelKeys ++ "'") id in
  <[ServiceBindingType := [[ByField EqualsOperator "service_instance_id" [id]]]]>
  {[ServiceInstanceType :=
      byReference :: (if (0 <? length parentInstanceLabelKeys)%nat then [[ByExists subQuery]] else [])]}.
Definition GetChildrenCriterion (c : CascadeObject) : ChildrenCriterion :=
  match c with
  | TenantCascade id ident => tenant_children id ident
  | PlatformCascade id => platform_children id
  | ServiceBrokerCascade services => broker_children services
  | ServiceInstanceCascade id keys => instance_children id keys
  end.

(** The plans of the brokers and the ids of the platforms among the children. *)
Fixpoint broker_plans (brokers : list object) : result (list string) :=
  match brokers with
  | [] => Ok []
  | ServiceBroker _ services :: rest => let* l := broker_plans rest in Ok ((services ≫= so_Plans) ++ l)%list
  | _ :: _ => bad_assertion
  end.
Fixpoint filter_instances (plans platforms : gset string) (instances : list object) : result (list object) :=
  match instances with
  | [] => Ok []
  | ServiceInstance id plan platform :: rest =>
      let* l := filter_instances plans platforms rest in
      Ok (if bool_decide (plan ∈ plans) || bool_decide (platform ∈ platforms)
          then l else ServiceInstance id plan platform :: l)
  | _ :: _ => bad_assertion
  end.
(** [TenantCascade.CleanDuplicates]: it changes the map of children. *)
Definition CleanDuplicates (children : CascadeChildren) : result CascadeChildren :=
  match children !! ServiceInstanceType with
  | None | Some [] => Ok children
  | Some instances =>
      let* plans := broker_plans (default [] (children !! ServiceBrokerType)) in
      let platforms := map GetID (default [] (children !! PlatformType)) in
      let* filtered := filter_instances (list_to_set plans) (list_to_set platforms) instances in
      Ok (<[ServiceInstanceType := filtered]> children)
  end.

(** Only the tenant has a cleaner. *)
Definition removeDuplicateSubOperations (c : CascadeObject) (children : CascadeChildren) : result CascadeChildren :=
  match c with TenantCascade _ _ => CleanDuplicates children | _ => Ok children end.

Section Cascade.
(** The value of [ParentInstanceLabelKeys] in the context. *)
Variable parentInstanceLabelKeys : list string.

Definition GetCascadeObject (o : object) : result (option CascadeObject) :=
  match o with
  | Tenant id ident => Ok (Some (TenantCascade id ident))
  | Platform id => Ok (Some (PlatformCascade id))
  | ServiceBroker _ services => Ok (Some (ServiceBrokerCascade services))
  | ServiceInstance id _ _ => Ok (Some (ServiceInstanceCascade id parentInstanceLabelKeys))
  | OfferingObject _ | PlanObject _ => Ok None
  | OtherObject t _ =>
      if bool_decide (t ∈ [TenantType; PlatformType; ServiceBrokerType; ServiceInstanceType])
      then bad_assertion else Ok None
  end.

Variable storage_List : string -> list Criterion -> result (list object).

(** The inner loop of [ListCascadeChildren], for one type. *)
Fixpoint list_disjunction (childType : string) (criterionDisjunction : list (list Criterion))
    (children : CascadeChildren) : result CascadeChildren :=
  match criterionDisjunction with
  | [] => Ok children
  | criterionConjunction :: rest =>
      let* childrenList := storage_List childType criterionConjunction in
      list_disjunction childType rest
        (<[childType := (default [] (children !! childType) ++ childrenList)%list]> children)
  end.

(** [for _, service := range serviceOfferings]. *)
Fixpoint plan_ids (plans : list object) : result (list string) :=
  match plans with
  | [] => Ok []
  | PlanObject id :: rest => let* l := plan_ids rest in Ok (id :: l)
  | _ :: _ => bad_assertion
  end.
Fixpoint enrich_offerings (services : list ServiceOffering) (offerings : list object)
    : result (list ServiceOffering) :=
  match offerings with
  | [] => Ok services
  | OfferingObject so :: rest =>
      let* plans := storage_List ServicePlanType [ByField EqualsOperator "service_offering_id" [so_ID so]] in
      let* ids := plan_ids plans in
      enrich_offerings (services ++ [{| so_ID := so_ID so; so_Plans := so_Plans so ++ ids |}])%list rest
  | _ :: _ => bad_assertion
  end.
(** The broker it changes through the pointer. *)
Definition EnrichBrokersOfferings (brokerObj : object) : result object :=
  match brokerObj with
  | ServiceBroker id services =>
      let* offerings := storage_List ServiceOfferingType [ByField EqualsOperator "broker_id" [id]] in
      let* services := enrich_offerings services offerings in
      Ok (ServiceBroker id services)
  | _ => bad_assertion
  end.
Fixpoint enrich_brokers (brokers : list object) : result (list object) :=
  match brokers with
  | [] => Ok []
  | b :: rest => let* b := EnrichBrokersOfferings b in let* l := enrich_brokers rest in Ok (b :: l)
  end.

(** The order in which the [n]-th iteration over a map visits its keys. *)
Variable range_order : nat -> list string -> list string.
Definition range_keys {A} (n : nat) (m : gmap string A) : list string := range_order n (map fst (map_to_list m)).

Definition ListCascadeChildren (n : nat) (criterion : ChildrenCriterion) : result CascadeChildren :=
  fold_result (fun children childType => list_disjunction childType (default [] (criterion !! childType)) children)
    ∅ (range_keys n criterion).

Definition GetObjectChildren (n : nat) (o : object) : result CascadeChildren :=
  let* c := GetCascadeObject o in
  match c with
  | None => Ok ∅
  | Some c =>
      let* children := ListCascadeChildren n (GetChildrenCriterion c) in
      let* children :=
        match children !! ServiceBrokerType with
        | Some brokers => let* bs := enrich_brokers brokers in Ok (<[ServiceBrokerType := bs]> children)
        | None => Ok children
        end in
      removeDuplicateSubOperations c children
  end.

Variable uuid_NewV4 : nat -> result string.
Variable time_Now : nat -> Z.

Definition makeCascadeOperationForChild (n : nat) (o : object) (operation : Operation) : result Operation :=
  let* uuid := uuid_NewV4 n in
  Ok {| ID := uuid; CreatedAt := time_Now n; Labels_ := Labels_ operation; Ready := true; Description_ := "";
        Type_ := DELETE; State := PENDING; ResourceID := GetID o; TransitiveResources := [];
        ResourceType := GetType o; Errors_ := None; PlatformID := PlatformID operation;
        CorrelationID := CorrelationID operation; ExternalID := ""; ParentID := ID operation;
        CascadeRootID := CascadeRootID operation; Context_ := None; Reschedule := false;
        RescheduleTimestamp := None; DeletionScheduled := None |}.

(** The loop over the children; [descend] is the recursive call. *)
Fixpoint visit_children (descend : nat -> object -> Operation -> result (list Operation * nat))
    (n : nat) (children : list object) (operation : Operation) : result (list Operation * nat) :=
  match children with
  | [] => Ok ([], n)
  | child :: rest =>
      let* childOperation := makeCascadeOperationForChild n child operation in
      let* (childrenSubOperations, n1) := descend (S n) child childOperation in
      let* (others, n2) := visit_children descend n1 rest operation in
      Ok ((childOperation :: childrenSubOperations) ++ others, n2)%list
  end.
Definition children_in_order (n : nat) (m : CascadeChildren) : list object :=
  range_keys n m ≫= (fun t => default [] (m !! t)).

Fixpoint recursiveGetAllLevelsCascadeOperations (depth n : nat) (o : object) (operation : Operation)
    : result (list Operation * nat) :=
  match depth with
  | 0 => Panic "stack overflow"
  | S depth =>
      let* mapOfChildren := GetObjectChildren n o in
      visit_children (recursiveGetAllLevelsCascadeOperations depth) (S (S n))
        (children_in_order (S n) mapOfChildren) operation
  end.

Definition GetAllLevelsCascadeOperations (depth n : nat) (o : object) (operation : Operation)
    : result (list Operation * nat) :=
  let* o := if String.eqb (GetType o) ServiceBrokerType then EnrichBrokersOfferings o else Ok o in
  recursiveGetAllLevelsCascadeOperations depth n o operation.

End Cascade.
