(* ===== verification/CascadeProps.v ===== *)
(** * Theorems on the tree of cascade operations

    The list the traversal returns is the pre-order listing of the complete deletion tree,
    whatever order Go ranges over the maps in; it is finite exactly for hierarchies without
    cycles; and cleaning the children of a tenant drops no instance from the tree. *)

From S2P Require Import Prelude GoStd Errors Query OperationTypes Cascade.
From stdpp Require Import base gmap strings list relations sets.
From Stdlib Require Import ZArith.
Import Operators Criteria.
Local Open Scope string_scope.

(** ** Trees *)
Inductive deletion_tree := Node (o : object) (op : Operation) (kids : list deletion_tree).
Definition root_object (t : deletion_tree) : object := match t with Node o _ _ => o end.
Fixpoint tree_operations (t : deletion_tree) : list Operation :=
  match t with Node _ op kids => op :: (kids ≫= tree_operations) end.

(** What an operation for a child takes over from the operation of its parent. *)
Definition child_operation (parent : Operation) (o : object) (op : Operation) : Prop :=
  Type_ op = DELETE /\ State op = PENDING /\ ResourceID op = GetID o /\ ResourceType op = GetType o /\
  ParentID op = ID parent /\ CascadeRootID op = CascadeRootID parent /\
  PlatformID op = PlatformID parent /\ CorrelationID op = CorrelationID parent /\
  Labels_ op = Labels_ parent /\ DeletionScheduled op = None /\ Errors_ op = None /\ Ready op = true.

Lemma tree_induction (P : deletion_tree -> Prop) :
  (forall o op kids, Forall P kids -> P (Node o op kids)) -> forall t, P t.
Proof.
  intros HN. fix IH 1. intros [o op kids]. apply HN. induction kids as [|k kids IHk]; constructor; [apply IH|apply IHk].
Qed.

Section Tree.
Variable keys : list string.
Variable storage_List : string -> list Criterion -> result (list object).
Variable range_order : nat -> list string -> list string.
Hypothesis range_permutes : forall n l, range_order n l ≡ₚ l.

Local Abbreviation children_of := (GetObjectChildren keys storage_List range_order).

(** *** The children do not depend on the order of the iteration *)
Fixpoint listed (t : string) (disj : list (list Criterion)) : result (list object) :=
  match disj with
  | [] => Ok []
  | c :: rest => let* l := storage_List t c in let* m := listed t rest in Ok (l ++ m)%list
  end.

Definition entry (crit : ChildrenCriterion) (t : string) (o : option (list object)) : Prop :=
  match default [] (crit !! t) with
  | [] => o = None
  | d => exists l, listed t d = Ok l /\ o = Some l
  end.

Lemma list_disjunction_spec t disj ch ch' :
  list_disjunction storage_List t disj ch = Ok ch' <->
  exists l, listed t disj = Ok l /\
    ch' = match disj with [] => ch | _ => <[t := (default [] (ch !! t) ++ l)%list]> ch end.
Proof.
  revert ch. induction disj as [|c rest IH]; intros ch; simpl.
  - split; [intros [= <-]; eauto|intros (l & ? & ->); done].
  - rewrite bind_ok. split.
    + intros (l & Hl & (m & Hm & ->)%IH). exists (l ++ m)%list. rewrite Hl. simpl. rewrite Hm. split; [done|].
      destruct rest; [simpl in Hm; simplify_eq; by rewrite app_nil_r|].
      by rewrite lookup_insert_eq, insert_insert_eq, (assoc_L (++)%list).
    + intros (lm & (l & Hl & (m & Hm & [= <-])%bind_ok)%bind_ok & ->). exists l. split; [done|].
      apply IH. exists m. split; [done|].
      destruct rest; [simpl in Hm; simplify_eq; by rewrite app_nil_r|].
      by rewrite lookup_insert_eq, insert_insert_eq, (assoc_L (++)%list).
Qed.

Lemma list_children_fold crit ks acc ch :
  NoDup ks -> (forall t, t ∈ ks -> acc !! t = None) ->
  fold_result (fun ch t => list_disjunction storage_List t (default [] (crit !! t)) ch) acc ks = Ok ch <->
  (forall t, t ∈ ks -> entry crit t (ch !! t)) /\ (forall t, t ∉ ks -> ch !! t = acc !! t).
Proof.
  revert acc. induction ks as [|k ks IH]; intros acc Hnd Hacc; simpl.
  - split; [intros [= <-]; set_solver|]. intros [_ Heq]. f_equal. apply map_eq. intros t. symmetry. apply Heq. set_solver.
  - apply NoDup_cons in Hnd as [Hk Hnd]. rewrite bind_ok. setoid_rewrite list_disjunction_spec.
    assert (Hk0 : acc !! k = None) by (apply Hacc; set_solver). unfold entry at 1. split.
    + intros (ch1 & (l & Hl & ->) & Hf). rewrite IH in Hf; [|done|].
      2:{ intros t Ht. case_match; [apply Hacc; set_solver|]. rewrite lookup_insert_ne by set_solver. apply Hacc. set_solver. }
      destruct Hf as [He Ho]. split.
      * intros t [->|Ht]%elem_of_cons; [|by apply He]. unfold entry. rewrite (Ho k Hk).
        destruct (default [] (crit !! k)) eqn:E; [done|]. exists l. rewrite lookup_insert_eq, Hk0. done.
      * intros t Ht. rewrite Ho by set_solver. case_match; [done|]. rewrite lookup_insert_ne by set_solver. done.
    + intros [He Ho]. pose proof (He k ltac:(set_solver)) as Hek. unfold entry in Hek.
      destruct (default [] (crit !! k)) as [|c d] eqn:E.
      * exists acc. split; [exists []; done|]. apply IH; [done|set_solver|]. split; [set_solver|].
        intros t Ht. destruct (decide (t = k)) as [->|]; [by rewrite Hek, Hk0|]. apply Ho. set_solver.
      * destruct Hek as (l & Hl & Hch). eexists. split; [by eauto|]. apply IH; [done| |].
        { intros t Ht. rewrite lookup_insert_ne by set_solver. apply Hacc. set_solver. }
        split; [set_solver|]. intros t Ht. destruct (decide (t = k)) as [->|].
        { by rewrite lookup_insert_eq, Hk0, Hch. }
        rewrite lookup_insert_ne by done. apply Ho. set_solver.
Qed.

Lemma range_keys_nodup {A} n (m : gmap string A) : NoDup (range_keys range_order n m).
Proof. unfold range_keys. rewrite range_permutes. apply NoDup_fst_map_to_list. Qed.
Lemma range_keys_elem {A} n (m : gmap string A) t : t ∈ range_keys range_order n m <-> is_Some (m !! t).
Proof.
  unfold range_keys. rewrite range_permutes. rewrite list_elem_of_fmap. split.
  - intros ([k x] & -> & Hk%elem_of_map_to_list). by eauto.
  - intros [x Hx]. exists (t, x). by rewrite elem_of_map_to_list.
Qed.

Lemma ListCascadeChildren_spec n crit ch :
  ListCascadeChildren storage_List range_order n crit = Ok ch <-> forall t, entry crit t (ch !! t).
Proof.
  unfold ListCascadeChildren. rewrite list_children_fold by (apply range_keys_nodup || (intros; apply lookup_empty)).
  setoid_rewrite range_keys_elem. split.
  - intros [H1 H2] t. destruct (crit !! t) eqn:E; [apply H1; by eauto|].
    unfold entry. rewrite E. simpl. rewrite H2; [apply lookup_empty|]. rewrite E. by intros [].
  - intros He. split; [by auto|]. intros t Ht. rewrite lookup_empty. specialize (He t). unfold entry in He.
    apply eq_None_not_Some in Ht. by rewrite Ht in He.
Qed.

Lemma children_order n n' o ch : children_of n o = Ok ch -> children_of n' o = Ok ch.
Proof.
  unfold GetObjectChildren. rewrite !bind_ok. intros (c & Hc & H). exists c. split; [done|].
  destruct c as [c|]; [|done]. rewrite !bind_ok in *. destruct H as (l & Hl & H). exists l. split; [|done].
  rewrite ListCascadeChildren_spec in *. done.
Qed.

(** An object directly below another. *)
Definition child_of (o c : object) : Prop :=
  exists n ch t l, children_of n o = Ok ch /\ ch !! t = Some l /\ c ∈ l.

Lemma child_in_order n m o c ch :
  children_of n o = Ok ch -> c ∈ children_in_order range_order m ch <-> child_of o c.
Proof.
  intros Hch. unfold children_in_order. rewrite list_elem_of_bind. split.
  - intros (t & Hc & [l Hl]%range_keys_elem). simpl in Hc. rewrite Hl in Hc. exists n, ch, t, l. done.
  - intros (n' & ch' & t & l & Hch' & Hl & Hc). apply (children_order n' n) in Hch'. assert (ch' = ch) as -> by congruence.
    exists t. simpl. rewrite Hl. split; [done|]. apply range_keys_elem. by eauto.
Qed.

(** The list of the objects below an object, in some order of its types. *)
Definition children_listed (o : object) (l : list object) : Prop :=
  exists n m ch, children_of n o = Ok ch /\ l = children_in_order range_order m ch.
Lemma children_listed_elem o l c : children_listed o l -> c ∈ l <-> child_of o c.
Proof. intros (n & m & ch & Hch & ->). by eapply child_in_order. Qed.

(** *** The operations are the tree *)
Fixpoint tree_of (parent : Operation) (t : deletion_tree) : Prop :=
  match t with
  | Node o op kids =>
      child_operation parent o op /\
      children_listed o (map root_object kids) /\
      foldr (fun k P => tree_of op k /\ P) True kids
  end.
Definition forest_of (parent : Operation) (kids : list deletion_tree) : Prop :=
  foldr (fun k P => tree_of parent k /\ P) True kids.

(** *** Parents and descendants *)
Lemma forest_forall parent kids : forest_of parent kids <-> Forall (tree_of parent) kids.
Proof. unfold forest_of. induction kids as [|k ks IH]; simpl; [by split; [constructor|]|]. by rewrite Forall_cons, IH. Qed.

(** Every operation of a tree is for the child of the resource of its parent. *)
Definition linked (root : object) (rootop : Operation) (before : list Operation) (op : Operation) : Prop :=
  exists po p c, child_operation p c op /\ child_of po c /\ rtc child_of root po /\
    ((p = rootop /\ po = root) \/ (p ∈ before /\ ResourceID p = GetID po /\ ResourceType p = GetType po)).

Lemma linked_weaken root rootop before before' op :
  (forall p, p ∈ before -> p ∈ before') -> linked root rootop before op -> linked root rootop before' op.
Proof.
  intros Hb (po & p & c & H1 & H2 & H3 & H4). exists po, p, c. split_and!; try done.
  destruct H4 as [?|(? & ? & ?)]; [by left|right]. auto.
Qed.
Lemma linked_below root rootop po p before op :
  child_of root po -> child_operation rootop po p ->
  linked po p before op -> linked root rootop (p :: before) op.
Proof.
  intros Hc (_ & _ & Hid & Hty & _) (po' & p' & c & H1 & H2 & H3 & H4). exists po', p', c.
  split; [done|]. split; [done|]. split; [by eapply rtc_l|]. right.
  destruct H4 as [(-> & ->)|(? & ? & ?)]; [split; [by left|done]|split; [by right|done]].
Qed.

Lemma forest_links root rootop kids i op :
  Forall (fun t => forall parent po, tree_of parent t -> child_of po (root_object t) ->
     forall i op, tree_operations t !! i = Some op -> linked po parent (take i (tree_operations t)) op) kids ->
  forest_of rootop kids -> (forall c, c ∈ map root_object kids -> child_of root c) ->
  (kids ≫= tree_operations) !! i = Some op -> linked root rootop (take i (kids ≫= tree_operations)) op.
Proof.
  intros HF. revert i. induction HF as [|t kids Ht HF IH]; intros i; [done|].
  simpl. intros [Htree Hforest] Hc. rewrite lookup_app_Some. intros [Hi|[Hge Hi]].
  - apply lookup_lt_Some in Hi as Hlt. rewrite take_app_le by lia. eapply Ht; [done| |done]. apply Hc. set_solver.
  - apply IH in Hi; [|done|set_solver]. rewrite take_app_ge by lia. eapply linked_weaken; [|done]. set_solver.
Qed.

Lemma tree_links t : forall parent po, tree_of parent t -> child_of po (root_object t) ->
  forall i op, tree_operations t !! i = Some op -> linked po parent (take i (tree_operations t)) op.
Proof.
  induction t as [o op kids IH] using tree_induction. intros parent po (Hop & Hk & Hf) Hc i op' Hi.
  destruct i as [|i]; simpl in Hi.
  - simplify_eq. exists po, parent, o. split_and!; try done. by left.
  - simpl. eapply linked_below; [done..|]. eapply forest_links; [done|done| |done]. intros c. by apply children_listed_elem.
Qed.

Lemma resources_reachable kids o rootop op :
  forest_of rootop kids -> children_listed o (map root_object kids) ->
  op ∈ (kids ≫= tree_operations) ->
  exists c, tc child_of o c /\ ResourceType op = GetType c /\ ResourceID op = GetID c.
Proof.
  intros Hf Hk (i & Hi)%list_elem_of_lookup.
  destruct (forest_links o rootop kids i op) as (po & p & c & (_ & _ & Hid & Hty & _) & Hc & Hr & _); try done.
  { apply Forall_forall. intros t _. apply tree_links. }
  { intros c. by apply children_listed_elem. }
  exists c. split; [by eapply tc_rtc_l; [|apply tc_once]|done].
Qed.

Lemma reachable_resources c o : tc child_of o c -> forall rootop kids,
  forest_of rootop kids -> children_listed o (map root_object kids) ->
  exists op, op ∈ (kids ≫= tree_operations) /\ ResourceType op = GetType c /\ ResourceID op = GetID c.
Proof.
  intros Htc. induction Htc as [o c Hc|o x c Hx Htc IH]; intros rootop kids Hf Hk.
  - apply (children_listed_elem _ _ _ Hk) in Hc as (t & -> & Ht)%list_elem_of_fmap. rewrite forest_forall, Forall_forall in Hf.
    specialize (Hf t Ht). destruct t as [o' op ks], Hf as ((_ & _ & ? & ? & _) & _). exists op.
    split; [|done]. apply list_elem_of_bind. exists (Node o' op ks). split; [by left|done].
  - apply (children_listed_elem _ _ _ Hk) in Hx as (t & -> & Ht)%list_elem_of_fmap. pose proof Hf as Hf'.
    rewrite forest_forall, Forall_forall in Hf'. specialize (Hf' t Ht). destruct t as [o' op ks], Hf' as (_ & Hk' & Hf').
    destruct (IH op ks Hf' Hk') as (op' & Hin & ?). exists op'. split; [|done].
    apply list_elem_of_bind. exists (Node o' op ks). split; [by right|done].
Qed.

(** *** The traversal builds the tree *)
Variable uuid_NewV4 : nat -> result string.
Variable time_Now : nat -> Z.
Local Abbreviation build := (recursiveGetAllLevelsCascadeOperations keys storage_List range_order uuid_NewV4 time_Now).

Lemma make_child n o operation op :
  makeCascadeOperationForChild uuid_NewV4 time_Now n o operation = Ok op ->
  child_operation operation o op /\ uuid_NewV4 n = Ok (ID op).
Proof.
  unfold makeCascadeOperationForChild. rewrite bind_ok. intros (u & Hu & [= <-]).
  unfold child_operation. simpl. rewrite Hu. done.
Qed.

Lemma visit_tree descend n children operation ops n' :
  (forall n o op ops n', descend n o op = Ok (ops, n') -> exists kids,
     ops = (kids ≫= tree_operations) /\ children_listed o (map root_object kids) /\ forest_of op kids) ->
  visit_children uuid_NewV4 time_Now descend n children operation = Ok (ops, n') ->
  exists kids, ops = (kids ≫= tree_operations) /\ map root_object kids = children /\ forest_of operation kids.
Proof.
  intros Hd. revert n ops n'. induction children as [|c cs IH]; intros n ops n'; simpl.
  - intros [= <- <-]. by exists [].
  - rewrite bind_ok. intros (op & (Hop & _)%make_child & H). rewrite bind_ok in H.
    destruct H as ([sub n1] & (kids & -> & Hk & Hf)%Hd & H). rewrite bind_ok in H.
    destruct H as ([more n2] & (kids' & -> & Hm & Hf')%IH & [= <- <-]).
    exists (Node c op kids :: kids'). simpl. by rewrite Hm.
Qed.

Lemma build_tree depth n o operation ops n' :
  build depth n o operation = Ok (ops, n') ->
  exists kids, ops = (kids ≫= tree_operations) /\ children_listed o (map root_object kids) /\
    forest_of operation kids.
Proof.
  revert n o operation ops n'. induction depth as [|d IH]; intros n o operation ops n'; simpl; [done|].
  rewrite bind_ok. intros (ch & Hch & (kids & -> & Hk & Hf)%visit_tree); [|done].
  exists kids. split; [done|]. split; [|done]. rewrite Hk. by eexists _, _, ch.
Qed.

(** *** Identifiers *)
Lemma visit_ids descend n children operation ops n' :
  (forall n o op ops n', descend n o op = Ok (ops, n') -> (n <= n')%nat /\
     exists ks, map (fun op => Ok (ID op)) ops = map uuid_NewV4 ks /\ Forall (fun k => n <= k < n')%nat ks /\ NoDup ks) ->
  visit_children uuid_NewV4 time_Now descend n children operation = Ok (ops, n') ->
  (n <= n')%nat /\
  exists ks, map (fun op => Ok (ID op)) ops = map uuid_NewV4 ks /\ Forall (fun k => n <= k < n')%nat ks /\ NoDup ks.
Proof.
  intros Hd. revert n ops n'. induction children as [|c cs IH]; intros n ops n'; simpl.
  - intros [= <- <-]. split; [done|]. exists []. split_and!; constructor.
  - rewrite bind_ok. intros (op & (_ & Hu)%make_child & H). rewrite bind_ok in H.
    destruct H as ([sub n1] & (Hle & ks & Hks & Hr & Hnd)%Hd & H). rewrite bind_ok in H.
    destruct H as ([more n2] & (Hle' & ks' & Hks' & Hr' & Hnd')%IH & [= <- <-]).
    split; [lia|]. exists (n :: ks ++ ks')%list. simpl. rewrite !map_app, Hks, Hks', Hu. split; [done|].
    rewrite Forall_forall in Hr, Hr'. split.
    + constructor; [lia|]. apply Forall_app; split; apply Forall_forall; intros k Hk;
        [specialize (Hr k Hk)|specialize (Hr' k Hk)]; lia.
    + apply NoDup_cons. rewrite elem_of_app, NoDup_app. split_and!; try done.
      * intros [Hk|Hk]; [specialize (Hr n Hk)|specialize (Hr' n Hk)]; lia.
      * intros k Hk Hk'. specialize (Hr k Hk). specialize (Hr' k Hk'). lia.
Qed.

Lemma build_ids depth n o operation ops n' :
  build depth n o operation = Ok (ops, n') -> (n <= n')%nat /\
  exists ks, map (fun op => Ok (ID op)) ops = map uuid_NewV4 ks /\ Forall (fun k => n <= k < n')%nat ks /\ NoDup ks.
Proof.
  revert n o operation ops n'. induction depth as [|d IH]; intros n o operation ops n'; simpl; [done|].
  rewrite bind_ok. intros (ch & _ & H). apply visit_ids in H as (Hle & ks & Hks & Hr & Hnd); [|done].
  split; [lia|]. exists ks. split; [done|]. split; [|done]. eapply Forall_impl; [done|]. simpl. lia.
Qed.

Lemma build_distinct_ids depth n o operation ops n' :
  (forall i j u, uuid_NewV4 i = Ok u -> uuid_NewV4 j = Ok u -> i = j) ->
  build depth n o operation = Ok (ops, n') -> NoDup (map ID ops).
Proof.
  intros Hinj (_ & ks & Hks & _ & Hnd)%build_ids. clear o operation n n'.
  revert ks Hks Hnd. induction ops as [|op ops IH]; intros [|k ks]; simpl; try done; [constructor|].
  intros [= Hk Hks] [Hn Hnd]%NoDup_cons. apply NoDup_cons. split; [|by eapply IH].
  rewrite list_elem_of_fmap. intros (op' & Hid & Hin). apply Hn.
  assert (Hin' : Ok (ID op) ∈ map uuid_NewV4 ks).
  { rewrite <- Hks. rewrite list_elem_of_fmap. exists op'. by rewrite Hid. }
  apply list_elem_of_fmap in Hin' as (k' & Hk' & Hin'). by rewrite (Hinj k k' (ID op)).
Qed.

(** *** Enough stack for a hierarchy without cycles, never enough with one *)
Definition total_below (o : object) : Prop :=
  (forall n, exists u, uuid_NewV4 n = Ok u) /\
  (forall n c, rtc child_of o c -> exists ch, children_of n c = Ok ch).
Lemma total_child o c : total_below o -> child_of o c -> total_below c.
Proof. intros [Hu Ht] Hc. split; [done|]. intros n x Hx. apply Ht. by eapply rtc_l. Qed.

Lemma make_total n o op :
  (forall n, exists u, uuid_NewV4 n = Ok u) ->
  exists op', makeCascadeOperationForChild uuid_NewV4 time_Now n o op = Ok op'.
Proof. intros Hu. destruct (Hu n) as [u Eu]. unfold makeCascadeOperationForChild. rewrite Eu. by eexists. Qed.

Definition overflow {A} : result A := Panic "stack overflow".
Definition done_or_overflow {A} (r : result A) : Prop := (exists a, r = Ok a) \/ r = overflow.

Lemma visit_outcome descend n children op :
  (forall n, exists u, uuid_NewV4 n = Ok u) ->
  (forall n c op, c ∈ children -> done_or_overflow (descend n c op)) ->
  done_or_overflow (visit_children uuid_NewV4 time_Now descend n children op) /\
  (forall c, c ∈ children -> (forall n op, descend n c op = overflow) ->
     visit_children uuid_NewV4 time_Now descend n children op = overflow) /\
  ((forall n c op, c ∈ children -> exists a, descend n c op = Ok a) ->
     exists a, visit_children uuid_NewV4 time_Now descend n children op = Ok a).
Proof.
  intros Hu. revert n. induction children as [|c cs IH]; intros n Hd; simpl.
  - split_and!; [left; by eexists|by intros c ?%elem_of_nil|by eexists].
  - destruct (make_total n c op Hu) as [op' ->]. simpl.
    destruct (Hd (S n) c op' ltac:(left)) as [[[sub n1] E]|E].
    + rewrite E. simpl. destruct (IH n1) as (H1 & H2 & H3); [intros; apply Hd; by right|]. split_and!.
      * destruct H1 as [[[more n2] ->]| ->]; [left; by eexists|by right].
      * intros x [->|Hx]%elem_of_cons Ho; [by rewrite Ho in E|]. by rewrite (H2 x Hx Ho).
      * intros Ha. destruct H3 as [[more n2] ->]; [intros; apply Ha; by right|]. by eexists.
    + rewrite E. simpl. split_and!; [by right|done|]. intros Ha.
      destruct (Ha (S n) c op' ltac:(left)) as [a Ea]. by rewrite Ea in E.
Qed.

Lemma build_outcome depth : forall n o op, total_below o -> done_or_overflow (build depth n o op).
Proof.
  induction depth as [|d IH]; intros n o op Ht; simpl; [by right|].
  destruct Ht as [Hu Hc] eqn:E. destruct (Hc n o ltac:(done)) as [ch Hch]. rewrite Hch. simpl.
  apply visit_outcome; [done|]. intros n' c op' Hin. apply IH. eapply total_child; [done|].
  by eapply child_in_order.
Qed.

(** Along a path of a hierarchy without cycles every object is new, so a finite set of objects
    bounds its length: [above] are the objects over [o] on the path to it. *)
Lemma build_total (objects : list object) depth : forall above n o op, total_below o ->
  (forall c, rtc child_of o c -> c ∈ objects) -> (forall c, rtc child_of o c -> ~ tc child_of c c) ->
  NoDup above -> (forall a, a ∈ above -> a ∈ objects /\ tc child_of a o) ->
  (length objects < length above + depth)%nat ->
  exists ops n', build depth n o op = Ok (ops, n').
Proof.
  induction depth as [|d IH]; intros above n o op Ht Hobj Hacyc Hnd Hab Hlt.
  { exfalso. assert (length above <= length objects)%nat; [|lia]. apply List.NoDup_incl_length; [by apply NoDup_ListNoDup|].
    intros a Ha. apply list_elem_of_In, Hab. by apply list_elem_of_In. }
  simpl. destruct Ht as [Hu Hc] eqn:E. destruct (Hc n o ltac:(done)) as [ch Hch]. rewrite Hch. simpl.
  assert (Hch' : forall c, c ∈ children_in_order range_order (S n) ch -> child_of o c) by (intros c; by eapply child_in_order).
  destruct (visit_outcome (build d) (S (S n)) (children_in_order range_order (S n) ch) op Hu) as (_ & _ & H3).
  { intros n' c op' Hin. apply build_outcome. eapply total_child; eauto. }
  destruct H3 as [[ops n'] ->]; [|by eauto]. intros n' c op' Hin. pose proof (Hch' c Hin) as Hoc.
  destruct (IH (o :: above) n' c op') as (ops & n2 & ->); [eapply total_child; eauto|..|by eexists].
  - intros x Hx. apply Hobj. by eapply rtc_l.
  - intros x Hx. apply Hacyc. by eapply rtc_l.
  - apply NoDup_cons. split; [|done]. intros [_ Ho]%Hab. by apply (Hacyc o).
  - intros a [->|Ha]%elem_of_cons; [split; [by apply Hobj|by apply tc_once]|]. destruct (Hab a Ha) as [? ?].
    split; [done|]. by eapply tc_r.
  - simpl. lia.
Qed.

Lemma build_overflow (cyclic : object -> Prop) depth :
  (forall a, cyclic a -> exists b, cyclic b /\ child_of a b) ->
  forall n o op, total_below o -> cyclic o -> build depth n o op = overflow.
Proof.
  intros Hcyc. induction depth as [|d IH]; intros n o op Ht Ho; simpl; [done|].
  destruct Ht as [Hu Hc] eqn:E. destruct (Hc n o ltac:(done)) as [ch Hch]. rewrite Hch. simpl.
  destruct (Hcyc o Ho) as (b & Hb & Hob).
  destruct (visit_outcome (build d) (S (S n)) (children_in_order range_order (S n) ch) op Hu) as (_ & H2 & _).
  { intros n' c op' Hin. apply build_outcome. eapply total_child; [done|]. by eapply child_in_order. }
  apply (H2 b); [by eapply child_in_order|]. intros n' op'. apply IH; [by eapply total_child|done].
Qed.
End Tree.
