(* ===== verification/CascadeTheorems.v ===== *)
(** * The guarantees of cascade deletion

    Stated for any repository and any order of iteration over maps, with a small tenant as
    the concrete input of the witnesses. *)

From S2P Require Import Prelude GoStd Errors Query OperationTypes Cascade CascadeProps.
From stdpp Require Import base gmap strings list relations sets pretty.
From Stdlib Require Import ZArith.
Import Operators Criteria.
Local Open Scope string_scope.

(** What the traversal of a tenant relies on: the platforms that are listed are platforms,
    and listing instances by platform or by plan finds every stored one. *)
Class InstanceQueries (storage_List : string -> list Criterion -> result (list object)) := {
  stored_instance : string -> string -> string -> Prop;
  law_platforms crit l : storage_List PlatformType crit = Ok l -> Forall (fun o => exists id, o = Platform id) l;
  law_listed crit l id plan platform :
    storage_List ServiceInstanceType crit = Ok l -> ServiceInstance id plan platform ∈ l ->
    stored_instance id plan platform;
  law_by_platform platform l id plan :
    storage_List ServiceInstanceType [ByField EqualsOperator "platform_id" [platform]] = Ok l ->
    stored_instance id plan platform -> ServiceInstance id plan platform ∈ l;
  law_by_plan plans l id plan platform :
    storage_List ServiceInstanceType [ByField InOperator "service_plan_id" plans] = Ok l -> plan ∈ plans ->
    stored_instance id plan platform -> ServiceInstance id plan platform ∈ l
}.

Lemma broker_plans_elem brokers plans plan :
  broker_plans brokers = Ok plans -> plan ∈ plans ->
  exists b services, ServiceBroker b services ∈ brokers /\ plan ∈ (services ≫= so_Plans).
Proof.
  revert plans. induction brokers as [|b brokers IH]; simpl; intros plans; [intros [= <-]; set_solver|].
  destruct b as [| |b services| | | |]; try done. rewrite bind_ok. intros (l & Hl & [= <-]).
  rewrite elem_of_app. intros [Hp|Hp]; [exists b, services; set_solver|].
  destruct (IH l Hl Hp) as (b' & s' & ? & ?). exists b', s'. set_solver.
Qed.

Lemma filter_instances_elem plans platforms l l' o :
  filter_instances plans platforms l = Ok l' -> o ∈ l ->
  exists id plan platform, o = ServiceInstance id plan platform /\
    (o ∈ l' \/ plan ∈ plans \/ platform ∈ platforms).
Proof.
  revert l'. induction l as [|x l IH]; simpl; intros l'; [set_solver|].
  destruct x as [| | |id plan platform| | |]; try done. rewrite bind_ok. intros (m & Hm & [= <-]).
  rewrite elem_of_cons. intros [->|Ho].
  - exists id, plan, platform. split; [done|].
    do 2 (case_bool_decide; [by auto|]). left. simpl. set_solver.
  - destruct (IH m Hm Ho) as (i & p & pf & -> & Hc). exists i, p, pf. split; [done|].
    destruct Hc as [Hc|Hc]; [left|by right]. case_match; set_solver.
Qed.

(** [CleanDuplicates] drops an instance only when it is below a broker or a platform that
    stays. *)
Lemma CleanDuplicates_spec ch ch' o :
  CleanDuplicates ch = Ok ch' -> o ∈ default [] (ch !! ServiceInstanceType) ->
  (forall t, t <> ServiceInstanceType -> ch' !! t = ch !! t) /\
  exists id plan platform, o = ServiceInstance id plan platform /\
    (o ∈ default [] (ch' !! ServiceInstanceType) \/
     (exists b services, ServiceBroker b services ∈ default [] (ch !! ServiceBrokerType) /\ plan ∈ (services ≫= so_Plans)) \/
     (exists p, p ∈ default [] (ch !! PlatformType) /\ GetID p = platform)).
Proof.
  unfold CleanDuplicates. destruct (ch !! ServiceInstanceType) as [[|i l]|] eqn:E; cbn [default from_option id]; [set_solver| |set_solver].
  remember (i :: l) as l0.
  intros (plans & Hp & (f & Hf & [= <-])%bind_ok)%bind_ok Ho.
  split; [intros t Ht; by rewrite lookup_insert_ne|].
  destruct (filter_instances_elem _ _ _ _ _ Hf Ho) as (id & plan & pf & -> & Hc). exists id, plan, pf. split; [done|].
  rewrite lookup_insert_eq. simpl. destruct Hc as [Hc|[Hc|Hc]]; [by left| |].
  - right. left. rewrite elem_of_list_to_set in Hc. by eapply broker_plans_elem.
  - right. right. rewrite elem_of_list_to_set, list_elem_of_fmap in Hc. destruct Hc as (p & -> & ?). eauto.
Qed.

Section Theorems.
Variable keys : list string.
Variable storage_List : string -> list Criterion -> result (list object).
Variable range_order : nat -> list string -> list string.
Variable uuid_NewV4 : nat -> result string.
Variable time_Now : nat -> Z.

Lemma entry_singleton crit t c o :
  crit !! t = Some [[c]] -> entry storage_List crit t o -> exists l, storage_List t [c] = Ok l /\ o = Some l.
Proof.
  unfold entry. intros ->. simpl. intros (l & (m & Hm & [= <-])%bind_ok & ->). exists m. by rewrite app_nil_r.
Qed.

Lemma listed_child n o crit t c x :
  (forall m l, range_order m l ≡ₚ l) ->
  GetCascadeObject keys o = Ok (Some crit) -> (forall id i, crit <> TenantCascade id i) ->
  GetChildrenCriterion crit !! t = Some [[c]] -> t <> ServiceBrokerType ->
  (exists ch, GetObjectChildren keys storage_List range_order n o = Ok ch) ->
  (forall l, storage_List t [c] = Ok l -> x ∈ l) -> child_of keys storage_List range_order o x.
Proof.
  intros Hr Hc Ht Hcrit Hne [ch Hch] Hx. exists n, ch, t. unfold GetObjectChildren in Hch. rewrite Hc in Hch.
  simpl in Hch. apply bind_ok in Hch as (ch0 & H0 & (ch1 & H1 & H2)%bind_ok).
  rewrite (ListCascadeChildren_spec _ _ Hr) in H0. destruct (entry_singleton _ _ _ _ Hcrit (H0 t)) as (l & Hl & Et).
  exists l. assert (ch = ch1) as -> by (destruct crit; simpl in H2; [by destruct (Ht id tenantIdentifier)|congruence..]).
  assert (ch1 !! t = ch0 !! t) as ->.
  { destruct (ch0 !! ServiceBrokerType); [|congruence]. apply bind_ok in H1 as (bs & _ & [= <-]).
    by rewrite lookup_insert_ne. }
  split_and!; [|done|by apply Hx]. unfold GetObjectChildren. rewrite Hc. simpl. apply bind_ok. exists ch0.
  rewrite (ListCascadeChildren_spec _ _ Hr). split; [done|]. rewrite H1. simpl. by destruct crit.
Qed.

(** The instances of a tenant are below it, directly or through a platform or broker. *)
Lemma tenant_instance_below `{!InstanceQueries storage_List} n id ident ch l inst :
  (forall m l, range_order m l ≡ₚ l) ->
  GetObjectChildren keys storage_List range_order n (Tenant id ident) = Ok ch ->
  (forall c, child_of keys storage_List range_order (Tenant id ident) c ->
     exists ch, GetObjectChildren keys storage_List range_order n c = Ok ch) ->
  storage_List ServiceInstanceType [ByLabel EqualsOperator ident [id]] = Ok l -> inst ∈ l ->
  tc (child_of keys storage_List range_order) (Tenant id ident) inst.
Proof.
  intros Hr Hch Hok Hl Hin. pose proof Hch as Hch0. unfold GetObjectChildren in Hch0. simpl in Hch0.
  apply bind_ok in Hch0 as (ch0 & H0 & (ch1 & H1 & H2)%bind_ok). rewrite (ListCascadeChildren_spec _ _ Hr) in H0.
  destruct (entry_singleton (GetChildrenCriterion (TenantCascade id ident)) ServiceInstanceType
    (ByLabel EqualsOperator ident [id]) _ eq_refl (H0 _)) as (l' & Hl' & Ei).
  assert (l' = l) as -> by congruence.
  destruct (entry_singleton (GetChildrenCriterion (TenantCascade id ident)) PlatformType
    (ByLabel EqualsOperator ident [id]) _ eq_refl (H0 _)) as (ps & Hps & Ep).
  assert (Hkeep : forall t, t <> ServiceBrokerType -> ch1 !! t = ch0 !! t).
  { intros t Ht. destruct (ch0 !! ServiceBrokerType); [|congruence]. apply bind_ok in H1 as (bs & _ & [= <-]).
    by rewrite lookup_insert_ne. }
  assert (Hin1 : inst ∈ default [] (ch1 !! ServiceInstanceType)) by (by rewrite Hkeep, Ei).
  destruct (CleanDuplicates_spec _ _ _ H2 Hin1) as (Hsame & i & plan & pf & -> & Hcase).
  assert (Hchild : forall t c, c ∈ default [] (ch !! t) -> child_of keys storage_List range_order (Tenant id ident) c).
  { intros t c Hc. destruct (ch !! t) as [lt|] eqn:E; [|set_solver]. by exists n, ch, t, lt. }
  destruct Hcase as [Hd|[(b & services & Hb & Hp)|(p & Hp & Hid)]].
  - apply tc_once. by eapply Hchild.
  - assert (Hb' := Hchild ServiceBrokerType (ServiceBroker b services)). rewrite Hsame in Hb' by done.
    specialize (Hb' Hb). eapply tc_l; [done|]. apply tc_once.
    eapply (listed_child n _ (ServiceBrokerCascade services) ServiceInstanceType); [done..|by apply Hok|].
    intros l' Hl2. eapply law_by_plan; [done..|]. exact (law_listed _ _ _ _ _ Hl Hin).
  - rewrite Hkeep, Ep in Hp by done. simpl in Hp. pose proof (law_platforms _ _ Hps) as Hall.
    rewrite Forall_forall in Hall. destruct (Hall p Hp) as [q ->]. simpl in Hid. subst q.
    assert (Hb' := Hchild PlatformType (Platform pf)). rewrite Hsame, Hkeep, Ep in Hb' by done. specialize (Hb' Hp).
    eapply tc_l; [done|]. apply tc_once.
    eapply (listed_child n _ (PlatformCascade pf) ServiceInstanceType); [done..|by apply Hok|].
    intros l' Hl2. eapply law_by_platform; [done|]. exact (law_listed _ _ _ _ _ Hl Hin).
Qed.

(** C31: The operations that a cascade deletion creates are the pre-order listing of its deletion tree: there is a forest whose
    roots are the children of the object, whose every node has as its children all the objects the repository lists below it,
    and whose every node carries a pending DELETE operation for its object that names the operation above it as its parent and
    has the root, labels, platform and correlation id of that operation.  A parent comes before its children, and the ids are
    distinct when the generator never repeats one.  The order in which maps are ranged over does not matter. *)
Theorem cascade_operations_form_tree depth n o operation ops n' :
  (forall m l, range_order m l ≡ₚ l) ->
  recursiveGetAllLevelsCascadeOperations keys storage_List range_order uuid_NewV4 time_Now depth n o operation = Ok (ops, n') ->
  (exists kids : list deletion_tree, ops = (kids ≫= tree_operations) /\ children_listed keys storage_List range_order o (map root_object kids) /\
     forest_of keys storage_List range_order operation kids) /\
  (forall i op, ops !! i = Some op -> linked keys storage_List range_order o operation (take i ops) op) /\
  ((forall i j u, uuid_NewV4 i = Ok u -> uuid_NewV4 j = Ok u -> i = j) -> NoDup (map ID ops)).
Proof.
  intros Hr Hb. destruct (build_tree _ _ _ _ _ _ _ _ _ _ _ Hb) as (kids & Ho & Hk & Hf). split; [by eauto|]. split.
  - intros i op. rewrite Ho. intros Hi. eapply forest_links; try done.
    + apply Forall_forall. intros t _. by apply tree_links.
    + intros c. by apply children_listed_elem.
  - intros Hinj. by eapply build_distinct_ids.
Qed.

(** A cascade deletion creates an operation for exactly the objects below the root: every operation is for an object that
    can be reached from the root over the children the repository lists, and every object that can be reached has one. *)
Theorem cascade_covers_descendants depth n o operation ops n' t id :
  (forall m l, range_order m l ≡ₚ l) ->
  recursiveGetAllLevelsCascadeOperations keys storage_List range_order uuid_NewV4 time_Now depth n o operation = Ok (ops, n') ->
  (exists op, op ∈ ops /\ ResourceType op = t /\ ResourceID op = id) <->
  (exists c, tc (child_of keys storage_List range_order) o c /\ GetType c = t /\ GetID c = id).
Proof.
  intros Hr (kids & -> & Hk & Hf)%build_tree. split.
  - intros (op & Hin & <- & <-).
    destruct (resources_reachable _ _ _ Hr kids o operation op Hf Hk Hin) as (c & ? & ? & ?). eauto.
  - intros (c & Hc & <- & <-). by eapply reachable_resources.
Qed.

(** C32: building the tree ends exactly when there is no cycle.  Let the objects below the root, and the root itself, be among
    finitely many, and let no listing of children and no generation of a UUID fail.  When none of these objects is below itself,
    a stack deeper than their number is enough, and the result is the complete pre-order listing: of a forest whose roots are
    the children of the root object and whose every node has all the objects listed below it as its children, with their
    pending DELETE operations.  When one of them is below itself, the stack overflows however deep it is. *)
Theorem cascade_building_terminates (objects : list object) n o operation :
  (forall m l, range_order m l ≡ₚ l) -> total_below keys storage_List range_order uuid_NewV4 o ->
  (forall c, rtc (child_of keys storage_List range_order) o c -> c ∈ objects) ->
  ((forall c, rtc (child_of keys storage_List range_order) o c -> ~ tc (child_of keys storage_List range_order) c c) ->
   forall depth, (length objects < depth)%nat -> exists (kids : list deletion_tree) n',
     recursiveGetAllLevelsCascadeOperations keys storage_List range_order uuid_NewV4 time_Now depth n o operation =
       Ok (kids ≫= tree_operations, n') /\
     children_listed keys storage_List range_order o (map root_object kids) /\
     forest_of keys storage_List range_order operation kids) /\
  ((exists c, rtc (child_of keys storage_List range_order) o c /\ tc (child_of keys storage_List range_order) c c) ->
   forall depth, recursiveGetAllLevelsCascadeOperations keys storage_List range_order uuid_NewV4 time_Now depth n o operation =
     Panic "stack overflow").
Proof.
  intros Hr Ht Hobj. split.
  - intros Hacyc depth Hd.
    destruct (build_total keys storage_List range_order Hr uuid_NewV4 time_Now objects depth [] n o operation Ht Hobj Hacyc)
      as (ops & n' & Hb); [constructor|by intros a ?%elem_of_nil|simpl; lia|].
    destruct (build_tree _ _ _ _ _ _ _ _ _ _ _ Hb) as (kids & -> & Hk & Hf). by exists kids, n'.
  - intros (c & Hoc & Hcc) depth.
    refine (build_overflow keys storage_List range_order Hr uuid_NewV4 time_Now
      (fun a => rtc (child_of keys storage_List range_order) a c) depth _ n o operation Ht Hoc).
    assert (Hstep : forall a, tc (child_of keys storage_List range_order) a c ->
      exists b, rtc (child_of keys storage_List range_order) b c /\ child_of keys storage_List range_order a b).
    { intros a Ha. inversion Ha as [? ? Hab|? x ? Hax Hxc]; subst; [by exists c|]. exists x. split; [by apply tc_rtc|done]. }
    intros a Ha. inversion Ha as [|? x ? Hax Hxc]; subst; [by apply Hstep|by exists x].
Qed.

(** The traversal does not look for cycles: when every object of a set has a child in the set (instances whose labels name
    each other as parents, an instance that references itself), a cascade deletion of one of them overflows the stack, however
    deep it may be, although every query succeeds. *)
Theorem cyclic_hierarchy_overflows (cyclic : object -> Prop) depth n o operation :
  (forall m l, range_order m l ≡ₚ l) -> total_below keys storage_List range_order uuid_NewV4 o ->
  cyclic o -> (forall a, cyclic a -> exists b, cyclic b /\ child_of keys storage_List range_order a b) ->
  recursiveGetAllLevelsCascadeOperations keys storage_List range_order uuid_NewV4 time_Now depth n o operation =
    Panic "stack overflow".
Proof. intros Hr Ht Ho Hc. by eapply build_overflow. Qed.

(** Cleaning the duplicates of a tenant loses no instance: when the operations for a tenant are built, each instance labelled
    with the tenant has an operation, below the tenant itself or below a platform or broker of the tenant. *)
Theorem tenant_instances_all_deleted `{!InstanceQueries storage_List} depth n id ident operation ops n' l inst :
  (forall m l, range_order m l ≡ₚ l) ->
  recursiveGetAllLevelsCascadeOperations keys storage_List range_order uuid_NewV4 time_Now depth n (Tenant id ident) operation =
    Ok (ops, n') ->
  storage_List ServiceInstanceType [ByLabel EqualsOperator ident [id]] = Ok l -> inst ∈ l ->
  exists op, op ∈ ops /\ ResourceType op = GetType inst /\ ResourceID op = GetID inst.
Proof.
  intros Hr (kids & -> & Hk & Hf)%build_tree Hl Hin. eapply reachable_resources; [done| |done..].
  destruct Hk as (n0 & m & ch & Hch & Hroots). eapply (tenant_instance_below n0); try done.
  intros c Hc. apply (child_in_order _ _ _ Hr n0 m (Tenant id ident) c ch Hch) in Hc. rewrite <- Hroots in Hc.
  apply list_elem_of_fmap in Hc as (t & -> & Ht). rewrite forest_forall, Forall_forall in Hf. specialize (Hf t Ht).
  destruct t as [c op ks]. destruct Hf as (_ & (n1 & m1 & ch1 & Hch1 & _) & _). exists ch1.
  by apply (children_order _ _ _ Hr n1).
Qed.
End Theorems.

(** ** Concrete hierarchies for the theorems on cascade deletion

    A tenant with a platform, a broker and three instances, one of them with a binding; and
    two instances whose labels name each other as parent. *)
Definition sample_instances : list object :=
  [ServiceInstance "i1" "pl" "p"; ServiceInstance "i2" "bp" "q"; ServiceInstance "i3" "x" "q"].
Definition instance_matches (field : string) (values : list string) (o : object) : bool :=
  match o with
  | ServiceInstance _ plan platform =>
      if decide (field = "platform_id") then bool_decide (platform ∈ values)
      else if decide (field = "service_plan_id") then bool_decide (plan ∈ values)
      else bool_decide (field = "tenant")
  | _ => false
  end.
Definition instances_by (field : string) (values : list string) : list object :=
  base.filter (fun o => instance_matches field values o = true) sample_instances.
Definition sample_list (t : string) (crit : list Criterion) : result (list object) :=
  Ok match crit with
     | [c] =>
         if decide (t = ServiceInstanceType) then instances_by (LeftOp c) (RightOp c)
         else if decide (t = PlatformType) then [Platform "p"]
         else if decide (t = ServiceBrokerType) then [ServiceBroker "b" []]
         else if decide (t = ServiceOfferingType) then [OfferingObject {| so_ID := "o"; so_Plans := [] |}]
         else if decide (t = ServicePlanType) then [PlanObject "bp"]
         else if decide (RightOp c = ["i3"]) then [OtherObject ServiceBindingType "binding"] else []
     | _ => []
     end.
(** Every second iteration over a map runs backwards. *)
Definition alternating (n : nat) (l : list string) : list string := if Nat.even n then l else rev l.
Lemma alternating_permutes n l : alternating n l ≡ₚ l.
Proof. unfold alternating. case_match; [done|]. symmetry. apply Permutation_rev. Qed.
Definition numbered (n : nat) : result string := Ok (pretty n).
Lemma numbered_inj i j u : numbered i = Ok u -> numbered j = Ok u -> i = j.
Proof. unfold numbered. intros [= <-] [= Hj]. by apply (inj pretty) in Hj. Qed.
Definition midnight (_ : nat) : Z := 0.

#[local] Program Instance sample_queries : InstanceQueries sample_list := {
  stored_instance := fun id plan platform => ServiceInstance id plan platform ∈ sample_instances
}.
Next Obligation.
  intros crit l. unfold sample_list. destruct crit as [|c [|]]; intros [= <-]; try constructor; by eauto.
Qed.
Next Obligation.
  intros crit l id plan platform. unfold sample_list. destruct crit as [|c [|]]; intros [= <-]; try set_solver.
  simpl. by intros [_ ?]%list_elem_of_filter.
Qed.
Next Obligation.
  intros platform l id plan [= <-] Hin. apply list_elem_of_filter. split; [|done]. by apply bool_decide_eq_true, list_elem_of_singleton.
Qed.
Next Obligation.
  intros plans l id plan platform [= <-] Hp Hin. apply list_elem_of_filter. split; [|done]. by apply bool_decide_eq_true.
Qed.

Definition root_operation : Operation :=
  {| ID := "root"; CreatedAt := 0; Labels_ := ∅; Ready := true; Description_ := ""; Type_ := DELETE; State := PENDING;
     ResourceID := "t"; TransitiveResources := []; ResourceType := TenantType; Errors_ := None; PlatformID := SMPlatform;
     CorrelationID := "c"; ExternalID := ""; ParentID := ""; CascadeRootID := "root"; Context_ := None; Reschedule := false;
     RescheduleTimestamp := None; DeletionScheduled := None |}.

(** The operations of the tenant: resource and parent of each. *)
Definition summary (r : result (list Operation * nat)) : list (string * string * string) :=
  match r with Ok (ops, _) => map (fun op => (ID op, ResourceID op, ParentID op)) ops | _ => [] end.
Example tenant_operations :
  summary (recursiveGetAllLevelsCascadeOperations [] sample_list alternating numbered midnight 5 0 (Tenant "t" "tenant") root_operation) =
  [("2", "p", "root"); ("5", "i1", "2"); ("8", "b", "root"); ("11", "i2", "8"); ("14", "i3", "root"); ("17", "binding", "14")].
Proof. vm_compute. reflexivity. Qed.

Lemma ok_pair {A B} (r : result (A * B)) x : r = Ok x -> r = Ok (fst x, snd x).
Proof. by destruct x. Qed.

Lemma cascade_operations_form_tree_witness : exists ops n',
  recursiveGetAllLevelsCascadeOperations [] sample_list alternating numbered midnight 5 0 (Tenant "t" "tenant") root_operation =
    Ok (ops, n') /\ NoDup (map ID ops).
Proof.
  eexists _, _. split; [apply ok_pair; vm_compute; reflexivity|].
  refine (proj2 (proj2 (cascade_operations_form_tree [] sample_list alternating numbered midnight 5 0 (Tenant "t" "tenant")
    root_operation _ _ alternating_permutes _)) numbered_inj). apply ok_pair. vm_compute. reflexivity.
Defined.

Lemma cascade_covers_descendants_witness :
  exists c, tc (child_of [] sample_list alternating) (Tenant "t" "tenant") c /\ GetType c = ServiceBindingType /\ GetID c = "binding".
Proof.
  refine (proj1 (cascade_covers_descendants [] sample_list alternating numbered midnight 5 0 (Tenant "t" "tenant")
    root_operation _ _ ServiceBindingType "binding" alternating_permutes _) _);
    [apply ok_pair; vm_compute; reflexivity|].
  eexists. split; [do 5 right; left|]. split; reflexivity.
Defined.

Lemma tenant_instances_all_deleted_witness : exists ops n',
  recursiveGetAllLevelsCascadeOperations [] sample_list alternating numbered midnight 5 0 (Tenant "t" "tenant") root_operation =
    Ok (ops, n') /\
  exists op, op ∈ ops /\ ResourceType op = ServiceInstanceType /\ ResourceID op = "i2".
Proof.
  eexists _, _. split; [apply ok_pair; vm_compute; reflexivity|].
  refine (tenant_instances_all_deleted [] sample_list alternating numbered midnight 5 0 "t" "tenant" root_operation _ _
    sample_instances (ServiceInstance "i2" "bp" "q") alternating_permutes _ _ _);
    [apply ok_pair; vm_compute; reflexivity|vm_compute; reflexivity|right; left].
Defined.

(** ** Ranks *)
Definition sample_objects : list object :=
  Tenant "t" "tenant" :: Platform "p" :: ServiceBroker "b" [{| so_ID := "o"; so_Plans := ["bp"] |}] ::
  OtherObject ServiceBindingType "binding" :: sample_instances.
Definition sample_rank (o : object) : nat :=
  match o with
  | Tenant _ _ => 3 | Platform _ | ServiceBroker _ _ => 2 | ServiceInstance _ _ _ => 1 | _ => 0
  end.
(** Are the children of [o] listed, all in the sample and of smaller rank? *)
Definition descends (o : object) : bool :=
  match GetObjectChildren [] sample_list alternating 0 o with
  | Ok ch => forallb (fun c => bool_decide (c ∈ sample_objects) && (sample_rank c <? sample_rank o)%nat)
               (children_in_order alternating 0 ch)
  | _ => false
  end.
Lemma sample_descends a : a ∈ sample_objects -> descends a = true.
Proof.
  assert (forallb descends sample_objects = true) as H by (vm_compute; reflexivity).
  rewrite forallb_forall in H. intros Ha. apply H. by apply list_elem_of_In.
Qed.
Lemma sample_children a b :
  a ∈ sample_objects -> child_of [] sample_list alternating a b ->
  b ∈ sample_objects /\ (sample_rank b < sample_rank a)%nat.
Proof.
  intros Ha Hb. apply sample_descends in Ha. unfold descends in Ha.
  destruct (GetObjectChildren [] sample_list alternating 0 a) as [ch| |] eqn:E; try done.
  apply (child_in_order _ _ _ alternating_permutes 0 0 _ _ _ E) in Hb. rewrite forallb_forall in Ha.
  apply list_elem_of_In, Ha, andb_prop in Hb as [H1%bool_decide_eq_true_1 H2%Nat.ltb_lt]. done.
Qed.
Lemma sample_reachable a b : a ∈ sample_objects -> rtc (child_of [] sample_list alternating) a b -> b ∈ sample_objects.
Proof. intros Ha Hr. induction Hr as [|x y z Hxy _ IH]; [done|]. apply IH. by eapply sample_children. Qed.
Lemma sample_total o : o ∈ sample_objects -> total_below [] sample_list alternating numbered o.
Proof.
  intros Ho. split; [by eexists|]. intros n c Hc. apply (sample_reachable _ _ Ho), sample_descends in Hc.
  unfold descends in Hc. destruct (GetObjectChildren [] sample_list alternating 0 c) as [ch| |] eqn:E; try done.
  exists ch. by apply (children_order _ _ _ alternating_permutes 0).
Qed.

Lemma sample_acyclic a : a ∈ sample_objects -> ~ tc (child_of [] sample_list alternating) a a.
Proof.
  intros Ha. assert (Hlt : forall x y, tc (child_of [] sample_list alternating) x y -> x ∈ sample_objects -> (sample_rank y < sample_rank x)%nat).
  { induction 1 as [x y Hxy|x y z Hxy _ IH]; intros Hx; [by eapply sample_children|].
    destruct (sample_children x y Hx Hxy) as [? ?]. specialize (IH ltac:(done)). lia. }
  intros Ht. specialize (Hlt a a Ht Ha). lia.
Qed.
Lemma cascade_building_terminates_witness : exists (kids : list deletion_tree) n',
  recursiveGetAllLevelsCascadeOperations [] sample_list alternating numbered midnight (S (length sample_objects)) 0
    (Tenant "t" "tenant") root_operation = Ok (kids ≫= tree_operations, n') /\
  children_listed [] sample_list alternating (Tenant "t" "tenant") (map root_object kids) /\
  forest_of [] sample_list alternating root_operation kids.
Proof.
  apply (proj1 (cascade_building_terminates [] sample_list alternating numbered midnight sample_objects 0 (Tenant "t" "tenant")
    root_operation alternating_permutes (sample_total _ (list_elem_of_here _ _)) (fun c Hc => sample_reachable _ c (list_elem_of_here _ _) Hc))).
  - intros c Hc. apply sample_acyclic. eapply sample_reachable; [|done]. left.
  - lia.
Defined.

(** ** A cycle *)
Definition cyclic_list (t : string) (crit : list Criterion) : result (list object) :=
  Ok (if decide (t = ServiceInstanceType) then
        if decide (crit = [ByExists (QueryForInstanceChildrenByLabel "'parent'" "a")]) then [ServiceInstance "b" "pl" "p"]
        else if decide (crit = [ByExists (QueryForInstanceChildrenByLabel "'parent'" "b")]) then [ServiceInstance "a" "pl" "p"]
        else []
      else []).
Definition in_cycle (o : object) : Prop := o = ServiceInstance "a" "pl" "p" \/ o = ServiceInstance "b" "pl" "p".

Lemma cyclic_children a c : in_cycle a -> child_of ["parent"] cyclic_list alternating a c -> in_cycle c.
Proof.
  intros [-> | ->] Hc; eapply (child_in_order _ _ _ alternating_permutes 0 0) in Hc; try (vm_compute; reflexivity);
    vm_compute in Hc; apply list_elem_of_singleton in Hc; [by right|by left].
Qed.
Lemma cyclic_next a : in_cycle a -> exists b, in_cycle b /\ child_of ["parent"] cyclic_list alternating a b.
Proof.
  intros [-> | ->]; [exists (ServiceInstance "b" "pl" "p")|exists (ServiceInstance "a" "pl" "p")];
    (split; [first [by left|by right]|]); exists 0; eexists _, ServiceInstanceType, _;
    (split; [vm_compute; reflexivity|]); (split; [vm_compute; reflexivity|left]).
Qed.
Lemma cyclic_total o : in_cycle o -> total_below ["parent"] cyclic_list alternating numbered o.
Proof.
  intros Ho. split; [by eexists|]. intros n c Hc. assert (in_cycle c) as Hin.
  { induction Hc; [done|]. eauto using cyclic_children. }
  destruct (cyclic_next c Hin) as (b & _ & n0 & ch & _ & _ & Hch & _). exists ch.
  by apply (children_order _ _ _ alternating_permutes n0).
Qed.

Lemma cyclic_hierarchy_overflows_witness :
  recursiveGetAllLevelsCascadeOperations ["parent"] cyclic_list alternating numbered midnight 1000 0
    (ServiceInstance "a" "pl" "p") root_operation = Panic "stack overflow".
Proof.
  refine (cyclic_hierarchy_overflows ["parent"] cyclic_list alternating numbered midnight in_cycle 1000 0 _ root_operation
    alternating_permutes (cyclic_total _ _) _ cyclic_next); left; reflexivity.
Defined.
