(* ===== verification/Repository.v ===== *)
(** * The world the scheduler works in, and the repository interface

    Operations are shared by pointer: a heap holds the [types.Operation] structs, a nil
    pointer is [None].  The repository is the interface [Repository] of
    storage/interfaces.go, restricted to the calls the scheduler makes; it works on the
    database and, through the operation in the call's context, on the heap.
    [InTransaction] is the one of storage/postgres/storage.go.  [RepositoryLaws] states
    what the scheduler's theorems rely on; [memory_repository] implements both. *)

From S2P Require Import Prelude GoStd Errors OperationTypes.
From stdpp Require Import base gmap strings list.
From Stdlib Require Import ZArith.
Local Open Scope string_scope.

(** A [types.Object] that is not an operation: what the scheduler reads and writes of it, and
    the rest: the other fields of [types.Base] and those of its own type. *)
Record object_data := {
  dat_CreatedAt : Z; dat_UpdatedAt : Z; dat_Labels : gmap string (list string);
  dat_PagingSequence : Z; dat_Fields : string
}.
Definition no_data : object_data :=
  {| dat_CreatedAt := 0; dat_UpdatedAt := 0; dat_Labels := ∅; dat_PagingSequence := 0; dat_Fields := "" |}.
Record resource := {
  res_type : string; res_id : string; res_ready : bool; res_usable : bool; res_data : object_data
}.
#[global] Instance object_data_eq_dec : EqDecision object_data.
Proof. solve_decision. Defined.
#[global] Instance resource_eq_dec : EqDecision resource.
Proof. solve_decision. Defined.
Definition SetReady (b : bool) (r : resource) : resource :=
  {| res_type := res_type r; res_id := res_id r; res_ready := b; res_usable := res_usable r; res_data := res_data r |}.
(** [serviceInstance.Usable = true] when the object is a service instance. *)
Definition SetUsable (r : resource) : resource :=
  if String.eqb (res_type r) ServiceInstanceType
  then {| res_type := res_type r; res_id := res_id r; res_ready := res_ready r; res_usable := true; res_data := res_data r |}
  else r.

Notation op_ptr := nat.
Notation op_heap := (gmap nat Operation).

(** The operation in the context of a call. *)
Notation ctx := (option op_ptr).

Class Repository := {
  DB : Type;
  repo_last_operations : ctx -> string -> string -> DB * op_heap -> (DB * op_heap) * result (list Operation);
  repo_count_operations : ctx -> string -> DB * op_heap -> (DB * op_heap) * result Z;
  repo_create_operation : ctx -> Operation -> DB * op_heap -> (DB * op_heap) * result unit;
  repo_update_operation : ctx -> Operation -> DB * op_heap -> (DB * op_heap) * result unit;
  repo_get_operation : ctx -> string -> DB * op_heap -> (DB * op_heap) * result Operation;
  repo_get : ctx -> string -> string -> DB * op_heap -> (DB * op_heap) * result resource;
  repo_update : ctx -> resource -> DB * op_heap -> (DB * op_heap) * result resource;
  repo_delete_tx : ctx -> string -> string -> DB * op_heap -> (DB * op_heap) * result unit;
  (** calls outside of a transaction, around which interceptors run that may change the
      operation of the context *)
  repo_create_around : ctx -> resource -> DB * op_heap -> (DB * op_heap) * result resource;
  repo_update_around : ctx -> resource -> DB * op_heap -> (DB * op_heap) * result resource;
  repo_delete : ctx -> string -> string -> DB * op_heap -> (DB * op_heap) * result unit;
  tx_begin : DB -> result unit;
  tx_commit : DB -> result unit
}.

(** The actions a job runs: one handed in by a caller, the deletion of the resource of an
    operation, the creation or update of an object that the maintainer repeats for an
    operation, or a nil function. *)
Inductive storageAction :=
  | CallerAction (n : nat)
  | DeletionAction (op : op_ptr)
  | CreateAction (op : op_ptr) (object : resource)
  | UpdateAction (op : op_ptr) (object : resource)
  | NilAction.
Record job := { job_op : op_ptr; job_ctx : ctx; job_action : storageAction }.

Record World `{Repository} := {
  db : DB;
  heap : op_heap;
  clock : Z;            (** what [time.Now] returns *)
  workers : nat;        (** values in the channel [workers] *)
  wg : nat;             (** the counter of the wait group *)
  jobs : list job       (** goroutines that were started and have not ended *)
}.

(** ** Computations: they change the world and return, fail or panic *)
Section Monad.
Context `{Repository}.

Definition M (A : Type) : Type := World -> World * result A.
Definition m_ret {A} (a : A) : M A := fun w => (w, Ok a).
Definition m_fail {A} (e : error) : M A := fun w => (w, Err e).
Definition m_panic {A} (msg : string) : M A := fun w => (w, Panic msg).
Definition m_bind {A B} (m : M A) (f : A -> M B) : M B := fun w =>
  let '(w', r) := m w in
  match r with
  | Ok a => f a w'
  | Err e => (w', Err e)
  | Panic msg => (w', Panic msg)
  end.
(** The error of a call, as a value. *)
Definition attempt {A} (m : M A) : M (A + error) := fun w =>
  let '(w', r) := m w in
  match r with
  | Ok a => (w', Ok (inl a))
  | Err e => (w', Ok (inr e))
  | Panic msg => (w', Panic msg)
  end.
Definition lift {A} (r : result A) : M A := fun w => (w, r).

Definition set_db (w : World) (d : DB) (h : op_heap) : World :=
  {| db := d; heap := h; clock := clock w; workers := workers w; wg := wg w; jobs := jobs w |}.
Definition set_jobs (w : World) (n g : nat) (js : list job) : World :=
  {| db := db w; heap := heap w; clock := clock w; workers := n; wg := g; jobs := js |}.

Definition repo_call {A} (f : DB * op_heap -> (DB * op_heap) * result A) : M A := fun w =>
  let '((d, h), r) := f (db w, heap w) in (set_db w d h, r).

(** Reading and writing through a pointer. *)
Definition deref (p : option op_ptr) : M Operation := fun w =>
  match p ≫= (fun p => heap w !! p) with
  | Some op => (w, Ok op)
  | None => (w, Panic "nil pointer dereference")
  end.
Definition store (p : op_ptr) (op : Operation) : M unit := fun w =>
  (set_db w (db w) (<[p := op]> (heap w)), Ok tt).
Definition alloc (op : Operation) : M op_ptr := fun w =>
  let p := fresh (dom (heap w)) in (set_db w (db w) (<[p := op]> (heap w)), Ok p).

Definition time_now : M Z := fun w => (w, Ok (clock w)).

(** [Storage.InTransaction]: commit when [f] returns no error, roll back otherwise;
    what [f] did to memory stays. *)
Definition InTransaction {A} (f : M A) : M A := fun w =>
  match tx_begin (db w) with
  | Ok _ =>
      let '(w', r) := f w in
      let rolled_back := set_db w' (db w) (heap w') in
      match r with
      | Ok a => match tx_commit (db w') with
                | Ok _ => (w', Ok a)
                | Err e => (rolled_back, Err e)
                | Panic msg => (rolled_back, Panic msg)
                end
      | Err e => (rolled_back, Err e)
      | Panic msg => (rolled_back, Panic msg)
      end
  | Err e => (w, Err e)
  | Panic msg => (w, Panic msg)
  end.
End Monad.

Notation "'let!' x ':=' m 'in' k" := (m_bind m (fun x => k))
  (at level 10, x pattern, m at level 100, k at level 200) : sm_scope.
Notation "m ';!' k" := (m_bind m (fun _ => k)) (at level 100, right associativity) : sm_scope.

(** ** What the scheduler relies on *)

(** The user of an operation that is finished is dropped, in memory and in the database, when
    the operation is updated (storage/interceptors/operation_sanitizer_interceptor.go). *)
Definition without_user (c : OperationContext) : OperationContext :=
  {| Async := Async c; IsAsyncNotDefined := IsAsyncNotDefined c; Cascade := Cascade c; ServicePlanID := ServicePlanID c;
     ServiceInstanceID := ServiceInstanceID c; UserInfo_ := None; OperationTypes.Params := OperationTypes.Params c |}.
Definition ended (st : OperationState) : bool := bool_decide (st = SUCCEEDED) || bool_decide (st = FAILED).
Definition context_of (op : Operation) (c : option OperationContext) : Prop :=
  c = Context_ op \/ c = without_user <$> Context_ op.

(** [op], but for the labels, the creation time, the context and the transitive resources. *)
Definition with_rest (op : Operation) (labels : gmap string (list string)) (created : Z)
    (cx : option OperationContext) (l : list RelatedType) : Operation :=
  {| ID := ID op; CreatedAt := created; Labels_ := labels; Ready := Ready op;
     Description_ := Description_ op; Type_ := Type_ op; State := State op; ResourceID := ResourceID op;
     TransitiveResources := l; ResourceType := ResourceType op; Errors_ := Errors_ op;
     PlatformID := PlatformID op; CorrelationID := CorrelationID op; ExternalID := ExternalID op;
     ParentID := ParentID op; CascadeRootID := CascadeRootID op; Context_ := cx;
     Reschedule := Reschedule op; RescheduleTimestamp := RescheduleTimestamp op;
     DeletionScheduled := DeletionScheduled op |}.

(** [op'] is [op] with perhaps more transitive resources and without its user. *)
Definition later (op op' : Operation) : Prop :=
  exists l cx, TransitiveResources op `prefix_of` l /\ context_of op cx /\
    op' = with_rest op (Labels_ op) (CreatedAt op) cx l.
(** The row [o] keeps [op]: every column but the labels, which live in a table of their own
    (an interceptor adds the tenant, an update does not write them), the creation time, which
    the database rounds, and the user, which is dropped when the operation has ended. *)
Definition row_of (op o : Operation) : Prop :=
  exists labels created l cx, TransitiveResources op `prefix_of` l /\ context_of op cx /\
    o = with_rest op labels created cx l.

(** In the heap, a call at most drops the user of an operation, and adds transitive resources
    to the operation in its context. *)
Definition heap_framed (c : ctx) (h h' : op_heap) : Prop :=
  forall p op, h !! p = Some op ->
    exists op', h' !! p = Some op' /\ later op op' /\
      (Some p <> c -> TransitiveResources op' = TransitiveResources op).

(** The creation of a cascade deletion goes to the interceptors of
    storage/interceptors/smaap_cascade_operation_create_interceptor.go, which may return
    another operation in its place. *)
Definition plain (op : Operation) : Prop := CascadeRootID op = "" \/ Type_ op <> DELETE.

(** An update answers with the object it was given, as far as the scheduler reads it: the time
    of the update and the fields that are no columns differ. *)
Definition same_object (res res' : resource) : Prop :=
  res_type res' = res_type res /\ res_id res' = res_id res /\ res_ready res' = res_ready res /\
  res_usable res' = res_usable res /\ dat_CreatedAt (res_data res') = dat_CreatedAt (res_data res) /\
  dat_Labels (res_data res') = dat_Labels (res_data res).

Class RepositoryLaws `{Repository} := {
  (** the operations and the other resources a database holds *)
  stored_operation : DB -> string -> option Operation;
  stored_resource : DB -> string -> string -> option resource;
  last_operation : DB -> string -> string -> option Operation;
  law_last c id t d h d' h' r :
    repo_last_operations c id t (d, h) = ((d', h'), r) ->
    d' = d /\ h' = h /\ no_panic r /\ forall ops, r = Ok ops -> hd_error ops = last_operation d id t;
  law_count c id d h d' h' r :
    repo_count_operations c id (d, h) = ((d', h'), r) ->
    d' = d /\ h' = h /\ no_panic r /\
    forall n, r = Ok n -> (0 < n)%Z <-> is_Some (stored_operation d id);
  law_create c op d h d' h' r :
    repo_create_operation c op (d, h) = ((d', h'), r) ->
    dom h ⊆ dom h' /\ no_panic r /\ (forall e, r = Err e -> d' = d) /\
    (plain op -> r = Ok tt -> exists o, stored_operation d' (ID op) = Some o /\ row_of op o);
  law_update c op d h d' h' r :
    repo_update_operation c op (d, h) = ((d', h'), r) ->
    heap_framed c h h' /\ no_panic r /\
    (r = Ok tt -> (exists o, stored_operation d' (ID op) = Some o /\ row_of op o /\
                     (ended (State op) = true -> GetUserInfo o = None)) /\
       forall t id, stored_resource d' t id = stored_resource d t id) /\
    (forall e, r = Err e -> d' = d) /\
    (r = Err ENotFoundInStorage -> stored_operation d (ID op) = None);
  law_get_operation c id d h d' h' r :
    repo_get_operation c id (d, h) = ((d', h'), r) ->
    d' = d /\ h' = h /\ no_panic r /\ forall op, r = Ok op -> stored_operation d id = Some op;
  law_get c t id d h d' h' r :
    repo_get c t id (d, h) = ((d', h'), r) ->
    d' = d /\ h' = h /\ no_panic r /\
    (forall res, r = Ok res -> res_type res = t /\ res_id res = id /\
       (t <> OperationType -> stored_resource d t id = Some res)) /\
    (r = Err ENotFoundInStorage -> stored_resource d t id = None);
  (** the row and the answer of an update; what the interceptors write along with it (the
      catalog of a broker, notifications) is ready when the object is one of the database
      that was made ready *)
  law_update_resource c res d h d' h' r :
    repo_update c res (d, h) = ((d', h'), r) ->
    heap_framed c h h' /\ no_panic r /\
    forall res', r = Ok res' -> same_object res res' /\
      (forall row, stored_resource d' (res_type res) (res_id res) = Some row -> res_ready row = res_ready res /\
         (res_type res = ServiceInstanceType -> res_usable row = res_usable res)) /\
      (res_ready res = true -> (res_type res = OperationType \/
        exists old, stored_resource d (res_type res) (res_id res) = Some old /\ res = SetReady true old) ->
         forall t id, (forall row, stored_resource d t id = Some row -> res_ready row = true) ->
           forall row, stored_resource d' t id = Some row -> res_ready row = true);
  law_delete_tx c t id d h d' h' r :
    repo_delete_tx c t id (d, h) = ((d', h'), r) -> heap_framed c h h' /\ no_panic r;
  law_create_around c res d h d' h' r :
    repo_create_around c res (d, h) = ((d', h'), r) -> dom h ⊆ dom h';
  law_update_around c res d h d' h' r :
    repo_update_around c res (d, h) = ((d', h'), r) -> dom h ⊆ dom h';
  law_delete c t id d h d' h' r :
    repo_delete c t id (d, h) = ((d', h'), r) -> dom h ⊆ dom h';
  law_begin d : no_panic (tx_begin d);
  law_commit d : no_panic (tx_commit d)
}.

(** ** An in-memory repository

    It keeps the operations in the order of their creation (which is the order of the
    paging sequence that the query for the last operation of a resource uses) and the
    resources by type and id, and satisfies the laws the scheduler relies on. *)
Record memory_db := { mem_operations : list Operation; mem_resources : gmap (string * string) resource }.

Fixpoint find_operation (l : list Operation) (id : string) : option Operation :=
  match l with
  | [] => None
  | op :: rest => if String.eqb (ID op) id then Some op else find_operation rest id
  end.
Definition replace_operation (l : list Operation) (op : Operation) : list Operation :=
  map (fun x => if String.eqb (ID x) (ID op) then op else x) l.
Definition of_resource (id t : string) (op : Operation) : bool :=
  String.eqb (ResourceID op) id && String.eqb (ResourceType op) t.
Definition newest (l : list Operation) (id t : string) : option Operation :=
  last (List.filter (of_resource id t) l).

Definition with_operations (d : memory_db) (l : list Operation) : memory_db :=
  {| mem_operations := l; mem_resources := mem_resources d |}.
Definition with_resources (d : memory_db) (m : gmap (string * string) resource) : memory_db :=
  {| mem_operations := mem_operations d; mem_resources := m |}.

(** What [operationSanitizerInterceptor] stores. *)
Definition sanitized (op : Operation) : Operation :=
  if ended (State op)
  then with_rest op (Labels_ op) (CreatedAt op) (without_user <$> Context_ op) (TransitiveResources op)
  else op.

#[export] Instance memory_repository : Repository := {
  DB := memory_db;
  repo_last_operations := fun _ id t '(d, h) => ((d, h), Ok (option_list (newest (mem_operations d) id t)));
  repo_count_operations := fun _ id '(d, h) =>
    ((d, h), Ok (if find_operation (mem_operations d) id then 1%Z else 0%Z));
  repo_create_operation := fun _ op '(d, h) =>
    match find_operation (mem_operations d) (ID op) with
    | Some _ => ((d, h), Err EAlreadyExistsInStorage)
    | None => ((with_operations d (mem_operations d ++ [op]), h), Ok tt)
    end;
  repo_update_operation := fun _ op '(d, h) =>
    match find_operation (mem_operations d) (ID op) with
    | None => ((d, h), Err ENotFoundInStorage)
    | Some _ => ((with_operations d (replace_operation (mem_operations d) (sanitized op)), h), Ok tt)
    end;
  repo_get_operation := fun _ id '(d, h) =>
    ((d, h), match find_operation (mem_operations d) id with Some op => Ok op | None => Err ENotFoundInStorage end);
  repo_get := fun _ t id '(d, h) =>
    ((d, h), match mem_resources d !! (t, id) with
             | Some res => if decide (res_type res = t /\ res_id res = id) then Ok res else Err (EPlain "corrupt")
             | None => Err ENotFoundInStorage
             end);
  repo_update := fun _ res '(d, h) =>
    ((with_resources d (<[(res_type res, res_id res) := res]> (mem_resources d)), h), Ok res);
  repo_delete_tx := fun _ t id '(d, h) =>
    match mem_resources d !! (t, id) with
    | Some _ => ((with_resources d (delete (t, id) (mem_resources d)), h), Ok tt)
    | None => ((d, h), Err ENotFoundInStorage)
    end;
  repo_create_around := fun _ res '(d, h) =>
    match mem_resources d !! (res_type res, res_id res) with
    | Some _ => ((d, h), Err EAlreadyExistsInStorage)
    | None => ((with_resources d (<[(res_type res, res_id res) := res]> (mem_resources d)), h), Ok res)
    end;
  repo_update_around := fun _ res '(d, h) =>
    ((with_resources d (<[(res_type res, res_id res) := res]> (mem_resources d)), h), Ok res);
  repo_delete := fun _ t id '(d, h) =>
    match mem_resources d !! (t, id) with
    | Some _ => ((with_resources d (delete (t, id) (mem_resources d)), h), Ok tt)
    | None => ((d, h), Err ENotFoundInStorage)
    end;
  tx_begin := fun _ => Ok tt;
  tx_commit := fun _ => Ok tt
}.

Lemma find_app l op : find_operation l (ID op) = None -> find_operation (l ++ [op]) (ID op) = Some op.
Proof.
  induction l as [|x l IH]; simpl; [by rewrite String.eqb_refl|].
  destruct (String.eqb _ _); [done|auto].
Qed.
Lemma find_id l id op : find_operation l id = Some op -> ID op = id.
Proof. induction l as [|x l IH]; simpl; [done|]. destruct (String.eqb_spec (ID x) id); [by intros [= <-]|done]. Qed.
Lemma find_replace l op o x : find_operation l (ID op) = Some o -> ID x = ID op ->
  find_operation (replace_operation l x) (ID op) = Some x.
Proof.
  intros Ho Hx. induction l as [|y l IH]; simpl in *; [done|]. rewrite Hx.
  destruct (String.eqb_spec (ID y) (ID op)) as [E|E]; [by rewrite Hx, String.eqb_refl|].
  destruct (String.eqb_spec (ID y) (ID op)); [done|auto].
Qed.
Lemma later_refl op : later op op.
Proof. exists (TransitiveResources op), (Context_ op). split_and!; [done|by left|by destruct op]. Qed.
Lemma row_refl op : row_of op op.
Proof. exists (Labels_ op), (CreatedAt op), (TransitiveResources op), (Context_ op). split_and!; [done|by left|by destruct op]. Qed.
Lemma same_frame c h : heap_framed c h h.
Proof. intros p op Hp. exists op. split_and!; [done|apply later_refl|done]. Qed.
Lemma row_sanitized op : row_of op (sanitized op).
Proof.
  unfold sanitized. destruct (ended _); [|apply row_refl].
  eexists _, _, _, _. split_and!; [| |reflexivity]; [done|by right].
Qed.
Lemma sanitized_user op : ended (State op) = true -> GetUserInfo (sanitized op) = None.
Proof. unfold sanitized. intros ->. unfold GetUserInfo. simpl. by destruct (Context_ op). Qed.

#[export] Program Instance memory_laws : RepositoryLaws := {
  stored_operation := fun d id => find_operation (mem_operations d) id;
  stored_resource := fun d t id => mem_resources d !! (t, id);
  last_operation := fun d id t => newest (mem_operations d) id t
}.
Next Obligation.
  intros c id t d h d' h' r [= <- <- <-]. split_and!; try done. intros ops [= <-]. by destruct (newest _ _ _).
Qed.
Next Obligation.
  intros c id d h d' h' r [= <- <- <-]. split_and!; try done. intros n [= <-].
  destruct (find_operation _ _); split; [by eauto|lia|lia|by intros []].
Qed.
Next Obligation.
  intros c op d h d' h' r. simpl. destruct (find_operation _ _) eqn:E; intros [= <- <- <-]; (split_and!; [done..| |]); try done.
  intros _ _. exists op. split; [by apply find_app|apply row_refl].
Qed.
Next Obligation.
  intros c op d h d' h' r. simpl. destruct (find_operation _ _) eqn:E; intros [= <- <- <-];
    (split_and!; [apply same_frame|done|try done|by try intros ? [=]|done]).
  intros _. split; [|done]. exists (sanitized op). simpl. split_and!; [|apply row_sanitized|apply sanitized_user].
  eapply find_replace; [done|]. unfold sanitized. by destruct (ended _).
Qed.
Next Obligation.
  intros c id d h d' h' r [= <- <- <-]. destruct (find_operation _ _); split_and!; try done.
  by intros op [= <-].
Qed.
Next Obligation.
  intros c t id d h d' h' r. simpl. intros [= <- <- <-]. destruct (mem_resources d !! (t, id)) as [res|] eqn:E;
    [case_decide as Hc|]; split_and!; try done. intros res0 [= <-]. destruct Hc. by split_and!.
Qed.
Next Obligation.
  intros c res d h d' h' r [= <- <- <-]. split_and!; [apply same_frame|done|]. intros res' [= <-]. simpl.
  split_and!; [by unfold same_object| |].
  - intros row. rewrite lookup_insert_eq. by intros [= <-].
  - intros Hready _ t id Hr row. rewrite lookup_insert_Some. intros [[_ <-]|[_ Hrow]]; [done|by apply Hr].
Qed.
Next Obligation.
  intros c t id d h d' h' r. simpl. destruct (mem_resources d !! _); intros [= <- <- <-]; (split; [apply same_frame|done]).
Qed.
Next Obligation. intros c res d h d' h' r. simpl. by destruct (mem_resources d !! _); intros [= _ <- _]. Qed.
Next Obligation. by intros c res d h d' h' r [= _ <- _]. Qed.
Next Obligation. intros c t id d h d' h' r. simpl. by destruct (mem_resources d !! _); intros [= _ <- _]. Qed.
Next Obligation. done. Qed.
Next Obligation. done. Qed.
