(* ===== verification/Scheduler.v ===== *)
(** * The operation scheduler (operations/scheduler.go)

    Every function of the scheduler that decides or changes something, over the world of
    [Repository]: the preconditions and the conflict check of an operation, running an
    action synchronously or in a worker, and the handling of its outcome.  A job is run
    by [run_job], which is the body of the goroutine with its deferred function; a panic
    it does not recover from ends the process. *)

From S2P Require Import Prelude GoStd Errors OperationTypes Repository.
From stdpp Require Import base gmap strings list.
From Stdlib Require Import ZArith.
Local Open Scope string_scope.

Definition StatusUnprocessableEntity : Z := 422.
Definition StatusForbidden : Z := 403.
Definition StatusBadGateway : Z := 502.
Definition StatusServiceUnavailable : Z := 503.

Record Scheduler := {
  poolSize : nat;
  actionTimeout : Z;
  reconciliationOperationTimeout : Z;
  cascadeOrphanMitigationTimeout : Z;
  reschedulingDelay : Z;
  reschedulingLongDelay : Z
}.

Definition NewScheduler (settings : Settings) (size : nat) : Scheduler :=
  {| poolSize := size; actionTimeout := ActionTimeout settings;
     reconciliationOperationTimeout := ReconciliationOperationTimeout settings;
     cascadeOrphanMitigationTimeout := CascadeOrphanMitigationTimeout settings;
     reschedulingDelay := ReschedulingInterval settings;
     reschedulingLongDelay := ReschedulingLongInterval settings |}.

Definition concurrent_operation : error :=
  EHTTP "ConcurrentOperationInProgress" "Another concurrent operation in progress for this resource"
    StatusUnprocessableEntity.
Definition deletion_in_progress : error :=
  EHTTP "ConcurrentOperationInProgress" "Deletion is currently in progress for this resource"
    StatusUnprocessableEntity.
Definition unknown_type (c : OperationCategory) : error :=
  EPlain ("operation type " ++ category_string c ++ " is unknown type").

Definition checkForConcurrentOperations (operation lastOperation : Operation) : result unit :=
  let isDeletionScheduled := InOrphanMitigationState lastOperation in
  let isLastOpInProgress := bool_decide (State lastOperation = IN_PROGRESS) in
  let isAReschedule := Reschedule lastOperation && Reschedule operation in
  match Type_ lastOperation with
  | CREATE =>
      match Type_ operation with
      | CREATE => guard_err (isLastOpInProgress && negb isDeletionScheduled && negb isAReschedule) concurrent_operation
      | UPDATE => guard_err isLastOpInProgress concurrent_operation
      | DELETE => Ok tt
      | OtherCategory _ => Err (unknown_type (Type_ operation))
      end
  | UPDATE =>
      match Type_ operation with
      | CREATE => guard_err isLastOpInProgress concurrent_operation
      | UPDATE => guard_err (isLastOpInProgress && negb isDeletionScheduled && negb isAReschedule) concurrent_operation
      | DELETE => Ok tt
      | OtherCategory _ => Err (unknown_type (Type_ operation))
      end
  | DELETE =>
      match Type_ operation with
      | CREATE => guard_err (isLastOpInProgress || isDeletionScheduled) deletion_in_progress
      | UPDATE => guard_err (isLastOpInProgress || isDeletionScheduled) deletion_in_progress
      | DELETE => guard_err (isLastOpInProgress && negb isDeletionScheduled && negb isAReschedule) deletion_in_progress
      | OtherCategory _ => Err (unknown_type (Type_ operation))
      end
  | OtherCategory _ => Err (unknown_type (Type_ lastOperation))
  end.

Section Scheduler.
Context `{Repository}.
Variable s : Scheduler.
(** The actions handed in by callers: they get the context with the operation. *)
Variable caller_action : nat -> ctx -> M (option resource).
(** [select] on the scheduler's context and [time.After]: nothing when the time passed,
    the context's error when it was done first. *)
Variable await : Z -> M (option error).
(** The texts of a [time.Duration] and of the JSON of the errors of an operation. *)
Variable duration_string : Z -> string.
Variable errors_string : option errors_json -> string.

Definition handled_storage_error (e : error) (entity : string) : error :=
  default e (HandleStorageError (Some e) entity).

(** [operation.f = x] through a pointer. *)
Definition modify (p : option op_ptr) (f : Operation -> Operation) : M unit :=
  let! op := deref p in
  match p with Some p => store p (f op) | None => m_panic "nil pointer dereference" end.

Definition updateOperationState (c : ctx) (operation : option op_ptr) (state : OperationState)
    (opErr : option error) : M unit :=
  modify operation (fun op => set_State op state) ;!
  match opErr with
  | Some e =>
      let httpError := ToHTTPError e in
      modify operation (fun op =>
        match Errors_ op with
        | None => set_Errors op (Some (HTTPErrorJSON (ErrorType httpError) (Description httpError)))
        | Some _ => op
        end)
  | None => m_ret tt
  end ;!
  let! op := deref operation in
  let! r := attempt (repo_call (repo_update_operation c op)) in
  match r with
  | inl _ => m_ret tt
  | inr ENotFoundInStorage => m_ret tt
  | inr e => m_fail (EPlain ("failed to update state of operation with id " ++ ID op ++ " to " ++
                            state_string state ++ ": " ++ Error e))
  end.

Definition refetchOperation (c : ctx) (operation : op_ptr) : M op_ptr :=
  let! op := deref (Some operation) in
  let! r := attempt (repo_call (repo_get_operation c (ID op))) in
  match r with
  | inl opObject => alloc opObject
  | inr e =>
      let opErr := EPlain ("failed to re-fetch currently executing operation with id " ++ ID op ++
                           " from db: " ++ Error e) in
      let! u := attempt (updateOperationState c (Some operation) FAILED (Some opErr)) in
      match u with
      | inl _ => m_fail opErr
      | inr err => m_fail (EPlain ("setting new operation state due to err " ++ Error opErr ++
                                  " failed: " ++ Error err))
      end
  end.

(** [opcontext.Set] validates the operation. *)
Definition addOperationToContext (c : ctx) (operation : op_ptr) : M ctx :=
  let! op := deref (Some operation) in
  match Operation_Validate op with
  | Ok _ => m_ret (Some operation)
  | Panic m => m_panic m
  | Err e =>
      let setCtxErr := EPlain ("failed to set operation in job context: " ++ Error e) in
      let! u := attempt (updateOperationState c (Some operation) FAILED (Some setCtxErr)) in
      match u with
      | inl _ => m_fail setCtxErr
      | inr err => m_fail (EPlain ("setting new operation state due to err " ++ Error setCtxErr ++
                                  " failed: " ++ Error err))
      end
  end.

Definition updateResource (c : ctx) (objectAfterAction : option resource) (updateFunc : resource -> resource)
    : M resource :=
  match objectAfterAction with
  | None => m_panic "nil pointer dereference"
  | Some obj =>
      let obj := updateFunc obj in
      let! r := attempt (repo_call (repo_update c obj)) in
      match r with
      | inl updatedObject => m_ret updatedObject
      | inr _ => m_fail (EPlain ("failed to update object with type " ++ res_type obj ++ " and id " ++ res_id obj))
      end
  end.

Definition fetchAndUpdateResource (c : ctx) (objectID objectType : string) (updateFunc : resource -> resource)
    : M unit :=
  let! r := attempt (repo_call (repo_get c objectType objectID)) in
  match r with
  | inr ENotFoundInStorage => m_ret tt
  | inr e => m_fail (EPlain ("failed to retrieve object of type " ++ objectType ++ " with id " ++ objectID ++
                            ":" ++ Error e))
  | inl objectFromDB => updateResource c (Some objectFromDB) updateFunc ;! m_ret tt
  end.

Fixpoint updateTransitiveResources (c : ctx) (resources : list RelatedType)
    (updateFunc : resource -> resource) : M unit :=
  match resources with
  | [] => m_ret tt
  | trR :: rest =>
      (if bool_decide (rel_OperationType trR = CREATE)
       then fetchAndUpdateResource c (rel_ID trR) (rel_Type trR) updateFunc
       else m_ret tt) ;!
      updateTransitiveResources c rest updateFunc
  end.

Definition validateOperationDoesNotExceedTimeouts (now : Z) (operation : Operation) : result unit :=
  guard_err (negb (String.eqb (CascadeRootID operation) "") && InOrphanMitigationState operation &&
             (CreatedAt operation + cascadeOrphanMitigationTimeout s <? now)%Z)
    (EHTTP "ManualActionRequired"
       ("operations is older than " ++ duration_string (cascadeOrphanMitigationTimeout s) ++
        " and has exceed the maximmum cascade orphan mitigation timeout. Rootcause error: " ++
        errors_string (Errors_ operation)) StatusUnprocessableEntity) ;;;
  guard_err (CreatedAt operation + reconciliationOperationTimeout s <? now)%Z
    (EHTTP "ManualActionRequired"
       ("operation is older than " ++ duration_string (reconciliationOperationTimeout s) ++
        " and has exceeded the maximum reconciliation timeout. Rootcause error: " ++
        errors_string (Errors_ operation)) StatusUnprocessableEntity).

(** The last operation of the resource and whether the current one is stored. *)
Definition getResourceLastOperation (c : ctx) (operation : Operation) (checkForExistingOperation : bool)
    : M (option Operation * bool) :=
  let! r := attempt (repo_call (repo_last_operations c (ResourceID operation) (ResourceType operation))) in
  match r with
  | inr e => m_fail (handled_storage_error e OperationType)
  | inl [] => m_ret (None, false)
  | inl (lastOperation :: _) =>
      if checkForExistingOperation then
        let! r := attempt (repo_call (repo_count_operations c (ID operation))) in
        match r with
        | inr e => m_fail (handled_storage_error e OperationType)
        | inl count => m_ret (Some lastOperation, (0 <? count)%Z)
        end
      else m_ret (Some lastOperation, false)
  end.

Definition storeOrUpdateOperation (c : ctx) (operation : Operation) (currentOpExists : bool) : M unit :=
  let! r := attempt (repo_call (if currentOpExists then repo_update_operation c operation
                                else repo_create_operation c operation)) in
  match r with
  | inl _ => m_ret tt
  | inr e => m_fail (handled_storage_error e OperationType)
  end.

Definition update_not_allowed : error :=
  EHTTP "UpdateOperationIsNotAllowed" "Update is not possible for this resource" StatusForbidden.

Definition blocked_update (operation lastOperation : Operation) : bool :=
  bool_decide (Type_ operation = UPDATE) && bool_decide (Type_ lastOperation = CREATE) &&
  bool_decide (State lastOperation = FAILED) &&
  (String.eqb (ResourceType operation) ServiceBindingType ||
   String.eqb (ResourceType operation) ServiceInstanceType).

Definition executeOperationPreconditions (c : ctx) (operation : op_ptr) : M unit :=
  let! op := deref (Some operation) in
  if bool_decide (State op = SUCCEEDED) ||
     (bool_decide (State op = FAILED) && negb (InOrphanMitigationState op))
  then m_fail (EPlain ("scheduling for operations " ++ ID op ++ " is not allowed due to invalid state"))
  else
  let! now := time_now in
  match validateOperationDoesNotExceedTimeouts now op with
  | Panic m => m_panic m
  | Err err =>
      modify (Some operation) (fun op => set_DeletionScheduled op None) ;!
      let! u := attempt (updateOperationState c (Some operation) FAILED (Some err)) in
      match u with
      | inl _ => m_fail err
      | inr _ => m_fail (EPlain ("failed to update error of operation with id " ++ ID op ++ " to " ++ Error err))
      end
  | Ok _ =>
      match Operation_Validate op with
      | Panic m => m_panic m
      | Err err => m_fail (EPlain ("scheduled operation is not valid: " ++ Error err))
      | Ok _ =>
          let! (last, currentOpExists) := getResourceLastOperation c op true in
          match last with
          | Some lastOperation =>
              lift (checkForConcurrentOperations op lastOperation) ;!
              lift (guard_err (blocked_update op lastOperation) update_not_allowed)
          | None => m_ret tt
          end ;!
          storeOrUpdateOperation c op currentOpExists
      end
  end.

(** [ScheduleAsyncStorageAction]: take a worker if one is free; the goroutine is added to
    the jobs. *)
Definition ScheduleAsyncStorageAction (c : ctx) (operation : op_ptr) (action : storageAction) : M unit :=
  fun w =>
  if decide (workers w < poolSize s)%nat then
    let '(w', r) := executeOperationPreconditions c operation (set_jobs w (S (workers w)) (wg w) (jobs w)) in
    match r with
    | Err e => (set_jobs w' (pred (workers w')) (wg w') (jobs w'), Err e)
    | Panic m => (w', Panic m)
    | Ok _ =>
        (set_jobs w' (workers w') (S (wg w'))
           (jobs w' ++ [{| job_op := operation; job_ctx := c; job_action := action |}])%list, Ok tt)
    end
  else
    (w, Err (EHTTP "ServiceUnavailable"
               "Failed to schedule job. Server is busy - try again in a few minutes."
               StatusServiceUnavailable)).

(** The transaction of [handleActionResponseFailure]. *)
Definition failure_transaction (c : ctx) (actionError : error) (opAfterJob : op_ptr) : M unit :=
  InTransaction (
    let! op := deref (Some opAfterJob) in
    (if bool_decide (Type_ op = CREATE) && bool_decide (State op = FAILED) then
       fetchAndUpdateResource c (ResourceID op) (ResourceType op) (SetReady false) ;!
       let! op := deref (Some opAfterJob) in
       updateTransitiveResources c (TransitiveResources op) (SetReady false)
     else m_ret tt) ;!
    let! op := deref (Some opAfterJob) in
    let! newState :=
      (if IsForceDeleteCascadeOperation op && negb (InOrphanMitigationState op) then
         let! r := attempt (repo_call (repo_delete_tx c (ResourceType op) (ResourceID op))) in
         match r with
         | inl _ | inr ENotFoundInStorage => m_ret SUCCEEDED
         | inr _ => m_ret FAILED
         end
       else m_ret FAILED) in
    let! u := attempt (updateOperationState c (Some opAfterJob) newState (Some actionError)) in
    match u with
    | inl _ => m_ret tt
    | inr opErr => m_fail (EPlain ("setting new operation state failed: " ++ Error opErr))
    end).

(** Is the resource of a failed operation to be deleted by rescheduling the operation? *)
Definition isDeleteRescheduleRequired (now : Z) (op : Operation) : bool :=
  match DeletionScheduled op with
  | Some t => (now <? t + reconciliationOperationTimeout s)%Z && negb (bool_decide (State op = SUCCEEDED))
  | None => false
  end.

Definition rescheduling_delay (now : Z) (op : Operation) : Z :=
  match DeletionScheduled op with
  | Some t => if (t + actionTimeout s * 2 <? now)%Z then reschedulingLongDelay s else reschedulingDelay s
  | None => reschedulingDelay s
  end.

Definition handleActionResponseFailure (c : ctx) (actionError : error) (opAfterJob : op_ptr) : M unit :=
  failure_transaction c actionError opAfterJob ;!
  let! op := deref (Some opAfterJob) in
  let! now := time_now in
  if isDeleteRescheduleRequired now op then
    let! now := time_now in
    let! cancelled := await (rescheduling_delay now op) in
    match cancelled with
    | Some e => m_fail (EPlain ("sm context canceled: " ++ Error e))
    | None =>
        let! r := attempt (ScheduleAsyncStorageAction c opAfterJob (DeletionAction opAfterJob)) in
        match r with
        | inl _ => m_fail actionError
        | inr orphanMitigationErr =>
            m_fail (EHTTP "BrokerError"
              ("job failed with " ++ Error actionError ++ " and orphan mitigation failed with " ++
               Error orphanMitigationErr) StatusBadGateway)
        end
    end
  else m_fail actionError.

(** The transaction of [handleActionResponseSuccess]; it returns the object. *)
Definition success_transaction (c : ctx) (actionObject : option resource) (opAfterJob : op_ptr)
    : M (option resource) :=
  InTransaction (
    let! op := deref (Some opAfterJob) in
    let! finalState :=
      (if negb (bool_decide (Type_ op = DELETE)) && InOrphanMitigationState op then m_ret FAILED
       else
         modify (Some opAfterJob) (fun op => set_Errors op None) ;!
         m_ret (if String.eqb (CascadeRootID op) "" || negb (bool_decide (State op = PENDING))
                  then SUCCEEDED else State op)) in
    modify (Some opAfterJob) (fun op => set_DeletionScheduled op None) ;!
    let! actionObject :=
      (if bool_decide (Type_ op = CREATE) && bool_decide (finalState = SUCCEEDED) then
         let! updated := updateResource c actionObject (fun obj => SetReady true (SetUsable obj)) in
         let! op := deref (Some opAfterJob) in
         updateTransitiveResources c (TransitiveResources op) (SetReady true) ;!
         m_ret (Some updated)
       else m_ret actionObject) in
    updateOperationState c (Some opAfterJob) finalState None ;!
    m_ret actionObject).

Definition handleActionResponseSuccess (c : ctx) (actionObject : option resource) (opAfterJob : op_ptr)
    : M (option resource) :=
  let! r := attempt (success_transaction c actionObject opAfterJob) in
  match r with
  | inl object => m_ret object
  | inr err =>
      let! op := deref (Some opAfterJob) in
      m_fail (EPlain ("failed to update resource ready or operation state after a successfully executing operation with id "
                     ++ ID op ++ ": " ++ Error err))
  end.

Definition handleActionResponse (c : ctx) (actionObject : option resource) (actionError : option error)
    (opBeforeJob : op_ptr) : M (option resource) :=
  let! opAfterJob := refetchOperation c opBeforeJob in
  let! before := deref (Some opBeforeJob) in
  modify (Some opAfterJob) (fun op => set_TransitiveResources op (TransitiveResources before)) ;!
  let! c := addOperationToContext c opAfterJob in
  let! op := deref (Some opAfterJob) in
  match actionError with
  | Some e => handleActionResponseFailure c e opAfterJob ;! m_ret None
  | None => if Reschedule op then m_ret actionObject
            else handleActionResponseSuccess c actionObject opAfterJob
  end.

Definition run_action (action : storageAction) (c : ctx) : M (option resource) :=
  match action with
  | CallerAction n => caller_action n c
  | DeletionAction p =>
      let! op := deref (Some p) in
      let! r := attempt (repo_call (repo_delete c (ResourceType op) (ResourceID op))) in
      match r with
      | inl _ | inr ENotFoundInStorage => m_ret None
      | inr e => m_fail (handled_storage_error e (ResourceType op))
      end
  | CreateAction p object =>
      let! op := deref (Some p) in
      let! r := attempt (repo_call (repo_create_around c object)) in
      match r with inl o => m_ret (Some o) | inr e => m_fail (handled_storage_error e (ResourceType op)) end
  | UpdateAction p object =>
      let! op := deref (Some p) in
      let! r := attempt (repo_call (repo_update_around c object)) in
      match r with inl o => m_ret (Some o) | inr e => m_fail (handled_storage_error e (ResourceType op)) end
  | NilAction => m_panic "nil pointer dereference"
  end.

Definition object_of (r : option resource + error) : option resource :=
  match r with inl o => o | inr _ => None end.
Definition error_of (r : option resource + error) : option error :=
  match r with inl _ => None | inr e => Some e end.

Definition ScheduleSyncStorageAction (c : ctx) (operation : op_ptr) (action : storageAction)
    : M (option resource) :=
  executeOperationPreconditions c operation ;!
  let! ctxWithOp := addOperationToContext c operation in
  let! r := attempt (run_action action ctxWithOp) in
  handleActionResponse c (object_of r) (error_of r) operation.

(** The object, whether the action goes on asynchronously, and the error. *)
Definition ScheduleStorageAction (c : ctx) (operation : op_ptr) (action : storageAction)
    (isAsyncSupported : bool) : M (option resource * bool * option error) :=
  let! op := deref (Some operation) in
  match Context_ op with
  | None => m_panic "nil pointer dereference"
  | Some opctx =>
      if IsAsyncNotDefined opctx && isAsyncSupported then
        let! r := attempt (ScheduleSyncStorageAction c operation action) in
        match r with
        | inr e => m_ret (None, false, Some e)
        | inl object =>
            let! op := deref (Some operation) in
            let! l := attempt (getResourceLastOperation c op false) in
            match l with
            | inr e => m_ret (None, false, Some e)
            | inl (None, _) => m_panic "nil pointer dereference"
            | inl (Some lastOperation, _) =>
                if Reschedule lastOperation then
                  let! a := attempt (ScheduleAsyncStorageAction c operation action) in
                  match a with
                  | inr e => m_ret (None, false, Some e)
                  | inl _ => m_ret (None, true, None)
                  end
                else m_ret (object, false, None)
            end
        end
      else
        let! op := deref (Some operation) in
        let! async := lift (IsAsyncResponse op) in
        if (async : bool) then
          if negb isAsyncSupported then
            m_ret (None, false, Some (EHTTP "InvalidRequest"
              "requested api doesn't support asynchronous operations" StatusBadRequest))
          else
            let! a := attempt (ScheduleAsyncStorageAction c operation action) in
            m_ret (None, true, match a with inr e => Some e | inl _ => None end)
        else
          let! r := attempt (ScheduleSyncStorageAction c operation action) in
          m_ret (object_of r, false, error_of r)
  end.

(** ** The goroutine *)
Definition job_body (j : job) : M unit :=
  let! a := attempt (addOperationToContext (job_ctx j) (job_op j)) in
  match a with
  | inr _ => m_ret tt
  | inl ctxWithOp =>
      let! r := attempt (run_action (job_action j) ctxWithOp) in
      let! u := attempt (handleActionResponse (job_ctx j) (object_of r) (error_of r) (job_op j)) in
      m_ret tt
  end.

Definition job_interrupted : error :=
  EHTTP "InternalServerError" "job interrupted" StatusInternalServerError.

(** The deferred function after a panic: [op] is nil when the re-fetch failed. *)
Definition recover_job (j : job) : M unit :=
  let! r := attempt (refetchOperation (job_ctx j) (job_op j)) in
  let op := match r with inl p => Some p | inr _ => None end in
  let! u := attempt (updateOperationState (job_ctx j) op FAILED (Some job_interrupted)) in
  m_ret tt.

(** The goroutine of the [k]-th job. *)
Definition run_job (k : nat) : M unit := fun w =>
  match jobs w !! k with
  | None => (w, Ok tt)
  | Some j =>
      let '(w1, r) := job_body j w in
      let '(w2, r2) := match r with Panic _ => recover_job j w1 | _ => (w1, Ok tt) end in
      match r2 with
      | Panic m => (w2, Panic m)
      | _ => (set_jobs w2 (pred (workers w2)) (pred (wg w2)) (delete k (jobs w2)), Ok tt)
      end
  end.

End Scheduler.
