(* ===== verification/SchedulerProps.v ===== *)
(** * Properties of the operation scheduler *)

From S2P Require Import Prelude GoStd Errors OperationTypes Repository Scheduler.
From stdpp Require Import base gmap strings list relations.
From Stdlib Require Import ZArith.
Local Open Scope string_scope.

(** ** Inversion of computations *)
Section Inversion.
Context `{Repository}.

Lemma m_bind_inv {A B} (m : M A) (f : A -> M B) w w' r :
  m_bind m f w = (w', r) ->
  exists w1 r1, m w = (w1, r1) /\
    match r1 with
    | Ok a => f a w1 = (w', r)
    | Err e => w' = w1 /\ r = Err e
    | Panic msg => w' = w1 /\ r = Panic msg
    end.
Proof.
  unfold m_bind. destruct (m w) as [w1 r1]. intros E. exists w1, r1. split; [done|].
  destruct r1; by simplify_eq.
Qed.

Lemma attempt_inv {A} (m : M A) w w' r :
  attempt m w = (w', r) ->
  exists r1, m w = (w', r1) /\
    r = match r1 with Ok a => Ok (inl a) | Err e => Ok (inr e) | Panic msg => Panic msg end.
Proof.
  unfold attempt. destruct (m w) as [w1 r1]. intros E. exists r1. destruct r1; by simplify_eq.
Qed.

Lemma repo_call_inv {A} (f : DB * op_heap -> (DB * op_heap) * result A) w w' r :
  repo_call f w = (w', r) ->
  exists d h, f (db w, heap w) = ((d, h), r) /\ w' = set_db w d h.
Proof. unfold repo_call. destruct (f (db w, heap w)) as [[d h] r1]. intros E; simplify_eq; eauto. Qed.

Lemma deref_inv p w w' r :
  deref p w = (w', r) ->
  w' = w /\ ((exists q op, p = Some q /\ heap w !! q = Some op /\ r = Ok op) \/
             ((p = None \/ exists q, p = Some q /\ heap w !! q = None) /\ exists m, r = Panic m)).
Proof.
  unfold deref. destruct p as [q|]; simpl; [destruct (heap w !! q) eqn:E|]; intros E'; simplify_eq; eauto 10.
Qed.

Lemma set_db_set_db w d1 h1 d2 h2 : set_db (set_db w d1 h1) d2 h2 = set_db w d2 h2.
Proof. done. Qed.
Lemma set_db_id w : set_db w (db w) (heap w) = w.
Proof. by destruct w. Qed.
End Inversion.

(** One step of a computation in a hypothesis. *)
Ltac m_step :=
  match goal with
  | E : m_bind _ _ _ = (_, _) |- _ =>
      let w := fresh "w" in let r := fresh "r" in let E1 := fresh "E" in
      apply m_bind_inv in E; destruct E as (w & r & E1 & E); destruct r
  | E : attempt _ _ = (_, _) |- _ =>
      let r := fresh "r" in let E1 := fresh "E" in
      apply attempt_inv in E; destruct E as (r & E1 & E); destruct r
  | E : repo_call _ _ = (_, _) |- _ =>
      let d := fresh "d" in let h := fresh "h" in let E1 := fresh "E" in
      apply repo_call_inv in E; destruct E as (d & h & E1 & E)
  | E : m_ret _ _ = (_, _) |- _ => unfold m_ret in E
  | E : m_fail _ _ = (_, _) |- _ => unfold m_fail in E
  | E : m_panic _ _ = (_, _) |- _ => unfold m_panic in E
  | E : lift _ _ = (_, _) |- _ => unfold lift in E
  | E : time_now _ = (_, _) |- _ => unfold time_now in E
  end; simplify_eq/=.

(** ** Worker slots

    [grows poolSize w w'] relates the worlds before and after code that may start jobs:
    the new jobs are behind the old ones, a slot and a count of the wait group is taken
    for each, the pool is not exceeded, and no operation is freed. *)
Section Slots.
Context `{RepositoryLaws}.
Variable s : Scheduler.
Variable duration_string : Z -> string.
Variable errors_string : option errors_json -> string.

Definition grows (w w' : World) : Prop :=
  exists new,
    jobs w' = (jobs w ++ new)%list /\
    workers w' = (workers w + length new)%nat /\
    wg w' = (wg w + length new)%nat /\
    (workers w <= poolSize s -> workers w' <= poolSize s)%nat /\
    dom (heap w) ⊆ dom (heap w').

Definition keeps_at {A} (w : World) (m : M A) : Prop := forall w' r, m w = (w', r) -> grows w w'.
Definition keeps {A} (m : M A) : Prop := forall w, keeps_at w m.

Lemma grows_refl w : grows w w.
Proof. exists []. rewrite app_nil_r, !Nat.add_0_r. done. Qed.
Lemma grows_trans w1 w2 w3 : grows w1 w2 -> grows w2 w3 -> grows w1 w3.
Proof.
  intros (n1 & E1 & E2 & E3 & E4 & E5) (n2 & F1 & F2 & F3 & F4 & F5). exists (n1 ++ n2)%list.
  rewrite app_assoc, length_app, <- E1. split_and!; [done|lia..|auto|set_solver].
Qed.
Lemma grows_set_db w d h : dom (heap w) ⊆ dom h -> grows w (set_db w d h).
Proof. intros Hd. exists []. simpl. rewrite app_nil_r, !Nat.add_0_r. done. Qed.
Lemma framed_dom c (h h' : op_heap) : heap_framed c h h' -> dom h ⊆ dom h'.
Proof. intros Hf p. rewrite !elem_of_dom. intros [op Hp]. destruct (Hf _ _ Hp) as (op' & -> & _). eauto. Qed.

Lemma keeps_bind_at {A B} w (m : M A) (f : A -> M B) :
  keeps_at w m -> (forall w' a, m w = (w', Ok a) -> keeps_at w' (f a)) -> keeps_at w (m_bind m f).
Proof.
  intros Hm Hf w' r (w1 & r1 & E1 & E2)%m_bind_inv. specialize (Hm _ _ E1).
  destruct r1 as [a| |]; [|by destruct E2 as [-> _]..]. eapply grows_trans; [done|]. by eapply Hf.
Qed.
Lemma keeps_bind {A B} (m : M A) (f : A -> M B) : keeps m -> (forall a, keeps (f a)) -> keeps (m_bind m f).
Proof. intros Hm Hf w. apply keeps_bind_at; [apply Hm|intros; apply Hf]. Qed.
Lemma keeps_attempt_at {A} w (m : M A) : keeps_at w m -> keeps_at w (attempt m).
Proof. intros Hm w' r (r1 & E & _)%attempt_inv. by eapply Hm. Qed.
Lemma keeps_attempt {A} (m : M A) : keeps m -> keeps (attempt m).
Proof. intros Hm w. by apply keeps_attempt_at. Qed.
Lemma keeps_pure {A} (r : result A) : keeps (lift r).
Proof. intros w w' r' [= <- <-]. apply grows_refl. Qed.
Lemma keeps_ret {A} (a : A) : keeps (m_ret a).
Proof. apply (keeps_pure (Ok a)). Qed.
Lemma keeps_fail {A} e : keeps (m_fail (A:=A) e).
Proof. apply (keeps_pure (Err e)). Qed.
Lemma keeps_panic {A} m : keeps (m_panic (A:=A) m).
Proof. apply (keeps_pure (Panic m)). Qed.
Lemma keeps_now : keeps time_now.
Proof. intros w w' r [= <- <-]. apply grows_refl. Qed.
Lemma keeps_deref p : keeps (deref p).
Proof. intros w w' r [-> _]%deref_inv. apply grows_refl. Qed.
Lemma keeps_store p op : keeps (store p op).
Proof. intros w w' r [= <- _]. apply grows_set_db. rewrite dom_insert. set_solver. Qed.
Lemma keeps_alloc op : keeps (alloc op).
Proof. intros w w' r [= <- _]. apply grows_set_db. rewrite dom_insert. set_solver. Qed.
Lemma keeps_repo {A} (f : DB * op_heap -> (DB * op_heap) * result A) :
  (forall d h d' h' r, f (d, h) = ((d', h'), r) -> dom h ⊆ dom h') -> keeps (repo_call f).
Proof. intros Hf w w' r (d & h & E & ->)%repo_call_inv. apply grows_set_db. by eapply Hf. Qed.
Lemma keeps_tx {A} (m : M A) : keeps m -> keeps (InTransaction m).
Proof.
  intros Hm w w' r. unfold InTransaction. destruct (tx_begin (db w)); [|by intros [= <- _]; apply grows_refl..].
  destruct (m w) as [w1 r1] eqn:E. specialize (Hm _ _ _ E).
  assert (Hr : grows w (set_db w1 (db w) (heap w1))).
  { eapply grows_trans; [exact Hm|]. by apply grows_set_db. }
  destruct r1; [destruct (tx_commit _)|..]; by intros [= <- _].
Qed.

(** The calls of the repository. *)
Lemma keeps_last c id t : keeps (repo_call (repo_last_operations c id t)).
Proof. apply keeps_repo. intros d h d' h' r (_ & -> & _)%law_last. done. Qed.
Lemma keeps_count c id : keeps (repo_call (repo_count_operations c id)).
Proof. apply keeps_repo. intros d h d' h' r (_ & -> & _)%law_count. done. Qed.
Lemma keeps_create c op : keeps (repo_call (repo_create_operation c op)).
Proof. apply keeps_repo. by intros d h d' h' r [? _]%law_create. Qed.
Lemma keeps_update c op : keeps (repo_call (repo_update_operation c op)).
Proof. apply keeps_repo. intros d h d' h' r [Hf _]%law_update. by eapply framed_dom. Qed.
Lemma keeps_get_operation c id : keeps (repo_call (repo_get_operation c id)).
Proof. apply keeps_repo. intros d h d' h' r (_ & -> & _)%law_get_operation. done. Qed.
Lemma keeps_get c t id : keeps (repo_call (repo_get c t id)).
Proof. apply keeps_repo. intros d h d' h' r (_ & -> & _)%law_get. done. Qed.
Lemma keeps_update_resource c res : keeps (repo_call (repo_update c res)).
Proof. apply keeps_repo. intros d h d' h' r [Hf _]%law_update_resource. by eapply framed_dom. Qed.
Lemma keeps_delete c t id : keeps (repo_call (repo_delete c t id)).
Proof. apply keeps_repo. intros d h d' h' r. apply law_delete. Qed.
Lemma keeps_delete_tx c t id : keeps (repo_call (repo_delete_tx c t id)).
Proof. apply keeps_repo. intros d h d' h' r [Hf _]%law_delete_tx. by eapply framed_dom. Qed.
Lemma keeps_create_around c res : keeps (repo_call (repo_create_around c res)).
Proof. apply keeps_repo. intros d h d' h' r. apply law_create_around. Qed.
Lemma keeps_update_around c res : keeps (repo_call (repo_update_around c res)).
Proof. apply keeps_repo. intros d h d' h' r. apply law_update_around. Qed.

Create HintDb keeps.
Hint Resolve keeps_ret keeps_fail keeps_panic keeps_pure keeps_now keeps_deref keeps_store keeps_alloc
  keeps_last keeps_count keeps_create keeps_update keeps_get_operation keeps_get keeps_update_resource
  keeps_delete keeps_delete_tx keeps_create_around keeps_update_around : keeps.

(** Walk through a computation; the calls left over are looked up in [keeps]. *)
Ltac keeps_tac :=
  repeat first
    [ solve [auto with keeps]
    | apply keeps_bind; [|intros]
    | apply keeps_attempt
    | apply keeps_tx
    | match goal with |- keeps (match ?x with _ => _ end) => destruct x end
    | match goal with |- keeps (repo_call (if ?b then _ else _)) => destruct b end ].

Lemma keeps_modify p f : keeps (modify p f).
Proof. unfold modify. keeps_tac. Qed.
Hint Resolve keeps_modify : keeps.
Lemma keeps_update_state c p st e : keeps (updateOperationState c p st e).
Proof. unfold updateOperationState. keeps_tac. Qed.
Hint Resolve keeps_update_state : keeps.
Lemma keeps_refetch c p : keeps (refetchOperation c p).
Proof. unfold refetchOperation. keeps_tac. Qed.
Lemma keeps_add_to_context c p : keeps (addOperationToContext c p).
Proof. unfold addOperationToContext. keeps_tac. Qed.
Lemma keeps_resource c obj f : keeps (updateResource c obj f).
Proof. unfold updateResource. keeps_tac. Qed.
Hint Resolve keeps_refetch keeps_add_to_context keeps_resource : keeps.
Lemma keeps_fetch_resource c id t f : keeps (fetchAndUpdateResource c id t f).
Proof. unfold fetchAndUpdateResource. keeps_tac. Qed.
Hint Resolve keeps_fetch_resource : keeps.
Lemma keeps_transitive c l f : keeps (updateTransitiveResources c l f).
Proof. induction l as [|x l IH]; simpl; keeps_tac. Qed.
Hint Resolve keeps_transitive : keeps.
Lemma keeps_last_operation c op b : keeps (getResourceLastOperation c op b).
Proof. unfold getResourceLastOperation. keeps_tac. Qed.
Lemma keeps_store_or_update c op b : keeps (storeOrUpdateOperation c op b).
Proof. unfold storeOrUpdateOperation. keeps_tac. Qed.
Hint Resolve keeps_last_operation keeps_store_or_update : keeps.
Lemma keeps_preconditions c p : keeps (executeOperationPreconditions s duration_string errors_string c p).
Proof. unfold executeOperationPreconditions. keeps_tac. Qed.
Lemma keeps_failure_tx c e p : keeps (failure_transaction c e p).
Proof. unfold failure_transaction. keeps_tac. Qed.
Lemma keeps_success c obj p : keeps (handleActionResponseSuccess c obj p).
Proof. unfold handleActionResponseSuccess, success_transaction. keeps_tac. Qed.
Hint Resolve keeps_failure_tx keeps_success keeps_preconditions : keeps.

(** ** No panics through a live pointer *)
Definition safe {A} (p : op_ptr) (m : M A) : Prop :=
  forall w w' r, p ∈ dom (heap w) -> m w = (w', r) -> no_panic r.

Lemma grows_dom w w' : grows w w' -> dom (heap w) ⊆ dom (heap w').
Proof. by intros (n & _ & _ & _ & _ & ?). Qed.

Lemma safe_bind {A B} p (m : M A) (f : A -> M B) :
  keeps m -> safe p m -> (forall a, safe p (f a)) -> safe p (m_bind m f).
Proof.
  intros Hk Hm Hf w w' r Hp (w1 & r1 & E1 & E2)%m_bind_inv.
  pose proof (Hm _ _ _ Hp E1) as Hnp. apply Hk, grows_dom in E1.
  destruct r1 as [a|e|msg]; [eapply Hf, E2; set_solver|by destruct E2 as [_ ->]|by destruct (Hnp msg)].
Qed.
Lemma safe_attempt {A} p (m : M A) : safe p m -> safe p (attempt m).
Proof.
  intros Hm w w' r Hp (r1 & E & ->)%attempt_inv. pose proof (Hm _ _ _ Hp E) as Hnp.
  destruct r1 as [| |msg]; [done..|by destruct (Hnp msg)].
Qed.
Lemma safe_pure {A} p (r : result A) : no_panic r -> safe p (lift r).
Proof. intros Hr w w' r' _ [= _ <-]. done. Qed.
Lemma safe_ret {A} p (a : A) : safe p (m_ret a).
Proof. by apply (safe_pure p (Ok a)). Qed.
Lemma safe_fail {A} p e : safe p (m_fail (A:=A) e).
Proof. by apply (safe_pure p (Err e)). Qed.
Lemma safe_now p : safe p time_now.
Proof. intros w w' r _ [= _ <-]. done. Qed.
Lemma safe_deref p : safe p (deref (Some p)).
Proof.
  intros w w' r Hp [_ [(q & op & _ & _ & ->)|[[?|(q & [= <-] & Hn)] _]]]%deref_inv; [done..|].
  exfalso. by apply not_elem_of_dom in Hn.
Qed.
Lemma safe_store p q op : safe p (store q op).
Proof. intros w w' r _ [= _ <-]. done. Qed.
Lemma safe_alloc p op : safe p (alloc op).
Proof. intros w w' r _ [= _ <-]. done. Qed.
Lemma safe_repo {A} p (f : DB * op_heap -> (DB * op_heap) * result A) :
  (forall d h d' h' r, f (d, h) = ((d', h'), r) -> no_panic r) -> safe p (repo_call f).
Proof. intros Hf w w' r _ (d & h & E & _)%repo_call_inv. by eapply Hf. Qed.
Lemma safe_last p c id t : safe p (repo_call (repo_last_operations c id t)).
Proof. apply safe_repo. by intros d h d' h' r (_ & _ & ? & _)%law_last. Qed.
Lemma safe_count p c id : safe p (repo_call (repo_count_operations c id)).
Proof. apply safe_repo. by intros d h d' h' r (_ & _ & ? & _)%law_count. Qed.
Lemma safe_create p c op : safe p (repo_call (repo_create_operation c op)).
Proof. apply safe_repo. by intros d h d' h' r (_ & ? & _)%law_create. Qed.
Lemma safe_update p c op : safe p (repo_call (repo_update_operation c op)).
Proof. apply safe_repo. by intros d h d' h' r (_ & ? & _)%law_update. Qed.
Lemma safe_get_operation p c id : safe p (repo_call (repo_get_operation c id)).
Proof. apply safe_repo. by intros d h d' h' r (_ & _ & ? & _)%law_get_operation. Qed.

Hint Resolve safe_ret safe_fail safe_now safe_deref safe_store safe_alloc safe_last safe_count safe_create
  safe_update safe_get_operation : keeps.

Ltac safe_tac :=
  repeat first
    [ solve [auto with keeps]
    | apply safe_bind; [solve [keeps_tac]| |intros]
    | apply safe_attempt
    | match goal with |- safe _ (match ?x with _ => _ end) => destruct x eqn:? end
    | match goal with |- safe _ (repo_call (if ?b then _ else _)) => destruct b end ].

Lemma safe_modify p f : safe p (modify (Some p) f).
Proof. unfold modify. safe_tac. Qed.
Hint Resolve safe_modify : keeps.
Lemma safe_update_state p c st e : safe p (updateOperationState c (Some p) st e).
Proof. unfold updateOperationState. safe_tac. Qed.
Hint Resolve safe_update_state : keeps.
Lemma safe_refetch p c : safe p (refetchOperation c p).
Proof. unfold refetchOperation. safe_tac. Qed.
Lemma safe_last_operation p c op b : safe p (getResourceLastOperation c op b).
Proof. unfold getResourceLastOperation. safe_tac. Qed.
Lemma safe_store_or_update p c op b : safe p (storeOrUpdateOperation c op b).
Proof. unfold storeOrUpdateOperation. safe_tac. Qed.
Hint Resolve safe_last_operation safe_store_or_update safe_refetch : keeps.

Lemma conflict_no_panic op last : no_panic (checkForConcurrentOperations op last).
Proof. unfold checkForConcurrentOperations. destruct (Type_ last), (Type_ op); auto with sm. Qed.
Lemma timeout_no_panic now op :
  no_panic (validateOperationDoesNotExceedTimeouts s duration_string errors_string now op).
Proof. apply no_panic_bind; [|intros _ _]; auto with sm. Qed.

Lemma safe_preconditions p c : safe p (executeOperationPreconditions s duration_string errors_string c p).
Proof.
  unfold executeOperationPreconditions. safe_tac.
  - apply safe_pure, conflict_no_panic.
  - apply safe_pure. auto with sm.
  - exfalso. by eapply no_panic_validate.
  - exfalso. by eapply timeout_no_panic.
Qed.

Notation schedule_async := (ScheduleAsyncStorageAction s duration_string errors_string).

Lemma keeps_schedule_async w c p a : p ∈ dom (heap w) -> keeps_at w (schedule_async c p a).
Proof.
  intros Hp w' r. unfold ScheduleAsyncStorageAction. case_decide as Hfree; [|intros [= <- _]; apply grows_refl].
  set (w0 := set_jobs w (S (workers w)) (wg w) (jobs w)).
  destruct (executeOperationPreconditions _ _ _ c p w0) as [w1 r1] eqn:E.
  pose proof (safe_preconditions p c w0 w1 r1 Hp E) as Hnp.
  apply keeps_preconditions in E as (new & E1 & E2 & E3 & E4 & E5). simpl in E1, E2, E3, E4, E5.
  destruct r1 as [u|e|msg]; [| |by destruct (Hnp msg)]; intros [= <- _]; simpl.
  - exists (new ++ [{| job_op := p; job_ctx := c; job_action := a |}])%list.
    rewrite app_assoc, <- E1, length_app. simpl. split_and!; [done|lia..|done].
  - exists new. simpl. split_and!; [done|lia..|done].
Qed.

Variable caller_action : nat -> ctx -> M (option resource).
Variable await : Z -> M (option error).
Hypothesis action_keeps : forall n c, keeps (caller_action n c).
Hypothesis await_keeps : forall d, keeps (await d).
Hint Resolve action_keeps await_keeps : keeps.

Lemma deref_live {p w w' op} : deref (Some p) w = (w', Ok op) -> w' = w /\ heap w !! p = Some op.
Proof. by intros [-> [(q & o & [= <-] & ? & [= <-])|[_ [m ?]]]]%deref_inv. Qed.

Lemma keeps_failure c e p : keeps (handleActionResponseFailure s await duration_string errors_string c e p).
Proof.
  unfold handleActionResponseFailure. apply keeps_bind; [auto with keeps|intros _]. intros w.
  apply keeps_bind_at; [by apply keeps_deref|]. intros w1 op [-> Hp]%deref_live.
  apply keeps_bind_at; [by apply keeps_now|]. intros w1 now [= <- _].
  destruct (isDeleteRescheduleRequired s now op); [|by apply keeps_fail].
  apply keeps_bind_at; [by apply keeps_now|]. intros w1 now' [= <- _].
  apply keeps_bind_at; [by apply await_keeps|]. intros w1 cancelled Ha%await_keeps%grows_dom.
  destruct cancelled; [by apply keeps_fail|].
  apply keeps_bind_at; [|intros w2 a _; destruct a; by apply keeps_fail].
  apply keeps_attempt_at, keeps_schedule_async. apply Ha, elem_of_dom. eauto.
Qed.
Hint Resolve keeps_failure : keeps.

Lemma keeps_response c obj e p :
  keeps (handleActionResponse s await duration_string errors_string c obj e p).
Proof. unfold handleActionResponse. keeps_tac. Qed.
Lemma keeps_action a c : keeps (run_action caller_action a c).
Proof. unfold run_action. keeps_tac. Qed.
Hint Resolve keeps_response keeps_action : keeps.
Lemma keeps_sync c p a :
  keeps (ScheduleSyncStorageAction s caller_action await duration_string errors_string c p a).
Proof. unfold ScheduleSyncStorageAction. keeps_tac. Qed.
Lemma keeps_body j : keeps (job_body s caller_action await duration_string errors_string j).
Proof. unfold job_body. keeps_tac. Qed.
Lemma keeps_recover j : keeps (recover_job j).
Proof. unfold recover_job. keeps_tac. Qed.
Hint Resolve keeps_sync keeps_body keeps_recover : keeps.

(** A slot and a count of the wait group for each job, within the pool. *)
Definition slots_ok (w : World) : Prop :=
  workers w = length (jobs w) /\ wg w = length (jobs w) /\ (workers w <= poolSize s)%nat.

Lemma slots_grow w w' : grows w w' -> slots_ok w -> slots_ok w'.
Proof.
  intros (new & E1 & E2 & E3 & E4 & _) (S1 & S2 & S3). unfold slots_ok. rewrite E1, length_app.
  split_and!; [lia..|auto].
Qed.

(** A job that ends frees one slot and leaves the other jobs, old and new. *)
Lemma run_job_inv k w w' :
  run_job s caller_action await duration_string errors_string k w = (w', Ok tt) ->
  match jobs w !! k with
  | None => w' = w
  | Some _ => exists w2, grows w w2 /\ dom (heap w') = dom (heap w2) /\
      workers w' = pred (workers w2) /\ wg w' = pred (wg w2) /\ jobs w' = delete k (jobs w2)
  end.
Proof.
  unfold run_job. destruct (jobs w !! k) as [j|]; [|by intros [= <-]].
  destruct (job_body _ _ _ _ _ j w) as [w1 r1] eqn:E1. apply keeps_body in E1.
  destruct (match r1 with Panic _ => recover_job j w1 | _ => (w1, Ok tt) end) as [w2 r2] eqn:E2.
  assert (G : grows w1 w2).
  { destruct r1; [injection E2 as <- _; apply grows_refl..|by apply keeps_recover in E2]. }
  intros E. exists w2. split; [by eapply grows_trans|]. by destruct r2; simplify_eq/=.
Qed.

Lemma run_job_slots k w w' :
  run_job s caller_action await duration_string errors_string k w = (w', Ok tt) ->
  slots_ok w -> slots_ok w'.
Proof.
  intros E%run_job_inv Hs. destruct (jobs w !! k) as [j|] eqn:Hk; [|by subst].
  destruct E as (w2 & G & _ & E1 & E2 & E3). pose proof (slots_grow _ _ G Hs) as (S1 & S2 & S3).
  assert (Hk2 : is_Some (jobs w2 !! k)).
  { destruct G as (new & -> & _). rewrite lookup_app_l; [by eauto|by eapply lookup_lt_Some]. }
  unfold slots_ok. rewrite E1, E2, E3, length_delete by done. lia.
Qed.

(** The scheduler at work: requests schedule actions on operations they made, and
    the goroutines run, in any order. *)
Inductive sched_step : World -> World -> Prop :=
  | step_request w op w' p : alloc op w = (w', Ok p) -> sched_step w w'
  | step_async w c p a w' r :
      p ∈ dom (heap w) -> schedule_async c p a w = (w', r) -> sched_step w w'
  | step_sync w c p a w' r :
      ScheduleSyncStorageAction s caller_action await duration_string errors_string c p a w = (w', r) ->
      sched_step w w'
  | step_job w k w' :
      run_job s caller_action await duration_string errors_string k w = (w', Ok tt) -> sched_step w w'.

Lemma sched_step_slots w w' : sched_step w w' -> slots_ok w -> slots_ok w'.
Proof.
  destruct 1 as [w op w' p E|w c p a w' r Hp E|w c p a w' r E|w k w' E].
  - apply slots_grow. by apply keeps_alloc in E.
  - apply slots_grow. by eapply keeps_schedule_async in E.
  - apply slots_grow. by apply keeps_sync in E.
  - by eapply run_job_slots.
Qed.

Lemma sched_steps_slots w w' : rtc sched_step w w' -> slots_ok w -> slots_ok w'.
Proof. induction 1; eauto using sched_step_slots. Qed.
End Slots.

(** ** What the scheduler does to the stored operation *)
Section Outcome.
Context `{RepositoryLaws}.

(** The pointer [p] shows [op], with perhaps more transitive resources and no user. *)
Definition sees (w : World) (p : op_ptr) (op : Operation) : Prop :=
  exists op', heap w !! p = Some op' /\ later op op'.
(** The database keeps [op], without its user when it has ended. *)
Definition holds (d : DB) (op : Operation) : Prop :=
  exists o, stored_operation d (ID op) = Some o /\ row_of op o /\
    (ended (State op) = true -> GetUserInfo o = None).

Lemma context_trans op op' c : context_of op (Context_ op') -> context_of op' c -> context_of op c.
Proof.
  unfold context_of. intros [-> | ->] [-> | ->]; auto. right. by destruct (Context_ op).
Qed.
Lemma later_trans op1 op2 op3 : later op1 op2 -> later op2 op3 -> later op1 op3.
Proof.
  intros (l & cx & Hl & Hc & ->) (l' & cx' & Hl' & Hc' & ->). exists l', cx'. simpl in *. split_and!; [by etransitivity| |done].
  exact (context_trans op1 (with_rest op1 (Labels_ op1) (CreatedAt op1) cx l) _ Hc Hc').
Qed.
Lemma later_row op op' o : later op op' -> row_of op' o -> row_of op o.
Proof.
  intros (l & cx & Hl & Hc & ->) (lb & t & l' & cx' & Hl' & Hc' & ->). exists lb, t, l', cx'. simpl in *.
  split_and!; [by etransitivity| |done]. exact (context_trans op (with_rest op (Labels_ op) (CreatedAt op) cx l) _ Hc Hc').
Qed.

Lemma sees_intro w p op : heap w !! p = Some op -> sees w p op.
Proof. intros E. exists op. split; [done|apply later_refl]. Qed.

Lemma sees_framed_heap c w w' p op : heap_framed c (heap w) (heap w') -> sees w p op -> sees w' p op.
Proof.
  intros Hf (op1 & Hp & Hl). destruct (Hf _ _ Hp) as (op2 & Hp2 & Hl2 & _). exists op2. split; [done|].
  by eapply later_trans.
Qed.

Lemma deref_sees w w' p op r : sees w p op -> deref (Some p) w = (w', r) ->
  w' = w /\ exists op', later op op' /\ r = Ok op'.
Proof.
  intros (op' & Hp & Hl) [-> Hd]%deref_inv. split; [done|].
  destruct Hd as [(q & o & [= <-] & Hq & ->)|[[?|(q & [= <-] & Hn)] _]]; [|done|congruence].
  exists o. split; [congruence|done].
Qed.

Lemma modify_sees w w' p op f g r :
  sees w p op -> modify (Some p) f w = (w', r) ->
  (forall op', later op op' -> later g (f op')) ->
  r = Ok tt /\ sees w' p g /\ db w' = db w.
Proof.
  intros Hs E Hf. unfold modify in E. apply m_bind_inv in E as (w1 & r1 & E1 & E).
  destruct (deref_sees _ _ _ _ _ Hs E1) as [-> (op' & Hl & ->)]. unfold store in E. simplify_eq.
  split; [done|]. split; [|done]. exists (f op'). split; [simpl; by rewrite lookup_insert_eq|by apply Hf].
Qed.

(** The error an operation keeps: the first one. *)
Definition first_error (errs : option errors_json) (e : option error) : option errors_json :=
  match errs, e with
  | Some x, _ => Some x
  | None, Some e => Some (HTTPErrorJSON (ErrorType (ToHTTPError e)) (Description (ToHTTPError e)))
  | None, None => None
  end.
Definition updated (op : Operation) (st : OperationState) (e : option error) : Operation :=
  set_Errors (set_State op st) (first_error (Errors_ op) e).

(** The assignments of the scheduler leave the rest of an operation. *)
Lemma later_state op op' st errs del :
  later op op' -> later (with_state op st errs del (TransitiveResources op)) (with_state op' st errs del (TransitiveResources op')).
Proof. intros (l & cx & Hl & Hc & ->). exists l, cx. done. Qed.
Lemma later_same op op' : later op op' ->
  ID op' = ID op /\ State op' = State op /\ Errors_ op' = Errors_ op /\ DeletionScheduled op' = DeletionScheduled op /\
  Type_ op' = Type_ op /\ ResourceID op' = ResourceID op /\ ResourceType op' = ResourceType op /\
  CascadeRootID op' = CascadeRootID op /\ Labels_ op' = Labels_ op /\
  TransitiveResources op `prefix_of` TransitiveResources op'.
Proof. intros (l & cx & Hl & Hc & ->). done. Qed.

Lemma update_state_spec c p st e w w' r op :
  sees w p op -> updateOperationState c (Some p) st e w = (w', r) ->
  sees w' p (updated op st e) /\
  match r with
  | Ok _ =>
      (holds (db w') (updated op st e) \/ (db w' = db w /\ stored_operation (db w) (ID op) = None)) /\
      forall t id, stored_resource (db w') t id = stored_resource (db w) t id
  | Err _ => db w' = db w
  | Panic _ => False
  end.
Proof.
  intros Hs E. unfold updateOperationState in E.
  apply m_bind_inv in E as (w1 & r1 & E1 & E).
  destruct (modify_sees w w1 p op _ (set_State op st) r1 Hs E1) as (-> & Hs1 & Hd1).
  { intros op' Hl. destruct (later_same _ _ Hl) as (_ & _ & He & Hd & _). unfold set_State. rewrite He, Hd. by apply later_state. }
  apply m_bind_inv in E as (w2 & r2 & E2 & E).
  assert (r2 = Ok tt /\ sees w2 p (updated op st e) /\ db w2 = db w1) as (-> & Hs2 & Hd2).
  { destruct e as [e|].
    - eapply modify_sees; [exact Hs1|exact E2|]. intros op' Hl. destruct (later_same _ _ Hl) as (_ & Hst & He & Hd & _).
      unfold updated, first_error. simpl in He. rewrite He. destruct (Errors_ op) eqn:Ee.
      + replace (set_Errors (set_State op st) (Some e0)) with (set_State op st); [done|].
        destruct op; simpl in *; by subst.
      + unfold set_Errors. rewrite Hst, Hd. by apply later_state.
    - unfold m_ret in E2. simplify_eq. split; [done|]. split; [|done].
      replace (updated op st None) with (set_State op st); [done|].
      unfold updated, first_error. by destruct op as [????????????????????]; simpl; destruct (Errors_). }
  apply m_bind_inv in E as (w3 & r3 & E3 & E).
  destruct (deref_sees _ _ _ _ _ Hs2 E3) as [-> (op1 & Hl & ->)].
  destruct (later_same _ _ Hl) as (Hid & Hst1 & _). change (ID (updated op st e)) with (ID op) in Hid.
  apply m_bind_inv in E as (w4 & r4 & E4 & E). apply attempt_inv in E4 as (r5 & E5 & ->).
  apply repo_call_inv in E5 as (d & h & E5 & ->).
  destruct (law_update _ _ _ _ _ _ _ E5) as (Hf & Hnp & Hok & Herr & Hnf). rewrite Hid in Hok, Hnf.
  pose proof (sees_framed_heap _ _ (set_db w2 d h) _ _ Hf Hs2) as Hs3.
  destruct r5 as [[]|err|m]; [| |by destruct (Hnp m)].
  - unfold m_ret in E. simplify_eq/=. split; [done|]. destruct (Hok eq_refl) as [(o & Ho & Hrow & Hu) Hres].
    split; [|by rewrite Hd2, Hd1 in Hres]. left. exists o. split_and!; [done|by eapply later_row|].
    done.
  - specialize (Herr _ eq_refl) as ->. rewrite Hd2, Hd1 in *.
    destruct err; unfold m_ret, m_fail in E; simplify_eq/=; (split; [done|]); try done.
    split; [|done]. right. split; [done|]. by apply Hnf.
Qed.

(** A transaction that fails leaves the database as it was, but not the memory. *)
Lemma tx_inv {A} (m : M A) w w' r :
  InTransaction m w = (w', r) ->
  (exists a, r = Ok a /\ m w = (w', Ok a)) \/
  (db w' = db w /\
   ((w' = w /\ exists e, r = Err e) \/
    exists w1 r1, m w = (w1, r1) /\ heap w' = heap w1 /\ ((r = r1 /\ forall a, r <> Ok a) \/ exists e, r = Err e))).
Proof.
  unfold InTransaction. pose proof (law_begin (db w)) as Hb.
  destruct (tx_begin (db w)) as [|e|msg]; [|intros E; simplify_eq; right; by eauto|by destruct (Hb msg)].
  destruct (m w) as [w1 r1]. pose proof (law_commit (db w1)) as Hc.
  destruct r1 as [b|e|msg]; [|intros E; simplify_eq; right; split; [done|]; right; eauto 10..].
  destruct (tx_commit (db w1)) as [|e|msg]; [| |by destruct (Hc msg)]; intros E; simplify_eq; [left; eauto|].
  right. split; [done|]. right. eauto 10.
Qed.

Lemma framed_refl c h : heap_framed c h h.
Proof. apply same_frame. Qed.
Lemma framed_trans c h1 h2 h3 : heap_framed c h1 h2 -> heap_framed c h2 h3 -> heap_framed c h1 h3.
Proof.
  intros H1 H2 p op Hp. destruct (H1 _ _ Hp) as (o1 & Hp1 & F1 & E1).
  destruct (H2 _ _ Hp1) as (o2 & Hp2 & F2 & E2). exists o2. split; [done|]. split; [by eapply later_trans|].
  intros Hc. rewrite (E2 Hc). by apply E1.
Qed.

(** If the database holds the resource, its ready flag is [b]. *)
Definition ready_is (b : bool) (d : DB) (t id : string) : Prop :=
  forall res, stored_resource d t id = Some res -> res_ready res = b.

Lemma update_resource_spec c obj f w w' r :
  updateResource c (Some obj) f w = (w', r) ->
  heap_framed c (heap w) (heap w') /\
  match r with
  | Ok res => same_object (f obj) res /\
      ready_is (res_ready (f obj)) (db w') (res_type (f obj)) (res_id (f obj)) /\
      (res_ready (f obj) = true -> (res_type (f obj) = OperationType \/
         exists old, stored_resource (db w) (res_type (f obj)) (res_id (f obj)) = Some old /\ f obj = SetReady true old) ->
       forall t id, ready_is true (db w) t id -> ready_is true (db w') t id)
  | Err _ => True
  | Panic _ => False
  end.
Proof.
  unfold updateResource. intros (w1 & r1 & E1 & E)%m_bind_inv. apply attempt_inv in E1 as (r2 & E1 & ->).
  apply repo_call_inv in E1 as (d & h & E1 & ->).
  destruct (law_update_resource _ _ _ _ _ _ _ E1) as (Hf & Hnp & Hok).
  destruct r2 as [res|e|m]; [| |by destruct (Hnp m)]; unfold m_ret, m_fail in E; simplify_eq/=; (split; [done|]); [|done].
  destruct (Hok _ eq_refl) as (Hs & Hrow & Hothers). split_and!; [done| |done]. intros row Hr. by apply Hrow.
Qed.

Lemma fetch_resource_spec c id t b w w' r :
  fetchAndUpdateResource c id t (SetReady b) w = (w', r) ->
  heap_framed c (heap w) (heap w') /\
  match r with
  | Ok _ => ready_is b (db w') t id /\
      (b = true -> forall t' id', ready_is true (db w) t' id' -> ready_is true (db w') t' id')
  | Err _ => True
  | Panic _ => False
  end.
Proof.
  unfold fetchAndUpdateResource. intros (w1 & r1 & E1 & E)%m_bind_inv. apply attempt_inv in E1 as (r2 & E1 & ->).
  apply repo_call_inv in E1 as (d & h & E1 & ->).
  destruct (law_get _ _ _ _ _ _ _ _ E1) as (-> & -> & Hnp & Hok & Hnf). rewrite set_db_id in *.
  destruct r2 as [res|e|m]; [| |by destruct (Hnp m)].
  - destruct (Hok _ eq_refl) as (<- & <- & Hst). apply m_bind_inv in E as (w2 & r3 & E2 & E).
    apply update_resource_spec in E2 as [Hf E2].
    destruct r3 as [res'|e|m]; [|by destruct E as [-> ->]|done].
    unfold m_ret in E. simplify_eq. split; [done|]. destruct E2 as (_ & Hr & Ho). split; [exact Hr|].
    intros ->. apply Ho; [done|]. simpl. destruct (decide (res_type res = OperationType)); [by left|right; eauto].
  - destruct e; unfold m_ret, m_fail in E; simplify_eq/=; (split; [apply framed_refl|]); try done.
    split; [|done]. intros res. by rewrite (Hnf eq_refl).
Qed.

Lemma transitive_spec c l b w w' r :
  updateTransitiveResources c l (SetReady b) w = (w', r) ->
  heap_framed c (heap w) (heap w') /\ no_panic r /\
  (b = true -> r = Ok tt ->
   (forall x, x ∈ l -> rel_OperationType x = CREATE -> ready_is true (db w') (rel_Type x) (rel_ID x)) /\
   (forall t id, ready_is true (db w) t id -> ready_is true (db w') t id)).
Proof.
  revert w. induction l as [|x l IH]; intros w; simpl.
  { intros [= <- <-]. split; [apply framed_refl|]. split; [done|]. intros _ _. split; [|done].
    intros x Hx. by apply elem_of_nil in Hx. }
  intros (w1 & r1 & E1 & E)%m_bind_inv.
  assert (heap_framed c (heap w) (heap w1) /\ no_panic r1 /\ (b = true -> r1 = Ok tt ->
    (rel_OperationType x = CREATE -> ready_is true (db w1) (rel_Type x) (rel_ID x)) /\
    (forall t id, ready_is true (db w) t id -> ready_is true (db w1) t id))) as (Hf1 & Hn1 & H1).
  { case_bool_decide as Hc.
    - destruct (fetch_resource_spec _ _ _ _ _ _ _ E1) as [Hf Hm]. split; [done|]. destruct r1 as [[]| |]; [|done..].
      destruct Hm as [Hr Ho]. split; [done|]. intros -> _. auto.
    - unfold m_ret in E1. simplify_eq. split; [apply framed_refl|]. done. }
  destruct r1 as [[]|e|m]; [|by destruct E as [-> ->]|by destruct (Hn1 m)].
  destruct (IH _ E) as (Hf2 & Hn2 & H2). split; [by eapply framed_trans|]. split; [done|].
  intros Hb ->. destruct (H1 Hb eq_refl) as [A1 A2]. destruct (H2 Hb eq_refl) as [B1 B2]. split; [|by auto].
  intros y [->|Hy]%elem_of_cons Hc; auto.
Qed.
End Outcome.
