(* ===== verification/SchedulerTheorems.v ===== *)
(** * Theorems on the operation scheduler

    The guarantees of the scheduler, proved against the laws of the repository
    interface, with an in-memory repository as their witness. *)

From S2P Require Import Prelude GoStd Errors OperationTypes Repository Scheduler SchedulerProps.
From stdpp Require Import base gmap strings list relations.
From Stdlib Require Import ZArith.
Local Open Scope string_scope.

(** ** Outcomes *)
Section Outcome.
Context `{RepositoryLaws}.

(** Orphan mitigation of something that is not a deletion. *)
Definition mitigated (op : Operation) : bool :=
  negb (bool_decide (Type_ op = DELETE)) && InOrphanMitigationState op.
Definition final_state (op : Operation) : OperationState :=
  if mitigated op then FAILED
  else if String.eqb (CascadeRootID op) "" || negb (bool_decide (State op = PENDING)) then SUCCEEDED
  else State op.
Definition success_op (op : Operation) : Operation :=
  set_DeletionScheduled
    (set_Errors (set_State op (final_state op)) (if mitigated op then Errors_ op else None)) None.

Lemma later_errors op op' errs : later op op' -> later (set_Errors op errs) (set_Errors op' errs).
Proof.
  intros Hl. destruct (later_same _ _ Hl) as (_ & Hs & _ & Hd & _). unfold set_Errors. rewrite Hs, Hd. by apply later_state.
Qed.
Lemma later_deletion op op' t : later op op' -> later (set_DeletionScheduled op t) (set_DeletionScheduled op' t).
Proof.
  intros Hl. destruct (later_same _ _ Hl) as (_ & Hs & He & _). unfold set_DeletionScheduled. rewrite Hs, He. by apply later_state.
Qed.

(** The part of the success transaction before the resources are touched. *)
Lemma success_prefix (k : OperationState -> M (option resource)) p w w' r op :
  sees w p op ->
  m_bind (if mitigated op then m_ret FAILED
          else modify (Some p) (fun op => set_Errors op None) ;!
               m_ret (if String.eqb (CascadeRootID op) "" || negb (bool_decide (State op = PENDING))
                      then SUCCEEDED else State op))
    (fun st => modify (Some p) (fun op => set_DeletionScheduled op None) ;! k st) w = (w', r) ->
  exists w1, k (final_state op) w1 = (w', r) /\ db w1 = db w /\
    sees w1 p (set_DeletionScheduled (set_Errors op (if mitigated op then Errors_ op else None)) None).
Proof.
  intros Hs (w1 & r1 & E1 & E)%m_bind_inv.
  assert (r1 = Ok (final_state op) /\ db w1 = db w /\
    sees w1 p (set_Errors op (if mitigated op then Errors_ op else None))) as (-> & Hd1 & Hs1).
  { unfold final_state. destruct (mitigated op).
    - unfold m_ret in E1. simplify_eq. split; [done|]. split; [done|]. by destruct op.
    - apply m_bind_inv in E1 as (w2 & r2 & E2 & E1).
      destruct (modify_sees w w2 p op _ (set_Errors op None) r2 Hs E2) as (-> & Hs2 & Hd2); [intros op'; apply later_errors|].
      unfold m_ret in E1. simplify_eq. done. }
  apply m_bind_inv in E as (w2 & r2 & E2 & E).
  destruct (modify_sees w1 w2 p _ _ (set_DeletionScheduled
    (set_Errors op (if mitigated op then Errors_ op else None)) None) r2 Hs1 E2) as (-> & Hs2 & Hd2); [intros op'; apply later_deletion|].
  exists w2. split; [done|]. split; [congruence|done].
Qed.

(** The objects the transaction makes ready. *)
Definition made_ready (d : DB) (op : Operation) (obj obj' : option resource) : Prop :=
  exists o o', obj = Some o /\ obj' = Some o' /\ same_object (SetReady true (SetUsable o)) o' /\
    ready_is true d (res_type o) (res_id o) /\
    forall x, x ∈ TransitiveResources op -> rel_OperationType x = CREATE ->
      ready_is true d (rel_Type x) (rel_ID x).

Lemma usable_key o : res_type (SetReady true (SetUsable o)) = res_type o /\ res_id (SetReady true (SetUsable o)) = res_id o.
Proof. unfold SetUsable. by destruct (String.eqb _ _). Qed.

Lemma success_resources c obj p w w' r op :
  sees w p op ->
  (let! updated := updateResource c obj (fun obj => SetReady true (SetUsable obj)) in
   let! op := deref (Some p) in
   updateTransitiveResources c (TransitiveResources op) (SetReady true) ;!
   m_ret (Some updated)) w = (w', r) ->
  sees w' p op /\
  match r with
  | Ok obj' => made_ready (db w') op obj obj'
  | Err _ => True
  | Panic _ => obj = None
  end.
Proof.
  intros Hs (w1 & r1 & E1 & E)%m_bind_inv. destruct obj as [o|].
  2:{ unfold updateResource, m_panic in E1. simplify_eq. destruct E as [-> ->]. done. }
  apply update_resource_spec in E1 as [Hf E1]. pose proof (sees_framed_heap _ _ _ _ _ Hf Hs) as Hs1.
  destruct r1 as [res|e|m]; [|by destruct E as [-> ->]|done].
  destruct E1 as (Hsame & Hst & _). destruct (usable_key o) as [Kt Ki]. rewrite Kt, Ki in Hst.
  apply m_bind_inv in E as (w2 & r2 & E2 & E). destruct (deref_sees _ _ _ _ _ Hs1 E2) as [-> (op1 & Hl & ->)].
  simpl in E. apply m_bind_inv in E as (w3 & r3 & E3 & E).
  apply transitive_spec in E3 as (Hf3 & Hn3 & Hr3). pose proof (sees_framed_heap _ _ _ _ _ Hf3 Hs1) as Hs3.
  destruct r3 as [[]|e|m]; [|by destruct E as [-> ->]|by destruct (Hn3 m)].
  unfold m_ret in E. simplify_eq. split; [done|]. destruct (Hr3 eq_refl eq_refl) as [A B].
  exists o, res. do 3 (split; [done|]). split; [by apply B|].
  intros x Hx. apply A. eapply elem_of_prefix; [exact Hx|]. by apply later_same.
Qed.

Definition success_effect (op : Operation) (obj obj' : option resource) (d : DB) : Prop :=
  (holds d (success_op op) \/ stored_operation d (ID op) = None) /\
  (if bool_decide (Type_ op = CREATE) && bool_decide (final_state op = SUCCEEDED)
   then made_ready d op obj obj' else obj' = obj).

Lemma ready_same b d d' t id :
  stored_resource d' t id = stored_resource d t id -> ready_is b d t id -> ready_is b d' t id.
Proof. intros E Hr res. rewrite E. apply Hr. Qed.

(** The end of the transaction: store the operation. *)
Lemma success_store c p w w' r op obj obj' :
  sees w p (set_DeletionScheduled (set_Errors op (if mitigated op then Errors_ op else None)) None) ->
  (if bool_decide (Type_ op = CREATE) && bool_decide (final_state op = SUCCEEDED)
   then made_ready (db w) op obj obj' else obj' = obj) ->
  (updateOperationState c (Some p) (final_state op) None ;! m_ret obj') w = (w', r) ->
  (exists op', sees w' p op') /\
  match r with Ok o => success_effect op obj o (db w') | Err _ => True | Panic _ => False end.
Proof.
  intros Hs Hobj (w1 & r1 & E1 & E)%m_bind_inv.
  destruct (update_state_spec _ _ _ _ _ _ _ _ Hs E1) as [Hs1 Hu].
  destruct r1 as [[]|e|m]; [|destruct E as [-> ->]; by eauto|done].
  unfold m_ret in E. simplify_eq. split; [by eauto|]. destruct Hu as [Hst Hres]. split.
  - replace (success_op op) with
      (updated (set_DeletionScheduled (set_Errors op (if mitigated op then Errors_ op else None)) None)
         (final_state op) None).
    + destruct Hst as [?|[-> ?]]; auto.
    + unfold updated, success_op. simpl. destruct (if mitigated op then Errors_ op else None); done.
  - destruct (_ && _); [|done]. destruct Hobj as (o & o' & -> & -> & Hso & Hr & Ht). exists o, o'. split_and!; try done.
    + eapply ready_same; [apply Hres|done].
    + intros x Hx Hc. eapply ready_same; [apply Hres|auto].
Qed.

Lemma success_body c obj p w w' r op :
  sees w p op -> success_transaction c obj p w = (w', r) ->
  (exists op', sees w' p op') /\
  match r with
  | Ok obj' => success_effect op obj obj' (db w')
  | Err _ => db w' = db w
  | Panic _ => db w' = db w /\ obj = None
  end.
Proof.
  intros Hs E. unfold success_transaction in E.
  match type of E with InTransaction ?b _ = _ => set (body := b) in E end.
  assert (Hbody : forall w1 r1, body w = (w1, r1) -> (exists op', sees w1 p op') /\
    match r1 with Ok o => success_effect op obj o (db w1) | Err _ => True | Panic _ => obj = None end).
  { clear E. intros w1 r1 (w2 & r2 & E2 & E)%m_bind_inv.
    destruct (deref_sees _ _ _ _ _ Hs E2) as [-> (op' & (l & cx & Hl & Hc & ->) & ->)].
    apply (success_prefix _ p w w1 r1 op Hs) in E as (w3 & E & Hd3 & Hs3).
    apply m_bind_inv in E as (w4 & r4 & E4 & E). simpl in E4.
    destruct (bool_decide (Type_ op = CREATE) && bool_decide (final_state op = SUCCEEDED)) eqn:Hcr.
    - apply (success_resources _ _ _ _ _ _ _ Hs3) in E4 as [Hs4 E4].
      destruct r4 as [obj4|e|m]; [|destruct E as [-> ->]; by eauto|destruct E as [-> ->]; by eauto].
      apply (success_store _ _ _ _ _ op obj) in E as [? E]; [|done|by rewrite Hcr].
      split; [done|]. destruct r1; done.
    - injection E4 as <- <-.
      apply (success_store _ _ _ _ _ op obj) in E as [? E]; [|done|by rewrite Hcr].
      split; [done|]. destruct r1; done. }
  destruct (tx_inv _ _ _ _ E) as [(a & -> & E1)|[Hd [[-> [e ->]]|(w1 & r1 & E1 & Hh & Hr)]]].
  - exact (Hbody _ _ E1).
  - eauto.
  - apply Hbody in E1 as [[op' (o1 & Ho1 & Hl)] Hr1]. split; [exists op', o1; by rewrite Hh|].
    destruct Hr as [[-> Hno]|[e ->]]; [|done]. destruct r1; [by destruct (Hno a)|done..].
Qed.

Lemma success_spec c obj p w w' r op :
  heap w !! p = Some op -> handleActionResponseSuccess c obj p w = (w', r) ->
  match r with
  | Ok obj' =>
      (holds (db w') (success_op op) \/ stored_operation (db w') (ID op) = None) /\
      (if bool_decide (Type_ op = CREATE) && bool_decide (final_state op = SUCCEEDED)
       then made_ready (db w') op obj obj' else obj' = obj)
  | Err _ => db w' = db w
  | Panic _ => db w' = db w /\ obj = None
  end.
Proof.
  intros Hs%sees_intro. unfold handleActionResponseSuccess. intros (w1 & r1 & E1 & E)%m_bind_inv.
  apply attempt_inv in E1 as (r2 & E1 & ->). apply (success_body _ _ _ _ _ _ _ Hs) in E1 as [[op' Hs1] E1].
  destruct r2 as [o|e|m]; [by unfold m_ret in E; simplify_eq| |by destruct E as [-> ->]].
  apply m_bind_inv in E as (w2 & r2 & E2 & E). destruct (deref_sees _ _ _ _ _ Hs1 E2) as [-> (op1 & _ & ->)].
  unfold m_fail in E. by simplify_eq.
Qed.

(** When an action succeeded, the operation is stored with its final state (failed for a
    successful orphan mitigation of a creation or update, succeeded otherwise, unchanged for
    a pending cascade operation), with no deletion scheduled and no error left unless
    mitigated, or it is no longer stored; the object of a successful creation and
    everything created along with it are ready.  If anything fails, the database is as it
    was, and the only panic is a creation that returned no object. *)
Theorem success_response c obj p w w' r op :
  heap w !! p = Some op -> handleActionResponseSuccess c obj p w = (w', r) ->
  match r with
  | Ok obj' =>
      (holds (db w') (success_op op) \/ stored_operation (db w') (ID op) = None) /\
      (if bool_decide (Type_ op = CREATE) && bool_decide (final_state op = SUCCEEDED)
       then made_ready (db w') op obj obj' else obj' = obj)
  | Err _ => db w' = db w
  | Panic _ => db w' = db w /\ obj = None
  end.
Proof. exact (success_spec c obj p w w' r op). Qed.

(** ** Failures *)
Definition forced (op : Operation) : bool :=
  IsForceDeleteCascadeOperation op && negb (InOrphanMitigationState op).

(** The state after the resource of a forced deletion was removed from the database. *)
Definition removal_state (c : ctx) (op : Operation) (w : World) : OperationState :=
  match snd (repo_delete_tx c (ResourceType op) (ResourceID op) (db w, heap w)) with
  | Ok _ | Err ENotFoundInStorage => SUCCEEDED
  | _ => FAILED
  end.
Definition failure_state (c : ctx) (op : Operation) (w : World) : OperationState :=
  if forced op then removal_state c op w else FAILED.
Definition failure_effect (st : OperationState) (op : Operation) (e : error) (p : op_ptr) (w : World) : Prop :=
  sees w p (updated op st (Some e)) /\
  (holds (db w) (updated op st (Some e)) \/ stored_operation (db w) (ID op) = None).

(** The choice of the new state: a forced deletion may succeed after all. *)
Lemma failure_state_spec c p w w' r op :
  sees w p op ->
  (if forced op then
     let! r := attempt (repo_call (repo_delete_tx c (ResourceType op) (ResourceID op))) in
     match r with
     | inl _ | inr ENotFoundInStorage => m_ret SUCCEEDED
     | inr _ => m_ret FAILED
     end
   else m_ret FAILED) w = (w', r) ->
  sees w' p op /\ r = Ok (failure_state c op w).
Proof.
  intros Hs. unfold failure_state, removal_state. destruct (forced op); [|by intros E; injection E as <- <-].
  intros (w1 & r1 & E1 & E)%m_bind_inv. apply attempt_inv in E1 as (r2 & E1 & ->).
  apply repo_call_inv in E1 as (d & h & E1 & ->). rewrite E1. simpl. destruct (law_delete_tx _ _ _ _ _ _ _ _ E1) as [Hf Hnp].
  assert (Hs1 : sees (set_db w d h) p op) by (by eapply sees_framed_heap).
  destruct r2 as [u|e|m]; [injection E as <- <-; eauto 6| |by destruct (Hnp m)].
  destruct e; injection E as <- <-; eauto 6.
Qed.

(** A deletion is no creation: its resources are left alone before it is removed. *)
Lemma forced_deletes op : forced op = true -> Type_ op = DELETE.
Proof.
  unfold forced, IsForceDeleteCascadeOperation. rewrite !andb_true_iff, bool_decide_eq_true. by intros [[[? _] _] _].
Qed.

Lemma failure_body c e p w w' r op :
  sees w p op -> failure_transaction c e p w = (w', r) ->
  match r with
  | Ok _ => failure_effect (failure_state c op w) op e p w'
  | Err _ => db w' = db w
  | Panic _ => False
  end.
Proof.
  intros Hs E. unfold failure_transaction in E.
  match type of E with InTransaction ?b _ = _ => set (body := b) in E end.
  assert (Hbody : forall w1 r1, body w = (w1, r1) ->
    match r1 with Ok _ => failure_effect (failure_state c op w) op e p w1 | Err _ => True | Panic _ => False end).
  { clear E. intros w1 r1 (w2 & r2 & E2 & E)%m_bind_inv.
    destruct (deref_sees _ _ _ _ _ Hs E2) as [-> (op1 & (l & cx & Hl & Hcx & ->) & ->)].
    apply m_bind_inv in E as (w3 & r3 & E3 & E).
    assert (sees w3 p op /\ no_panic r3 /\ (Type_ op = DELETE -> w3 = w)) as (Hs3 & Hn3 & Hd3).
    { simpl in E3. case_bool_decide as Hcr; [|injection E3 as <- <-; done]. rewrite Hcr.
      destruct (bool_decide _); [|by injection E3 as <- <-].
      apply m_bind_inv in E3 as (w4 & r4 & E4 & E3). apply fetch_resource_spec in E4 as [Hf4 E4].
      pose proof (sees_framed_heap _ _ _ _ _ Hf4 Hs) as Hs4.
      destruct r4 as [[]| |]; [|by destruct E3 as [-> ->]|done].
      apply m_bind_inv in E3 as (w5 & r5 & E5 & E3). destruct (deref_sees _ _ _ _ _ Hs4 E5) as [-> (op5 & _ & ->)].
      apply transitive_spec in E3 as (Hf5 & Hn5 & _). split; [by eapply sees_framed_heap|done]. }
    destruct r3 as [[]|e3|m]; [|by destruct E as [-> ->]|by destruct (Hn3 m)].
    apply m_bind_inv in E as (w4 & r4 & E4 & E).
    destruct (deref_sees _ _ _ _ _ Hs3 E4) as [-> (op4 & (l4 & cx4 & Hl4 & Hcx4 & ->) & ->)].
    apply m_bind_inv in E as (w5 & r5 & E5 & E).
    apply (failure_state_spec c p w3 w5 r5 op Hs3) in E5 as (Hs5 & ->).
    replace (failure_state c op w3) with (failure_state c op w) in E.
    2:{ unfold failure_state. destruct (forced op) eqn:Hfo; [|done]. by rewrite (Hd3 (forced_deletes _ Hfo)). }
    apply m_bind_inv in E as (w6 & r6 & E6 & E). apply attempt_inv in E6 as (r7 & E6 & ->).
    apply (update_state_spec _ _ _ _ _ _ _ _ Hs5) in E6 as [Hs6 E6].
    destruct r7 as [[]|e7|m]; [|by injection E as <- <-|done]. injection E as <- <-.
    split; [done|]. destruct E6 as [[?|[-> ?]] _]; auto. }
  destruct (tx_inv _ _ _ _ E) as [(a & -> & E1)|[Hd [[-> [e1 ->]]|(w1 & r1 & E1 & Hh & Hr)]]].
  - exact (Hbody _ _ E1).
  - done.
  - specialize (Hbody _ _ E1). destruct Hr as [[-> Hno]|[e1 ->]]; [|done].
    destruct r1; [by destruct (Hno a)|done..].
Qed.

Lemma failure_spec s await ds es c e p w w' r op :
  heap w !! p = Some op -> handleActionResponseFailure s await ds es c e p w = (w', r) ->
  r <> Ok tt /\
  exists w1 r1, failure_transaction c e p w = (w1, r1) /\
    match r1 with
    | Ok _ => failure_effect (failure_state c op w) op e p w1 /\
        (forall op1, heap w1 !! p = Some op1 ->
           isDeleteRescheduleRequired s (clock w1) op1 = false -> w' = w1 /\ r = Err e)
    | Err err => db w1 = db w /\ w' = w1 /\ r = Err err
    | Panic _ => False
    end.
Proof.
  intros Hs%sees_intro. unfold handleActionResponseFailure. intros (w1 & r1 & E1 & E)%m_bind_inv.
  pose proof (failure_body _ _ _ _ _ _ _ Hs E1) as Hb.
  destruct r1 as [[]|err|m]; [|destruct E as [-> ->]; split; [done|]; by exists w1, (Err err)|done].
  pose proof Hb as [Hs1 _].
  apply m_bind_inv in E as (w2 & r2 & E2 & E). destruct (deref_sees _ _ _ _ _ Hs1 E2) as [-> (op2 & _ & ->)].
  apply deref_live in E2 as [_ Hp].
  apply m_bind_inv in E as (w2 & r2 & E3 & E). injection E3 as <- <-.
  assert (r <> Ok tt /\ (isDeleteRescheduleRequired s (clock w1) op2 = false -> w' = w1 /\ r = Err e)) as [Hno Hreq].
  { destruct (isDeleteRescheduleRequired _ _ _); [|by injection E as <- <-]. split; [|done].
    apply m_bind_inv in E as (w2 & r2 & _ & E). destruct r2; [|by destruct E as [_ ->]..].
    apply m_bind_inv in E as (w3 & r3 & _ & E).
    destruct r3 as [[]| |]; try (by destruct E as [_ ->]); [by unfold m_fail in E; simplify_eq|].
    apply m_bind_inv in E as (w4 & r4 & _ & E).
    destruct r4 as [[]| |]; try (by destruct E as [_ ->]); unfold m_fail in E; by simplify_eq. }
  split; [done|]. exists w1, (Ok tt). split; [done|]. split; [done|].
  intros op1 Hp1. rewrite Hp in Hp1. by injection Hp1 as <-.
Qed.

(** C4: when an action failed, the operation is stored as failed.  Only a forced cascade
    deletion that is not in orphan mitigation is stored as succeeded, and exactly when its
    resource could be removed from the database or was not there any more.  The first error is
    kept.  If the operation is no longer stored, nothing is stored, and if storing fails the
    database is as it was.  The caller never gets a success, and gets the action's error when no
    deletion has to be rescheduled. *)
Theorem failure_response s await ds es c e p w w' r op :
  heap w !! p = Some op -> handleActionResponseFailure s await ds es c e p w = (w', r) ->
  r <> Ok tt /\
  exists w1 r1, failure_transaction c e p w = (w1, r1) /\
    match r1 with
    | Ok _ => failure_effect (failure_state c op w) op e p w1 /\
        (forall op1, heap w1 !! p = Some op1 ->
           isDeleteRescheduleRequired s (clock w1) op1 = false -> w' = w1 /\ r = Err e)
    | Err err => db w1 = db w /\ w' = w1 /\ r = Err err
    | Panic _ => False
    end.
Proof. exact (failure_spec s await ds es c e p w w' r op). Qed.
End Outcome.

(** ** Conflicts *)
Definition known (c : OperationCategory) : bool :=
  match c with OtherCategory _ => false | _ => true end.

(** When may [op] start, given the last operation on its resource? *)
Definition may_start (op last : Operation) : Prop :=
  (* deletions of something that is not being deleted *)
  (Type_ op = DELETE /\ Type_ last <> DELETE) \/
  (* nothing runs, and no deletion is pending *)
  (State last <> IN_PROGRESS /\
   (Type_ op = Type_ last \/ Type_ last <> DELETE \/ DeletionScheduled last = None)) \/
  (* the same kind of operation again: orphan mitigation or a reschedule *)
  (Type_ op = Type_ last /\ (is_Some (DeletionScheduled last) \/ (Reschedule last = true /\ Reschedule op = true))).

Lemma conflict_iff op last :
  known (Type_ op) = true -> known (Type_ last) = true ->
  checkForConcurrentOperations op last = Ok tt <-> may_start op last.
Proof.
  intros Ho Hl. unfold checkForConcurrentOperations, may_start, InOrphanMitigationState.
  destruct (decide (State last = IN_PROGRESS)) as [Hp|Hp];
    [rewrite (bool_decide_true _ Hp)|rewrite (bool_decide_false _ Hp)];
  (destruct (DeletionScheduled last) as [t|];
     [rewrite bool_decide_true by eauto|rewrite bool_decide_false by (by intros [])]);
  destruct (Type_ op), (Type_ last); try done;
  destruct (Reschedule last), (Reschedule op); simpl;
  (split; [try done; intros _; naive_solver eauto|]);
  try done; intros Hm; exfalso;
  repeat match goal with Hm : _ \/ _ |- _ => destruct Hm | Hm : _ /\ _ |- _ => destruct Hm
    | Hm : is_Some None |- _ => destruct Hm end; congruence.
Qed.

(** ** Preconditions *)
Section Preconditions.
Context `{RepositoryLaws}.
Variable s : Scheduler.
Variable duration_string : Z -> string.
Variable errors_string : option errors_json -> string.
Notation in_time := (validateOperationDoesNotExceedTimeouts s duration_string errors_string).

(** Not finished, or finished with a deletion pending. *)
Definition startable (op : Operation) : Prop :=
  State op <> SUCCEEDED /\ (State op = FAILED -> is_Some (DeletionScheduled op)).

Lemma startable_guard op :
  bool_decide (State op = SUCCEEDED) || (bool_decide (State op = FAILED) && negb (InOrphanMitigationState op)) = false
  <-> startable op.
Proof.
  unfold startable, InOrphanMitigationState.
  rewrite orb_false_iff, andb_false_iff, negb_false_iff, !bool_decide_eq_false, bool_decide_eq_true.
  destruct (decide (State op = FAILED)); naive_solver.
Qed.

Lemma last_operation_spec c op check w w' r :
  getResourceLastOperation c op check w = (w', r) ->
  w' = w /\ no_panic r /\
  forall last ex, r = Ok (last, ex) ->
    last = last_operation (db w) (ResourceID op) (ResourceType op) /\
    (check = true -> is_Some last -> ex = true <-> is_Some (stored_operation (db w) (ID op))).
Proof.
  unfold getResourceLastOperation. intros (w1 & r1 & E1 & E)%m_bind_inv. apply attempt_inv in E1 as (r2 & E1 & ->).
  apply repo_call_inv in E1 as (d & h & E1 & ->).
  destruct (law_last _ _ _ _ _ _ _ _ E1) as (-> & -> & Hnp & Hok). rewrite set_db_id in *.
  destruct r2 as [ops|e|m]; [|injection E as <- <-; done|by destruct (Hnp m)].
  specialize (Hok _ eq_refl). destruct ops as [|last ops]; simpl in Hok.
  { injection E as <- <-. split; [done|]. split; [done|]. intros ?? [= <- <-]. split; [done|]. by intros _ []. }
  destruct check; [|injection E as <- <-; split; [done|]; split; [done|]; by intros ?? [= <- _]].
  apply m_bind_inv in E as (w2 & r3 & E2 & E). apply attempt_inv in E2 as (r4 & E2 & ->).
  apply repo_call_inv in E2 as (d & h & E2 & ->).
  destruct (law_count _ _ _ _ _ _ _ E2) as (-> & -> & Hn & Hcount). rewrite set_db_id in *.
  destruct r4 as [n|e|m]; [|injection E as <- <-; done|by destruct (Hn m)].
  injection E as <- <-. split; [done|]. split; [done|]. intros ?? [= <- <-]. split; [done|].
  intros _ _. rewrite <- (Hcount n eq_refl). apply Z.ltb_lt.
Qed.

(** The database has a row for the operation, which keeps it. *)
Definition recorded (d : DB) (op : Operation) : Prop :=
  exists o, stored_operation d (ID op) = Some o /\ row_of op o.

Lemma store_spec c op ex w w' r :
  storeOrUpdateOperation c op ex w = (w', r) ->
  match r with
  | Ok _ => plain op \/ ex = true -> recorded (db w') op
  | Err _ => db w' = db w
  | Panic _ => False
  end.
Proof.
  unfold storeOrUpdateOperation. intros (w1 & r1 & E1 & E)%m_bind_inv. apply attempt_inv in E1 as (r2 & E1 & ->).
  apply repo_call_inv in E1 as (d & h & E1 & ->).
  assert (no_panic r2 /\ (r2 = Ok tt -> plain op \/ ex = true -> recorded d op) /\ (forall e, r2 = Err e -> d = db w))
    as (Hnp & Hok & Herr).
  { destruct ex.
    - destruct (law_update _ _ _ _ _ _ _ E1) as (_ & ? & Hok & ? & _). split_and!; try done.
      intros Hr _. destruct (Hok Hr) as [(o & ? & ? & _) _]. by exists o.
    - destruct (law_create _ _ _ _ _ _ _ E1) as (_ & ? & ? & Hok). split_and!; try done. intros Hr [Hpl|[=]]. by apply Hok. }
  destruct r2 as [[]|e|m]; [injection E as <- <-; by apply Hok|injection E as <- <-; by eapply Herr|by destruct (Hnp m)].
Qed.

Lemma expired_spec c p w w' r op err :
  heap w !! p = Some op -> startable op -> in_time (clock w) op = Err err ->
  executeOperationPreconditions s duration_string errors_string c p w = (w', r) ->
  let failed := updated (set_DeletionScheduled op None) FAILED (Some err) in
  sees w' p failed /\
  ((r = Err err /\ (holds (db w') failed \/ stored_operation (db w') (ID op) = None)) \/
   (r = Err (EPlain ("failed to update error of operation with id " ++ ID op ++ " to " ++ Error err)) /\
    db w' = db w)).
Proof.
  intros Hp Hst Ht E. unfold executeOperationPreconditions in E. apply startable_guard in Hst.
  apply m_bind_inv in E as (w1 & r1 & E1 & E). destruct (deref_sees _ _ _ _ _ (sees_intro _ _ _ Hp) E1) as [-> (op1 & _ & ->)].
  apply deref_live in E1 as [_ E1]. rewrite Hp in E1. injection E1 as <-.
  rewrite Hst in E. apply m_bind_inv in E as (w1 & r1 & E1 & E). injection E1 as <- <-. rewrite Ht in E.
  apply m_bind_inv in E as (w1 & r1 & E1 & E).
  destruct (modify_sees w w1 p op _ (set_DeletionScheduled op None) r1 (sees_intro _ _ _ Hp) E1) as (-> & Hs1 & Hd1);
    [intros op'; apply later_deletion|].
  apply m_bind_inv in E as (w2 & r2 & E2 & E). apply attempt_inv in E2 as (r3 & E2 & ->).
  destruct (update_state_spec _ _ _ _ _ _ _ _ Hs1 E2) as [Hs2 Hu]. simpl.
  destruct r3 as [[]|e|m]; [| |done]; injection E as <- <-; (split; [done|]).
  - left. split; [done|]. destruct Hu as [[?|[-> Hn]] _]; [by left|right; exact Hn].
  - right. split; [done|]. congruence.
Qed.

Lemma preconditions_spec c p w w' r op :
  heap w !! p = Some op -> executeOperationPreconditions s duration_string errors_string c p w = (w', r) ->
  match r with
  | Ok _ =>
      startable op /\ in_time (clock w) op = Ok tt /\ Operation_Validate op = Ok tt /\
      (forall last, last_operation (db w) (ResourceID op) (ResourceType op) = Some last ->
         checkForConcurrentOperations op last = Ok tt /\ blocked_update op last = false) /\
      (plain op -> recorded (db w') op)
  | Err e =>
      match in_time (clock w) op with
      | Err late => db w' = db w \/ (startable op /\ e = late /\
          let failed := updated (set_DeletionScheduled op None) FAILED (Some late) in
          (holds (db w') failed \/ stored_operation (db w') (ID op) = None))
      | _ => db w' = db w
      end
  | Panic _ => False
  end.
Proof.
  intros Hp E. pose proof E as E0. unfold executeOperationPreconditions in E.
  apply m_bind_inv in E as (w1 & r1 & E1 & E). destruct (deref_sees _ _ _ _ _ (sees_intro _ _ _ Hp) E1) as [-> (op1 & _ & ->)].
  apply deref_live in E1 as [_ E1]. rewrite Hp in E1. injection E1 as <-.
  destruct (_ || _) eqn:Hst; [injection E as <- <-; destruct (in_time _ _); auto|].
  apply m_bind_inv in E as (w1 & r1 & E1 & E). injection E1 as <- <-.
  destruct (in_time (clock w) op) as [[]|err|m] eqn:Ht; [| |by destruct (timeout_no_panic _ _ _ _ _ _ Ht)].
  2:{ apply startable_guard in Hst. destruct (expired_spec c p w w' r op err Hp Hst Ht E0) as [_ [[-> ?]|[-> ?]]]; auto. }
  destruct (Operation_Validate op) as [[]|err|m] eqn:Hv; [|by injection E as <- <-|by destruct (no_panic_validate _ _ Hv)].
  apply m_bind_inv in E as (w1 & r1 & E1 & E).
  destruct (last_operation_spec _ _ _ _ _ _ E1) as (-> & Hn1 & Hlast).
  destruct r1 as [[last ex]|e|m]; [|by destruct E as [-> ->]|by destruct (Hn1 m)].
  destruct (Hlast _ _ eq_refl) as [-> _]. apply m_bind_inv in E as (w1 & r1 & E2 & E).
  assert (w1 = w /\ no_panic r1 /\ (r1 = Ok tt -> forall last,
    last_operation (db w) (ResourceID op) (ResourceType op) = Some last ->
         checkForConcurrentOperations op last = Ok tt /\ blocked_update op last = false)) as (-> & Hn2 & Hc).
  { destruct (last_operation _ _ _) as [last|]; [|by injection E2 as <- <-].
    apply m_bind_inv in E2 as (w2 & r2 & E3 & E2). injection E3 as <- <-.
    pose proof (conflict_no_panic op last) as Hcp.
    destruct (checkForConcurrentOperations op last) as [[]|e|m] eqn:Hck;
      [|by destruct E2 as [-> ->]|by destruct (Hcp m)].
    injection E2 as <- <-. split; [done|]. split; [auto with sm|]. intros Hg ? [= <-]. by apply guard_err_ok in Hg. }
  destruct r1 as [[]|e|m]; [|by destruct E as [-> ->]|by destruct (Hn2 m)].
  apply startable_guard in Hst. apply store_spec in E. destruct r; [|done..]. split_and!; [done..|by apply Hc|auto].
Qed.

(** C2: an operation that passes the preconditions is unfinished, within its time limits and
    valid, may start after the last operation on its resource, is not an update of an
    instance or binding whose creation failed, and (unless it is a cascade deletion, which its
    interceptors may replace) is now stored.  A rejected operation leaves the database
    unchanged, with one exception: an unfinished operation that is over its time limits is
    rejected with the timeout and stored as failed, with no deletion scheduled and the timeout
    as its error unless it had one; if it is not stored any more, nothing is stored. *)
Theorem preconditions_sound c p w w' r op :
  heap w !! p = Some op -> executeOperationPreconditions s duration_string errors_string c p w = (w', r) ->
  match r with
  | Ok _ =>
      startable op /\ in_time (clock w) op = Ok tt /\ Operation_Validate op = Ok tt /\
      (forall last, last_operation (db w) (ResourceID op) (ResourceType op) = Some last ->
         checkForConcurrentOperations op last = Ok tt /\ blocked_update op last = false) /\
      (plain op -> recorded (db w') op)
  | Err e =>
      match in_time (clock w) op with
      | Err late => db w' = db w \/ (startable op /\ e = late /\
          let failed := updated (set_DeletionScheduled op None) FAILED (Some late) in
          (holds (db w') failed \/ stored_operation (db w') (ID op) = None))
      | _ => db w' = db w
      end
  | Panic _ => False
  end.
Proof. exact (preconditions_spec c p w w' r op). Qed.

(** An operation that is over its time limits fails for good: it is stored as failed, with
    no deletion scheduled, with the timeout as its error unless it had one, and the caller
    gets the timeout error, or the storage failed. *)
Theorem expired_operation_fails c p w w' r op err :
  heap w !! p = Some op -> startable op -> in_time (clock w) op = Err err ->
  executeOperationPreconditions s duration_string errors_string c p w = (w', r) ->
  let failed := updated (set_DeletionScheduled op None) FAILED (Some err) in
  sees w' p failed /\
  ((r = Err err /\ (holds (db w') failed \/ stored_operation (db w') (ID op) = None)) \/
   (r = Err (EPlain ("failed to update error of operation with id " ++ ID op ++ " to " ++ Error err)) /\
    db w' = db w)).
Proof. exact (expired_spec c p w w' r op err). Qed.
End Preconditions.

(** ** Jobs *)
Section Jobs.
Context `{RepositoryLaws}.
Variable s : Scheduler.
Variable duration_string : Z -> string.
Variable errors_string : option errors_json -> string.
Variable caller_action : nat -> ctx -> M (option resource).
Variable await : Z -> M (option error).

Lemma refetch_inv c p w w' r op :
  heap w !! p = Some op -> refetchOperation c p w = (w', r) ->
  match (repo_get_operation c (ID op) (db w, heap w)).2 with
  | Ok o => exists q, r = Ok q /\ w' = set_db w (db w) (<[q := o]> (heap w)) /\ q ∉ dom (heap w) /\
      stored_operation (db w) (ID op) = Some o
  | Err _ => exists e, r = Err e
  | Panic _ => False
  end.
Proof.
  intros Hp E. pose proof (safe_refetch s p c w w' r) as Hsafe.
  unfold refetchOperation in E. apply m_bind_inv in E as (w1 & r1 & E1 & E).
  assert (r1 = Ok op /\ w1 = w) as [-> ->].
  { unfold deref in E1. simpl in E1. rewrite Hp in E1. by injection E1. }
  apply m_bind_inv in E as (w2 & r2 & E2 & E). apply attempt_inv in E2 as (r3 & E2 & ->).
  apply repo_call_inv in E2 as (d & h & E2 & ->). rewrite E2. simpl.
  destruct (law_get_operation _ _ _ _ _ _ _ E2) as (-> & -> & Hnp & Hok). rewrite set_db_id in *.
  destruct r3 as [o|e|m]; [| |by destruct (Hnp m)].
  - unfold alloc in E. injection E as <- <-. eexists. split; [done|]. split; [done|]. split; [apply is_fresh|]. by apply Hok.
  - destruct r as [q|e1|m]; [exfalso|by eauto|exfalso].
    + apply m_bind_inv in E as (w3 & r3 & E3 & E). apply attempt_inv in E3 as (r4 & E3 & ->).
      destruct r4; [by injection E|by injection E|by destruct E].
    + eapply Hsafe; [|unfold refetchOperation, m_bind at 1, deref; simpl; rewrite Hp|reflexivity].
      * apply elem_of_dom. eauto.
      * unfold m_bind at 1, attempt at 1, repo_call. rewrite E2, set_db_id. exact E.
Qed.

Lemma recover_spec j w w' r op :
  heap w !! job_op j = Some op -> recover_job j w = (w', r) ->
  match (repo_get_operation (job_ctx j) (ID op) (db w, heap w)).2 with
  | Ok _ => no_panic r
  | Err _ => exists m, r = Panic m
  | Panic _ => False
  end.
Proof.
  intros Hp E. unfold recover_job in E. apply m_bind_inv in E as (w1 & r1 & E1 & E).
  apply attempt_inv in E1 as (r2 & E1 & ->). apply (refetch_inv _ _ _ _ _ _ Hp) in E1.
  destruct (repo_get_operation _ _ _).2 as [o|e|m]; [| |done].
  - destruct E1 as (q & -> & -> & _). apply m_bind_inv in E as (w2 & r2 & E2 & E).
    apply attempt_inv in E2 as (r3 & E2 & ->). apply (safe_update_state s) in E2; [|simpl; rewrite dom_insert; set_solver].
    destruct r3 as [| |m]; [injection E as <- <-..|by destruct (E2 m)]; done.
  - destruct E1 as [e1 ->]. apply m_bind_inv in E as (w2 & r2 & E2 & E).
    apply attempt_inv in E2 as (r3 & E2 & ->). unfold updateOperationState, modify, m_bind, deref in E2. simpl in E2.
    injection E2 as <- <-. destruct E as [_ ->]. eauto.
Qed.

(** A job that panics is recovered exactly when the repository still returns its
    operation: then the worker and the wait group are released; when the re-fetch fails, the
    deferred function dereferences a nil operation and the panic ends the process. *)
Theorem job_panic_recovery k w j w1 msg op :
  jobs w !! k = Some j ->
  job_body s caller_action await duration_string errors_string j w = (w1, Panic msg) ->
  heap w1 !! job_op j = Some op ->
  match (repo_get_operation (job_ctx j) (ID op) (db w1, heap w1)).2 with
  | Ok _ => exists w', run_job s caller_action await duration_string errors_string k w = (w', Ok tt)
  | Err _ => exists w' m, run_job s caller_action await duration_string errors_string k w = (w', Panic m)
  | Panic _ => False
  end.
Proof.
  intros Hk Hbody Hp. unfold run_job. rewrite Hk, Hbody.
  destruct (recover_job j w1) as [w2 r2] eqn:E2. apply (recover_spec _ _ _ _ _ Hp) in E2.
  destruct (repo_get_operation _ _ _).2 as [o|e|m]; [| |done].
  - destruct r2 as [| |m]; [by eauto..|by destruct (E2 m)].
  - destruct E2 as [m ->]. eauto.
Qed.

(** C3: from an idle scheduler on, whatever requests schedule and in whatever order jobs
    run, there is one taken worker and one count of the wait group for every job that has
    not ended, and never more of them than the pool is large. *)
Theorem worker_slots_match_jobs w w' :
  (forall n c, keeps s (caller_action n c)) -> (forall d, keeps s (await d)) ->
  workers w = 0%nat -> wg w = 0%nat -> jobs w = [] ->
  rtc (sched_step s duration_string errors_string caller_action await) w w' -> slots_ok s w'.
Proof.
  intros Ha Hw W1 W2 W3 Hr. eapply sched_steps_slots; [exact Ha|exact Hw|exact Hr|].
  unfold slots_ok. rewrite W1, W2, W3. simpl. lia.
Qed.

(** A job holds its worker while it handles the failure of its action: when the pool is
    full, the deletion that orphan mitigation asks for finds no worker and is not
    scheduled, so the job leaves no job behind; with a pool of one this is always so. *)
Theorem full_pool_starts_no_job k j w w' :
  (forall n c, keeps s (caller_action n c)) -> (forall d, keeps s (await d)) ->
  slots_ok s w -> workers w = poolSize s -> jobs w !! k = Some j ->
  run_job s caller_action await duration_string errors_string k w = (w', Ok tt) ->
  jobs w' = delete k (jobs w).
Proof.
  intros Ha Hw _ Hfull Hk E. eapply run_job_inv in E; [|exact Ha|exact Hw]. rewrite Hk in E.
  destruct E as (w2 & (new & E1 & E2 & _ & E4 & _) & _ & _ & _ & ->). rewrite E1.
  destruct new as [|n new]; [by rewrite app_nil_r|]. simpl in E2. lia.
Qed.

Lemma add_to_context_ok c p w w' c' :
  addOperationToContext c p w = (w', Ok c') -> c' = Some p /\ w' = w /\ is_Some (heap w !! p).
Proof.
  unfold addOperationToContext. intros (w1 & r1 & E1 & E)%m_bind_inv.
  destruct r1 as [op| |]; [|by destruct E..]. apply deref_live in E1 as [-> Hp].
  destruct (Operation_Validate op) as [[]|e|m]; [|exfalso|by injection E].
  - injection E as <- <-. eauto.
  - apply m_bind_inv in E as (w1 & r1 & E1 & E). apply attempt_inv in E1 as (r2 & E1 & ->).
    destruct r2; [by injection E|by injection E|by destruct E].
Qed.

Lemma deref_some p w op : heap w !! p = Some op -> deref (Some p) w = (w, Ok op).
Proof. intros Hp. unfold deref. simpl. by rewrite Hp. Qed.

(** [handleActionResponse] that returns: the re-fetched operation decides. *)
Lemma response_ok c obj1 e p w w' obj :
  handleActionResponse s await duration_string errors_string c obj1 e p w = (w', Ok obj) ->
  e = None /\ exists op1 o,
    heap w !! p = Some op1 /\ stored_operation (db w) (ID op1) = Some o /\
    if Reschedule o then db w' = db w /\ obj = obj1
    else success_effect (set_TransitiveResources o (TransitiveResources op1)) obj1 obj (db w').
Proof.
  unfold handleActionResponse. intros (w1 & r1 & E1 & E)%m_bind_inv.
  destruct r1 as [q| |]; [|by destruct E..].
  assert (exists op1, heap w !! p = Some op1) as [op1 Hp].
  { unfold refetchOperation in E1. apply m_bind_inv in E1 as (w2 & r2 & E2 & E1).
    destruct r2; [apply deref_live in E2 as [_ ?]; eauto|by destruct E1..]. }
  pose proof (refetch_inv _ _ _ _ _ _ Hp E1) as Hq.
  destruct (repo_get_operation _ _ _).2 as [o|e1|m]; [|by destruct Hq|done].
  destruct Hq as (q' & [= <-] & -> & Hnq & Ho).
  assert (Hpq : p <> q) by (intros ->; apply Hnq, elem_of_dom; eauto).
  unfold m_bind at 1 in E. rewrite (deref_some p _ op1) in E by (simpl; by rewrite lookup_insert_ne).
  unfold m_bind at 1, modify, m_bind at 1 in E.
  rewrite (deref_some q _ o) in E by (simpl; by rewrite lookup_insert_eq).
  unfold store in E. apply m_bind_inv in E as (w2 & r2 & E2 & E).
  destruct r2 as [c2| |]; [|by destruct E..]. apply add_to_context_ok in E2 as (-> & -> & _).
  set (o' := set_TransitiveResources o (TransitiveResources op1)) in E.
  unfold m_bind at 1 in E. rewrite (deref_some q _ o') in E by (simpl; by rewrite lookup_insert_eq).
  destruct e as [e|].
  - exfalso. apply m_bind_inv in E as (w3 & r3 & E3 & E). destruct r3 as [[]| |]; [|by destruct E..].
    eapply failure_spec in E3 as [Hn _]; [by apply Hn|simpl; by rewrite lookup_insert_eq].
  - split; [done|]. exists op1, o. split; [done|]. split; [done|].
    change (Reschedule o') with (Reschedule o) in E. destruct (Reschedule o).
    + by injection E as <- <-.
    + eapply success_spec in E; [exact E|simpl; by rewrite lookup_insert_eq].
Qed.

(** What a synchronous run that returns has done. *)
Lemma sync_ok c p a w w' obj op :
  heap w !! p = Some op -> plain op ->
  ScheduleSyncStorageAction s caller_action await duration_string errors_string c p a w = (w', Ok obj) ->
  exists w0 w1 obj1 op1 o,
    recorded (db w0) op /\
    run_action caller_action a (Some p) w0 = (w1, Ok obj1) /\
    heap w1 !! p = Some op1 /\ stored_operation (db w1) (ID op1) = Some o /\
    if Reschedule o then db w' = db w1 /\ obj = obj1
    else success_effect (set_TransitiveResources o (TransitiveResources op1)) obj1 obj (db w').
Proof.
  intros Hp Hplain E. unfold ScheduleSyncStorageAction in E.
  apply m_bind_inv in E as (w0 & r0 & E0 & E). destruct r0 as [[]| |]; [|by destruct E..].
  apply (preconditions_spec _ _ _ _ _ _ _ _ _ Hp) in E0 as (_ & _ & _ & _ & Hst). specialize (Hst Hplain).
  apply m_bind_inv in E as (w1 & r1 & E1 & E). destruct r1 as [c1| |]; [|by destruct E..].
  apply add_to_context_ok in E1 as (-> & -> & _).
  apply m_bind_inv in E as (w1 & r1 & E1 & E). apply attempt_inv in E1 as (r2 & E1 & ->).
  destruct r2 as [obj1|e|m]; [| |by destruct E].
  - apply response_ok in E as (_ & op1 & o & ? & ? & ?). exists w0, w1, obj1, op1, o. done.
  - by apply response_ok in E as [? _].
Qed.

(** C1: an action run synchronously, for an operation that is no cascade deletion: the operation
    was stored before the action ran; afterwards the operation is read again, and if it asks for
    a reschedule the database is left as the action left it; otherwise the operation is stored in
    its final state, or is no longer stored at the end, and what a creation made is ready. *)
Theorem sync_action_finishes c p a w w' obj op :
  heap w !! p = Some op -> plain op ->
  ScheduleSyncStorageAction s caller_action await duration_string errors_string c p a w = (w', Ok obj) ->
  exists w0 w1 obj1 op1 o,
    recorded (db w0) op /\
    run_action caller_action a (Some p) w0 = (w1, Ok obj1) /\
    heap w1 !! p = Some op1 /\ stored_operation (db w1) (ID op1) = Some o /\
    if Reschedule o then db w' = db w1 /\ obj = obj1
    else success_effect (set_TransitiveResources o (TransitiveResources op1)) obj1 obj (db w').
Proof. apply sync_ok. Qed.
End Jobs.

(** C5: an operation on a resource is let through exactly when it deletes something that is
    not being deleted, when nothing runs on the resource and no deletion is pending, or
    when it repeats the kind of the last operation to mitigate or reschedule it; so next to
    an operation in progress with no deletion scheduled only a deletion or a reschedule of
    the same kind can start. *)
Theorem conflicting_operations_rejected op last :
  known (Type_ op) = true -> known (Type_ last) = true ->
  (checkForConcurrentOperations op last = Ok tt <-> may_start op last) /\
  (State last = IN_PROGRESS -> DeletionScheduled last = None -> checkForConcurrentOperations op last = Ok tt ->
   (Type_ op = DELETE /\ Type_ last <> DELETE) \/
   (Type_ op = Type_ last /\ Reschedule last = true /\ Reschedule op = true)).
Proof.
  intros Ho Hl. pose proof (conflict_iff op last Ho Hl) as Hiff. split; [done|].
  intros Hp Hd Hok. apply Hiff in Hok as [?|[[? _]|[? [[t Ht]|?]]]]; [by left|done|congruence|by right].
Qed.

(** ** The scheduler's theorems on concrete worlds of the in-memory repository *)
Definition sample_op (ty : OperationCategory) (st : OperationState) (deletion : option Z) : Operation :=
  {| ID := "op"; CreatedAt := 5; Labels_ := ∅; Ready := true; Description_ := ""; Type_ := ty; State := st;
     ResourceID := "r"; TransitiveResources := []; ResourceType := ServiceInstanceType; Errors_ := None;
     PlatformID := "p"; CorrelationID := "c"; ExternalID := ""; ParentID := ""; CascadeRootID := "";
     Context_ := None; Reschedule := false; RescheduleTimestamp := None; DeletionScheduled := deletion |}.
Definition sample_resource : resource :=
  {| res_type := ServiceInstanceType; res_id := "r"; res_ready := false; res_usable := false; res_data := no_data |}.
Definition sample_scheduler : Scheduler :=
  {| poolSize := 1; actionTimeout := 10; reconciliationOperationTimeout := 100;
     cascadeOrphanMitigationTimeout := 50; reschedulingDelay := 1; reschedulingLongDelay := 20 |}.

Definition world_of (ops : list Operation) (op : Operation) (now : Z) (js : list job) : World :=
  {| db := {| mem_operations := ops; mem_resources := {[ (ServiceInstanceType, "r") := sample_resource ]} |};
     heap := {[ 7%nat := op ]}; clock := now; workers := length js; wg := length js; jobs := js |}.

Definition text_of_duration (_ : Z) : string := "duration".
Definition text_of_errors (_ : option errors_json) : string := "errors".
Definition no_wait (_ : Z) : M (option error) := m_ret None.
(** Actions: return the resource, fail, panic. *)
Definition sample_action (n : nat) (c : ctx) : M (option resource) :=
  match n with
  | 0%nat => m_ret (Some sample_resource)
  | 1%nat => m_fail (EPlain "broken")
  | _ => m_panic "panic"
  end.

(** The world a computation ends in, without evaluating it. *)
Lemma run_snd {A} (m : M A) w r : snd (m w) = r -> m w = (fst (m w), r).
Proof. destruct (m w). simpl. congruence. Qed.
Ltac run_it := first [apply run_snd; vm_compute; reflexivity | vm_compute; reflexivity].

Notation creating := (sample_op CREATE IN_PROGRESS None).
Notation handle_success := (handleActionResponseSuccess (Some 7%nat) (Some sample_resource) 7%nat).
Notation handle_failure := (handleActionResponseFailure sample_scheduler no_wait text_of_duration text_of_errors
  (Some 7%nat) (EPlain "broken") 7%nat).

Lemma success_response_witness :
  exists w' obj', handle_success (world_of [creating] creating 10 []) = (w', Ok obj') /\
    (holds (db w') (success_op creating) \/ stored_operation (db w') "op" = None) /\
    made_ready (db w') creating (Some sample_resource) obj'.
Proof.
  eexists _, _. split; [run_it|].
  refine (success_response (Some 7%nat) (Some sample_resource) 7%nat (world_of [creating] creating 10 []) _ (Ok _)
    creating _ _); run_it.
Defined.

Lemma failure_response_witness :
  exists w' r, handle_failure (world_of [creating] creating 10 []) = (w', r) /\ r = Err (EPlain "broken") /\
    r <> Ok tt.
Proof.
  eexists _, _. split; [run_it|]. split; [reflexivity|].
  refine (proj1 (failure_response sample_scheduler no_wait text_of_duration text_of_errors (Some 7%nat)
    (EPlain "broken") 7%nat (world_of [creating] creating 10 []) _ _ creating _ _)); run_it.
Defined.

Notation preconditions := (executeOperationPreconditions sample_scheduler text_of_duration text_of_errors None 7%nat).

Lemma preconditions_sound_witness :
  exists w', preconditions (world_of [] creating 10 []) = (w', Ok tt) /\
    recorded (db w') creating.
Proof.
  eexists. split; [run_it|].
  refine (proj2 (proj2 (proj2 (proj2 (preconditions_sound sample_scheduler text_of_duration text_of_errors None 7%nat
    (world_of [] creating 10 []) _ (Ok tt) creating _ _)))) _); [run_it..|by left].
Defined.

Lemma expired_operation_fails_witness :
  exists w' r, preconditions (world_of [creating] creating 1000 []) = (w', r) /\
    sees w' 7%nat (updated creating FAILED (Some (EHTTP "ManualActionRequired"
      "operation is older than duration and has exceeded the maximum reconciliation timeout. Rootcause error: errors" 422))).
Proof.
  eexists _, _. split; [run_it|].
  refine (proj1 (expired_operation_fails sample_scheduler text_of_duration text_of_errors None 7%nat
    (world_of [creating] creating 1000 []) _ _ creating _ _ _ _ _)); try run_it.
  split; [discriminate|discriminate].
Defined.

Lemma conflicting_operations_rejected_witness :
  checkForConcurrentOperations (sample_op DELETE IN_PROGRESS None) creating = Ok tt /\
  may_start (sample_op DELETE IN_PROGRESS None) creating.
Proof.
  split; [reflexivity|].
  apply (conflicting_operations_rejected (sample_op DELETE IN_PROGRESS None) creating); reflexivity.
Defined.

(** ** Jobs *)
Definition job_of (n : nat) : job := {| job_op := 7%nat; job_ctx := None; job_action := CallerAction n |}.
Notation run := (run_job sample_scheduler sample_action no_wait text_of_duration text_of_errors).

Lemma sample_action_keeps : forall n c, keeps sample_scheduler (sample_action n c).
Proof. intros [|[|n]] c; [apply keeps_ret|apply keeps_fail|apply keeps_panic]. Qed.
Lemma no_wait_keeps : forall d, keeps sample_scheduler (no_wait d).
Proof. intros d. apply keeps_ret. Qed.

Lemma job_panic_recovery_witness :
  exists w' m, run 0 (world_of [] creating 10 [job_of 2]) = (w', Panic m).
Proof.
  exact (job_panic_recovery sample_scheduler text_of_duration text_of_errors sample_action no_wait 0
    (world_of [] creating 10 [job_of 2]) (job_of 2) (world_of [] creating 10 [job_of 2]) "panic" creating
    eq_refl ltac:(run_it) eq_refl).
Defined.

Lemma full_pool_starts_no_job_witness :
  exists w', run 0 (world_of [sample_op CREATE IN_PROGRESS (Some 9%Z)] (sample_op CREATE IN_PROGRESS (Some 9%Z)) 10 [job_of 1]) =
    (w', Ok tt) /\ jobs w' = [].
Proof.
  eexists. split; [run_it|].
  refine (full_pool_starts_no_job sample_scheduler text_of_duration text_of_errors sample_action no_wait 0 (job_of 1)
    (world_of [sample_op CREATE IN_PROGRESS (Some 9%Z)] (sample_op CREATE IN_PROGRESS (Some 9%Z)) 10 [job_of 1]) _
    sample_action_keeps no_wait_keeps _ _ _ _); try run_it.
  split; [reflexivity|]. split; [reflexivity|]. simpl. lia.
Defined.

Lemma worker_slots_match_jobs_witness :
  exists w', ScheduleAsyncStorageAction sample_scheduler text_of_duration text_of_errors None 7%nat (CallerAction 0)
      (world_of [] creating 10 []) = (w', Ok tt) /\ workers w' = 1%nat /\ slots_ok sample_scheduler w'.
Proof.
  eexists. split; [run_it|]. split; [reflexivity|].
  refine (worker_slots_match_jobs sample_scheduler text_of_duration text_of_errors sample_action no_wait
    (world_of [] creating 10 []) _ sample_action_keeps no_wait_keeps eq_refl eq_refl eq_refl _).
  apply rtc_once. eapply (step_async _ _ _ _ _ _ None 7%nat (CallerAction 0)); [|run_it].
  apply elem_of_dom. eexists. vm_compute. reflexivity.
Defined.

Lemma sync_action_finishes_witness :
  exists w' obj, ScheduleSyncStorageAction sample_scheduler sample_action no_wait text_of_duration text_of_errors None 7%nat
      (CallerAction 0) (world_of [] creating 10 []) = (w', Ok obj) /\
    exists w0 w1 obj1 op1 o,
      recorded (db w0) creating /\
      run_action sample_action (CallerAction 0) (Some 7%nat) w0 = (w1, Ok obj1) /\
      heap w1 !! 7%nat = Some op1 /\ stored_operation (db w1) (ID op1) = Some o /\
      if Reschedule o then db w' = db w1 /\ obj = obj1
      else success_effect (set_TransitiveResources o (TransitiveResources op1)) obj1 obj (db w').
Proof.
  eexists _, _. split; [run_it|].
  refine (sync_action_finishes sample_scheduler text_of_duration text_of_errors sample_action no_wait None 7%nat
    (CallerAction 0) (world_of [] creating 10 []) _ _ creating _ _ _); [run_it|by left|run_it].
Defined.
