(* ===== verification/Maintainer.v ===== *)
(** * The operation maintainer (operations/maintainer.go) and the state of cascade operations
    (operations/cascade_utils.go)

    The recurring jobs of the maintainer over the world of [Repository]: polling the pending
    cascade operations, rescheduling, marking stuck operations, and the clean-ups.  The
    queries they make are the criteria of the code, given to [OperationQueries].  The
    maintainer has two schedulers, one for cascade polling and one for the rest, with pools
    of their own; a job of the maintainer uses one of them, and the world is the one of
    that scheduler.  Only log messages are left out. *)

From S2P Require Import Prelude GoStd Errors Query OperationTypes Cascade Repository Scheduler.
From stdpp Require Import base gmap strings list.
From Stdlib Require Import ZArith.
Import Operators Criteria.
Local Open Scope string_scope.

(** The repository's queries for operations, and the tables of its entities. *)
Class OperationQueries `{Repository} := {
  repo_list_operations : list Criterion -> DB * op_heap -> (DB * op_heap) * result (list Operation);
  repo_count_matching : list Criterion -> DB * op_heap -> (DB * op_heap) * result Z;
  repo_find_operation : list Criterion -> DB * op_heap -> (DB * op_heap) * result Operation;
  repo_delete_operations : list Criterion -> DB * op_heap -> (DB * op_heap) * result unit;
  (** the creation of an operation below the interceptors of operations: the chain takes them
      out while they run *)
  repo_insert_operation : ctx -> Operation -> DB * op_heap -> (DB * op_heap) * result unit;
  entity_tables : list string
}.

Definition ZeroTime : string := "0001-01-01 00:00:00+00".
Definition ToRFCNanoFormat (timestamp : Z) : string := Time.format_rfc3339_nano timestamp.

(** storage/sub_query.go, with runs of white space as one blank. *)
Definition QueryForAllNotLastOperationsPerResource : string :=
  " SELECT op.id FROM OPERATIONS op LEFT JOIN ( SELECT MAX(OPERATIONS.PAGING_SEQUENCE) PAGING_SEQUENCE FROM OPERATIONS GROUP BY RESOURCE_ID, RESOURCE_TYPE ) max_op ON op.PAGING_SEQUENCE = max_op.PAGING_SEQUENCE WHERE max_op.PAGING_SEQUENCE IS NULL".
Definition QueryForOperationsWithResource (resource_table : string) : string :=
  " SELECT id FROM " ++ resource_table ++ " WHERE operations.resource_id = " ++ resource_table ++ ".id".

(** ** Sub-operations *)
Record CascadedOperations := {
  AllOperationsCount : nat;
  FailedOperations : list Operation;
  InProgressOperations : list Operation;
  SucceededOperations : list Operation;
  OrphanMitigationOperations : list Operation;
  PendingOperations : list Operation
}.
Definition classify_one (c : CascadedOperations) (op : Operation) : CascadedOperations :=
  let '(Build_CascadedOperations n f i s o p) := c in
  if InOrphanMitigationState op then Build_CascadedOperations n f i s (o ++ [op]) p
  else match State op with
       | SUCCEEDED => Build_CascadedOperations n f i (s ++ [op]) o p
       | IN_PROGRESS => Build_CascadedOperations n f (i ++ [op]) s o p
       | PENDING => Build_CascadedOperations n f i s o (p ++ [op])
       | FAILED => Build_CascadedOperations n (f ++ [op]) i s o p
       | OtherState _ => c
       end.
Definition classify (subOperations : list Operation) : CascadedOperations :=
  foldl classify_one (Build_CascadedOperations (length subOperations) [] [] [] [] []) subOperations.

(** [json.Marshal] of the errors collected below a failed operation. *)
Definition PrepareAggregatedErrorsArray (failedSubOperations : list Operation) (resourceID resourceType : string)
    : errors_json :=
  CascadeErrorsJSON (failedSubOperations ≫= (fun failedOP =>
    match Errors_ failedOP with
    | Some (CascadeErrorsJSON childErrors) => childErrors
    | Some message => [CascadeError resourceType resourceID (ResourceType failedOP) (ResourceID failedOP) message]
    | None => []
    end)).

Definition force_delete_error (op : Operation) : errors_json :=
  HTTPErrorJSON "InternalServerError"
    ("failed to force cascade delete of " ++ ResourceType op ++ " with id " ++ ResourceID op).

Section Maintainer.
Context `{OperationQueries}.
Variable settings : Settings.
Variable s : Scheduler.
Variable duration_string : Z -> string.
Variable errors_string : option errors_json -> string.

Local Abbreviation schedule_async := (ScheduleAsyncStorageAction s duration_string errors_string None).
Local Abbreviation list_operations criteria := (repo_call (repo_list_operations criteria)).

Definition GetSubOperations (operation : Operation) : M CascadedOperations :=
  let! subOperations := list_operations [ByField EqualsOperator "parent_id" [ID operation]] in
  m_ret (classify subOperations).

(** The state of a finished operation on the same resource, and whether to skip this one. *)
Definition handleDuplicateOperations (operation : Operation) : M (option OperationState * bool) :=
  let! sameResourceOperations := list_operations
    [ByField EqualsOperator "resource_id" [ResourceID operation];
     ByField EqualsOperator "resource_type" [ResourceType operation];
     ByField EqualsOperator "type" [category_string (Type_ operation)];
     ByField EqualsOperator "cascade_root_id" [CascadeRootID operation];
     OrderResultBy "updated_at" DescOrder] in
  match sameResourceOperations with
  | [] => m_ret (None, false)
  | same :: _ =>
      if InOrphanMitigationState same then m_ret (None, true)
      else match State same with
           | IN_PROGRESS => m_ret (None, true)
           | SUCCEEDED | FAILED => m_ret (Some (State same), false)
           | _ => m_ret (None, false)
           end
  end.

Definition FindCascadeOperationForResource (resourceID : string) : M (option Operation) :=
  let! r := attempt (repo_call (repo_find_operation
    [ByField EqualsOperator "resource_id" [resourceID];
     ByField InOperator "state" [state_string IN_PROGRESS; state_string PENDING];
     ByField NotEqualsOperator "cascade_root_id" [""];
     OrderResultBy "updated_at" DescOrder])) in
  match r with
  | inl op => m_ret (Some op)
  | inr ENotFoundInStorage => m_ret None
  | inr e => m_fail e
  end.

(** [operation.State = state; om.repository.Update(...)], where only a log message tells
    of an error. *)
Definition store_and_update (p : op_ptr) (op : Operation) : M unit :=
  store p op ;!
  let! _ := attempt (repo_call (repo_update_operation None op)) in
  m_ret tt.

(** ** Polling of pending cascade operations *)
Definition all_succeeded (sub : CascadedOperations) : bool :=
  (AllOperationsCount sub =? length (SucceededOperations sub))%nat.
Definition some_failed (sub : CascadedOperations) : bool :=
  (0 <? length (FailedOperations sub))%nat &&
  (length (FailedOperations sub) + length (SucceededOperations sub) =? AllOperationsCount sub)%nat.

(** The errors of an operation that fails because operations below it failed. *)
Definition failed_cascade_errors (op : Operation) (sub : CascadedOperations) : option errors_json :=
  if negb (IsForceDeleteCascadeOperation op) then
    Some (PrepareAggregatedErrorsArray (FailedOperations sub) (ResourceID op) (ResourceType op))
  else if String.eqb (CascadeRootID op) (ID op) then Some (force_delete_error op)
  else Errors_ op.

(** The body of the loop; [skipped] is [skipSameResourcesForCurrentIteration]. *)
Definition poll_operation (skipped : gset string) (op : Operation) : M (gset string) :=
  if bool_decide (ResourceID op ∈ skipped) then m_ret skipped
  else
  let! p := alloc op in
  let! r := attempt (GetSubOperations op) in
  match r with
  | inr _ => m_ret skipped
  | inl sub =>
      if all_succeeded sub then
        if IsVirtualType (ResourceType op) then
          store_and_update p (set_State op SUCCEEDED) ;! m_ret skipped
        else
          let! d := attempt (handleDuplicateOperations op) in
          match d with
          | inr _ => m_ret skipped
          | inl (_, true) => m_ret ({[ResourceID op]} ∪ skipped)
          | inl (Some sameResourceState, false) =>
              store_and_update p (set_State op sameResourceState) ;! m_ret skipped
          | inl (None, false) =>
              store p (set_State op IN_PROGRESS) ;!
              let! a := attempt (schedule_async p (DeletionAction p)) in
              m_ret (match a with inl _ => {[ResourceID op]} ∪ skipped | inr _ => skipped end)
          end
      else if some_failed sub then
        store_and_update p (set_State (set_Errors op (failed_cascade_errors op sub)) FAILED) ;! m_ret skipped
      else m_ret skipped
  end.

Fixpoint poll_operations (skipped : gset string) (ops : list Operation) : M unit :=
  match ops with
  | [] => m_ret tt
  | op :: rest => let! skipped := poll_operation skipped op in poll_operations skipped rest
  end.

Definition pending_criteria : list Criterion :=
  [ByField NotEqualsOperator "cascade_root_id" [""];
   ByField EqualsOperator "type" [category_string DELETE];
   ByField EqualsOperator "state" [state_string PENDING]].

Definition pollPendingCascadeOperations : M unit :=
  let! r := attempt (list_operations pending_criteria) in
  match r with
  | inr _ => m_ret tt
  | inl operations => poll_operations ∅ operations
  end.

(** ** Cascade updates *)
Fixpoint poll_update_roots (roots : list Operation) : M unit :=
  match roots with
  | [] => m_ret tt
  | root :: rest =>
      let! p := alloc root in
      let! r := attempt (GetSubOperations root) in
      match r with
      | inr _ => m_ret tt
      | inl sub =>
          let! root :=
            (if some_failed sub then
               let root := set_State (set_Errors root
                 (Some (PrepareAggregatedErrorsArray (FailedOperations sub) (ResourceID root) (ResourceType root)))) FAILED in
               store_and_update p root ;! m_ret root
             else m_ret root) in
          (if all_succeeded sub then store_and_update p (set_State root SUCCEEDED) else m_ret tt) ;!
          poll_update_roots rest
      end
  end.

Definition PollUpdateCascadeOperations : M unit :=
  let! r := attempt (list_operations
    [ByField EqualsOperator "platform_id" [SMPlatform];
     ByField EqualsOperator "type" [category_string UPDATE];
     ByField EqualsOperator "state" [state_string IN_PROGRESS];
     ByField EqualsOrNilOperator "parent_id" [""];
     ByField NotEqualsOperator "cascade_root_id" [""]]) in
  match r with inr _ => m_ret tt | inl roots => poll_update_roots roots end.

(** ** Rescheduling *)
Definition not_updated_for (now period : Z) : Criterion :=
  ByField LessThanOperator "updated_at" [ToRFCNanoFormat (now - period)%Z].

(** The action of the [switch] on the type; a resource that cannot be fetched leaves it nil. *)
Definition rescheduled_action (p : op_ptr) (op : Operation) : M storageAction :=
  let fetch_then (action : resource -> storageAction) : M storageAction :=
    let! r := attempt (repo_call (repo_get None (ResourceType op) (ResourceID op))) in
    m_ret (match r with inl object => action object | inr _ => NilAction end) in
  match Type_ op with
  | CREATE => fetch_then (CreateAction p)
  | UPDATE => fetch_then (UpdateAction p)
  | DELETE => m_ret (DeletionAction p)
  | OtherCategory _ => m_ret NilAction
  end.

Definition reschedule_operation (op : Operation) : M unit :=
  let! p := alloc op in
  let! action := rescheduled_action p op in
  let! _ := attempt (schedule_async p action) in
  m_ret tt.

Fixpoint for_operations (f : Operation -> M unit) (ops : list Operation) : M unit :=
  match ops with
  | [] => m_ret tt
  | op :: rest => f op ;! for_operations f rest
  end.

Definition rescheduleUnfinishedOperations : M unit :=
  let! currentTime := time_now in
  let! r := attempt (list_operations
    [ByField EqualsOperator "platform_id" [SMPlatform];
     ByField EqualsOperator "state" [state_string IN_PROGRESS];
     ByField EqualsOperator "reschedule" ["true"];
     ByField EqualsOperator "deletion_scheduled" [ZeroTime];
     not_updated_for currentTime (ActionTimeout settings)]) in
  match r with inr _ => m_ret tt | inl operations => for_operations reschedule_operation operations end.

Definition reschedule_deletion (op : Operation) : M unit :=
  let! p := alloc op in
  let! _ := attempt (schedule_async p (DeletionAction p)) in
  m_ret tt.

Definition rescheduleOrphanMitigationOperations : M unit :=
  let! currentTime := time_now in
  let! r := attempt (list_operations
    [ByField EqualsOperator "platform_id" [SMPlatform];
     ByField NotEqualsOperator "deletion_scheduled" [ZeroTime];
     ByField NotEqualsOperator "type" [category_string UPDATE];
     not_updated_for currentTime (ActionTimeout settings)]) in
  match r with inr _ => m_ret tt | inl operations => for_operations reschedule_deletion operations end.

Definition deletes_resource (op : Operation) : bool :=
  bool_decide (Type_ op = CREATE) || bool_decide (Type_ op = DELETE).

Definition mark_stuck_operation (op : Operation) : M unit :=
  let! p := alloc op in
  let! now := time_now in
  let op := set_State op FAILED in
  let op := if deletes_resource op then set_DeletionScheduled op (Some now) else op in
  store p op ;!
  let! u := attempt (repo_call (repo_update_operation None op)) in
  match u with
  | inr _ => m_ret tt
  | inl _ =>
      if deletes_resource op then
        let! _ := attempt (schedule_async p (DeletionAction p)) in m_ret tt
      else m_ret tt
  end.

Definition markStuckOperationsFailed : M unit :=
  let! currentTime := time_now in
  let! r := attempt (list_operations
    [ByField EqualsOperator "platform_id" [SMPlatform];
     ByField EqualsOperator "state" [state_string IN_PROGRESS];
     ByField EqualsOperator "reschedule" ["false"];
     ByField EqualsOperator "deletion_scheduled" [ZeroTime];
     not_updated_for currentTime (ActionTimeout settings)]) in
  match r with inr _ => m_ret tt | inl operations => for_operations mark_stuck_operation operations end.

(** ** Clean-ups *)

(** How often [for i := 0.0; i < math.Ceil(float64(n)/float64(batchSize)); i++] runs: the
    quotient of a positive number and zero is infinite, so only the body ends the loop. *)
Definition batches (unbounded : nat) (n batchSize : Z) : nat :=
  if (batchSize =? 0)%Z then (if (n <=? 0)%Z then 0%nat else unbounded)
  else Z.to_nat (- ((- n) / batchSize))%Z.

Fixpoint delete_batches (k : nat) (criteria : list Criterion) : M unit :=
  match k with
  | 0%nat => m_ret tt
  | S k =>
      let! r := attempt (list_operations criteria) in
      match r with
      | inr _ | inl [] => m_ret tt
      | inl operations =>
          let! d := attempt (repo_call (repo_delete_operations [ByField InOperator "id" (map ID operations)])) in
          match d with
          | inl _ | inr ENotFoundInStorage => delete_batches k criteria
          | inr _ => m_ret tt
          end
      end
  end.

Definition batchDeleteOperation (unbounded : nat) (criteria : list Criterion) (batchSize : Z) : M unit :=
  let! r := attempt (repo_call (repo_count_matching criteria)) in
  match r with
  | inr _ => m_ret tt
  | inl numberOfOperationsToDelete =>
      delete_batches (batches unbounded numberOfOperationsToDelete batchSize)
        (criteria ++ [LimitResultBy batchSize])%list
  end.

Definition not_last : Criterion := BySubquery InSubqueryOperator "id" QueryForAllNotLastOperationsPerResource.

Definition cleanup (unbounded : nat) (criteria : list Criterion) : M unit :=
  let! currentTime := time_now in
  batchDeleteOperation unbounded (criteria ++ [not_updated_for currentTime (Lifespan settings); not_last])%list
    (DeleteOperationsBatchSize settings).

Definition cleanupExternalOperations (unbounded : nat) : M unit :=
  cleanup unbounded [ByField NotEqualsOperator "platform_id" [SMPlatform]].
Definition cleanupInternalSuccessfulOperations (unbounded : nat) : M unit :=
  cleanup unbounded
    [ByField EqualsOperator "platform_id" [SMPlatform];
     ByField EqualsOperator "state" [state_string SUCCEEDED];
     ByField EqualsOrNilOperator "cascade_root_id" [""]].
Definition cleanupInternalFailedOperations (unbounded : nat) : M unit :=
  cleanup unbounded
    [ByField EqualsOperator "platform_id" [SMPlatform];
     ByField EqualsOperator "state" [state_string FAILED];
     ByField EqualsOperator "reschedule" ["false"];
     ByField EqualsOperator "deletion_scheduled" [ZeroTime];
     ByField EqualsOrNilOperator "cascade_root_id" [""]].

Definition delete_cascade_tree (root : Operation) : M unit :=
  let! _ := attempt (repo_call (repo_delete_operations [ByField EqualsOperator "cascade_root_id" [ID root]])) in
  m_ret tt.
Definition CleanupFinishedCascadeOperations : M unit :=
  let! currentTime := time_now in
  let! r := attempt (list_operations
    [ByField EqualsOperator "platform_id" [SMPlatform];
     ByField EqualsOrNilOperator "parent_id" [""];
     ByField NotEqualsOperator "cascade_root_id" [""];
     ByField InOperator "state" [state_string SUCCEEDED; state_string FAILED];
     not_updated_for currentTime (Lifespan settings);
     not_last]) in
  match r with inr _ => m_ret tt | inl roots => for_operations delete_cascade_tree roots end.

Definition CleanupResourcelessOperations : M unit :=
  let! currentTime := time_now in
  let without_resource := map (fun t => ByNotExists (QueryForOperationsWithResource t))
    (List.filter (fun t => negb (String.eqb t "operations")) entity_tables) in
  let! _ := attempt (repo_call (repo_delete_operations
    (not_updated_for currentTime (Lifespan settings) :: without_resource))) in
  m_ret tt.

(** ** The functors and their locks *)
Record maintainerFunctor := { functor_name : string; functor_interval : Z; functor_execute : M unit }.

Definition functors (unbounded : nat) : list maintainerFunctor :=
  [ {| functor_name := "cleanupExternalOperations"; functor_execute := cleanupExternalOperations unbounded;
       functor_interval := CleanupInterval settings |};
    {| functor_name := "cleanupInternalSuccessfulOperations"; functor_execute := cleanupInternalSuccessfulOperations unbounded;
       functor_interval := CleanupInterval settings |};
    {| functor_name := "cleanupInternalFailedOperations"; functor_execute := cleanupInternalFailedOperations unbounded;
       functor_interval := CleanupInterval settings |};
    {| functor_name := "cleanupFinishedCascadeOperations"; functor_execute := CleanupFinishedCascadeOperations;
       functor_interval := CleanupInterval settings |};
    {| functor_name := "pollUpdateCascadeOperations"; functor_execute := PollUpdateCascadeOperations;
       functor_interval := PollCascadeInterval settings |};
    {| functor_name := "cleanupResourcelessOperations"; functor_execute := CleanupResourcelessOperations;
       functor_interval := CleanupInterval settings |};
    {| functor_name := "pollPendingCascadeOperations"; functor_execute := pollPendingCascadeOperations;
       functor_interval := PollCascadeInterval settings |};
    {| functor_name := "markStuckOperationsFailed"; functor_execute := markStuckOperationsFailed;
       functor_interval := MaintainerRetryInterval settings |};
    {| functor_name := "rescheduleUnfinishedOperations"; functor_execute := rescheduleUnfinishedOperations;
       functor_interval := MaintainerRetryInterval settings |};
    {| functor_name := "rescheduleOrphanMitigationOperations"; functor_execute := rescheduleOrphanMitigationOperations;
       functor_interval := MaintainerRetryInterval settings |} ].

Definition initialOperationsLockIndex : nat := 200.
(** The index of the advisory lock of each functor, by name. *)
Definition operationLockers (unbounded : nat) : gmap string nat :=
  list_to_map (zip (map functor_name (functors unbounded)) (seq initialOperationsLockIndex (length (functors unbounded)))).

(** [maintainerFunc] of [Run]: the functor runs only with its lock, which is released in
    any case. *)
Definition maintainerFunc (TryLock Unlock : nat -> M unit) (unbounded : nat) (functor : maintainerFunctor) : M unit :=
  match operationLockers unbounded !! functor_name functor with
  | None => m_panic "nil pointer dereference"
  | Some lock =>
      let! l := attempt (TryLock lock) in
      match l with
      | inr _ => m_ret tt
      | inl _ => fun w =>
          let '(w1, r) := functor_execute functor w in
          let '(w2, u) := Unlock lock w1 in
          (w2, match u with Panic m => Panic m | _ => r end)
      end
  end.

End Maintainer.
