(* ===== verification/MaintainerProps.v ===== *)
(** * Properties of the operation maintainer

    What the maintainer relies on of the repository's queries, the effect of one iteration
    of the polling of pending cascade operations, and the invariant that cascade deletion
    works from the bottom of the tree to its root. *)

From S2P Require Import Prelude GoStd Errors Query OperationTypes Cascade Repository Scheduler SchedulerProps SchedulerTheorems Maintainer.
From stdpp Require Import base gmap strings list relations.
From Stdlib Require Import ZArith.
Import Operators Criteria.
Local Open Scope string_scope.

(** ** The meaning of the criteria on the columns of operations *)
Definition state_of_string (text : string) : OperationState :=
  if decide (text = "pending") then PENDING
  else if decide (text = "succeeded") then SUCCEEDED
  else if decide (text = "in progress") then IN_PROGRESS
  else if decide (text = "failed") then FAILED
  else OtherState text.
Definition category_of_string (text : string) : OperationCategory :=
  if decide (text = "create") then CREATE
  else if decide (text = "update") then UPDATE
  else if decide (text = "delete") then DELETE
  else OtherCategory text.

(** Is the value of a column of an operation among some values? *)
Definition column_in (op : Operation) (column : string) (values : list string) : option bool :=
  if decide (column = "id") then Some (bool_decide (ID op ∈ values))
  else if decide (column = "resource_id") then Some (bool_decide (ResourceID op ∈ values))
  else if decide (column = "resource_type") then Some (bool_decide (ResourceType op ∈ values))
  else if decide (column = "type") then Some (bool_decide (Type_ op ∈ map category_of_string values))
  else if decide (column = "state") then Some (bool_decide (State op ∈ map state_of_string values))
  else if decide (column = "cascade_root_id") then Some (bool_decide (CascadeRootID op ∈ values))
  else if decide (column = "parent_id") then Some (bool_decide (ParentID op ∈ values))
  else if decide (column = "platform_id") then Some (bool_decide (PlatformID op ∈ values))
  else None.

(** Does a criterion hold of an operation?  Nothing is said of other columns, of
    sub-queries and of limits. *)
Definition criterion_holds (op : Operation) (c : Criterion) : option bool :=
  match CType c with
  | FieldQuery =>
      b ← column_in op (LeftOp c) (RightOp c);
      match COperator c with
      | EqualsOperator | InOperator | EqualsOrNilOperator => Some b
      | NotEqualsOperator | NotInOperator => Some (negb b)
      | _ => None
      end
  | ResultQuery => if String.eqb (LeftOp c) OrderBy then Some true else None
  | _ => None
  end.

Class OperationQueriesLaws `{RepositoryLaws} `{!OperationQueries} := {
  law_stored_id d id op : stored_operation d id = Some op -> ID op = id;
  law_list crit d h d' h' r :
    repo_list_operations crit (d, h) = ((d', h'), r) ->
    d' = d /\ h' = h /\ no_panic r /\
    forall ops, r = Ok ops ->
      NoDup (map ID ops) /\
      (forall op, op ∈ ops -> stored_operation d (ID op) = Some op /\
         forall c, c ∈ crit -> criterion_holds op c <> Some false) /\
      (forall id op, stored_operation d id = Some op ->
         (forall c, c ∈ crit -> criterion_holds op c = Some true) -> op ∈ ops);
  law_find crit d h d' h' r : repo_find_operation crit (d, h) = ((d', h'), r) -> d' = d /\ h' = h;
  law_last_stored d id op :
    stored_operation d id = Some op -> is_Some (last_operation d (ResourceID op) (ResourceType op));
  law_insert c op d h d' h' r :
    repo_insert_operation c op (d, h) = ((d', h'), r) ->
    heap_framed c h h' /\ no_panic r /\
    (r = Ok tt -> exists o, stored_operation d' (ID op) = Some o /\ row_of op o) /\
    (forall e, r = Err e -> d' = d);
  law_insert_frame c op d h d' h' r id :
    repo_insert_operation c op (d, h) = ((d', h'), r) -> id <> ID op ->
    stored_operation d' id = stored_operation d id;
  law_update_frame c op d h d' h' r id :
    repo_update_operation c op (d, h) = ((d', h'), r) -> id <> ID op ->
    stored_operation d' id = stored_operation d id
}.

(** ** Writing one operation *)

(** What no write of an operation changes. *)
Definition okey (o : Operation) : string * string * string * OperationCategory * string * string :=
  (ID o, ParentID o, CascadeRootID o, Type_ o, ResourceID o, ResourceType o).
Lemma later_key op op' : later op op' -> okey op' = okey op.
Proof. by intros (l & cx & _ & _ & ->). Qed.
Lemma row_key op o : row_of op o -> okey o = okey op.
Proof. by intros (lb & t & l & cx & _ & _ & ->). Qed.

Section Touches.
Context `{OperationQueriesLaws}.
Variable s : Scheduler.
Variable duration_string : Z -> string.
Variable errors_string : option errors_json -> string.

Section Key.
Variable p : op_ptr.
Variable o : Operation.

Definition in_heap (h : op_heap) : Prop := exists o', h !! p = Some o' /\ okey o' = okey o.
Definition in_db (d : DB) : Prop := exists o', stored_operation d (ID o) = Some o' /\ okey o' = okey o.
(** Both the pointer and the database have the operation. *)
Definition at_key (w : World) : Prop := in_heap (heap w) /\ in_db (db w).
(** Only the operation [o] is written, and its key stays. *)
Definition writes (d d' : DB) : Prop :=
  (forall id, id <> ID o -> stored_operation d' id = stored_operation d id) /\
  (d' = d \/ exists o', stored_operation d' (ID o) = Some o' /\ okey o' = okey o).
Definition touches {A} (m : M A) : Prop :=
  forall w w' r, at_key w -> m w = (w', r) -> at_key w' /\ writes (db w) (db w').

Lemma writes_refl d : writes d d.
Proof. split; [done|by left]. Qed.
Lemma writes_trans d1 d2 d3 : writes d1 d2 -> writes d2 d3 -> writes d1 d3.
Proof.
  intros [F1 C1] [F2 C2]. split; [intros id Hid; rewrite F2, F1; done|].
  destruct C2 as [->|?]; [done|by right].
Qed.
Lemma writes_in_db d d' : in_db d -> writes d d' -> in_db d'.
Proof. intros Hd [_ [->|(o' & ? & ?)]]; [done|by exists o']. Qed.
Lemma touches_intro {A} (m : M A) :
  (forall w w' r, at_key w -> m w = (w', r) -> in_heap (heap w') /\ writes (db w) (db w')) -> touches m.
Proof.
  intros Hm w w' r Hk E. destruct (Hm _ _ _ Hk E) as [Hh Hw]. split; [|done]. split; [done|].
  destruct Hk as [_ Hd]. by eapply writes_in_db.
Qed.
Lemma touches_bind {A B} (m : M A) (f : A -> M B) : touches m -> (forall a, touches (f a)) -> touches (m_bind m f).
Proof.
  intros Hm Hf w w' r Hk (w1 & r1 & E1 & E2)%m_bind_inv. apply Hm in E1 as [Hk1 Hw1]; [|done].
  destruct r1 as [a| |]; [|by destruct E2 as [-> _]..]. apply Hf in E2 as [Hk2 Hw2]; [|done].
  split; [done|by eapply writes_trans].
Qed.
Lemma touches_attempt {A} (m : M A) : touches m -> touches (attempt m).
Proof. intros Hm w w' r Hk (r1 & E & _)%attempt_inv. by eapply Hm. Qed.
Lemma touches_lift {A} (r : result A) : touches (lift r).
Proof. intros w w' r' Hk [= <- _]. split; [done|apply writes_refl]. Qed.
Lemma touches_ret {A} (a : A) : touches (m_ret a).
Proof. apply (touches_lift (Ok a)). Qed.
Lemma touches_fail {A} e : touches (m_fail (A:=A) e).
Proof. apply (touches_lift (Err e)). Qed.
Lemma touches_panic {A} m : touches (m_panic (A:=A) m).
Proof. apply (touches_lift (Panic m)). Qed.
Lemma touches_now : touches time_now.
Proof. intros w w' r Hk [= <- _]. split; [done|apply writes_refl]. Qed.
(** Reading the operation gives one with its key. *)
Lemma touches_deref {B} (f : Operation -> M B) :
  (forall o', okey o' = okey o -> touches (f o')) -> touches (m_bind (deref (Some p)) f).
Proof.
  intros Hf w w' r Hk (w1 & r1 & [-> Hd]%deref_inv & E2)%m_bind_inv. pose proof Hk as [(o' & Ho & Hkey) Hdb].
  destruct Hd as [(q & o2 & [= <-] & Hq & ->)|[_ [m ->]]].
  - assert (o2 = o') as -> by congruence. exact (Hf o' Hkey _ _ _ Hk E2).
  - destruct E2 as [-> _]. split; [done|apply writes_refl].
Qed.
Lemma touches_store o' : okey o' = okey o -> touches (store p o').
Proof.
  intros Ho. apply touches_intro. intros w w' r _ [= <- _]. split; [|apply writes_refl].
  exists o'. simpl. by rewrite lookup_insert_eq.
Qed.
Lemma touches_modify f : (forall o', okey (f o') = okey o') -> touches (modify (Some p) f).
Proof. intros Hf. apply touches_deref. intros o' Ho. apply touches_store. by rewrite Hf. Qed.
Lemma in_heap_framed c h h' : heap_framed c h h' -> in_heap h -> in_heap h'.
Proof.
  intros Hf (o' & Ho & Hk). destruct (Hf _ _ Ho) as (o2 & Hl & Hla & _). exists o2. split; [done|].
  by rewrite (later_key _ _ Hla).
Qed.
Lemma touches_read {A} (f : DB * op_heap -> (DB * op_heap) * result A) :
  (forall d h d' h' r, f (d, h) = ((d', h'), r) -> d' = d /\ h' = h) -> touches (repo_call f).
Proof.
  intros Hf w w' r Hk (d & h & E & ->)%repo_call_inv. apply Hf in E as [-> ->]. split; [done|apply writes_refl].
Qed.
Lemma touches_last c id t : touches (repo_call (repo_last_operations c id t)).
Proof. apply touches_read. by intros d h d' h' r (? & ? & _)%law_last. Qed.
Lemma touches_count c id : touches (repo_call (repo_count_operations c id)).
Proof. apply touches_read. by intros d h d' h' r (? & ? & _)%law_count. Qed.
Lemma touches_list crit : touches (repo_call (repo_list_operations crit)).
Proof. apply touches_read. by intros d h d' h' r (? & ? & _)%law_list. Qed.
Lemma okey_id o' : okey o' = okey o -> ID o' = ID o.
Proof. by intros [= ? _ _ _ _ _]. Qed.
Lemma touches_update c o' : okey o' = okey o -> touches (repo_call (repo_update_operation c o')).
Proof.
  intros Ho. apply touches_intro. intros w w' r [Hk _] (d & h & E & ->)%repo_call_inv. pose proof (okey_id _ Ho) as Hid.
  destruct (law_update _ _ _ _ _ _ _ E) as (Hf & Hnp & Hok & Herr & _). split; [by eapply in_heap_framed|].
  split; [intros id Hne; eapply law_update_frame; [done|congruence]|].
  destruct r as [[]|e|m]; [right|left; by eapply Herr|by destruct (Hnp m)].
  destruct (Hok eq_refl) as [(o2 & Ho2 & Hrow & _) _]. exists o2. rewrite <- Hid. split; [done|].
  by rewrite (row_key _ _ Hrow).
Qed.

Create HintDb touches.
Hint Resolve touches_ret touches_fail touches_panic touches_lift touches_now touches_last touches_count
  touches_list touches_update touches_store : touches.

Ltac touches_tac :=
  repeat first
    [ solve [auto with touches]
    | apply touches_deref; intros ? ?
    | apply touches_bind; [|intros]
    | apply touches_attempt
    | match goal with |- touches (match ?x with _ => _ end) => destruct x end
    | match goal with |- touches (repo_call (if ?b then _ else _)) => destruct b end ].

Lemma touches_update_state c st e : touches (updateOperationState c (Some p) st e).
Proof.
  unfold updateOperationState. apply touches_bind; [by apply touches_modify|intros _].
  apply touches_bind; [|intros _].
  - destruct e; [|auto with touches]. apply touches_modify. intros o'. by destruct (Errors_ o').
  - touches_tac.
Qed.
Hint Resolve touches_update_state : touches.
Lemma touches_last_operation c o' b : touches (getResourceLastOperation c o' b).
Proof. unfold getResourceLastOperation. touches_tac. Qed.
Hint Resolve touches_last_operation : touches.

(** The operation is found in the database, so it is updated and not created again. *)
Lemma touches_checked_store c o' (check : option Operation -> M unit) :
  okey o' = okey o -> (forall last, touches (check last)) -> (forall last w w' r, check last w = (w', r) -> w' = w) ->
  touches (let! (last, ex) := getResourceLastOperation c o' true in check last ;! storeOrUpdateOperation c o' ex).
Proof.
  intros Ho Hc Hcw w w' r Hk (w1 & r1 & E1 & E)%m_bind_inv.
  destruct (last_operation_spec _ _ _ _ _ _ E1) as (-> & _ & Hlast).
  destruct r1 as [[last ex]| |]; [|destruct E as [-> _]; split; [done|apply writes_refl]..].
  destruct (Hlast _ _ eq_refl) as [-> Hex]. assert (ex = true) as ->.
  { destruct Hk as [_ (o2 & Hst & Hk2)]. injection Ho as Hid _ _ _ Hr Ht. injection Hk2 as Hid2 _ _ _ Hr2 Ht2.
    apply Hex; [done| |rewrite Hid; eauto]. rewrite Hr, Ht, <- Hr2, <- Ht2. by eapply law_last_stored. }
  revert w' r Hk E. apply touches_bind; [apply Hc|intros []]. unfold storeOrUpdateOperation. touches_tac.
Qed.

Lemma touches_modify_deletion t : touches (modify (Some p) (fun op => set_DeletionScheduled op t)).
Proof. by apply touches_modify. Qed.
Hint Resolve touches_modify_deletion : touches.
Lemma touches_preconditions c : touches (executeOperationPreconditions s duration_string errors_string c p).
Proof.
  unfold executeOperationPreconditions. apply touches_deref. intros o' Ho. destruct (_ || _); [touches_tac|].
  apply touches_bind; [touches_tac|intros now].
  destruct (validateOperationDoesNotExceedTimeouts _ _ _ _ _); [|touches_tac..].
  destruct (Operation_Validate _); [|touches_tac..].
  apply (touches_checked_store c o' (fun last => match last with Some l => _ | None => _ end)); [done| |].
  - intros last. touches_tac.
  - intros [l|] w w' r; [|by intros [= <- _]].
    intros (w1 & r1 & [= <- <-] & E)%m_bind_inv. destruct (checkForConcurrentOperations _ _); [|by destruct E as [-> _]..].
    by injection E as <- _.
Qed.

Lemma touches_schedule c a : touches (ScheduleAsyncStorageAction s duration_string errors_string c p a).
Proof.
  intros w w' r Hk. unfold ScheduleAsyncStorageAction.
  case_decide; [|intros [= <- _]; split; [done|apply writes_refl]].
  destruct (executeOperationPreconditions _ _ _ c p _) as [w1 r1] eqn:E.
  apply touches_preconditions in E as [Hk1 Hw1]; [|done]. destruct r1; by intros [= <- _].
Qed.

Lemma touches_store_and_update o' : okey o' = okey o -> touches (store_and_update p o').
Proof. intros Ho. unfold store_and_update. touches_tac. Qed.
Lemma touches_sub_operations o' : touches (GetSubOperations o').
Proof. unfold GetSubOperations. touches_tac. Qed.
Lemma touches_duplicates o' : touches (handleDuplicateOperations o').
Proof. unfold handleDuplicateOperations. touches_tac. Qed.
End Key.
End Touches.

(** ** Sub-operations *)
Definition finished (op : Operation) : bool :=
  bool_decide (State op = SUCCEEDED) && negb (InOrphanMitigationState op).
Definition failed (op : Operation) : bool :=
  bool_decide (State op = FAILED) && negb (InOrphanMitigationState op).

Lemma classify_fold l c :
  AllOperationsCount (foldl classify_one c l) = AllOperationsCount c /\
  SucceededOperations (foldl classify_one c l) = (SucceededOperations c ++ List.filter finished l)%list /\
  FailedOperations (foldl classify_one c l) = (FailedOperations c ++ List.filter failed l)%list.
Proof.
  revert c. induction l as [|op l IH]; intros c; simpl; [by rewrite !app_nil_r|].
  destruct (IH (classify_one c op)) as (-> & -> & ->). unfold classify_one, finished, failed. destruct c as [n f i su o pe].
  destruct (InOrphanMitigationState op); simpl; [by rewrite !andb_false_r|].
  destruct (State op); simpl; rewrite <- ?(assoc_L (++)%list); done.
Qed.

Lemma filter_all {A} (f : A -> bool) l : length (List.filter f l) = length l <-> Forall (fun x => f x = true) l.
Proof.
  induction l as [|x l IH]; simpl; [by split; [constructor|]|]. rewrite Forall_cons, <- IH.
  pose proof (filter_length_le f l). destruct (f x); simpl; split; try lia; try naive_solver lia.
Qed.

Lemma all_succeeded_spec l : all_succeeded (classify l) = true <-> Forall (fun op => finished op = true) l.
Proof.
  unfold all_succeeded, classify. destruct (classify_fold l (Build_CascadedOperations (length l) [] [] [] [] [])) as (-> & -> & _).
  simpl. rewrite Nat.eqb_eq, <- filter_all. split; congruence.
Qed.

(** ** Bottom-up *)
Section Polling.
Context `{OperationQueriesLaws}.
Variable s : Scheduler.
Variable duration_string : Z -> string.
Variable errors_string : option errors_json -> string.

(** The deletion of the resource was begun. *)
Definition started (op : Operation) : Prop :=
  State op = IN_PROGRESS \/ State op = SUCCEEDED \/ is_Some (DeletionScheduled op).

Definition children_finished (d : DB) (id : string) : Prop :=
  forall cid c, stored_operation d cid = Some c -> ParentID c = id -> finished c = true.

(** The deletion of a resource begins only after every deletion below it has succeeded. *)
Definition bottom_up (d : DB) : Prop :=
  forall id op, stored_operation d id = Some op -> Type_ op = DELETE -> CascadeRootID op <> "" -> started op ->
    children_finished d id.

Lemma pending_unfinished op : State op = PENDING -> finished op = false.
Proof. unfold finished. by intros ->. Qed.

(** A write of one operation keeps the invariant when the operation was not finished and,
    if it is started afterwards, was started before or has only finished children. *)
Lemma bottom_up_write d d' op :
  bottom_up d -> stored_operation d (ID op) = Some op -> finished op = false -> writes op d d' ->
  (forall o', stored_operation d' (ID op) = Some o' -> started o' -> started op \/ children_finished d (ID op)) ->
  bottom_up d'.
Proof.
  intros Hb Hop Hfin [Hframe Hchg] Hst. destruct Hchg as [->|(o' & Ho' & Hkey)]; [done|].
  injection Hkey as Hid Hpar Hroot Hty _ _.
  assert (Hkids : Type_ op = DELETE -> CascadeRootID op <> "" -> started o' -> children_finished d (ID op)).
  { intros Ht Hr [Hs|?]%(Hst _ Ho'); [|done]. by eapply Hb. }
  intros id P HP Hdel Hcasc Hstarted cid C HC Hpc.
  assert (HdP : id <> ID op -> stored_operation d id = Some P) by (intros; rewrite <- Hframe; done).
  destruct (decide (cid = ID op)) as [->|Hcid].
  - (* the written operation is the child *)
    exfalso. rewrite Ho' in HC. simplify_eq. destruct (decide (ParentID C = ID op)) as [Hself|Hne].
    + rewrite Hself, Ho' in HP. simplify_eq.
      assert (finished op = true); [|congruence]. eapply Hkids; [congruence..|done|done|congruence].
    + assert (finished op = true); [|congruence]. eapply (Hb _ P); [by apply HdP|done..|exact Hop|congruence].
  - rewrite Hframe in HC by done. destruct (decide (id = ID op)) as [->|Hid'].
    + rewrite Ho' in HP. simplify_eq. eapply Hkids; [congruence..|done|exact HC|done].
    + eapply Hb; [by apply HdP|done..].
Qed.

Lemma alloc_at op w w1 r :
  stored_operation (db w) (ID op) = Some op ->
  alloc op w = (w1, r) -> exists p, r = Ok p /\ at_key p op w1 /\ heap w1 !! p = Some op /\ db w1 = db w.
Proof.
  unfold alloc. intros Hst [= <- <-]. eexists. split; [done|]. simpl. split; [|by rewrite lookup_insert_eq].
  split; exists op; simpl; [by rewrite lookup_insert_eq|done].
Qed.

Lemma sub_operations_spec op w w' r :
  GetSubOperations op w = (w', r) ->
  w' = w /\ no_panic r /\ forall sub, r = Ok sub -> all_succeeded sub = true -> children_finished (db w) (ID op).
Proof.
  unfold GetSubOperations. intros (w1 & r1 & (d & h & E & ->)%repo_call_inv & E2)%m_bind_inv.
  apply law_list in E as (-> & -> & Hnp & Hl). rewrite set_db_id in *.
  destruct r1 as [ops|e|m]; [|by destruct E2 as [-> ->]|by destruct (Hnp m)].
  unfold m_ret in E2. simplify_eq. split; [done|]. split; [done|]. intros sub [= <-].
  rewrite all_succeeded_spec, Forall_forall. intros Hall cid c Hc Hp. apply Hall.
  destruct (Hl ops eq_refl) as (_ & _ & Hcomplete). apply (Hcomplete cid); [done|].
  intros crit ->%list_elem_of_singleton. unfold criterion_holds. simpl.
  rewrite bool_decide_true; [done|]. by apply list_elem_of_singleton.
Qed.

Lemma duplicates_spec op w w' r : handleDuplicateOperations op w = (w', r) -> w' = w /\ no_panic r.
Proof.
  unfold handleDuplicateOperations. intros (w1 & r1 & (d & h & E & ->)%repo_call_inv & E2)%m_bind_inv.
  apply law_list in E as (-> & -> & Hnp & _). rewrite set_db_id in *.
  destruct r1 as [ops|e|m]; [|by destruct E2 as [-> ->]|by destruct (Hnp m)].
  repeat (case_match; simplify_eq; try (unfold m_ret in E2; simplify_eq; done)).
Qed.

Lemma store_and_update_spec p op w w' r :
  store_and_update p op w = (w', r) -> r = Ok tt /\ (db w' = db w \/ exists o, stored_operation (db w') (ID op) = Some o /\ row_of op o).
Proof.
  unfold store_and_update. intros (w1 & r1 & E1 & E)%m_bind_inv. unfold store in E1. simplify_eq.
  apply m_bind_inv in E as (w2 & r2 & (r3 & E3 & ->)%attempt_inv & E).
  apply repo_call_inv in E3 as (d & h & E3 & ->). destruct (law_update _ _ _ _ _ _ _ E3) as (_ & Hnp & Hok & Herr & _).
  destruct r3 as [[]|e|m]; [| |by destruct (Hnp m)]; unfold m_ret in E; simplify_eq; (split; [done|]); simpl.
  - right. destruct (Hok eq_refl) as [(o & ? & ? & _) _]. by exists o.
  - left. by eapply Herr.
Qed.

Lemma schedule_no_panic c p a w w' r :
  p ∈ dom (heap w) -> ScheduleAsyncStorageAction s duration_string errors_string c p a w = (w', r) -> no_panic r.
Proof.
  intros Hp. unfold ScheduleAsyncStorageAction. case_decide; [|by intros [= _ <-]].
  destruct (executeOperationPreconditions _ _ _ c p _) as [w1 r1] eqn:E.
  assert (Hnp : no_panic r1) by (eapply (safe_preconditions s duration_string errors_string p c); [|exact E]; exact Hp).
  destruct r1 as [|e|m]; [by intros [= _ <-]..|by destruct (Hnp m)].
Qed.

(** The outcome of one iteration. *)
Definition polled (op : Operation) (d d' : DB) : Prop :=
  writes op d d' /\
  forall o', stored_operation d' (ID op) = Some o' -> started o' -> started op \/ children_finished d (ID op).

Lemma polled_nothing op d : stored_operation d (ID op) = Some op -> polled op d d.
Proof. intros Hop. split; [apply writes_refl|]. intros o' Ho'. rewrite Hop in Ho'. simplify_eq. by left. Qed.
Lemma polled_ready op d d' : children_finished d (ID op) -> writes op d d' -> polled op d d'.
Proof. intros Hk Hw. split; [done|]. by right. Qed.

Lemma poll_ready_spec (skipped : gset string) p op w w' r :
  at_key p op w -> children_finished (db w) (ID op) ->
  (let! d := attempt (handleDuplicateOperations op) in
   match d with
   | inr _ => m_ret skipped
   | inl (_, true) => m_ret ({[ResourceID op]} ∪ skipped)
   | inl (Some st, false) => store_and_update p (set_State op st) ;! m_ret skipped
   | inl (None, false) =>
       store p (set_State op IN_PROGRESS) ;!
       let! a := attempt (ScheduleAsyncStorageAction s duration_string errors_string None p (DeletionAction p)) in
       m_ret (match a with inl _ => {[ResourceID op]} ∪ skipped | inr _ => skipped end)
   end) w = (w', r) ->
  writes op (db w) (db w') /\ exists sk, r = Ok sk.
Proof.
  intros Hk Hc (w1 & r1 & (r2 & [-> Hnp]%duplicates_spec & ->)%attempt_inv & E)%m_bind_inv.
  destruct r2 as [[st skip]|e|m]; [| |by destruct (Hnp m)].
  2:{ unfold m_ret in E. simplify_eq. split; [apply writes_refl|by eauto]. }
  destruct skip; [destruct st; unfold m_ret in E; simplify_eq; (split; [apply writes_refl|by eauto])|].
  destruct st as [st|].
  - apply m_bind_inv in E as (w1 & r1 & E1 & E). pose proof (store_and_update_spec _ _ _ _ _ E1) as [-> _].
    unfold m_ret in E. simplify_eq. split; [|by eauto].
    eapply (touches_store_and_update p op) in E1 as [_ Hw]; [exact Hw|done|exact Hk].
  - apply m_bind_inv in E as (w1 & r1 & E1 & E). pose proof E1 as E1'. unfold store in E1'.
    eapply (touches_store p op) in E1 as [Hk1 Hw1]; [|done|exact Hk].
    assert (r1 = Ok tt) as -> by congruence.
    apply m_bind_inv in E as (w2 & r2 & (r3 & E3 & ->)%attempt_inv & E).
    assert (Hlive : p ∈ dom (heap w1)) by (destruct Hk1 as [(o' & Ho' & _) _]; apply elem_of_dom; eauto).
    pose proof (schedule_no_panic _ _ _ _ _ _ Hlive E3) as Hnp'.
    eapply touches_schedule in E3 as [_ Hw2]; [|exact Hk1].
    destruct r3 as [[]|e|m]; [| |by destruct (Hnp' m)]; unfold m_ret in E; simplify_eq;
      (split; [eapply writes_trans; [exact Hw1|exact Hw2]|by eauto]).
Qed.

Lemma poll_operation_spec skipped op w w' r :
  stored_operation (db w) (ID op) = Some op -> State op = PENDING ->
  poll_operation s duration_string errors_string skipped op w = (w', r) ->
  polled op (db w) (db w') /\ exists sk, r = Ok sk.
Proof.
  intros Hop Hpend. unfold poll_operation. case_bool_decide.
  { intros [= <- <-]. split; [by apply polled_nothing|by eauto]. }
  intros (w1 & r1 & (p & -> & Hk & _ & Hd)%(alloc_at _ _ _ _ Hop) & E)%m_bind_inv.
  apply m_bind_inv in E as (w2 & r2 & (r3 & (-> & Hnp & Hsub)%sub_operations_spec & ->)%attempt_inv & E).
  rewrite Hd in Hsub. destruct r3 as [sub|e|m]; [| |by destruct (Hnp m)].
  2:{ unfold m_ret in E. simplify_eq. rewrite Hd. split; [by apply polled_nothing|by eauto]. }
  specialize (Hsub sub eq_refl). destruct (all_succeeded sub).
  - specialize (Hsub eq_refl). destruct (IsVirtualType _).
    + apply m_bind_inv in E as (w3 & r3 & E3 & E). pose proof (store_and_update_spec _ _ _ _ _ E3) as [-> _].
      unfold m_ret in E. simplify_eq. split; [|by eauto]. apply polled_ready; [done|]. rewrite <- Hd.
      eapply (touches_store_and_update p op) in E3 as [_ Hw]; [exact Hw|done|exact Hk].
    + apply poll_ready_spec in E as [Hw Hr]; [|done|by rewrite Hd]. rewrite Hd in Hw. split; [by apply polled_ready|done].
  - destruct (some_failed sub).
    + apply m_bind_inv in E as (w3 & r3 & E3 & E). pose proof (store_and_update_spec _ _ _ _ _ E3) as [-> Hst].
      unfold m_ret in E. simplify_eq. split; [|by eauto].
      eapply (touches_store_and_update p op) in E3 as [_ Hw]; [|done|exact Hk]. rewrite Hd in Hw, Hst. split; [done|].
      intros o' Ho'. simpl in Hst. destruct Hst as [Hst|Hst].
      * rewrite Hst, Hop in Ho'. simplify_eq. by left.
      * destruct Hst as (o2 & Hst & (lb & t & l & cx & _ & _ & ->)). rewrite Hst in Ho'. simplify_eq.
        intros [?|[?|?]]; [done..|]. left. right. by right.
    + unfold m_ret in E. simplify_eq. rewrite Hd. split; [by apply polled_nothing|by eauto].
Qed.

Lemma poll_operations_spec ops : forall skipped w w' r,
  NoDup (map ID ops) -> Forall (fun op => stored_operation (db w) (ID op) = Some op /\ State op = PENDING) ops ->
  poll_operations s duration_string errors_string skipped ops w = (w', r) ->
  r = Ok tt /\
  (bottom_up (db w) -> bottom_up (db w')) /\
  (forall id, id ∉ map ID ops -> stored_operation (db w') id = stored_operation (db w) id).
Proof.
  induction ops as [|op ops IH]; intros skipped w w' r; simpl.
  { intros _ _. unfold m_ret. intros [= <- <-]. done. }
  rewrite NoDup_cons, Forall_cons. intros [Hn Hnd] [[Hop Hp] Hall] (w1 & r1 & E1 & E)%m_bind_inv.
  apply poll_operation_spec in E1 as [[[Hframe Hchg] Hst] [sk ->]]; [|done..].
  apply IH in E as (-> & Hb & Hf); [|done|].
  2:{ rewrite Forall_forall in Hall |- *. intros x Hx. destruct (Hall x Hx) as [Hsx ?]. split; [|done].
      rewrite Hframe; [done|]. intros Heq. apply Hn. rewrite <- Heq. apply list_elem_of_fmap. by exists x. }
  split; [done|]. split.
  - intros Hb0. apply Hb. eapply (bottom_up_write _ _ op); try done. by apply pending_unfinished.
  - intros id Hid. rewrite Hf by set_solver. apply Hframe. set_solver.
Qed.

End Polling.
