(* ===== verification/MaintainerTheorems.v ===== *)
(** * The guarantees of the maintainer

    Cascade deletion runs from the leaves to the root; polling touches nothing but pending
    cascade deletions; a clean-up removes everything it is for; and a rescheduled operation
    whose resource cannot be read ends as failed. *)

From S2P Require Import Prelude GoStd Errors Query OperationTypes Cascade Repository Scheduler SchedulerProps SchedulerTheorems Maintainer MaintainerProps.
From stdpp Require Import base gmap strings list relations.
From Stdlib Require Import ZArith.
Import Operators Criteria.
Local Open Scope string_scope.

(** ** Cascade deletion as a transition system *)
Section Cascade.
Context `{OperationQueriesLaws}.
Variable s : Scheduler.
Variable duration_string : Z -> string.
Variable errors_string : option errors_json -> string.

(** The steps of the system that write operations: the maintainer polls; the job of an
    operation whose deletion was begun and is not finished stores that operation, in any
    state; a pending operation is created below an operation that was not begun. *)
Inductive cascade_step : DB -> DB -> Prop :=
  | step_poll w w' r :
      pollPendingCascadeOperations s duration_string errors_string w = (w', r) -> cascade_step (db w) (db w')
  | step_job d d' op :
      stored_operation d (ID op) = Some op -> started op -> finished op = false -> writes op d d' -> cascade_step d d'
  | step_create c op d h d' h' r :
      stored_operation d (ID op) = None -> State op = PENDING -> DeletionScheduled op = None ->
      (forall parent, stored_operation d (ParentID op) = Some parent -> ~ started parent) ->
      repo_insert_operation c op (d, h) = ((d', h'), r) -> cascade_step d d'.

Lemma pending_listed w w' r :
  repo_call (repo_list_operations pending_criteria) w = (w', r) ->
  w' = w /\ no_panic r /\ forall ops, r = Ok ops ->
    NoDup (map ID ops) /\
    Forall (fun op => stored_operation (db w) (ID op) = Some op /\ State op = PENDING) ops /\
    Forall (fun op => Type_ op = DELETE) ops /\
    Forall (fun op => CascadeRootID op <> "") ops.
Proof.
  intros (d & h & E & ->)%repo_call_inv. apply law_list in E as (-> & -> & Hnp & Hl). rewrite set_db_id.
  split; [done|]. split; [done|]. intros ops ->. destruct (Hl ops eq_refl) as (Hnd & Hin & _). split; [done|].
  rewrite !Forall_forall. split_and!; intros op Hop; destruct (Hin op Hop) as [Hst Hc].
  - split; [done|]. assert (Hstate := Hc (ByField EqualsOperator "state" [state_string PENDING]) ltac:(set_solver)).
    unfold criterion_holds in Hstate. simpl in Hstate. case_bool_decide as Hb; [|done].
    by apply list_elem_of_singleton in Hb.
  - assert (Hty := Hc (ByField EqualsOperator "type" [category_string DELETE]) ltac:(set_solver)).
    unfold criterion_holds in Hty. simpl in Hty. case_bool_decide as Hb; [|done].
    by apply list_elem_of_singleton in Hb.
  - assert (Hr := Hc (ByField NotEqualsOperator "cascade_root_id" [""]) ltac:(set_solver)).
    unfold criterion_holds in Hr. simpl in Hr. intros E. rewrite E in Hr. by rewrite bool_decide_true in Hr by set_solver.
Qed.

Lemma poll_spec w w' r :
  pollPendingCascadeOperations s duration_string errors_string w = (w', r) ->
  r = Ok tt /\ (bottom_up (db w) -> bottom_up (db w')) /\
  forall id op, stored_operation (db w) id = Some op -> State op <> PENDING \/ CascadeRootID op = "" ->
    stored_operation (db w') id = Some op.
Proof.
  unfold pollPendingCascadeOperations.
  intros (w1 & r1 & (r2 & (-> & Hnp & Hl)%pending_listed & ->)%attempt_inv & E)%m_bind_inv.
  destruct r2 as [ops|e|m]; [| |by destruct (Hnp m)].
  - destruct (Hl ops eq_refl) as (Hnd & Hall & _ & Hroot). apply poll_operations_spec in E as (-> & Hb & Hf); [|done..].
    split; [done|]. split; [done|]. intros id op Hop Hother. rewrite Hf; [done|].
    intros (o & -> & Ho)%list_elem_of_fmap. rewrite Forall_forall in Hall, Hroot.
    destruct (Hall o Ho) as [Hst Hp]. specialize (Hroot o Ho). rewrite Hst in Hop. simplify_eq.
    by destruct Hother.
  - unfold m_ret in E. by simplify_eq.
Qed.

Lemma create_bottom_up c op d h d' h' r :
  bottom_up d -> stored_operation d (ID op) = None -> State op = PENDING -> DeletionScheduled op = None ->
  (forall parent, stored_operation d (ParentID op) = Some parent -> ~ started parent) ->
  repo_insert_operation c op (d, h) = ((d', h'), r) -> bottom_up d'.
Proof.
  intros Hb Hnew Hp Hd Hpar E. assert (Hframe : forall i, i <> ID op -> stored_operation d' i = stored_operation d i) by (intros i; by eapply law_insert_frame).
  destruct (law_insert _ _ _ _ _ _ _ E) as (_ & Hnp & Hok & Herr).
  destruct r as [[]|e|m]; [|by rewrite (Herr e eq_refl)|by destruct (Hnp m)]. destruct (Hok eq_refl) as (o & Ho & lb & t & l & cx & _ & _ & Heq).
  assert (Hns : ~ started o) by (rewrite Heq; unfold started; simpl; rewrite Hp, Hd; intros [?|[?|[? ?]]]; done).
  intros id P HP Ht Hr Hs cid C HC Hpc.
  destruct (decide (id = ID op)) as [->|Hid]; [exfalso; apply Hns; congruence|]. rewrite Hframe in HP by done.
  destruct (decide (cid = ID op)) as [->|Hcid].
  - assert (C = o) as -> by congruence. assert (Hpo : ParentID o = ParentID op) by (by rewrite Heq). rewrite <- Hpc, Hpo in HP. by destruct (Hpar P HP).
  - rewrite Hframe in HC by done. exact (Hb id P HP Ht Hr Hs cid C HC Hpc).
Qed.

(** C6: Cascade deletion works bottom-up.  In every state reachable by polling, by jobs storing their operations and by the
    creation of pending operations below operations that were not begun, the deletion of a resource was begun (its operation is
    in progress, succeeded or in orphan mitigation) only if every operation directly below it has succeeded. *)
Theorem cascade_deletes_bottom_up d d' : bottom_up d -> rtc cascade_step d d' -> bottom_up d'.
Proof.
  intros Hb Hs. induction Hs as [|d1 d2 d3 Hstep _ IH]; [done|]. apply IH. clear IH.
  destruct Hstep as [w w' r E|d1 d2 op Hop Hst Hfin Hw|c op d1 h d2 h2 r Hnew Hp Hd Hpar E].
  - by apply poll_spec in E as (_ & Hpres & _); apply Hpres.
  - eapply (bottom_up_write _ _ op); try done. by left.
  - by eapply create_bottom_up.
Qed.

(** Polling always runs to its end, whatever the repository answers, and leaves every operation alone that is not a pending
    operation of a cascade. *)
Theorem polling_touches_pending_only w w' r id op :
  pollPendingCascadeOperations s duration_string errors_string w = (w', r) ->
  stored_operation (db w) id = Some op -> State op <> PENDING \/ CascadeRootID op = "" ->
  r = Ok tt /\ stored_operation (db w') id = Some op.
Proof. intros (-> & _ & Hf)%poll_spec Hop Hother. split; [done|by apply Hf]. Qed.

(** Rescheduling an unfinished creation or update whose resource cannot be read schedules a nil action: the loop goes on after
    the failed read, and the job it starts panics. *)
Theorem reschedule_without_resource_panics caller_action p op w e :
  Type_ op = CREATE \/ Type_ op = UPDATE ->
  snd (repo_get None (ResourceType op) (ResourceID op) (db w, heap w)) = Err e ->
  exists w', rescheduled_action p op w = (w', Ok NilAction) /\ db w' = db w /\
    forall c w1, run_action caller_action NilAction c w1 = (w1, Panic "nil pointer dereference").
Proof.
  intros Ht Hget. unfold rescheduled_action.
  assert (E : forall k : resource -> storageAction,
    (let! r := attempt (repo_call (repo_get None (ResourceType op) (ResourceID op))) in
     m_ret match r with inl object => k object | inr _ => NilAction end) w = (w, Ok NilAction)).
  { intros k. unfold m_bind, attempt, repo_call. destruct (repo_get _ _ _ _) as [[d h] r] eqn:E. simpl in Hget. subst r.
    apply law_get in E as (-> & -> & _). by rewrite set_db_id. }
  exists w. destruct Ht as [-> | ->]; rewrite E; done.
Qed.
End Cascade.

(** ** Clean-ups *)

(** What deleting in batches relies on, for some criteria and a batch size: the operations that match them
    are counted and listed up to a limit, and deleting some of them by id leaves the others
    matching. *)
Class BatchQueries `{OperationQueries} (criteria : list Criterion) (limit : Z) := {
  matching : DB -> list Operation;
  law_matching_ids d : NoDup (map ID (matching d));
  law_count_all d h : repo_count_matching criteria (d, h) = ((d, h), Ok (Z.of_nat (length (matching d))));
  law_list_limited d h : (0 < limit)%Z ->
    repo_list_operations (criteria ++ [LimitResultBy limit])%list (d, h) = ((d, h), Ok (take (Z.to_nat limit) (matching d)));
  law_delete_ids d h ids d' h' r :
    repo_delete_operations [ByField InOperator "id" ids] (d, h) = ((d', h'), r) ->
    (forall id, id ∈ ids -> id ∈ map ID (matching d)) -> ids <> [] ->
    r = Ok tt /\ matching d' = base.filter (fun op => ID op ∉ ids) (matching d)
}.

Section Batches.
Context `{BatchQueries}.

Lemma filter_behind (l1 l2 : list Operation) :
  NoDup (map ID (l1 ++ l2)) -> base.filter (fun op => ID op ∉ map ID l1) (l1 ++ l2)%list = l2.
Proof.
  rewrite map_app, NoDup_app. intros (_ & Hd & _). rewrite filter_app.
  assert (forall l, (forall x, x ∈ l -> ID x ∈ map ID l1) -> base.filter (fun op => ID op ∉ map ID l1) l = []) as ->.
  { intros l Hl. destruct (base.filter _ l) as [|x m] eqn:E; [done|]. exfalso.
    assert (x ∈ base.filter (fun op => ID op ∉ map ID l1) l) as Hx by (rewrite E; left).
    apply list_elem_of_filter in Hx as [Hn Hx]. by apply Hn, Hl. }
  2:{ intros x Hx. apply list_elem_of_fmap. by exists x. }
  simpl. clear - Hd. induction l2 as [|x l2 IH]; [done|]. rewrite filter_cons_True.
  - f_equal. apply IH. intros i Hi Hi2. apply (Hd i Hi). by right.
  - intros Hin. apply (Hd (ID x) Hin). by left.
Qed.
Lemma filter_rest (l : list Operation) n :
  NoDup (map ID l) -> base.filter (fun op => ID op ∉ map ID (take n l)) l = drop n l.
Proof. intros Hnd. pose proof (filter_behind (take n l) (drop n l)) as Hf. rewrite take_drop in Hf. auto. Qed.

Lemma delete_batches_spec k : forall w w' r,
  (0 < limit)%Z -> (Z.of_nat (length (matching (db w))) <= Z.of_nat k * limit)%Z ->
  delete_batches k (criteria ++ [LimitResultBy limit])%list w = (w', r) ->
  r = Ok tt /\ matching (db w') = [].
Proof.
  induction k as [|k IH]; intros w w' r Hlim Hlen; simpl.
  { unfold m_ret. intros [= <- <-]. split; [done|]. apply nil_length_inv. lia. }
  intros (w1 & r1 & (r2 & (d & h & E & ->)%repo_call_inv & ->)%attempt_inv & E2)%m_bind_inv.
  rewrite law_list_limited in E by done. simplify_eq. rewrite set_db_id in E2.
  destruct (take (Z.to_nat limit) (matching (db w))) as [|op ops] eqn:Eops.
  { unfold m_ret in E2. simplify_eq. split; [done|]. apply nil_length_inv. apply (f_equal length) in Eops.
    rewrite length_take in Eops. simpl in Eops. lia. }
  apply m_bind_inv in E2 as (w3 & r3 & (r4 & (d4 & h4 & E4 & ->)%repo_call_inv & ->)%attempt_inv & E2).
  rewrite <- Eops in E4. apply law_delete_ids in E4 as [-> Hrest].
  - eapply IH; [done| |exact E2]. simpl. rewrite Hrest, filter_rest by apply law_matching_ids. rewrite length_drop. lia.
  - intros id (x & -> & Hx)%list_elem_of_fmap. apply list_elem_of_fmap. exists x. split; [done|].
    rewrite <- (take_drop (Z.to_nat limit)). apply elem_of_app. by left.
  - rewrite Eops. done.
Qed.

(** Deleting in batches deletes everything: with a positive batch size the loop runs often enough, and afterwards no operation
    matches the criteria of the clean-up. *)
Theorem batch_deletion_complete unbounded w w' r :
  (0 < limit)%Z -> batchDeleteOperation unbounded criteria limit w = (w', r) ->
  r = Ok tt /\ matching (db w') = [].
Proof.
  intros Hlim. unfold batchDeleteOperation.
  intros (w1 & r1 & (r2 & (d & h & E & ->)%repo_call_inv & ->)%attempt_inv & E2)%m_bind_inv.
  rewrite law_count_all in E. simplify_eq. rewrite set_db_id in E2. eapply delete_batches_spec; [done| |exact E2].
  unfold batches. destruct (Z.eqb_spec limit 0); [lia|]. set (m := Z.of_nat (length (matching (db w)))).
  pose proof (Z.div_mod (- m) limit ltac:(lia)). pose proof (Z.mod_pos_bound (- m) limit Hlim).
  assert (0 <= m)%Z by lia. assert (0 <= - (- m / limit))%Z by nia. rewrite Z2Nat.id by done. nia.
Qed.
End Batches.

(** ** The maintainer over the in-memory repository

    The queries of the maintainer evaluated on the operations in memory (every operation
    counts as old), their laws, and the theorems of the maintainer on concrete worlds. *)
(** ** Queries *)

(** The first operation with each id: the ones that are stored. *)
Fixpoint firsts (l : list Operation) : list Operation :=
  match l with
  | [] => []
  | op :: rest => op :: List.filter (fun o => negb (String.eqb (ID o) (ID op))) (firsts rest)
  end.
Definition is_newest (l : list Operation) (op : Operation) : bool :=
  match newest l (ResourceID op) (ResourceType op) with
  | Some o => String.eqb (ID o) (ID op)
  | None => false
  end.
Definition mem_criterion (l : list Operation) (op : Operation) (c : Criterion) : bool :=
  match criterion_holds op c with
  | Some b => b
  | None => if decide (c = not_last) then negb (is_newest l op) else true
  end.
Definition mem_select (crit : list Criterion) (l : list Operation) : list Operation :=
  List.filter (fun op => forallb (mem_criterion l op) crit) l.
Fixpoint mem_limit (crit : list Criterion) (l : list Operation) : list Operation :=
  match crit with
  | [] => l
  | c :: rest =>
      match RightOp c with
      | [n] => if String.eqb (LeftOp c) Limit then take (Z.to_nat (default 0%Z (Strconv.atoi n))) l else mem_limit rest l
      | _ => mem_limit rest l
      end
  end.
Definition mem_list (crit : list Criterion) (d : memory_db) : list Operation :=
  mem_limit crit (mem_select crit (firsts (mem_operations d))).

#[export] Instance memory_queries : OperationQueries := {
  repo_list_operations := fun crit '(d, h) => ((d, h), Ok (mem_list crit d));
  repo_count_matching := fun crit '(d, h) =>
    ((d, h), Ok (Z.of_nat (length (mem_select crit (firsts (mem_operations d))))));
  repo_find_operation := fun crit '(d, h) =>
    ((d, h), match mem_list crit d with op :: _ => Ok op | [] => Err ENotFoundInStorage end);
  repo_delete_operations := fun crit '(d, h) =>
    ((with_operations d (List.filter (fun op => negb (forallb (mem_criterion (firsts (mem_operations d)) op) crit))
        (mem_operations d)), h), Ok tt);
  repo_insert_operation := repo_create_operation;
  entity_tables := ["operations"; "service_instances"]
}.

(** ** Their laws *)
Lemma filter_ids_nodup f (l : list Operation) : NoDup (map ID l) -> NoDup (map ID (List.filter f l)).
Proof.
  induction l as [|x l IH]; simpl; [done|]. intros [Hx Hl]%NoDup_cons. destruct (f x); simpl; [|auto].
  apply NoDup_cons. split; [|auto]. intros (y & Hy & Hin)%list_elem_of_fmap. apply Hx. rewrite Hy.
  apply list_elem_of_fmap. exists y. split; [done|]. apply list_elem_of_In in Hin. by apply filter_In, proj1, list_elem_of_In in Hin.
Qed.
Lemma elem_of_bfilter {A} f (l : list A) x : x ∈ List.filter f l <-> x ∈ l /\ f x = true.
Proof. by rewrite !list_elem_of_In, filter_In. Qed.
Lemma firsts_nodup l : NoDup (map ID (firsts l)).
Proof.
  induction l as [|x l IH]; simpl; [constructor|]. apply NoDup_cons. split; [|by apply filter_ids_nodup].
  intros (y & Hy & [_ Hn]%elem_of_bfilter)%list_elem_of_fmap. by rewrite Hy, String.eqb_refl in Hn.
Qed.
Lemma firsts_stored l op : op ∈ firsts l <-> find_operation l (ID op) = Some op.
Proof.
  induction l as [|x l IH]; simpl; [split; [set_solver|done]|]. rewrite elem_of_cons, elem_of_bfilter, IH.
  rewrite negb_true_iff, String.eqb_neq. destruct (String.eqb_spec (ID x) (ID op)) as [E|E]; [|naive_solver].
  split; [|by intros [= ->]; left]. by intros [->|[_ Hn]].
Qed.
Lemma find_elem l id op : find_operation l id = Some op -> op ∈ l.
Proof. induction l as [|x l IH]; simpl; [done|]. destruct (String.eqb _ _); [intros [= <-]; left|right; auto]. Qed.
Lemma find_app_ne l op id : id <> ID op -> find_operation (l ++ [op]) id = find_operation l id.
Proof.
  intros Hid. induction l as [|x l IH]; simpl; [|by destruct (String.eqb _ _)].
  by destruct (String.eqb_spec (ID op) id).
Qed.
Lemma find_replace_ne l op id : id <> ID op -> find_operation (replace_operation l op) id = find_operation l id.
Proof.
  intros Hid. induction l as [|x l IH]; simpl; [done|]. rewrite IH.
  destruct (String.eqb_spec (ID x) (ID op)) as [E|E]; [|done].
  destruct (String.eqb_spec (ID op) id), (String.eqb_spec (ID x) id); congruence.
Qed.
Lemma mem_limit_prefix crit l : exists n, mem_limit crit l = take n l.
Proof.
  induction crit as [|c crit IH]; simpl; [exists (length l); by rewrite firstn_all|].
  destruct (RightOp c) as [|x [|]]; [done| |done]. destruct (String.eqb _ _); [by eexists|done].
Qed.
Lemma mem_limit_none crit l op :
  (forall c, c ∈ crit -> criterion_holds op c = Some true) -> mem_limit crit l = l.
Proof.
  induction crit as [|c crit IH]; simpl; [done|]. intros Hc.
  assert (mem_limit crit l = l) as -> by (apply IH; intros; apply Hc; by right).
  specialize (Hc c ltac:(left)). unfold criterion_holds in Hc.
  destruct (RightOp c) as [|x [|]]; [done| |done].
  destruct (String.eqb_spec (LeftOp c) Limit) as [E|]; [|done]. rewrite E in Hc. by destruct (CType c).
Qed.

#[export] Program Instance memory_queries_laws : OperationQueriesLaws.
Next Obligation. intros d id op. apply find_id. Qed.
Next Obligation.
  intros crit d h d' h' r [= <- <- <-]. split_and!; [done..|]. intros ops [= <-].
  unfold mem_list. set (F := firsts (mem_operations d)).
  assert (Hsel : NoDup (map ID (mem_select crit F))) by (apply filter_ids_nodup, firsts_nodup).
  destruct (mem_limit_prefix crit (mem_select crit F)) as [n Hn]. split_and!.
  - rewrite Hn. rewrite <- (take_drop n (mem_select crit F)), map_app in Hsel. by apply NoDup_app in Hsel as (? & _).
  - intros op. rewrite Hn. intros Hop.
    assert (op ∈ mem_select crit F) as [Hin Hall]%elem_of_bfilter
      by (rewrite <- (take_drop n (mem_select crit F)); apply elem_of_app; by left).
    split; [by apply firsts_stored|]. intros c Hc%list_elem_of_In Hf. rewrite forallb_forall in Hall.
    specialize (Hall c Hc). unfold mem_criterion in Hall. by rewrite Hf in Hall.
  - intros id op Hop Hc. rewrite (mem_limit_none _ _ op Hc). apply elem_of_bfilter. split.
    + apply firsts_stored. simpl in Hop. by rewrite (find_id _ _ _ Hop).
    + apply forallb_forall. intros c Hin%list_elem_of_In. unfold mem_criterion. by rewrite Hc.
Qed.
Next Obligation. by intros crit d h d' h' r [= <- <- _]. Qed.
Next Obligation.
  intros d id op Hop%find_elem. simpl. unfold newest. apply last_is_Some. intros Hn.
  assert (op ∈ List.filter (of_resource (ResourceID op) (ResourceType op)) (mem_operations d)) as Hin.
  { apply elem_of_bfilter. split; [done|]. unfold of_resource. by rewrite !String.eqb_refl. }
  rewrite Hn in Hin. inversion Hin.
Qed.
Next Obligation.
  intros c op d h d' h' r. simpl. destruct (find_operation _ _) eqn:E; intros [= <- <- <-]; (split_and!; [apply same_frame|done..]) || split_and!; try done.
  - apply same_frame.
  - intros _. exists op. split; [by apply find_app|apply row_refl].
Qed.
Next Obligation.
  intros c op d h d' h' r id. simpl. destruct (find_operation _ _); intros [= <- _ _] Hid; [done|]. by apply find_app_ne.
Qed.
Next Obligation.
  intros c op d h d' h' r id. simpl. destruct (find_operation _ _); intros [= <- _ _] Hid; [|done].
  apply find_replace_ne. unfold sanitized. by destruct (ended _).
Qed.

(** ** Clean-ups *)
Definition external : list Criterion :=
  [ByField NotEqualsOperator "platform_id" [SMPlatform]; not_updated_for 1000 10; not_last].
Definition outside (ids : list string) (op : Operation) : bool := negb (bool_decide (ID op ∈ ids)).

Lemma bfilter_comm {A} (f g : A -> bool) l : List.filter f (List.filter g l) = List.filter g (List.filter f l).
Proof.
  induction l as [|x l IH]; simpl; [done|]. destruct (f x) eqn:Ef, (g x) eqn:Eg; simpl; rewrite ?Ef, ?Eg; simpl; congruence.
Qed.
Lemma firsts_outside ids l : firsts (List.filter (outside ids) l) = List.filter (outside ids) (firsts l).
Proof.
  induction l as [|x l IH]; simpl; [done|]. rewrite bfilter_comm. destruct (outside ids x) eqn:E; simpl; rewrite IH; [done|].
  set (F := List.filter (outside ids) (firsts l)). assert (Hall : forall y, y ∈ F -> outside ids y = true)
    by (by intros y [_ ?]%elem_of_bfilter). clearbody F. clear IH.
  induction F as [|y F IHF]; simpl; [done|]. destruct (String.eqb_spec (ID y) (ID x)) as [Exy|]; simpl.
  - exfalso. specialize (Hall y ltac:(left)). unfold outside in Hall, E. rewrite Exy in Hall. congruence.
  - f_equal. apply IHF. intros; apply Hall; by right.
Qed.
Lemma last_bfilter {A} (f : A -> bool) l x : last l = Some x -> f x = true -> last (List.filter f l) = Some x.
Proof. intros (l' & ->)%last_Some Hx. rewrite List.filter_app. simpl. rewrite Hx. apply last_snoc. Qed.
Lemma newest_outside ids F r t :
  (forall o, newest F r t = Some o -> outside ids o = true) ->
  newest (List.filter (outside ids) F) r t = newest F r t.
Proof.
  unfold newest. intros Ho. rewrite bfilter_comm.
  destruct (last (List.filter (of_resource r t) F)) as [o|] eqn:E; [by apply last_bfilter; auto|].
  apply last_None in E. by rewrite E.
Qed.

(** The newest operation of a resource does not match the criteria. *)
Lemma newest_unmatched F r t o :
  NoDup (map ID F) -> newest F r t = Some o -> ID o ∉ map ID (mem_select external F).
Proof.
  intros Hnd Ho (op & Hid & [Hin Hall]%elem_of_bfilter)%list_elem_of_fmap.
  assert (o ∈ List.filter (of_resource r t) F) as [HoF Hres]%elem_of_bfilter.
  { unfold newest in Ho. apply last_Some in Ho as [l ->]. apply elem_of_app. right. by left. }
  assert (op = o) as ->.
  { apply list_elem_of_lookup in Hin as [i Hi]. apply list_elem_of_lookup in HoF as [j Hj]. assert (i = j) as ->; [|congruence].
    eapply (NoDup_lookup (map ID F)); [done| |]; rewrite list_lookup_fmap; [by rewrite Hi|by rewrite Hj; simpl; rewrite Hid]. }
  apply andb_prop in Hres as [<-%String.eqb_eq <-%String.eqb_eq].
  rewrite forallb_forall in Hall. assert (Hlast : mem_criterion F o not_last = true) by (apply Hall; right; right; by left).
  unfold mem_criterion, is_newest in Hlast. rewrite Ho, String.eqb_refl in Hlast. discriminate Hlast.
Qed.

#[export] Program Instance external_batches : BatchQueries external 2 := {
  matching := fun d => mem_select external (firsts (mem_operations d))
}.
Next Obligation. intros d. apply filter_ids_nodup, firsts_nodup. Qed.
Next Obligation. done. Qed.
Next Obligation.
  intros d h _. simpl. unfold mem_list, mem_select. repeat f_equal.
Qed.
Next Obligation.
  intros d h ids d' h' r [= <- _ <-] Hids _. split; [done|]. simpl.
  assert (Hdel : forall l, List.filter (fun op => negb (forallb (mem_criterion (firsts (mem_operations d)) op) [ByField InOperator "id" ids])) l
    = List.filter (outside ids) l).
  { intros l. apply filter_ext. intros op. simpl. by rewrite andb_true_r. }
  rewrite Hdel, firsts_outside. set (F := firsts (mem_operations d)) in *.
  assert (Hnew : forall rid t, newest (List.filter (outside ids) F) rid t = newest F rid t).
  { intros rid t. apply newest_outside. intros o Ho. unfold outside. apply negb_true_iff, bool_decide_eq_false. intros Hin.
    eapply newest_unmatched; [apply firsts_nodup|exact Ho|by apply Hids]. }
  unfold mem_select. rewrite bfilter_comm.
  assert (Heq : forall op, forallb (mem_criterion (List.filter (outside ids) F) op) external = forallb (mem_criterion F op) external).
  { intros op. unfold external, mem_criterion, is_newest. simpl. by rewrite Hnew. }
  rewrite (filter_ext _ _ Heq). generalize (List.filter (fun op => forallb (mem_criterion F op) external) F). intros l.
  induction l as [|x l IH]; simpl; [done|]. unfold outside at 1. rewrite IH.
  case_bool_decide; simpl; [by rewrite filter_cons_False by auto|by rewrite filter_cons_True].
Qed.

(** ** Witnesses *)
Definition cascade_op (id parent resource : string) (st : OperationState) : Operation :=
  {| ID := id; CreatedAt := 5; Labels_ := ∅; Ready := true; Description_ := ""; Type_ := DELETE; State := st;
     ResourceID := resource; TransitiveResources := []; ResourceType := ServiceInstanceType; Errors_ := None;
     PlatformID := SMPlatform; CorrelationID := "c"; ExternalID := ""; ParentID := parent; CascadeRootID := "root";
     Context_ := None; Reschedule := false; RescheduleTimestamp := None; DeletionScheduled := None |}.
Definition external_op (id resource : string) : Operation :=
  {| ID := id; CreatedAt := 5; Labels_ := ∅; Ready := true; Description_ := ""; Type_ := CREATE; State := SUCCEEDED;
     ResourceID := resource; TransitiveResources := []; ResourceType := ServiceInstanceType; Errors_ := None;
     PlatformID := "cf"; CorrelationID := "c"; ExternalID := ""; ParentID := ""; CascadeRootID := "";
     Context_ := None; Reschedule := false; RescheduleTimestamp := None; DeletionScheduled := None |}.
Definition tree_world : World := world_of
  [cascade_op "root" "" "r0" PENDING; cascade_op "kid" "root" "r1" PENDING; external_op "e" "x"] (cascade_op "kid" "root" "r1" PENDING) 10 [].

(** Polling starts the leaf and leaves the root pending. *)
Example poll_starts_leaf :
  map (fun op => (ID op, State op)) (mem_operations (db (fst
    (pollPendingCascadeOperations sample_scheduler text_of_duration text_of_errors tree_world)))) =
  [("root", PENDING); ("kid", IN_PROGRESS); ("e", SUCCEEDED)].
Proof. vm_compute. reflexivity. Qed.

Lemma tree_bottom_up : bottom_up (db tree_world).
Proof.
  assert (Hall : forall id op, find_operation (mem_operations (db tree_world)) id = Some op ->
    CascadeRootID op = "" \/ (State op = PENDING /\ DeletionScheduled op = None)).
  { intros id op Hin%find_elem. simpl in Hin. rewrite !elem_of_cons in Hin.
    destruct Hin as [->|[->|[->|Hin]]]; [by right..|by left|by apply elem_of_nil in Hin]. }
  intros id op Hop _ Hroot Hst. destruct (Hall id op Hop) as [?|[Hp Hd]]; [done|]. unfold started in Hst.
  rewrite Hp, Hd in Hst. destruct Hst as [?|[?|[? ?]]]; done.
Qed.

Lemma cascade_deletes_bottom_up_witness :
  exists w' r, pollPendingCascadeOperations sample_scheduler text_of_duration text_of_errors tree_world = (w', r) /\
    bottom_up (db w').
Proof.
  eexists _, _. split; [apply surjective_pairing|].
  refine (cascade_deletes_bottom_up sample_scheduler text_of_duration text_of_errors (db tree_world) _ tree_bottom_up _).
  apply rtc_once. eapply step_poll. apply surjective_pairing.
Defined.

Lemma polling_touches_pending_only_witness :
  exists w' r, pollPendingCascadeOperations sample_scheduler text_of_duration text_of_errors tree_world = (w', r) /\
    r = Ok tt /\ stored_operation (db w') "e" = Some (external_op "e" "x").
Proof.
  eexists _, _. split; [apply surjective_pairing|].
  refine (polling_touches_pending_only sample_scheduler text_of_duration text_of_errors tree_world _ _ "e" (external_op "e" "x")
    _ _ _); [apply surjective_pairing|vm_compute; reflexivity|left; discriminate].
Defined.

Lemma reschedule_without_resource_panics_witness :
  exists w', rescheduled_action 7%nat (external_op "e" "gone") tree_world = (w', Ok NilAction) /\ db w' = db tree_world /\
    forall c w1, run_action sample_action NilAction c w1 = (w1, Panic "nil pointer dereference").
Proof.
  refine (reschedule_without_resource_panics sample_action 7%nat (external_op "e" "gone") tree_world ENotFoundInStorage _ _);
    [by left|vm_compute; reflexivity].
Defined.

Lemma batch_deletion_complete_witness :
  exists w' r, batchDeleteOperation 0 external 2
      (world_of [external_op "a" "x"; external_op "b" "x"; external_op "c" "x"; external_op "d" "x"] (external_op "a" "x") 10 []) = (w', r) /\
    r = Ok tt /\ matching (db w') = [].
Proof.
  eexists _, _. split; [apply surjective_pairing|].
  refine (batch_deletion_complete 0 _ _ _ _ _); [lia|apply surjective_pairing].
Defined.
