(* ===== verification/CascadeCreate.v ===== *)
(** * Creating a cascade deletion (storage/interceptors/smaap_cascade_operation_create_interceptor.go,
    smaap_virtual_resource_cascade_operation_create_interceptor.go)

    The two interceptors of the creation of an operation: when it is the root of a cascade
    deletion, the operations for everything below its resource are created before it.  The
    objects of the repository are read through [object_list] and [object_get], at the
    database of the transaction; [f] is the next interceptor. *)

From S2P Require Import Prelude GoStd Errors Query OperationTypes Cascade CascadeProps CascadeTheorems Repository Scheduler SchedulerProps SchedulerTheorems Maintainer MaintainerProps MaintainerTheorems.
From stdpp Require Import base gmap strings list relations pretty.
From Stdlib Require Import ZArith.
Import Operators Criteria.
Local Open Scope string_scope.

(** The properties the interceptors give a root operation. *)
Definition init_operation (now : Z) (op : Operation) : Operation :=
  {| ID := ID op; CreatedAt := now; Labels_ := Labels_ op; Ready := true; Description_ := Description_ op;
     Type_ := Type_ op; State := PENDING; ResourceID := ResourceID op; TransitiveResources := TransitiveResources op;
     ResourceType := ResourceType op; Errors_ := Errors_ op; PlatformID := SMPlatform; CorrelationID := CorrelationID op;
     ExternalID := ExternalID op; ParentID := ParentID op; CascadeRootID := CascadeRootID op; Context_ := Context_ op;
     Reschedule := Reschedule op; RescheduleTimestamp := RescheduleTimestamp op; DeletionScheduled := DeletionScheduled op |}.

Section Interceptors.
Context `{OperationQueries}.
Variable keys : list string.
Variable object_list : DB -> string -> list Criterion -> result (list object).
Variable object_get : DB -> string -> string -> result object.
Variable range_order : nat -> list string -> list string.
Variable uuid_NewV4 : nat -> result string.
Variable time_Now : nat -> Z.
Variables depth n : nat.
Variable c : ctx.

(** The operations below an object, read in the current transaction. *)
Definition cascade_operations (o : object) (op : Operation) : M (list Operation) := fun w =>
  (w, fst <$> GetAllLevelsCascadeOperations keys (object_list (db w)) range_order uuid_NewV4 time_Now depth n o op).

Fixpoint create_operations (ops : list Operation) : M unit :=
  match ops with
  | [] => m_ret tt
  | op :: rest =>
      let! r := attempt (repo_call (repo_insert_operation c op)) in
      match r with
      | inl _ => create_operations rest
      | inr e => m_fail (handled_storage_error e OperationType)
      end
  end.

(** A cascade deletion of the other kind of resource, or no cascade deletion, is passed on. *)
Definition not_mine (virtual : bool) (op : Operation) : bool :=
  negb (Bool.eqb (IsVirtualType (ResourceType op)) virtual) || String.eqb (CascadeRootID op) "" ||
  negb (bool_decide (Type_ op = DELETE)).

(** [cascadeOperationCreateInterceptor.OnTxCreate]. *)
Definition OnTxCreate (f : op_ptr -> M op_ptr) (p : op_ptr) : M op_ptr :=
  let! op := deref (Some p) in
  if not_mine false op then f p
  else
  let! duplicate := FindCascadeOperationForResource (ResourceID op) in
  match duplicate with
  | Some d => alloc d
  | None =>
      let! now := time_now in
      modify (Some p) (init_operation now) ;!
      let! op := deref (Some p) in
      lift (Operation_Validate op) ;!
      let! cascadeResource := (fun w => (w, object_get (db w) (ResourceType op) (ResourceID op))) in
      let! ops := cascade_operations cascadeResource op in
      create_operations ops ;!
      f p
  end.

(** [VirtualResourceCascadeOperationCreateInterceptor.OnTxCreate]. *)
Definition VirtualOnTxCreate (TenantIdentifier : string) (f : op_ptr -> M op_ptr) (p : op_ptr) : M op_ptr :=
  let! op := deref (Some p) in
  if not_mine true op then f p
  else
  let! duplicate := FindCascadeOperationForResource (ResourceID op) in
  match duplicate with
  | Some d => alloc d
  | None =>
      let! now := time_now in
      modify (Some p) (init_operation now) ;!
      let! op := deref (Some p) in
      lift (Operation_Validate op) ;!
      let! ops := cascade_operations (NewTenant (ResourceID op) TenantIdentifier) op in
      (match ops with [] => modify (Some p) (fun op => set_State op SUCCEEDED) | _ => m_ret tt end) ;!
      create_operations ops ;!
      f p
  end.
End Interceptors.

(** ** The creation as a sequence of steps *)
Section Steps.
Context `{OperationQueriesLaws}.
Variable s : Scheduler.
Variable duration_string : Z -> string.
Variable errors_string : option errors_json -> string.
Variable c : ctx.

Local Abbreviation steps := (rtc (cascade_step s duration_string errors_string)).

(** Parents come first: the parent of an operation is the root or an operation before it. *)
Definition parents_first (root : string) (before ops : list Operation) : Prop :=
  forall i op, ops !! i = Some op ->
    State op = PENDING /\ DeletionScheduled op = None /\
    (ParentID op = root \/ exists x, x ∈ (before ++ take i ops)%list /\ ParentID op = ID x).

Lemma parents_first_cons root before op ops :
  parents_first root before (op :: ops) ->
  (State op = PENDING /\ DeletionScheduled op = None /\
    (ParentID op = root \/ exists x, x ∈ before /\ ParentID op = ID x)) /\
  parents_first root (before ++ [op]) ops.
Proof.
  intros Hp. split.
  - destruct (Hp 0 op eq_refl) as (? & ? & Hc). split; [done|]. split; [done|]. by rewrite app_nil_r in Hc.
  - intros i o Hi. destruct (Hp (S i) o Hi) as (? & ? & Hc). split; [done|]. split; [done|].
    simpl in Hc. by rewrite <- (assoc_L (++)%list).
Qed.

(** An operation that is stored and not begun. *)
Definition waits (d : DB) (op : Operation) : Prop :=
  recorded d op /\ State op = PENDING /\ DeletionScheduled op = None.
Lemma waits_not_started d op o : waits d op -> stored_operation d (ID op) = Some o -> ~ started o.
Proof.
  intros ((o' & Ho' & lb & t & l & cx & _ & _ & ->) & Hp & Hd) Ho. rewrite Ho' in Ho. injection Ho as <-.
  unfold started. simpl. rewrite Hp, Hd. intros [?|[?|[? ?]]]; done.
Qed.

Lemma create_one root before op d h d' h' r :
  stored_operation d (ID op) = None -> stored_operation d root = None -> Forall (waits d) before ->
  State op = PENDING -> DeletionScheduled op = None ->
  (ParentID op = root \/ exists x, x ∈ before /\ ParentID op = ID x) ->
  repo_insert_operation c op (d, h) = ((d', h'), r) ->
  cascade_step s duration_string errors_string d d'.
Proof.
  intros Hnew Hroot Hbefore Hp Hd Hpar E. eapply step_create; [exact Hnew|done..| |exact E].
  intros parent Hparent. destruct Hpar as [Hpar|(x & Hx & Hpar)]; rewrite Hpar in Hparent; [congruence|].
  rewrite Forall_forall in Hbefore. specialize (Hbefore x Hx).
  by eapply waits_not_started.
Qed.

Lemma create_operations_steps root ops : forall before w w' r,
  parents_first root before ops -> NoDup (map ID (before ++ ops)) -> root ∉ map ID ops ->
  stored_operation (db w) root = None -> Forall (waits (db w)) before ->
  Forall (fun op => stored_operation (db w) (ID op) = None) ops ->
  create_operations c ops w = (w', r) ->
  steps (db w) (db w') /\ no_panic r /\
  (r = Ok tt -> Forall (waits (db w')) (before ++ ops)) /\
  (forall id, id ∉ map ID ops -> stored_operation (db w') id = stored_operation (db w) id) /\
  heap_framed c (heap w) (heap w').
Proof.
  induction ops as [|op ops IH]; intros before w w' r Hp Hnd Hr Hroot Hb Hnew; simpl.
  { unfold m_ret. intros [= <- <-]. split; [constructor|]. split; [done|]. rewrite app_nil_r. split_and!; try done.
    apply framed_refl. }
  apply parents_first_cons in Hp as [(Hpend & Hdel & Hpar) Hp]. apply Forall_cons in Hnew as [Hop Hnew].
  intros (w1 & r1 & (r2 & (d & h & E & ->)%repo_call_inv & ->)%attempt_inv & E2)%m_bind_inv.
  assert (Hstep := create_one _ _ _ _ _ _ _ _ Hop Hroot Hb Hpend Hdel Hpar E).
  assert (Hframe : forall i, i <> ID op -> stored_operation d i = stored_operation (db w) i)
    by (intros i; by eapply law_insert_frame).
  destruct (law_insert _ _ _ _ _ _ _ E) as (Hf & Hnp & Hok & Herr).
  rewrite map_app, NoDup_app in Hnd. destruct Hnd as (Hnd1 & Hdisj & Hnd2). simpl in Hnd2. apply NoDup_cons in Hnd2 as [Hn Hnd2].
  destruct r2 as [[]|e|m]; [| |by destruct (Hnp m)].
  - specialize (Hok eq_refl). eapply (IH (before ++ [op])%list) in E2 as (Hs & Hnp2 & Hw & Hf2 & Hh2); [|done|..].
    + split; [by eapply rtc_l|]. split; [done|]. split; [by rewrite <- (assoc_L (++)%list) in Hw|]. split.
      * intros id Hid. rewrite Hf2 by set_solver. simpl. apply Hframe. set_solver.
      * by eapply framed_trans.
    + rewrite map_app, map_app, NoDup_app. simpl. split_and!.
      * rewrite NoDup_app. split_and!; [done| |apply NoDup_singleton]. intros i Hi Hi2. apply (Hdisj i Hi). set_solver.
      * intros i Hi Hi2. rewrite elem_of_app in Hi. destruct Hi as [Hi|Hi]; [apply (Hdisj i Hi); set_solver|].
        apply list_elem_of_singleton in Hi. congruence.
      * done.
    + set_solver.
    + simpl. rewrite Hframe; [done|]. set_solver.
    + apply Forall_app. split; [|constructor; [done|constructor]]. rewrite Forall_forall in Hb |- *. intros x Hx.
      destruct (Hb x Hx) as ((o & Ho & Hrow) & ? & ?). split; [|done]. exists o. split; [|done]. simpl. rewrite Hframe; [done|]. intros Heq. apply (Hdisj (ID x)).
      * apply list_elem_of_fmap. by exists x.
      * rewrite Heq. left.
    + rewrite Forall_forall in Hnew |- *. intros x Hx. simpl. rewrite Hframe; [by apply Hnew|]. intros Heq. apply Hn.
      rewrite <- Heq. apply list_elem_of_fmap. by exists x.
  - unfold m_fail in E2. simplify_eq. simpl. specialize (Herr e eq_refl) as ->. split; [constructor|]. by split_and!.
Qed.

Section Root.
Variable keys : list string.
Variable object_list : DB -> string -> list Criterion -> result (list object).
Variable object_get : DB -> string -> string -> result object.
Variable range_order : nat -> list string -> list string.
Variable uuid_NewV4 : nat -> result string.
Variable time_Now : nat -> Z.
Variables depth n : nat.

(** The end of the chain of interceptors stores the operation. *)
Definition store_root (p : op_ptr) : M op_ptr :=
  let! op := deref (Some p) in repo_call (repo_insert_operation c op) ;! m_ret p.

Lemma find_cascade_spec id w w' r : FindCascadeOperationForResource id w = (w', r) -> w' = w.
Proof.
  unfold FindCascadeOperationForResource.
  intros (w1 & r1 & (r2 & (d & h & [-> ->]%law_find & ->)%repo_call_inv & ->)%attempt_inv & E)%m_bind_inv.
  rewrite set_db_id in E. destruct r2 as [op|e|m]; [| |by destruct E as [-> _]].
  - unfold m_ret in E. by simplify_eq.
  - destruct e; unfold m_ret, m_fail in E; by simplify_eq.
Qed.

Lemma modify_at p op f w w' r :
  heap w !! p = Some op -> modify (Some p) f w = (w', r) -> r = Ok tt /\ w' = set_db w (db w) (<[p := f op]> (heap w)).
Proof.
  intros Hp (w1 & r1 & [-> Hd]%deref_inv & E)%m_bind_inv.
  destruct Hd as [(q & o & [= <-] & Hq & ->)|[[?|(q & [= <-] & Hn)] _]]; [|done|congruence].
  assert (o = op) as -> by congruence. unfold store in E. by simplify_eq.
Qed.

(** The operations that were read are in order below the root. *)
Lemma cascade_operations_order d o op ops n' :
  (forall m l, range_order m l ≡ₚ l) ->
  (forall i j u, uuid_NewV4 i = Ok u -> uuid_NewV4 j = Ok u -> i = j) ->
  GetAllLevelsCascadeOperations keys (object_list d) range_order uuid_NewV4 time_Now depth n o op = Ok (ops, n') ->
  parents_first (ID op) [] ops /\ NoDup (map ID ops) /\
  (forall x, x ∈ ops -> (exists k, uuid_NewV4 k = Ok (ID x)) /\ CascadeRootID x = CascadeRootID op).
Proof.
  intros Hr Hinj. unfold GetAllLevelsCascadeOperations. intros (o' & _ & Hb)%bind_ok.
  assert (Hlink : forall i x, ops !! i = Some x -> linked keys (object_list d) range_order o' op (take i ops) x).
  { destruct (build_tree _ _ _ _ _ _ _ _ _ _ _ Hb) as (kids & -> & Hk & Hf). intros i x Hi.
    eapply forest_links; try done.
    - apply Forall_forall. intros t _. by apply tree_links.
    - intros cc. by apply children_listed_elem. }
  split_and!.
  - intros i x Hi. destruct (Hlink i x Hi) as (po & q & cc & (_ & Hst & _ & _ & Hpar & _ & _ & _ & _ & Hd & _) & _ & _ & Hq).
    split; [done|]. split; [done|]. destruct Hq as [[-> _]|[Hq _]]; [by left|right; eauto].
  - by eapply build_distinct_ids.
  - destruct (build_ids _ _ _ _ _ _ _ _ _ _ _ Hb) as (_ & ks & Hks & _). intros x Hx.
    assert (Ok (ID x) ∈ map uuid_NewV4 ks) as (k & Hk & _)%list_elem_of_fmap.
    { rewrite <- Hks. apply list_elem_of_fmap. by exists x. }
    split; [by exists k|]. clear Hk. apply list_elem_of_lookup in Hx as [i Hi].
    revert x Hi. induction i as [i IH] using lt_wf_ind. intros x Hi.
    destruct (Hlink i x Hi) as (po & q & cc & (_ & _ & _ & _ & _ & -> & _) & _ & _ & [[-> _]|[Hq _]]); [done|].
    apply list_elem_of_lookup in Hq as [j Hj]. apply lookup_take_Some in Hj as [Hj Hlt]. by eapply IH.
Qed.

Lemma store_root_step p op w w' r :
  heap w !! p = Some op -> stored_operation (db w) (ID op) = None -> stored_operation (db w) (ParentID op) = None ->
  State op = PENDING -> DeletionScheduled op = None -> store_root p w = (w', r) ->
  cascade_step s duration_string errors_string (db w) (db w') /\
  (forall q, r = Ok q -> recorded (db w') op) /\
  (forall id, id <> ID op -> stored_operation (db w') id = stored_operation (db w) id).
Proof.
  intros Hp Hnew Hpar Hst Hd (w1 & r1 & [-> Hdr]%deref_inv & E)%m_bind_inv.
  destruct Hdr as [(q & o & [= <-] & Hq & ->)|[[?|(q & [= <-] & Hn)] _]]; [|done|congruence].
  assert (o = op) as -> by congruence. apply m_bind_inv in E as (w2 & r2 & (d & h & E2 & ->)%repo_call_inv & E).
  assert (Hw : db w' = d) by (destruct r2; [unfold m_ret in E; by simplify_eq|by destruct E as [-> _]..]). rewrite Hw.
  split; [|split].
  - eapply step_create; [exact Hnew|done..| |exact E2]. intros parent. by rewrite Hpar.
  - intros q ->. destruct (law_insert _ _ _ _ _ _ _ E2) as (_ & _ & Hok & _). destruct r2 as [[]| |]; [by apply Hok|by destruct E..].
  - intros id Hid. by eapply law_insert_frame.
Qed.

(** Creating a cascade deletion keeps to the order that polling relies on: the interceptor creates the operations below the
    root, each one pending and after the one above it, and the root last.  So the creation is a sequence of creation steps, at
    whose end all of them are stored as pending; an operation that already exists for the resource is returned and nothing is
    created. *)
Theorem cascade_creation_is_steps p op w w' q :
  (forall m l, range_order m l ≡ₚ l) ->
  (forall i j u, uuid_NewV4 i = Ok u -> uuid_NewV4 j = Ok u -> i = j) ->
  (forall i u, uuid_NewV4 i = Ok u -> stored_operation (db w) u = None /\ u <> ID op /\ u <> "") ->
  heap w !! p = Some op -> not_mine false op = false ->
  stored_operation (db w) (ID op) = None -> stored_operation (db w) "" = None ->
  ParentID op = "" -> ID op <> "" -> DeletionScheduled op = None ->
  OnTxCreate keys object_list object_get range_order uuid_NewV4 time_Now depth n c store_root p w = (w', Ok q) ->
  rtc (cascade_step s duration_string errors_string) (db w) (db w') /\
  (db w' = db w \/
   exists ops root, Forall (waits (db w')) (root :: ops) /\ ID root = ID op /\
     parents_first (ID op) [] ops /\ Forall (fun x => CascadeRootID x = CascadeRootID root) ops).
Proof.
  intros Hr Hinj Hfresh Hp Hmine Hnew Hempty Hpar Hid Hdel. unfold OnTxCreate.
  intros (w1 & r1 & [-> Hd]%deref_inv & E)%m_bind_inv.
  destruct Hd as [(q1 & o & [= <-] & Hq & ->)|[[?|(q1 & [= <-] & Hn)] _]]; [|done|congruence].
  assert (o = op) as -> by congruence. rewrite Hmine in E.
  apply m_bind_inv in E as (w2 & r2 & ->%find_cascade_spec & E). destruct r2 as [[d|]|e|m]; [| |by destruct E..].
  { unfold alloc in E. simplify_eq. split; [constructor|by left]. }
  apply m_bind_inv in E as (w3 & r3 & E3 & E). unfold time_now in E3. simplify_eq.
  apply m_bind_inv in E as (w4 & r4 & [-> ->]%(modify_at _ _ _ _ _ _ Hp) & E).
  set (w4 := set_db w3 (db w3) _) in E. set (root := init_operation (clock w3) op) in *.
  assert (Hp4 : heap w4 !! p = Some root) by (simpl; by rewrite lookup_insert_eq).
  apply m_bind_inv in E as (w5 & r5 & [-> Hd]%deref_inv & E).
  destruct Hd as [(q1 & o & [= <-] & Hq1 & ->)|[[?|(q1 & [= <-] & Hn)] _]]; [|done|congruence].
  assert (o = root) as -> by congruence.
  apply m_bind_inv in E as (w6 & r6 & E6 & E). unfold lift in E6. injection E6 as <- <-.
  destruct (Operation_Validate root); [|by destruct E..].
  apply m_bind_inv in E as (w7 & r7 & E7 & E). injection E7 as <- <-. destruct (object_get _ _ _) as [res| |]; [|by destruct E..].
  apply m_bind_inv in E as (w8 & r8 & E8 & E). unfold cascade_operations in E8. injection E8 as <- <-.
  destruct (GetAllLevelsCascadeOperations _ _ _ _ _ _ _ _ _) as [[ops n']| |] eqn:Hops; simpl in E; [|by destruct E..].
  apply cascade_operations_order in Hops as (Hfirst & Hnd & Hin); [|done..].
  assert (Hids : forall i, i ∈ map ID ops -> stored_operation (db w3) i = None /\ i <> ID op /\ i <> "").
  { intros i (x & -> & Hx)%list_elem_of_fmap. destruct (Hin x Hx) as [[k Hk] _]. by eapply Hfresh. }
  apply m_bind_inv in E as (w9 & r9 & E9 & E).
  apply (create_operations_steps (ID op) ops []) in E9 as (Hs & Hnp & Hw & Hf & Hh); [|done..| | | |].
  - destruct r9 as [[]|e|m]; [|by destruct E..]. specialize (Hw eq_refl). destruct (Hh _ _ Hp4) as (root' & Hl & (l & cx & _ & _ & ->) & _).
    set (root' := with_rest root _ _ cx l) in *.
    apply store_root_step with (op := root') in E as (Hstep & Hst & Hf2); simpl; try done.
    + split; [by eapply rtc_r|]. right. exists ops, root'. specialize (Hst q eq_refl).
      split; [|split_and!; [done..|]].
      * constructor; [split; [exact Hst|done]|]. rewrite Forall_forall in Hw |- *. intros x Hx.
        destruct (Hw x Hx) as [(o & Ho & ?) ?]. split; [|done]. exists o. split; [|done]. rewrite Hf2; [done|]. simpl.
        apply Hids. apply list_elem_of_fmap. by exists x.
      * apply Forall_forall. intros x Hx. by destruct (Hin x Hx).
    + rewrite Hf; [done|]. intros Hc. by destruct (Hids _ Hc) as (_ & ? & _).
    + rewrite Hpar, Hf; [done|]. intros Hc. by destruct (Hids _ Hc) as (_ & _ & ?).
  - intros Hc. by destruct (Hids _ Hc) as (_ & ? & _).
  - done.
  - constructor.
  - apply Forall_forall. intros x Hx. apply Hids. apply list_elem_of_fmap. by exists x.
Qed.
End Root.
End Steps.

(** ** The creation of the cascade deletion of a platform, on the in-memory repository *)
Definition prefixed (n : nat) : result string := Ok ("u" ++ pretty n).
Lemma prefixed_inj i j u : prefixed i = Ok u -> prefixed j = Ok u -> i = j.
Proof.
  unfold prefixed. intros [= <-] Hj. assert ("u" ++ pretty j = "u" ++ pretty i) as E by congruence.
  apply Strings.app_inj_l in E. by apply (inj pretty) in E.
Qed.

(** The root as the controller makes it. *)
Definition platform_root : Operation :=
  {| ID := "root"; CreatedAt := 0; Labels_ := ∅; Ready := true; Description_ := ""; Type_ := DELETE; State := IN_PROGRESS;
     ResourceID := "p"; TransitiveResources := []; ResourceType := PlatformType; Errors_ := None; PlatformID := SMPlatform;
     CorrelationID := "c"; ExternalID := ""; ParentID := ""; CascadeRootID := "root"; Context_ := None; Reschedule := false;
     RescheduleTimestamp := None; DeletionScheduled := None |}.
Definition platform_world : World := world_of [external_op "e" "x"] platform_root 10 [].
Definition platform_get (_ : memory_db) (_ id : string) : result object := Ok (Platform id).

Example platform_creation :
  map (fun op => (ID op, ResourceID op, State op)) (mem_operations (db (fst
    (OnTxCreate [] (fun _ => sample_list) platform_get alternating prefixed midnight 5 0 None (store_root None) 7 platform_world)))) =
  [("e", "x", SUCCEEDED); ("u2", "i1", PENDING); ("root", "p", PENDING)].
Proof. vm_compute. reflexivity. Qed.

Lemma cascade_creation_is_steps_witness : exists w' q,
  OnTxCreate [] (fun _ => sample_list) platform_get alternating prefixed midnight 5 0 None (store_root None) 7 platform_world = (w', Ok q) /\
  rtc (cascade_step sample_scheduler text_of_duration text_of_errors) (db platform_world) (db w').
Proof.
  eexists _, _. split; [apply run_snd; vm_compute; reflexivity|].
  refine (proj1 (cascade_creation_is_steps sample_scheduler text_of_duration text_of_errors None [] (fun _ => sample_list)
    platform_get alternating prefixed midnight 5 0 7 platform_root platform_world _ _ alternating_permutes prefixed_inj
    _ eq_refl eq_refl eq_refl eq_refl eq_refl _ eq_refl _)); [|discriminate|apply run_snd; vm_compute; reflexivity].
  intros i u [= <-]. split_and!; [|discriminate|discriminate]. reflexivity.
Defined.
