(* ===== verification/Interceptors.v ===== *)
(** * Interceptors of the repository (storage/interceptable_repository.go, interceptors_create.go,
    interceptors_update.go, interceptors_delete.go)

    The registration of interceptor providers, the chains made of them, and the repository
    that runs the chains around and inside a transaction.  The code has the same functions
    for creation, update and deletion; here they are instances of one registry.

    What an interceptor does with the repository of the transaction is a program of calls
    ([prog]); the repository interprets it.  Its maps of chains are state, because a call
    takes the chain of its type out while it runs.  [depth] bounds the nesting of calls: a
    deeper call ends the process, as a stack overflow does.  The database, with everything
    else the interceptors change, is a parameter, as is the raw repository. *)

From S2P Require Import Prelude GoStd GoSlice Errors Query Labels OperationTypes Repository.
From stdpp Require Import base gmap strings list pretty.
From Stdlib Require Import ZArith.
Import Operators Criteria.
Local Open Scope string_scope.

(** ** Order *)
Inductive PositionType := PositionNone | PositionBefore | PositionAfter.
Record InterceptorPosition := { PositionType_ : PositionType; PositionName : string }.
Record InterceptorOrder := { OnTxPosition : InterceptorPosition; AroundTxPosition : InterceptorPosition }.
#[global] Instance PositionType_eq_dec : EqDecision PositionType.
Proof. solve_decision. Defined.

(** The index of the first name, if there is one ([findName] returns -1 otherwise). *)
Fixpoint findName (names : list string) (name : string) : option nat :=
  match names with
  | [] => None
  | x :: rest => if String.eqb x name then Some 0%nat else S <$> findName rest name
  end.

(** Append, then shift the names from [pos] on by one and put the new one there. *)
Definition insert_at (names : list string) (pos : nat) (name : string) : list string :=
  (take pos names ++ name :: drop pos names)%list.
Definition insertName (names : list string) (position : InterceptorPosition) (newInterceptorName : string)
    : result (list string) :=
  match PositionType_ position with
  | PositionNone => Ok (names ++ [newInterceptorName])%list
  | t =>
      match findName names (PositionName position) with
      | None => Panic ("could not find create API hook with name " ++ PositionName position)
      | Some pos => Ok (insert_at names (if bool_decide (t = PositionAfter) then S pos else pos) newInterceptorName)
      end
  end.

Fixpoint providerWithNameExists (existingNames : list string) (orderedRelativeTo : string) : bool :=
  match existingNames with
  | [] => false
  | name :: rest => String.eqb name orderedRelativeTo || providerWithNameExists rest orderedRelativeTo
  end.

Definition must (b : bool) (msg : string) : result unit := if b then Ok tt else Panic msg.
Definition check_position (position : InterceptorPosition) (existingProviderNames : list string) : result unit :=
  if bool_decide (PositionType_ position = PositionNone) then Ok tt
  else must (providerWithNameExists existingProviderNames (PositionName position))
         ("could not find interceptor with name " ++ PositionName position).
Definition validateProviderOrder (order : InterceptorOrder) (existingProviderNames : list string)
    (providerName : string) : result unit :=
  must (negb (providerWithNameExists existingProviderNames providerName))
    (providerName ++ " create interceptor provider is already registered") ;;;
  check_position (AroundTxPosition order) existingProviderNames ;;;
  check_position (OnTxPosition order) existingProviderNames.

(** ** The registry of one kind of interceptors

    [A] and [T] are the hooks around and inside a transaction; a provider is what its
    [Provide] returns, under its name.  What the two hooks of one interceptor share is
    part of the [world] they run in. *)
Section Registry.
Context {A T : Type}.

Record registry := {
  orderedAroundTxProvidersNames : gmap string (list string);
  orderedOnTxProvidersNames : gmap string (list string);
  providers : gmap string (gmap string (A * T));
  aroundTxProviders : gmap string (gmap string A);
  onTxProviders : gmap string (gmap string T)
}.
Definition empty_registry : registry :=
  {| orderedAroundTxProvidersNames := ∅; orderedOnTxProvidersNames := ∅; providers := ∅;
     aroundTxProviders := ∅; onTxProviders := ∅ |}.

Definition of_type {X} (m : gmap string (gmap string X)) (objectType : string) : gmap string X := default ∅ (m !! objectType).
Definition names_of (m : gmap string (list string)) (objectType : string) : list string := default [] (m !! objectType).
Definition keys_of {X} (m : gmap string X) : list string := map fst (map_to_list m).

Definition existing_names (g : registry) (objectType : string) : list string :=
  (keys_of (of_type (aroundTxProviders g) objectType) ++ keys_of (of_type (onTxProviders g) objectType) ++
   keys_of (of_type (providers g) objectType))%list.
Definition validateProviders (g : registry) (objectType name : string) (order : InterceptorOrder) : result unit :=
  validateProviderOrder order (existing_names g objectType) name.

Definition AddAroundTxProvider (g : registry) (objectType name : string) (hook : A) (order : InterceptorOrder)
    : result registry :=
  validateProviders g objectType name order ;;;
  let* names := insertName (names_of (orderedAroundTxProvidersNames g) objectType) (AroundTxPosition order) name in
  Ok {| orderedAroundTxProvidersNames := <[objectType := names]> (orderedAroundTxProvidersNames g);
        orderedOnTxProvidersNames := orderedOnTxProvidersNames g;
        providers := providers g;
        aroundTxProviders := <[objectType := <[name := hook]> (of_type (aroundTxProviders g) objectType)]> (aroundTxProviders g);
        onTxProviders := onTxProviders g |}.
Definition AddOnTxProvider (g : registry) (objectType name : string) (hook : T) (order : InterceptorOrder)
    : result registry :=
  validateProviders g objectType name order ;;;
  let* names := insertName (names_of (orderedOnTxProvidersNames g) objectType) (OnTxPosition order) name in
  Ok {| orderedAroundTxProvidersNames := orderedAroundTxProvidersNames g;
        orderedOnTxProvidersNames := <[objectType := names]> (orderedOnTxProvidersNames g);
        providers := providers g;
        aroundTxProviders := aroundTxProviders g;
        onTxProviders := <[objectType := <[name := hook]> (of_type (onTxProviders g) objectType)]> (onTxProviders g) |}.
Definition AddProvider (g : registry) (objectType name : string) (hooks : A * T) (order : InterceptorOrder)
    : result registry :=
  validateProviders g objectType name order ;;;
  let* aroundNames := insertName (names_of (orderedAroundTxProvidersNames g) objectType) (AroundTxPosition order) name in
  let* onTxNames := insertName (names_of (orderedOnTxProvidersNames g) objectType) (OnTxPosition order) name in
  Ok {| orderedAroundTxProvidersNames := <[objectType := aroundNames]> (orderedAroundTxProvidersNames g);
        orderedOnTxProvidersNames := <[objectType := onTxNames]> (orderedOnTxProvidersNames g);
        providers := <[objectType := <[name := hooks]> (of_type (providers g) objectType)]> (providers g);
        aroundTxProviders := aroundTxProviders g;
        onTxProviders := onTxProviders g |}.

(** ** Chains *)
Record interceptorChain := {
  aroundTxNames : list string; aroundTxFuncs : gmap string A;
  onTxNames : list string; onTxFuncs : gmap string T
}.
(** [newCreateInterceptorChain] and its like: a provider of both hooks wins. *)
Definition newInterceptorChain (g : registry) (objectType : string) : interceptorChain :=
  let both := of_type (providers g) objectType in
  {| aroundTxNames := names_of (orderedAroundTxProvidersNames g) objectType;
     aroundTxFuncs := (fst <$> both) ∪ of_type (aroundTxProviders g) objectType;
     onTxNames := names_of (orderedOnTxProvidersNames g) objectType;
     onTxFuncs := (snd <$> both) ∪ of_type (onTxProviders g) objectType |}.
(** [newCreateOnTxInterceptorChain] and its like: the names and hooks inside a transaction. *)
Definition newOnTxInterceptorChain (g : registry) (objectType : string) : list string * gmap string T :=
  (names_of (orderedOnTxProvidersNames g) objectType, of_type (onTxProviders g) objectType).

(** The types with a chain ([mergeObjectTypes]). *)
Definition mergeObjectTypes (g : registry) : list string :=
  let around := keys_of (orderedAroundTxProvidersNames g) in
  (around ++ List.filter (fun t => negb (bool_decide (is_Some (orderedAroundTxProvidersNames g !! t))))
               (keys_of (orderedOnTxProvidersNames g)))%list.
End Registry.
Arguments registry : clear implicits.
Arguments interceptorChain : clear implicits.

(** [for i := range names]: the hooks wrap [f] from the last name to the first. *)
Definition wrap {F} (names : list string) (funcs : gmap string (F -> F)) (f : F) : F :=
  foldl (fun f i =>
    match names !! (length names - 1 - i)%nat with
    | Some name => match funcs !! name with Some interceptor => interceptor f | None => f end
    | None => f
    end) f (seq 0 (length names)).

(** ** Programs of interceptors *)
Definition LabelChanges := list LabelChange.

Inductive request :=
  | RCreate (obj : resource)
  | RUpdate (obj : resource) (labelChanges : LabelChanges) (criteria : list Criterion)
  | RUpdateLabels (objectType objectID : string) (labelChanges : LabelChanges) (criteria : list Criterion)
  | RDelete (objectType : string) (criteria : list Criterion)
  | RDeleteReturning (objectType : string) (criteria : list Criterion).

(** [E] is what the interceptors work on, [Q] the calls they can make. *)
Inductive prog (E Q X : Type) :=
  | Ret (r : result X)
  | Act (f : E -> E) (k : E -> prog E Q X)
  | Call (q : Q) (k : result (list resource) -> prog E Q X).
Arguments Ret {E Q X} r.
Arguments Act {E Q X} f k.
Arguments Call {E Q X} q k.

(** A state [S] that holds an [E]; a panic of a call is not caught. *)
Section Run.
Context {E Q S : Type} (get : S -> E) (set : S -> E -> S) (call : Q -> S -> S * result (list resource)).
Fixpoint run {X} (p : prog E Q X) (s : S) : S * result X :=
  match p with
  | Ret r => (s, r)
  | Act f k => let e := f (get s) in run (k e) (set s e)
  | Call q k =>
      let '(s', r) := call q s in
      match r with
      | Panic m => (s', Panic m)
      | _ => run (k r) s'
      end
  end.
End Run.

(** ** The raw repository

    [storage.TransactionalRepository], with the labels of an object. *)
Class RawRepository (D : Type) := {
  raw_create : resource -> D -> D * result resource;
  raw_get : string -> string -> D -> D * result resource;
  raw_list : string -> list Criterion -> D -> D * result (list resource);
  raw_list_no_labels : string -> list Criterion -> D -> D * result (list resource);
  raw_update : resource -> LabelChanges -> list Criterion -> D -> D * result resource;
  raw_update_labels : string -> string -> LabelChanges -> list Criterion -> D -> D * result unit;
  raw_delete : string -> list Criterion -> D -> D * result unit;
  raw_delete_returning : string -> list Criterion -> D -> D * result (list resource);
  raw_begin : D -> result unit;
  raw_commit : D -> result unit;
  GetLabels : resource -> gmap string (list string);
  SetLabels : gmap string (list string) -> resource -> resource
}.

(** [labels, _, _ := query.ApplyLabelChangesToLabels(labelChanges, newObj.GetLabels());
    object.SetLabels(labels)] *)
Definition relabel `{GrowPolicy} `{RawRepository D} (labelChanges : LabelChanges) (newObj object : resource) : result resource :=
  let '(h, labels) := alloc_labels (GetLabels newObj) in
  let* st := ApplyLabelChangesToLabels h labelChanges labels in
  Ok (SetLabels (contents (Labels.heap st) (mergedLabels st)) object).

(** ** The repository of a transaction *)
Section Repository.
Context {D W : Type}.

(** The database, all else the interceptors change, the operation of the context, and the
    variable [resultList] of [DeleteReturning]. *)
Record env := { data : D; world : W; operation : option Operation; resultList : list resource }.
Definition set_data (e : env) (d : D) : env :=
  {| data := d; world := world e; operation := operation e; resultList := resultList e |}.
Definition set_result (e : env) (l : list resource) : env :=
  {| data := data e; world := world e; operation := operation e; resultList := l |}.
(** [operation.TransitiveResources = append(...)] if there is an operation that [b] holds of. *)
Definition relate (b : Operation -> bool) (rel : list RelatedType) (e : env) : env :=
  {| data := data e; world := world e;
     operation := (fun op => if b op then set_TransitiveResources op (TransitiveResources op ++ rel)%list else op) <$> operation e;
     resultList := resultList e |}.

Context `{GrowPolicy} `{RawRepository D}.

(** A call of the raw repository, continued with its result; an error ends the program. *)
Definition raw {Q X Y} (call : D -> D * result X) (k : X -> prog env Q Y) : prog env Q Y :=
  Act (fun e => e) (fun e =>
    let '(d, r) := call (data e) in
    Act (fun e => set_data e d) (fun _ =>
      match r with Ok x => k x | Err err => Ret (Err err) | Panic m => Ret (Panic m) end)).
Definition act {Q Y} (f : env -> env) (k : prog env Q Y) : prog env Q Y := Act f (fun _ => k).

Definition create_func (Q : Type) := resource -> prog env Q resource.
Definition update_func (Q : Type) := resource -> resource -> LabelChanges -> prog env Q resource.
Definition delete_func (Q : Type) := list resource -> list Criterion -> prog env Q unit.

Record scoped := {
  scoped_env : env;
  createOnTxFuncs : gmap string (create_func request -> create_func request);
  updateOnTxFuncs : gmap string (update_func request -> update_func request);
  deleteOnTxFuncs : gmap string (delete_func request -> delete_func request)
}.
Definition set_env (s : scoped) (e : env) : scoped :=
  {| scoped_env := e; createOnTxFuncs := createOnTxFuncs s; updateOnTxFuncs := updateOnTxFuncs s; deleteOnTxFuncs := deleteOnTxFuncs s |}.
Definition set_create (s : scoped) m : scoped :=
  {| scoped_env := scoped_env s; createOnTxFuncs := m; updateOnTxFuncs := updateOnTxFuncs s; deleteOnTxFuncs := deleteOnTxFuncs s |}.
Definition set_update (s : scoped) m : scoped :=
  {| scoped_env := scoped_env s; createOnTxFuncs := createOnTxFuncs s; updateOnTxFuncs := m; deleteOnTxFuncs := deleteOnTxFuncs s |}.
Definition set_delete (s : scoped) m : scoped :=
  {| scoped_env := scoped_env s; createOnTxFuncs := createOnTxFuncs s; updateOnTxFuncs := updateOnTxFuncs s; deleteOnTxFuncs := m |}.

Definition related (id type : string) (category : OperationCategory) : RelatedType :=
  {| rel_ID := id; rel_Criteria := None; rel_Type := type; rel_OperationType := category |}.
Definition related_by (criteria : list Criterion) (type : string) : RelatedType :=
  {| rel_ID := ""; rel_Criteria := Some criteria; rel_Type := type; rel_OperationType := DELETE |}.

(** The functions at the end of the chains. *)
Definition createObjectFunc : create_func request := fun newObject =>
  raw (raw_create newObject) (fun createdObj =>
    act (relate (fun op => negb (String.eqb (ResourceID op) (res_id createdObj)))
           [related (res_id createdObj) (res_type createdObj) CREATE])
      (Ret (Ok createdObj))).
Definition updateObjFunc (criteria : list Criterion) : update_func request := fun _ newObj labelChanges =>
  raw (raw_update newObj labelChanges criteria) (fun object =>
    act (relate (fun op => negb (String.eqb (ResourceID op) (res_id object)) && negb (String.eqb (ID op) (res_id object)) &&
                           negb (String.eqb (res_type object) OperationType))
           [related (res_id object) (res_type object) UPDATE])
      (Ret (relabel labelChanges newObj object))).
Definition updateLabelsFunc (objectType objectID : string) (criteria : list Criterion) (obj : resource)
    : update_func request := fun _ _ labelChanges =>
  raw (raw_update_labels objectType objectID labelChanges criteria) (fun _ =>
    act (relate (fun op => negb (String.eqb (ResourceID op) objectID) && negb (String.eqb (ID op) objectID) &&
                           negb (String.eqb objectType OperationType))
           [related objectID objectType UPDATE])
      (Ret (Ok obj))).
Definition deleteObjectFunc (objectType : string) : delete_func request := fun _ deletionCriteria =>
  raw (raw_delete objectType deletionCriteria) (fun _ =>
    act (relate (fun op => negb (String.eqb (ResourceType op) objectType)) [related_by deletionCriteria objectType]) (Ret (Ok tt))).
(** It also appends one entry per deleted object that is not the operation's. *)
Definition relate_deleted (l : list resource) (e : env) : env :=
  foldl (fun e o => relate (fun op => negb (String.eqb (ResourceID op) (res_id o))) [related (res_id o) (res_type o) DELETE] e) e l.
Definition deleteReturningFunc (objectType : string) : delete_func request := fun _ deletionCriteria =>
  raw (raw_delete_returning objectType deletionCriteria) (fun l =>
    act (fun e => relate_deleted l (set_result e l)) (Ret (Ok tt))).

Definition single (r : result resource) : result (list resource) := (fun o => [o]) <$> r.
Definition no_object (r : result unit) : result (list resource) := (fun _ => []) <$> r.

Section Calls.
Variable call : request -> scoped -> scoped * result (list resource).
Local Abbreviation exec := (run scoped_env set_env call).

(** Take the chain of the type out, run it, put it back; a panic skips the last step. *)
Definition with_create_chain (s : scoped) (objectType : string) (f : create_func request) (obj : resource)
    : scoped * result resource :=
  match createOnTxFuncs s !! objectType with
  | None => exec (f obj) s
  | Some createOnTxFunc =>
      let '(s1, r) := exec (createOnTxFunc f obj) (set_create s (delete objectType (createOnTxFuncs s))) in
      (match r with Panic _ => s1 | _ => set_create s1 (<[objectType := createOnTxFunc]> (createOnTxFuncs s1)) end, r)
  end.
Definition with_update_chain (s : scoped) (objectType : string) (f : update_func request) (old new : resource)
    (labelChanges : LabelChanges) : scoped * result resource :=
  match updateOnTxFuncs s !! objectType with
  | None => exec (f old new labelChanges) s
  | Some updateOnTxFunc =>
      let '(s1, r) := exec (updateOnTxFunc f old new labelChanges) (set_update s (delete objectType (updateOnTxFuncs s))) in
      (match r with Panic _ => s1 | _ => set_update s1 (<[objectType := updateOnTxFunc]> (updateOnTxFuncs s1)) end, r)
  end.
(** A deletion lists the objects for its chain. *)
Definition with_delete_chain (s : scoped) (objectType : string) (f : delete_func request) (criteria : list Criterion)
    : scoped * result unit :=
  match deleteOnTxFuncs s !! objectType with
  | None => exec (f [] criteria) s
  | Some deleteOnTxFunc =>
      let '(s0, objects) := exec (raw (raw_list objectType criteria) (fun l => Ret (Ok l))) s in
      match objects with
      | Err e => (s0, Err e)
      | Panic m => (s0, Panic m)
      | Ok objects =>
          let '(s1, r) := exec (deleteOnTxFunc f objects criteria) (set_delete s0 (delete objectType (deleteOnTxFuncs s0))) in
          (match r with Panic _ => s1 | _ => set_delete s1 (<[objectType := deleteOnTxFunc]> (deleteOnTxFuncs s1)) end, r)
      end
  end.

Definition scoped_Create (obj : resource) (s : scoped) : scoped * result (list resource) :=
  let '(s, r) := with_create_chain s (res_type obj) createObjectFunc obj in (s, single r).
Definition scoped_Update (obj : resource) (labelChanges : LabelChanges) (criteria : list Criterion) (s : scoped)
    : scoped * result (list resource) :=
  let '(s, old) := exec (raw (raw_get (res_type obj) (res_id obj)) (fun o => Ret (Ok o))) s in
  match old with
  | Err e => (s, Err e)
  | Panic m => (s, Panic m)
  | Ok oldObj =>
      let '(s, r) := with_update_chain s (res_type obj) (updateObjFunc criteria) oldObj obj labelChanges in (s, single r)
  end.
(** [UpdateLabels] with the objects of the id. *)
Definition update_found (objectType objectID : string) (labelChanges : LabelChanges) (criteria : list Criterion)
    (found : list resource) (s : scoped) : scoped * result (list resource) :=
  match found with
  | [] => (s, Err ENotFoundInStorage)
  | [obj] =>
      let '(s, r) := with_update_chain s objectType (updateLabelsFunc objectType objectID criteria obj) obj obj labelChanges in
      (s, no_object ((fun _ => tt) <$> r))
  | l => (s, Err (EPlain ("found " ++ pretty (length l) ++ " " ++ objectType ++ " with same id " ++ objectID)))
  end.
Definition scoped_UpdateLabels (objectType objectID : string) (labelChanges : LabelChanges) (criteria : list Criterion)
    (s : scoped) : scoped * result (list resource) :=
  let '(s, found) := exec (raw (raw_list_no_labels objectType [ByField EqualsOperator "id" [objectID]])
                             (fun l => Ret (Ok l))) s in
  match found with
  | Err e => (s, Err e)
  | Panic m => (s, Panic m)
  | Ok found => update_found objectType objectID labelChanges criteria found s
  end.
Definition scoped_Delete (objectType : string) (criteria : list Criterion) (s : scoped) : scoped * result (list resource) :=
  let '(s, r) := with_delete_chain s objectType (deleteObjectFunc objectType) criteria in (s, no_object r).
(** [resultList] is a variable of the call: nested calls have their own. *)
Definition scoped_DeleteReturning (objectType : string) (criteria : list Criterion) (s : scoped)
    : scoped * result (list resource) :=
  let outer := resultList (scoped_env s) in
  let '(s, r) := with_delete_chain (set_env s (set_result (scoped_env s) [])) objectType (deleteReturningFunc objectType) criteria in
  let l := resultList (scoped_env s) in
  (set_env s (set_result (scoped_env s) outer), (fun _ => l) <$> r).
End Calls.

Fixpoint scoped_call (depth : nat) (q : request) (s : scoped) : scoped * result (list resource) :=
  match depth with
  | 0%nat => (s, Panic "stack overflow")
  | S depth =>
      match q with
      | RCreate obj => scoped_Create (scoped_call depth) obj s
      | RUpdate obj labelChanges criteria => scoped_Update (scoped_call depth) obj labelChanges criteria s
      | RUpdateLabels t id labelChanges criteria => scoped_UpdateLabels (scoped_call depth) t id labelChanges criteria s
      | RDelete t criteria => scoped_Delete (scoped_call depth) t criteria s
      | RDeleteReturning t criteria => scoped_DeleteReturning (scoped_call depth) t criteria s
      end
  end.
End Repository.
Arguments env : clear implicits.
Arguments scoped : clear implicits.
Arguments create_func : clear implicits.
Arguments update_func : clear implicits.
Arguments delete_func : clear implicits.
