(* ===== verification/TransactionalRepository.v ===== *)
(** * The interceptable transactional repository (storage/interceptable_repository.go)

    The three registries of interceptor providers and the calls of
    [InterceptableTransactionalRepository]: the hooks around the transaction run outside
    of it, the hooks inside run in the repository of the transaction (Interceptors). *)

From S2P Require Import Prelude GoStd GoSlice Errors Query Labels OperationTypes Repository Interceptors.
From stdpp Require Import base gmap strings list.
Import Operators Criteria.
Local Open Scope string_scope.

Section Transactional.
Context {D W : Type} `{GrowPolicy} `{RawRepository D}.

(** ** What the hooks around a transaction call

    [Outer] is a call of the repository itself, [InTransaction] runs a function in a
    transaction; [Final] is the transaction at the end of a chain of hooks. *)
Inductive outer :=
  | Outer (q : request)
  | InTransaction (f : prog (env D W) request unit)
  | Final (q : request).

Definition create_around := resource -> prog (env D W) outer resource.
(** The chain of [UpdateLabels] ends with a nil object. *)
Definition update_around := resource -> LabelChanges -> prog (env D W) outer (option resource).
Definition delete_around := list Criterion -> prog (env D W) outer unit.
Definition create_on := create_func D W request.
Definition update_on := update_func D W request.
Definition delete_on := delete_func D W request.

(** ** Registration *)
Record InterceptableTransactionalRepository := {
  create_registry : registry (create_around -> create_around) (create_on -> create_on);
  update_registry : registry (update_around -> update_around) (update_on -> update_on);
  delete_registry : registry (delete_around -> delete_around) (delete_on -> delete_on)
}.
Definition NewInterceptableTransactionalRepository : InterceptableTransactionalRepository :=
  {| create_registry := empty_registry; update_registry := empty_registry; delete_registry := empty_registry |}.

Implicit Types itr : InterceptableTransactionalRepository.
Definition set_create_registry itr g :=
  {| create_registry := g; update_registry := update_registry itr; delete_registry := delete_registry itr |}.
Definition set_update_registry itr g :=
  {| create_registry := create_registry itr; update_registry := g; delete_registry := delete_registry itr |}.
Definition set_delete_registry itr g :=
  {| create_registry := create_registry itr; update_registry := update_registry itr; delete_registry := g |}.

Definition AddCreateAroundTxInterceptorProvider itr objectType name hook order :=
  set_create_registry itr <$> AddAroundTxProvider (create_registry itr) objectType name hook order.
Definition AddCreateOnTxInterceptorProvider itr objectType name hook order :=
  set_create_registry itr <$> AddOnTxProvider (create_registry itr) objectType name hook order.
Definition AddCreateInterceptorProvider itr objectType name hooks order :=
  set_create_registry itr <$> AddProvider (create_registry itr) objectType name hooks order.
Definition AddUpdateAroundTxInterceptorProvider itr objectType name hook order :=
  set_update_registry itr <$> AddAroundTxProvider (update_registry itr) objectType name hook order.
Definition AddUpdateOnTxInterceptorProvider itr objectType name hook order :=
  set_update_registry itr <$> AddOnTxProvider (update_registry itr) objectType name hook order.
Definition AddUpdateInterceptorProvider itr objectType name hooks order :=
  set_update_registry itr <$> AddProvider (update_registry itr) objectType name hooks order.
Definition AddDeleteAroundTxInterceptorProvider itr objectType name hook order :=
  set_delete_registry itr <$> AddAroundTxProvider (delete_registry itr) objectType name hook order.
Definition AddDeleteOnTxInterceptorProvider itr objectType name hook order :=
  set_delete_registry itr <$> AddOnTxProvider (delete_registry itr) objectType name hook order.
Definition AddDeleteInterceptorProvider itr objectType name hooks order :=
  set_delete_registry itr <$> AddProvider (delete_registry itr) objectType name hooks order.

(** ** The chains of a call *)
Definition provided {A T} (g : registry A T) : gmap string (interceptorChain A T) :=
  list_to_map (map (fun objectType => (objectType, newInterceptorChain g objectType)) (mergeObjectTypes g)).
Definition AroundTx {F T} (c : interceptorChain (F -> F) T) (f : F) : F := wrap (aroundTxNames c) (aroundTxFuncs c) f.
Definition OnTx {A F} (c : interceptorChain A (F -> F)) (f : F) : F := wrap (onTxNames c) (onTxFuncs c) f.
Definition providedOnTx {A F} (g : registry A (F -> F)) : gmap string (F -> F) :=
  list_to_map (map (fun objectType =>
    let '(names, funcs) := newOnTxInterceptorChain g objectType in (objectType, wrap names funcs))
    (Interceptors.keys_of (onTxProviders g))).

Definition newScopedRepositoryWithOnTxInterceptors (e : env D W) creates updates deletes : scoped D W :=
  {| scoped_env := e; createOnTxFuncs := creates; updateOnTxFuncs := updates; deleteOnTxFuncs := deletes |}.
(** The chains of all providers ([provideInterceptors]). *)
Definition newScopedRepositoryWithInterceptors itr (e : env D W) : scoped D W :=
  newScopedRepositoryWithOnTxInterceptors e (OnTx <$> provided (create_registry itr))
    (OnTx <$> provided (update_registry itr)) (OnTx <$> provided (delete_registry itr)).

(** [RawRepository.InTransaction]: an error, a panic or a failed commit rolls back. *)
Definition in_transaction {X} (e : env D W) (f : env D W -> env D W * result X) : env D W * result X :=
  match raw_begin (data e) with
  | Ok _ =>
      let '(e1, r) := f e in
      match r with
      | Ok x =>
          match raw_commit (data e1) with
          | Ok _ => (e1, Ok x)
          | Err err => (set_data e1 (data e), Err err)
          | Panic m => (set_data e1 (data e), Panic m)
          end
      | _ => (set_data e1 (data e), r)
      end
  | Err err => (e, Err err)
  | Panic m => (e, Panic m)
  end.

(** The function at the end of a chain: a call in a transaction of its own.  The result of
    [DeleteReturning] is assigned to the variable of the call even when the commit fails. *)
Definition assigned (q : request) (r : result (list resource)) (e : env D W) : env D W :=
  match q with
  | RDeleteReturning _ _ => set_result e (match r with Ok l => l | _ => [] end)
  | _ => e
  end.
Definition finalInterceptor depth itr (q : request) (e : env D W) : env D W * result (list resource) :=
  in_transaction e (fun e =>
    let '(s, r) := scoped_call depth q (newScopedRepositoryWithInterceptors itr e) in
    (assigned q r (scoped_env s), r)).

(** [InTransaction]: only the chains of providers of hooks inside a transaction. *)
Definition itr_InTransaction depth itr (f : prog (env D W) request unit) (e : env D W) : env D W * result unit :=
  in_transaction e (fun e =>
    let '(s, r) := run scoped_env set_env (scoped_call depth) f
      (newScopedRepositoryWithOnTxInterceptors e (providedOnTx (create_registry itr))
         (providedOnTx (update_registry itr)) (providedOnTx (delete_registry itr))) in
    (scoped_env s, r)).

(** ** The calls *)
Definition call_object {X} (q : outer) (k : resource -> prog (env D W) outer X) : prog (env D W) outer X :=
  Call q (fun r => match r with
                   | Ok (o :: _) => k o
                   | Ok [] => Ret (Panic "invalid memory address or nil pointer dereference")
                   | Err e => Ret (Err e)
                   | Panic m => Ret (Panic m)
                   end).
Definition around {F T} (chains : gmap string (interceptorChain (F -> F) T)) (objectType : string) (f : F) : F :=
  match chains !! objectType with Some c => AroundTx c f | None => f end.

Definition create_chain itr (objectType : string) : create_around :=
  around (provided (create_registry itr)) objectType (fun obj => call_object (Final (RCreate obj)) (fun o => Ret (Ok o))).
Definition update_chain itr (objectType : string) (criteria : list Criterion) : update_around :=
  around (provided (update_registry itr)) objectType
    (fun obj labelChanges => call_object (Final (RUpdate obj labelChanges criteria)) (fun o => Ret (Ok (Some o)))).
Definition update_labels_chain itr (objectType objectID : string) (criteria : list Criterion) : update_around :=
  around (provided (update_registry itr)) objectType
    (fun _ labelChanges => Call (Final (RUpdateLabels objectType objectID labelChanges criteria))
      (fun r => Ret ((fun _ => None) <$> r))).
Definition delete_chain itr (objectType : string) : delete_around :=
  around (provided (delete_registry itr)) objectType
    (fun criteria => Call (Final (RDelete objectType criteria)) (fun r => Ret ((fun _ => tt) <$> r))).
Definition delete_returning_chain itr (objectType : string) : delete_around :=
  around (provided (delete_registry itr)) objectType
    (fun criteria => Call (Final (RDeleteReturning objectType criteria)) (fun r => Ret ((fun _ => tt) <$> r))).

Section Calls.
Variable itr : InterceptableTransactionalRepository.
Variable call : outer -> env D W -> env D W * result (list resource).
Local Abbreviation exec := (run (fun e : env D W => e) (fun _ e => e) call).

Definition itr_Create (obj : resource) (e : env D W) : env D W * result (list resource) :=
  let '(e, r) := exec (create_chain itr (res_type obj) obj) e in (e, single r).
Definition itr_Update (obj : resource) (labelChanges : LabelChanges) (criteria : list Criterion) (e : env D W)
    : env D W * result (list resource) :=
  let '(e, r) := exec (update_chain itr (res_type obj) criteria obj labelChanges) e in (e, option_list <$> r).
Definition itr_UpdateLabels (objectType objectID : string) (labelChanges : LabelChanges) (criteria : list Criterion)
    (e : env D W) : env D W * result (list resource) :=
  let '(e, obj) := exec (raw (raw_get objectType objectID) (fun o => Ret (Ok o))) e in
  match obj with
  | Err err => (e, Err err)
  | Panic m => (e, Panic m)
  | Ok obj =>
      let '(e, r) := exec (update_labels_chain itr objectType objectID criteria obj labelChanges) e in
      (e, no_object ((fun _ => tt) <$> r))
  end.
Definition itr_Delete (objectType : string) (criteria : list Criterion) (e : env D W) : env D W * result (list resource) :=
  let '(e, r) := exec (delete_chain itr objectType criteria) e in (e, no_object r).
Definition itr_DeleteReturning (objectType : string) (criteria : list Criterion) (e : env D W)
    : env D W * result (list resource) :=
  let outer := resultList e in
  let '(e, r) := exec (delete_returning_chain itr objectType criteria) (set_result e []) in
  (set_result e outer, (fun _ => resultList e) <$> r).
End Calls.

Fixpoint itr_call (depth : nat) itr (q : outer) (e : env D W) : env D W * result (list resource) :=
  match depth with
  | 0%nat => (e, Panic "stack overflow")
  | S d =>
      match q with
      | Outer (RCreate obj) => itr_Create itr (itr_call d itr) obj e
      | Outer (RUpdate obj labelChanges criteria) => itr_Update itr (itr_call d itr) obj labelChanges criteria e
      | Outer (RUpdateLabels t id labelChanges criteria) =>
          itr_UpdateLabels itr (itr_call d itr) t id labelChanges criteria e
      | Outer (RDelete t criteria) => itr_Delete itr (itr_call d itr) t criteria e
      | Outer (RDeleteReturning t criteria) => itr_DeleteReturning itr (itr_call d itr) t criteria e
      | InTransaction f => let '(e, r) := itr_InTransaction d itr f e in (e, no_object r)
      | Final q => finalInterceptor d itr q e
      end
  end.
End Transactional.
