(* ===== verification/InterceptorsProps.v ===== *)
(** * Properties of the interceptors: order of the chains, termination of nested calls

    The chain of a type is out of the repository while it runs, so the nesting of the calls
    that hooks make is bounded by the number of chains; the chains are back afterwards. *)

From S2P Require Import Prelude GoStd GoSlice Errors Query Labels OperationTypes Repository Interceptors.
From stdpp Require Import base gmap strings list.
From Stdlib Require Import Lia.
Import Operators Criteria.
Local Open Scope string_scope.

(** ** Order *)
Definition hooks {F} (names : list string) (funcs : gmap string (F -> F)) : list (F -> F) :=
  omap (fun name => funcs !! name) names.
(** The first hook is the outermost one. *)
Definition nest {F} (hs : list (F -> F)) (f : F) : F := foldr (fun h f => h f) f hs.

Lemma foldl_map {A B C} (f : A -> C -> A) (g : B -> C) (l : list B) (a : A) :
  foldl f a (map g l) = foldl (fun a x => f a (g x)) a l.
Proof. revert a. induction l as [|x l IH]; intros a; simpl; auto. Qed.

Lemma lookups_reverse {A} (l : list A) :
  map (fun i => l !! (length l - 1 - i)) (seq 0 (length l)) = map Some (reverse l).
Proof.
  apply list_eq. intros i. change (map ?f ?x) with (f <$> x). rewrite !list_lookup_fmap.
  destruct (decide (i < length l)) as [Hi|Hi].
  - rewrite lookup_seq_lt by done. rewrite reverse_lookup by done. simpl.
    replace (length l - S i) with (length l - 1 - i) by lia.
    destruct (lookup_lt_is_Some_2 l (length l - 1 - i)) as [x Hx]; [lia|]. by rewrite Hx.
  - rewrite lookup_seq_ge by lia. rewrite lookup_ge_None_2; [done|]. rewrite length_reverse. lia.
Qed.

Lemma wrap_nest {F} (names : list string) (funcs : gmap string (F -> F)) (f : F) :
  wrap names funcs f = nest (hooks names funcs) f.
Proof.
  unfold wrap.
  rewrite <- (foldl_map (fun f o => match o with
      | Some name => match funcs !! name with Some interceptor => interceptor f | None => f end
      | None => f end) (fun i => names !! (length names - 1 - i)%nat)).
  rewrite lookups_reverse, foldl_map. unfold nest, hooks.
  rewrite <- (reverse_involutive names) at 2. generalize (reverse names). intros l. revert f.
  induction l as [|x l IH]; intros f; simpl; [done|].
  rewrite IH, reverse_cons, omap_app, foldr_app. simpl. by destruct (funcs !! x).
Qed.

(** ** Nested calls *)
Section Nested.
Context {D W : Type} `{GrowPolicy} `{RawRepository D}.
Implicit Types s : scoped D W.

Definition chains s : nat :=
  size (createOnTxFuncs s) + size (updateOnTxFuncs s) + size (deleteOnTxFuncs s).
Definition same_chains s s' : Prop :=
  createOnTxFuncs s' = createOnTxFuncs s /\ updateOnTxFuncs s' = updateOnTxFuncs s /\ deleteOnTxFuncs s' = deleteOnTxFuncs s.
Definition kept {X} s (o : scoped D W * result X) : Prop := no_panic o.2 -> same_chains s o.1.

#[global] Instance same_chains_equiv : Equivalence same_chains.
Proof.
  unfold same_chains. split.
  - by intros s.
  - by intros s s' (-> & -> & ->).
  - intros s1 s2 s3 (H1 & H2 & H3) (-> & -> & ->). done.
Qed.
#[global] Instance chains_same : Proper (same_chains ==> eq) chains.
Proof. unfold chains. by intros s s' (-> & -> & ->). Qed.
Lemma same_chains_env s e : same_chains s (set_env s e).
Proof. done. Qed.

Definition calls := request -> scoped D W -> scoped D W * result (list resource).
(** Two ways to run the calls that agree, and keep the chains, below [n] chains. *)
Definition agree (n : nat) (call1 call2 : calls) : Prop :=
  forall q s, chains s < n -> call1 q s = call2 q s /\ kept s (call1 q s).

Lemma run_agree n (call1 call2 : calls) {X} (p : prog (env D W) request X) s :
  agree n call1 call2 -> chains s < n ->
  run scoped_env set_env call1 p s = run scoped_env set_env call2 p s /\ kept s (run scoped_env set_env call1 p s).
Proof.
  intros Hc. revert s. induction p as [r|f k IH|q k IH]; intros s Hs; simpl.
  - split; [done|]. by intros _.
  - destruct (IH (f (scoped_env s)) (set_env s (f (scoped_env s)))) as [H1 H2]; [done|].
    split; [done|]. exact H2.
  - destruct (Hc q s Hs) as [He Hk]. rewrite <- He. destruct (call1 q s) as [s' r]. simpl in *.
    destruct r as [l|err|m].
    + assert (Hss : same_chains s s') by (by apply Hk).
      destruct (IH (Ok l) s') as [H1 H2]; [by rewrite <- Hss|].
      split; [done|]. intros Hp. transitivity s'; auto.
    + assert (Hss : same_chains s s') by (by apply Hk).
      destruct (IH (Err err) s') as [H1 H2]; [by rewrite <- Hss|].
      split; [done|]. intros Hp. transitivity s'; auto.
    + split; [done|]. intros Hp. by destruct (Hp m).
Qed.

(** A program without calls. *)
Fixpoint plain {X} (p : prog (env D W) request X) : Prop :=
  match p with
  | Ret _ => True
  | Act f k => forall e, plain (k e)
  | Call _ _ => False
  end.
Lemma run_plain (call1 call2 : calls) {X} (p : prog (env D W) request X) s :
  plain p ->
  run scoped_env set_env call1 p s = run scoped_env set_env call2 p s /\ kept s (run scoped_env set_env call1 p s).
Proof.
  revert s. induction p as [r|f k IH|q k IH]; intros s Hp; simpl; [|apply (IH _ (set_env s _)); auto|done].
  split; [done|]. by intros _.
Qed.
Lemma plain_raw {X Y} (c : D -> D * result X) (k : X -> prog (env D W) request Y) :
  (forall x, plain (k x)) -> plain (raw c k).
Proof. intros Hk. unfold raw. simpl. intros e. destruct (c (data e)) as [d [x|err|m]]; simpl; auto. Qed.

Lemma plain_create obj : plain (createObjectFunc obj : prog (env D W) _ _).
Proof. apply plain_raw. by intros x. Qed.
Lemma plain_update criteria old new lcs : plain (updateObjFunc criteria old new lcs : prog (env D W) _ _).
Proof. apply plain_raw. by intros x. Qed.
Lemma plain_update_labels t i criteria obj old new lcs :
  plain (updateLabelsFunc t i criteria obj old new lcs : prog (env D W) _ _).
Proof. apply plain_raw. by intros x. Qed.
Lemma plain_delete t objects criteria : plain (deleteObjectFunc t objects criteria : prog (env D W) _ _).
Proof. apply plain_raw. by intros x. Qed.
Lemma plain_delete_returning t objects criteria : plain (deleteReturningFunc t objects criteria : prog (env D W) _ _).
Proof. apply plain_raw. by intros x. Qed.

Lemma size_taken {X} (m : gmap string X) t (x : X) : m !! t = Some x -> S (size (delete t m)) = size m.
Proof.
  intros Hx. rewrite <- (insert_delete_id m t x Hx) at 2.
  rewrite map_size_insert_None; [done|]. apply lookup_delete_eq.
Qed.

Lemma create_taken s t fn :
  createOnTxFuncs s !! t = Some fn -> S (chains (set_create s (delete t (createOnTxFuncs s)))) = chains s.
Proof.
  intros E. pose proof (size_taken _ _ _ E) as Hs. unfold chains, set_create.
  cbn [createOnTxFuncs updateOnTxFuncs deleteOnTxFuncs]. rewrite <- Hs. lia.
Qed.
Lemma update_taken s t fn :
  updateOnTxFuncs s !! t = Some fn -> S (chains (set_update s (delete t (updateOnTxFuncs s)))) = chains s.
Proof.
  intros E. pose proof (size_taken _ _ _ E) as Hs. unfold chains, set_update.
  cbn [createOnTxFuncs updateOnTxFuncs deleteOnTxFuncs]. rewrite <- Hs. lia.
Qed.
Lemma delete_taken s t fn :
  deleteOnTxFuncs s !! t = Some fn -> S (chains (set_delete s (delete t (deleteOnTxFuncs s)))) = chains s.
Proof.
  intros E. pose proof (size_taken _ _ _ E) as Hs. unfold chains, set_delete.
  cbn [createOnTxFuncs updateOnTxFuncs deleteOnTxFuncs]. rewrite <- Hs. lia.
Qed.

(** A chain that is taken out and put back leaves the chains as they were. *)
Lemma create_restored s t fn s1 :
  createOnTxFuncs s !! t = Some fn -> same_chains (set_create s (delete t (createOnTxFuncs s))) s1 ->
  same_chains s (set_create s1 (<[t := fn]> (createOnTxFuncs s1))).
Proof. intros Hf (H1 & H2 & H3). simpl in *. split_and!; simpl; [rewrite H1; by apply insert_delete_id|done..]. Qed.
Lemma update_restored s t fn s1 :
  updateOnTxFuncs s !! t = Some fn -> same_chains (set_update s (delete t (updateOnTxFuncs s))) s1 ->
  same_chains s (set_update s1 (<[t := fn]> (updateOnTxFuncs s1))).
Proof. intros Hf (H1 & H2 & H3). simpl in *. split_and!; simpl; [done|rewrite H2; by apply insert_delete_id|done]. Qed.
Lemma delete_restored s t fn s1 :
  deleteOnTxFuncs s !! t = Some fn -> same_chains (set_delete s (delete t (deleteOnTxFuncs s))) s1 ->
  same_chains s (set_delete s1 (<[t := fn]> (deleteOnTxFuncs s1))).
Proof. intros Hf (H1 & H2 & H3). simpl in *. split_and!; simpl; [done..|rewrite H3; by apply insert_delete_id]. Qed.

Lemma kept_panic {X} s s' m : kept s (s', Panic m : result X).
Proof. intros Hp. by destruct (Hp m). Qed.
Lemma kept_trans {X} s s' (o : scoped D W * result X) : same_chains s s' -> kept s' o -> kept s o.
Proof. intros Hs Ho Hp. transitivity s'; auto. Qed.
(** Putting the chain back after a run that kept the others. *)
Lemma kept_restore {X} s s0 s1 (r : result X) (back : scoped D W -> scoped D W) :
  kept s0 (s1, r) -> (same_chains s0 s1 -> same_chains s (back s1)) ->
  kept s (match r with Panic _ => s1 | _ => back s1 end, r).
Proof. intros Hk Hb. destruct r; try apply kept_panic; intros _; apply Hb, Hk; done. Qed.

Section Agree.
Context (n : nat) (call1 call2 : calls) (Hagree : agree n call1 call2).

Lemma create_chain_agree s t f obj :
  chains s <= n -> plain (f obj) ->
  with_create_chain call1 s t f obj = with_create_chain call2 s t f obj /\
  kept s (with_create_chain call1 s t f obj).
Proof.
  intros Hs Hf. unfold with_create_chain. destruct (createOnTxFuncs s !! t) as [fn|] eqn:E; [|by apply run_plain].
  destruct (run_agree n call1 call2 (fn f obj) (set_create s (delete t (createOnTxFuncs s)))) as [He Hk]; [done| |].
  { pose proof (create_taken _ _ _ E). lia. }
  rewrite <- He. destruct (run _ _ call1 _ _) as [s1 r]. split; [done|].
  apply (kept_restore s _ s1 r (fun s1 => set_create s1 (<[t := fn]> (createOnTxFuncs s1))) Hk).
  by apply create_restored.
Qed.
Lemma update_chain_agree s t f old new lcs :
  chains s <= n -> plain (f old new lcs) ->
  with_update_chain call1 s t f old new lcs = with_update_chain call2 s t f old new lcs /\
  kept s (with_update_chain call1 s t f old new lcs).
Proof.
  intros Hs Hf. unfold with_update_chain. destruct (updateOnTxFuncs s !! t) as [fn|] eqn:E; [|by apply run_plain].
  destruct (run_agree n call1 call2 (fn f old new lcs) (set_update s (delete t (updateOnTxFuncs s)))) as [He Hk]; [done| |].
  { pose proof (update_taken _ _ _ E). lia. }
  rewrite <- He. destruct (run _ _ call1 _ _) as [s1 r]. split; [done|].
  apply (kept_restore s _ s1 r (fun s1 => set_update s1 (<[t := fn]> (updateOnTxFuncs s1))) Hk).
  by apply update_restored.
Qed.
Lemma delete_chain_agree s t f criteria :
  chains s <= n -> plain (f [] criteria) ->
  with_delete_chain call1 s t f criteria = with_delete_chain call2 s t f criteria /\
  kept s (with_delete_chain call1 s t f criteria).
Proof.
  intros Hs Hf. unfold with_delete_chain. destruct (deleteOnTxFuncs s !! t) as [fn|] eqn:E; [|by apply run_plain].
  destruct (run_plain call1 call2 (raw (raw_list t criteria) (fun l => Ret (Ok l))) s) as [He0 Hk0]; [by apply plain_raw|].
  rewrite <- He0. destruct (run _ _ call1 (raw _ _) _) as [s0 r0]. destruct r0 as [objects|err|m];
    [|split; [done|]; intros _; by apply Hk0|split; [done|apply kept_panic]].
  assert (Hss : same_chains s s0) by (by apply Hk0).
  rewrite Hss in Hs. destruct Hss as (Hc & Hu & Hd). rewrite <- Hd in E.
  destruct (run_agree n call1 call2 (fn f objects criteria) (set_delete s0 (delete t (deleteOnTxFuncs s0)))) as [He Hk]; [done| |].
  { pose proof (delete_taken _ _ _ E). lia. }
  rewrite <- He. destruct (run _ _ call1 _ _) as [s1 r]. split; [done|].
  apply (kept_trans s s0); [done|].
  apply (kept_restore s0 _ s1 r (fun s1 => set_delete s1 (<[t := fn]> (deleteOnTxFuncs s1))) Hk).
  by apply delete_restored.
Qed.
End Agree.

(** What a function of the results does not change. *)
Lemma kept_map {X Y} s (o : scoped D W * result X) (g : result X -> result Y) :
  kept s o -> (forall m, g (Panic m) = Panic m) -> kept s (let '(s', r) := o in (s', g r)).
Proof. destruct o as [s' [x|err|m]]; intros Hk Hg; try (intros _; by apply Hk). rewrite Hg. apply kept_panic. Qed.

(** The result of a read, then a call that needs it. *)
Lemma read_agree {X Y} n (call1 call2 : calls) (p : prog (env D W) request X)
    (k1 k2 : X -> scoped D W -> scoped D W * result Y) s :
  plain p -> chains s <= n ->
  (forall x s, chains s <= n -> k1 x s = k2 x s /\ kept s (k1 x s)) ->
  (let '(s, r) := run scoped_env set_env call1 p s in
   match r with Ok x => k1 x s | Err e => (s, Err e) | Panic m => (s, Panic m) end) =
  (let '(s, r) := run scoped_env set_env call2 p s in
   match r with Ok x => k2 x s | Err e => (s, Err e) | Panic m => (s, Panic m) end) /\
  kept s (let '(s, r) := run scoped_env set_env call1 p s in
   match r with Ok x => k1 x s | Err e => (s, Err e) | Panic m => (s, Panic m) end).
Proof.
  intros Hp Hs Hk. destruct (run_plain call1 call2 p s Hp) as [He Hkept]. rewrite <- He.
  destruct (run _ _ call1 p s) as [s' [x|err|m]];
    [|split; [done|]; intros _; by apply Hkept|split; [done|apply kept_panic]].
  assert (Hss : same_chains s s') by (by apply Hkept).
  destruct (Hk x s') as [H1 H2]; [by rewrite <- Hss|]. split; [done|]. by apply (kept_trans s s').
Qed.

Section Calls.
Context (n : nat) (call1 call2 : calls) (Hagree : agree n call1 call2).

Lemma Create_agree obj s :
  chains s <= n -> scoped_Create call1 obj s = scoped_Create call2 obj s /\ kept s (scoped_Create call1 obj s).
Proof.
  intros Hs. unfold scoped_Create.
  destruct (create_chain_agree n call1 call2 Hagree s (res_type obj) createObjectFunc obj Hs (plain_create obj)) as [He Hk].
  rewrite <- He. split; [done|]. by apply (kept_map s _ single).
Qed.
Lemma Update_agree obj lcs criteria s :
  chains s <= n ->
  scoped_Update call1 obj lcs criteria s = scoped_Update call2 obj lcs criteria s /\
  kept s (scoped_Update call1 obj lcs criteria s).
Proof.
  intros Hs. unfold scoped_Update. apply (read_agree n); [by apply plain_raw|done|].
  intros old s' Hs'.
  destruct (update_chain_agree n call1 call2 Hagree s' (res_type obj) (updateObjFunc criteria) old obj lcs Hs'
    (plain_update _ _ _ _)) as [He Hk].
  rewrite <- He. split; [done|]. by apply (kept_map s' _ single).
Qed.
Lemma found_agree t i lcs criteria found s :
  chains s <= n ->
  update_found call1 t i lcs criteria found s = update_found call2 t i lcs criteria found s /\
  kept s (update_found call1 t i lcs criteria found s).
Proof.
  intros Hs. destruct found as [|obj [|obj' l]]; simpl; [split; [done|by intros _]| |split; [done|by intros _]].
  destruct (update_chain_agree n call1 call2 Hagree s t (updateLabelsFunc t i criteria obj) obj obj lcs Hs
    (plain_update_labels _ _ _ _ _ _ _)) as [He Hk].
  rewrite <- He. split; [done|]. by apply (kept_map s _ (fun r => no_object ((fun _ => tt) <$> r))).
Qed.
Lemma UpdateLabels_agree t i lcs criteria s :
  chains s <= n ->
  scoped_UpdateLabels call1 t i lcs criteria s = scoped_UpdateLabels call2 t i lcs criteria s /\
  kept s (scoped_UpdateLabels call1 t i lcs criteria s).
Proof.
  intros Hs. unfold scoped_UpdateLabels. apply (read_agree n); [by apply plain_raw|done|].
  intros found s' Hs'. by apply found_agree.
Qed.
Lemma Delete_agree t criteria s :
  chains s <= n ->
  scoped_Delete call1 t criteria s = scoped_Delete call2 t criteria s /\ kept s (scoped_Delete call1 t criteria s).
Proof.
  intros Hs. unfold scoped_Delete.
  destruct (delete_chain_agree n call1 call2 Hagree s t (deleteObjectFunc t) criteria Hs (plain_delete _ _ _)) as [He Hk].
  rewrite <- He. split; [done|]. by apply (kept_map s _ no_object).
Qed.
Lemma DeleteReturning_agree t criteria s :
  chains s <= n ->
  scoped_DeleteReturning call1 t criteria s = scoped_DeleteReturning call2 t criteria s /\
  kept s (scoped_DeleteReturning call1 t criteria s).
Proof.
  intros Hs. unfold scoped_DeleteReturning.
  destruct (delete_chain_agree n call1 call2 Hagree (set_env s (set_result (scoped_env s) [])) t (deleteReturningFunc t)
    criteria Hs (plain_delete_returning _ _ _)) as [He Hk].
  rewrite <- He. split; [done|].
  destruct (with_delete_chain call1 _ _ _ _) as [s1 [x|err|m]]; [| |apply kept_panic];
    intros _; exact (Hk ltac:(done)).
Qed.
End Calls.

Lemma scoped_call_agree n d1 d2 : n < d1 -> n < d2 -> agree (S n) (scoped_call d1) (scoped_call d2).
Proof.
  revert d1 d2. induction n as [|n IH]; intros [|d1] [|d2] H1 H2 q s Hs; try lia;
    [assert (Hag : agree 0 (scoped_call (W:=W) d1) (scoped_call d2)) by (intros q' s' Hs'; lia)
    |assert (Hag : agree (S n) (scoped_call (W:=W) d1) (scoped_call d2)) by (apply IH; lia)];
    destruct q; simpl; (eapply Create_agree || eapply Update_agree || eapply UpdateLabels_agree || eapply Delete_agree
                        || eapply DeleteReturning_agree); try exact Hag; lia.
Qed.
End Nested.

(** ** Properties of the registration of interceptors

    By induction on the registrations: the names of a chain are distinct and each has its
    hook, a new name comes next to its reference.  Two readings of the code follow: which
    registrations panic, and which hooks [InTransaction] leaves out. *)
(** ** Names *)
Lemma findName_Some l x i : findName l x = Some i -> exists l1 l2, l = (l1 ++ x :: l2)%list /\ length l1 = i /\ x ∉ l1.
Proof.
  revert i. induction l as [|y l IH]; intros i; simpl; [done|].
  destruct (String.eqb_spec y x) as [->|Hne].
  - intros [= <-]. exists [], l. split_and!; [done..|apply not_elem_of_nil].
  - destruct (findName l x) as [j|]; simpl; [|done]. intros [= <-].
    destruct (IH j eq_refl) as (l1 & l2 & -> & <- & Hn). exists (y :: l1), l2.
    split_and!; [done..|]. rewrite not_elem_of_cons. by split; [intros ->|].
Qed.
Lemma findName_None l x : findName l x = None <-> x ∉ l.
Proof.
  induction l as [|y l IH]; simpl; [by split; [intros _; apply not_elem_of_nil|]|].
  rewrite not_elem_of_cons. destruct (String.eqb_spec y x) as [->|Hne]; [naive_solver|].
  rewrite <- IH. destruct (findName l x); naive_solver.
Qed.
Lemma providerWithNameExists_spec l x : providerWithNameExists l x = true <-> x ∈ l.
Proof.
  induction l as [|y l IH]; simpl; [split; [done|by intros ?%elem_of_nil]|].
  rewrite orb_true_iff, IH, elem_of_cons, String.eqb_eq. naive_solver.
Qed.

(** Where the new name goes: at the end, or next to its reference. *)
Definition placed (names : list string) (position : InterceptorPosition) (name : string) (names' : list string) : Prop :=
  match PositionType_ position with
  | PositionNone => names' = (names ++ [name])%list
  | t => exists l1 l2, names = (l1 ++ PositionName position :: l2)%list /\ PositionName position ∉ l1 /\
      names' = (if decide (t = PositionAfter) then l1 ++ PositionName position :: name :: l2
                else l1 ++ name :: PositionName position :: l2)%list
  end.
Lemma findName_at l1 x l2 : x ∉ l1 -> findName (l1 ++ x :: l2)%list x = Some (length l1).
Proof.
  induction l1 as [|y l1 IH]; simpl; [by rewrite String.eqb_refl|].
  rewrite not_elem_of_cons. intros [Hy Hi]. rewrite (IH Hi). destruct (String.eqb_spec y x); [congruence|done].
Qed.
Lemma insert_before l1 x l2 name : insert_at (l1 ++ x :: l2) (length l1) name = (l1 ++ name :: x :: l2)%list.
Proof. unfold insert_at. by rewrite take_app_length, drop_app_length. Qed.
Lemma insert_after l1 x l2 name : insert_at (l1 ++ x :: l2) (S (length l1)) name = (l1 ++ x :: name :: l2)%list.
Proof.
  unfold insert_at. replace (l1 ++ x :: l2)%list with ((l1 ++ [x]) ++ l2)%list by (by rewrite <- app_assoc).
  rewrite take_app_length', drop_app_length' by (rewrite length_app; simpl; lia). by rewrite <- app_assoc.
Qed.
Lemma insertName_placed names position name names' :
  insertName names position name = Ok names' <-> placed names position name names'.
Proof.
  unfold insertName, placed. destruct (PositionType_ position) eqn:Et; [naive_solver|..];
    rewrite ?bool_decide_false, ?bool_decide_true by done;
    (split; [destruct (findName names _) as [i|] eqn:Ef; [|done]; intros [= <-];
             destruct (findName_Some _ _ _ Ef) as (l1 & l2 & -> & <- & Hi); exists l1, l2
            |intros (l1 & l2 & -> & Hi & ->); rewrite (findName_at _ _ _ Hi)]);
    rewrite ?insert_before, ?insert_after, ?decide_False, ?decide_True by done; done.
Qed.
Lemma placed_perm names position name names' : placed names position name names' -> names' ≡ₚ name :: names.
Proof.
  unfold placed. destruct (PositionType_ position); [intros ->; symmetry; apply Permutation_cons_append|..];
    intros (l1 & l2 & -> & _ & ->); [rewrite decide_False by done|rewrite decide_True by done].
  - symmetry. apply Permutation_middle.
  - rewrite <- (Permutation_middle l1), <- (Permutation_middle l1). rewrite <- (Permutation_middle l1 l2). apply Permutation_swap.
Qed.

(** ** Registrations *)
Section Registered.
Context {A T : Type}.
Implicit Types g : registry A T.

Inductive registered : registry A T -> Prop :=
  | registered_empty : registered empty_registry
  | registered_around g t name hook order g' :
      registered g -> AddAroundTxProvider g t name hook order = Ok g' -> registered g'
  | registered_on g t name hook order g' :
      registered g -> AddOnTxProvider g t name hook order = Ok g' -> registered g'
  | registered_both g t name hooks order g' :
      registered g -> AddProvider g t name hooks order = Ok g' -> registered g'.

Lemma of_type_insert {X} (m : gmap string (gmap string X)) t x t' :
  of_type (<[t := x]> m) t' = if decide (t' = t) then x else of_type m t'.
Proof. unfold of_type. destruct (decide (t' = t)) as [->|Hne]; [by rewrite lookup_insert_eq|by rewrite lookup_insert_ne]. Qed.
Lemma names_of_insert (m : gmap string (list string)) t x t' :
  names_of (<[t := x]> m) t' = if decide (t' = t) then x else names_of m t'.
Proof. unfold names_of. destruct (decide (t' = t)) as [->|Hne]; [by rewrite lookup_insert_eq|by rewrite lookup_insert_ne]. Qed.
Lemma elem_of_keys {X} (m : gmap string X) x : x ∈ Interceptors.keys_of m <-> x ∈ dom m.
Proof.
  unfold Interceptors.keys_of. change (map fst (map_to_list m)) with ((map_to_list m).*1).
  rewrite list_elem_of_fmap, elem_of_dom. split.
  - intros ([k v] & -> & Hk%elem_of_map_to_list). simpl. eauto.
  - intros [v Hv]. exists (x, v). by rewrite elem_of_map_to_list.
Qed.
Lemma elem_of_existing g t x :
  x ∈ existing_names g t <->
  x ∈ dom (of_type (aroundTxProviders g) t) \/ x ∈ dom (of_type (onTxProviders g) t) \/ x ∈ dom (of_type (providers g) t).
Proof. unfold existing_names. by rewrite !elem_of_app, !elem_of_keys. Qed.

(** The references of an order are among the names. *)
Definition refers (position : InterceptorPosition) (names : list string) : Prop :=
  PositionType_ position = PositionNone \/ PositionName position ∈ names.
Lemma check_position_ok position names u : check_position position names = Ok u <-> refers position names.
Proof.
  unfold check_position, refers, must. destruct u. case_bool_decide as Hp; [naive_solver|].
  rewrite <- providerWithNameExists_spec. destruct (providerWithNameExists _ _); naive_solver.
Qed.
Lemma validateProviders_ok g t name order u :
  validateProviders g t name order = Ok u <->
  name ∉ existing_names g t /\ refers (AroundTxPosition order) (existing_names g t) /\
  refers (OnTxPosition order) (existing_names g t).
Proof.
  unfold validateProviders, validateProviderOrder, must.
  rewrite <- !check_position_ok, <- providerWithNameExists_spec. destruct u.
  destruct (providerWithNameExists _ _); simpl; [naive_solver|].
  destruct (check_position (AroundTxPosition order) _) as [[]|e|m]; simpl; naive_solver.
Qed.

Lemma AddAroundTxProvider_ok g t name hook order g' :
  AddAroundTxProvider g t name hook order = Ok g' ->
  name ∉ existing_names g t /\
  exists names, placed (names_of (orderedAroundTxProvidersNames g) t) (AroundTxPosition order) name names /\
    g' = {| orderedAroundTxProvidersNames := <[t := names]> (orderedAroundTxProvidersNames g);
            orderedOnTxProvidersNames := orderedOnTxProvidersNames g; providers := providers g;
            aroundTxProviders := <[t := <[name := hook]> (of_type (aroundTxProviders g) t)]> (aroundTxProviders g);
            onTxProviders := onTxProviders g |}.
Proof.
  unfold AddAroundTxProvider. destruct (validateProviders g t name order) eqn:Ev; simpl; try done.
  apply validateProviders_ok in Ev as (Hn & _).
  destruct (insertName _ _ _) as [names| |] eqn:Ei; simpl; try done. intros [= <-].
  apply insertName_placed in Ei. eauto.
Qed.
Lemma AddOnTxProvider_ok g t name hook order g' :
  AddOnTxProvider g t name hook order = Ok g' ->
  name ∉ existing_names g t /\
  exists names, placed (names_of (orderedOnTxProvidersNames g) t) (OnTxPosition order) name names /\
    g' = {| orderedAroundTxProvidersNames := orderedAroundTxProvidersNames g;
            orderedOnTxProvidersNames := <[t := names]> (orderedOnTxProvidersNames g); providers := providers g;
            aroundTxProviders := aroundTxProviders g;
            onTxProviders := <[t := <[name := hook]> (of_type (onTxProviders g) t)]> (onTxProviders g) |}.
Proof.
  unfold AddOnTxProvider. destruct (validateProviders g t name order) eqn:Ev; simpl; try done.
  apply validateProviders_ok in Ev as (Hn & _).
  destruct (insertName _ _ _) as [names| |] eqn:Ei; simpl; try done. intros [= <-].
  apply insertName_placed in Ei. eauto.
Qed.
Lemma AddProvider_ok g t name hooks order g' :
  AddProvider g t name hooks order = Ok g' ->
  name ∉ existing_names g t /\
  exists around on, placed (names_of (orderedAroundTxProvidersNames g) t) (AroundTxPosition order) name around /\
    placed (names_of (orderedOnTxProvidersNames g) t) (OnTxPosition order) name on /\
    g' = {| orderedAroundTxProvidersNames := <[t := around]> (orderedAroundTxProvidersNames g);
            orderedOnTxProvidersNames := <[t := on]> (orderedOnTxProvidersNames g);
            providers := <[t := <[name := hooks]> (of_type (providers g) t)]> (providers g);
            aroundTxProviders := aroundTxProviders g; onTxProviders := onTxProviders g |}.
Proof.
  unfold AddProvider. destruct (validateProviders g t name order) eqn:Ev; simpl; try done.
  apply validateProviders_ok in Ev as (Hn & _).
  destruct (insertName _ (AroundTxPosition order) _) as [around| |] eqn:Ei; simpl; try done.
  destruct (insertName _ (OnTxPosition order) _) as [on| |] eqn:Ej; simpl; try done. intros [= <-].
  apply insertName_placed in Ei. apply insertName_placed in Ej. eauto 6.
Qed.

(** ** The invariant *)
Record reg_inv g t : Prop := {
  around_nodup : NoDup (names_of (orderedAroundTxProvidersNames g) t);
  on_nodup : NoDup (names_of (orderedOnTxProvidersNames g) t);
  around_names : forall x, x ∈ names_of (orderedAroundTxProvidersNames g) t <->
    x ∈ dom (of_type (aroundTxProviders g) t) \/ x ∈ dom (of_type (providers g) t);
  on_names : forall x, x ∈ names_of (orderedOnTxProvidersNames g) t <->
    x ∈ dom (of_type (onTxProviders g) t) \/ x ∈ dom (of_type (providers g) t);
  around_both : dom (of_type (aroundTxProviders g) t) ## dom (of_type (providers g) t);
  on_both : dom (of_type (onTxProviders g) t) ## dom (of_type (providers g) t)
}.

Lemma placed_nodup names position name names' :
  placed names position name names' -> name ∉ names -> NoDup names -> NoDup names'.
Proof. intros ->%placed_perm Hn Hd. by constructor. Qed.
Lemma elem_of_placed names position name names' x :
  placed names position name names' -> x ∈ names' <-> x = name \/ x ∈ names.
Proof. intros ->%placed_perm. apply elem_of_cons. Qed.

Lemma registered_inv g : registered g -> forall t, reg_inv g t.
Proof.
  induction 1 as [|g t name hook order g' _ IH Hadd|g t name hook order g' _ IH Hadd|g t name hooks order g' _ IH Hadd];
    intros t'.
  - split; unfold names_of, of_type; simpl; rewrite ?lookup_empty; simpl; try constructor; set_solver.
  - apply AddAroundTxProvider_ok in Hadd as (Hn & names & Hp & ->). rewrite elem_of_existing in Hn.
    specialize (IH t'). destruct (decide (t' = t)) as [->|Hne].
    + destruct IH. split; simpl; rewrite ?of_type_insert, ?names_of_insert, ?decide_True by done; try done.
      * eapply placed_nodup; eauto. rewrite around_names0. naive_solver.
      * intros x. rewrite (elem_of_placed _ _ _ _ _ Hp), around_names0. set_solver.
      * set_solver.
    + destruct IH. split; simpl; rewrite ?of_type_insert, ?names_of_insert, ?decide_False by done; done.
  - apply AddOnTxProvider_ok in Hadd as (Hn & names & Hp & ->). rewrite elem_of_existing in Hn.
    specialize (IH t'). destruct (decide (t' = t)) as [->|Hne].
    + destruct IH. split; simpl; rewrite ?of_type_insert, ?names_of_insert, ?decide_True by done; try done.
      * eapply placed_nodup; eauto. rewrite on_names0. naive_solver.
      * intros x. rewrite (elem_of_placed _ _ _ _ _ Hp), on_names0. set_solver.
      * set_solver.
    + destruct IH. split; simpl; rewrite ?of_type_insert, ?names_of_insert, ?decide_False by done; done.
  - apply AddProvider_ok in Hadd as (Hn & around & on & Hp & Hq & ->). rewrite elem_of_existing in Hn.
    specialize (IH t'). destruct (decide (t' = t)) as [->|Hne].
    + destruct IH. split; simpl; rewrite ?of_type_insert, ?names_of_insert, ?decide_True by done.
      * eapply placed_nodup; eauto. rewrite around_names0. naive_solver.
      * eapply placed_nodup; eauto. rewrite on_names0. naive_solver.
      * intros x. rewrite (elem_of_placed _ _ _ _ _ Hp), around_names0. set_solver.
      * intros x. rewrite (elem_of_placed _ _ _ _ _ Hq), on_names0. set_solver.
      * set_solver.
      * set_solver.
    + destruct IH. split; simpl; rewrite ?of_type_insert, ?names_of_insert, ?decide_False by done; done.
Qed.
End Registered.
