(* ===== verification/InterceptorsTheorems.v ===== *)
(** * Theorems about the interceptable repository

    Nested calls end, registrations keep every hook, calls run the hooks in their order
    around and inside one transaction. *)

From S2P Require Import Prelude GoStd GoSlice Errors Query Labels OperationTypes Repository Interceptors TransactionalRepository InterceptorsProps.
From stdpp Require Import base gmap strings list.
From Stdlib Require Import Lia.
Local Open Scope string_scope.

(** ** Termination *)

(** C34: hooks may call the repository of their transaction, which runs hooks again, without
    end only if the stack is shallow: the chain that runs is taken out, so a stack deeper
    than the number of chains is never exhausted (a deeper one gives the same), and after
    a call that does not panic every chain is back in its place. *)
Theorem nested_calls_terminate {D W : Type} `{GrowPolicy} `{RawRepository D} (q : request) (s : scoped D W) (depth : nat) :
  chains s < depth ->
  scoped_call depth q s = scoped_call (S (chains s)) q s /\
  forall s' r, scoped_call depth q s = (s', r) -> no_panic r -> same_chains s s'.
Proof.
  intros Hd. destruct (scoped_call_agree (W:=W) (chains s) depth (S (chains s)) Hd ltac:(lia) q s ltac:(lia)) as [He Hk].
  split; [done|]. intros s' r Hr Hp. rewrite Hr in Hk. by apply Hk.
Qed.

(** ** Registration *)
Section Registration.
Context {A T : Type}.
Implicit Types g : registry A T.

(** Ordered names and hooks of a chain fit together. *)
Record chain_complete (c : interceptorChain A T) : Prop := {
  aroundTxNames_nodup : NoDup (aroundTxNames c);
  onTxNames_nodup : NoDup (onTxNames c);
  aroundTxFuncs_named : forall name, name ∈ aroundTxNames c <-> is_Some (aroundTxFuncs c !! name);
  onTxFuncs_named : forall name, name ∈ onTxNames c <-> is_Some (onTxFuncs c !! name)
}.

Lemma disjoint_lookup {X Y} (m : gmap string X) (m' : gmap string Y) name x :
  dom m ## dom m' -> m !! name = Some x -> m' !! name = None.
Proof. intros Hd Hx. apply not_elem_of_dom. apply elem_of_dom_2 in Hx. set_solver. Qed.

Lemma chain_funcs g t :
  (forall x, x ∈ dom (aroundTxFuncs (newInterceptorChain g t)) <->
     x ∈ dom (of_type (aroundTxProviders g) t) \/ x ∈ dom (of_type (providers g) t)) /\
  (forall x, x ∈ dom (onTxFuncs (newInterceptorChain g t)) <->
     x ∈ dom (of_type (onTxProviders g) t) \/ x ∈ dom (of_type (providers g) t)).
Proof. split; intros x; simpl; rewrite dom_union_L, elem_of_union, dom_fmap_L; naive_solver. Qed.

(** Whatever the sequence of registrations, the chain of every type runs every
    registered hook exactly once: names are distinct, each has its hook, and it is the hook
    the provider of that name gave. *)
Theorem registered_hooks_complete (g : registry A T) (t : string) :
  registered g ->
  chain_complete (newInterceptorChain g t) /\
  (forall name h, of_type (aroundTxProviders g) t !! name = Some h ->
     aroundTxFuncs (newInterceptorChain g t) !! name = Some h) /\
  (forall name h, of_type (onTxProviders g) t !! name = Some h ->
     onTxFuncs (newInterceptorChain g t) !! name = Some h) /\
  (forall name h, of_type (providers g) t !! name = Some h ->
     aroundTxFuncs (newInterceptorChain g t) !! name = Some h.1 /\ onTxFuncs (newInterceptorChain g t) !! name = Some h.2).
Proof.
  intros Hg. destruct (registered_inv g Hg t), (chain_funcs g t) as [Ha Ho]. split_and!.
  - split; [done..| |]; intros name; rewrite <- elem_of_dom, ?Ha, ?Ho; simpl; auto.
  - intros name h Hh. simpl. rewrite lookup_union_r; [done|]. rewrite lookup_fmap, (disjoint_lookup _ _ _ _ around_both Hh). done.
  - intros name h Hh. simpl. rewrite lookup_union_r; [done|]. rewrite lookup_fmap, (disjoint_lookup _ _ _ _ on_both Hh). done.
  - intros name h Hh. simpl. split; apply lookup_union_Some_l; by rewrite lookup_fmap, Hh.
Qed.

Lemma insertName_cases names position name :
  (refers position names /\ exists names', insertName names position name = Ok names' /\ placed names position name names') \/
  (~ refers position names /\ exists m, insertName names position name = Panic m).
Proof.
  destruct (insertName names position name) as [names'|e|m] eqn:E.
  - left. pose proof E as Hp. apply insertName_placed in Hp. split; [|by eauto].
    unfold placed, refers in *. destruct (PositionType_ position); [by left|..]; right;
      destruct Hp as (l1 & l2 & -> & _ & _); set_solver.
  - unfold insertName in E. destruct (PositionType_ position); [done|..]; by destruct (findName _ _).
  - right. split; [|by eauto]. unfold insertName in E. intros [Hn|Hin]; [by rewrite Hn in E|].
    destruct (PositionType_ position); [done|..];
      (destruct (findName names (PositionName position)) eqn:Ef; [done|]; by apply findName_None in Ef).
Qed.

Lemma check_position_no_error position names e : check_position position names <> Err e.
Proof. unfold check_position, must. case_bool_decide; [done|]. by destruct (providerWithNameExists _ _). Qed.
Lemma validateProviders_no_error g t name order e : validateProviders g t name order <> Err e.
Proof.
  unfold validateProviders, validateProviderOrder, must at 1. destruct (negb _); simpl; [|done].
  destruct (check_position (AroundTxPosition order) _) as [[]|e'|m] eqn:E; simpl;
    [apply check_position_no_error|by apply check_position_no_error in E|done].
Qed.

(** Registering a provider of both hooks succeeds exactly when its name is new and the
    references of its two positions are in the list of names of that position; it then
    comes next to each reference, or last.  Otherwise it panics: also for a reference that
    is registered, but with the other kind of hook only, which [validateProviders] accepts. *)
Theorem registration_outcome (g : registry A T) (t name : string) (hooks : A * T) (order : InterceptorOrder) :
  registered g ->
  let around := names_of (orderedAroundTxProvidersNames g) t in
  let on := names_of (orderedOnTxProvidersNames g) t in
  (name ∉ existing_names g t /\ refers (AroundTxPosition order) around /\ refers (OnTxPosition order) on /\
   exists g', AddProvider g t name hooks order = Ok g' /\
     placed around (AroundTxPosition order) name (names_of (orderedAroundTxProvidersNames g') t) /\
     placed on (OnTxPosition order) name (names_of (orderedOnTxProvidersNames g') t)) \/
  (~ (name ∉ existing_names g t /\ refers (AroundTxPosition order) around /\ refers (OnTxPosition order) on) /\
   exists m, AddProvider g t name hooks order = Panic m).
Proof.
  intros Hg around on. pose proof (registered_inv g Hg t) as Hi.
  assert (Hin : forall p names, refers p names -> (forall x, x ∈ names -> x ∈ existing_names g t) -> refers p (existing_names g t)).
  { unfold refers. naive_solver. }
  assert (Ha : forall x, x ∈ around -> x ∈ existing_names g t).
  { intros x Hx%(around_names _ _ Hi). rewrite elem_of_existing. tauto. }
  assert (Ho : forall x, x ∈ on -> x ∈ existing_names g t).
  { intros x Hx%(on_names _ _ Hi). rewrite elem_of_existing. tauto. }
  unfold AddProvider. fold around on.
  destruct (validateProviders g t name order) as [[]|e|m] eqn:Ev; simpl.
  - apply validateProviders_ok in Ev as (Hn & _ & _).
    destruct (insertName_cases around (AroundTxPosition order) name) as [[Hra (an & -> & Hpa)]|[Hra (m & ->)]]; simpl; [|right; naive_solver].
    destruct (insertName_cases on (OnTxPosition order) name) as [[Hro (o & -> & Hpo)]|[Hro (m & ->)]]; simpl; [|right; naive_solver].
    left. split; [done|]. split; [done|]. split; [done|]. eexists. split; [reflexivity|]. simpl.
    rewrite !names_of_insert, !decide_True by done. done.
  - by apply validateProviders_no_error in Ev.
  - right. split; [|by eauto]. intros (Hn & Hra & Hro).
    assert (Hv : validateProviders g t name order = Ok tt); [|congruence].
    apply validateProviders_ok. eauto.
Qed.
End Registration.

(** ** The chains of a call *)
Section Provided.
Context {A T : Type}.
Implicit Types g : registry A T.

Lemma elem_of_merged g t :
  t ∈ mergeObjectTypes g <-> t ∈ dom (orderedAroundTxProvidersNames g) \/ t ∈ dom (orderedOnTxProvidersNames g).
Proof.
  unfold mergeObjectTypes. rewrite elem_of_app, elem_of_keys.
  rewrite (list_elem_of_In (List.filter _ _)), filter_In, <- list_elem_of_In, elem_of_keys.
  rewrite negb_true_iff, bool_decide_eq_false, <- elem_of_dom.
  destruct (decide (t ∈ dom (orderedAroundTxProvidersNames g))); naive_solver.
Qed.
Lemma nodup_keys {X} (m : gmap string X) : NoDup (Interceptors.keys_of m).
Proof. apply (NoDup_fst_map_to_list m). Qed.
Lemma lookup_list_to_map_keys {X} (ks : list string) (f : string -> X) t :
  (list_to_map (map (fun k => (k, f k)) ks) : gmap string X) !! t = if decide (t ∈ ks) then Some (f t) else None.
Proof.
  induction ks as [|k ks IH]; cbn [map list_to_map foldr fst snd].
  { rewrite lookup_empty. case_decide as Ht; [by apply elem_of_nil in Ht|done]. }
  destruct (decide (t = k)) as [->|Hne].
  - rewrite lookup_insert_eq, decide_True; [done|]. by left.
  - rewrite lookup_insert_ne, IH by done. destruct (decide (t ∈ ks)), (decide (t ∈ k :: ks)); set_solver.
Qed.

Lemma provided_lookup g t :
  (provided g !! t = Some (newInterceptorChain g t)) \/
  (provided g !! t = None /\ aroundTxNames (newInterceptorChain g t) = [] /\ onTxNames (newInterceptorChain g t) = []).
Proof.
  unfold provided. rewrite lookup_list_to_map_keys. case_decide as Ht; [by left|right].
  rewrite elem_of_merged in Ht. simpl. unfold names_of. split; [done|].
  split; rewrite (not_elem_of_dom_1 _ t) by tauto; done.
Qed.
End Provided.

(** All hooks of a chain, in order. *)
Lemma around_nest {F T} (g : registry (F -> F) T) t (f : F) :
  let c := newInterceptorChain g t in
  around (provided g) t f = nest (hooks (aroundTxNames c) (aroundTxFuncs c)) f.
Proof.
  simpl. unfold around, AroundTx. destruct (provided_lookup g t) as [->|(-> & Hn & _)].
  - apply wrap_nest.
  - simpl in Hn. by rewrite Hn.
Qed.

Lemma OnTx_nest {A F} (c : interceptorChain A (F -> F)) (f : F) : OnTx c f = nest (hooks (onTxNames c) (onTxFuncs c)) f.
Proof. apply wrap_nest. Qed.

(** ** The transactions at the end of the chains *)
Section Runs.
Context {D W : Type} `{GrowPolicy} `{RawRepository D}.
Implicit Types itr : @InterceptableTransactionalRepository D W.

(** The repository of the transaction while the chain of creations of [t] runs. *)
Definition without_create itr (t : string) (e : env D W) : scoped D W :=
  let s := newScopedRepositoryWithInterceptors itr e in set_create s (delete t (createOnTxFuncs s)).

Lemma create_onTx call itr t (f : create_func D W request) obj e :
  let o1 := with_create_chain call (newScopedRepositoryWithInterceptors itr e) t f obj in
  let o2 := run scoped_env set_env call (OnTx (newInterceptorChain (create_registry itr) t) f obj) (without_create itr t e) in
  scoped_env o1.1 = scoped_env o2.1 /\ o1.2 = o2.2.
Proof.
  unfold with_create_chain, without_create. cbn [newScopedRepositoryWithInterceptors
    newScopedRepositoryWithOnTxInterceptors createOnTxFuncs]. rewrite lookup_fmap.
  destruct (provided_lookup (create_registry itr) t) as [Hp|(Hp & _ & Hn)]; rewrite Hp; cbn [fmap option_fmap option_map].
  - by destruct (run _ _ call _ _) as [s1 [x|err|m]].
  - rewrite OnTx_nest, Hn, delete_id; [done|]. by rewrite lookup_fmap, Hp.
Qed.

(** Creating an object runs the hooks around the transaction in their order, the first
    outermost, and then in a transaction, rolled back on failure, the hooks inside it in
    their order around the creation in the raw repository, with the chain that runs taken
    out of the repository they are given. *)
Theorem create_runs_hooks_in_order itr (depth : nat) (obj : resource) (e : env D W) :
  let c := newInterceptorChain (create_registry itr) (res_type obj) in
  itr_call (S (S depth)) itr (Outer (RCreate obj)) e =
    (let '(e', r) := run (fun e => e) (fun _ e => e) (itr_call (S depth) itr)
       (nest (hooks (aroundTxNames c) (aroundTxFuncs c))
          (fun o => call_object (Final (RCreate o)) (fun o => Ret (Ok o))) obj) e in
     (e', single r)) /\
  itr_call (S (S depth)) itr (Final (RCreate obj)) e =
    in_transaction e (fun e =>
      let '(s, r) := run scoped_env set_env (scoped_call depth)
        (nest (hooks (onTxNames c) (onTxFuncs c)) createObjectFunc obj) (without_create itr (res_type obj) e) in
      (scoped_env s, single r)).
Proof.
  intros c. split.
  - cbn [itr_call]. unfold itr_Create, create_chain. by rewrite around_nest.
  - cbn [itr_call]. unfold finalInterceptor, in_transaction. destruct (raw_begin (data e)); [|done..].
    cbn [scoped_call assigned]. unfold scoped_Create. rewrite <- OnTx_nest.
    destruct (create_onTx (scoped_call depth) itr (res_type obj) createObjectFunc obj e) as [He Hr].
    fold c in He, Hr.
    destruct (with_create_chain _ _ _ _ _) as [s1 r1], (run _ _ (scoped_call depth) _ _) as [s2 r2].
    simpl in He, Hr. subst r2. by rewrite He.
Qed.

(** A transaction that fails leaves the database as it was; one that does not was committed. *)
Lemma transaction_atomic {X} (e e' : env D W) (f : env D W -> env D W * result X) r :
  in_transaction e f = (e', r) ->
  match r with Ok x => (exists e1, f e = (e1, Ok x) /\ e' = e1) /\ raw_commit (data e') = Ok tt | _ => data e' = data e end.
Proof.
  unfold in_transaction. destruct (raw_begin (data e)) as [[]|err|m]; [|by intros [= <- <-]..].
  destruct (f e) as [e1 [x|err|m]]; [|by intros [= <- <-]..].
  destruct (raw_commit (data e1)) as [[]|err|m] eqn:Ec; intros [= <- <-]; eauto.
Qed.
End Runs.

(** ** Transactions of the caller *)
Lemma lookup_providedOnTx {A F} (g : registry A (F -> F)) t :
  providedOnTx g !! t =
  if decide (t ∈ dom (onTxProviders g))
  then Some (wrap (names_of (orderedOnTxProvidersNames g) t) (of_type (onTxProviders g) t)) else None.
Proof.
  unfold providedOnTx, newOnTxInterceptorChain.
  rewrite (lookup_list_to_map_keys (Interceptors.keys_of (onTxProviders g))
    (fun t => wrap (names_of (orderedOnTxProvidersNames g) t) (of_type (onTxProviders g) t)) t).
  destruct (decide (t ∈ Interceptors.keys_of (onTxProviders g))) as [Ht|Ht]; rewrite elem_of_keys in Ht;
    destruct (decide (t ∈ dom (onTxProviders g))); tauto.
Qed.

Lemma hooks_filter {F} (names : list string) (m : gmap string (F -> F)) (P : string -> Prop) `{!forall x, Decision (P x)}
    (m' : gmap string (F -> F)) :
  (forall x, x ∈ names -> m !! x = if decide (P x) then m' !! x else None) ->
  hooks names m = hooks (filter P names) m'.
Proof.
  induction names as [|x names IH]; intros Hm; [done|].
  assert (IH' : hooks names m = hooks (filter P names) m') by (apply IH; intros y Hy; apply Hm; by right).
  assert (Hcons : forall l (k : gmap string (F -> F)),
    hooks (x :: l) k = match k !! x with Some h => h :: hooks l k | None => hooks l k end) by done.
  rewrite filter_cons, Hcons, IH', (Hm x) by (by left).
  destruct (decide (P x)); [by rewrite Hcons|done].
Qed.

(** [InTransaction] does not run all the hooks inside the transaction that the other
    calls run: it leaves out exactly the hooks of the providers registered for both, and
    keeps the order of the others. *)
Theorem in_transaction_skips_combined {A F : Type} (g : registry A (F -> F)) (t : string) (f : F) :
  registered g ->
  let c := newInterceptorChain g t in
  match providedOnTx g !! t with Some chain => chain f | None => f end =
  nest (hooks (filter (fun name => of_type (providers g) t !! name = None) (onTxNames c)) (onTxFuncs c)) f.
Proof.
  intros Hg c. pose proof (registered_inv g Hg t) as Hi.
  assert (Hh : hooks (onTxNames c) (of_type (onTxProviders g) t) =
    hooks (filter (fun name => of_type (providers g) t !! name = None) (onTxNames c)) (onTxFuncs c)).
  { apply hooks_filter. intros x Hx. subst c. simpl in *. case_decide as Hd.
    - rewrite lookup_union_r; [done|]. by rewrite lookup_fmap, Hd.
    - destruct (of_type (onTxProviders g) t !! x) eqn:E; [|done].
      by rewrite (disjoint_lookup _ _ _ _ (on_both _ _ Hi) E) in Hd. }
  rewrite lookup_providedOnTx, <- Hh. case_decide as Hd; [apply wrap_nest|].
  assert (He : forall x, of_type (onTxProviders g) t !! x = None).
  { intros x. unfold of_type. rewrite (not_elem_of_dom_1 _ _ Hd). apply lookup_empty. }
  assert (Hn : hooks (onTxNames c) (of_type (onTxProviders g) t) = []); [|by rewrite Hn].
  apply elem_of_nil_inv. intros h (x & _ & Hx)%list_elem_of_omap. by rewrite He in Hx.
Qed.

(** ** The theorems about interceptors at work

    A raw repository that is a list of objects, and hooks that write a log; the hook [deep]
    inside the transaction creates a second object of the same type through the repository
    it is given, which does not run the chain again. *)
Notation store := (list resource).
Notation journal := (list string).

Definition by_id (t id : string) (d : store) : list resource :=
  filter (fun o => res_type o = t /\ res_id o = id) d.
#[export] Instance list_repository : RawRepository store := {|
  raw_create := fun o d =>
    match by_id (res_type o) (res_id o) d with [] => ((d ++ [o])%list, Ok o) | _ => (d, Err EAlreadyExistsInStorage) end;
  raw_get := fun t i d => (d, match by_id t i d with o :: _ => Ok o | [] => Err ENotFoundInStorage end);
  raw_list := fun t _ d => (d, Ok (filter (fun o => res_type o = t) d));
  raw_list_no_labels := fun t _ d => (d, Ok (filter (fun o => res_type o = t) d));
  raw_update := fun o _ _ d => (d, Ok o);
  raw_update_labels := fun _ _ _ _ d => (d, Ok tt);
  raw_delete := fun t _ d => (filter (fun o => res_type o <> t) d, Ok tt);
  raw_delete_returning := fun t _ d => (filter (fun o => res_type o <> t) d, Ok (filter (fun o => res_type o = t) d));
  raw_begin := fun _ => Ok tt;
  raw_commit := fun _ => Ok tt;
  GetLabels := fun _ => ∅;
  SetLabels := fun _ o => o
|}.

Definition object (id : string) : resource :=
  {| res_type := "thing"; res_id := id; res_ready := false; res_usable := false; res_data := no_data |}.
Definition start : env store journal := {| data := []; world := []; operation := None; resultList := [] |}.
Definition write (line : string) (e : env store journal) : env store journal :=
  {| data := data e; world := (world e ++ [line])%list; operation := operation e; resultList := resultList e |}.

(** A hook that writes to the log. *)
Definition logged {Q X Y} (name : string) (f : X -> prog (env store journal) Q Y) (x : X) : prog (env store journal) Q Y :=
  Act (write name) (fun _ => f x).
(** A hook that creates another object first. *)
Definition deep (f : create_func store journal request) : create_func store journal request := fun obj =>
  Act (write "deep") (fun _ => Call (RCreate (object "child")) (fun _ => f obj)).

Definition position (t : PositionType) (name : string) : InterceptorPosition := {| PositionType_ := t; PositionName := name |}.
Definition unordered : InterceptorOrder :=
  {| OnTxPosition := position PositionNone ""; AroundTxPosition := position PositionNone "" |}.
Definition first : InterceptorOrder :=
  {| OnTxPosition := position PositionBefore "deep"; AroundTxPosition := position PositionNone "" |}.

Definition itr0 : @InterceptableTransactionalRepository store journal := NewInterceptableTransactionalRepository.
(** [deep] inside the transaction, then [both] around and, before [deep], inside. *)
Definition itr1 : result InterceptableTransactionalRepository :=
  let* itr := AddCreateOnTxInterceptorProvider itr0 "thing" "deep" deep unordered in
  AddCreateInterceptorProvider itr "thing" "both" (logged "around", logged "inside") first.
Definition itr2 : @InterceptableTransactionalRepository store journal := match itr1 with Ok itr => itr | _ => itr0 end.

(** The log, the ids in the store and those of the result. *)
Definition shown (o : env store journal * result store) : journal * list string * result (list string) :=
  (world o.1, map res_id (data o.1), match o.2 with Ok l => Ok (map res_id l) | Err e => Err e | Panic m => Panic m end).
(** A creation: the hooks in order, each once, the nested object without hooks. *)
Example create_journal :
  shown (itr_call 9 itr2 (Outer (RCreate (object "parent"))) start) =
  (["around"; "inside"; "deep"], ["child"; "parent"], Ok ["parent"]).
Proof. reflexivity. Qed.
(** A second creation fails and is rolled back; what the hooks wrote elsewhere stays. *)
Example create_rolled_back :
  shown (itr_call 9 itr2 (Outer (RCreate (object "parent"))) (set_data start [object "parent"])) =
  (["around"; "inside"; "deep"], ["parent"], Err EAlreadyExistsInStorage).
Proof. reflexivity. Qed.

Lemma nested_calls_terminate_witness :
  chains (newScopedRepositoryWithInterceptors itr2 start) < 7 /\
  scoped_call 7 (RCreate (object "parent")) (newScopedRepositoryWithInterceptors itr2 start) =
  scoped_call (S (chains (newScopedRepositoryWithInterceptors itr2 start))) (RCreate (object "parent"))
    (newScopedRepositoryWithInterceptors itr2 start).
Proof.
  assert (Hc : chains (newScopedRepositoryWithInterceptors itr2 start) < 7) by (vm_compute; lia).
  split; [exact Hc|].
  exact (proj1 (nested_calls_terminate (RCreate (object "parent")) (newScopedRepositoryWithInterceptors itr2 start) 7 Hc)).
Defined.

Lemma itr2_registered : registered (create_registry itr2).
Proof.
  eapply (registered_both _ "thing" "both" (logged "around", logged "inside") first _
    (registered_on _ "thing" "deep" deep unordered _ registered_empty eq_refl)). reflexivity.
Qed.

Lemma registered_hooks_complete_witness :
  chain_complete (newInterceptorChain (create_registry itr2) "thing") /\
  onTxNames (newInterceptorChain (create_registry itr2) "thing") = ["both"; "deep"].
Proof.
  split; [|reflexivity].
  exact (proj1 (registered_hooks_complete (create_registry itr2) "thing" itr2_registered)).
Defined.

(** "deep" has no hook around a transaction. *)
Definition misplaced : InterceptorOrder :=
  {| OnTxPosition := position PositionNone ""; AroundTxPosition := position PositionAfter "deep" |}.
Lemma registration_outcome_witness :
  validateProviders (create_registry itr2) "thing" "late" misplaced = Ok tt /\
  exists m, AddProvider (create_registry itr2) "thing" "late" (logged "l", logged "l") misplaced = Panic m.
Proof.
  split; [reflexivity|].
  destruct (registration_outcome (create_registry itr2) "thing" "late" (logged "l", logged "l") misplaced itr2_registered)
    as [(_ & Hr & _)|[_ Hm]]; [|exact Hm].
  exfalso. destruct Hr as [Hr|Hr]; [discriminate Hr|].
  vm_compute in Hr. apply list_elem_of_In in Hr. destruct Hr as [Hr|[]]. discriminate Hr.
Defined.

Lemma in_transaction_skips_combined_witness :
  filter (fun name => of_type (providers (create_registry itr2)) "thing" !! name = None)
    (onTxNames (newInterceptorChain (create_registry itr2) "thing")) = ["deep"] /\
  match providedOnTx (create_registry itr2) !! "thing" with Some chain => chain createObjectFunc | None => createObjectFunc end =
  deep createObjectFunc.
Proof.
  split; [reflexivity|].
  exact (in_transaction_skips_combined (create_registry itr2) "thing" createObjectFunc itr2_registered).
Defined.
