(* ===== verification/Notifications.v ===== *)
(** * Notifications (storage/notification_queue.go, storage/postgres/notificator.go)

    A consumer, one websocket connection of a platform, has a bounded queue.  The notificator
    listens to a channel of the database, loads each announced notification and puts it into
    the queues of the platforms that should get it.  A consumer that comes back with the last
    revision it knows gets what it missed from the database first.

    Queues are shared: the notificator has a heap of them, by their id.  The critical sections
    under the mutexes are functions; what the database and its connection answer is an
    argument. *)

From S2P Require Import Prelude GoStd Errors.
From stdpp Require Import base gmap strings list.
From Stdlib Require Import ZArith.
Local Open Scope string_scope.
Local Open Scope Z_scope.

(** [types.Notification]; resource, type, payload and correlation id are only passed on. *)
Record Notification := { Notification_ID : string; PlatformID : string; Revision : Z; Content : string }.
#[global] Instance Notification_eq_dec : EqDecision Notification.
Proof. solve_decision. Defined.
Definition InvalidRevision : Z := -1.
(** [types.Platform]; all but the id is for the filters. *)
Record Platform := { Platform_ID : string; Platform_data : string }.

(** ** The queue *)
Definition ErrQueueClosed : error := EPlain "queue closed".
Definition ErrQueueFull : error := EPlain "queue is full".

Record notificationQueue := { isClosed : bool; size_ : nat; notificationsChannel : list Notification }.
Definition NewNotificationQueue (size : nat) : notificationQueue :=
  {| isClosed := false; size_ := size; notificationsChannel := [] |}.

Definition Enqueue (nq : notificationQueue) (notification : Notification) : notificationQueue * result unit :=
  if isClosed nq then (nq, Err ErrQueueClosed)
  else if (size_ nq <=? length (notificationsChannel nq))%nat then (nq, Err ErrQueueFull)
  else ({| isClosed := false; size_ := size_ nq; notificationsChannel := (notificationsChannel nq ++ [notification])%list |}, Ok tt).
Definition Close (nq : notificationQueue) : notificationQueue :=
  {| isClosed := true; size_ := size_ nq; notificationsChannel := notificationsChannel nq |}.
(** A receive from [Channel()]: a closed channel is read to its end. *)
Inductive received := Received (notification : Notification) | ChannelClosed | ChannelEmpty.
Definition receive (nq : notificationQueue) : notificationQueue * received :=
  match notificationsChannel nq with
  | notification :: rest =>
      ({| isClosed := isClosed nq; size_ := size_ nq; notificationsChannel := rest |}, Received notification)
  | [] => (nq, if isClosed nq then ChannelClosed else ChannelEmpty)
  end.

(** ** The consumers *)
Record consumers := { queues : gmap string (list string); platforms : list Platform }.
Definition no_consumers : consumers := {| queues := ∅; platforms := [] |}.

Fixpoint find_queue (l : list string) (queueID : string) : option nat :=
  match l with
  | [] => None
  | q :: rest => if String.eqb q queueID then Some 0%nat else S <$> find_queue rest queueID
  end.
Fixpoint find_in (l : list (string * list string)) (queueID : string) : option (string * nat) :=
  match l with
  | [] => None
  | (platformID, notificationQueues) :: rest =>
      match find_queue notificationQueues queueID with
      | Some index => Some (platformID, index)
      | None => find_in rest queueID
      end
  end.
(** [consumers.find]; the ids of queues are UUIDs, so the order of the map does not matter. *)
Definition consumers_find (c : consumers) (queueID : string) : option (string * nat) := find_in (map_to_list (queues c)) queueID.

Definition queues_of (c : consumers) (platformID : string) : list string := default [] (queues c !! platformID).
Definition ReplaceQueue (c : consumers) (queueID newQueue : string) : result consumers :=
  match consumers_find c queueID with
  | None => Err (EPlain ("could not find consumer with id " ++ queueID))
  | Some (platformID, queueIndex) =>
      Ok {| queues := <[platformID := <[queueIndex := newQueue]> (queues_of c platformID)]> (queues c); platforms := platforms c |}
  end.

Fixpoint remove_platform (l : list Platform) (platformID : string) : list Platform :=
  match l with
  | [] => []
  | p :: rest => if String.eqb (Platform_ID p) platformID then rest else p :: remove_platform rest platformID
  end.
Definition consumers_Delete (c : consumers) (queueID : string) : consumers :=
  match consumers_find c queueID with
  | None => c
  | Some (platformID, queueIndex) =>
      let l := queues_of c platformID in
      match (take queueIndex l ++ drop (S queueIndex) l)%list with
      | [] => {| queues := delete platformID (queues c); platforms := remove_platform (platforms c) platformID |}
      | l' => {| queues := <[platformID := l']> (queues c); platforms := platforms c |}
      end
  end.
Definition consumers_Add (c : consumers) (platform : Platform) (queueID : string) : consumers :=
  {| queues := <[Platform_ID platform := (queues_of c (Platform_ID platform) ++ [queueID])%list]> (queues c);
     platforms := match queues_of c (Platform_ID platform) with [] => (platforms c ++ [platform])%list | _ => platforms c end |}.
Definition consumers_Len (c : consumers) : nat := size (queues c).
Definition GetPlatform (c : consumers) (platformID : string) : option Platform :=
  List.find (fun p => String.eqb (Platform_ID p) platformID) (platforms c).

(** ** The notificator *)
Record Notificator := {
  isListening : bool;
  isConnected : bool;
  consumers_ : consumers;
  lastKnownRevision : Z;
  stopRequested : bool;                       (** the context of the processing is cancelled *)
  queue_heap : gmap string notificationQueue
}.
Definition NewNotificator : Notificator :=
  {| isListening := false; isConnected := false; consumers_ := no_consumers; lastKnownRevision := InvalidRevision;
     stopRequested := false; queue_heap := ∅ |}.

Definition set_heap (n : Notificator) (h : gmap string notificationQueue) : Notificator :=
  {| isListening := isListening n; isConnected := isConnected n; consumers_ := consumers_ n;
     lastKnownRevision := lastKnownRevision n; stopRequested := stopRequested n; queue_heap := h |}.
Definition set_consumers (n : Notificator) (c : consumers) : Notificator :=
  {| isListening := isListening n; isConnected := isConnected n; consumers_ := c;
     lastKnownRevision := lastKnownRevision n; stopRequested := stopRequested n; queue_heap := queue_heap n |}.
Definition set_revision (n : Notificator) (r : Z) : Notificator :=
  {| isListening := isListening n; isConnected := isConnected n; consumers_ := consumers_ n;
     lastKnownRevision := r; stopRequested := stopRequested n; queue_heap := queue_heap n |}.
Definition set_stop (n : Notificator) (b : bool) : Notificator :=
  {| isListening := isListening n; isConnected := isConnected n; consumers_ := consumers_ n;
     lastKnownRevision := lastKnownRevision n; stopRequested := b; queue_heap := queue_heap n |}.
Definition set_listening (n : Notificator) (b : bool) : Notificator :=
  {| isListening := b; isConnected := isConnected n; consumers_ := consumers_ n;
     lastKnownRevision := lastKnownRevision n; stopRequested := stopRequested n; queue_heap := queue_heap n |}.
Definition set_connected (n : Notificator) (b : bool) : Notificator :=
  {| isListening := isListening n; isConnected := b; consumers_ := consumers_ n;
     lastKnownRevision := lastKnownRevision n; stopRequested := stopRequested n; queue_heap := queue_heap n |}.

(** The callback of the connection: losing it stops the processing. *)
Definition connection_event (n : Notificator) (connected : bool) : Notificator :=
  let n := set_connected n connected in if connected then n else set_stop n true.

Section Notificator.
Variable notificationFilters : list (list Platform -> Notification -> list Platform).
Variable queueSize : nat.

(** [addConsumer]: [listen] is [None] or the error of [Listen] other than
    [ErrChannelAlreadyOpen], [lastRevision] what [GetLastRevision] returns. *)
Definition addConsumer (n : Notificator) (platform : Platform) (queueID : string) (listen : option error)
    (lastRevision : result Z) : Notificator * result Z :=
  let add n := (set_consumers n (consumers_Add (consumers_ n) platform queueID), Ok (lastKnownRevision n)) in
  if isListening n then add n
  else
    match listen with
    | Some err => (n, Err (EPlain ("listen to notifications channel failed " ++ Error err)))
    | None =>
        match lastRevision with
        | Err err => (n, Err (EPlain ("getting last revision failed " ++ Error err)))
        | Panic m => (n, Panic m)
        | Ok revision => add (set_stop (set_listening (set_revision n revision) true) false)
        end
    end.

Fixpoint filter_loop (filters : list (list Platform -> Notification -> list Platform)) (recipients : list Platform)
    (notification : Notification) : list Platform :=
  match filters with
  | [] => recipients
  | f :: rest =>
      match f recipients notification with
      | [] => []
      | recipients => filter_loop rest recipients notification
      end
  end.
Definition filterRecipients : list Platform -> Notification -> list Platform := filter_loop notificationFilters.

(** *** Processing *)
Record notifyEventPayload := { payload_PlatformID : string; payload_NotificationID : string; payload_Revision : Z }.

Definition getRecipients (n : Notificator) (platformID : string) : list Platform :=
  if String.eqb platformID "" then platforms (consumers_ n)
  else match GetPlatform (consumers_ n) platformID with None => [] | Some platform => [platform] end.

(** [if err := consumer.Enqueue(notification); err != nil { consumer.Close() }] *)
Definition offered (nq : notificationQueue) (notification : Notification) : notificationQueue :=
  let '(nq', r) := Enqueue nq notification in match r with Ok _ => nq' | _ => Close nq' end.
Definition offer (notification : Notification) (h : gmap string notificationQueue) (queueID : string)
    : gmap string notificationQueue :=
  match h !! queueID with Some nq => <[queueID := offered nq notification]> h | None => h end.
Definition sendNotificationToPlatformConsumers (h : gmap string notificationQueue) (platformConsumers : list string)
    (notification : Notification) : gmap string notificationQueue := foldl (offer notification) h platformConsumers.

Definition processNotificationPayload (GetNotification : string -> result Notification) (n : Notificator)
    (payload : notifyEventPayload) : Notificator * result unit :=
  let n := set_revision n (payload_Revision payload) in
  match getRecipients n (payload_PlatformID payload) with
  | [] => (n, Ok tt)
  | recipients =>
      match GetNotification (payload_NotificationID payload) with
      | Err err => (n, Err (EPlain ("notification " ++ payload_NotificationID payload ++
                             " could not be retrieved from the DB: " ++ Error err)))
      | Panic m => (n, Panic m)
      | Ok notification =>
          (set_heap n (foldl (fun h platform =>
             sendNotificationToPlatformConsumers h (queues_of (consumers_ n) (Platform_ID platform)) notification)
             (queue_heap n) (filterRecipients recipients notification)), Ok tt)
      end
  end.

Definition close_queue (h : gmap string notificationQueue) (queueID : string) : gmap string notificationQueue :=
  match h !! queueID with Some nq => <[queueID := Close nq]> h | None => h end.
Definition all_queues (c : consumers) : list string := map_to_list (queues c) ≫= snd.
Definition closeAllConsumers (n : Notificator) : Notificator :=
  set_heap (set_consumers n no_consumers) (foldl close_queue (queue_heap n) (all_queues (consumers_ n))).
(** The deferred function of [processNotifications]. *)
Definition stop_processing (n : Notificator) : Notificator :=
  closeAllConsumers (set_stop (set_listening n false) true).
(** An iteration of the loop of [processNotifications] with a notification of the channel:
    an error, or a panic, ends the processing. *)
Definition process_one (GetNotification : string -> result Notification) (n : Notificator) (payload : result notifyEventPayload)
    : Notificator :=
  match payload with
  | Ok payload =>
      let '(n, r) := processNotificationPayload GetNotification n payload in
      match r with Ok _ => n | _ => stop_processing n end
  | _ => stop_processing n
  end.

(** *** Registration *)
Definition UnregisterConsumer (n : Notificator) (queueID : string) : Notificator :=
  let n := set_heap n (close_queue (queue_heap n) queueID) in
  if (consumers_Len (consumers_ n) =? 0)%nat then n
  else
    let n := set_consumers n (consumers_Delete (consumers_ n) queueID) in
    if (consumers_Len (consumers_ n) =? 0)%nat then set_stop n true else n.

(** The first critical section of [RegisterConsumer], with a new queue. *)
Definition register_begin (n : Notificator) (consumer : Platform) (queueID : result string) (listen : option error)
    (lastRevision : result Z) : Notificator * result (string * Z) :=
  if negb (isConnected n) then (n, Err (EPlain "cannot register consumer - Notificator is not running"))
  else
    match queueID with
    | Err e => (n, Err e)
    | Panic m => (n, Panic m)
    | Ok queueID =>
        let n := set_heap n (<[queueID := NewNotificationQueue queueSize]> (queue_heap n)) in
        let '(n, r) := addConsumer n consumer queueID listen lastRevision in
        (n, (fun revision => (queueID, revision)) <$> r)
    end.

(** What the revision of the consumer calls for. *)
Inductive registration := UpToDate | UnknownRevision | MissedNotifications.
Definition compare_revisions (lastKnownRevision lastKnownRevisionToSM : Z) : registration :=
  if (lastKnownRevision =? InvalidRevision) || (lastKnownRevision =? lastKnownRevisionToSM) then UpToDate
  else if lastKnownRevisionToSM <? lastKnownRevision then UnknownRevision
  else MissedNotifications.

(** The missed notifications, from [GetNotificationByRevision] and [ListNotifications]. *)
Fixpoint enqueue_all (nq : notificationQueue) (l : list Notification) : result notificationQueue :=
  match l with
  | [] => Ok nq
  | notification :: rest =>
      let '(nq, r) := Enqueue nq notification in
      match r with Ok _ => enqueue_all nq rest | Err e => Err e | Panic m => Panic m end
  end.
Definition missed_queue (platform : Platform) (byRevision : result Notification) (missed : result (list Notification))
    : result notificationQueue :=
  match byRevision with
  | Err e => if bool_decide (e = ENotFoundInStorage) then Err EInvalidNotificationRevision else Err e
  | Panic m => Panic m
  | Ok _ =>
      let* missedNotifications := missed in
      let filtered := filter (fun notification => filterRecipients [platform] notification <> []) missedNotifications in
      if (queueSize <? length filtered)%nat then Err EInvalidNotificationRevision
      else enqueue_all (NewNotificationQueue queueSize) filtered
  end.
(** Moving what came in meanwhile; a closed queue is an error. *)
Fixpoint drain (closed : bool) (channel : list Notification) (nq : notificationQueue) : result notificationQueue :=
  match channel with
  | [] => if closed then Err (EPlain "notification queue has been closed") else Ok nq
  | notification :: rest =>
      let '(nq, r) := Enqueue nq notification in
      match r with Ok _ => drain closed rest nq | Err e => Err e | Panic m => Panic m end
  end.
(** What is left in the old queue when the loop ends. *)
Fixpoint drained (closed : bool) (channel : list Notification) (nq : notificationQueue) : list Notification :=
  match channel with
  | [] => []
  | notification :: rest =>
      let '(nq, r) := Enqueue nq notification in
      match r with Ok _ => drained closed rest nq | _ => rest end
  end.

(** The second critical section: [newQueueID] is the id of the queue with the missed ones. *)
Definition replace_queue (n : Notificator) (queueID newQueueID : string) (missed : notificationQueue)
    : Notificator * result string :=
  match queue_heap n !! queueID with
  | None => (n, Panic "invalid memory address or nil pointer dereference")
  | Some nq =>
      let old := {| isClosed := isClosed nq; size_ := size_ nq;
                    notificationsChannel := drained (isClosed nq) (notificationsChannel nq) missed |} in
      let n := set_heap n (<[queueID := old]> (queue_heap n)) in
      match drain (isClosed nq) (notificationsChannel nq) missed with
      | Err e => (n, Err e)
      | Panic m => (n, Panic m)
      | Ok new =>
          match ReplaceQueue (consumers_ n) queueID newQueueID with
          | Err e => (n, Err e)
          | Panic m => (n, Panic m)
          | Ok c => (set_heap (set_consumers n c) (<[newQueueID := new]> (queue_heap n)), Ok newQueueID)
          end
      end
  end.
Definition register_finish (n : Notificator) (consumer : Platform) (queueID : string) (newQueueID : result string)
    (byRevision : result Notification) (missed : result (list Notification)) : Notificator * result string :=
  let '(n, r) :=
    match missed_queue consumer byRevision missed with
    | Err e => (n, Err e)
    | Panic m => (n, Panic m)
    | Ok nq =>
        match newQueueID with
        | Ok newQueueID => replace_queue n queueID newQueueID nq
        | Err e => (n, Err e)
        | Panic m => (n, Panic m)
        end
    end in
  (match r with Err _ => UnregisterConsumer n queueID | _ => n end, r).

(** [RegisterConsumer]: [meanwhile] is what others do between the critical sections, and the
    database answers after it. *)
Definition RegisterConsumer (n : Notificator) (consumer : Platform) (revision : Z) (queueID newQueueID : result string)
    (listen : option error) (lastRevision : result Z) (meanwhile : Notificator -> Notificator)
    (byRevision : Z -> result Notification) (ListNotifications : string -> Z -> Z -> result (list Notification))
    : Notificator * result (string * Z) :=
  let '(n, r) := register_begin n consumer queueID listen lastRevision in
  match r with
  | Err e => (n, Err e)
  | Panic m => (n, Panic m)
  | Ok (queueID, revisionToSM) =>
      match compare_revisions revision revisionToSM with
      | UpToDate => (n, Ok (queueID, revisionToSM))
      | UnknownRevision => (UnregisterConsumer (meanwhile n) queueID, Err EInvalidNotificationRevision)
      | MissedNotifications =>
          let '(n, r) := register_finish (meanwhile n) consumer queueID newQueueID (byRevision revision)
            (ListNotifications (Platform_ID consumer) revision revisionToSM) in
          (n, (fun q => (q, revisionToSM)) <$> r)
      end
  end.
End Notificator.
