(* ===== verification/NotificationsProps.v ===== *)
(** * Properties of the consumers and of the queues

    Where queues are found, what registering, replacing and deleting do to the others, and
    the effect of sending one notification on every queue. *)

From S2P Require Import Prelude GoStd Errors Notifications.
From stdpp Require Import base gmap strings list.
From Stdlib Require Import ZArith Lia.
Local Open Scope string_scope.

(** ** Finding a queue *)
Lemma find_queue_Some l q i : find_queue l q = Some i -> l !! i = Some q.
Proof.
  revert i. induction l as [|x l IH]; intros i; simpl; [done|].
  destruct (String.eqb_spec x q) as [->|]; [by intros [= <-]|].
  destruct (find_queue l q) as [j|]; simpl; [|done]. intros [= <-]. simpl. auto.
Qed.
Lemma find_queue_None l q : find_queue l q = None -> q ∉ l.
Proof.
  induction l as [|x l IH]; simpl; [intros _; apply not_elem_of_nil|].
  destruct (String.eqb_spec x q) as [->|Hne]; [done|].
  destruct (find_queue l q); simpl; [done|]. rewrite not_elem_of_cons. naive_solver.
Qed.
Lemma find_in_Some l q p i : find_in l q = Some (p, i) -> exists qs, (p, qs) ∈ l /\ qs !! i = Some q.
Proof.
  induction l as [|[p' qs] l IH]; simpl; [done|].
  destruct (find_queue qs q) as [j|] eqn:E.
  - intros [= -> ->]. exists qs. split; [by left|]. by apply find_queue_Some.
  - intros H. destruct (IH H) as (qs' & Hin & Hq). exists qs'. split; [by right|done].
Qed.
Lemma find_in_None l q : find_in l q = None -> forall p qs, (p, qs) ∈ l -> q ∉ qs.
Proof.
  induction l as [|[p' qs'] l IH]; simpl; [by intros _ p qs ?%elem_of_nil|].
  destruct (find_queue qs' q) as [j|] eqn:E; [done|].
  intros H p qs [[= -> ->]|Hin]%elem_of_cons; [by apply find_queue_None|eauto].
Qed.

(** ** Consumers

    [registered_in c p q]: the queue [q] is one of platform [p]. *)
Definition registered_in (c : consumers) (p q : string) : Prop := exists qs, queues c !! p = Some qs /\ q ∈ qs.

Record consumers_wf (plat : string -> Platform) (c : consumers) : Prop := {
  cw_nonempty : forall p, queues c !! p <> Some [];
  cw_nodup : forall p qs, queues c !! p = Some qs -> NoDup qs;
  cw_unique : forall p p' q, registered_in c p q -> registered_in c p' q -> p = p';
  cw_platforms : NoDup (map Platform_ID (platforms c));
  cw_known : forall x, x ∈ platforms c <-> x = plat (Platform_ID x) /\ is_Some (queues c !! Platform_ID x)
}.

Lemma registered_queues_of c p q : registered_in c p q <-> q ∈ queues_of c p.
Proof.
  unfold registered_in, queues_of. destruct (queues c !! p) as [qs|]; simpl.
  - naive_solver.
  - split; [naive_solver|by intros ?%elem_of_nil].
Qed.

Lemma elem_of_removed (qs : list string) i q x :
  NoDup qs -> qs !! i = Some q -> x ∈ (take i qs ++ drop (S i) qs)%list <-> x ∈ qs /\ x <> q.
Proof.
  intros Hd Hi. rewrite <- (take_drop_middle qs i q Hi) in Hd. rewrite <- (take_drop_middle qs i q Hi) at 3.
  apply NoDup_app in Hd as (_ & Hdis & Hd). apply NoDup_cons in Hd as [Hq _].
  rewrite !elem_of_app, elem_of_cons. split.
  - intros [Hx|Hx]; (split; [tauto|intros ->]); [|done]. apply (Hdis q Hx). by left.
  - tauto.
Qed.
Lemma nodup_removed (qs : list string) i q : NoDup qs -> qs !! i = Some q -> NoDup (take i qs ++ drop (S i) qs)%list.
Proof.
  intros Hd Hi. rewrite <- (take_drop_middle qs i q Hi) in Hd. apply NoDup_app in Hd as (H1 & H2 & H3).
  apply NoDup_cons in H3 as [_ H3]. apply NoDup_app. split_and!; [done| |done]. intros x Hx Hx'. apply (H2 x Hx). by right.
Qed.
Lemma elem_of_replaced (qs : list string) i q q' x :
  NoDup qs -> qs !! i = Some q -> x ∈ <[i := q']> qs <-> x = q' \/ (x ∈ qs /\ x <> q).
Proof.
  intros Hd Hi. rewrite <- (elem_of_removed qs i q x Hd Hi). rewrite insert_take_drop by (by eapply lookup_lt_Some).
  rewrite !elem_of_app, elem_of_cons. tauto.
Qed.
Lemma nodup_replaced (qs : list string) i q q' : NoDup qs -> qs !! i = Some q -> q' ∉ qs -> NoDup (<[i := q']> qs).
Proof.
  intros Hd Hi Hq. pose proof (nodup_removed qs i q Hd Hi) as Hr. rewrite insert_take_drop by (by eapply lookup_lt_Some).
  assert (Hn : q' ∉ (take i qs ++ drop (S i) qs)%list) by (rewrite (elem_of_removed qs i q); tauto).
  rewrite <- Permutation_middle. by constructor.
Qed.

Lemma elem_of_remove_platform l id x :
  NoDup (map Platform_ID l) -> x ∈ remove_platform l id <-> x ∈ l /\ Platform_ID x <> id.
Proof.
  induction l as [|y l IH]; simpl; [by intros _; split; [intros ?%elem_of_nil|intros [?%elem_of_nil _]]|].
  intros [Hy Hd]%NoDup_cons. rewrite elem_of_cons. destruct (String.eqb_spec (Platform_ID y) id) as [<-|Hne].
  - split; [|naive_solver]. intros Hx. split; [by right|]. intros He. apply Hy. rewrite <- He. by apply list_elem_of_fmap_2.
  - rewrite elem_of_cons, IH by done. naive_solver.
Qed.
Lemma nodup_remove_platform l id : NoDup (map Platform_ID l) -> NoDup (map Platform_ID (remove_platform l id)).
Proof.
  induction l as [|y l IH]; simpl; [done|]. intros [Hy Hd]%NoDup_cons.
  destruct (String.eqb (Platform_ID y) id); [done|]. simpl. apply NoDup_cons. split; [|auto].
  intros (z & Hz & Hin)%list_elem_of_fmap. apply Hy. rewrite Hz. apply list_elem_of_fmap_2.
  clear -Hin. induction l as [|w l IH]; simpl in *; [done|]. destruct (String.eqb _ _); [by right|].
  apply elem_of_cons in Hin as [->|Hin]; [by left|right; auto].
Qed.

Lemma registered_at c p qs q : queues c !! p = Some qs -> registered_in c p q <-> q ∈ qs.
Proof. intros H. unfold registered_in. rewrite H. split; [by intros (? & [= <-] & ?)|eauto]. Qed.

Section Consumers.
Context (plat : string -> Platform) (Hplat : forall id, Platform_ID (plat id) = id).
Implicit Types c : consumers.

Lemma find_registered c q p i : consumers_find c q = Some (p, i) -> exists qs, queues c !! p = Some qs /\ qs !! i = Some q.
Proof. intros (qs & Hin & Hq)%find_in_Some. exists qs. by rewrite <- elem_of_map_to_list. Qed.
Lemma find_not_registered c q : consumers_find c q = None -> forall p, ~ registered_in c p q.
Proof. intros H p (qs & Hqs & Hq). apply (find_in_None _ _ H p qs); [|done]. by apply elem_of_map_to_list. Qed.
Lemma find_exists c p q : registered_in c p q -> exists p' i, consumers_find c q = Some (p', i).
Proof. intros H. destruct (consumers_find c q) as [[p' i]|] eqn:E; [eauto|]. by destruct (find_not_registered c q E p). Qed.

Lemma no_consumers_wf : consumers_wf plat no_consumers.
Proof.
  split; simpl; try (intros *; rewrite lookup_empty; done).
  - intros p p' q (qs & H & _). simpl in H. by rewrite lookup_empty in H.
  - constructor.
  - intros x. split; [by intros ?%elem_of_nil|]. intros [_ [qs H]]. simpl in H. by rewrite lookup_empty in H.
Qed.

(** A registry that changes at one platform only. *)
Lemma registered_insert c p qs ps p' q :
  registered_in {| queues := <[p := qs]> (queues c); platforms := ps |} p' q <->
  (p' = p /\ q ∈ qs) \/ (p' <> p /\ registered_in c p' q).
Proof.
  unfold registered_in. simpl. destruct (decide (p' = p)) as [->|Hne].
  - rewrite lookup_insert_eq. naive_solver.
  - rewrite lookup_insert_ne by done. naive_solver.
Qed.

Lemma add_registered c p q p' q' :
  registered_in (consumers_Add c (plat p) q) p' q' <-> registered_in c p' q' \/ (p' = p /\ q' = q).
Proof.
  unfold consumers_Add. rewrite registered_insert, Hplat. rewrite elem_of_app, list_elem_of_singleton.
  rewrite <- registered_queues_of. destruct (decide (p' = p)) as [->|]; naive_solver.
Qed.
Lemma add_wf c p q : consumers_wf plat c -> (forall p', ~ registered_in c p' q) -> consumers_wf plat (consumers_Add c (plat p) q).
Proof.
  intros Hc Hq. destruct Hc as [H1 H2 H3 H4 H5]. split.
  - intros p'. simpl. rewrite Hplat. destruct (decide (p' = p)) as [->|].
    + rewrite lookup_insert_eq. destruct (queues_of c p); done.
    + rewrite lookup_insert_ne by done. apply H1.
  - intros p' qs. simpl. rewrite Hplat. destruct (decide (p' = p)) as [->|].
    + rewrite lookup_insert_eq. intros [= <-]. apply NoDup_app. split_and!.
      * unfold queues_of. destruct (queues c !! p) as [qs|] eqn:E; [by apply (H2 p)|constructor].
      * intros x Hx ->%list_elem_of_singleton. apply (Hq p). by apply registered_queues_of.
      * apply NoDup_singleton.
    + rewrite lookup_insert_ne by done. apply H2.
  - intros p1 p2 q'. rewrite !add_registered. intros [Ha|[-> ->]] [Hb|[-> Hb]]; subst; try done; [eauto|..]; by destruct (Hq _ ltac:(eassumption)).
  - simpl. rewrite Hplat. destruct (queues_of c p) eqn:E; [|done].
    rewrite map_app. apply NoDup_app. split_and!; [done| |apply NoDup_singleton].
    intros x Hx. simpl. rewrite Hplat. intros ->%list_elem_of_singleton.
    apply list_elem_of_fmap in Hx as (y & Hy & Hin). apply H5 in Hin as [_ [qs Hqs]].
    unfold queues_of in E. rewrite Hy, Hqs in E. simpl in E. subst. by apply (H1 (Platform_ID y)).
  - intros x. simpl. rewrite Hplat.
    destruct (decide (Platform_ID x = p)) as [Hx|Hx].
    + rewrite Hx, lookup_insert_eq.
      destruct (queues_of c p) as [|q0 qs0] eqn:E.
      * rewrite elem_of_app, list_elem_of_singleton. rewrite H5, Hx. unfold queues_of in E.
        split; [|by intros [Hxp _]; right]. intros [[Hxp Hs]|Hxp]; [split; [done|by eexists]|]. split; [done|by eexists].
      * rewrite H5, Hx. unfold queues_of in E. destruct (queues c !! p) eqn:E2; [|done].
        split; intros [Hxp _]; split; try done; by eexists.
    + rewrite lookup_insert_ne by done.
      destruct (queues_of c p); [|apply H5]. rewrite elem_of_app, list_elem_of_singleton, H5.
      split; [|tauto]. intros [H| ->]; [done|]. by rewrite Hplat in Hx.
Qed.

Lemma replace_registered c p q q' :
  consumers_wf plat c -> registered_in c p q -> (forall p', ~ registered_in c p' q') ->
  exists c', ReplaceQueue c q q' = Ok c' /\ consumers_wf plat c' /\
    forall p2 q2, registered_in c' p2 q2 <-> (p2 = p /\ q2 = q') \/ (q2 <> q /\ registered_in c p2 q2).
Proof.
  intros [H1 H2 H3 H4 H5] Hq Hq'. unfold ReplaceQueue. destruct (find_exists c p q Hq) as (p0 & i & E). rewrite E.
  apply find_registered in E as (qs & Hqs & Hi).
  assert (p0 = p) as ->. { apply (H3 _ _ q); [|done]. exists qs. split; [done|]. by eapply list_elem_of_lookup_2. }
  unfold queues_of. rewrite Hqs. simpl. eexists. split; [reflexivity|].
  assert (Hr : forall p2 q2, registered_in {| queues := <[p := <[i := q']> qs]> (queues c); platforms := platforms c |} p2 q2 <->
    (p2 = p /\ q2 = q') \/ (q2 <> q /\ registered_in c p2 q2)).
  { intros p2 q2. rewrite registered_insert, (elem_of_replaced qs i q q' q2 (H2 _ _ Hqs) Hi).
    destruct (decide (p2 = p)) as [->|Hne]; [rewrite (registered_at c p qs q2 Hqs); tauto|].
    split; [|tauto]. intros [[? _]|[_ Hr]]; [done|]. right. split; [|done]. intros ->. apply Hne. by apply (H3 _ _ q). }
  split; [|done]. split; simpl; [| | |done|].
  - intros p2. destruct (decide (p2 = p)) as [->|]; [rewrite lookup_insert_eq|rewrite lookup_insert_ne by done; apply H1].
    intros [= He]. assert (Hl : length qs = 0%nat) by (by rewrite <- (length_insert qs i q'), He).
    apply lookup_lt_Some in Hi. lia.
  - intros p2 l. destruct (decide (p2 = p)) as [->|]; [rewrite lookup_insert_eq|rewrite lookup_insert_ne by done; apply H2].
    intros [= <-]. apply (nodup_replaced _ _ q); [by apply (H2 p)|done|]. intros Hin. apply (Hq' p). by exists qs.
  - intros p1 p2 x. rewrite !Hr. intros [[-> ->]|[Ha Hb]] [[-> Hc]|[Hc Hd]]; subst; try done; [|..|by apply (H3 _ _ x)]; by destruct (Hq' _ ltac:(eassumption)).
  - intros x. rewrite H5. destruct (decide (Platform_ID x = p)) as [->|]; [|by rewrite lookup_insert_ne].
    rewrite lookup_insert_eq, Hqs. split; intros [? ?]; split; try done; by eexists.
Qed.

Lemma delete_registered c q :
  consumers_wf plat c ->
  consumers_wf plat (consumers_Delete c q) /\
  forall p2 q2, registered_in (consumers_Delete c q) p2 q2 <-> q2 <> q /\ registered_in c p2 q2.
Proof.
  intros Hc. pose proof Hc as [H1 H2 H3 H4 H5]. unfold consumers_Delete.
  destruct (consumers_find c q) as [[p i]|] eqn:E.
  2:{ split; [done|]. intros p2 q2. split; [|tauto]. intros Hr. split; [|done]. intros ->. by apply (find_not_registered c q E p2). }
  apply find_registered in E as (qs & Hqs & Hi). unfold queues_of. rewrite Hqs. simpl.
  assert (Hpq : registered_in c p q). { exists qs. split; [done|]. by eapply list_elem_of_lookup_2. }
  pose proof (elem_of_removed qs i q) as Hrem. pose proof (nodup_removed qs i q (H2 _ _ Hqs) Hi) as Hnd.
  destruct (take i qs ++ drop (S i) qs)%list as [|x0 l0] eqn:El.
  - assert (Hr : forall p2 q2, registered_in {| queues := delete p (queues c); platforms := remove_platform (platforms c) p |} p2 q2 <->
      q2 <> q /\ registered_in c p2 q2).
    { intros p2 q2. unfold registered_in. simpl. destruct (decide (p2 = p)) as [->|Hne].
      - rewrite lookup_delete_eq, Hqs. split; [by intros (? & ? & _)|]. intros (Hne & qs' & [= <-] & Hin).
        exfalso. apply (not_elem_of_nil q2). by apply (Hrem q2 (H2 _ _ Hqs) Hi).
      - rewrite lookup_delete_ne by done. split; [|tauto]. intros Hr. split; [|done]. intros ->.
        apply Hne. by apply (H3 _ _ q). }
    split; [|done]. split; simpl.
    + intros p2. destruct (decide (p2 = p)) as [->|]; [by rewrite lookup_delete_eq|rewrite lookup_delete_ne by done; apply H1].
    + intros p2 l. destruct (decide (p2 = p)) as [->|]; [by rewrite lookup_delete_eq|rewrite lookup_delete_ne by done; apply H2].
    + intros p1 p2 x. rewrite !Hr. intros [_ Ha] [_ Hb]. by apply (H3 _ _ x).
    + by apply nodup_remove_platform.
    + intros x. rewrite elem_of_remove_platform, H5 by done. destruct (decide (Platform_ID x = p)) as [->|].
      * rewrite lookup_delete_eq. split; [by intros [_ ?]|]. intros [_ [? ?]]. done.
      * rewrite lookup_delete_ne by done. tauto.
  - assert (Hr : forall p2 q2, registered_in {| queues := <[p := x0 :: l0]> (queues c); platforms := platforms c |} p2 q2 <->
      q2 <> q /\ registered_in c p2 q2).
    { intros p2 q2. rewrite registered_insert, (Hrem q2 (H2 _ _ Hqs) Hi).
      destruct (decide (p2 = p)) as [->|Hne]; [rewrite (registered_at c p qs q2 Hqs); tauto|].
      split; [|tauto]. intros [[? _]|[_ Hr]]; [done|]. split; [|done]. intros ->. apply Hne. by apply (H3 _ _ q). }
    split; [|done]. split; simpl; [| | |done|].
    + intros p2. destruct (decide (p2 = p)) as [->|]; [by rewrite lookup_insert_eq|rewrite lookup_insert_ne by done; apply H1].
    + intros p2 l. destruct (decide (p2 = p)) as [->|]; [rewrite lookup_insert_eq; by intros [= <-]|rewrite lookup_insert_ne by done; apply H2].
    + intros p1 p2 x. rewrite !Hr. intros [_ Ha] [_ Hb]. by apply (H3 _ _ x).
    + intros x. rewrite H5. destruct (decide (Platform_ID x = p)) as [->|]; [|by rewrite lookup_insert_ne].
      rewrite lookup_insert_eq, Hqs. split; intros [? ?]; split; try done; by eexists.
Qed.
End Consumers.

(** ** Changing several queues *)
Lemma offer_alter nt h q : offer nt h q = alter (fun nq => offered nq nt) q h.
Proof.
  unfold offer. apply map_eq. intros q'. destruct (h !! q) as [nq|] eqn:E; destruct (decide (q' = q)) as [->|Hne].
  - by rewrite lookup_insert_eq, lookup_alter_eq, E.
  - by rewrite lookup_insert_ne, lookup_alter_ne by done.
  - by rewrite lookup_alter_eq, E.
  - by rewrite lookup_alter_ne by done.
Qed.
Lemma close_alter h q : close_queue h q = alter Close q h.
Proof.
  unfold close_queue. apply map_eq. intros q'. destruct (h !! q) as [nq|] eqn:E; destruct (decide (q' = q)) as [->|Hne].
  - by rewrite lookup_insert_eq, lookup_alter_eq, E.
  - by rewrite lookup_insert_ne, lookup_alter_ne by done.
  - by rewrite lookup_alter_eq, E.
  - by rewrite lookup_alter_ne by done.
Qed.
Lemma lookup_close_queue h q q' : close_queue h q !! q' = if decide (q' = q) then Close <$> h !! q' else h !! q'.
Proof. rewrite close_alter. destruct (decide (q' = q)) as [->|]; [apply lookup_alter_eq|by apply lookup_alter_ne]. Qed.

Lemma lookup_foldl_offer nt l h q :
  NoDup l -> foldl (offer nt) h l !! q = if decide (q ∈ l) then (fun nq => offered nq nt) <$> h !! q else h !! q.
Proof.
  revert h. induction l as [|x l IH]; intros h; simpl; [intros _; by destruct (decide (q ∈ [])) as [?%elem_of_nil|]|].
  intros [Hx Hd]%NoDup_cons. rewrite IH, offer_alter by done. destruct (decide (q = x)) as [->|Hne].
  - rewrite decide_False by done. rewrite decide_True by (by left). apply lookup_alter_eq.
  - rewrite lookup_alter_ne by done. destruct (decide (q ∈ l)), (decide (q ∈ x :: l)); try done; set_solver.
Qed.
Lemma lookup_foldl_close l h q :
  foldl close_queue h l !! q = if decide (q ∈ l) then Close <$> h !! q else h !! q.
Proof.
  revert h. induction l as [|x l IH]; intros h; simpl; [by destruct (decide (q ∈ [])) as [?%elem_of_nil|]|].
  rewrite IH, lookup_close_queue. destruct (decide (q = x)) as [->|Hne].
  - rewrite (decide_True _ _ (P := x ∈ x :: l)) by (by left). destruct (decide (x ∈ l)); [|done]. by destruct (h !! x).
  - destruct (decide (q ∈ l)), (decide (q ∈ x :: l)); try done; set_solver.
Qed.
Lemma elem_of_all_queues c q : q ∈ all_queues c <-> exists p, registered_in c p q.
Proof.
  unfold all_queues, registered_in. rewrite list_elem_of_bind. split.
  - intros ([p qs] & Hq & Hin%elem_of_map_to_list). eauto.
  - intros (p & qs & Hqs & Hq). exists (p, qs). by rewrite elem_of_map_to_list.
Qed.

(** ** Filters *)
Section Filters.
Context (filters : list (list Platform -> Notification -> list Platform)).
Context (plat : string -> Platform) (Hplat : forall id, Platform_ID (plat id) = id).

(** Each filter decides on each platform by itself. *)
Definition pointwise (fs : list (list Platform -> Notification -> list Platform)) : Prop :=
  forall f, f ∈ fs -> forall ps nt, f ps nt = filter (fun p => f [p] nt <> []) ps.

Lemma filter_loop_pointwise fs ps nt :
  pointwise fs -> filter_loop fs ps nt = filter (fun p => filter_loop fs [p] nt <> []) ps.
Proof.
  intros Hf. revert ps. induction fs as [|f fs IH]; intros ps; simpl.
  - symmetry. induction ps as [|p ps IHp]; [done|]. rewrite filter_cons_True by done. by rewrite IHp.
  - assert (Hps : forall ps, f ps nt = filter (fun p => f [p] nt <> []) ps) by (intros ps'; apply Hf; by left).
    assert (IH' : forall ps, filter_loop fs ps nt = filter (fun p => filter_loop fs [p] nt <> []) ps).
    { apply IH. intros g Hg. apply Hf. by right. }
    assert (Hnil : filter_loop fs [] nt = []) by (by rewrite IH').
    transitivity (filter_loop fs (f ps nt) nt); [by destruct (f ps nt)|].
    rewrite IH', Hps, list_filter_filter. apply list_filter_iff. intros p.
    destruct (decide (f [p] nt = [])) as [He|He].
    + rewrite He. naive_solver.
    + assert (Hp : f [p] nt = [p]) by (rewrite Hps, filter_cons_True by done; done). rewrite Hp. naive_solver.
Qed.

(** The notifications platform [p] is to get. *)
Definition receives (p : string) (nt : Notification) : Prop :=
  (PlatformID nt = "" \/ PlatformID nt = p) /\ filterRecipients filters [plat p] nt <> [].
#[global] Instance receives_dec p nt : Decision (receives p nt).
Proof. unfold receives. apply _. Defined.
Definition relevant (p : string) (l : list Notification) : list Notification := filter (receives p) l.

Lemma relevant_app p l1 l2 : relevant p (l1 ++ l2)%list = (relevant p l1 ++ relevant p l2)%list.
Proof. apply filter_app. Qed.

(** The payload the database sends for a notification. *)
Definition payload_of (nt : Notification) : notifyEventPayload :=
  {| payload_PlatformID := PlatformID nt; payload_NotificationID := Notification_ID nt; payload_Revision := Revision nt |}.

Lemma elem_of_getRecipients n pid x :
  consumers_wf plat (consumers_ n) ->
  x ∈ getRecipients n pid <-> x ∈ platforms (consumers_ n) /\ (pid = "" \/ Platform_ID x = pid).
Proof.
  intros Hc. unfold getRecipients. destruct (String.eqb_spec pid "") as [->|Hne]; [naive_solver|].
  unfold GetPlatform. destruct (List.find _ _) as [y|] eqn:E.
  - apply find_some in E as [Hy He%String.eqb_eq]. rewrite <- list_elem_of_In in Hy. rewrite list_elem_of_singleton. split; [naive_solver|].
    intros [Hx [?|Hp]]; [done|]. apply (cw_known _ _ Hc) in Hx as [-> _], Hy as [-> _]. congruence.
  - split; [by intros ?%elem_of_nil|]. intros [Hx [?|Hp]]; [done|].
    apply list_elem_of_In in Hx. apply (find_none _ _ E) in Hx. by rewrite String.eqb_neq in Hx.
Qed.
Lemma nodup_getRecipients n pid : consumers_wf plat (consumers_ n) -> NoDup (map Platform_ID (getRecipients n pid)).
Proof.
  intros Hc. unfold getRecipients. destruct (String.eqb _ _); [apply (cw_platforms _ _ Hc)|].
  destruct (GetPlatform _ _); [apply NoDup_singleton|constructor].
Qed.

Lemma foldl_send c h rs nt :
  foldl (fun h platform => sendNotificationToPlatformConsumers h (queues_of c (Platform_ID platform)) nt) h rs =
  foldl (offer nt) h (map Platform_ID rs ≫= queues_of c).
Proof.
  revert h. induction rs as [|p rs IH]; intros h; simpl; [done|]. rewrite IH. unfold sendNotificationToPlatformConsumers.
  rewrite <- foldl_app. done.
Qed.
Lemma nodup_targets c (ids : list string) : consumers_wf plat c -> NoDup ids -> NoDup (ids ≫= queues_of c).
Proof.
  intros Hc. induction ids as [|p ids IH]; simpl; [constructor|]. intros [Hp Hd]%NoDup_cons.
  change (NoDup (queues_of c p ++ (ids ≫= queues_of c))%list). apply NoDup_app. split_and!; [| |auto].
  - unfold queues_of. destruct (queues c !! p) eqn:E; [by apply (cw_nodup _ _ Hc p)|constructor].
  - intros q Hq (p' & Hq' & Hp')%list_elem_of_bind. rewrite <- registered_queues_of in Hq, Hq'.
    by rewrite (cw_unique _ _ Hc _ _ _ Hq Hq') in Hp.
Qed.

(** The effect of one notification on every queue. *)
Lemma process_spec GetNotification n nt :
  pointwise filters -> consumers_wf plat (consumers_ n) ->
  GetNotification (Notification_ID nt) = Ok nt ->
  exists n', processNotificationPayload filters GetNotification n (payload_of nt) = (n', Ok tt) /\
    isListening n' = isListening n /\ isConnected n' = isConnected n /\ consumers_ n' = consumers_ n /\
    lastKnownRevision n' = Revision nt /\
    (forall p q, registered_in (consumers_ n) p q ->
       queue_heap n' !! q = if decide (receives p nt) then (fun nq => offered nq nt) <$> queue_heap n !! q else queue_heap n !! q) /\
    (forall q, (forall p, ~ registered_in (consumers_ n) p q) -> queue_heap n' !! q = queue_heap n !! q).
Proof.
  intros Hf Hc Hget. unfold processNotificationPayload. cbn [payload_of payload_Revision payload_PlatformID payload_NotificationID].
  set (n0 := set_revision n (Revision nt)). set (rs := getRecipients n0 (PlatformID nt)).
  pose proof (fun x => elem_of_getRecipients n0 (PlatformID nt) x Hc) as Hrs. fold rs in Hrs.
  assert (Hids : NoDup (map Platform_ID (filterRecipients filters rs nt))).
  { unfold filterRecipients. rewrite filter_loop_pointwise by done. eapply sublist_NoDup; [apply (nodup_getRecipients n0 (PlatformID nt) Hc)|].
    apply fmap_sublist. apply sublist_filter. }
  pose proof (nodup_targets (consumers_ n) _ Hc Hids) as Hnd.
  assert (Hin : forall p q, registered_in (consumers_ n) p q ->
    q ∈ (map Platform_ID (filterRecipients filters rs nt) ≫= queues_of (consumers_ n)) <-> receives p nt).
  { intros p q Hq. rewrite list_elem_of_bind. unfold receives, filterRecipients. rewrite filter_loop_pointwise by done.
    assert (Hp : plat p ∈ platforms (consumers_ n)).
    { apply (cw_known _ _ Hc). rewrite Hplat. split; [done|]. destruct Hq as (qs & Hqs & _). by eexists. }
    split.
    - intros (p' & Hq' & (x & -> & [Hx Hin]%list_elem_of_filter)%list_elem_of_fmap).
      rewrite <- registered_queues_of in Hq'. pose proof (cw_unique _ _ Hc _ _ _ Hq Hq') as ->.
      apply Hrs in Hin as [Hin Hpid]. apply (cw_known _ _ Hc) in Hin as [Hxe _]. rewrite <- Hxe. split; [naive_solver|done].
    - intros [Hpid Hne]. exists p. split; [by apply registered_queues_of|]. apply list_elem_of_fmap. exists (plat p).
      split; [done|]. apply list_elem_of_filter. split; [done|]. apply Hrs. rewrite Hplat. split; [done|]. naive_solver. }
  assert (Hnone : forall q, (forall p, ~ registered_in (consumers_ n) p q) ->
    q ∉ (map Platform_ID (filterRecipients filters rs nt) ≫= queues_of (consumers_ n))).
  { intros q Hq (p & Hp & _)%list_elem_of_bind. apply (Hq p). by apply registered_queues_of. }
  assert (Hsend : exists n', match rs with
      | [] => (n0, Ok tt)
      | recipients => (set_heap n0 (foldl (fun h platform =>
             sendNotificationToPlatformConsumers h (queues_of (consumers_ n0) (Platform_ID platform)) nt)
             (queue_heap n0) (filterRecipients filters recipients nt)), Ok tt)
      end = (n', Ok tt) /\ n' = set_heap n0 (foldl (offer nt) (queue_heap n)
        (map Platform_ID (filterRecipients filters rs nt) ≫= queues_of (consumers_ n)))).
  { destruct rs as [|r rs'] eqn:E.
    - eexists. split; [reflexivity|]. unfold filterRecipients. rewrite filter_loop_pointwise by done. done.
    - eexists. split; [reflexivity|]. by rewrite foldl_send. }
  destruct Hsend as (n' & Hs & ->). exists (set_heap n0 (foldl (offer nt) (queue_heap n)
        (map Platform_ID (filterRecipients filters rs nt) ≫= queues_of (consumers_ n)))).
  split; [rewrite <- Hs; rewrite Hget; by destruct rs|]. split_and!; try done.
  - intros p q Hq. simpl. rewrite lookup_foldl_offer by done. specialize (Hin p q Hq).
    destruct (decide _), (decide (receives p nt)); tauto.
  - intros q Hq. simpl. rewrite lookup_foldl_offer by done. rewrite decide_False by auto. done.
Qed.
End Filters.
