(* ===== verification/Delivery.v ===== *)
(** * Delivery of notifications: the notificator with its database and its consumers

    The critical sections of the notificator, the insertion of notifications, the cleaner
    and the readers of queues as steps in any order.  A notification is inserted when its
    transaction commits; the sequence gave it its revision before, so revisions need not grow
    with the insertions.  Listening and reading the last revision are two calls, between which
    notifications may be inserted, and the channel of the connection may hold announcements
    of an earlier listening.  The flag [orderly] singles out the runs without these three: there
    delivery is exact, while in others notifications are delivered twice or lost
    (DeliveryTheorems). *)

From S2P Require Import Prelude GoStd Errors Notifications NotificationsProps.
From stdpp Require Import base gmap strings list pretty sorting.
From Stdlib Require Import ZArith Lia.
Local Open Scope string_scope.
Local Open Scope Z_scope.

(** ** What the database answers *)
Section Database.
Implicit Types db : list Notification.
Definition GetNotification db (id : string) : result Notification :=
  match List.find (fun nt => String.eqb (Notification_ID nt) id) db with Some nt => Ok nt | None => Err ENotFoundInStorage end.
Definition GetNotificationByRevision db (revision : Z) : result Notification :=
  match List.filter (fun nt => Revision nt =? revision) db with
  | [] => Err ENotFoundInStorage
  | [nt] => Ok nt
  | l => Err (EPlain ("expected one notification with revision " ++ pretty revision ++ " got " ++ pretty (length l)))
  end.
(** Ordered by the revision. *)
Definition by_revision_le (x y : Notification) : Prop := Revision x <= Revision y.
#[global] Instance by_revision_le_dec x y : Decision (by_revision_le x y).
Proof. unfold by_revision_le. apply _. Defined.
#[global] Typeclasses Opaque by_revision_le.
Definition ListNotifications db (platformID : string) (from to : Z) : result (list Notification) :=
  Ok (merge_sort by_revision_le
        (filter (fun nt => from < Revision nt /\ Revision nt <= to /\ (PlatformID nt = "" \/ PlatformID nt = platformID)) db)).
Definition GetLastRevision db : result Z :=
  Ok (match db with [] => InvalidRevision | nt :: db => foldr (fun x m => Z.max (Revision x) m) (Revision nt) db end).
End Database.

(** A registered consumer: its platform, the revision it came with, the number of
    notifications that had been inserted up to that one, and what it has received. *)
Record session := { s_platform : string; s_known : Z; s_start : nat; s_received : list Notification }.
(** A registration between its critical sections. *)
Record pending_registration := { r_platform : string; r_known : Z; r_toSM : Z; r_start : nat }.

Record system := {
  note : Notificator;
  log : list Notification;                     (** all that was ever inserted *)
  cleaned : nat;                               (** how many of them the cleaner has deleted *)
  announced : nat;                             (** how many the notificator has processed or skipped *)
  chan : list notifyEventPayload;              (** in the channel of the connection *)
  sessions : gmap string session;
  pendings : gmap string pending_registration
}.
Definition rows (s : system) : list Notification := drop (cleaned s) (log s).

Section System.
Context (filters : list (list Platform -> Notification -> list Platform)) (queueSize : nat).
Context (plat : string -> Platform).

Definition set_note (s : system) (n : Notificator) : system :=
  {| note := n; log := log s; cleaned := cleaned s; announced := announced s; chan := chan s;
     sessions := sessions s; pendings := pendings s |}.
Definition set_chan (s : system) (a : nat) (c : list notifyEventPayload) : system :=
  {| note := note s; log := log s; cleaned := cleaned s; announced := a; chan := c;
     sessions := sessions s; pendings := pendings s |}.
Definition set_log (s : system) (l : list Notification) (k : nat) : system :=
  {| note := note s; log := l; cleaned := k; announced := announced s; chan := chan s;
     sessions := sessions s; pendings := pendings s |}.
Definition set_sessions (s : system) (m : gmap string session) : system :=
  {| note := note s; log := log s; cleaned := cleaned s; announced := announced s; chan := chan s;
     sessions := m; pendings := pendings s |}.
Definition set_pendings (s : system) (m : gmap string pending_registration) : system :=
  {| note := note s; log := log s; cleaned := cleaned s; announced := announced s; chan := chan s;
     sessions := sessions s; pendings := m |}.

(** An insertion is announced if the connection listens: it does so from the call of [Listen]
    until [Unlisten], which may fail, so also while [isListening] is not set. *)
Definition insert_notification (s : system) (heard : bool) (nt : Notification) : system :=
  set_chan (set_log s (log s ++ [nt])%list (cleaned s)) (announced s)
    (if heard then (chan s ++ [payload_of nt])%list else chan s).
(** Revisions and ids are unique. *)
Definition insertable (l : list Notification) (nt : Notification) : Prop :=
  0 < Revision nt /\ forall x, x ∈ l -> Revision x <> Revision nt /\ Notification_ID x <> Notification_ID nt.
Inductive insertable_all : list Notification -> list Notification -> Prop :=
  | insertable_nil l : insertable_all l []
  | insertable_cons l nt rest : insertable l nt -> insertable_all (l ++ [nt])%list rest -> insertable_all l (nt :: rest).
Definition fresh_queue (s : system) (q : string) : Prop := queue_heap (note s) !! q = None.
(** When listening begins, everything inserted so far counts as announced. *)
Definition begin_announced (s : system) : nat := if isListening (note s) then announced s else length (log s).
Definition take_received (ses : session) (nt : Notification) : session :=
  {| s_platform := s_platform ses; s_known := s_known ses; s_start := s_start ses; s_received := (s_received ses ++ [nt])%list |}.

(** With [orderly]: notifications commit in the order of their revisions and are announced exactly
    while [isListening] is set, and listening begins with an empty channel, with no insertion
    between the calls of [Listen] and [GetLastRevision]. *)
Variable orderly : bool.

Inductive step : system -> system -> Prop :=
  | step_insert s nt heard :
      insertable (log s) nt -> (isListening (note s) = true -> heard = true) ->
      (orderly = true -> heard = isListening (note s) /\ forall x, x ∈ log s -> Revision x < Revision nt) ->
      step s (insert_notification s heard nt)
  | step_clean s k : (cleaned s <= k <= length (log s))%nat -> step s (set_log s (log s) k)
  | step_process s p rest :
      isListening (note s) = true -> chan s = p :: rest ->
      step s (set_note (set_chan s (S (announced s)) rest) (process_one filters (GetNotification (rows s)) (note s) (Ok p)))
  | step_stop s : isListening (note s) = true -> step s (set_note s (stop_processing (note s)))
  | step_discard s : isListening (note s) = false -> step s (set_chan s (announced s) [])
  | step_connection s b : step s (set_note s (connection_event (note s) b))
  | step_begin s p known q n toSM between :
      fresh_queue s q -> insertable_all (log s) between -> (isListening (note s) = true -> between = []) ->
      (orderly = true -> isListening (note s) = true \/ (chan s = [] /\ between = [])) ->
      register_begin queueSize (note s) (plat p) (Ok q) None (GetLastRevision (drop (cleaned s) (log s ++ between))) = (n, Ok (q, toSM)) ->
      step s
        (let s0 := set_log s (log s ++ between)%list (cleaned s) in
         let s' := set_chan (set_note s0 n) (begin_announced s0) (chan s ++ map payload_of between)%list in
         match compare_revisions known toSM with
         | UpToDate => set_sessions s' (<[q := {| s_platform := p; s_known := known; s_start := begin_announced s0; s_received := [] |}]> (sessions s'))
         | _ => set_pendings s' (<[q := {| r_platform := p; r_known := known; r_toSM := toSM; r_start := begin_announced s0 |}]> (pendings s'))
         end)
  | step_refused s p q listen last n e :
      fresh_queue s q -> register_begin queueSize (note s) (plat p) (Ok q) listen last = (n, Err e) -> step s (set_note s n)
  | step_unknown s q r :
      pendings s !! q = Some r -> compare_revisions (r_known r) (r_toSM r) = UnknownRevision ->
      step s (set_pendings (set_note s (UnregisterConsumer (note s) q)) (delete q (pendings s)))
  | step_finish s q r q' n res :
      pendings s !! q = Some r -> compare_revisions (r_known r) (r_toSM r) = MissedNotifications -> fresh_queue s q' ->
      register_finish filters queueSize (note s) (plat (r_platform r)) q (Ok q') (GetNotificationByRevision (rows s) (r_known r))
        (ListNotifications (rows s) (r_platform r) (r_known r) (r_toSM r)) = (n, res) ->
      step s
        (let s' := set_pendings (set_note s n) (delete q (pendings s)) in
         match res with
         | Ok _ => set_sessions s' (<[q' := {| s_platform := r_platform r; s_known := r_known r;
             s_start := length (filter (fun nt => Revision nt <= r_known r) (log s)); s_received := [] |}]> (sessions s'))
         | _ => s'
         end)
  | step_receive s q ses nq nq' nt :
      sessions s !! q = Some ses -> queue_heap (note s) !! q = Some nq -> receive nq = (nq', Received nt) ->
      step s (set_sessions (set_note s (set_heap (note s) (<[q := nq']> (queue_heap (note s)))))
               (<[q := take_received ses nt]> (sessions s)))
  | step_unregister s q ses :
      sessions s !! q = Some ses -> step s (set_note s (UnregisterConsumer (note s) q)).

Definition initial : system :=
  {| note := NewNotificator; log := []; cleaned := 0; announced := 0; chan := []; sessions := ∅; pendings := ∅ |}.
Inductive reachable : system -> Prop :=
  | reachable_initial : reachable initial
  | reachable_step s s' : reachable s -> step s s' -> reachable s'.
End System.
