(* ===== verification/DeliveryInvariant.v ===== *)
(** * The invariant of the delivery of notifications

    For every state that an orderly run reaches: the channel announces exactly what was inserted after the last
    announcement; an open queue, with what its consumer has received before, holds all
    announced notifications for its platform in order, and a closed one a prefix of them. *)

From S2P Require Import Prelude GoStd Errors Notifications NotificationsProps Delivery.
From stdpp Require Import base gmap strings list sorting.
From Stdlib Require Import ZArith Lia.
Local Open Scope string_scope.
Local Open Scope nat_scope.

Section Invariant.
Context (filters : list (list Platform -> Notification -> list Platform)) (queueSize : nat).
Context (plat : string -> Platform).
Implicit Types (n : Notificator) (l : list Notification) (a : nat).

(** The notifications from [start] on among the first [a]. *)
Definition slice (start a : nat) l : list Notification := drop start (take a l).
(** The revision [r] is that of the last of the first [a] notifications, or there is none. *)
Definition revision_at (r : Z) (a : nat) l : Prop :=
  r = InvalidRevision \/ exists nt, 0 < a /\ l !! pred a = Some nt /\ Revision nt = r.

Definition session_ok n l a (q : string) (ses : session) : Prop :=
  s_start ses <= length l /\ revision_at (s_known ses) (s_start ses) l /\
  exists nq, queue_heap n !! q = Some nq /\
    (s_received ses ++ notificationsChannel nq)%list `prefix_of` relevant filters plat (s_platform ses) (drop (s_start ses) l) /\
    (isClosed nq = false -> isListening n = true /\ s_start ses <= a /\ registered_in (consumers_ n) (s_platform ses) q /\
      (s_received ses ++ notificationsChannel nq)%list = relevant filters plat (s_platform ses) (slice (s_start ses) a l)).
Definition pending_ok n l a (q : string) (r : pending_registration) : Prop :=
  r_start r <= length l /\ revision_at (r_toSM r) (r_start r) l /\
  exists nq, queue_heap n !! q = Some nq /\
    (isClosed nq = false -> isListening n = true /\ r_start r <= a /\ registered_in (consumers_ n) (r_platform r) q /\
      notificationsChannel nq = relevant filters plat (r_platform r) (slice (r_start r) a l)).

(** The log: revisions grow and ids differ. *)
Record log_ok l : Prop := {
  lo_grow : forall i j x y, i < j -> l !! i = Some x -> l !! j = Some y -> (Revision x < Revision y)%Z;
  lo_positive : forall x, x ∈ l -> (0 < Revision x)%Z;
  lo_ids : NoDup (map Notification_ID l)
}.
(** The notificator by itself. *)
Record note_ok n : Prop := {
  no_consumers_ok : consumers_wf plat (consumers_ n);
  no_heap : forall p q, registered_in (consumers_ n) p q -> is_Some (queue_heap n !! q);
  no_idle : isListening n = false -> forall p q, ~ registered_in (consumers_ n) p q;
  no_queues : forall q nq, queue_heap n !! q = Some nq -> size_ nq = queueSize /\ length (notificationsChannel nq) <= queueSize
}.
Record inv (s : system) : Prop := {
  inv_log : log_ok (log s);
  inv_note : note_ok (note s);
  inv_chan : isListening (note s) = true ->
    announced s <= length (log s) /\ chan s = map payload_of (drop (announced s) (log s)) /\
    revision_at (lastKnownRevision (note s)) (announced s) (log s);
  inv_sessions : forall q ses, sessions s !! q = Some ses -> session_ok (note s) (log s) (announced s) q ses;
  inv_pendings : forall q r, pendings s !! q = Some r -> pending_ok (note s) (log s) (announced s) q r;
  inv_disjoint : forall q, is_Some (sessions s !! q) -> pendings s !! q = None
}.

(** ** Changes that leave the contents of a queue alone

    The queue keeps its contents and, unless it was or becomes closed, its registration. *)
Definition quieter n n' (q : string) : Prop :=
  forall nq, queue_heap n !! q = Some nq -> exists nq', queue_heap n' !! q = Some nq' /\
    notificationsChannel nq' = notificationsChannel nq /\
    (isClosed nq' = false -> isClosed nq = false /\
       forall p, registered_in (consumers_ n) p q -> isListening n' = isListening n /\ registered_in (consumers_ n') p q).

Lemma session_quieter n n' l a q ses : quieter n n' q -> session_ok n l a q ses -> session_ok n' l a q ses.
Proof.
  intros Hq (H1 & H2 & nq & Hnq & Hp & Ho). destruct (Hq nq Hnq) as (nq' & Hnq' & Hc & Hopen).
  split; [done|]. split; [done|]. exists nq'. rewrite Hc. split_and!; [done..|].
  intros Hcl. destruct (Hopen Hcl) as (Hcl' & Hr). destruct (Ho Hcl') as (? & ? & Hp' & ?).
  destruct (Hr _ Hp') as [-> ?]. done.
Qed.
Lemma pending_quieter n n' l a q r : quieter n n' q -> pending_ok n l a q r -> pending_ok n' l a q r.
Proof.
  intros Hq (H1 & H2 & nq & Hnq & Ho). destruct (Hq nq Hnq) as (nq' & Hnq' & Hc & Hopen).
  split; [done|]. split; [done|]. exists nq'. rewrite Hc. split; [done|].
  intros Hcl. destruct (Hopen Hcl) as (Hcl' & Hr). destruct (Ho Hcl') as (? & ? & Hp' & ?).
  destruct (Hr _ Hp') as [-> ?]. done.
Qed.

(** With nothing open the number of announcements does not matter. *)
Lemma session_idle n l a a' q ses : isListening n = false -> session_ok n l a q ses -> session_ok n l a' q ses.
Proof.
  intros Hi (H1 & H2 & nq & Hnq & Hp & Ho). split; [done|]. split; [done|]. exists nq. split_and!; [done..|].
  intros Hcl. destruct (Ho Hcl) as (? & _). congruence.
Qed.
Lemma pending_idle n l a a' q r : isListening n = false -> pending_ok n l a q r -> pending_ok n l a' q r.
Proof.
  intros Hi (H1 & H2 & nq & Hnq & Ho). split; [done|]. split; [done|]. exists nq. split; [done|].
  intros Hcl. destruct (Ho Hcl) as (? & _). congruence.
Qed.

(** ** Insertions *)
Lemma revision_at_app r a l nt : a <= length l -> revision_at r a l -> revision_at r a (l ++ [nt])%list.
Proof.
  intros Ha [->|(x & Hpos & Hx & Hr)]; [by left|right]. exists x. split_and!; [done| |done].
  by apply lookup_app_l_Some.
Qed.
Lemma slice_app start a l nt : a <= length l -> slice start a (l ++ [nt])%list = slice start a l.
Proof. intros Ha. unfold slice. by rewrite take_app_le. Qed.
Lemma session_insert n l a q ses nt :
  (isListening n = true -> a <= length l) -> session_ok n l a q ses -> session_ok n (l ++ [nt])%list a q ses.
Proof.
  intros Ha (H1 & H2 & nq & Hnq & Hp & Ho). split; [rewrite length_app; lia|]. split; [by apply revision_at_app|].
  exists nq. split; [done|]. split.
  - rewrite drop_app_le by done. rewrite relevant_app. by apply prefix_app_r.
  - intros Hcl. destruct (Ho Hcl) as (Hl & ? & ? & ?). rewrite slice_app by auto. done.
Qed.
Lemma pending_insert n l a q r nt :
  (isListening n = true -> a <= length l) -> pending_ok n l a q r -> pending_ok n (l ++ [nt])%list a q r.
Proof.
  intros Ha (H1 & H2 & nq & Hnq & Ho). split; [rewrite length_app; lia|]. split; [by apply revision_at_app|].
  exists nq. split; [done|]. intros Hcl. destruct (Ho Hcl) as (Hl & ? & ? & ?). rewrite slice_app by auto. done.
Qed.

Lemma log_insert l nt :
  log_ok l -> (0 < Revision nt)%Z ->
  (forall x, x ∈ l -> (Revision x < Revision nt)%Z /\ Notification_ID x <> Notification_ID nt) -> log_ok (l ++ [nt])%list.
Proof.
  intros [H1 H2 H3] Hp Hnew. split.
  - intros i j x y Hij Hx Hy. apply lookup_app_Some in Hy as [Hy|[Hj Hy]].
    + apply (H1 i j x y Hij); [|done]. apply lookup_lt_Some in Hy. rewrite lookup_app_l in Hx by lia. done.
    + apply list_lookup_singleton_Some in Hy as [Hj' <-]. rewrite lookup_app_l in Hx by lia.
      apply Hnew. by eapply list_elem_of_lookup_2.
  - intros x [Hx| ->%list_elem_of_singleton]%elem_of_app; auto.
  - rewrite map_app. apply NoDup_app. split_and!; [done| |apply NoDup_singleton].
    intros i (x & -> & Hx)%list_elem_of_fmap Hi%list_elem_of_singleton. by destruct (Hnew x Hx).
Qed.

(** ** Announcements *)
Lemma slice_snoc start a l nt : l !! a = Some nt -> start <= a -> slice start (S a) l = (slice start a l ++ [nt])%list.
Proof.
  intros Hnt Hs. unfold slice. rewrite (take_S_r l a nt Hnt). apply drop_app_le.
  rewrite length_take. apply lookup_lt_Some in Hnt. lia.
Qed.
Lemma slice_prefix p start a l :
  relevant filters plat p (slice start a l) `prefix_of` relevant filters plat p (drop start l).
Proof.
  unfold slice. destruct (decide (start <= a)) as [Hs|Hs].
  - exists (relevant filters plat p (drop a l)). rewrite <- relevant_app. f_equal.
    destruct (decide (a <= length l)) as [Ha|Ha].
    + rewrite <- (take_drop a l) at 1. rewrite drop_app_le; [done|]. rewrite length_take. lia.
    + rewrite (take_ge l a), (drop_ge l a) by lia. by rewrite app_nil_r.
  - rewrite drop_ge by (rewrite length_take; lia). apply prefix_nil.
Qed.

Lemma offered_cases nq nt :
  size_ (offered nq nt) = size_ nq /\
  ((isClosed nq = false /\ length (notificationsChannel nq) < size_ nq /\ isClosed (offered nq nt) = false /\
    notificationsChannel (offered nq nt) = (notificationsChannel nq ++ [nt])%list) \/
   (isClosed (offered nq nt) = true /\ notificationsChannel (offered nq nt) = notificationsChannel nq)).
Proof.
  unfold offered, Enqueue. destruct (isClosed nq) eqn:E; [by split; [|right]|].
  destruct (Nat.leb_spec (size_ nq) (length (notificationsChannel nq))); [by split; [|right]|]. split; [done|]. by left.
Qed.

(** The effect of processing a notification, as in [process_spec]. *)
Definition sent n n' nt : Prop :=
  isListening n' = isListening n /\ consumers_ n' = consumers_ n /\ lastKnownRevision n' = Revision nt /\
  (forall p q, registered_in (consumers_ n) p q ->
     queue_heap n' !! q = if decide (receives filters plat p nt) then (fun nq => offered nq nt) <$> queue_heap n !! q else queue_heap n !! q) /\
  (forall q, (forall p, ~ registered_in (consumers_ n) p q) -> queue_heap n' !! q = queue_heap n !! q).

Lemma registered_or c q : (exists p, registered_in c p q) \/ (forall p, ~ registered_in c p q).
Proof.
  destruct (consumers_find c q) as [[p i]|] eqn:E; [left|right; by apply find_not_registered].
  apply find_registered in E as (qs & Hqs & Hi). exists p, qs. split; [done|]. by eapply list_elem_of_lookup_2.
Qed.
(** A queue after it: as it was, or offered the notification. *)
Lemma sent_queue n n' nt q nq :
  sent n n' nt -> queue_heap n !! q = Some nq ->
  exists nq', queue_heap n' !! q = Some nq' /\ (nq' = nq \/ nq' = offered nq nt) /\
    forall p, registered_in (consumers_ n) p q -> nq' = if decide (receives filters plat p nt) then offered nq nt else nq.
Proof.
  intros (_ & _ & _ & Hreg & Hnot) Hq. destruct (registered_or (consumers_ n) q) as [[p Hp]|Hn].
  - pose proof (Hreg p q Hp) as Hh. rewrite Hq in Hh. simpl in Hh.
    destruct (decide (receives filters plat p nt)) as [Hr|Hr]; eexists; (split; [done|]); (split; [auto|]); intros p' Hp';
      pose proof (Hreg p' q Hp') as Hh'; rewrite Hq, Hh in Hh'; simpl in Hh'; destruct (decide _); congruence.
  - exists nq. split; [by rewrite Hnot|]. split; [by left|]. intros p Hp. by destruct (Hn p).
Qed.

Lemma session_sent n n' l a nt q ses :
  l !! a = Some nt -> sent n n' nt -> session_ok n l a q ses -> session_ok n' l (S a) q ses.
Proof.
  intros Hnt Hsent (H1 & H2 & nq & Hnq & Hp & Ho). split; [done|]. split; [done|].
  destruct (sent_queue n n' nt q nq Hsent Hnq) as (nq' & Hnq' & Hor & Hreg). exists nq'. split; [done|].
  destruct Hsent as (Hl & Hc & _). destruct (isClosed nq) eqn:Ecl.
  - destruct (offered_cases nq nt) as [_ [[? _]|[Hc1 Hc2]]]; [congruence|].
    destruct Hor as [->| ->]; [rewrite Ecl|rewrite Hc1, Hc2]; done.
  - destruct (Ho eq_refl) as (Hli & Hst & Hr & He). pose proof (Hreg _ Hr) as Hnq''.
    pose proof (slice_snoc _ _ _ _ Hnt Hst) as Hsl.
    destruct (decide (receives filters plat (s_platform ses) nt)) as [Hrec|Hrec]; subst nq'.
    + destruct (offered_cases nq nt) as [_ [(_ & _ & Hc1 & Hc2)|[Hc1 Hc2]]]; rewrite Hc1, Hc2; [|done].
      assert (Heq : (s_received ses ++ notificationsChannel nq ++ [nt])%list =
        relevant filters plat (s_platform ses) (slice (s_start ses) (S a) l)).
      { rewrite Hsl, relevant_app, app_assoc, He. f_equal. unfold relevant. by rewrite filter_cons_True. }
      split; [rewrite Heq; apply slice_prefix|]. intros _. rewrite Hl, Hc. split_and!; try done; lia.
    + split; [done|]. intros _. rewrite Hl, Hc. split_and!; try done; [lia|].
      rewrite Hsl, relevant_app, He. unfold relevant. rewrite (filter_cons_False _ nt) by done. by rewrite app_nil_r.
Qed.
Lemma pending_sent n n' l a nt q r :
  l !! a = Some nt -> sent n n' nt -> pending_ok n l a q r -> pending_ok n' l (S a) q r.
Proof.
  intros Hnt Hsent (H1 & H2 & nq & Hnq & Ho). split; [done|]. split; [done|].
  destruct (sent_queue n n' nt q nq Hsent Hnq) as (nq' & Hnq' & Hor & Hreg). exists nq'. split; [done|].
  destruct Hsent as (Hl & Hc & _). destruct (isClosed nq) eqn:Ecl.
  - destruct (offered_cases nq nt) as [_ [[? _]|[Hc1 Hc2]]]; [congruence|].
    destruct Hor as [->| ->]; [by rewrite Ecl|by rewrite Hc1].
  - destruct (Ho eq_refl) as (Hli & Hst & Hr & He). pose proof (Hreg _ Hr) as Hnq''.
    pose proof (slice_snoc _ _ _ _ Hnt Hst) as Hsl. intros Hcl. rewrite Hl, Hc, Hsl, relevant_app, <- He.
    split_and!; try done; [lia|]. unfold relevant.
    destruct (decide (receives filters plat (r_platform r) nt)) as [Hrec|Hrec]; subst nq'.
    + rewrite filter_cons_True by done. destruct (offered_cases nq nt) as [_ [(_ & _ & _ & ->)|[Hc1 _]]]; [done|congruence].
    + rewrite filter_cons_False by done. by rewrite app_nil_r.
Qed.
Lemma sent_heap n n' nt q : sent n n' nt -> is_Some (queue_heap n' !! q) -> is_Some (queue_heap n !! q).
Proof.
  intros (_ & _ & _ & Hreg & Hnot) Hq. destruct (registered_or (consumers_ n) q) as [[p Hp]|Hn]; [|by rewrite <- Hnot].
  rewrite (Hreg p q Hp) in Hq. destruct (decide _); [by apply fmap_is_Some in Hq|done].
Qed.
Lemma note_sent n n' nt : sent n n' nt -> note_ok n -> note_ok n'.
Proof.
  intros Hsent [H1 H2 H3 H4]. pose proof Hsent as (Hl & Hc & _). split; rewrite ?Hc, ?Hl; try done.
  - intros p q Hq. destruct (H2 p q Hq) as [nq Hnq]. destruct (sent_queue n n' nt q nq Hsent Hnq) as (nq' & -> & _). by eexists.
  - intros q nq' Hnq'. destruct (sent_heap n n' nt q Hsent) as [nq Hnq]; [by eexists|]. destruct (H4 q nq Hnq) as [Hs Hlen].
    destruct (sent_queue n n' nt q nq Hsent Hnq) as (nq'' & Hnq'' & Hor & _). rewrite Hnq' in Hnq''. injection Hnq'' as <-.
    destruct Hor as [->| ->]; [done|]. destruct (offered_cases nq nt) as [Hsz [(_ & Hlt & _ & ->)|[_ ->]]]; rewrite Hsz; [|done].
    rewrite length_app. simpl. lia.
Qed.

(** ** Changes of the notificator alone *)
Lemma inv_quieter s n' :
  inv s -> note_ok n' -> (forall q, quieter (note s) n' q) ->
  (isListening n' = true -> isListening (note s) = true /\ lastKnownRevision n' = lastKnownRevision (note s)) ->
  inv (set_note s n').
Proof.
  intros [H1 H2 H3 H4 H5 H6] Hn Hq Hl. split; simpl; try done.
  - intros Hl'. destruct (Hl Hl') as [Hli ->]. auto.
  - intros q ses Hs. eapply session_quieter; eauto.
  - intros q r Hr. eapply pending_quieter; eauto.
Qed.

Lemma stop_quieter n n0 q :
  queue_heap n0 = queue_heap n -> consumers_ n0 = consumers_ n -> quieter n (stop_processing n0) q.
Proof.
  intros Hh Hc nq Hnq. unfold stop_processing, closeAllConsumers. simpl. rewrite lookup_foldl_close, Hh, Hnq, Hc. simpl.
  destruct (decide (q ∈ all_queues (consumers_ n))) as [Hin|Hnot].
  - exists (Close nq). split_and!; [done..|]. by intros ?.
  - exists nq. split_and!; [done..|]. intros Hcl. split; [done|]. intros p Hp. destruct Hnot. apply elem_of_all_queues. eauto.
Qed.
Lemma stop_note n n0 :
  queue_heap n0 = queue_heap n -> consumers_ n0 = consumers_ n -> note_ok n -> note_ok (stop_processing n0).
Proof.
  intros Hh Hc [H1 H2 H3 H4]. unfold stop_processing, closeAllConsumers. split; simpl.
  - apply no_consumers_wf.
  - intros p q (qs & Hqs & _). simpl in Hqs. by rewrite lookup_empty in Hqs.
  - intros _ p q (qs & Hqs & _). simpl in Hqs. by rewrite lookup_empty in Hqs.
  - intros q nq. rewrite lookup_foldl_close, Hh. destruct (decide _); [|apply H4].
    destruct (queue_heap n !! q) as [nq0|] eqn:E; simpl; [|done]. intros [= <-]. apply (H4 q nq0 E).
Qed.

Lemma len_zero c p q : consumers_Len c = 0 -> ~ registered_in c p q.
Proof. intros H0 (qs & Hqs & _). apply map_size_empty_inv in H0. by rewrite H0, lookup_empty in Hqs. Qed.
Lemma unregister_spec n q :
  note_ok n ->
  note_ok (UnregisterConsumer n q) /\ (forall q2, quieter n (UnregisterConsumer n q) q2) /\
  isListening (UnregisterConsumer n q) = isListening n /\ lastKnownRevision (UnregisterConsumer n q) = lastKnownRevision n /\
  consumers_ (UnregisterConsumer n q) = (if decide (consumers_Len (consumers_ n) = 0) then consumers_ n else consumers_Delete (consumers_ n) q).
Proof.
  intros Hn. pose proof Hn as [H1 H2 H3 H4].
  assert (Hh : queue_heap (UnregisterConsumer n q) = close_queue (queue_heap n) q).
  { unfold UnregisterConsumer. destruct (_ =? 0); [done|]. by destruct (_ =? 0). }
  assert (Hl : isListening (UnregisterConsumer n q) = isListening n /\ lastKnownRevision (UnregisterConsumer n q) = lastKnownRevision n).
  { unfold UnregisterConsumer. destruct (_ =? 0); [done|]. by destruct (_ =? 0). }
  assert (Hc : consumers_ (UnregisterConsumer n q) = (if decide (consumers_Len (consumers_ n) = 0) then consumers_ n else consumers_Delete (consumers_ n) q)).
  { unfold UnregisterConsumer. cbn [consumers_ set_heap]. destruct (decide (consumers_Len (consumers_ n) = 0)) as [Hz|Hz]; [by rewrite Hz|].
    apply Nat.eqb_neq in Hz. rewrite Hz. clear Hz. cbn zeta. destruct (consumers_Len _ =? 0); reflexivity. }
  destruct Hl as [Hl1 Hl2].
  assert (Hr : consumers_wf plat (consumers_ (UnregisterConsumer n q)) /\
    forall p2 q2, registered_in (consumers_ (UnregisterConsumer n q)) p2 q2 <-> q2 <> q /\ registered_in (consumers_ n) p2 q2).
  { rewrite Hc. destruct (decide _) as [Hz|_]; [|by apply delete_registered]. split; [done|].
    intros p2 q2. split; [|tauto]. intros Hr. by destruct (len_zero _ p2 q2 Hz). }
  destruct Hr as [Hw Hr]. split_and!; try done.
  - split; [done| | |].
    + intros p q2 [_ Hq2]%Hr. rewrite Hh, lookup_close_queue. destruct (H2 _ _ Hq2) as [nq ->]. destruct (decide (q2 = q)); simpl; eauto.
    + rewrite Hl1. intros Hi p q2 [_ Hq2]%Hr. by destruct (H3 Hi p q2).
    + intros q2 nq. rewrite Hh, lookup_close_queue. destruct (decide (q2 = q)); [|apply H4].
      destruct (queue_heap n !! q2) as [nq0|] eqn:E; simpl; [|done]. intros [= <-]. apply (H4 q2 nq0 E).
  - intros q2 nq Hnq. rewrite Hh, lookup_close_queue, Hnq. simpl. destruct (decide (q2 = q)) as [->|Hne].
    + exists (Close nq). split_and!; [done..|]. by intros ?.
    + exists nq. split_and!; [done..|]. intros Hcl. split; [done|]. intros p Hp. rewrite Hr. done.
Qed.

Lemma unregister_inv s q : inv s -> inv (set_note s (UnregisterConsumer (note s) q)).
Proof.
  intros Hi. destruct (unregister_spec (note s) q (inv_note s Hi)) as (Hn & Hq & Hl & Hr & _).
  apply inv_quieter; try done. by rewrite Hl, Hr.
Qed.
Lemma pending_dropped s q : inv s -> inv (set_pendings s (delete q (pendings s))).
Proof.
  intros [H1 H2 H3 H4 H5 H6]. split; simpl; try done.
  - intros q' r [_ Hr]%lookup_delete_Some. by apply H5.
  - intros q' Hq'. rewrite lookup_delete_None. auto.
Qed.

(** ** Processing a notification *)
Lemma process_cases Get n nt :
  pointwise filters -> (forall id, Platform_ID (plat id) = id) -> note_ok n ->
  (Get (Notification_ID nt) = Ok nt \/ exists e, Get (Notification_ID nt) = Err e) ->
  (exists n', processNotificationPayload filters Get n (payload_of nt) = (n', Ok tt) /\ sent n n' nt) \/
  (exists e, processNotificationPayload filters Get n (payload_of nt) = (set_revision n (Revision nt), Err e)).
Proof.
  intros Hf Hplat [Hc _ _ _] Hget.
  destruct (process_spec filters plat Hplat (fun _ => Ok nt) n nt Hf Hc eq_refl) as (n' & Hp & H1 & _ & H3 & H4 & H5 & H6).
  assert (Hs : sent n n' nt) by done. clear H1 H3 H4 H5 H6.
  unfold processNotificationPayload in *. cbn [payload_of payload_Revision payload_PlatformID payload_NotificationID] in *.
  destruct (getRecipients _ _) as [|r rs]; [left; by exists n'|].
  destruct Hget as [-> |[e ->]]; [left; by exists n'|right; by eexists].
Qed.

Lemma same_id l x y : NoDup (map Notification_ID l) -> x ∈ l -> y ∈ l -> Notification_ID x = Notification_ID y -> x = y.
Proof.
  intros Hd [i Hi]%list_elem_of_lookup [j Hj]%list_elem_of_lookup He.
  assert (i = j) as ->; [|congruence]. eapply (NoDup_lookup (map Notification_ID l)); [done| |].
  - change (map Notification_ID l) with (Notification_ID <$> l). by rewrite list_lookup_fmap, Hi.
  - change (map Notification_ID l) with (Notification_ID <$> l). rewrite list_lookup_fmap, Hj. simpl. congruence.
Qed.
Lemma get_notification s a nt :
  log_ok (log s) -> log s !! a = Some nt ->
  GetNotification (rows s) (Notification_ID nt) = Ok nt \/ exists e, GetNotification (rows s) (Notification_ID nt) = Err e.
Proof.
  intros Hl Hnt. unfold GetNotification. destruct (List.find _ _) as [x|] eqn:E; [left|right; by eexists].
  apply find_some in E as [Hx He%String.eqb_eq]. f_equal. apply (same_id (log s)); [apply Hl| | |done].
  - apply list_elem_of_In in Hx. unfold rows in Hx. by apply elem_of_drop_1 in Hx || (eapply elem_of_submseteq; [exact Hx|apply sublist_submseteq, sublist_drop]).
  - by eapply list_elem_of_lookup_2.
Qed.

Lemma process_inv s p rest :
  pointwise filters -> (forall id, Platform_ID (plat id) = id) -> inv s ->
  isListening (note s) = true -> chan s = p :: rest ->
  inv (set_note (set_chan s (S (announced s)) rest) (process_one filters (GetNotification (rows s)) (note s) (Ok p))).
Proof.
  intros Hf Hplat Hi Hl Hch. pose proof Hi as [H1 H2 H3 H4 H5 H6]. destruct (H3 Hl) as (Ha & Hc & Hr).
  assert (exists nt, log s !! announced s = Some nt /\ p = payload_of nt /\ rest = map payload_of (drop (S (announced s)) (log s))) as (nt & Hnt & -> & ->).
  { rewrite Hch in Hc. destruct (drop (announced s) (log s)) as [|nt l'] eqn:E; [done|]. injection Hc as -> ->.
    exists nt. pose proof (lookup_drop (log s) (announced s) 0) as Hd. rewrite E, Nat.add_0_r in Hd. simpl in Hd.
    split_and!; [done..|]. f_equal. by rewrite (drop_S (log s) nt (announced s) (eq_sym Hd)) in E; injection E. }
  unfold process_one.
  destruct (process_cases _ (note s) nt Hf Hplat H2 (get_notification s (announced s) nt H1 Hnt)) as [(n' & -> & Hs)|(e & ->)].
  - split; simpl; [done|by eapply note_sent| | |  |done].
    + intros _. pose proof (lookup_lt_Some _ _ _ Hnt). split; [lia|]. split; [done|]. right. exists nt.
      split; [lia|]. simpl. split; [done|]. symmetry. apply Hs.
    + intros q ses Hses. eapply session_sent; eauto.
    + intros q r Hr'. eapply pending_sent; eauto.
  - set (s' := set_chan s (S (announced s)) (map payload_of (drop (S (announced s)) (log s)))).
    split; simpl; [done|by eapply (stop_note (note s))| | | |done].
    + done.
    + intros q ses Hses. eapply (session_idle _ _ (announced s)); [done|]. apply (session_quieter (note s)); [by apply stop_quieter|by apply H4].
    + intros q r Hr'. eapply (pending_idle _ _ (announced s)); [done|]. apply (pending_quieter (note s)); [by apply stop_quieter|by apply H5].
Qed.

(** ** Registration: the first critical section *)
Lemma not_registered n q : note_ok n -> queue_heap n !! q = None -> forall p, ~ registered_in (consumers_ n) p q.
Proof. intros Hn Hq p Hp. destruct (no_heap n Hn p q Hp) as [nq Hnq]. congruence. Qed.

Lemma begin_spec n0 p q rev n toSM :
  (forall id, Platform_ID (plat id) = id) -> note_ok n0 -> queue_heap n0 !! q = None ->
  register_begin queueSize n0 (plat p) (Ok q) None (Ok rev) = (n, Ok (q, toSM)) ->
  note_ok n /\ isListening n = true /\ toSM = lastKnownRevision n /\
  lastKnownRevision n = (if isListening n0 then lastKnownRevision n0 else rev) /\
  (forall q2, q2 <> q -> quieter n0 n q2) /\ queue_heap n !! q = Some (NewNotificationQueue queueSize) /\
  registered_in (consumers_ n) p q.
Proof.
  intros Hplat Hn Hq Hb. pose proof (not_registered n0 q Hn Hq) as Hnr. pose proof Hn as [H1 H2 H3 H4].
  unfold register_begin in Hb. destruct (isConnected n0); [|done]. cbn [negb] in Hb.
  assert (Hn' : queue_heap n = <[q := NewNotificationQueue queueSize]> (queue_heap n0) /\
    consumers_ n = consumers_Add (consumers_ n0) (plat p) q /\ isListening n = true /\ toSM = lastKnownRevision n /\
    lastKnownRevision n = (if isListening n0 then lastKnownRevision n0 else rev)).
  { unfold addConsumer in Hb. cbn [isListening set_heap] in Hb. destruct (isListening n0) eqn:El; injection Hb as <- <-; by rewrite ?El. }
  clear Hb. destruct Hn' as (Hh & Hc & Hl & Ht & Hr).
  assert (Hreg : forall p2 q2, registered_in (consumers_ n) p2 q2 <-> registered_in (consumers_ n0) p2 q2 \/ (p2 = p /\ q2 = q)).
  { intros p2 q2. rewrite Hc. by apply add_registered. }
  split_and!; try done.
  - split.
    + rewrite Hc. by apply add_wf.
    + intros p2 q2. rewrite Hreg, Hh. intros [Ho|[-> ->]]; [|rewrite lookup_insert_eq; eauto].
      destruct (decide (q2 = q)) as [->|]; [rewrite lookup_insert_eq; eauto|]. rewrite lookup_insert_ne by done. eauto.
    + by rewrite Hl.
    + intros q2 nq. rewrite Hh. destruct (decide (q2 = q)) as [->|]; [|rewrite lookup_insert_ne by done; apply H4].
      rewrite lookup_insert_eq. intros [= <-]. simpl. split; [done|lia].
  - intros q2 Hne nq Hnq. exists nq. rewrite Hh, lookup_insert_ne by done. split_and!; [done..|]. intros Hcl. split; [done|].
    intros p2 Hp2. rewrite Hreg, Hl. split; [|by left]. destruct (isListening n0) eqn:E; [done|]. by destruct (H3 eq_refl p2 q2).
  - rewrite Hh. apply lookup_insert_eq.
  - rewrite Hreg. by right.
Qed.

Lemma growing_max x l m : (forall y, y ∈ l -> (Revision y <= m)%Z) -> (Revision x <= m)%Z -> (exists y, y ∈ x :: l /\ Revision y = m) ->
  foldr (fun y m => Z.max (Revision y) m) (Revision x) l = m.
Proof.
  intros Hle Hx (y & Hy & Hm).
  assert (Hub : (foldr (fun y m => Z.max (Revision y) m) (Revision x) l <= m)%Z).
  { clear Hm Hy. induction l as [|z l IH]; simpl; [done|]. apply Z.max_lub; [apply Hle; by left|]. apply IH. intros w Hw. apply Hle. by right. }
  assert (Hlb : (Revision y <= foldr (fun y m => Z.max (Revision y) m) (Revision x) l)%Z).
  { clear -Hy. induction l as [|z l IH]; simpl; [apply list_elem_of_singleton in Hy as ->; lia|].
    apply elem_of_cons in Hy as [->|[->|Hy]%elem_of_cons]; [|lia|]; etrans; [apply IH|apply Z.le_max_r|apply IH|apply Z.le_max_r]; [by left|by right]. }
  lia.
Qed.
Lemma revision_at_last l k : log_ok l ->
  revision_at (match drop k l with [] => InvalidRevision | nt :: db => foldr (fun x m => Z.max (Revision x) m) (Revision nt) db end) (length l) l.
Proof.
  intros Hl. destruct (drop k l) as [|nt db] eqn:E; [by left|right].
  assert (exists y, last (drop k l) = Some y) as (y & Hy) by (rewrite E; by apply last_is_Some). exists y.
  assert (Hlen : length (drop k l) = S (length db)) by (by rewrite E). rewrite length_drop in Hlen.
  rewrite last_lookup, lookup_drop, length_drop in Hy. replace (k + pred (length l - k)) with (pred (length l)) in Hy by lia.
  split_and!; [lia|done|]. symmetry.
  assert (Hle : forall x, x ∈ nt :: db -> (Revision x <= Revision y)%Z).
  { intros x Hx. rewrite <- E in Hx. apply list_elem_of_lookup in Hx as (j & Hj). rewrite lookup_drop in Hj.
    pose proof (lookup_lt_Some _ _ _ Hj). destruct (decide (k + j = pred (length l))) as [Heq|Hne]; [rewrite Heq in Hj; rewrite Hy in Hj; injection Hj as ->; lia|].
    apply Z.lt_le_incl. by apply (lo_grow l Hl (k + j) (pred (length l))); [lia|..]. }
  apply growing_max.
  - intros x Hx. apply Hle. by right.
  - apply Hle. by left.
  - exists y. split; [|done]. rewrite <- E. apply list_elem_of_lookup. exists (pred (length l - k)).
    rewrite lookup_drop. replace (k + pred (length l - k)) with (pred (length l)) by lia. done.
Qed.
Lemma slice_empty a l : slice a a l = [].
Proof. unfold slice. apply drop_ge. rewrite length_take. lia. Qed.

Lemma begin_inv s p known q n toSM :
  (forall id, Platform_ID (plat id) = id) -> inv s -> fresh_queue s q -> (isListening (note s) = true \/ chan s = []) ->
  register_begin queueSize (note s) (plat p) (Ok q) None (GetLastRevision (rows s)) = (n, Ok (q, toSM)) ->
  inv (let s' := set_chan (set_note s n) (begin_announced s) (chan s) in
       match compare_revisions known toSM with
       | UpToDate => set_sessions s' (<[q := {| s_platform := p; s_known := known; s_start := begin_announced s; s_received := [] |}]> (sessions s'))
       | _ => set_pendings s' (<[q := {| r_platform := p; r_known := known; r_toSM := toSM; r_start := begin_announced s |}]> (pendings s'))
       end).
Proof.
  intros Hplat Hi Hq Hch Hb. pose proof Hi as [H1 H2 H3 H4 H5 H6].
  destruct (begin_spec _ _ _ _ _ _ Hplat H2 Hq Hb) as (Hn & Hl & -> & Hlk & Hquiet & Hheap & Hreg). clear Hb.
  assert (Ha : begin_announced s <= length (log s) /\ chan s = map payload_of (drop (begin_announced s) (log s)) /\
    revision_at (lastKnownRevision n) (begin_announced s) (log s)).
  { unfold begin_announced. rewrite Hlk. destruct (isListening (note s)) eqn:El; [auto|].
    destruct Hch as [?| ->]; [done|]. rewrite drop_ge by lia. split_and!; [lia|done|]. by apply revision_at_last. }
  destruct Ha as (Ha & Hc & Hr).
  assert (Hold : forall q2, is_Some (sessions s !! q2) \/ is_Some (pendings s !! q2) -> q2 <> q).
  { intros q2 [[ses Hs]|[r Hs]] ->; [destruct (H4 _ _ Hs) as (_ & _ & nq & Hnq & _)|destruct (H5 _ _ Hs) as (_ & _ & nq & Hnq & _)];
      unfold fresh_queue in Hq; congruence. }
  assert (Hses : forall q2 ses, sessions s !! q2 = Some ses -> session_ok n (log s) (begin_announced s) q2 ses).
  { intros q2 ses Hs. apply (session_quieter (note s)); [apply Hquiet, Hold; eauto|]. unfold begin_announced.
    destruct (isListening (note s)) eqn:El; [auto|]. by apply (session_idle _ _ (announced s)); auto. }
  assert (Hpend : forall q2 r, pendings s !! q2 = Some r -> pending_ok n (log s) (begin_announced s) q2 r).
  { intros q2 r Hs. apply (pending_quieter (note s)); [apply Hquiet, Hold; eauto|]. unfold begin_announced.
    destruct (isListening (note s)) eqn:El; [auto|]. by apply (pending_idle _ _ (announced s)); auto. }
  assert (Hnone : sessions s !! q = None /\ pendings s !! q = None).
  { split; apply eq_None_not_Some; intros Hs; by apply (Hold q); auto. }
  assert (Hwait : inv (set_pendings (set_chan (set_note s n) (begin_announced s) (chan s))
    (<[q := {| r_platform := p; r_known := known; r_toSM := lastKnownRevision n; r_start := begin_announced s |}]> (pendings s)))).
  { split; simpl; [done..|auto| |].
    + intros q2 r [[<- <-]|[Hne Hs]]%lookup_insert_Some; [|auto]. split; [done|]. split; [done|].
      exists (NewNotificationQueue queueSize). split; [done|]. simpl. intros _. rewrite slice_empty. done.
    + intros q2 Hs. rewrite lookup_insert_ne; [auto|]. intros <-. destruct Hnone as [Hnone _]. rewrite Hnone in Hs. by destruct Hs. }
  destruct (compare_revisions known (lastKnownRevision n)) eqn:Ecmp; [|exact Hwait..].
  split; simpl; [done..| |auto|].
  - intros q2 ses [[<- <-]|[Hne Hs]]%lookup_insert_Some; [|auto]. split; [done|]. split.
    + unfold compare_revisions in Ecmp. simpl. destruct (Z.eqb_spec known InvalidRevision) as [->|]; [by left|].
      destruct (Z.eqb_spec known (lastKnownRevision n)) as [->|]; [done|]. simpl in Ecmp. by destruct (_ <? _)%Z.
    + exists (NewNotificationQueue queueSize). split; [done|]. simpl. split; [apply prefix_nil|]. intros _.
      rewrite slice_empty. done.
  - intros q2 Hs. destruct (decide (q2 = q)) as [->|Hne]; [tauto|]. rewrite lookup_insert_ne in Hs by done. auto.
Qed.

(** ** Registration: the second critical section *)
Lemma enqueue_all_ok nq l nq' :
  isClosed nq = false -> length (notificationsChannel nq) <= size_ nq -> enqueue_all nq l = Ok nq' ->
  isClosed nq' = false /\ size_ nq' = size_ nq /\ notificationsChannel nq' = (notificationsChannel nq ++ l)%list /\
  length (notificationsChannel nq') <= size_ nq.
Proof.
  revert nq. induction l as [|x l IH]; intros nq Hc Hlen; simpl.
  - intros [= <-]. by rewrite app_nil_r.
  - unfold Enqueue. rewrite Hc. destruct (Nat.leb_spec (size_ nq) (length (notificationsChannel nq))); [done|].
    intros He. apply IH in He as (H1 & H2 & H3 & H4); [|done|simpl; rewrite length_app; simpl; lia].
    simpl in *. rewrite <- app_assoc in H3. done.
Qed.
Lemma drain_enqueue closed ch nq nq' : drain closed ch nq = Ok nq' -> closed = false /\ enqueue_all nq ch = Ok nq'.
Proof.
  revert nq. induction ch as [|x ch IH]; intros nq; simpl; [by destruct closed|].
  destruct (Enqueue nq x) as [nq1 [u|e|m]]; [apply IH|done..].
Qed.
Lemma drained_length closed ch nq : length (drained closed ch nq) <= length ch.
Proof.
  revert nq. induction ch as [|x ch IH]; intros nq; simpl; [lia|].
  destruct (Enqueue nq x) as [nq1 [u|e|m]]; simpl; [specialize (IH nq1)|..]; lia.
Qed.
Lemma missed_queue_ok platform byRev missed mq :
  missed_queue filters queueSize platform byRev missed = Ok mq ->
  (exists x, byRev = Ok x) /\ exists l, missed = Ok l /\ isClosed mq = false /\ size_ mq = queueSize /\
    notificationsChannel mq = filter (fun nt => filterRecipients filters [platform] nt <> []) l /\
    length (notificationsChannel mq) <= queueSize.
Proof.
  unfold missed_queue. destruct byRev as [x|e|m]; [|by case_bool_decide|done].
  destruct missed as [l|e|m]; simpl; [|done..]. destruct (_ <? _); [done|]. intros He.
  split; [by eexists|]. exists l. split; [done|].
  apply (enqueue_all_ok (NewNotificationQueue queueSize)) in He; [|done|simpl; lia]. done.
Qed.

(** A queue that is replaced in the heap, for one with as many or fewer entries. *)
Lemma note_heap n q nq :
  note_ok n -> is_Some (queue_heap n !! q) -> size_ nq = queueSize -> length (notificationsChannel nq) <= queueSize ->
  note_ok (set_heap n (<[q := nq]> (queue_heap n))).
Proof.
  intros [H1 H2 H3 H4] Hq Hs Hlen. split; simpl; try done.
  - intros p q2 Hp. destruct (decide (q2 = q)) as [->|]; [rewrite lookup_insert_eq; eauto|]. rewrite lookup_insert_ne by done. eauto.
  - intros q2 nq2 [[<- <-]|[_ Hq2]]%lookup_insert_Some; [done|eauto].
Qed.
Lemma quieter_heap n q nq q2 : q2 <> q -> quieter n (set_heap n (<[q := nq]> (queue_heap n))) q2.
Proof. intros Hne nq2 Hq2. exists nq2. simpl. rewrite lookup_insert_ne by done. split_and!; [done..|]. intros Hc. split; done. Qed.
Lemma quieter_trans n1 n2 n3 q : quieter n1 n2 q -> quieter n2 n3 q -> quieter n1 n3 q.
Proof.
  intros H12 H23 nq Hnq. destruct (H12 nq Hnq) as (nq2 & Hnq2 & Hc2 & Ho2). destruct (H23 nq2 Hnq2) as (nq3 & Hnq3 & Hc3 & Ho3).
  exists nq3. rewrite Hc3, Hc2. split_and!; [done..|]. intros Hcl. destruct (Ho3 Hcl) as [Hcl2 Hr3]. destruct (Ho2 Hcl2) as [Hcl1 Hr2].
  split; [done|]. intros p Hp. destruct (Hr2 p Hp) as [<- Hp2]. by apply Hr3.
Qed.

Lemma replace_spec n q q' mq n' res :
  (forall id, Platform_ID (plat id) = id) -> note_ok n -> queue_heap n !! q' = None ->
  isClosed mq = false -> size_ mq = queueSize -> length (notificationsChannel mq) <= queueSize ->
  replace_queue n q q' mq = (n', res) ->
  note_ok n' /\ isListening n' = isListening n /\ lastKnownRevision n' = lastKnownRevision n /\
  (forall q2, q2 <> q -> quieter n n' q2) /\
  (forall q2, res = Ok q2 -> q2 = q' /\ exists nq new, queue_heap n !! q = Some nq /\ isClosed nq = false /\
     queue_heap n' !! q' = Some new /\ isClosed new = false /\
     notificationsChannel new = (notificationsChannel mq ++ notificationsChannel nq)%list /\
     forall p, registered_in (consumers_ n) p q -> registered_in (consumers_ n') p q').
Proof.
  intros Hplat Hn Hq' Hmc Hms Hml Hrep. unfold replace_queue in Hrep. destruct (queue_heap n !! q) as [nq|] eqn:Eq.
  2:{ injection Hrep as <- <-. split_and!; try done. intros q2 _ nq Hnq. exists nq. split_and!; done. }
  set (old := {| isClosed := isClosed nq; size_ := size_ nq; notificationsChannel := drained (isClosed nq) (notificationsChannel nq) mq |}) in *.
  set (n1 := set_heap n (<[q := old]> (queue_heap n))) in *.
  destruct (no_queues n Hn q nq Eq) as [Hsz Hlen].
  assert (Hn1 : note_ok n1).
  { apply note_heap; [done|by eexists|done|]. simpl. pose proof (drained_length (isClosed nq) (notificationsChannel nq) mq). lia. }
  assert (Hqu : forall q2, q2 <> q -> quieter n n1 q2) by (intros q2 Hne; by apply quieter_heap).
  destruct (drain _ _ _) as [new|e|m] eqn:Ed; [|by injection Hrep as <- <-..].
  apply drain_enqueue in Ed as [Hcl Hen]. apply enqueue_all_ok in Hen as (Hn1c & Hn1s & Hn1l & Hn1len); [|done|lia].
  assert (Hnr : forall p, ~ registered_in (consumers_ n) p q') by (by apply not_registered).
  assert (Hne : q' <> q) by congruence.
  destruct (ReplaceQueue (consumers_ n1) q q') as [c|e|m] eqn:Er; [|by injection Hrep as <- <-..].
  injection Hrep as <- <-.
  assert (exists p, registered_in (consumers_ n) p q) as [p Hp].
  { unfold ReplaceQueue in Er. destruct (registered_or (consumers_ n) q) as [?|Hno]; [done|].
    destruct (consumers_find (consumers_ n1) q) as [[p i]|] eqn:Ef; [|done].
    apply find_registered in Ef as (qs & Hqs & Hi). exists p, qs. split; [done|]. by eapply list_elem_of_lookup_2. }
  destruct (replace_registered plat (consumers_ n) p q q' (no_consumers_ok n Hn) Hp Hnr) as (c' & Hc' & Hw & Hreg).
  change (consumers_ n1) with (consumers_ n) in Er. rewrite Hc' in Er. injection Er as <-.
  split_and!; try done.
  - pose proof Hn1 as [_ H2 H3 H4]. split; simpl; [done| | |].
    + intros p2 q2 [[-> ->]|[Hq2 Hp2]]%Hreg; [rewrite lookup_insert_eq; eauto|].
      destruct (decide (q2 = q')) as [->|]; [rewrite lookup_insert_eq; eauto|]. rewrite lookup_insert_ne by done. exact (H2 p2 q2 Hp2).
    + intros Hi. by destruct (no_idle n Hn Hi p q).
    + intros q2 nq2 [[<- <-]|[_ Hq2]]%lookup_insert_Some; [by rewrite Hn1s, <- Hms in *|exact (H4 q2 nq2 Hq2)].
  - intros q2 Hq2 nq2 Hnq2. exists nq2. simpl. rewrite lookup_insert_ne by congruence. rewrite lookup_insert_ne by done.
    split_and!; [done..|]. intros Hc. split; [done|]. intros p2 Hp2. rewrite Hreg. auto.
  - intros q2 [= <-]. split; [done|]. exists nq, new. split_and!; try done; [apply lookup_insert_eq|].
    intros p2 Hp2. simpl. rewrite Hreg. left. split; [|done]. by apply (cw_unique _ _ (no_consumers_ok n Hn) _ _ q).
Qed.

(** ** The missed notifications *)
Section Missed.
Context (l : list Notification) (Hlog : log_ok l).

Lemma rev_le i j x y : i <= j -> l !! i = Some x -> l !! j = Some y -> (Revision x <= Revision y)%Z.
Proof.
  intros Hij Hx Hy. destruct (decide (i = j)) as [->|Hne]; [rewrite Hx in Hy; injection Hy as ->; lia|].
  pose proof (lo_grow l Hlog i j x y ltac:(lia) Hx Hy). lia.
Qed.
Lemma elem_of_take_rev i x y : l !! i = Some x -> y ∈ take (S i) l -> (Revision y <= Revision x)%Z.
Proof. intros Hx (j & Hj)%list_elem_of_lookup. apply lookup_take_Some in Hj as [Hj Hji]. by apply (rev_le j i); [lia|..]. Qed.
Lemma elem_of_drop_rev i x y : l !! i = Some x -> y ∈ drop (S i) l -> (Revision x < Revision y)%Z.
Proof. intros Hx (j & Hj)%list_elem_of_lookup. rewrite lookup_drop in Hj. by apply (lo_grow l Hlog i (S i + j)); [lia|..]. Qed.

Lemma known_count i x : l !! i = Some x -> length (filter (fun nt => (Revision nt <= Revision x)%Z) l) = S i.
Proof.
  intros Hx. rewrite <- (take_drop (S i) l) at 1. rewrite filter_app, filter_keeps, filter_none, app_nil_r.
  - rewrite length_take. apply lookup_lt_Some in Hx. lia.
  - intros y Hy. pose proof (elem_of_drop_rev i x y Hx Hy). lia.
  - intros y Hy. by apply (elem_of_take_rev i).
Qed.

(** The log is sorted already. *)
Lemma log_sorted : StronglySorted by_revision_le l.
Proof.
  destruct Hlog as [Hg _ _]. clear Hlog. induction l as [|x l' IH]; constructor.
  - apply IH. intros i j y z Hij Hy Hz. by apply (Hg (S i) (S j) y z); [lia|..].
  - apply Forall_forall. intros y (j & Hj)%list_elem_of_lookup. apply Z.lt_le_incl. by apply (Hg 0 (S j) x y); [lia|..].
Qed.
Lemma filter_strongly_sorted (P : Notification -> Prop) `{forall x, Decision (P x)} (m : list Notification) :
  StronglySorted by_revision_le m -> StronglySorted by_revision_le (filter P m).
Proof.
  induction 1 as [|x m _ IH Hx]; [constructor|]. rewrite filter_cons. destruct (decide (P x)); [|done].
  constructor; [done|]. rewrite Forall_forall in *. intros y [_ Hy]%list_elem_of_filter. by apply Hx.
Qed.
Lemma drop_sorted (P : Notification -> Prop) `{forall x, Decision (P x)} k :
  merge_sort by_revision_le (filter P (drop k l)) = filter P (drop k l).
Proof.
  assert (Htr : Transitive by_revision_le) by (intros x y z; unfold by_revision_le; lia).
  assert (Hto : Total by_revision_le) by (intros x y; unfold by_revision_le; lia).
  assert (Hin : forall x, x ∈ filter P (drop k l) -> exists i, l !! i = Some x).
  { intros x [_ (j & Hj)%list_elem_of_lookup]%list_elem_of_filter. rewrite lookup_drop in Hj. eauto. }
  apply (StronglySorted_unique_strong by_revision_le); [|by apply (StronglySorted_merge_sort by_revision_le)| |apply merge_sort_Permutation].
  - intros x y Hx Hy Hxy Hyx. rewrite merge_sort_Permutation in Hx.
    destruct (Hin x Hx) as [i Hi], (Hin y Hy) as [j Hj]. unfold by_revision_le in *.
    destruct (Nat.lt_trichotomy i j) as [Hij|[<-|Hij]]; [|congruence|].
    + pose proof (lo_grow l Hlog i j x y Hij Hi Hj). lia.
    + pose proof (lo_grow l Hlog j i y x Hij Hj Hi). lia.
  - apply filter_strongly_sorted. pose proof log_sorted as Hs. rewrite <- (take_drop k l) in Hs. by apply StronglySorted_app_1_r in Hs.
Qed.

Lemma missed_slice p k i x toSM b :
  l !! i = Some x -> k <= i -> revision_at toSM b l -> b <= length l -> (Revision x < toSM)%Z ->
  S i <= b /\
  filter (fun nt => filterRecipients filters [plat p] nt <> [])
    (filter (fun nt => (Revision x < Revision nt)%Z /\ (Revision nt <= toSM)%Z /\ (PlatformID nt = "" \/ PlatformID nt = p)) (drop k l)) =
  relevant filters plat p (slice (S i) b l).
Proof.
  intros Hx Hk Hto Hb Hlt. pose proof (lo_positive l Hlog x ltac:(by eapply list_elem_of_lookup_2)) as Hpos.
  destruct Hto as [->|(y & Hbp & Hy & <-)]; [unfold InvalidRevision in Hlt; lia|].
  assert (Hib : S i <= b).
  { destruct (decide (S i <= b)) as [|Hn]; [done|]. pose proof (rev_le (pred b) i y x ltac:(lia) Hy Hx). lia. }
  split; [done|]. rewrite list_filter_filter.
  assert (Hd : drop k l = (drop k (take (S i) l) ++ slice (S i) b l ++ drop b l)%list).
  { unfold slice. rewrite <- (take_drop b l) at 1. rewrite drop_app_le by (rewrite length_take; lia).
    rewrite app_assoc. f_equal. rewrite <- (take_drop (S i) (take b l)) at 1.
    rewrite take_take, Nat.min_l by done. rewrite drop_app_le; [done|]. rewrite length_take. apply lookup_lt_Some in Hx. lia. }
  rewrite Hd, !filter_app, (filter_none _ (drop k _)), (filter_none _ (drop b l)), app_nil_r; simpl.
  - apply filter_iff_in. intros nt Hnt. unfold receives.
    assert (Hrev : (Revision x < Revision nt)%Z /\ (Revision nt <= Revision y)%Z); [|tauto].
    apply list_elem_of_lookup in Hnt as (j & Hj). unfold slice in Hj. rewrite lookup_drop in Hj. apply lookup_take_Some in Hj as [Hj Hjb]. split.
    + by apply (lo_grow l Hlog i (S i + j)); [lia|..].
    + by apply (rev_le (S i + j) (pred b)); [lia|..].
  - intros nt Hnt. replace b with (S (pred b)) in Hnt by lia. pose proof (elem_of_drop_rev (pred b) y nt Hy Hnt). lia.
  - intros nt Hnt. assert (Hin : nt ∈ take (S i) l).
    { apply list_elem_of_lookup in Hnt as (j & Hj). rewrite lookup_drop in Hj. by eapply list_elem_of_lookup_2. }
    pose proof (elem_of_take_rev i x nt Hx Hin). lia.
Qed.
End Missed.

Lemma by_revision s known x :
  GetNotificationByRevision (rows s) known = Ok x ->
  Revision x = known /\ exists i, log s !! i = Some x /\ cleaned s <= i.
Proof.
  unfold GetNotificationByRevision. destruct (List.filter _ _) as [|y [|z l]] eqn:E; [done| |done]. intros [= ->].
  assert (Hin : In x (List.filter (fun nt => (Revision nt =? known)%Z) (rows s))) by (rewrite E; by left).
  apply filter_In in Hin as [Hin Hr%Z.eqb_eq]. split; [done|]. apply list_elem_of_In, list_elem_of_lookup in Hin as (j & Hj).
  unfold rows in Hj. rewrite lookup_drop in Hj. exists (cleaned s + j). split; [done|lia].
Qed.
Lemma slice_join start b a l : start <= b -> b <= a -> (slice start b l ++ slice b a l)%list = slice start a l.
Proof.
  intros Hs Ha. unfold slice. destruct (decide (b <= length l)) as [Hb|Hb].
  - rewrite <- (take_drop b (take a l)) at 2. rewrite take_take, Nat.min_l by done.
    rewrite drop_app_le; [done|]. rewrite length_take. lia.
  - rewrite (take_ge l a), (take_ge l b), (drop_ge l b) by lia. by rewrite app_nil_r.
Qed.

(** A registration ends, with a change that leaves the other queues alone. *)
Lemma inv_drop s n q :
  inv s -> is_Some (pendings s !! q) -> note_ok n ->
  isListening n = isListening (note s) -> lastKnownRevision n = lastKnownRevision (note s) ->
  (forall q2, q2 <> q -> quieter (note s) n q2) -> inv (set_pendings (set_note s n) (delete q (pendings s))).
Proof.
  intros [H1 H2 H3 H4 H5 H6] Hq Hn Hl Hr Hqu. split; simpl; try done.
  - by rewrite Hl, Hr.
  - intros q2 ses Hs. apply (session_quieter (note s)); [|auto]. apply Hqu. intros ->.
    rewrite (H6 q) in Hq by eauto. by destruct Hq.
  - intros q2 r [Hne Hs]%lookup_delete_Some. apply (pending_quieter (note s)); auto.
  - intros q2 Hs. rewrite lookup_delete_None. auto.
Qed.

Lemma finish_inv s q r q' n res :
  (forall id, Platform_ID (plat id) = id) -> inv s ->
  pendings s !! q = Some r -> compare_revisions (r_known r) (r_toSM r) = MissedNotifications -> fresh_queue s q' ->
  register_finish filters queueSize (note s) (plat (r_platform r)) q (Ok q') (GetNotificationByRevision (rows s) (r_known r))
    (ListNotifications (rows s) (r_platform r) (r_known r) (r_toSM r)) = (n, res) ->
  inv (let s' := set_pendings (set_note s n) (delete q (pendings s)) in
       match res with
       | Ok _ => set_sessions s' (<[q' := {| s_platform := r_platform r; s_known := r_known r;
           s_start := length (filter (fun nt => (Revision nt <= r_known r)%Z) (log s)); s_received := [] |}]> (sessions s'))
       | _ => s'
       end).
Proof.
  intros Hplat Hi Hr Hcmp Hq' Hf. pose proof Hi as [H1 H2 H3 H4 H5 H6]. destruct (H5 q r Hr) as (Hst & Hto & nq & Hnq & Hopen).
  assert (Hlt : (r_known r < r_toSM r)%Z).
  { unfold compare_revisions in Hcmp. destruct (Z.eqb_spec (r_known r) (r_toSM r)); [by rewrite orb_true_r in Hcmp|].
    destruct (_ =? InvalidRevision)%Z; simpl in Hcmp; [done|]. destruct (Z.ltb_spec (r_toSM r) (r_known r)); [done|lia]. }
  assert (Hfail : forall n1, note_ok n1 -> isListening n1 = isListening (note s) -> lastKnownRevision n1 = lastKnownRevision (note s) ->
    (forall q2, q2 <> q -> quieter (note s) n1 q2) -> inv (set_pendings (set_note s (UnregisterConsumer n1 q)) (delete q (pendings s)))).
  { intros n1 Hn1 Hl Hk Hqu. destruct (unregister_spec n1 q Hn1) as (Hn & Hq & Hl' & Hk' & _).
    apply inv_drop; [done|by eexists|done|congruence|congruence|]. intros q2 Hne. eapply quieter_trans; eauto. }
  assert (Hsame : forall q2, q2 <> q -> quieter (note s) (note s) q2).
  { intros q2 _ nq2 Hnq2. exists nq2. split_and!; [done..|]. done. }
  unfold register_finish in Hf.
  destruct (missed_queue _ _ _ _ _) as [mq|e|m] eqn:Em.
  2:{ injection Hf as <- <-. by apply Hfail. }
  2:{ injection Hf as <- <-. apply inv_drop; try done; by eexists. }
  apply missed_queue_ok in Em as ([x Hx] & l & Hl & Hmc & Hms & Hmch & Hml). injection Hl as <-.
  unfold rows in Hmch. rewrite (drop_sorted (log s) H1) in Hmch.
  destruct (replace_queue (note s) q q' mq) as [n1 res1] eqn:Erep.
  destruct (replace_spec _ _ _ _ _ _ Hplat H2 Hq' Hmc Hms Hml Erep) as (Hn1 & Hl1 & Hk1 & Hqu & Hok).
  injection Hf as <- <-. destruct res1 as [q2|e|m]; [|by apply Hfail|apply inv_drop; try done; by eexists].
  destruct (Hok q2 eq_refl) as (-> & nq1 & new & Hnq1 & Hcl & Hnew & Hnewc & Hch & Hreg). rewrite Hnq in Hnq1. injection Hnq1 as <-.
  destruct (Hopen Hcl) as (Hli & Hsa & Hrp & Hnch).
  destruct (by_revision s _ x Hx) as (Hxr & i & Hxi & Hki). rewrite <- Hxr in *.
  destruct (missed_slice (log s) H1 (r_platform r) (cleaned s) i x (r_toSM r) (r_start r) Hxi Hki Hto Hst Hlt) as (Hib & Hms').
  assert (Hbase : inv (set_pendings (set_note s n1) (delete q (pendings s)))) by (apply inv_drop; try done; by eexists).
  assert (Hq'p : pendings s !! q' = None).
  { apply eq_None_not_Some. intros [r' Hr']. destruct (H5 q' r' Hr') as (_ & _ & nq' & Hnq' & _). unfold fresh_queue in Hq'. congruence. }
  destruct Hbase as [B1 B2 B3 B4 B5 B6]. split; simpl; try done.
  - intros q2 ses [[<- <-]|[Hne Hs]]%lookup_insert_Some; [|by apply B4]. rewrite (known_count (log s) H1 i x Hxi).
    split; [simpl; lia|]. split; [right; exists x; simpl; split_and!; [lia|done..]|].
    exists new. split; [done|]. simpl.
    assert (Heq : notificationsChannel new = relevant filters plat (r_platform r) (slice (S i) (announced s) (log s))).
    { rewrite Hch, Hnch, Hmch, Hms', <- relevant_app. f_equal. by apply slice_join. }
    rewrite Heq. split; [apply slice_prefix|]. intros _. rewrite Hl1. split_and!; try done; [lia|]. by apply Hreg.
  - intros q2 Hs. apply lookup_delete_None. destruct (decide (q2 = q')) as [->|]; [by right|].
    rewrite lookup_insert_ne in Hs by done. right. by apply H6.
Qed.

(** ** Receiving *)
Lemma receive_inv s q ses nq nq' nt :
  inv s -> sessions s !! q = Some ses -> queue_heap (note s) !! q = Some nq -> receive nq = (nq', Received nt) ->
  inv (set_sessions (set_note s (set_heap (note s) (<[q := nq']> (queue_heap (note s))))) (<[q := take_received ses nt]> (sessions s))).
Proof.
  intros [H1 H2 H3 H4 H5 H6] Hs Hq Hrec. unfold receive in Hrec.
  destruct (notificationsChannel nq) as [|x rest] eqn:Ech; [by destruct (isClosed nq)|]. injection Hrec as <- <-.
  destruct (no_queues _ H2 q nq Hq) as [Hsz Hlen]. rewrite Ech in Hlen. simpl in Hlen.
  split; simpl; try done.
  - apply note_heap; [done|by eexists|done|simpl; lia].
  - intros q2 ses2 [[<- <-]|[Hne Hs2]]%lookup_insert_Some.
    + destruct (H4 q ses Hs) as (Hst & Hr & nq0 & Hnq0 & Hp & Ho). rewrite Hq in Hnq0. injection Hnq0 as <-. rewrite Ech in Hp, Ho.
      split; [done|]. split; [done|]. eexists. simpl. rewrite lookup_insert_eq. split; [done|]. simpl.
      rewrite <- app_assoc. done.
    + apply (session_quieter (note s)); [by apply quieter_heap|auto].
  - intros q2 r Hr. apply (pending_quieter (note s)); [|auto]. apply quieter_heap. intros ->. rewrite (H6 q) in Hr by eauto. done.
  - intros q2 Hs2. destruct (decide (q2 = q)) as [->|]; [eauto|]. rewrite lookup_insert_ne in Hs2 by done. auto.
Qed.

(** ** Every step *)
Lemma initial_inv : inv initial.
Proof.
  split; simpl; try done; try (intros *; by rewrite lookup_empty).
  - split; simpl; try done; [by intros x ?%elem_of_nil|constructor].
  - split; simpl; [apply no_consumers_wf| | |]; try (intros *; by rewrite lookup_empty).
    + intros p q (qs & Hqs & _). simpl in Hqs. by rewrite lookup_empty in Hqs.
    + intros _ p q (qs & Hqs & _). simpl in Hqs. by rewrite lookup_empty in Hqs.
Qed.

(** A registration that is refused leaves at most its unused queue. *)
Lemma refused_inv s p q listen last n e :
  inv s -> fresh_queue s q -> register_begin queueSize (note s) (plat p) (Ok q) listen last = (n, Err e) -> inv (set_note s n).
Proof.
  intros Hi Hq Hb. pose proof (inv_note s Hi) as Hn.
  assert (Hcases : n = note s \/ n = set_heap (note s) (<[q := NewNotificationQueue queueSize]> (queue_heap (note s)))).
  { unfold register_begin, addConsumer in Hb. destruct (isConnected (note s)); [|injection Hb as <- _; by left].
    cbn [isListening set_heap negb] in Hb. destruct (isListening (note s)); [done|].
    destruct listen; [injection Hb as <- _; by right|]. destruct last; [done|injection Hb as <- _; by right|done]. }
  destruct Hcases as [->| ->]; [by destruct s|]. apply inv_quieter; [done| | |done].
  - pose proof Hn as [H1 H2 H3 H4]. split; simpl; try done.
    + intros p2 q2 Hp2. destruct (H2 p2 q2 Hp2) as [nq Hnq]. rewrite lookup_insert_ne; [eauto|]. intros ->. unfold fresh_queue in Hq. congruence.
    + intros q2 nq [[<- <-]|[_ Hq2]]%lookup_insert_Some; [simpl; split; [done|lia]|eauto].
  - intros q2 nq Hnq. exists nq. simpl. rewrite lookup_insert_ne; [done|]. intros ->. unfold fresh_queue in Hq. congruence.
Qed.
Lemma insert_inv s nt heard :
  inv s -> insertable (log s) nt -> heard = isListening (note s) -> (forall x, x ∈ log s -> (Revision x < Revision nt)%Z) ->
  inv (insert_notification s heard nt).
Proof.
  intros [H1 H2 H3 H4 H5 H6] [Hpos Hnew] -> Hlast.
  assert (Ha : isListening (note s) = true -> announced s <= length (log s)) by (intros Hl; by apply H3).
  split; simpl; [|done| | | |done].
  - apply log_insert; [done|done|]. intros x Hx. split; [by apply Hlast|by apply Hnew].
  - intros Hl. destruct (H3 Hl) as (Hle & Hc & Hr). rewrite Hl. split; [rewrite length_app; lia|]. split; [|by apply revision_at_app].
    rewrite drop_app_le by done. by rewrite map_app, Hc.
  - intros q ses Hs. apply session_insert; auto.
  - intros q r Hr. apply pending_insert; auto.
Qed.

Lemma step_inv s s' :
  pointwise filters -> (forall id, Platform_ID (plat id) = id) -> inv s -> step filters queueSize plat true s s' -> inv s'.
Proof.
  intros Hf Hplat Hi. pose proof Hi as [H1 H2 H3 H4 H5 H6].
  destruct 1 as [s nt heard Hnew _ Ho|s k Hk|s p rest Hl Hch|s Hl|s Hl|s b|s p known q n toSM between Hq _ Hlis Ho Hb|s p q listen last n e Hq Hb
                |s q r Hr Hc|s q r q' n res Hr Hc Hq' Hf'|s q ses nq nq' nt Hs Hq Hrec|s q ses Hs].
  - destruct (Ho eq_refl) as [Hh Hlast]. by apply insert_inv.
  - by split.
  - by apply process_inv.
  - apply inv_quieter; [done|by apply (stop_note (note s))| |done]. intros q. by apply stop_quieter.
  - split; simpl; try done. congruence.
  - assert (Hb : queue_heap (connection_event (note s) b) = queue_heap (note s) /\ consumers_ (connection_event (note s) b) = consumers_ (note s) /\
      isListening (connection_event (note s) b) = isListening (note s) /\ lastKnownRevision (connection_event (note s) b) = lastKnownRevision (note s)).
    { unfold connection_event. by destruct b. }
    destruct Hb as (Hh & Hc & Hl & Hk). apply inv_quieter; [done| | |by rewrite Hl].
    + destruct H2 as [A1 A2 A3 A4]. split; rewrite ?Hh, ?Hc, ?Hl; done.
    + intros q nq Hnq. exists nq. rewrite Hh, Hc, Hl. split_and!; [done..|]. done.
  - assert (between = [] /\ (isListening (note s) = true \/ chan s = [])) as [-> Hch] by (destruct (Ho eq_refl) as [Hl|[? ?]]; auto).
    rewrite app_nil_r in Hb |- *. rewrite app_nil_r. replace (set_log s (log s) (cleaned s)) with s by (by destruct s). by apply begin_inv.
  - by eapply refused_inv.
  - apply (pending_dropped (set_note s (UnregisterConsumer (note s) q))). by apply unregister_inv.
  - by apply (finish_inv s q r q' n res).
  - by apply (receive_inv s q ses nq nq' nt).
  - by apply unregister_inv.
Qed.
Lemma reachable_inv s :
  pointwise filters -> (forall id, Platform_ID (plat id) = id) -> reachable filters queueSize plat true s -> inv s.
Proof. intros Hf Hplat. induction 1 as [|s s' _ IH Hstep]; [apply initial_inv|by apply (step_inv s)]. Qed.
End Invariant.
