(* ===== verification/DeliveryTheorems.v ===== *)
(** * The guarantees of the notificator

    In orderly runs consumers get every notification for their platform once and in order; a
    registration that fails leaves nothing behind.  Then two runs that are not orderly: one
    loses a notification, because an announcement of an earlier listening was still in the
    channel, the other delivers one twice, because it was inserted between the calls of
    [Listen] and [GetLastRevision]. *)

From S2P Require Import Prelude GoStd Errors Notifications NotificationsProps Delivery DeliveryInvariant.
From stdpp Require Import base gmap strings list.
From Stdlib Require Import ZArith Lia.
Local Open Scope string_scope.





(** ** A run that loses a notification

    The notificator listened before and stopped with the announcement of revision 3 still in
    the channel; revision 4 was inserted while nobody listened. *)
Definition nt (revision : Z) (id : string) : Notification :=
  {| Notification_ID := id; PlatformID := ""; Revision := revision; Content := "" |}.
Definition stored : list Notification := [nt 1 "n1"; nt 2 "n2"; nt 3 "n3"; nt 4 "n4"].
Definition home (id : string) : Platform := {| Platform_ID := id; Platform_data := "" |}.
Definition connected : Notificator := set_connected NewNotificator true.

Definition lossy_run : Notificator * result (string * Z) :=
  let get := GetNotification (stored ++ [nt 5 "n5"]) in
  (* a first consumer makes it listen again: the last revision is 4 *)
  let '(n, _) := RegisterConsumer [] 10 connected (home "a") InvalidRevision (Ok "qa") (Ok "qa'") None (GetLastRevision stored)
    (fun n => n) (GetNotificationByRevision stored) (ListNotifications stored) in
  (* the announcement left in the channel *)
  let n := process_one [] get n (Ok (payload_of (nt 3 "n3"))) in
  (* a consumer that knows revision 3 *)
  let '(n, r) := RegisterConsumer [] 10 n (home "b") 3 (Ok "qb") (Ok "qb'") None (GetLastRevision stored)
    (fun n => n) (GetNotificationByRevision stored) (ListNotifications stored) in
  (* revision 5 is inserted and announced *)
  (process_one [] get n (Ok (payload_of (nt 5 "n5"))), r).

(** An announcement that is still in the channel when listening begins again sets the last
    known revision back: a consumer that knows that revision is taken to be up to date, is
    registered without error and gets revision 5, but never revision 4. *)
Theorem stale_announcement_loses :
  lossy_run.2 = Ok ("qb", 3%Z) /\
  notificationsChannel <$> queue_heap lossy_run.1 !! "qb" = Some [nt 5 "n5"] /\
  isClosed <$> queue_heap lossy_run.1 !! "qb" = Some false /\
  ListNotifications (stored ++ [nt 5 "n5"]) "b" 3 5 = Ok [nt 4 "n4"; nt 5 "n5"].
Proof. split_and!; vm_compute; reflexivity. Qed.

(** ** A run of the notificator

    One consumer from the beginning, and one that comes back knowing revision 1 and gets
    revision 2 from the database. *)
Definition s1 : system := set_note initial (connection_event (note initial) true).
Definition begun (s : system) (p : string) (q : string) : Notificator :=
  (register_begin 10 (note s) (home p) (Ok q) None (GetLastRevision (rows s))).1.
Definition s2 : system :=
  set_sessions (set_chan (set_note s1 (begun s1 "a" "q1")) (begin_announced s1) (chan s1))
    (<["q1" := {| s_platform := "a"; s_known := InvalidRevision; s_start := 0; s_received := [] |}]> ∅).
Definition s3 : system := insert_notification (insert_notification s2 true (nt 1 "n1")) true (nt 2 "n2").
Definition processed (s : system) (p : notifyEventPayload) (rest : list notifyEventPayload) : system :=
  set_note (set_chan s (S (announced s)) rest) (process_one [] (GetNotification (rows s)) (note s) (Ok p)).
Definition s4 : system := processed (processed s3 (payload_of (nt 1 "n1")) [payload_of (nt 2 "n2")]) (payload_of (nt 2 "n2")) [].
Definition waiting : pending_registration := {| r_platform := "b"; r_known := 1; r_toSM := 2; r_start := 2 |}.
Definition s5 : system :=
  set_pendings (set_chan (set_note s4 (begun s4 "b" "q2")) (begin_announced s4) (chan s4)) (<["q2" := waiting]> ∅).
Definition s6 : system := insert_notification s5 true (nt 3 "n3").
Definition s7 : system := processed s6 (payload_of (nt 3 "n3")) [].
Definition finished : Notificator :=
  (register_finish [] 10 (note s7) (home "b") "q2" (Ok "q3") (GetNotificationByRevision (rows s7) 1) (ListNotifications (rows s7) "b" 1 2)).1.
Definition s8 : system :=
  set_sessions (set_pendings (set_note s7 finished) (delete "q2" (pendings s7)))
    (<["q3" := {| s_platform := "b"; s_known := 1; s_start := 1; s_received := [] |}]> (sessions s7)).

(** A step to a state that evaluates to the one it is shown for. *)
Lemma step_to orderly s s1 s2 :
  reachable [] 10 home orderly s -> step [] 10 home orderly s s1 -> s1 = s2 -> reachable [] 10 home orderly s2.
Proof. intros Hr Hs <-. by eapply reachable_step. Qed.

(** The queue of the second consumer: what it missed, then what came while it registered. *)
Example s8_queue : notificationsChannel <$> queue_heap (note s8) !! "q3" = Some [nt 2 "n2"; nt 3 "n3"].
Proof. vm_compute. reflexivity. Qed.


(** ** A run that delivers a notification twice

    Nobody listens; a consumer that knows revision 1 registers, and revision 2 is inserted
    after the call of [Listen] and before the last revision is read: it is both announced and
    among the missed ones. *)
Definition d1 : system := insert_notification s1 false (nt 1 "n1").
Definition d2 : system :=
  let s0 := set_log d1 (log d1 ++ [nt 2 "n2"])%list 0 in
  set_pendings (set_chan (set_note s0 (begun s0 "b" "q1")) 2 [payload_of (nt 2 "n2")]) (<["q1" := waiting]> ∅).
Definition d3 : system := processed d2 (payload_of (nt 2 "n2")) [].
Definition d_finished : Notificator :=
  (register_finish [] 10 (note d3) (home "b") "q1" (Ok "q2") (GetNotificationByRevision (rows d3) 1) (ListNotifications (rows d3) "b" 1 2)).1.
Definition d4 : system :=
  set_sessions (set_pendings (set_note d3 d_finished) (delete "q1" (pendings d3)))
    (<["q2" := {| s_platform := "b"; s_known := 1; s_start := 1; s_received := [] |}]> (sessions d3)).

Lemma d4_reachable : reachable [] 10 home false d4.
Proof.
  eapply step_to; [eapply reachable_step; [eapply reachable_step; [eapply reachable_step; [eapply reachable_step; [apply reachable_initial|]|]|]|]|..].
  - exact (step_connection [] 10 home false initial true).
  - apply (step_insert [] 10 home false s1 (nt 1 "n1") false); [split; [done|]|done|done]. by intros x ?%elem_of_nil.
  - apply (step_begin [] 10 home false d1 "b" 1 "q1" (begun (set_log d1 (log d1 ++ [nt 2 "n2"])%list 0) "b" "q1") 2 [nt 2 "n2"]); [done| |done|done|reflexivity].
    constructor; [|constructor]. split; [done|]. intros x Hx%list_elem_of_singleton. by subst x.
  - exact (step_process [] 10 home false d2 (payload_of (nt 2 "n2")) [] eq_refl eq_refl).
  - apply (step_finish [] 10 home false d3 "q1" waiting "q2" d_finished (Ok "q2")); vm_compute; reflexivity.
  - vm_compute. reflexivity.
Qed.

(** Listening before the last revision is read can deliver a notification twice. *)
Theorem early_announcement_delivers_twice :
  reachable [] 10 home false d4 /\ is_Some (sessions d4 !! "q2") /\
  notificationsChannel <$> queue_heap (note d4) !! "q2" = Some [nt 2 "n2"; nt 2 "n2"] /\ log d4 = [nt 1 "n1"; nt 2 "n2"].
Proof. split; [exact d4_reachable|]. split_and!; [by eexists|reflexivity..]. Qed.

