(* ===== verification/DomainTypes.v ===== *)
(** * The domain objects (pkg/types)

    Instances, bindings, plans, offerings, brokers, platforms, visibilities and broker
    platform credentials with their validation, equality, secret data and integral data.
    [json.RawMessage] and [[]byte] are strings (nil and empty are one), a pointer to a value
    is an [option], [map[string]interface{}] is a [gmap] of JSON values.  X.509 and JSON
    checks are parameters. *)

From S2P Require Import Prelude GoStd Errors Labels WebFilters OperationTypes.
From stdpp Require Import base gmap strings list.
From Stdlib Require Import ZArith.
Local Open Scope string_scope.

Inductive json :=
  | JNull
  | JBool (b : bool)
  | JNumber (text : string)
  | JString (s : string)
  | JArray (elems : list json)
  | JObject (members : list (string * json)).

Definition SMPlatform : string := "service-manager".

(** ** The fields all objects share *)
Record Base := {
  base_ID : string; base_CreatedAt : Z; base_UpdatedAt : Z; base_Labels : gmap string (list string);
  base_PagingSequence : Z; base_Ready : bool; base_LastOperation : option Operation
}.

(** [types.Equals]: both objects have the same static type here. *)
Definition Base_Equals (obj other : Base) : bool :=
  negb (negb (String.eqb (base_ID obj) (base_ID other)) ||
        negb (Z.eqb (base_CreatedAt obj) (base_CreatedAt other))).

(** ** Service instances *)
Inductive ServiceInstance := {
  si_Base : Base;
  si_Name : string;
  si_ServicePlanID : string;
  si_ReferencedInstanceID : string;
  si_PlatformID : string;
  si_DashboardURL : string;
  si_MaintenanceInfo : string;
  si_Context : string;
  si_UpdateValues : option ServiceInstance * list LabelChange;
  si_PreviousValues : string;
  si_Parameters : gmap string json;
  si_Usable : bool;
  si_Shared : option bool
}.

Definition si_ID (e : ServiceInstance) : string := base_ID (si_Base e).
Definition si_Labels (e : ServiceInstance) : gmap string (list string) := base_Labels (si_Base e).

Definition ServiceInstance_Validate (e : ServiceInstance) : result unit :=
  guard_err (HasRFC3986ReservedSymbols (si_ID e)) (EPlain (si_ID e ++ " contains invalid character(s)")) ;;;
  guard_err (String.eqb (si_Name e) "") (EPlain "missing service instance name") ;;;
  guard_err (String.eqb (si_ServicePlanID e) "") (EPlain "missing service plan id") ;;;
  guard_err (String.eqb (si_PlatformID e) "") (EPlain "missing platform id") ;;;
  Labels_Validate (si_Labels e).

Definition IsShared (e : ServiceInstance) : bool :=
  match si_Shared e with Some b => b | None => false end.

(** [e.Shared != instance.Shared] compares pointers; [alias] says whether two pointers that
    are both set are the same one.  [deep_equal] is [reflect.DeepEqual] on the values of an
    update. *)
Definition ServiceInstance_Equals (deep_equal : option ServiceInstance * list LabelChange ->
    option ServiceInstance * list LabelChange -> bool) (alias : bool) (e i : ServiceInstance) : bool :=
  Base_Equals (si_Base e) (si_Base i) &&
  negb (negb (String.eqb (si_Name e) (si_Name i)) ||
        negb (String.eqb (si_PlatformID e) (si_PlatformID i)) ||
        negb (String.eqb (si_ServicePlanID e) (si_ServicePlanID i)) ||
        negb (String.eqb (si_DashboardURL e) (si_DashboardURL i)) ||
        negb (Bool.eqb (base_Ready (si_Base e)) (base_Ready (si_Base i))) ||
        negb match si_Shared e, si_Shared i with
             | None, None => true
             | Some _, Some _ => alias
             | _, _ => false
             end ||
        negb (deep_equal (si_UpdateValues e) (si_UpdateValues i)) ||
        negb (String.eqb (si_Context e) (si_Context i)) ||
        negb (String.eqb (si_MaintenanceInfo e) (si_MaintenanceInfo i))).

(** Assignments to the fields of an instance. *)
Definition set_si_Usable (e : ServiceInstance) (b : bool) : ServiceInstance :=
  {| si_Base := si_Base e; si_Name := si_Name e; si_ServicePlanID := si_ServicePlanID e;
     si_ReferencedInstanceID := si_ReferencedInstanceID e; si_PlatformID := si_PlatformID e;
     si_DashboardURL := si_DashboardURL e; si_MaintenanceInfo := si_MaintenanceInfo e;
     si_Context := si_Context e; si_UpdateValues := si_UpdateValues e;
     si_PreviousValues := si_PreviousValues e; si_Parameters := si_Parameters e; si_Usable := b;
     si_Shared := si_Shared e |}.
Definition set_si_broker_data (e : ServiceInstance) (dashboard context : string)
    (params : gmap string json) : ServiceInstance :=
  {| si_Base := si_Base e; si_Name := si_Name e; si_ServicePlanID := si_ServicePlanID e;
     si_ReferencedInstanceID := si_ReferencedInstanceID e; si_PlatformID := si_PlatformID e;
     si_DashboardURL := dashboard; si_MaintenanceInfo := si_MaintenanceInfo e;
     si_Context := context; si_UpdateValues := si_UpdateValues e;
     si_PreviousValues := si_PreviousValues e; si_Parameters := params; si_Usable := si_Usable e;
     si_Shared := si_Shared e |}.
Definition set_si_Context (e : ServiceInstance) (c : string) : ServiceInstance :=
  set_si_broker_data e (si_DashboardURL e) c (si_Parameters e).
Definition set_si_DashboardURL (e : ServiceInstance) (u : string) : ServiceInstance :=
  set_si_broker_data e u (si_Context e) (si_Parameters e).
Definition set_si_Parameters (e : ServiceInstance) (p : gmap string json) : ServiceInstance :=
  set_si_broker_data e (si_DashboardURL e) (si_Context e) p.
Definition set_si_UpdateValues (e : ServiceInstance) (v : option ServiceInstance * list LabelChange)
    : ServiceInstance :=
  {| si_Base := si_Base e; si_Name := si_Name e; si_ServicePlanID := si_ServicePlanID e;
     si_ReferencedInstanceID := si_ReferencedInstanceID e; si_PlatformID := si_PlatformID e;
     si_DashboardURL := si_DashboardURL e; si_MaintenanceInfo := si_MaintenanceInfo e;
     si_Context := si_Context e; si_UpdateValues := v;
     si_PreviousValues := si_PreviousValues e; si_Parameters := si_Parameters e;
     si_Usable := si_Usable e; si_Shared := si_Shared e |}.

(** ** Service bindings *)
Record ServiceBinding := {
  sb_Base : Base;
  sb_Name : string;
  sb_ServiceInstanceID : string;
  sb_SyslogDrainURL : string;
  sb_RouteServiceURL : string;
  sb_VolumeMounts : string;
  sb_Endpoints : string;
  sb_Context : string;
  sb_BindResource : string;
  sb_Credentials : string;
  sb_Parameters : gmap string json;
  sb_Integrity : string
}.
Definition sb_ID (e : ServiceBinding) : string := base_ID (sb_Base e).

Definition ServiceBinding_Validate (e : ServiceBinding) : result unit :=
  guard_err (HasRFC3986ReservedSymbols (sb_ID e)) (EPlain (sb_ID e ++ " contains invalid character(s)")) ;;;
  guard_err (String.eqb (sb_Name e) "") (EPlain "missing service binding name") ;;;
  guard_err (String.eqb (sb_ServiceInstanceID e) "") (EPlain "missing service binding service instance ID") ;;;
  Labels_Validate (base_Labels (sb_Base e)).

Definition ServiceBinding_Equals (e b : ServiceBinding) : bool :=
  Base_Equals (sb_Base e) (sb_Base b) &&
  negb (negb (String.eqb (sb_Name e) (sb_Name b)) ||
        negb (String.eqb (sb_ServiceInstanceID e) (sb_ServiceInstanceID b)) ||
        negb (String.eqb (sb_SyslogDrainURL e) (sb_SyslogDrainURL b)) ||
        negb (String.eqb (sb_RouteServiceURL e) (sb_RouteServiceURL b)) ||
        negb (String.eqb (sb_VolumeMounts e) (sb_VolumeMounts b)) ||
        negb (String.eqb (sb_Endpoints e) (sb_Endpoints b)) ||
        negb (String.eqb (sb_Context e) (sb_Context b)) ||
        negb (String.eqb (sb_BindResource e) (sb_BindResource b)) ||
        negb (String.eqb (sb_Credentials e) (sb_Credentials b))).

Definition set_sb_details (e : ServiceBinding) (syslog route volumes context credentials integrity : string)
    : ServiceBinding :=
  {| sb_Base := sb_Base e; sb_Name := sb_Name e; sb_ServiceInstanceID := sb_ServiceInstanceID e;
     sb_SyslogDrainURL := syslog; sb_RouteServiceURL := route; sb_VolumeMounts := volumes;
     sb_Endpoints := sb_Endpoints e; sb_Context := context; sb_BindResource := sb_BindResource e;
     sb_Credentials := credentials; sb_Parameters := sb_Parameters e; sb_Integrity := integrity |}.
Definition set_sb_Context (e : ServiceBinding) (c : string) : ServiceBinding :=
  set_sb_details e (sb_SyslogDrainURL e) (sb_RouteServiceURL e) (sb_VolumeMounts e) c (sb_Credentials e)
    (sb_Integrity e).
Definition set_sb_Credentials (e : ServiceBinding) (c : string) : ServiceBinding :=
  set_sb_details e (sb_SyslogDrainURL e) (sb_RouteServiceURL e) (sb_VolumeMounts e) (sb_Context e) c
    (sb_Integrity e).
Definition set_sb_VolumeMounts (e : ServiceBinding) (v : string) : ServiceBinding :=
  set_sb_details e (sb_SyslogDrainURL e) (sb_RouteServiceURL e) v (sb_Context e) (sb_Credentials e)
    (sb_Integrity e).
Definition set_sb_RouteServiceURL (e : ServiceBinding) (v : string) : ServiceBinding :=
  set_sb_details e (sb_SyslogDrainURL e) v (sb_VolumeMounts e) (sb_Context e) (sb_Credentials e)
    (sb_Integrity e).
Definition set_sb_SyslogDrainURL (e : ServiceBinding) (v : string) : ServiceBinding :=
  set_sb_details e v (sb_RouteServiceURL e) (sb_VolumeMounts e) (sb_Context e) (sb_Credentials e)
    (sb_Integrity e).
Definition set_sb_Integrity (e : ServiceBinding) (v : string) : ServiceBinding :=
  set_sb_details e (sb_SyslogDrainURL e) (sb_RouteServiceURL e) (sb_VolumeMounts e) (sb_Context e)
    (sb_Credentials e) v.

(** ** Plans and offerings *)
Record ServicePlan := {
  sp_Base : Base;
  sp_Name : string;
  sp_Description : string;
  sp_CatalogID : string;
  sp_CatalogName : string;
  sp_Free : option bool;
  sp_Bindable : option bool;
  sp_PlanUpdatable : option bool;
  sp_Metadata : string;
  sp_Schemas : string;
  sp_MaximumPollingDuration : Z;
  sp_MaintenanceInfo : string;
  sp_ServiceOfferingID : string
}.

Record ServiceOffering := {
  so_Base : Base;
  so_Name : string;
  so_Description : string;
  so_Bindable : bool;
  so_InstancesRetrievable : bool;
  so_BindingsRetrievable : bool;
  so_PlanUpdatable : bool;
  so_AllowContextUpdates : bool;
  so_Tags : string;
  so_Requires : string;
  so_Metadata : string;
  so_BrokerID : string;
  so_CatalogID : string;
  so_CatalogName : string
}.

(** The comparison of two pointers to booleans that the source writes out. *)
Definition bool_pointers_differ (a b : option bool) : bool :=
  match a, b with
  | None, None => false
  | Some x, Some y => negb (Bool.eqb x y)
  | _, _ => true
  end.

Definition ServicePlan_Equals (e p : ServicePlan) : bool :=
  Base_Equals (sp_Base e) (sp_Base p) &&
  negb (negb (String.eqb (sp_Name e) (sp_Name p)) ||
        negb (String.eqb (sp_ServiceOfferingID e) (sp_ServiceOfferingID p)) ||
        bool_pointers_differ (sp_Free e) (sp_Free p) ||
        bool_pointers_differ (sp_Bindable e) (sp_Bindable p) ||
        bool_pointers_differ (sp_PlanUpdatable e) (sp_PlanUpdatable p) ||
        negb (String.eqb (sp_CatalogID e) (sp_CatalogID p)) ||
        negb (String.eqb (sp_CatalogName e) (sp_CatalogName p)) ||
        negb (String.eqb (sp_Description e) (sp_Description p)) ||
        negb (String.eqb (sp_Schemas e) (sp_Schemas p)) ||
        negb (String.eqb (sp_Metadata e) (sp_Metadata p))).

Definition ServiceOffering_Equals (e o : ServiceOffering) : bool :=
  Base_Equals (so_Base e) (so_Base o) &&
  negb (negb (String.eqb (so_Name e) (so_Name o)) ||
        negb (Bool.eqb (so_PlanUpdatable e) (so_PlanUpdatable o)) ||
        negb (Bool.eqb (so_Bindable e) (so_Bindable o)) ||
        negb (Bool.eqb (so_BindingsRetrievable e) (so_BindingsRetrievable o)) ||
        negb (String.eqb (so_BrokerID e) (so_BrokerID o)) ||
        negb (String.eqb (so_CatalogID e) (so_CatalogID o)) ||
        negb (String.eqb (so_CatalogName e) (so_CatalogName o)) ||
        negb (String.eqb (so_Description e) (so_Description o)) ||
        negb (Bool.eqb (so_InstancesRetrievable e) (so_InstancesRetrievable o)) ||
        negb (String.eqb (so_Tags e) (so_Tags o)) ||
        negb (String.eqb (so_Requires e) (so_Requires o)) ||
        negb (String.eqb (so_Metadata e) (so_Metadata o))).

(** JSON as the checks of plans and offerings use it: [gjson.GetBytes] for a path gives the
    raw text and, for an array, its elements as strings; [json.Unmarshal] into an object or
    an array succeeds or not. *)
Class JSONQueries := {
  gjson_raw : string -> string -> string;
  gjson_array : string -> string -> option (list string);
  json_is_object : string -> bool;
  json_is_array : string -> bool
}.

Section Plans.
Context `{JSONQueries}.

Definition metadataPropertyAsStringArray (e : ServicePlan) (propertyKey : string) : list string :=
  match gjson_array (sp_Metadata e) propertyKey with
  | Some array => array
  | None => []
  end.
Definition SupportedPlatformTypes (e : ServicePlan) : list string :=
  metadataPropertyAsStringArray e "supportedPlatforms".
Definition SupportedPlatformNames (e : ServicePlan) : list string :=
  metadataPropertyAsStringArray e "supportedPlatformNames".
Definition ExcludedPlatformNames (e : ServicePlan) : list string :=
  metadataPropertyAsStringArray e "excludedPlatformNames".
Definition SupportsInstanceSharing (e : ServicePlan) : bool :=
  String.eqb (gjson_raw (sp_Metadata e) SupportsInstanceSharingKey) "true".

Definition SupportsPlatformType (smSupported : list string) (e : ServicePlan) (platformType : string)
    : bool :=
  let inputPlatformTypes := if String.eqb platformType SMPlatform then smSupported else [platformType] in
  let supportedPlatformTypes := SupportedPlatformTypes e in
  let intersect := Slice.StringsIntersection supportedPlatformTypes inputPlatformTypes in
  Nat.eqb (length supportedPlatformTypes) 0 || Nat.ltb 0 (length intersect).
Definition SupportsPlatformInstance (smSupported : list string) (e : ServicePlan)
    (platformName platformType : string) : bool :=
  if Nat.ltb 0 (length (ExcludedPlatformNames e))
  then negb (Slice.StringsAnyEquals (ExcludedPlatformNames e) platformName)
  else if Nat.ltb 0 (length (SupportedPlatformNames e))
  then Slice.StringsAnyEquals (SupportedPlatformNames e) platformName
  else SupportsPlatformType smSupported e platformType.
Definition SupportsAllPlatforms (e : ServicePlan) : bool :=
  Nat.eqb (length (SupportedPlatformNames e)) 0 && Nat.eqb (length (SupportedPlatformTypes e)) 0 &&
  Nat.eqb (length (ExcludedPlatformNames e)) 0.

Definition validateSupportedPlatformsMetadata (e : ServicePlan) : result unit :=
  let hasSupportedPlatformNames := Nat.min (length (SupportedPlatformNames e)) 1 in
  let hasSupportedPlatformTypes := Nat.min (length (SupportedPlatformTypes e)) 1 in
  let hasExcludedPlatformNames := Nat.min (length (ExcludedPlatformNames e)) 1 in
  guard_err (Nat.ltb 1 (hasExcludedPlatformNames + hasSupportedPlatformNames + hasSupportedPlatformTypes))
    (EPlain "only one of supportedPlatforms, supportedPlatformNames and excludedPlatformNames can be defined in plan metadata").

Definition ServicePlan_Validate (e : ServicePlan) : result unit :=
  guard_err (HasRFC3986ReservedSymbols (base_ID (sp_Base e)))
    (EPlain (base_ID (sp_Base e) ++ " contains invalid character(s)")) ;;;
  guard_err (String.eqb (sp_Name e) "") (EPlain "service plan name missing") ;;;
  guard_err (String.eqb (sp_CatalogID e) "") (EPlain "service plan catalog id missing") ;;;
  guard_err (String.eqb (sp_CatalogName e) "") (EPlain "service plan catalog name missing") ;;;
  guard_err (String.eqb (sp_ServiceOfferingID e) "") (EPlain "service plan service offering id missing") ;;;
  guard_err (String.eqb (sp_Description e) "") (EPlain "service plan description is missing") ;;;
  guard_err (negb (String.eqb (sp_Schemas e) "") && negb (json_is_object (sp_Schemas e)))
    (EPlain "service plan schemas is invalid JSON") ;;;
  guard_err (negb (String.eqb (sp_Metadata e) "") && negb (json_is_object (sp_Metadata e)))
    (EPlain "service plan metadata is invalid JSON") ;;;
  guard_err (negb (Nat.eqb (length (SupportedPlatformNames e)) 0) &&
             negb (Nat.eqb (length (SupportedPlatformTypes e)) 0))
    (EPlain "only one of supportedPlatforms and supportedPlatformNames can be defined in plan metadata") ;;;
  validateSupportedPlatformsMetadata e.

Definition ServiceOffering_Validate (e : ServiceOffering) : result unit :=
  guard_err (HasRFC3986ReservedSymbols (base_ID (so_Base e)))
    (EPlain (base_ID (so_Base e) ++ " contains invalid character(s)")) ;;;
  guard_err (String.eqb (so_Name e) "") (EPlain "service offering catalog name missing") ;;;
  guard_err (String.eqb (so_CatalogID e) "") (EPlain "service offering catalog id missing") ;;;
  guard_err (String.eqb (so_CatalogName e) "") (EPlain "service offering catalog name missing") ;;;
  guard_err (String.eqb (so_BrokerID e) "") (EPlain "service offering broker id missing") ;;;
  guard_err (negb (String.eqb (so_Tags e) "") && negb (json_is_array (so_Tags e)))
    (EPlain "service offering tags is invalid JSON") ;;;
  guard_err (negb (String.eqb (so_Requires e) "") && negb (json_is_array (so_Requires e)))
    (EPlain "service offering requires is invalid JSON") ;;;
  guard_err (negb (String.eqb (so_Metadata e) "") && negb (json_is_object (so_Metadata e)))
    (EPlain "service offering metadata is invalid JSON").
End Plans.

(** ** Credentials and brokers *)
Record Basic := { Username : string; Password : string }.
Record TLS := { Certificate : string; Key_ : string; SMProvidedCredentials : bool }.
Record Credentials := { Basic_ : option Basic; TLS_ : option TLS; cred_Integrity : string }.

Definition CertificateExists (c : Credentials) : bool :=
  match TLS_ c with
  | Some t => negb (String.eqb (Certificate t) "" && String.eqb (Key_ t) "")
  | None => false
  end.
Definition TLSExists (c : Credentials) : bool :=
  match TLS_ c with
  | Some t => negb (String.eqb (Certificate t) "" && String.eqb (Key_ t) "" && negb (SMProvidedCredentials t))
  | None => false
  end.
Definition BasicExists (c : Credentials) : bool :=
  match Basic_ c with
  | Some b => negb (String.eqb (Username b) "" && String.eqb (Password b) "")
  | None => false
  end.

Record ServiceBroker := {
  br_Base : Base;
  br_Name : string;
  br_Description : string;
  br_BrokerURL : string;
  br_Credentials : option Credentials;
  br_Catalog : string
}.

(** [tls.X509KeyPair] and the server certificate of the global client settings. *)
Class TLSSettings := {
  x509_key_pair : string -> string -> option string;
  server_certificate : string
}.

Definition nil_credentials : string := "nil pointer dereference".

Section Brokers.
Context `{TLSSettings}.

Definition validateBasic (c : Credentials) : result unit :=
  match Basic_ c with
  | Some b =>
      guard_err (String.eqb (Username b) "") (EPlain "missing broker username") ;;;
      guard_err (String.eqb (Password b) "") (EPlain "missing broker password")
  | None => Panic nil_credentials
  end.
Definition validateTLS (c : Credentials) : result unit :=
  match TLS_ c with
  | Some t =>
      guard_err (String.eqb (Certificate t) "" || String.eqb (Key_ t) "")
        (EPlain "tls public certificate and key should be provided") ;;;
      guard_err (SMProvidedCredentials t)
        (EPlain "only one of the options could be set, SM provided credentials or tls") ;;;
      match x509_key_pair (Certificate t) (Key_ t) with
      | Some e => Err (EPlain ("invalidate TLS configuration: " ++ e))
      | None => Ok tt
      end
  | None => Panic nil_credentials
  end.
Definition validateSMProvidedCredentials : result unit :=
  guard_err (String.eqb server_certificate "")
    (EPlain "SM provided credentials are not supported in this region, set another type of credentials").

Definition Credentials_Validate (c : Credentials) : result unit :=
  guard_err (negb (BasicExists c) && negb (TLSExists c))
    (EPlain "missing broker credentials: set SM provided credentials to true, or configure basic or tls credentials") ;;;
  (if BasicExists c then validateBasic c else Ok tt) ;;;
  (if CertificateExists c then validateTLS c else Ok tt) ;;;
  (match TLS_ c with
   | Some t => if SMProvidedCredentials t then validateSMProvidedCredentials else Ok tt
   | None => Ok tt
   end).

Definition maxNameLength : nat := 255.
Definition ServiceBroker_Validate (e : ServiceBroker) : result unit :=
  guard_err (String.eqb (br_Name e) "") (EPlain "missing broker name") ;;;
  guard_err (Nat.ltb maxNameLength (String.length (br_Name e)))
    (EPlain "broker name cannot exceed 255 symbols") ;;;
  guard_err (String.eqb (br_BrokerURL e) "") (EPlain "missing broker url") ;;;
  Labels_Validate (base_Labels (br_Base e)) ;;;
  match br_Credentials e with
  | None => Err (EPlain "missing credentials")
  | Some c => Credentials_Validate c
  end.

(** [GetTLSConfig]: no configuration, the certificate of the broker, or the one Service
    Manager provides; it reads the credentials without a check. *)
Inductive tls_config := OwnCertificate (certificate key : string) | ProvidedCertificate.
Definition GetTLSConfig (e : ServiceBroker) : result (option tls_config) :=
  match br_Credentials e with
  | None => Panic nil_credentials
  | Some c =>
      match TLS_ c with
      | None => Ok None
      | Some t =>
          if negb (String.eqb (Certificate t) "") && negb (String.eqb (Key_ t) "")
          then match x509_key_pair (Certificate t) (Key_ t) with
               | Some e => Err (EPlain e)
               | None => Ok (Some (OwnCertificate (Certificate t) (Key_ t)))
               end
          else if SMProvidedCredentials t then Ok (Some ProvidedCertificate) else Ok None
      end
  end.
End Brokers.

Definition ServiceBroker_Sanitize (e : ServiceBroker) : ServiceBroker :=
  {| br_Base := br_Base e; br_Name := br_Name e; br_Description := br_Description e;
     br_BrokerURL := br_BrokerURL e; br_Credentials := None; br_Catalog := br_Catalog e |}.

(** [reflect.DeepEqual] on credentials. *)
#[global] Instance Basic_eq_dec : EqDecision Basic.
Proof. solve_decision. Defined.
#[global] Instance TLS_eq_dec : EqDecision TLS.
Proof. solve_decision. Defined.
#[global] Instance Credentials_eq_dec : EqDecision Credentials.
Proof. solve_decision. Defined.

Definition ServiceBroker_Equals (e b : ServiceBroker) : bool :=
  Base_Equals (br_Base e) (br_Base b) &&
  negb (negb (String.eqb (br_Name e) (br_Name b)) ||
        negb (String.eqb (br_BrokerURL e) (br_BrokerURL b)) ||
        negb (String.eqb (br_Description e) (br_Description b)) ||
        negb (String.eqb (br_Catalog e) (br_Catalog b)) ||
        negb (bool_decide (br_Credentials e = br_Credentials b))).

(** ** Platforms *)
Record Platform := {
  pl_Base : Base;
  pl_Type : string;
  pl_Name : string;
  pl_Description : string;
  pl_Credentials : option Credentials;
  pl_OldCredentials : option Credentials;
  pl_Version : string;
  pl_Active : bool;
  pl_Suspended : bool;
  pl_LastActive : Z;
  pl_Integrity : string;
  pl_CredentialsActive : bool;
  pl_Technical : bool
}.

Definition Platform_Validate (e : Platform) : result unit :=
  guard_err (String.eqb (pl_Type e) "") (EPlain "missing platform type") ;;;
  guard_err (String.eqb (pl_Name e) "") (EPlain "missing platform name") ;;;
  guard_err (HasRFC3986ReservedSymbols (base_ID (pl_Base e)))
    (EPlain (base_ID (pl_Base e) ++ " contains invalid character(s)")).

Definition Platform_Equals (e p : Platform) : bool :=
  Base_Equals (pl_Base e) (pl_Base p) &&
  negb (negb (String.eqb (pl_Description e) (pl_Description p)) ||
        negb (String.eqb (pl_Type e) (pl_Type p)) ||
        negb (String.eqb (pl_Name e) (pl_Name p)) ||
        negb (Bool.eqb (pl_Active e) (pl_Active p)) ||
        negb (String.eqb (pl_Version e) (pl_Version p)) ||
        negb (Z.eqb (pl_LastActive e) (pl_LastActive p)) ||
        negb (bool_decide (pl_Credentials e = pl_Credentials p))).

(** [generate] is [web.IsGeneratePlatformCredentialsRequired]. *)
Definition Platform_Sanitize (generate : bool) (e : Platform) : Platform :=
  {| pl_Base := pl_Base e; pl_Type := pl_Type e; pl_Name := pl_Name e; pl_Description := pl_Description e;
     pl_Credentials := if generate then pl_Credentials e else None; pl_OldCredentials := None;
     pl_Version := pl_Version e; pl_Active := pl_Active e; pl_Suspended := pl_Suspended e;
     pl_LastActive := pl_LastActive e; pl_Integrity := pl_Integrity e; pl_CredentialsActive := false;
     pl_Technical := false |}.

(** ** Visibilities and the credentials of a platform for a broker *)
Record Visibility := { vi_Base : Base; vi_PlatformID : string; vi_ServicePlanID : string }.

Definition Visibility_Validate (e : Visibility) : result unit :=
  guard_err (String.eqb (vi_ServicePlanID e) "") (EPlain "missing visibility service plan id") ;;;
  guard_err (HasRFC3986ReservedSymbols (base_ID (vi_Base e)))
    (EPlain (base_ID (vi_Base e) ++ " contains invalid character(s)")) ;;;
  Labels_Validate (base_Labels (vi_Base e)).
Definition Visibility_Equals (e v : Visibility) : bool :=
  Base_Equals (vi_Base e) (vi_Base v) &&
  negb (negb (String.eqb (vi_PlatformID e) (vi_PlatformID v)) ||
        negb (String.eqb (vi_ServicePlanID e) (vi_ServicePlanID v))).

Record BrokerPlatformCredential := {
  bpc_Base : Base;
  bpc_Username : string;
  bpc_PasswordHash : string;
  bpc_OldUsername : string;
  bpc_OldPasswordHash : string;
  bpc_PlatformID : string;
  bpc_BrokerID : string;
  bpc_NotificationID : string;
  bpc_Integrity : string;
  bpc_Active : bool
}.

Definition BrokerPlatformCredential_Validate (e : BrokerPlatformCredential) : result unit :=
  guard_err (HasRFC3986ReservedSymbols (base_ID (bpc_Base e)))
    (EPlain (base_ID (bpc_Base e) ++ " contains invalid character(s)")) ;;;
  guard_err (String.eqb (bpc_Username e) "") (EPlain "missing username") ;;;
  guard_err (String.eqb (bpc_PasswordHash e) "") (EPlain "missing password_hash") ;;;
  guard_err (String.eqb (bpc_BrokerID e) "") (EPlain "missing broker id").

Definition BrokerPlatformCredential_Equals (e c : BrokerPlatformCredential) : bool :=
  Base_Equals (bpc_Base e) (bpc_Base c) &&
  negb (negb (String.eqb (bpc_Username e) (bpc_Username c)) ||
        negb (String.eqb (bpc_PasswordHash e) (bpc_PasswordHash c)) ||
        negb (String.eqb (bpc_OldUsername e) (bpc_OldUsername c)) ||
        negb (String.eqb (bpc_OldPasswordHash e) (bpc_OldPasswordHash c)) ||
        negb (String.eqb (bpc_PlatformID e) (bpc_PlatformID c)) ||
        negb (String.eqb (bpc_BrokerID e) (bpc_BrokerID c)) ||
        negb (String.eqb (bpc_NotificationID e) (bpc_NotificationID c))).

(** ** JSON texts *)
(** Texts of JSON documents: encoding/json, and sjson and gjson at a path. *)
Class JSONText := {
  json_marshal : gmap string json -> result string;
  json_marshal_array : list json -> result string;
  json_unmarshal : string -> result (gmap string json);
  sjson_set : string -> string -> string -> result string;
  sjson_delete : string -> string -> result string;
  gjson_string : string -> string -> string
}.

(** [DeleteSignatureField] of api/osb/osb_store_plugin.go. *)
Definition DeleteSignatureField `{JSONText} (rawContext : string) : result string :=
  if String.eqb rawContext "" then Ok rawContext else sjson_delete rawContext "signature".

(** Signing a text with the private key of a configuration: its base64 text is decoded and
    parsed, the hash of the text is signed. *)
Class ContextSigning := { rsa_sign : string -> string -> result string }.
(** [ContextSigner.Sign]: the map with the signature of its JSON text added. *)
Definition Sign `{JSONText} `{ContextSigning} (privateKey : string) (m : gmap string json) : result (gmap string json) :=
  if String.eqb privateKey ""
  then Err (EPlain "context rsa private key is missing. context signature can not be calculated")
  else
    let* ctxByte := json_marshal m in
    let* signedCtx := rsa_sign privateKey ctxByte in
    Ok (<["signature" := JString signedCtx]> m).
