(* ===== verification/Smaap.v ===== *)
(** * Service Manager as a platform: what its interceptors work with

    The interceptors of storage/interceptors/smaap_service_instance_interceptor.go and
    smaap_service_binding_interceptor.go call a broker, the repository and the rest of the
    chain of interceptors, and change the operation of the context, which all of them share
    by pointer.  A run is a computation on the operation and a trace of the calls made so
    far; every answer is a function of the trace ([SmaapEnv]), so broker, database and clock
    may answer anything at any time.  Types and errors are those of the OSB client library.

    Here too are the functions both interceptors use: prerequisites, the context of a
    request and its signature (api/osb/context_signature_plugin.go), and the decisions about
    errors and polling. *)

From S2P Require Import Prelude GoStd Errors Query Labels OperationTypes DomainTypes.
From stdpp Require Import base gmap strings list pretty.
From Stdlib Require Import ZArith.
Local Open Scope string_scope.

(** ** The OSB client library *)
Record OriginatingIdentity := { oi_Platform : string; oi_Value : string }.

Record ProvisionRequest := {
  pr_InstanceID : string; pr_AcceptsIncomplete : bool; pr_ServiceID : string; pr_PlanID : string;
  pr_OrganizationGUID : string; pr_SpaceGUID : string; pr_Parameters : gmap string json;
  pr_Context : gmap string json; pr_OriginatingIdentity : option OriginatingIdentity
}.
Record UpdateInstanceRequest := {
  ur_InstanceID : string; ur_AcceptsIncomplete : bool; ur_ServiceID : string; ur_PlanID : option string;
  ur_Parameters : gmap string json; ur_Context : gmap string json; ur_PreviousPlanID : string;
  ur_OriginatingIdentity : option OriginatingIdentity
}.
(** The answer to a provision or update request, to a deprovision or unbind request. *)
Record BrokerResponse := {
  resp_Async : bool; resp_DashboardURL : option string; resp_OperationKey : option string
}.
Record DeprovisionRequest := {
  dr_InstanceID : string; dr_AcceptsIncomplete : bool; dr_ServiceID : string; dr_PlanID : string;
  dr_OriginatingIdentity : option OriginatingIdentity
}.
Record LastOperationRequest := {
  lo_InstanceID : string; lo_BindingID : option string; lo_ServiceID : option string;
  lo_PlanID : option string; lo_OperationKey : option string;
  lo_OriginatingIdentity : option OriginatingIdentity
}.
Inductive LastOperationState := StateInProgress | StateSucceeded | StateFailed | OtherLastState (name : string).
Record LastOperationResponse := { lr_State : LastOperationState; lr_Description : option string }.
Record BindRequest := {
  bi_BindingID : string; bi_InstanceID : string; bi_AcceptsIncomplete : bool; bi_ServiceID : string;
  bi_PlanID : string; bi_Parameters : gmap string json; bi_Context : gmap string json;
  bi_OriginatingIdentity : option OriginatingIdentity
}.
(** [bindResponseDetails]: what the answers to bind and to get-binding carry. *)
Record bindResponseDetails := {
  bd_Credentials : gmap string json; bd_SyslogDrainURL : option string;
  bd_RouteServiceURL : option string; bd_VolumeMounts : list json
}.
Record BindResponse := {
  bs_Async : bool; bs_OperationKey : option string; bs_Details : bindResponseDetails
}.
Record UnbindRequest := {
  un_BindingID : string; un_InstanceID : string; un_AcceptsIncomplete : bool; un_ServiceID : string;
  un_PlanID : string; un_OriginatingIdentity : option OriginatingIdentity
}.

(** Errors of the client: an answer with an error status, a [*url.Error], another
    [net.Error], or an error of another type. *)
Inductive osb_error :=
  | HTTPStatusCodeError (status : Z) (text : string)
  | URLError (timeout : bool) (text : string)
  | NetError (timeout : bool) (text : string)
  | OtherOSBError (text : string).
Definition osb_text (e : osb_error) : string :=
  match e with
  | HTTPStatusCodeError _ t | URLError _ t | NetError _ t | OtherOSBError t => t
  end.
Definition IsHTTPError (e : osb_error) : option Z :=
  match e with HTTPStatusCodeError s _ => Some s | _ => None end.
Definition IsGoneError (e : osb_error) : bool :=
  match IsHTTPError e with Some s => Z.eqb s 410 | None => false end.

(** ** Runs *)
Inductive event :=
  | EvRead (objectType id : string)
  | EvListed (objectType : string) (criteria : list Query.Criteria.Criterion)
  | EvProvision (req : ProvisionRequest) (ans : BrokerResponse + osb_error)
  | EvUpdateInstance (req : UpdateInstanceRequest) (ans : BrokerResponse + osb_error)
  | EvDeprovision (req : DeprovisionRequest) (ans : BrokerResponse + osb_error)
  | EvPoll (req : LastOperationRequest) (ans : LastOperationResponse + osb_error)
  | EvBind (req : BindRequest) (ans : BindResponse + osb_error)
  | EvUnbind (req : UnbindRequest) (ans : BrokerResponse + osb_error)
  | EvGetBinding (instanceID bindingID : string) (ans : bindResponseDetails + osb_error)
  | EvStoreOperation (op : Operation) (ans : result unit)
  | EvRawUpdate (instance : ServiceInstance)
  | EvRawDelete (objectType : string)
  | EvNextCreate (instance : ServiceInstance)
  | EvNextUpdate (instance : option ServiceInstance) (changes : list LabelChange)
  | EvNextDelete (objectType : string)
  | EvNextCreateBinding (binding : ServiceBinding).
Notation trace := (list event).

(** How a sequence of receives of the polling loop ends: after some ticks of the polling
    interval the context is done or the ticker of the maximal duration fires. *)
Inductive poll_end := ContextDone | MaxDurationTick.

Class SmaapEnv := {
  env_plan : trace -> string -> result ServicePlan;
  env_offering : trace -> string -> result ServiceOffering;
  env_broker : trace -> string -> result ServiceBroker;
  env_instance : trace -> string -> result ServiceInstance;
  env_last_operation : trace -> string -> result Operation;
  env_instances : trace -> list Query.Criteria.Criterion -> result (list ServiceInstance);
  env_bindings : trace -> list Query.Criteria.Criterion -> result (list ServiceBinding);
  env_references : trace -> string -> result (list ServiceInstance);
  env_count_bindings : trace -> string -> result Z;
  env_store_operation : trace -> Operation -> result unit;
  env_raw_update : trace -> ServiceInstance -> result ServiceInstance;
  env_raw_delete : trace -> string -> list Query.Criteria.Criterion -> result unit;
  (** what the chain adds to the transitive resources of the operation *)
  env_transitive : trace -> list RelatedType;
  env_next_create : trace -> ServiceInstance -> result ServiceInstance;
  env_next_update : trace -> option ServiceInstance -> list LabelChange -> result ServiceInstance;
  env_next_delete : trace -> string -> list Query.Criteria.Criterion -> result unit;
  env_next_create_binding : trace -> ServiceBinding -> result ServiceBinding;
  (** the broker, reached by the client made for it *)
  osb_client : trace -> ServiceBroker -> option tls_config -> result unit;
  osb_provision : trace -> ProvisionRequest -> BrokerResponse + osb_error;
  osb_update : trace -> UpdateInstanceRequest -> BrokerResponse + osb_error;
  osb_deprovision : trace -> DeprovisionRequest -> BrokerResponse + osb_error;
  osb_poll : trace -> LastOperationRequest -> LastOperationResponse + osb_error;
  osb_bind : trace -> BindRequest -> BindResponse + osb_error;
  osb_unbind : trace -> UnbindRequest -> BrokerResponse + osb_error;
  osb_get_binding : trace -> string -> string -> bindResponseDetails + osb_error;
  env_now : trace -> Z;
  env_select : trace -> nat * poll_end;
  (** JSON texts, printing with [%+v], and signing with a private key *)
  env_json :: JSONText;
  fmt_map : gmap string json -> string;
  env_signing :: ContextSigning
}.

Record run_state := { st_trace : trace; st_op : option Operation }.
Definition run (A : Type) : Type := run_state -> run_state * result A.

Definition r_ret {A} (a : A) : run A := fun s => (s, Ok a).
Definition r_fail {A} (e : error) : run A := fun s => (s, Err e).
Definition r_lift {A} (r : result A) : run A := fun s => (s, r).
Definition r_bind {A B} (m : run A) (f : A -> run B) : run B := fun s =>
  let '(s', r) := m s in
  match r with
  | Ok a => f a s'
  | Err e => (s', Err e)
  | Panic msg => (s', Panic msg)
  end.
(** The error of a call as a value. *)
Definition r_try {A} (m : run A) : run (A + error) := fun s =>
  let '(s', r) := m s in
  match r with
  | Ok a => (s', Ok (inl a))
  | Err e => (s', Ok (inr e))
  | Panic msg => (s', Panic msg)
  end.

Notation "'do!' x <- m ; k" := (r_bind m (fun x => k))
  (at level 100, x pattern, m at level 99, k at level 200, right associativity) : sm_scope.
Notation "m ';>' k" := (r_bind m (fun _ => k)) (at level 100, right associativity) : sm_scope.

(** [if err != nil { return wrap(err) }]. *)
Definition or_fail {A} (m : run A) (wrap : error -> error) : run A :=
  do! r <- r_try m;
  match r with inl a => r_ret a | inr e => r_fail (wrap e) end.

(** A call: its answer depends on the trace, and it is added to the trace. *)
Definition call {A} (answer : trace -> A) (ev : A -> event) : run A := fun s =>
  let a := answer (st_trace s) in
  ({| st_trace := st_trace s ++ [ev a]; st_op := st_op s |}, Ok a).
(** A call that returns an error or a value. *)
Definition call_result {A} (answer : trace -> result A) (ev : result A -> event) : run A :=
  do! r <- call answer ev; r_lift r.

Definition Context_missing : string := "nil pointer dereference".

(** [opcontext.Get], and reading and writing the operation through the pointer. *)
Definition opcontext_Get : run Operation := fun s =>
  match st_op s with
  | Some op => (s, Ok op)
  | None => (s, Err (EPlain "operation missing from context"))
  end.
Definition op_read : run Operation := fun s =>
  match st_op s with Some op => (s, Ok op) | None => (s, Panic Context_missing) end.
Definition op_write (op : Operation) : run unit := fun s =>
  ({| st_trace := st_trace s; st_op := Some op |}, Ok tt).

(** The assignments to the fields of an operation these interceptors make. *)
Definition with_schedule (op : Operation) (reschedule : bool) (timestamp deletion : option Z)
    (external : string) (context : option OperationContext) : Operation :=
  {| ID := ID op; CreatedAt := CreatedAt op; Labels_ := Labels_ op; Ready := Ready op;
     Description_ := Description_ op; Type_ := Type_ op; State := State op; ResourceID := ResourceID op;
     TransitiveResources := TransitiveResources op; ResourceType := ResourceType op; Errors_ := Errors_ op;
     PlatformID := PlatformID op; CorrelationID := CorrelationID op; ExternalID := external;
     ParentID := ParentID op; CascadeRootID := CascadeRootID op; Context_ := context;
     Reschedule := reschedule; RescheduleTimestamp := timestamp; DeletionScheduled := deletion |}.

Definition context_with (c : OperationContext) (async : bool) (planID instanceID : string) : OperationContext :=
  {| Async := async; IsAsyncNotDefined := IsAsyncNotDefined c; Cascade := Cascade c;
     ServicePlanID := planID; ServiceInstanceID := instanceID; UserInfo_ := UserInfo_ c;
     OperationTypes.Params := OperationTypes.Params c |}.

Section Calls.
Context `{SmaapEnv}.

(** A call of the repository that writes, or of the rest of the chain: interceptors below
    may add transitive resources to the operation of the context. *)
Definition storage_call {A} (answer : trace -> result A) (ev : result A -> event) : run A := fun s =>
  let added := env_transitive (st_trace s) in
  let op' := (fun op => set_TransitiveResources op (TransitiveResources op ++ added)) <$> st_op s in
  call_result answer ev {| st_trace := st_trace s; st_op := op' |}.

Definition store_operation (op : Operation) : run unit :=
  storage_call (fun t => env_store_operation t op) (fun r => EvStoreOperation op r).
Definition raw_update (i : ServiceInstance) : run ServiceInstance :=
  storage_call (fun t => env_raw_update t i) (fun _ => EvRawUpdate i).
Definition raw_delete (t : string) (c : list Query.Criteria.Criterion) : run unit :=
  storage_call (fun tr => env_raw_delete tr t c) (fun _ => EvRawDelete t).
Definition next_create (i : ServiceInstance) : run ServiceInstance :=
  storage_call (fun t => env_next_create t i) (fun _ => EvNextCreate i).
Definition next_update (i : option ServiceInstance) (c : list LabelChange) : run ServiceInstance :=
  storage_call (fun t => env_next_update t i c) (fun _ => EvNextUpdate i c).
Definition next_delete (t : string) (c : list Query.Criteria.Criterion) : run unit :=
  storage_call (fun tr => env_next_delete tr t c) (fun _ => EvNextDelete t).
Definition next_create_binding (b : ServiceBinding) : run ServiceBinding :=
  storage_call (fun t => env_next_create_binding t b) (fun _ => EvNextCreateBinding b).

Definition read {A} (answer : trace -> string -> result A) (objectType id : string) : run A :=
  call_result (fun t => answer t id) (fun _ => EvRead objectType id).
Definition time_Now : run Z := fun s => (s, Ok (env_now (st_trace s))).

Definition ServicePlanType : string := "/v1/service_plans".
Definition ServiceOfferingType : string := "/v1/service_offerings".
Definition ServiceBrokerType : string := "/v1/service_brokers".

Definition handle_storage_error (t : string) (e : error) : error := default e (HandleStorageError (Some e) t).

Section Prerequisites.
Context `{TLSSettings}.

Definition osbClientFunc (broker : ServiceBroker) (tlsConfig : option tls_config) : run unit := fun s =>
  (s, osb_client (st_trace s) broker tlsConfig).

Definition preparePrerequisites (instance : ServiceInstance) : run (ServiceBroker * ServiceOffering * ServicePlan) :=
  do! plan <- or_fail (read env_plan ServicePlanType (si_ServicePlanID instance)) (handle_storage_error ServicePlanType);
  do! service <- or_fail (read env_offering ServiceOfferingType (sp_ServiceOfferingID plan))
                  (handle_storage_error ServiceOfferingType);
  do! broker <- or_fail (read env_broker ServiceBrokerType (so_BrokerID service)) (handle_storage_error ServiceBrokerType);
  do! tlsConfig <- r_lift (GetTLSConfig broker);
  osbClientFunc broker tlsConfig ;>
  r_ret (broker, service, plan).
End Prerequisites.

(** ** Decisions *)
Definition isOperatedBySmaaP (instance : ServiceInstance) : bool :=
  Nat.ltb 0 (length (default [] (si_Labels instance !! "operated_by"))).

Definition isUnreachableBroker (err : osb_error) : bool :=
  match err with
  | URLError true _ | NetError true _ => true
  | _ => match IsHTTPError err with
         | Some status => Z.eqb status 503 || Z.eqb status 404
         | None => false
         end
  end.

Definition shouldStartOrphanMitigation (err : osb_error) : bool :=
  match IsHTTPError err with
  | Some statusCode =>
      let is2XX := (200 <=? statusCode)%Z && (statusCode <? 300)%Z in
      let is5XX := (500 <=? statusCode)%Z && (statusCode <? 600)%Z in
      (is2XX && negb (Z.eqb statusCode 200)) || Z.eqb statusCode 408 || is5XX
  | None => match err with URLError true _ => true | _ => false end
  end.

Definition shouldStartPolling (operation : Operation) : bool :=
  if negb (Reschedule operation) then false
  else match Context_ operation with
       | Some c => negb (IsAsyncNotDefined c) || InOrphanMitigationState operation
       | None => true
       end.

(** [operation.IsAsyncResponse()] is evaluated only where the source reaches it. *)
Definition shouldRemoveResource (operation : Operation) : result bool :=
  let keep_delete := bool_decide (Type_ operation = DELETE) && Reschedule operation in
  if bool_decide (State operation = FAILED) then
    let* async_create := (if bool_decide (Type_ operation = CREATE) then IsAsyncResponse operation else Ok false) in
    match async_create with
    | true => Ok false
    | false =>
        if bool_decide (Type_ operation = DELETE) && negb (InOrphanMitigationState operation) then Ok false
        else Ok (negb keep_delete)
    end
  else Ok (negb keep_delete).

(** ** The parts of a request *)
Definition getOriginIdentity (userInfo : option UserInfo) (instance : ServiceInstance) : option OriginatingIdentity :=
  match userInfo with
  | None => None
  | Some u =>
      let platform := if String.eqb (user_Platform u) "" then gjson_string (si_Context instance) "platform"
                      else user_Platform u in
      let platform := if String.eqb platform "" then SMPlatform else platform in
      Some {| oi_Platform := platform; oi_Value := user_Info u |}
  end.

(** The context with the id of the instance and, when signing succeeds, a signature; a
    failure to sign is only logged. *)
Definition signed_context (privateKey : string) (instanceID : string) (m : gmap string json)
    : result (gmap string json) :=
  if String.eqb privateKey "" then Ok m
  else
    let m := <["service_instance_id" := JString instanceID]> m in
    match Sign privateKey m with
    | Ok m' => Ok m'
    | Err _ => Ok m
    | Panic msg => Panic msg
    end.

(** The context made for an object without one: platform, name of the instance, and the
    first value of the tenant label when there is one. *)
Definition default_context (tenantKey : string) (labels : gmap string (list string)) (instanceName : string)
    : result (gmap string json) :=
  let m : gmap string json := <["platform" := JString SMPlatform]> {[ "instance_name" := JString instanceName ]} in
  if String.eqb tenantKey "" then Ok m
  else match labels !! tenantKey with
       | None => Ok m
       | Some (v :: _) => Ok (<[tenantKey := JString v]> m)
       | Some [] => Panic "index out of range"
       end.
Definition wrap_error (prefix : string) (e : error) : error := EPlain (prefix ++ Error e).
Definition wrap_result {A} (prefix : string) (r : result A) : result A :=
  match r with Err e => Err (wrap_error prefix e) | _ => r end.
Definition marshal_context (m : gmap string json) : result string :=
  wrap_result ("failed to marshal OSB context " ++ fmt_map m ++ ": ") (json_marshal m).
Definition unmarshal_context (s : string) : result (gmap string json) :=
  wrap_result "failed to unmarshal already present OSB context: " (json_unmarshal s).

Definition strPtrToStr (s : option string) : string := default "" s.
Definition fmt_bool (b : bool) : string := if b then "true" else "false".

(** ** What every accepted or failed request does to the operation *)

(** The operation marked for orphan mitigation and stored. *)
Definition mark_deletion_scheduled (brokerError : error) : run unit :=
  do! now <- time_Now;
  do! operation <- op_read;
  let operation := with_schedule operation false None (Some now) (ExternalID operation) (Context_ operation) in
  op_write operation ;>
  or_fail (store_operation operation)
    (wrap_error ("failed to update operation with id " ++ ID operation ++
                 " to schedule orphan mitigation after broker error " ++ Error brokerError ++ ": ")).

(** An asynchronous answer: the operation is marked as rescheduled, from the time of the
    first reschedule, with the key of the broker, and stored. *)
Definition mark_reschedule (key : option string) (message : string) : run unit :=
  do! operation <- op_read;
  do! context <- r_lift (match Context_ operation with
                         | None => Panic Context_missing
                         | Some c => Ok (if IsAsyncNotDefined c
                                         then context_with c true (ServicePlanID c) (ServiceInstanceID c)
                                         else c)
                         end);
  do! now <- time_Now;
  let timestamp := match RescheduleTimestamp operation with None => Some now | Some t => Some t end in
  let external := default (ExternalID operation) key in
  let operation := with_schedule operation true timestamp (DeletionScheduled operation) external (Some context) in
  op_write operation ;>
  or_fail (store_operation operation) (wrap_error message).

(** The end of polling: the operation is no longer rescheduled, and stored. *)
Definition finish_polling (schedule_deletion : bool) (wrap : error -> error) : run unit :=
  do! operation <- op_read;
  do! now <- time_Now;
  let deletion := if schedule_deletion then Some now else DeletionScheduled operation in
  let operation := with_schedule operation false None deletion (ExternalID operation) (Context_ operation) in
  op_write operation ;>
  or_fail (store_operation operation) wrap.

(** ** The time left for polling

    [time.Duration(plan.MaximumPollingDuration) * time.Second] is a multiplication of
    64-bit integers; [time.Since] saturates, and of the zero time it is the maximum. *)
Definition saturate64 (z : Z) : Z := Z.max Strconv.int64_min (Z.min Strconv.int64_max z).
Definition time_Since (now : Z) (t : option Z) : Z :=
  match t with Some t => saturate64 (now - t) | None => Strconv.int64_max end.
Definition planMaxPollingDuration (plan : ServicePlan) : Z :=
  Strconv.wrap64 (sp_MaximumPollingDuration plan * Second).
Definition leftPollingDuration (plan : ServicePlan) (now : Z) (timestamp : option Z) : Z :=
  if (0 <? planMaxPollingDuration plan)%Z
  then Strconv.wrap64 (planMaxPollingDuration plan - time_Since now timestamp)
  else Strconv.int64_max.

(** [time.NewTicker] panics for a duration that is not positive. *)
Definition NewTicker (d : Z) : result unit :=
  if (d <=? 0)%Z then Panic "non-positive interval for NewTicker" else Ok tt.

(** The loop around [select]: [n] receives from the ticker of the polling interval, each of
    which ends the loop ([Some]), goes on or fails, and then another receive. *)
Fixpoint poll_loop {B} (n : nat) (tick : run (option B)) (last_receive : run B) : run B :=
  match n with
  | 0 => last_receive
  | S n => do! stop <- tick; match stop with Some b => r_ret b | None => poll_loop n tick last_receive end
  end.
(** Polling of an instance or a binding: the time left is computed first, and when none is
    left the broker is not asked. *)
Definition poll_broker {B} (plan : ServicePlan) (pollingInterval : Z) (tick : run (option B)) (elapsed : run B)
    (context_done : B) : run B :=
  do! operation <- op_read;
  do! now <- time_Now;
  let left := leftPollingDuration plan now (RescheduleTimestamp operation) in
  if (0 <? planMaxPollingDuration plan)%Z && (left <=? 0)%Z then elapsed
  else
    r_lift (NewTicker left) ;>
    r_lift (NewTicker pollingInterval) ;>
    do! receives <- (fun s => (s, Ok (env_select (st_trace s))));
    poll_loop (fst receives) tick
      match snd receives with
      | ContextDone => r_ret context_done
      | MaxDurationTick => elapsed
      end.

Definition BrokerError (description : string) : error := EHTTP "BrokerError" description 502.
End Calls.
