(* ===== verification/InstanceInterceptor.v ===== *)
(** * The interceptor of service instances
    (storage/interceptors/smaap_service_instance_interceptor.go)

    Creation, update and deletion of an instance of the platform "service-manager" are
    passed on to the broker of its plan, with polling of asynchronous answers and with
    orphan mitigation. *)

From S2P Require Import Prelude GoStd Errors Query Labels OperationTypes DomainTypes Smaap.
From stdpp Require Import base gmap strings list pretty.
From Stdlib Require Import ZArith.
Local Open Scope string_scope.

Record ServiceInstanceInterceptor := {
  ii_tenantKey : string; ii_pollingInterval : Z; ii_ContextPrivateKey : string
}.

Section Interceptor.
Context `{SmaapEnv, TLSSettings}.
Variable i : ServiceInstanceInterceptor.

(** ** Requests and their printed form *)
Definition generateInstanceContext (instance : ServiceInstance) : result (ServiceInstance * gmap string json) :=
  if negb (String.eqb (si_Context instance) "") then
    let* context := sjson_set (si_Context instance) "instance_name" (si_Name instance) in
    let* instanceContext := unmarshal_context context in
    Ok (set_si_Context instance context, instanceContext)
  else
    let* instanceContext := default_context (ii_tenantKey i) (si_Labels instance) (si_Name instance) in
    let* contextBytes := marshal_context instanceContext in
    Ok (set_si_Context instance contextBytes, instanceContext).

Definition prepareProvisionRequest (instance : ServiceInstance) (serviceCatalogID planCatalogID : string)
    (userInfo : option UserInfo) : result (ServiceInstance * ProvisionRequest) :=
  let* (instance, instanceContext) := generateInstanceContext instance in
  let* instanceContext := signed_context (ii_ContextPrivateKey i) (si_ID instance) instanceContext in
  Ok (instance,
      {| pr_InstanceID := si_ID instance; pr_AcceptsIncomplete := true; pr_ServiceID := serviceCatalogID;
         pr_PlanID := planCatalogID; pr_OrganizationGUID := "-"; pr_SpaceGUID := "-";
         pr_Parameters := si_Parameters instance; pr_Context := instanceContext;
         pr_OriginatingIdentity := getOriginIdentity userInfo instance |}).

Definition prepareUpdateInstanceRequest (instance : ServiceInstance)
    (serviceCatalogID planCatalogID oldCatalogPlanID : string) (userInfo : option UserInfo)
    : result (ServiceInstance * UpdateInstanceRequest) :=
  let* (instance, instanceContext) :=
    (if negb (String.eqb (si_Context instance) "") then
       let* instanceContext := unmarshal_context (si_Context instance) in Ok (instance, instanceContext)
     else
       let* instanceContext := default_context (ii_tenantKey i) (si_Labels instance) (si_Name instance) in
       let* contextBytes := marshal_context instanceContext in
       Ok (set_si_Context instance contextBytes, instanceContext)) in
  let* instanceContext := signed_context (ii_ContextPrivateKey i) (si_ID instance) instanceContext in
  Ok (instance,
      {| ur_InstanceID := si_ID instance; ur_AcceptsIncomplete := true; ur_ServiceID := serviceCatalogID;
         ur_PlanID := Some planCatalogID; ur_Parameters := si_Parameters instance;
         ur_Context := instanceContext; ur_PreviousPlanID := oldCatalogPlanID;
         ur_OriginatingIdentity := getOriginIdentity userInfo instance |}).

Definition prepareDeprovisionRequest (instance : ServiceInstance) (serviceCatalogID planCatalogID : string)
    (userInfo : option UserInfo) : DeprovisionRequest :=
  {| dr_InstanceID := si_ID instance; dr_AcceptsIncomplete := true; dr_ServiceID := serviceCatalogID;
     dr_PlanID := planCatalogID; dr_OriginatingIdentity := getOriginIdentity userInfo instance |}.

Definition logProvisionRequest (r : ProvisionRequest) : string :=
  "context: " ++ fmt_map (pr_Context r) ++ ", instanceID: " ++ pr_InstanceID r ++ ", planID: " ++ pr_PlanID r ++
  ", serviceID: " ++ pr_ServiceID r ++ ", acceptsIncomplete: " ++ fmt_bool (pr_AcceptsIncomplete r).
Definition logUpdateInstanceRequest (r : UpdateInstanceRequest) : string :=
  let servicePlanString := match ur_PlanID r with Some p => "planID: " ++ p | None => "" end in
  "context: " ++ fmt_map (ur_Context r) ++ ", instanceID: " ++ ur_InstanceID r ++ ", " ++ servicePlanString ++
  ", serviceID: " ++ ur_ServiceID r ++ ", acceptsIncomplete: " ++ fmt_bool (ur_AcceptsIncomplete r).
Definition logDeprovisionRequest (r : DeprovisionRequest) : string :=
  "instanceID: " ++ dr_InstanceID r ++ ", planID: " ++ dr_PlanID r ++
  ", serviceID: " ++ dr_ServiceID r ++ ", acceptsIncomplete: " ++ fmt_bool (dr_AcceptsIncomplete r).
Definition logPollInstanceRequest (r : LastOperationRequest) : string :=
  "instanceID: " ++ lo_InstanceID r ++ ", planID: " ++ strPtrToStr (lo_PlanID r) ++
  ", serviceID: " ++ strPtrToStr (lo_ServiceID r) ++ ", operationKey: " ++ strPtrToStr (lo_OperationKey r).

(** ** Polling *)
Definition processMaxPollingDurationElapsed (instance : ServiceInstance) (plan : ServicePlan)
    (enableOrphanMitigation : bool) : run unit :=
  do! operation <- op_read;
  finish_polling enableOrphanMitigation
    (wrap_error ("failed to update operation with id " ++ ID operation ++
       " after failed of last operation for instance with id " ++ si_ID instance ++ ": ")) ;>
  r_fail (BrokerError ("failed polling operation for instance with id " ++ si_ID instance ++ " and name " ++
    si_Name instance ++ " due to maximum_polling_duration " ++ pretty (sp_MaximumPollingDuration plan) ++
    "s for it's plan " ++ sp_Name plan ++ " is reached")).

(** One receive from the ticker of the polling interval. *)
Definition poll_instance_tick (pollingRequest : LastOperationRequest) (instance : ServiceInstance)
    (enableOrphanMitigation : bool) : run (option unit) :=
  do! ans <- call (fun t => osb_poll t pollingRequest) (EvPoll pollingRequest);
  do! operation <- op_read;
  match ans with
  | inr err =>
      if IsGoneError err && bool_decide (Type_ operation = DELETE) then
        finish_polling false (fun _ => EPlain ("failed to update operation with id " ++ ID operation ++
          " to mark that next execution should not be reschedulable")) ;>
        r_ret (Some tt)
      else if isUnreachableBroker err then r_ret None
      else r_fail (BrokerError ("Failed poll last operation request " ++ logPollInstanceRequest pollingRequest ++
             " for instance with id " ++ si_ID instance ++ " and name " ++ si_Name instance ++ ": " ++ osb_text err))
  | inl pollingResponse =>
      match lr_State pollingResponse with
      | StateInProgress => r_ret None
      | StateSucceeded =>
          finish_polling false (wrap_error ("failed to update operation with id " ++ ID operation ++
            " to mark that next execution should be a reschedule: ")) ;>
          r_ret (Some tt)
      | StateFailed =>
          finish_polling enableOrphanMitigation (wrap_error ("failed to update operation with id " ++ ID operation ++
            " after failed of last operation for instance with id " ++ si_ID instance ++ ": ")) ;>
          let errDescription := match lr_Description pollingResponse with
                                | Some d => d
                                | None => "no description provided by broker"
                                end in
          r_fail (BrokerError ("failed polling operation for instance with id " ++ si_ID instance ++ " and name " ++
            si_Name instance ++ " due to polling last operation error: " ++ errDescription))
      | OtherLastState _ => r_ret None
      end
  end.

Definition pollServiceInstance (instance : ServiceInstance) (plan : ServicePlan)
    (serviceCatalogID planCatalogID : string) (enableOrphanMitigation : bool) : run unit :=
  do! operation <- op_read;
  let key := if String.eqb (ExternalID operation) "" then None else Some (ExternalID operation) in
  let pollingRequest :=
    {| lo_InstanceID := si_ID instance; lo_BindingID := None; lo_ServiceID := Some serviceCatalogID;
       lo_PlanID := Some planCatalogID; lo_OperationKey := key;
       lo_OriginatingIdentity := getOriginIdentity (GetUserInfo operation) instance |} in
  poll_broker plan (ii_pollingInterval i)
    (poll_instance_tick pollingRequest instance enableOrphanMitigation)
    (processMaxPollingDurationElapsed instance plan enableOrphanMitigation) tt.

(** ** Creation *)
Definition AroundTxCreate_instance (f : ServiceInstance -> run ServiceInstance) (obj : ServiceInstance)
    : run ServiceInstance :=
  let instance := set_si_Usable obj false in
  let smaapOperated := isOperatedBySmaaP instance in
  if negb (String.eqb (si_PlatformID instance) SMPlatform) && negb smaapOperated then f instance
  else
  do! operation <- opcontext_Get;
  if negb (String.eqb (si_ReferencedInstanceID instance) "") then
    do! generated <- r_lift (generateInstanceContext instance);
    do! marshal <- r_lift (json_marshal (snd generated));
    f (set_si_Context (fst generated) marshal)
  else
  do! prerequisites <- preparePrerequisites instance;
  let '(broker, service, plan) := prerequisites in
  if Reschedule operation then
    pollServiceInstance instance plan (so_CatalogID service) (sp_CatalogID plan) true ;>
    r_ret instance
  else
    do! operation <- op_read;
    do! context <- r_lift (match Context_ operation with
                           | None => Panic Context_missing
                           | Some c => Ok (context_with c (Async c) (si_ServicePlanID instance) (ServiceInstanceID c))
                           end);
    op_write (with_schedule operation (Reschedule operation) (RescheduleTimestamp operation)
                (DeletionScheduled operation) (ExternalID operation) (Some context)) ;>
    do! operation <- op_read;
    do! prepared <- r_lift (wrap_result "failed to prepare provision request: "
                      (prepareProvisionRequest instance (so_CatalogID service) (sp_CatalogID plan)
                         (GetUserInfo operation)));
    let '(instance, provisionRequest) := prepared in
    do! ans <- call (fun t => osb_provision t provisionRequest) (EvProvision provisionRequest);
    match ans with
    | inr err =>
        let brokerError := BrokerError ("Failed provisioning request " ++ logProvisionRequest provisionRequest ++
                             ": " ++ osb_text err) in
        (if shouldStartOrphanMitigation err then mark_deletion_scheduled brokerError else r_ret tt) ;>
        do! operation <- op_read;
        do! async <- r_lift (IsAsyncResponse operation);
        (match async with true => f instance ;> r_ret tt | false => r_ret tt end) ;>
        r_fail brokerError
    | inl provisionResponse =>
        let instance := match resp_DashboardURL provisionResponse with
                        | Some u => set_si_DashboardURL instance u
                        | None => instance
                        end in
        (if resp_Async provisionResponse
         then mark_reschedule (resp_OperationKey provisionResponse)
                ("failed to update operation with id " ++ si_ID instance ++
                 " to mark that next execution should be a reschedule: ")
         else r_ret tt) ;>
        do! instance <- f instance;
        do! operation <- op_read;
        (if shouldStartPolling operation
         then pollServiceInstance instance plan (so_CatalogID service) (sp_CatalogID plan) true
         else r_ret tt) ;>
        r_ret instance
    end.

(** ** Update *)

(** [instance.UpdateValues = types.InstanceUpdateValues{}], stored without interceptors,
    after polling failed with [err]. *)
Definition discard_update (instance : ServiceInstance) (poll : run unit) : run unit :=
  do! r <- r_try poll;
  match r with
  | inl _ => r_ret tt
  | inr err => raw_update (set_si_UpdateValues instance (None, [])) ;> r_fail err
  end.

Definition AroundTxUpdate_instance (f : option ServiceInstance -> list LabelChange -> run ServiceInstance)
    (updatedInstance : ServiceInstance) (labelChanges : list LabelChange) : run ServiceInstance :=
  let smaapOperated := isOperatedBySmaaP updatedInstance in
  if negb (String.eqb (si_PlatformID updatedInstance) SMPlatform) && negb smaapOperated
  then f (Some updatedInstance) labelChanges
  else
  do! operation <- opcontext_Get;
  if bool_decide (is_Some (si_Shared updatedInstance)) ||
     negb (String.eqb (si_ReferencedInstanceID updatedInstance) "")
  then f (Some updatedInstance) []
  else
  do! prerequisites <- preparePrerequisites updatedInstance;
  let '(broker, service, plan) := prerequisites in
  let poll u := pollServiceInstance u plan (so_CatalogID service) (sp_CatalogID plan) false in
  if Reschedule operation then
    discard_update updatedInstance (poll updatedInstance) ;>
    r_ret updatedInstance
  else
    do! instance <- read env_instance ServiceInstanceType (si_ID updatedInstance);
    do! oldServicePlan <- or_fail (read env_plan ServicePlanType (si_ServicePlanID instance))
      (fun _ => EHTTP "NotFound" ("current service plan with id " ++ si_ServicePlanID instance ++ " for instance " ++
         si_Name instance ++ " no longer exists and instance updates are not allowed") 400);
    do! operation <- op_read;
    do! prepared <- r_lift (wrap_result "faied to prepare update instance request: "
      (prepareUpdateInstanceRequest updatedInstance (so_CatalogID service) (sp_CatalogID plan)
         (sp_CatalogID oldServicePlan) (GetUserInfo operation)));
    let '(updatedInstance, updateInstanceRequest) := prepared in
    do! ans <- call (fun t => osb_update t updateInstanceRequest) (EvUpdateInstance updateInstanceRequest);
    match ans with
    | inr err =>
        r_fail (BrokerError ("Failed update instance request " ++ logUpdateInstanceRequest updateInstanceRequest ++
                  ": " ++ osb_text err))
    | inl response =>
        let updatedInstance := set_si_Parameters updatedInstance ∅ in
        let updatedInstance := match resp_DashboardURL response with
                               | Some u => set_si_DashboardURL updatedInstance u
                               | None => updatedInstance
                               end in
        do! instance <- raw_update (set_si_UpdateValues instance (Some updatedInstance, labelChanges));
        (if resp_Async response
         then mark_reschedule (resp_OperationKey response)
                ("failed to update operation with id " ++ si_ID updatedInstance ++
                 " to mark that next execution should be a reschedule: ")
         else r_ret tt) ;>
        do! operation <- op_read;
        (if shouldStartPolling operation then discard_update instance (poll updatedInstance) else r_ret tt) ;>
        f (fst (si_UpdateValues instance)) (snd (si_UpdateValues instance))
    end.

(** ** Deletion *)
Definition deleteSingleInstance (instance : ServiceInstance) : run unit :=
  do! bindingsCount <- or_fail (read env_count_bindings ServiceBindingType (si_ID instance))
    (fun _ => EPlain ("could not fetch bindings for instance with id " ++ si_ID instance));
  do! references <- (if IsShared instance
                     then r_try (or_fail (read env_references ServiceInstanceType (si_ID instance))
                            (fun _ => handle_storage_error ServiceInstanceType ENotFoundInStorage))
                     else r_ret (inl []));
  let referencesArray := match references with inl l => si_ID <$> l | inr _ => [] end in
  if Nat.ltb 0 (length referencesArray)
  then r_fail (default ESharedInstanceHasReferences
                 (HandleReferencesError (Some ESharedInstanceHasReferences) referencesArray))
  else if (0 <? bindingsCount)%Z
  then r_fail (EHTTP "BadRequest" ("could not delete instance due to " ++ pretty bindingsCount ++ " existing bindings") 400)
  else if negb (String.eqb (si_ReferencedInstanceID instance) "") then r_ret tt
  else
  do! prerequisites <- preparePrerequisites instance;
  let '(broker, service, plan) := prerequisites in
  let poll := pollServiceInstance instance plan (so_CatalogID service) (sp_CatalogID plan) true in
  do! operation <- op_read;
  if Reschedule operation then poll
  else
    let deprovisionRequest := prepareDeprovisionRequest instance (so_CatalogID service) (sp_CatalogID plan)
                                (GetUserInfo operation) in
    do! ans <- call (fun t => osb_deprovision t deprovisionRequest) (EvDeprovision deprovisionRequest);
    match ans with
    | inr err =>
        if IsGoneError err then r_ret tt
        else
          let brokerError := BrokerError ("Failed deprovisioning request " ++
                               logDeprovisionRequest deprovisionRequest ++ ": " ++ osb_text err) in
          (if shouldStartOrphanMitigation err then mark_deletion_scheduled brokerError else r_ret tt) ;>
          r_fail brokerError
    | inl deprovisionResponse =>
        (if resp_Async deprovisionResponse
         then mark_reschedule (resp_OperationKey deprovisionResponse)
                ("failed to update operation with id " ++ ID operation ++ " to mark that rescheduling is possible: ")
         else r_ret tt) ;>
        do! operation <- op_read;
        if shouldStartPolling operation then poll else r_ret tt
    end.

(** An instance with nothing but an id and a plan. *)
Definition bare_instance (id planID : string) : ServiceInstance :=
  {| si_Base := {| base_ID := id; base_CreatedAt := 0; base_UpdatedAt := 0; base_Labels := ∅;
                   base_PagingSequence := 0; base_Ready := false; base_LastOperation := None |};
     si_Name := ""; si_ServicePlanID := planID; si_ReferencedInstanceID := ""; si_PlatformID := "";
     si_DashboardURL := ""; si_MaintenanceInfo := ""; si_Context := ""; si_UpdateValues := (None, []);
     si_PreviousValues := ""; si_Parameters := ∅; si_Usable := false; si_Shared := None |}.

Definition AroundTxDelete_instance (f : list Query.Criteria.Criterion -> run unit)
    (deletionCriteria : list Query.Criteria.Criterion) : run unit :=
  do! instances <- or_fail (call_result (fun t => env_instances t deletionCriteria)
                              (fun _ => EvListed ServiceInstanceType deletionCriteria))
    (wrap_error "failed to get instances for deletion: ");
  if Nat.ltb 1 (length instances) then r_fail (EPlain "deletion of multiple instances is not supported")
  else
  do! operation <- opcontext_Get;
  (match instances with
   | instance :: _ =>
       do! async <- (if bool_decide (Type_ operation = CREATE) then r_lift (IsAsyncResponse operation)
                     else r_ret true);
       (match async with
        | true => r_ret tt
        | false => raw_delete ServiceInstanceType deletionCriteria
        end) ;>
       deleteSingleInstance instance
   | [] =>
       if InOrphanMitigationState operation then
         do! planID <- r_lift (match Context_ operation with
                               | None => Panic Context_missing
                               | Some c => Ok (ServicePlanID c)
                               end);
         if negb (String.eqb planID "") then deleteSingleInstance (bare_instance (ResourceID operation) planID)
         else r_ret tt
       else r_ret tt
   end) ;>
  do! operation <- op_read;
  do! remove <- r_lift (shouldRemoveResource operation);
  match remove with true => f deletionCriteria | false => r_ret tt end.
End Interceptor.
