(* ===== verification/BindingInterceptor.v ===== *)
(** * The interceptor of service bindings
    (storage/interceptors/smaap_service_binding_interceptor.go)

    Creation and deletion of a binding of an instance of the platform "service-manager" are
    passed on to the broker; for a reference instance, with the data of the shared instance
    it points to. *)

From S2P Require Import Prelude GoStd Errors Query Labels OperationTypes DomainTypes Smaap.
From stdpp Require Import base gmap strings list pretty.
From Stdlib Require Import ZArith.
Local Open Scope string_scope.

Record ServiceBindingInterceptor := {
  bi_tenantKey : string; bi_pollingInterval : Z; bi_ContextPrivateKey : string
}.

(** [nil] where the code dereferences an instance. *)
Definition nil_instance : string := "nil pointer dereference".

Section Interceptor.
Context `{SmaapEnv, TLSSettings}.
Variable i : ServiceBindingInterceptor.

(** ** Checks *)
Definition isPlanBindable (service : ServiceOffering) (plan : ServicePlan) : bool :=
  match sp_Bindable plan with Some b => b | None => so_Bindable service end.
Definition isInstanceReady (instance : ServiceInstance) : bool := base_Ready (si_Base instance).

Definition getLastOperationByResourceID (resourceID : string) : run (option Operation) :=
  do! r <- r_try (read env_last_operation OperationType resourceID);
  match r with
  | inl op => r_ret (Some op)
  | inr ENotFoundInStorage => r_ret None
  | inr e => r_fail (wrap_error ("could not fetch last operation for resource with id " ++ resourceID ++ ": ")
                       (handle_storage_error OperationType e))
  end.

Definition isInstanceInDeletion (instanceID : string) : run bool :=
  do! found <- or_fail (getLastOperationByResourceID instanceID)
                 (wrap_error "could not determine in instance is in process of deletion: ");
  match found with
  | None => r_ret false
  | Some lastOperation =>
      let deletionScheduled := InOrphanMitigationState lastOperation in
      let deletionInProgress := bool_decide (Type_ lastOperation = DELETE) &&
                                bool_decide (State lastOperation = IN_PROGRESS) in
      r_ret (deletionScheduled || deletionInProgress)
  end.

Definition getInstanceByID (instanceID : string) : run ServiceInstance :=
  or_fail (read env_instance ServiceInstanceType instanceID) (fun e =>
    let handled := Error (handle_storage_error ServiceInstanceType e) in
    match e with
    | ENotFoundInStorage => EHTTP "NotFound" handled 404
    | _ => EPlain ("could not fetch instance with id " ++ instanceID ++ " from db: " ++ handled)
    end).

(** ** Requests *)
Definition prepareBindRequest (instance : ServiceInstance) (binding : ServiceBinding)
    (serviceCatalogID planCatalogID : string) (bindingRetrievable : bool) (userInfo : option UserInfo)
    : result (ServiceBinding * BindRequest) :=
  let* (binding, context) :=
    (if negb (String.eqb (sb_Context binding) "") then
       let* c := sjson_set (sb_Context binding) "instance_name" (si_Name instance) in
       let* context := unmarshal_context c in
       Ok (set_sb_Context binding c, context)
     else
       let* context := default_context (bi_tenantKey i) (base_Labels (sb_Base binding)) (si_Name instance) in
       let* contextBytes := marshal_context context in
       Ok (set_sb_Context binding contextBytes, context)) in
  let* context := signed_context (bi_ContextPrivateKey i) (si_ID instance) context in
  Ok (binding,
      {| bi_BindingID := sb_ID binding; bi_InstanceID := si_ID instance;
         bi_AcceptsIncomplete := bindingRetrievable; bi_ServiceID := serviceCatalogID;
         bi_PlanID := planCatalogID; bi_Parameters := sb_Parameters binding; bi_Context := context;
         bi_OriginatingIdentity := getOriginIdentity userInfo instance |}).

Definition prepareUnbindRequest (instance : ServiceInstance) (binding : ServiceBinding)
    (serviceCatalogID planCatalogID : string) (bindingRetrievable : bool) (userInfo : option UserInfo)
    : UnbindRequest :=
  {| un_BindingID := sb_ID binding; un_InstanceID := si_ID instance;
     un_AcceptsIncomplete := bindingRetrievable; un_ServiceID := serviceCatalogID;
     un_PlanID := planCatalogID; un_OriginatingIdentity := getOriginIdentity userInfo instance |}.

Definition logBindRequest (r : BindRequest) : string :=
  "context: " ++ fmt_map (bi_Context r) ++ ", bindingID: " ++ bi_BindingID r ++ ", instanceID: " ++
  bi_InstanceID r ++ ", planID: " ++ bi_PlanID r ++ ", serviceID: " ++ bi_ServiceID r ++
  ", acceptsIncomplete: " ++ fmt_bool (bi_AcceptsIncomplete r).
Definition logUnbindRequest (r : UnbindRequest) : string :=
  "bindingID: " ++ un_BindingID r ++ ", instanceID: " ++ un_InstanceID r ++ ", planID: " ++ un_PlanID r ++
  ", serviceID: " ++ un_ServiceID r ++ ", acceptsIncomplete: " ++ fmt_bool (un_AcceptsIncomplete r).
Definition logPollBindingRequest (r : LastOperationRequest) : string :=
  "bindingID: " ++ strPtrToStr (lo_BindingID r) ++ ", instanceID: " ++ lo_InstanceID r ++ ", planID: " ++
  strPtrToStr (lo_PlanID r) ++ ", serviceID: " ++ strPtrToStr (lo_ServiceID r) ++ ", operationKey: " ++
  strPtrToStr (lo_OperationKey r).
Definition logGetBindingRequest (instanceID bindingID : string) : string :=
  "bindingID: " ++ bindingID ++ ", instanceID: " ++ instanceID.

(** ** The answer to a bind request *)
Definition enrichBindingWithBindingResponse (binding : ServiceBinding) (response : bindResponseDetails)
    : result ServiceBinding :=
  let* binding :=
    (if negb (Nat.eqb (size (bd_Credentials response)) 0) then
       let* bytes := wrap_result "could not marshal binding credentials: " (json_marshal (bd_Credentials response)) in
       Ok (set_sb_Credentials binding bytes)
     else Ok binding) in
  let binding := match bd_RouteServiceURL response with
                 | Some u => set_sb_RouteServiceURL binding u
                 | None => binding
                 end in
  let binding := match bd_SyslogDrainURL response with
                 | Some u => set_sb_SyslogDrainURL binding u
                 | None => binding
                 end in
  if negb (Nat.eqb (length (bd_VolumeMounts response)) 0) then
    let* bytes := wrap_result "could not marshal volume mounts: " (json_marshal_array (bd_VolumeMounts response)) in
    Ok (set_sb_VolumeMounts binding bytes)
  else Ok binding.
Definition enriched (binding : ServiceBinding) (response : bindResponseDetails) : result ServiceBinding :=
  wrap_result "could not enrich binding details with binding response details: "
    (enrichBindingWithBindingResponse binding response).

(** ** Polling *)
Definition getBindingDetailsFromBroker (binding : ServiceBinding) (instance : ServiceInstance)
    : run bindResponseDetails :=
  do! ans <- call (fun t => osb_get_binding t (si_ID instance) (sb_ID binding))
              (EvGetBinding (si_ID instance) (sb_ID binding));
  match ans with
  | inl details => r_ret details
  | inr err =>
      let brokerError := BrokerError ("Failed get bind request " ++
        logGetBindingRequest (si_ID instance) (sb_ID binding) ++ " after successfully finished polling: " ++
        osb_text err) in
      (if shouldStartOrphanMitigation err then mark_deletion_scheduled brokerError else r_ret tt) ;>
      r_fail brokerError
  end.

Definition binding_elapsed (binding : ServiceBinding) (instance : ServiceInstance) (plan : ServicePlan)
    (enableOrphanMitigation : bool) : run unit :=
  do! operation <- op_read;
  finish_polling enableOrphanMitigation
    (wrap_error ("failed to update operation with id " ++ ID operation ++
       " after failed of last operation for binding with id " ++ sb_ID binding ++ ": ")) ;>
  r_fail (BrokerError ("failed polling operation for binding with id " ++ sb_ID binding ++ " and name " ++
    sb_Name binding ++ " for instance with id " ++ si_ID instance ++ " and name " ++ si_Name instance ++
    " due to maximum_polling_duration " ++ pretty (sp_MaximumPollingDuration plan) ++ "s for it's plan " ++
    sp_Name plan ++ " is reached")).

(** One receive from the ticker of the polling interval.  [Some] binding ends the loop: the
    binding is enriched in place for a creation. *)
Definition poll_binding_tick (pollingRequest : LastOperationRequest) (binding : ServiceBinding)
    (instance : ServiceInstance) (enableOrphanMitigation : bool) : run (option ServiceBinding) :=
  do! ans <- call (fun t => osb_poll t pollingRequest) (EvPoll pollingRequest);
  do! operation <- op_read;
  let reschedule_error := wrap_error ("failed to update operation with id " ++ ID operation ++
                            " to mark that next execution should be a reschedule: ") in
  match ans with
  | inr err =>
      if IsGoneError err && bool_decide (Type_ operation = DELETE) then
        finish_polling false reschedule_error ;>
        r_ret (Some binding)
      else r_fail (BrokerError ("Failed poll last operation request " ++ logPollBindingRequest pollingRequest ++
             " for binding with id " ++ sb_ID binding ++ " and name " ++ sb_Name binding ++ ": " ++ osb_text err))
  | inl pollingResponse =>
      match lr_State pollingResponse with
      | StateInProgress => r_ret None
      | StateSucceeded =>
          finish_polling false reschedule_error ;>
          if bool_decide (Type_ operation = CREATE) then
            do! bindingDetails <- getBindingDetailsFromBroker binding instance;
            do! binding <- r_lift (enriched binding bindingDetails);
            r_ret (Some binding)
          else r_ret (Some binding)
      | StateFailed =>
          finish_polling enableOrphanMitigation (wrap_error ("failed to update operation with id " ++ ID operation ++
            " after failed of last operation for binding with id " ++ sb_ID binding ++ ": ")) ;>
          let errDescription := match lr_Description pollingResponse with
                                | Some d => d
                                | None => "no description provided by broker"
                                end in
          r_fail (BrokerError ("failed polling operation for binding with id " ++ sb_ID binding ++ " and name " ++
            sb_Name binding ++ " due to polling last operation error: " ++ errDescription))
      | OtherLastState _ => r_ret None
      end
  end.

(** The result is the binding after polling, which the code changes in place. *)
Definition pollServiceBinding (binding : ServiceBinding) (instance : ServiceInstance) (plan : ServicePlan)
    (serviceCatalogID planCatalogID : string) (enableOrphanMitigation : bool) : run ServiceBinding :=
  do! operation <- op_read;
  let key := if String.eqb (ExternalID operation) "" then None else Some (ExternalID operation) in
  let pollingRequest :=
    {| lo_InstanceID := sb_ServiceInstanceID binding; lo_BindingID := Some (sb_ID binding);
       lo_ServiceID := Some serviceCatalogID; lo_PlanID := Some planCatalogID; lo_OperationKey := key;
       lo_OriginatingIdentity := getOriginIdentity (GetUserInfo operation) instance |} in
  poll_broker plan (bi_pollingInterval i)
    (poll_binding_tick pollingRequest binding instance enableOrphanMitigation)
    (binding_elapsed binding instance plan enableOrphanMitigation ;> r_ret binding) binding.

(** ** Creation *)
Definition AroundTxCreate_binding (f : ServiceBinding -> run ServiceBinding) (binding : ServiceBinding)
    : run ServiceBinding :=
  do! instance <- getInstanceByID (sb_ServiceInstanceID binding);
  let instanceContext := si_Context instance in
  let smaapOperated := isOperatedBySmaaP instance in
  if negb (String.eqb (si_PlatformID instance) SMPlatform) && negb smaapOperated then f binding
  else
  do! operation <- opcontext_Get;
  let isReferenceInstance := negb (String.eqb (si_ReferencedInstanceID instance) "") in
  do! shared <- (if isReferenceInstance
                 then do! shared <- getInstanceByID (si_ReferencedInstanceID instance);
                      r_ret (shared, set_sb_Context binding (si_Context shared))
                 else r_ret (instance, binding));
  let '(instance, binding) := shared in
  do! prerequisites <- preparePrerequisites instance;
  let '(broker, service, plan) := prerequisites in
  if negb (isPlanBindable service plan)
  then r_fail (EHTTP "BrokerError" ("plan " ++ sp_CatalogName plan ++ " is not bindable") 400)
  else if negb (isInstanceReady instance)
  then r_fail (EHTTP "OperationInProgress"
                 ("creation of instance " ++ si_Name instance ++ " is still in progress or failed") 422)
  else
  do! isDeleting <- or_fail (isInstanceInDeletion (si_ID instance)) (wrap_error "could not determine instance state: ");
  match isDeleting with
  | true => r_fail (EHTTP "OperationInProgress" ("instance " ++ si_Name instance ++ " is in state of delteion") 422)
  | false =>
  let poll b := pollServiceBinding b instance plan (so_CatalogID service) (sp_CatalogID plan) true in
  if Reschedule operation then poll binding
  else
    do! operation <- op_read;
    do! context <- r_lift (match Context_ operation with
                           | None => Panic Context_missing
                           | Some c => Ok (context_with c (Async c) (ServicePlanID c) (sb_ServiceInstanceID binding))
                           end);
    op_write (with_schedule operation (Reschedule operation) (RescheduleTimestamp operation)
                (DeletionScheduled operation) (ExternalID operation) (Some context)) ;>
    do! operation <- op_read;
    do! prepared <- r_lift (wrap_result "failed to prepare bind request: "
                      (prepareBindRequest instance binding (so_CatalogID service) (sp_CatalogID plan)
                         (so_BindingsRetrievable service) (GetUserInfo operation)));
    let '(binding, bindRequest) := prepared in
    do! contextBytes <- r_lift (marshal_context (bi_Context bindRequest));
    let binding := set_sb_Context binding contextBytes in
    let revert b := if isReferenceInstance then set_sb_Context b instanceContext else b in
    do! ans <- call (fun t => osb_bind t bindRequest) (EvBind bindRequest);
    match ans with
    | inr err =>
        let brokerError := BrokerError ("Failed bind request " ++ logBindRequest bindRequest ++ ": " ++ osb_text err) in
        (if shouldStartOrphanMitigation err then mark_deletion_scheduled brokerError else r_ret tt) ;>
        do! operation <- op_read;
        do! async <- r_lift (IsAsyncResponse operation);
        (match async with true => f (revert binding) ;> r_ret tt | false => r_ret tt end) ;>
        r_fail brokerError
    | inl bindResponse =>
        do! binding <- r_lift (enriched binding (bs_Details bindResponse));
        (if bs_Async bindResponse
         then mark_reschedule (bs_OperationKey bindResponse)
                ("failed to update operation with id " ++ si_ID instance ++
                 " to mark that next execution should be a reschedule: ")
         else r_ret tt) ;>
        do! stripped <- r_lift (DeleteSignatureField (sb_Context (revert binding)));
        do! binding <- f (set_sb_Context binding stripped);
        do! operation <- op_read;
        if shouldStartPolling operation then poll binding else r_ret binding
    end
  end.

(** ** Deletion *)
Definition deleteSingleBinding (binding : ServiceBinding) : run unit :=
  do! instance <- getInstanceByID (sb_ServiceInstanceID binding);
  do! shared <- (if negb (String.eqb (si_ReferencedInstanceID instance) "")
                 then do! r <- r_try (getInstanceByID (si_ReferencedInstanceID instance));
                      r_lift (match r with
                              | inl shared => Ok (shared, set_sb_Context binding (si_Context shared))
                              | inr _ => Panic nil_instance
                              end)
                 else r_ret (instance, binding));
  let '(instance, binding) := shared in
  do! prerequisites <- preparePrerequisites instance;
  let '(broker, service, plan) := prerequisites in
  let poll := pollServiceBinding binding instance plan (so_CatalogID service) (sp_CatalogID plan) true ;> r_ret tt in
  do! operation <- op_read;
  if Reschedule operation then poll
  else
    let unbindRequest := prepareUnbindRequest instance binding (so_CatalogID service) (sp_CatalogID plan)
                           (so_BindingsRetrievable service) (GetUserInfo operation) in
    do! ans <- call (fun t => osb_unbind t unbindRequest) (EvUnbind unbindRequest);
    match ans with
    | inr err =>
        if IsGoneError err then r_ret tt
        else
          let brokerError := BrokerError ("Failed unbind request " ++ logUnbindRequest unbindRequest ++ ": " ++
                               osb_text err) in
          (if shouldStartOrphanMitigation err then mark_deletion_scheduled brokerError else r_ret tt) ;>
          r_fail brokerError
    | inl unbindResponse =>
        (if resp_Async unbindResponse
         then mark_reschedule (resp_OperationKey unbindResponse)
                ("failed to update operation with id " ++ ID operation ++ " to mark that rescheduling is possible: ")
         else r_ret tt) ;>
        do! operation <- op_read;
        if shouldStartPolling operation then poll else r_ret tt
    end.

(** A binding with nothing but an id and an instance. *)
Definition bare_binding (id instanceID : string) : ServiceBinding :=
  {| sb_Base := {| base_ID := id; base_CreatedAt := 0; base_UpdatedAt := 0; base_Labels := ∅;
                   base_PagingSequence := 0; base_Ready := false; base_LastOperation := None |};
     sb_Name := ""; sb_ServiceInstanceID := instanceID; sb_SyslogDrainURL := ""; sb_RouteServiceURL := "";
     sb_VolumeMounts := ""; sb_Endpoints := ""; sb_Context := ""; sb_BindResource := "";
     sb_Credentials := ""; sb_Parameters := ∅; sb_Integrity := "" |}.

Definition AroundTxDelete_binding (f : list Query.Criteria.Criterion -> run unit)
    (deletionCriteria : list Query.Criteria.Criterion) : run unit :=
  do! bindings <- or_fail (call_result (fun t => env_bindings t deletionCriteria)
                             (fun _ => EvListed ServiceBindingType deletionCriteria))
    (wrap_error "failed to get bindings for deletion: ");
  if Nat.ltb 1 (length bindings) then r_fail (EPlain "deletion of multiple bindings is not supported")
  else
  do! operation <- opcontext_Get;
  (match bindings with
   | binding :: _ =>
       do! async <- (if bool_decide (Type_ operation = CREATE) then r_lift (IsAsyncResponse operation)
                     else r_ret true);
       (match async with
        | true => r_ret tt
        | false => raw_delete ServiceBindingType deletionCriteria
        end) ;>
       deleteSingleBinding binding
   | [] =>
       if InOrphanMitigationState operation then
         do! instanceID <- r_lift (match Context_ operation with
                                   | None => Panic Context_missing
                                   | Some c => Ok (ServiceInstanceID c)
                                   end);
         if negb (String.eqb instanceID "") then deleteSingleBinding (bare_binding (ResourceID operation) instanceID)
         else r_ret tt
       else r_ret tt
   end) ;>
  do! operation <- op_read;
  do! remove <- r_lift (shouldRemoveResource operation);
  match remove with true => f deletionCriteria | false => r_ret tt end.
End Interceptor.
