(* ===== verification/SmaapProps.v ===== *)
(** * Runs of the broker interceptors: traces and what they owe

    Inversion of runs into their calls, and the discipline [journaled]: a broker answer that
    the next execution must know about is followed at once by storing the operation with
    it. *)

From S2P Require Import Prelude GoStd Errors Query Labels OperationTypes DomainTypes Smaap.
From stdpp Require Import base gmap strings list.
From Stdlib Require Import ZArith.

Create HintDb smaap.

(** ** Inversion *)
Definition failed_as {A B} (r : result A) (r' : result B) : Prop :=
  match r with Ok _ => False | Err e => r' = Err e | Panic m => r' = Panic m end.

Lemma r_bind_inv {A B} (m : run A) (k : A -> run B) s s' r :
  r_bind m k s = (s', r) ->
  (exists a s1, m s = (s1, Ok a) /\ k a s1 = (s', r)) \/ (exists r0, m s = (s', r0) /\ failed_as r0 r).
Proof.
  unfold r_bind. destruct (m s) as [s1 [a|e|msg]]; intros Hk; [eauto|right..].
  - injection Hk as -> <-. by exists (Err e).
  - injection Hk as -> <-. by exists (Panic msg).
Qed.

Lemma r_try_inv {A} (m : run A) s s' r :
  r_try m s = (s', r) -> exists r0, m s = (s', r0) /\
    match r0 with Ok a => r = Ok (inl a) | Err e => r = Ok (inr e) | Panic msg => r = Panic msg end.
Proof. unfold r_try. destruct (m s) as [s1 [a|e|msg]]; intros [= -> <-]; eexists; (split; [reflexivity|done]). Qed.

Lemma or_fail_inv {A} (m : run A) wrap s s' r :
  or_fail m wrap s = (s', r) -> exists r0, m s = (s', r0) /\
    match r0 with Ok a => r = Ok a | Err e => r = Err (wrap e) | Panic msg => r = Panic msg end.
Proof.
  unfold or_fail. intros Hr. apply r_bind_inv in Hr as [(a & s1 & Hm & Hk)|(r0 & Hm & Hf)].
  - apply r_try_inv in Hm as (r0 & Hm & Hr0). exists r0.
    destruct r0; simplify_eq/=; injection Hk as <- <-; by split.
  - apply r_try_inv in Hm as (r1 & Hm & Hr1). exists r1. destruct r1; simplify_eq/=; by split.
Qed.

(** ** The operation under the chain: only transitive resources are added *)
Definition same_operation (op op' : Operation) : Prop :=
  exists l, op' = set_TransitiveResources op l.

Lemma same_operation_refl op : same_operation op op.
Proof. exists (TransitiveResources op). by destruct op. Qed.
Lemma same_operation_trans op1 op2 op3 : same_operation op1 op2 -> same_operation op2 op3 -> same_operation op1 op3.
Proof. intros [l1 ->] [l2 ->]. by exists l2. Qed.

Section Traces.
Context `{SmaapEnv}.

Lemma call_inv {A} (answer : trace -> A) (ev : A -> event) s s' r :
  call answer ev s = (s', r) ->
  let a := answer (st_trace s) in
  r = Ok a /\ st_trace s' = st_trace s ++ [ev a] /\ st_op s' = st_op s.
Proof. unfold call. by intros [= <- <-]. Qed.

Lemma call_result_inv {A} (answer : trace -> result A) (ev : result A -> event) s s' r :
  call_result answer ev s = (s', r) ->
  r = answer (st_trace s) /\ st_trace s' = st_trace s ++ [ev r] /\ st_op s' = st_op s.
Proof.
  unfold call_result. intros Hr. apply r_bind_inv in Hr as [(a & s1 & Hc & Hl)|(r0 & Hc & Hf)];
    apply call_inv in Hc as (Ha & Ht & Ho); [|by subst].
  injection Ha as ->. unfold r_lift in Hl. by injection Hl as <- <-.
Qed.

Lemma storage_call_inv {A} (answer : trace -> result A) (ev : result A -> event) s s' r :
  storage_call answer ev s = (s', r) ->
  r = answer (st_trace s) /\ st_trace s' = st_trace s ++ [ev r] /\
  match st_op s, st_op s' with
  | Some op, Some op' => same_operation op op'
  | None, None => True
  | _, _ => False
  end.
Proof.
  unfold storage_call. intros Hc. apply call_result_inv in Hc as (Hr & Ht & Ho). simpl in *.
  split; [done|]. split; [done|]. rewrite Ho. destruct (st_op s); simpl; [|done]. by eexists.
Qed.

Lemma op_read_inv s s' r op :
  op_read s = (s', r) -> st_op s = Some op -> s' = s /\ r = Ok op.
Proof. unfold op_read. intros Hr Hop. rewrite Hop in Hr. by injection Hr as <- <-. Qed.

(** ** Reads *)
Definition is_read (e : event) : Prop := match e with EvRead _ _ | EvListed _ _ => True | _ => False end.

Lemma read_inv {A} (answer : trace -> string -> result A) t id s s' r :
  read answer t id s = (s', r) ->
  r = answer (st_trace s) id /\ st_trace s' = st_trace s ++ [EvRead t id] /\ st_op s' = st_op s.
Proof. unfold read. intros Hr. by apply call_result_inv in Hr. Qed.

(** A run that only reads. *)
Definition reads {A} (m : run A) : Prop := forall s s' r, m s = (s', r) ->
  exists t, st_trace s' = st_trace s ++ t /\ Forall is_read t /\ st_op s' = st_op s.

Lemma reads_still {A} (m : run A) : (forall s, fst (m s) = s) -> reads m.
Proof.
  intros Hm s s' r Hr. exists []. specialize (Hm s). rewrite Hr in Hm. simpl in Hm. subst.
  split; [by rewrite app_nil_r|]. by split.
Qed.
Lemma reads_ret {A} (a : A) : reads (r_ret a).
Proof. by apply reads_still. Qed.
Lemma reads_fail {A} e : reads (A:=A) (r_fail e).
Proof. by apply reads_still. Qed.
Lemma reads_lift {A} (r : result A) : reads (r_lift r).
Proof. by apply reads_still. Qed.
Lemma reads_read {A} (answer : trace -> string -> result A) t id : reads (read answer t id).
Proof. intros s s' r Hr. apply read_inv in Hr as (_ & Ht & Ho). exists [EvRead t id]. split; [done|]. split; [|done]. by repeat constructor. Qed.
Lemma reads_listed {A} (answer : trace -> result A) t c : reads (call_result answer (fun _ => EvListed t c)).
Proof.
  intros s s' r Hr. apply call_result_inv in Hr as (_ & Ht & Ho). exists [EvListed t c]. split; [done|].
  split; [|done]. by repeat constructor.
Qed.
Lemma reads_bind {A B} (m : run A) (k : A -> run B) : reads m -> (forall a, reads (k a)) -> reads (r_bind m k).
Proof.
  intros Hm Hk s s' r Hr. apply r_bind_inv in Hr as [(a & s1 & H1 & H2)|(r0 & H1 & _)]; [|by eapply Hm].
  apply Hm in H1 as (t1 & Ht1 & Hf1 & Ho1). apply Hk in H2 as (t2 & Ht2 & Hf2 & Ho2). exists (t1 ++ t2).
  split; [by rewrite Ht2, Ht1, app_assoc|]. split; [by apply Forall_app|congruence].
Qed.
Lemma reads_try {A} (m : run A) : reads m -> reads (r_try m).
Proof. intros Hm s s' r Hr. apply r_try_inv in Hr as (r0 & Hr & _). by eapply Hm. Qed.
Lemma reads_or_fail {A} (m : run A) wrap : reads m -> reads (or_fail m wrap).
Proof. intros Hm s s' r Hr. apply or_fail_inv in Hr as (r0 & Hr & _). by eapply Hm. Qed.

End Traces.

Lemma reads_opcontext : reads opcontext_Get.
Proof. apply reads_still. intros s. unfold opcontext_Get. by destruct (st_op s). Qed.

(** One step of a proof that a computation only reads. *)
Ltac reads_step :=
  match goal with
  | |- reads (or_fail _ _) => apply reads_or_fail
  | |- reads (r_try _) => apply reads_try
  | |- reads (read _ _ _) => apply reads_read
  | |- reads (call_result _ _) => apply reads_listed
  | |- reads (r_lift _) => apply reads_lift
  | |- reads (r_ret _) => apply reads_ret
  | |- reads (r_fail _) => apply reads_fail
  | |- reads opcontext_Get => apply reads_opcontext
  | |- reads (r_bind _ _) => apply reads_bind; [|intros ?]
  | |- reads (match _ with _ => _ end) => case_match
  | |- reads _ => progress cbv beta zeta
  end.

Section Duties.
Context `{SmaapEnv}.

Lemma reads_prerequisites `{TLSSettings} i : reads (preparePrerequisites i).
Proof.
  unfold preparePrerequisites. repeat reads_step. by apply reads_still.
Qed.

(** The fields of an operation these interceptors never write. *)
Definition same_job (op op' : Operation) : Prop :=
  Type_ op' = Type_ op /\ State op' = State op /\ ID op' = ID op /\ ResourceID op' = ResourceID op.
Lemma same_job_refl op : same_job op op.
Proof. done. Qed.
Lemma same_job_operation op op' : same_operation op op' -> same_job op op'.
Proof. by intros [l ->]. Qed.
Lemma same_job_trans op1 op2 op3 : same_job op1 op2 -> same_job op2 op3 -> same_job op1 op3.
Proof. unfold same_job. naive_solver congruence. Qed.

(** ** What a broker answer owes *)
Definition rescheduled (key : option string) (op : Operation) : Prop :=
  Reschedule op = true /\ is_Some (RescheduleTimestamp op) /\ (forall k, key = Some k -> ExternalID op = k).
Definition deletion_scheduled (op : Operation) : Prop :=
  Reschedule op = false /\ RescheduleTimestamp op = None /\ is_Some (DeletionScheduled op).
Definition finished (op : Operation) : Prop := Reschedule op = false /\ RescheduleTimestamp op = None.

(** The failures after which the broker may have done what was asked: an answer with a 2xx
    status other than 200, with 408 or a 5xx status, and a request that timed out. *)
Definition ambiguous (e : osb_error) : Prop :=
  match e with
  | HTTPStatusCodeError s _ => (201 <= s <= 299 \/ s = 408 \/ 500 <= s <= 599)%Z
  | URLError timeout _ => timeout = true
  | NetError _ _ | OtherOSBError _ => False
  end.
#[export] Instance ambiguous_dec e : Decision (ambiguous e).
Proof. destruct e; simpl; apply _. Defined.
(** The broker no longer has the resource. *)
Definition gone (e : osb_error) : Prop :=
  match e with HTTPStatusCodeError s _ => s = 410%Z | _ => False end.
#[export] Instance gone_dec e : Decision (gone e).
Proof. destruct e; simpl; apply _. Defined.

Lemma ambiguous_mitigated e : shouldStartOrphanMitigation e = bool_decide (ambiguous e).
Proof.
  destruct e as [s t|[] t|b t|t]; try done. simpl. unfold shouldStartOrphanMitigation. simpl.
  apply eq_true_iff_eq. rewrite bool_decide_eq_true, !orb_true_iff, !andb_true_iff, negb_true_iff, Z.eqb_neq, Z.eqb_eq.
  rewrite !Z.leb_le, !Z.ltb_lt. lia.
Qed.
Lemma gone_is_gone e : IsGoneError e = bool_decide (gone e).
Proof. destruct e; try done. unfold IsGoneError. simpl. apply eq_true_iff_eq. by rewrite bool_decide_eq_true, Z.eqb_eq. Qed.

Section Owed.
(** The operation of the run: its type, id, state and resource stay what they are. *)
Variable op0 : Operation.

Definition failure_duty (e : osb_error) : option (Operation -> Prop) :=
  if decide (ambiguous e) then Some deletion_scheduled else None.
Definition accepted_duty (async : bool) (key : option string) : option (Operation -> Prop) :=
  if async then Some (rescheduled key) else None.
Definition answer_duty (ans : BrokerResponse + osb_error) : option (Operation -> Prop) :=
  match ans with
  | inl r => accepted_duty (resp_Async r) (resp_OperationKey r)
  | inr e => failure_duty e
  end.
(** [create] and [delete] requests with an ambiguous or asynchronous answer, final answers of
    polling (410 Gone is one for an operation of type DELETE), and ambiguous answers to
    fetching a binding. *)
Definition duty (e : event) : option (Operation -> Prop) :=
  match e with
  | EvProvision _ ans | EvDeprovision _ ans | EvUnbind _ ans => answer_duty ans
  | EvBind _ (inl r) => accepted_duty (bs_Async r) (bs_OperationKey r)
  | EvBind _ (inr e) => failure_duty e
  | EvGetBinding _ _ (inr e) => failure_duty e
  | EvPoll _ (inl r) =>
      match lr_State r with
      | StateSucceeded => Some finished
      | StateFailed => Some deletion_scheduled
      | _ => None
      end
  | EvPoll _ (inr e) => if decide (gone e /\ Type_ op0 = DELETE) then Some finished else None
  | _ => None
  end.

(** A resource that is gone needs no mitigation. *)
Lemma gone_needs_nothing err : IsGoneError err = true -> failure_duty err = None.
Proof.
  rewrite gone_is_gone, bool_decide_eq_true. intros Hg. unfold failure_duty. rewrite decide_False; [done|].
  destruct err; simpl in *; [lia|done..].
Qed.
Lemma gone_poll_duty err op (b : bool) : same_job op0 op -> IsGoneError err && bool_decide (Type_ op = DELETE) = b ->
  (if decide (gone err /\ Type_ op0 = DELETE) then Some finished else None) = if b then Some finished else None.
Proof.
  intros (-> & _) <-. rewrite gone_is_gone, <- bool_decide_and. case_bool_decide; by case_decide.
Qed.

(** A duty is met by storing the operation of the run with what is owed. *)
Definition meets (d : option (Operation -> Prop)) (t : trace) : Prop :=
  match d with
  | None => True
  | Some P => match t with EvStoreOperation op _ :: _ => P op /\ same_job op0 op | _ => False end
  end.
Fixpoint journaled (t : trace) : Prop :=
  match t with
  | [] => True
  | e :: t' => meets (duty e) t' /\ journaled t'
  end.

Lemma meets_app d t1 t2 : meets d t1 -> meets d (t1 ++ t2).
Proof. destruct d as [P|]; [|done]. by destruct t1 as [|[] t1]. Qed.
Lemma journaled_app t1 t2 : journaled t1 -> journaled t2 -> journaled (t1 ++ t2).
Proof.
  induction t1 as [|e t1 IH]; simpl; [done|]. intros [Hm Hj] H2. split; [by apply meets_app|auto].
Qed.
Lemma journaled_reads t : Forall is_read t -> journaled t.
Proof. induction 1 as [|e t He Ht IH]; simpl; [done|]. split; [by destruct e|done]. Qed.

(** The operation of the context is the one of the run. *)
Definition running (s : run_state) : Prop := forall op, st_op s = Some op -> same_job op0 op.

(** [owes d m]: run after an answer with duty [d], [m] meets it first of all, unless it
    panics. *)
Definition owes {A} (d : option (Operation -> Prop)) (m : run A) : Prop := forall s s' r,
  m s = (s', r) -> running s -> no_panic r ->
  (exists t, st_trace s' = st_trace s ++ t /\ meets d t /\ journaled t) /\ running s'.

Lemma owes_reads {A} (m : run A) : reads m -> owes None m.
Proof.
  intros Hm s s' r Hr Hs _. apply Hm in Hr as (t & Ht & Hf & Ho). split; [|unfold running; by rewrite Ho].
  exists t. split; [done|]. split; [done|by apply journaled_reads].
Qed.
Lemma owes_bind {A B} d (m : run A) (k : A -> run B) :
  owes d m -> (forall a, owes None (k a)) -> owes d (r_bind m k).
Proof.
  intros Hm Hk s s' r Hr Hs Hn. apply r_bind_inv in Hr as [(a & s1 & H1 & H2)|(r0 & H1 & Hf)].
  - destruct (Hm _ _ _ H1 Hs (no_panic_ok a)) as [(t1 & Ht1 & Hd1 & Hj1) Hs1].
    destruct (Hk _ _ _ _ H2 Hs1 Hn) as [(t2 & Ht2 & _ & Hj2) Hs2]. split; [|done].
    exists (t1 ++ t2). split; [by rewrite Ht2, Ht1, app_assoc|]. split; [by apply meets_app|by apply journaled_app].
  - eapply Hm; [done|done|]. destruct r0 as [|e|msg]; simpl in Hf; [done|done|by destruct (Hn msg)].
Qed.
Lemma owes_call {A B} (answer : trace -> A) (ev : A -> event) (k : A -> run B) :
  (forall a, owes (duty (ev a)) (k a)) -> owes None (r_bind (call answer ev) k).
Proof.
  intros Hk s s' r Hr Hs Hn. apply r_bind_inv in Hr as [(a & s1 & H1 & H2)|(r0 & H1 & Hf)];
    apply call_inv in H1 as (Hr1 & Ht1 & Ho1); [|by subst].
  injection Hr1 as ->. destruct (Hk _ _ _ _ H2) as [(t2 & Ht2 & Hd & Hj) Hs2]; [unfold running; by rewrite Ho1|done|].
  split; [|done]. eexists (_ :: t2). split; [by rewrite Ht2, Ht1, <- app_assoc|]. split; [done|by split].
Qed.
Lemma owes_try {A} d (m : run A) : owes d m -> owes d (r_try m).
Proof.
  intros Hm s s' r Hr Hs Hn. apply r_try_inv in Hr as (r0 & Hr & Hr0). eapply Hm; [done|done|].
  destruct r0; [done|done|]. subst. by specialize (Hn msg).
Qed.
(** The chain keeps the operation what it is. *)
Lemma running_kept s s' :
  match st_op s, st_op s' with
  | Some o, Some o' => same_operation o o' | None, None => True | _, _ => False
  end -> running s -> running s'.
Proof.
  intros Ho Hs op' Hop'. rewrite Hop' in Ho. destruct (st_op s) as [op|] eqn:Hop; [|done].
  eapply same_job_trans; [by apply Hs|by apply same_job_operation].
Qed.
Lemma owes_storage {A} (answer : trace -> result A) (ev : result A -> event) :
  (forall a, duty (ev a) = None) -> owes None (storage_call answer ev).
Proof.
  intros Hev s s' r Hr Hs _. apply storage_call_inv in Hr as (_ & Ht & Ho).
  split; [|by eapply running_kept]. exists [ev r]. split; [done|]. split; [done|]. simpl. by rewrite Hev.
Qed.
End Owed.

(** Storing an operation. *)
Lemma store_inv op wrap s s' r :
  or_fail (store_operation op) wrap s = (s', r) ->
  exists ans, st_trace s' = st_trace s ++ [EvStoreOperation op ans] /\ (r = Ok tt <-> ans = Ok tt) /\
    match st_op s, st_op s' with
    | Some o, Some o' => same_operation o o' | None, None => True | _, _ => False
    end.
Proof.
  intros Hr. apply or_fail_inv in Hr as (r0 & Hr & Hr0). apply storage_call_inv in Hr as (_ & Ht & Ho).
  exists r0. split; [done|]. split; [|done]. destruct r0 as [[]| |]; simplify_eq/=; naive_solver.
Qed.

Section Steps.
Variable op0 : Operation.

(** Writing the operation and storing it meets the duty it was written for. *)
Lemma owes_store (P : Operation -> Prop) op wrap :
  P op -> same_job op0 op -> owes op0 (Some P) (r_bind (op_write op) (fun _ => or_fail (store_operation op) wrap)).
Proof.
  intros HP Hj s s' r Hr Hs _. unfold r_bind, op_write in Hr. apply store_inv in Hr as (ans & Ht & _ & Ho).
  split; [|apply (running_kept op0 {| st_trace := st_trace s; st_op := Some op |}); [exact Ho|by intros ? [= <-]]].
  exists [EvStoreOperation op ans]. split; [done|]. split; by split.
Qed.

(** Steps that call nothing and do not fail with an error. *)
Definition quiet {A} (m : run A) : Prop := forall s s' r, m s = (s', r) ->
  st_trace s' = st_trace s /\ (running op0 s -> running op0 s') /\ forall e, r <> Err e.
Lemma quiet_now : quiet time_Now.
Proof. unfold time_Now. by intros s s' r [= <- <-]. Qed.
Lemma quiet_lift {A} (r : result A) : (forall e, r <> Err e) -> quiet (r_lift r).
Proof. unfold r_lift. by intros Hr s s' r' [= <- <-]. Qed.
Lemma quiet_write op : same_job op0 op -> quiet (op_write op).
Proof. unfold op_write. intros Hj s s' r [= <- <-]. split; [done|]. split; [|done]. by intros _ ? [= <-]. Qed.
Lemma quiet_ret {A} (a : A) : quiet (r_ret a).
Proof. unfold r_ret. by intros s s' r [= <- <-]. Qed.

Lemma owes_quiet {A B} d (m : run A) (k : A -> run B) :
  quiet m -> (forall a, owes op0 d (k a)) -> owes op0 d (r_bind m k).
Proof.
  intros Hm Hk s s' r Hr Hs Hn. apply r_bind_inv in Hr as [(a & s1 & H1 & H2)|(r0 & H1 & Hf)].
  - apply Hm in H1 as (Ht & Hs1 & _). destruct (Hk _ _ _ _ H2 (Hs1 Hs) Hn) as [(t & Ht2 & Hd) ?].
    split; [|done]. exists t. by rewrite Ht2, Ht.
  - apply Hm in H1 as (_ & _ & He). destruct r0 as [|e|msg]; simpl in Hf; [done|by destruct (He e)|by destruct (Hn msg)].
Qed.
(** What is read is the operation of the run. *)
Lemma owes_read {B} d (k : Operation -> run B) :
  (forall op, same_job op0 op -> owes op0 d (k op)) -> owes op0 d (r_bind op_read k).
Proof.
  intros Hk s s' r Hr Hs Hn. unfold r_bind, op_read in Hr. destruct (st_op s) as [op|] eqn:Hop.
  - by eapply Hk; [apply Hs|..].
  - injection Hr as <- <-. by destruct (Hn Context_missing).
Qed.

Lemma owes_mark_deletion e : owes op0 (Some deletion_scheduled) (mark_deletion_scheduled e).
Proof.
  unfold mark_deletion_scheduled. apply owes_quiet; [apply quiet_now|intros now].
  apply owes_read. intros op Hj. by apply owes_store.
Qed.
Lemma owes_mark_reschedule key msg : owes op0 (Some (rescheduled key)) (mark_reschedule key msg).
Proof.
  unfold mark_reschedule. apply owes_read. intros op Hj.
  apply owes_quiet; [apply quiet_lift; by destruct (Context_ op)|intros c].
  apply owes_quiet; [apply quiet_now|intros now]. apply owes_store; [|done]. split; [done|]. split; simpl.
  - by destruct (RescheduleTimestamp op).
  - by intros k ->.
Qed.
Lemma owes_finish_polling wrap : owes op0 (Some finished) (finish_polling false wrap).
Proof.
  unfold finish_polling. apply owes_read. intros op Hj.
  apply owes_quiet; [apply quiet_now|intros now]. by apply owes_store.
Qed.
Lemma owes_finish_failed wrap : owes op0 (Some deletion_scheduled) (finish_polling true wrap).
Proof.
  unfold finish_polling. apply owes_read. intros op Hj.
  apply owes_quiet; [apply quiet_now|intros now]. by apply owes_store.
Qed.
(** Meeting a duty is never wrong. *)
Lemma owes_weaken {A} d (m : run A) : owes op0 d m -> owes op0 None m.
Proof.
  intros Hm s s' r Hr Hs Hn. destruct (Hm s s' r Hr Hs Hn) as [(t & Ht & _ & Hj) ?]. split; [|done]. by exists t.
Qed.
Lemma owes_ret {A} (a : A) : owes op0 None (r_ret a).
Proof. apply owes_reads, reads_ret. Qed.
Lemma owes_fail {A} e : owes op0 None (r_fail (A:=A) e).
Proof. apply owes_reads, reads_fail. Qed.

(** The duty of an answer to a request is met by marking the operation. *)
Lemma owes_answer_failed e err : owes op0 (failure_duty err)
  (if shouldStartOrphanMitigation err then mark_deletion_scheduled e else r_ret tt).
Proof.
  rewrite ambiguous_mitigated. unfold failure_duty. case_decide; case_bool_decide; try done;
    [apply owes_mark_deletion|apply owes_ret].
Qed.
Lemma owes_answer_accepted (b : bool) key msg : owes op0 (accepted_duty b key)
  (if b then mark_reschedule key msg else r_ret tt).
Proof. destruct b; [apply owes_mark_reschedule|apply owes_ret]. Qed.

Lemma owes_poll_loop {B} n (tick : run (option B)) last :
  owes op0 None tick -> owes op0 None last -> owes op0 None (poll_loop n tick last).
Proof.
  intros Ht Hl. induction n as [|n IH]; simpl; [done|]. apply owes_bind; [done|].
  intros [b|]; [apply owes_ret|done].
Qed.
Lemma owes_poll_broker {B} plan interval (tick : run (option B)) elapsed done_ :
  owes op0 None tick -> owes op0 None elapsed -> owes op0 None (poll_broker plan interval tick elapsed done_).
Proof.
  intros Ht He. unfold poll_broker. apply owes_read. intros op _.
  apply owes_quiet; [apply quiet_now|intros now]. case_match; [done|].
  apply owes_quiet; [apply quiet_lift; unfold NewTicker; by case_match|intros _].
  apply owes_quiet; [apply quiet_lift; unfold NewTicker; by case_match|intros _].
  apply owes_quiet; [by intros s s' r [= <- <-]|intros [n last]]. apply owes_poll_loop; [done|].
  simpl. case_match; [apply owes_ret|done].
Qed.
End Steps.
End Duties.

#[export] Hint Resolve quiet_now quiet_write quiet_ret reads_ret reads_fail reads_lift
  reads_read reads_prerequisites owes_ret owes_fail owes_mark_deletion owes_mark_reschedule
  owes_finish_polling owes_finish_failed owes_answer_failed owes_answer_accepted : smaap.
