(* ===== verification/SmaapJournal.v ===== *)
(** * Broker answers survive: the traces of creation and deletion are journaled *)

From S2P Require Import Prelude GoStd Errors Query Labels OperationTypes DomainTypes Smaap SmaapProps InstanceInterceptor BindingInterceptor.
From stdpp Require Import base gmap strings list.
From Stdlib Require Import ZArith.

Section Journal.
Context `{SmaapEnv, TLSSettings}.
Variables (ii : ServiceInstanceInterceptor) (bi : ServiceBindingInterceptor) (op0 : Operation).
Notation owes := (owes op0).

Lemma owes_next_create i : owes None (next_create i).
Proof. by apply owes_storage. Qed.
Lemma owes_next_delete t c : owes None (next_delete t c).
Proof. by apply owes_storage. Qed.
Lemma owes_next_create_binding b : owes None (next_create_binding b).
Proof. by apply owes_storage. Qed.
Lemma owes_raw_delete t c : owes None (raw_delete t c).
Proof. by apply owes_storage. Qed.

(** One step of a proof that the duties of a computation are met. *)
Ltac owes_step :=
  match goal with
  | |- owes _ (r_ret _) => apply owes_ret
  | |- owes _ (r_fail _) => apply owes_fail
  | |- owes _ (next_create _) => apply owes_next_create
  | |- owes _ (next_delete _ _) => apply owes_next_delete
  | |- owes _ (next_create_binding _) => apply owes_next_create_binding
  | |- owes _ (raw_delete _ _) => apply owes_raw_delete
  | |- owes _ (r_bind (call _ _) _) => apply owes_call; intros [?|?]; cbn [duty answer_duty]
  | |- owes _ (r_bind (if _ then mark_reschedule _ _ else _) _) =>
      apply owes_bind; [apply owes_answer_accepted|intros _]
  | |- owes _ (r_bind (if _ then mark_deletion_scheduled _ else _) _) =>
      apply owes_bind; [apply owes_answer_failed|intros _]
  | |- owes _ (r_bind (finish_polling false _) _) =>
      apply owes_bind; [first [apply owes_finish_polling|eapply owes_weaken, owes_finish_polling]|intros _]
  | |- owes _ (r_bind (finish_polling true _) _) =>
      apply owes_bind; [first [apply owes_finish_failed|eapply owes_weaken, owes_finish_failed]|intros _]
  | |- owes _ (r_bind op_read _) => apply owes_read; intros ? ?
  | |- owes _ (r_bind time_Now _) => apply owes_quiet; [apply quiet_now|intros ?]
  | |- owes _ (r_bind (op_write _) _) => apply owes_quiet; [by apply quiet_write|intros ?]
  | |- owes _ (r_bind (r_bind _ _) _) => apply owes_bind; [|intros ?]
  | |- owes _ (r_bind (match _ with _ => _ end) _) => apply owes_bind; [|intros ?]
  | |- owes _ (r_bind _ _) => apply owes_bind; [|intros ?]
  | Hj : same_job op0 ?op |- owes _ (if IsGoneError ?e && bool_decide (Type_ ?op = DELETE) then _ else _) =>
      let E := fresh in destruct (IsGoneError e && bool_decide (Type_ op = DELETE)) eqn:E;
        rewrite (gone_poll_duty op0 e op _ Hj E)
  | |- owes _ (if IsGoneError ?e then _ else _) =>
      let E := fresh in destruct (IsGoneError e) eqn:E; [rewrite (gone_needs_nothing e E)|]
  | |- owes _ (match _ with _ => _ end) => case_match
  | Hp : forall _, _ |- owes _ _ => apply Hp
  | |- owes _ (preparePrerequisites _) => apply owes_reads, reads_prerequisites
  | |- owes _ (or_fail _ _) => apply owes_reads; by repeat reads_step
  | |- owes _ (r_lift _) => apply owes_reads, reads_lift
  | |- owes _ opcontext_Get => apply owes_reads, reads_opcontext
  | |- owes _ _ => progress cbv beta zeta
  | |- owes _ _ => apply owes_reads; by repeat reads_step
  end.

Lemma owes_elapsed instance plan : owes None (processMaxPollingDurationElapsed instance plan true).
Proof.
  unfold processMaxPollingDurationElapsed. apply owes_read; intros op Hj.
  apply owes_bind; [|intros _; apply owes_fail]. eapply owes_weaken, owes_finish_failed.
Qed.
Lemma owes_instance_tick req instance : owes None (poll_instance_tick req instance true).
Proof.
  unfold poll_instance_tick. repeat owes_step.
Qed.
Lemma owes_poll_instance instance plan sid pid : owes None (pollServiceInstance ii instance plan sid pid true).
Proof.
  unfold pollServiceInstance. apply owes_read; intros op Hj.
  apply owes_poll_broker; [apply owes_instance_tick|apply owes_elapsed].
Qed.

Lemma owes_create_instance obj : owes None (AroundTxCreate_instance ii next_create obj).
Proof.
  unfold AroundTxCreate_instance. pose proof owes_poll_instance. repeat owes_step.
Qed.

Lemma owes_delete_single_instance instance : owes None (deleteSingleInstance ii instance).
Proof.
  unfold deleteSingleInstance. pose proof owes_poll_instance. repeat owes_step.
Qed.

Lemma owes_delete_instance t c : owes None (AroundTxDelete_instance ii (next_delete t) c).
Proof.
  unfold AroundTxDelete_instance. pose proof owes_delete_single_instance. repeat owes_step.
Qed.

(** ** Bindings *)
Lemma reads_get_instance id : reads (getInstanceByID id).
Proof. unfold getInstanceByID. by repeat reads_step. Qed.
Lemma owes_get_instance id : owes None (getInstanceByID id).
Proof. apply owes_reads, reads_get_instance. Qed.
Lemma owes_try_instance id : owes None (r_try (getInstanceByID id)).
Proof. apply owes_reads, reads_try, reads_get_instance. Qed.
Lemma reads_instance_in_deletion id : reads (isInstanceInDeletion id).
Proof. unfold isInstanceInDeletion, getLastOperationByResourceID. repeat reads_step. Qed.

(** The JSON values an answer carries can be marshalled. *)
Hypothesis marshal_total : forall m e, json_marshal m <> Err e.
Hypothesis marshal_array_total : forall l e, json_marshal_array l <> Err e.

Lemma enriched_total b d e : enriched b d <> Err e.
Proof.
  unfold enriched, enrichBindingWithBindingResponse.
  assert (Hm := marshal_total (bd_Credentials d)). assert (Ha := marshal_array_total (bd_VolumeMounts d)).
  destruct (json_marshal (bd_Credentials d)) as [x|e'|]; [|by destruct (Hm e')|];
  destruct (json_marshal_array (bd_VolumeMounts d)) as [y|e'|]; try (by destruct (Ha e'));
  by repeat case_match; simplify_eq/=.
Qed.

Lemma owes_binding_tick req b instance : owes None (poll_binding_tick req b instance true).
Proof.
  unfold poll_binding_tick, getBindingDetailsFromBroker. repeat owes_step.
Qed.
Lemma owes_poll_binding b instance plan sid pid : owes None (pollServiceBinding bi b instance plan sid pid true).
Proof.
  unfold pollServiceBinding, binding_elapsed. apply owes_read; intros op Hj.
  apply owes_poll_broker; [apply owes_binding_tick|repeat owes_step].
Qed.
Lemma owes_enriched d b details (k : ServiceBinding -> run ServiceBinding) :
  (forall b, owes d (k b)) -> owes d (r_bind (r_lift (enriched b details)) k).
Proof. intros Hk. apply owes_quiet; [|done]. apply quiet_lift. apply enriched_total. Qed.
Lemma owes_create_binding b : owes None (AroundTxCreate_binding bi next_create_binding b).
Proof.
  unfold AroundTxCreate_binding. pose proof owes_poll_binding. pose proof owes_get_instance.
  pose proof (fun id wrap => owes_reads op0 _ (reads_or_fail _ wrap (reads_instance_in_deletion id))).
  repeat first [apply owes_enriched; intros ? | owes_step].
Qed.
Lemma owes_delete_binding t c : owes None (AroundTxDelete_binding bi (next_delete t) c).
Proof.
  unfold AroundTxDelete_binding, deleteSingleBinding. pose proof owes_poll_binding. pose proof owes_get_instance.
  pose proof owes_try_instance. repeat owes_step.
Qed.
End Journal.
