(* ===== verification/SmaapRequests.v ===== *)
(** * One request per run, and none in a rescheduled run

    [sends n m]: the computation sends at most [n] requests that create, change or delete
    something at the broker.  [resumes m]: it sends none when the operation of the context is
    marked as rescheduled, because then it only polls. *)

From S2P Require Import Prelude GoStd Errors Query Labels OperationTypes DomainTypes Smaap InstanceInterceptor BindingInterceptor SmaapProps.
From stdpp Require Import base gmap strings list.
From Stdlib Require Import ZArith.


Definition request (e : event) : bool :=
  match e with
  | EvProvision _ _ | EvUpdateInstance _ _ | EvDeprovision _ _ | EvBind _ _ | EvUnbind _ _ => true
  | _ => false
  end.
Definition requests (t : trace) : nat := length (filter (fun e => request e = true) t).

Lemma requests_app t1 t2 : requests (t1 ++ t2) = requests t1 + requests t2.
Proof. unfold requests. by rewrite filter_app, length_app. Qed.
Lemma requests_reads t : Forall is_read t -> requests t = 0.
Proof.
  intros Hr. unfold requests. rewrite filter_none; [done|]. intros e He. rewrite Forall_forall in Hr.
  specialize (Hr e He). by destruct e.
Qed.

Section Sends.
Context `{SmaapEnv}.

Definition sends {A} (n : nat) (m : run A) : Prop := forall s s' r, m s = (s', r) ->
  exists t, st_trace s' = st_trace s ++ t /\ requests t <= n.
Definition resumes {A} (m : run A) : Prop := forall s s' r, m s = (s', r) ->
  (forall op, st_op s = Some op -> Reschedule op = true) ->
  exists t, st_trace s' = st_trace s ++ t /\ requests t = 0.

Lemma sends_reads {A} n (m : run A) : reads m -> sends n m.
Proof.
  intros Hm s s' r Hr. apply Hm in Hr as (t & Ht & Hf & _). exists t. rewrite requests_reads by done. split; [done|lia].
Qed.
Lemma sends_mono {A} n n' (m : run A) : n <= n' -> sends n m -> sends n' m.
Proof. intros Hn Hm s s' r Hr. apply Hm in Hr as (t & Ht & Hf). exists t. split; [done|lia]. Qed.
Lemma sends_bind {A B} n1 n2 (m : run A) (k : A -> run B) :
  sends n1 m -> (forall a, sends n2 (k a)) -> sends (n1 + n2) (r_bind m k).
Proof.
  intros Hm Hk s s' r Hr. apply r_bind_inv in Hr as [(a & s1 & H1 & H2)|(r0 & H1 & Hf)].
  - apply Hm in H1 as (t1 & Ht1 & Hn1). apply Hk in H2 as (t2 & Ht2 & Hn2). exists (t1 ++ t2).
    rewrite requests_app. split; [by rewrite Ht2, Ht1, app_assoc|lia].
  - apply Hm in H1 as (t1 & Ht1 & Hn1). exists t1. split; [done|lia].
Qed.
Lemma sends_bind0 {A B} n (m : run A) (k : A -> run B) :
  sends 0 m -> (forall a, sends n (k a)) -> sends n (r_bind m k).
Proof. intros Hm Hk. by apply (sends_bind 0 n). Qed.
Lemma sends_silent {A} n (m : run A) : (forall s, st_trace (fst (m s)) = st_trace s) -> sends n m.
Proof.
  intros Hm s s' r Hr. specialize (Hm s). rewrite Hr in Hm. simpl in Hm. exists [].
  rewrite app_nil_r. split; [done|]. unfold requests. simpl. lia.
Qed.
Lemma sends_call {A} (answer : trace -> A) (ev : A -> event) : sends 1 (call answer ev).
Proof.
  intros s s' r Hr. apply call_inv in Hr as (_ & Ht & _). eexists. split; [done|].
  unfold requests. rewrite length_filter. done.
Qed.
Lemma sends_call0 {A} (answer : trace -> A) (ev : A -> event) :
  (forall a, request (ev a) = false) -> sends 0 (call answer ev).
Proof.
  intros Hev s s' r Hr. apply call_inv in Hr as (_ & Ht & _). eexists. split; [done|].
  unfold requests. rewrite filter_none; [done|]. intros e ->%list_elem_of_singleton. by rewrite Hev.
Qed.
Lemma sends_storage {A} n (answer : trace -> result A) (ev : result A -> event) :
  (forall a, request (ev a) = false) -> sends n (storage_call answer ev).
Proof.
  intros Hev s s' r Hr. apply storage_call_inv in Hr as (_ & Ht & _). eexists. split; [done|].
  unfold requests. rewrite filter_none; [simpl; lia|]. intros e ->%list_elem_of_singleton. by rewrite Hev.
Qed.
Lemma sends_or_fail {A} n (m : run A) wrap : sends n m -> sends n (or_fail m wrap).
Proof. intros Hm s s' r Hr. apply or_fail_inv in Hr as (r0 & Hr & _). by apply Hm in Hr. Qed.
Lemma sends_try {A} n (m : run A) : sends n m -> sends n (r_try m).
Proof. intros Hm s s' r Hr. apply r_try_inv in Hr as (r0 & Hr & _). by apply Hm in Hr. Qed.
Lemma sends_loop {B} n (tick : run (option B)) last : sends 0 tick -> sends 0 last -> sends 0 (poll_loop n tick last).
Proof.
  intros Ht Hl. induction n as [|n IH]; simpl; [done|]. apply sends_bind0; [done|].
  intros [b|]; [by apply sends_silent|done].
Qed.
End Sends.

(** One step of a proof about the number of requests. *)
Ltac sends_step :=
  match goal with
  | |- sends _ (r_ret _) => by apply sends_silent
  | |- sends _ (r_fail _) => by apply sends_silent
  | |- sends _ (r_lift _) => by apply sends_silent
  | |- sends _ time_Now => by apply sends_silent
  | |- sends _ (op_write _) => by apply sends_silent
  | |- sends _ op_read => apply sends_silent; intros ?; unfold op_read; by case_match
  | |- sends _ opcontext_Get => apply sends_silent; intros ?; unfold opcontext_Get; by case_match
  | |- sends _ (fun _ => _) => by apply sends_silent
  | |- sends 0 (call _ _) => by apply sends_call0
  | |- sends _ (storage_call _ _) => by apply sends_storage
  | |- sends _ (preparePrerequisites _) => apply sends_reads, reads_prerequisites
  | |- sends _ (or_fail _ _) => apply sends_or_fail
  | |- sends _ (r_try _) => apply sends_try
  | |- sends _ (read _ _ _) => apply sends_reads, reads_read
  | |- sends _ (call_result _ _) => apply sends_reads, reads_listed
  | |- sends _ (poll_loop _ _ _) => apply sends_loop
  | |- sends 1 (r_bind (call _ _) _) => apply (sends_bind 1 0); [apply sends_call|intros ?]
  | |- sends _ (r_bind _ _) => apply sends_bind0; [|intros ?]
  | |- sends _ (match _ with _ => _ end) => case_match
  | Hp : forall _, _ |- sends _ _ => apply Hp
  | |- sends _ _ => progress cbv beta zeta
  end.

Section Handlers.
Context `{SmaapEnv, TLSSettings}.
Variables (ii : ServiceInstanceInterceptor) (bi : ServiceBindingInterceptor).

Ltac sends_all := repeat first [sends_step | progress unfold store_operation, raw_update, raw_delete,
  next_create, next_update, next_delete, next_create_binding].

Lemma sends_mark_deletion n e : sends n (mark_deletion_scheduled e).
Proof. unfold mark_deletion_scheduled. sends_all. Qed.
Lemma sends_mark_reschedule n key msg : sends n (mark_reschedule key msg).
Proof. unfold mark_reschedule. sends_all. Qed.
Lemma sends_finish n b wrap : sends n (finish_polling b wrap).
Proof. unfold finish_polling. sends_all. Qed.

Lemma sends_poll_instance instance plan sid pid b : sends 0 (pollServiceInstance ii instance plan sid pid b).
Proof.
  unfold pollServiceInstance, poll_broker, poll_instance_tick, processMaxPollingDurationElapsed.
  pose proof (sends_finish 0). sends_all.
Qed.
Lemma sends_poll_binding b instance plan sid pid o : sends 0 (pollServiceBinding bi b instance plan sid pid o).
Proof.
  unfold pollServiceBinding, poll_broker, poll_binding_tick, binding_elapsed, getBindingDetailsFromBroker.
  pose proof (sends_finish 0). pose proof (sends_mark_deletion 0). sends_all.
Qed.
Lemma sends_poll_instance_le n instance plan sid pid b : sends n (pollServiceInstance ii instance plan sid pid b).
Proof. eapply sends_mono; [|apply sends_poll_instance]. lia. Qed.
Lemma sends_poll_binding_le n b instance plan sid pid o : sends n (pollServiceBinding bi b instance plan sid pid o).
Proof. eapply sends_mono; [|apply sends_poll_binding]. lia. Qed.

Lemma sends_create_instance obj : sends 1 (AroundTxCreate_instance ii next_create obj).
Proof.
  unfold AroundTxCreate_instance. pose proof sends_poll_instance_le. pose proof sends_mark_deletion.
  pose proof sends_mark_reschedule. sends_all.
Qed.
Lemma sends_discard n instance poll : sends n poll -> sends n (discard_update instance poll).
Proof.
  intros Hp. unfold discard_update. rewrite <- (Nat.add_0_r n). apply sends_bind; [by apply sends_try|]. intros ?. sends_all.
Qed.
Lemma sends_update_instance i c : sends 1 (AroundTxUpdate_instance ii next_update i c).
Proof.
  unfold AroundTxUpdate_instance. pose proof sends_mark_reschedule.
  assert (forall n i i' plan sid pid, sends n (discard_update i (pollServiceInstance ii i' plan sid pid false)))
    by (intros; apply sends_discard, sends_poll_instance_le).
  sends_all.
Qed.
Lemma sends_delete_single_instance i : sends 1 (deleteSingleInstance ii i).
Proof.
  unfold deleteSingleInstance. pose proof sends_poll_instance_le. pose proof sends_mark_deletion.
  pose proof sends_mark_reschedule. sends_all.
Qed.
(** Deleting is followed by nothing but removing the object. *)
Lemma sends_then_remove {A} n (m : run A) (f : run unit) :
  sends n m -> sends 0 f ->
  sends n (r_bind m (fun _ => r_bind op_read (fun op => r_bind (r_lift (shouldRemoveResource op))
    (fun remove => match remove with true => f | false => r_ret tt end)))).
Proof.
  intros Hm Hf. rewrite <- (Nat.add_0_r n). apply sends_bind; [done|]. intros _. sends_all. done.
Qed.
Lemma sends_delete_instance t c : sends 1 (AroundTxDelete_instance ii (next_delete t) c).
Proof.
  unfold AroundTxDelete_instance. apply sends_bind0; [repeat sends_step|intros l]. case_match; [repeat sends_step|].
  apply sends_bind0; [repeat sends_step|intros op]. apply sends_then_remove; [|by apply sends_storage].
  pose proof sends_delete_single_instance. sends_all.
Qed.

(** Bindings. *)
Lemma sends_get_instance n id : sends n (getInstanceByID id).
Proof. unfold getInstanceByID. sends_all. Qed.
Lemma sends_in_deletion n id : sends n (isInstanceInDeletion id).
Proof. unfold isInstanceInDeletion, getLastOperationByResourceID. sends_all. Qed.
Lemma sends_create_binding b : sends 1 (AroundTxCreate_binding bi next_create_binding b).
Proof.
  unfold AroundTxCreate_binding. pose proof sends_poll_binding_le. pose proof sends_mark_deletion.
  pose proof sends_mark_reschedule. pose proof sends_get_instance. pose proof sends_in_deletion. sends_all.
Qed.
Lemma sends_delete_single_binding b : sends 1 (deleteSingleBinding bi b).
Proof.
  unfold deleteSingleBinding. pose proof sends_poll_binding_le. pose proof sends_mark_deletion.
  pose proof sends_mark_reschedule. pose proof sends_get_instance. sends_all.
Qed.
Lemma sends_delete_binding t c : sends 1 (AroundTxDelete_binding bi (next_delete t) c).
Proof.
  unfold AroundTxDelete_binding. apply sends_bind0; [repeat sends_step|intros l]. case_match; [repeat sends_step|].
  apply sends_bind0; [repeat sends_step|intros op]. apply sends_then_remove; [|by apply sends_storage].
  pose proof sends_delete_single_binding. sends_all.
Qed.

(** ** Rescheduled runs *)
Lemma resumes_sends {A} (m : run A) : sends 0 m -> resumes m.
Proof. intros Hm s s' r Hr _. apply Hm in Hr as (t & Ht & Hn). exists t. split; [done|lia]. Qed.
Lemma resumes_reads {A B} (m : run A) (k : A -> run B) : reads m -> (forall a, resumes (k a)) -> resumes (r_bind m k).
Proof.
  intros Hm Hk s s' r Hr Hop. apply r_bind_inv in Hr as [(a & s1 & H1 & H2)|(r0 & H1 & _)];
    apply Hm in H1 as (t1 & Ht1 & Hf1 & Ho1); [|exists t1; by rewrite requests_reads].
  rewrite <- Ho1 in Hop. destruct (Hk _ _ _ _ H2 Hop) as (t2 & Ht2 & Hn). exists (t1 ++ t2).
  rewrite requests_app, (requests_reads t1) by done. split; [by rewrite Ht2, Ht1, app_assoc|done].
Qed.
Lemma resumes_storage {A B} (answer : trace -> result A) ev (k : A -> run B) :
  (forall a, request (ev a) = false) -> (forall a, resumes (k a)) -> resumes (r_bind (storage_call answer ev) k).
Proof.
  intros Hev Hk s s' r Hr Hop. assert (Hone : forall x, requests [ev x] = 0).
  { intros x. unfold requests. rewrite filter_none; [done|]. intros e ->%list_elem_of_singleton. by rewrite Hev. }
  apply r_bind_inv in Hr as [(a & s1 & H1 & H2)|(r0 & H1 & _)];
    apply storage_call_inv in H1 as (_ & Ht1 & Ho1); [|by eexists].
  destruct (Hk _ _ _ _ H2) as (t2 & Ht2 & Hn).
  2: { eexists. rewrite Ht2, Ht1, <- app_assoc. split; [done|]. by rewrite requests_app, Hone. }
  intros op' Hop'. rewrite Hop' in Ho1. destruct (st_op s) as [op|]; [|done]. destruct Ho1 as [l ->]. by apply (Hop op).
Qed.
Lemma resumes_then {A B} (m : run A) (k : A -> run B) : resumes m -> (forall a, sends 0 (k a)) -> resumes (r_bind m k).
Proof.
  intros Hm Hk s s' r Hr Hop. apply r_bind_inv in Hr as [(a & s1 & H1 & H2)|(r0 & H1 & _)];
    destruct (Hm _ _ _ H1 Hop) as (t1 & Ht1 & Hf1); [|by exists t1].
  apply Hk in H2 as (t2 & Ht2 & Hn). exists (t1 ++ t2). rewrite requests_app.
  split; [by rewrite Ht2, Ht1, app_assoc|lia].
Qed.
(** The operation a rescheduled run finds is rescheduled. *)
Lemma resumes_found {B} (m : run Operation) (k : Operation -> run B) :
  m = opcontext_Get \/ m = op_read -> (forall op, Reschedule op = true -> resumes (k op)) -> resumes (r_bind m k).
Proof.
  intros Hm Hk s s' r Hr Hop. apply r_bind_inv in Hr as [(op & s1 & H1 & H2)|(r0 & H1 & _)].
  - assert (s1 = s /\ st_op s = Some op) as [-> Hs].
    { destruct Hm as [-> | ->]; unfold opcontext_Get, op_read in H1; destruct (st_op s); by simplify_eq. }
    by eapply Hk; [apply Hop|..].
  - exists []. destruct Hm as [-> | ->]; unfold opcontext_Get, op_read in H1; destruct (st_op s);
      simplify_eq; by rewrite app_nil_r.
Qed.

(** One step of a proof about a rescheduled run. *)
Ltac resumes_step :=
  match goal with
  | |- resumes (r_bind opcontext_Get _) => apply resumes_found; [by left|intros ? ?]
  | |- resumes (r_bind op_read _) => apply resumes_found; [by right|intros ? ?]
  | |- resumes (r_bind (preparePrerequisites _) _) => apply resumes_reads; [apply reads_prerequisites|intros ?]
  | |- resumes (r_bind (raw_delete _ _) _) => apply resumes_storage; [done|intros ?]
  | HR : Reschedule ?op = true |- resumes (if Reschedule ?op then _ else _) => rewrite HR
  | |- resumes (r_ret _) => apply resumes_sends; sends_step
  | |- resumes (r_fail _) => apply resumes_sends; sends_step
  | |- resumes (next_create _) => by apply resumes_sends, sends_storage
  | |- resumes (next_update _ _) => by apply resumes_sends, sends_storage
  | |- resumes (next_create_binding _) => by apply resumes_sends, sends_storage
  | |- resumes (match _ with _ => _ end) => case_match
  | |- resumes (r_bind _ _) => apply resumes_reads; [by repeat reads_step|intros ?]
  | |- resumes (r_bind (match ?x with _ => _ end) _) => destruct x eqn:?
  | Hp : forall _, _ |- resumes _ => apply Hp
  | |- resumes _ => progress cbv beta zeta
  end.

Lemma resumes_poll_instance {A} instance plan sid pid b (k : unit -> run A) :
  (forall u, sends 0 (k u)) -> resumes (r_bind (pollServiceInstance ii instance plan sid pid b) k).
Proof. intros Hk. apply resumes_then; [apply resumes_sends, sends_poll_instance|done]. Qed.
Lemma resumes_create_instance obj : resumes (AroundTxCreate_instance ii next_create obj).
Proof.
  unfold AroundTxCreate_instance.
  repeat first [apply resumes_poll_instance; intros ?; sends_step | resumes_step].
Qed.
Lemma resumes_update_instance i c : resumes (AroundTxUpdate_instance ii next_update i c).
Proof.
  unfold AroundTxUpdate_instance. repeat resumes_step. apply resumes_then; [|intros; sends_step].
  apply resumes_sends, sends_discard, sends_poll_instance.
Qed.
Lemma resumes_delete_single_instance i : resumes (deleteSingleInstance ii i).
Proof.
  unfold deleteSingleInstance. repeat resumes_step; apply resumes_sends, sends_poll_instance.
Qed.
Lemma resumes_then_remove {A} (m : run A) (f : run unit) :
  resumes m -> sends 0 f ->
  resumes (r_bind m (fun _ => r_bind op_read (fun op => r_bind (r_lift (shouldRemoveResource op))
    (fun remove => match remove with true => f | false => r_ret tt end)))).
Proof. intros Hm Hf. apply resumes_then; [done|]. intros _. sends_all. done. Qed.
Lemma resumes_delete_instance t c : resumes (AroundTxDelete_instance ii (next_delete t) c).
Proof.
  unfold AroundTxDelete_instance. apply resumes_reads; [repeat reads_step|intros l]. case_match; [by resumes_step|].
  apply resumes_found; [by left|intros op HR]. apply resumes_then_remove; [|by apply sends_storage].
  pose proof resumes_delete_single_instance. repeat resumes_step.
Qed.

Lemma resumes_poll_binding b instance plan sid pid o : resumes (pollServiceBinding bi b instance plan sid pid o).
Proof. apply resumes_sends, sends_poll_binding. Qed.
Lemma reads_getInstanceByID id : reads (getInstanceByID id).
Proof. unfold getInstanceByID. by repeat reads_step. Qed.
Lemma reads_isInstanceInDeletion id : reads (isInstanceInDeletion id).
Proof. unfold isInstanceInDeletion, getLastOperationByResourceID. by repeat reads_step. Qed.
Lemma resumes_create_binding b : resumes (AroundTxCreate_binding bi next_create_binding b).
Proof.
  unfold AroundTxCreate_binding. pose proof resumes_poll_binding.
  repeat first [ apply resumes_reads; [first [apply reads_getInstanceByID|apply reads_or_fail, reads_isInstanceInDeletion]|intros ?]
               | resumes_step
               | apply resumes_reads; [by repeat first [apply reads_getInstanceByID|reads_step]|intros ?] ].
Qed.
Lemma resumes_delete_single_binding b : resumes (deleteSingleBinding bi b).
Proof.
  unfold deleteSingleBinding. pose proof resumes_poll_binding.
  repeat first [ apply resumes_reads; [apply reads_getInstanceByID|intros ?]
               | resumes_step
               | apply resumes_reads; [by repeat first [apply reads_getInstanceByID|reads_step]|intros ?] ].
  all: apply resumes_then; [done|intros; sends_step].
Qed.
Lemma resumes_delete_binding t c : resumes (AroundTxDelete_binding bi (next_delete t) c).
Proof.
  unfold AroundTxDelete_binding. apply resumes_reads; [repeat reads_step|intros l]. case_match; [by resumes_step|].
  apply resumes_found; [by left|intros op HR]. apply resumes_then_remove; [|by apply sends_storage].
  pose proof resumes_delete_single_binding. repeat resumes_step.
Qed.
End Handlers.

(** ** Polling of instances: outcomes, the time limit, and confirmed deletions *)
Local Open Scope Z_scope.
(** The operation as the end of polling stores it. *)
Definition ended_operation (op : Operation) (deletion : option Z) : Operation :=
  with_schedule op false None deletion (ExternalID op) (Context_ op).

(** Answers after which polling goes on, and answers that end it well. *)
Definition goes_on (ty : OperationCategory) (ans : LastOperationResponse + osb_error) : bool :=
  match ans with
  | inl r => match lr_State r with StateInProgress | OtherLastState _ => true | _ => false end
  | inr e => isUnreachableBroker e && negb (IsGoneError e && bool_decide (ty = DELETE))
  end.
Definition ends_well (ty : OperationCategory) (ans : LastOperationResponse + osb_error) : bool :=
  match ans with
  | inl r => match lr_State r with StateSucceeded => true | _ => false end
  | inr e => IsGoneError e && bool_decide (ty = DELETE)
  end.
Definition reports_failure (ans : LastOperationResponse + osb_error) : bool :=
  match ans with
  | inl r => match lr_State r with StateFailed => true | _ => false end
  | inr _ => false
  end.

(** The time limit of the plan is used up: it has one, and nothing of it is left. *)
Definition time_is_up (plan : ServicePlan) (now : Z) (op : Operation) : bool :=
  (0 <? planMaxPollingDuration plan) && (leftPollingDuration plan now (RescheduleTimestamp op) <=? 0).

(** How polling with request [req] ends for operation [op]: with which calls, leaving which
    operation, with which result.  [mitigate] is [enableOrphanMitigation]; [expired] says that
    the time was used up before, and otherwise [select] is what the loop receives: so many
    ticks of the polling interval, and then the end of the context or of the time limit. *)
Inductive poll_ended (req : LastOperationRequest) (op : Operation) (mitigate expired : bool) (select : nat * poll_end)
    : trace -> Operation -> result unit -> Prop :=
  | ended_by_context going :
      Forall (fun a => goes_on (Type_ op) a = true) going ->
      expired = false -> select = (length going, ContextDone) ->
      poll_ended req op mitigate expired select (EvPoll req <$> going) op (Ok tt)
  | ended_well going ans op' :
      Forall (fun a => goes_on (Type_ op) a = true) going -> ends_well (Type_ op) ans = true ->
      expired = false -> (length going < fst select)%nat ->
      same_operation (ended_operation op (DeletionScheduled op)) op' ->
      poll_ended req op mitigate expired select
        ((EvPoll req <$> going) ++ [EvPoll req ans; EvStoreOperation (ended_operation op (DeletionScheduled op)) (Ok tt)])
        op' (Ok tt)
  | ended_failed going ans deletion op' descr :
      Forall (fun a => goes_on (Type_ op) a = true) going -> reports_failure ans = true ->
      expired = false -> (length going < fst select)%nat ->
      (mitigate = true -> is_Some deletion) -> (mitigate = false -> deletion = DeletionScheduled op) ->
      same_operation (ended_operation op deletion) op' ->
      poll_ended req op mitigate expired select
        ((EvPoll req <$> going) ++ [EvPoll req ans; EvStoreOperation (ended_operation op deletion) (Ok tt)])
        op' (Err (BrokerError descr))
  | ended_by_limit going deletion op' descr :
      Forall (fun a => goes_on (Type_ op) a = true) going ->
      (if expired then going = [] else select = (length going, MaxDurationTick)) ->
      (mitigate = true -> is_Some deletion) -> (mitigate = false -> deletion = DeletionScheduled op) ->
      same_operation (ended_operation op deletion) op' ->
      poll_ended req op mitigate expired select
        ((EvPoll req <$> going) ++ [EvStoreOperation (ended_operation op deletion) (Ok tt)])
        op' (Err (BrokerError descr))
  | ended_refused going err descr :
      Forall (fun a => goes_on (Type_ op) a = true) going ->
      isUnreachableBroker err = false -> ends_well (Type_ op) (inr err) = false ->
      expired = false -> (length going < fst select)%nat ->
      poll_ended req op mitigate expired select
        ((EvPoll req <$> going) ++ [EvPoll req (inr err)]) op (Err (BrokerError descr))
  | ended_unstored going final deletion ans op' e :
      Forall (fun a => goes_on (Type_ op) a = true) going ->
      match final with
      | [] => if expired then going = [] else select = (length going, MaxDurationTick)
      | [a] => expired = false /\ (ends_well (Type_ op) a = true \/ reports_failure a = true)
      | _ => False
      end ->
      ans <> Ok tt -> same_operation (ended_operation op deletion) op' ->
      poll_ended req op mitigate expired select
        ((EvPoll req <$> going ++ final) ++ [EvStoreOperation (ended_operation op deletion) ans]) op' (Err e).

Lemma poll_ended_going req op mitigate n last a t op' r :
  goes_on (Type_ op) a = true -> poll_ended req op mitigate false (n, last) t op' r ->
  poll_ended req op mitigate false (S n, last) (EvPoll req a :: t) op' r.
Proof.
  intros Ha He. inversion He; subst; simpl in *; simplify_eq.
  - apply (ended_by_context _ _ _ _ _ (a :: going)); [by constructor|done..].
  - apply (ended_well _ _ _ _ _ (a :: going)); [by constructor|done|done|simpl; lia|done].
  - apply (ended_failed _ _ _ _ _ (a :: going)); [by constructor|done|done|simpl; lia|done..].
  - apply (ended_by_limit _ _ _ _ _ (a :: going)); [by constructor|done..].
  - apply (ended_refused _ _ _ _ _ (a :: going)); [by constructor|done|done|done|simpl; lia].
  - apply (ended_unstored _ _ _ _ _ (a :: going)); [by constructor| |done..]. destruct final as [|? []]; simplify_eq/=; auto.
Qed.

Section Polling.
Context `{SmaapEnv, TLSSettings}.
Variable ii : ServiceInstanceInterceptor.

Lemma finish_polling_inv b wrap s s' r op :
  finish_polling b wrap s = (s', r) -> st_op s = Some op ->
  exists deletion ans op', deletion = (if b then Some (env_now (st_trace s)) else DeletionScheduled op) /\
    st_trace s' = st_trace s ++ [EvStoreOperation (ended_operation op deletion) ans] /\
    (r = Ok tt <-> ans = Ok tt) /\ st_op s' = Some op' /\ same_operation (ended_operation op deletion) op'.
Proof.
  intros Hr Hop. unfold finish_polling in Hr.
  apply r_bind_inv in Hr as [(o & s1 & H1 & Hr)|(r0 & H1 & Hf)];
    destruct (op_read_inv _ _ _ _ H1 Hop) as [-> [= ->]]; [|done].
  unfold r_bind, time_Now, op_write in Hr. apply store_inv in Hr as (ans & Ht & Hans & Ho). simpl in *.
  destruct (st_op s') as [op'|]; [|done]. do 3 eexists. repeat (split; [done|]). done.
Qed.

(** The end of polling with a result that does not depend on the state. *)
Lemma finish_then_inv {A} b wrap (rk : result A) s s' (r : result A) op :
  r_bind (finish_polling b wrap) (fun _ => r_lift rk) s = (s', r) -> st_op s = Some op -> no_panic r ->
  exists deletion ans op', st_trace s' = st_trace s ++ [EvStoreOperation (ended_operation op deletion) ans] /\
    st_op s' = Some op' /\ same_operation (ended_operation op deletion) op' /\
    (b = true -> is_Some deletion) /\ (b = false -> deletion = DeletionScheduled op) /\
    ((ans = Ok tt /\ r = rk) \/ (ans <> Ok tt /\ exists e, r = Err e)).
Proof.
  intros Hr Hop Hn. apply r_bind_inv in Hr as [([] & s1 & H1 & Hk)|(r0 & H1 & Hf)];
    destruct (finish_polling_inv _ _ _ _ _ _ H1 Hop) as (deletion & ans & op' & Hd & Ht & Hans & Ho & Hs);
    exists deletion, ans, op'.
  - unfold r_lift in Hk. injection Hk as <- <-. destruct b; subst; naive_solver.
  - assert (ans <> Ok tt) by (intros Ha; apply Hans in Ha; by subst).
    assert (exists e, r = Err e) by (destruct r0 as [|e|m]; simpl in Hf; [done|by exists e|by destruct (Hn m)]).
    destruct b; subst; naive_solver.
Qed.

(** One tick. *)
Lemma tick_inv req instance b s s' r op :
  poll_instance_tick req instance b s = (s', r) -> st_op s = Some op -> no_panic r ->
  exists ans, ans = osb_poll (st_trace s) req /\
  ((r = Ok None /\ goes_on (Type_ op) ans = true /\ st_trace s' = st_trace s ++ [EvPoll req ans] /\ st_op s' = Some op) \/
   exists t op', st_trace s' = st_trace s ++ t /\ st_op s' = Some op' /\
     match r with
     | Ok None => False
     | Ok (Some _) => forall n last, poll_ended req op b false (S n, last) t op' (Ok tt)
     | Err e => forall n last, poll_ended req op b false (S n, last) t op' (Err e)
     | Panic _ => True
     end).
Proof.
  intros Hr Hop Hn. unfold poll_instance_tick in Hr. exists (osb_poll (st_trace s) req). split; [done|].
  apply r_bind_inv in Hr as [(ans & s1 & H1 & Hr)|(r0 & H1 & Hf)];
    apply call_inv in H1 as (Ha & Ht1 & Ho1); [|by subst]. injection Ha as ->.
  set (ans := osb_poll (st_trace s) req) in *. rewrite Hop in Ho1.
  apply r_bind_inv in Hr as [(o & s2 & H2 & Hr)|(r0 & H2 & Hf)];
    destruct (op_read_inv _ _ _ _ H2 Ho1) as [-> Ho2]; [|by subst]. injection Ho2 as ->.
  destruct ans as [resp|err] eqn:Eans.
  - destruct (lr_State resp) eqn:Est.
    + left. injection Hr as <- <-. simpl. by rewrite Est.
    + right. change (r_ret (Some tt)) with (r_lift (Ok (Some tt))) in Hr.
      destruct (finish_then_inv _ _ _ _ _ _ _ Hr Ho1 Hn) as (dl & a & op' & Ht & Ho & Hs & _ & Hdl & Hres).
      rewrite (Hdl eq_refl) in *. eexists _, op'. rewrite Ht, Ht1, <- app_assoc. split; [done|]. split; [done|].
      destruct Hres as [[-> ->]|[Hne [e ->]]].
      * intros n last. apply (ended_well _ _ _ _ _ []); [constructor| |done|simpl; lia|done]. simpl. by rewrite Est.
      * intros n last. apply (ended_unstored _ _ _ _ _ [] [inl resp]); [constructor| |done..]. simpl. rewrite Est. auto.
    + right. change (r_fail (A:=option unit)) with (fun e => r_lift (A:=option unit) (Err e)) in Hr. cbv beta zeta in Hr.
      destruct (finish_then_inv _ _ _ _ _ _ _ Hr Ho1 Hn) as (dl & a & op' & Ht & Ho & Hs & Hdl & Hdl' & Hres).
      eexists _, op'. rewrite Ht, Ht1, <- app_assoc. split; [done|]. split; [done|].
      destruct Hres as [[-> ->]|[Hne [e ->]]].
      * intros n last. apply (ended_failed _ _ _ _ _ []); [constructor| |done|simpl; lia|done..]. simpl. by rewrite Est.
      * intros n last. apply (ended_unstored _ _ _ _ _ [] [inl resp]); [constructor| |done..]. simpl. rewrite Est. auto.
    + left. injection Hr as <- <-. simpl. by rewrite Est.
  - destruct (IsGoneError err && bool_decide (Type_ op = DELETE)) eqn:Eg; [|destruct (isUnreachableBroker err) eqn:Eu].
    + right. change (r_ret (Some tt)) with (r_lift (Ok (Some tt))) in Hr.
      destruct (finish_then_inv _ _ _ _ _ _ _ Hr Ho1 Hn) as (dl & a & op' & Ht & Ho & Hs & _ & Hdl & Hres).
      rewrite (Hdl eq_refl) in *. eexists _, op'. rewrite Ht, Ht1, <- app_assoc. split; [done|]. split; [done|].
      destruct Hres as [[-> ->]|[Hne [e ->]]].
      * intros n last. by apply (ended_well _ _ _ _ _ []); [constructor| | |simpl; lia|].
      * intros n last. by apply (ended_unstored _ _ _ _ _ [] [inr err]); [constructor|simpl; auto|..].
    + left. injection Hr as <- <-. simpl. by rewrite Eg, Eu.
    + right. injection Hr as <- <-. exists [EvPoll req (inr err)], op. split; [done|]. split; [done|].
      intros n last. by apply (ended_refused _ _ _ _ _ []); [constructor|..|simpl; lia].
Qed.

Lemma elapsed_inv req instance plan b expired select s s' r op :
  (expired = false -> select = (0%nat, MaxDurationTick)) ->
  processMaxPollingDurationElapsed instance plan b s = (s', r) -> st_op s = Some op -> no_panic r ->
  exists t op', st_trace s' = st_trace s ++ t /\ st_op s' = Some op' /\ poll_ended req op b expired select t op' r /\
    (forall e, e ∈ t -> exists o a, e = EvStoreOperation o a) /\ exists e, r = Err e.
Proof.
  intros Hex Hr Hop Hn. unfold processMaxPollingDurationElapsed in Hr.
  apply r_bind_inv in Hr as [(o & s2 & H2 & Hr)|(r0 & H2 & Hf)];
    destruct (op_read_inv _ _ _ _ H2 Hop) as [-> Ho2]; [|by subst]. injection Ho2 as ->.
  change (r_fail (A:=unit)) with (fun e => r_lift (A:=unit) (Err e)) in Hr. cbv beta zeta in Hr.
  destruct (finish_then_inv _ _ _ _ _ _ _ Hr Hop Hn) as (dl & a & op' & Ht & Ho & Hs & Hdl & Hdl' & Hres).
  eexists _, op'. split; [done|]. split; [done|]. split.
  - destruct Hres as [[-> ->]|[Hne [e ->]]].
    + by apply (ended_by_limit _ _ _ _ _ []); [constructor|destruct expired; auto|..].
    + by apply (ended_unstored _ _ _ _ _ [] []); [constructor|destruct expired; auto|..].
  - split; [intros e ->%list_elem_of_singleton; by eexists _, _|]. destruct Hres as [[_ ->]|[_ [e ->]]]; by eexists.
Qed.

Lemma loop_inv req instance b n last last_receive s s' r op :
  poll_loop n (poll_instance_tick req instance b) last_receive s = (s', r) -> st_op s = Some op -> no_panic r ->
  (forall s s' r, last_receive s = (s', r) -> st_op s = Some op -> no_panic r ->
     exists t op', st_trace s' = st_trace s ++ t /\ st_op s' = Some op' /\ poll_ended req op b false (0%nat, last) t op' r) ->
  exists t op', st_trace s' = st_trace s ++ t /\ st_op s' = Some op' /\ poll_ended req op b false (n, last) t op' r.
Proof.
  intros Hr Hop Hn Hlast. revert s Hr Hop. induction n as [|n IH]; simpl; intros s Hr Hop; [by eapply Hlast|].
  apply r_bind_inv in Hr as [(stop & s1 & H1 & Hk)|(r0 & H1 & Hf)].
  - destruct (tick_inv _ _ _ _ _ _ _ H1 Hop (no_panic_ok _)) as (ans & _ & [(Hst & Hgo & Ht & Ho)|(t & op' & Ht & Ho & He)]).
    + injection Hst as ->. destruct (IH _ Hk Ho) as (t & op' & Ht' & Ho' & He).
      exists (EvPoll req ans :: t), op'. split; [by rewrite Ht', Ht, <- app_assoc|]. split; [done|].
      by apply poll_ended_going.
    + destruct stop as [[]|]; [|done]. injection Hk as <- <-. exists t, op'. auto.
  - destruct r0 as [|e|m]; simpl in Hf; [done| |by destruct (Hn m)]. subst r.
    destruct (tick_inv _ _ _ _ _ _ _ H1 Hop (no_panic_err e)) as (ans & _ & [(Hst & _)|(t & op' & Ht & Ho & He)]); [done|].
    exists t, op'. auto.
Qed.

(** The request of every poll of an instance. *)
Definition instance_poll_request (instance : ServiceInstance) (op : Operation) (sid pid : string) : LastOperationRequest :=
  {| lo_InstanceID := si_ID instance; lo_BindingID := None; lo_ServiceID := Some sid; lo_PlanID := Some pid;
     lo_OperationKey := if String.eqb (ExternalID op) "" then None else Some (ExternalID op);
     lo_OriginatingIdentity := getOriginIdentity (GetUserInfo op) instance |}.

Lemma poll_instance_inv instance plan sid pid b s s' r op :
  pollServiceInstance ii instance plan sid pid b s = (s', r) -> st_op s = Some op -> no_panic r ->
  exists t op', st_trace s' = st_trace s ++ t /\ st_op s' = Some op' /\
    poll_ended (instance_poll_request instance op sid pid) op b (time_is_up plan (env_now (st_trace s)) op)
      (env_select (st_trace s)) t op' r.
Proof.
  intros Hr Hop Hn. unfold pollServiceInstance in Hr.
  apply r_bind_inv in Hr as [(o & s2 & H2 & Hr)|(r0 & H2 & Hf)];
    destruct (op_read_inv _ _ _ _ H2 Hop) as [-> Ho2]; [|by subst]. injection Ho2 as ->.
  fold (instance_poll_request instance op sid pid) in Hr. set (req := instance_poll_request _ _ _ _) in *.
  unfold poll_broker in Hr. apply r_bind_inv in Hr as [(o & s2 & H3 & Hr)|(r0 & H3 & Hf)];
    destruct (op_read_inv _ _ _ _ H3 Hop) as [-> Ho2]; [|by subst]. injection Ho2 as ->.
  unfold r_bind at 1, time_Now in Hr. cbv beta iota zeta in Hr. fold (time_is_up plan (env_now (st_trace s)) op) in Hr.
  destruct (time_is_up plan (env_now (st_trace s)) op) eqn:Eup.
  - destruct (elapsed_inv req _ _ _ true (env_select (st_trace s)) _ _ _ _ ltac:(done) Hr Hop Hn) as (t & op' & Ht & Ho & He & _). by exists t, op'.
  - apply r_bind_inv in Hr as [([] & s2 & H4 & Hr)|(r0 & H4 & Hf)];
      unfold r_lift, NewTicker in H4; case_match; simplify_eq/=; try by destruct (Hn "non-positive interval for NewTicker"%string).
    apply r_bind_inv in Hr as [([] & s3 & H4 & Hr)|(r0 & H4 & Hf)];
      unfold r_lift, NewTicker in H4; case_match; simplify_eq/=; try by destruct (Hn "non-positive interval for NewTicker"%string).
    unfold r_bind at 1 in Hr. cbv beta iota zeta in Hr. destruct (env_select (st_trace s3)) as [n last]. simpl in Hr.
    eapply loop_inv; [done..|]. intros s4 s5 r' Hl Hop4 Hn'. destruct last.
    + injection Hl as <- <-. exists [], op. rewrite app_nil_r. split; [done|]. split; [done|].
      by apply (ended_by_context _ _ _ _ _ []).
    + destruct (elapsed_inv req _ _ _ false (0%nat, MaxDurationTick) _ _ _ _ ltac:(done) Hl Hop4 Hn') as (t & op' & Ht & Ho & He & _). by exists t, op'.
Qed.

(** ** The time limit *)
Lemma wrap64_small z : Strconv.int64_min <= z <= Strconv.int64_max -> Strconv.wrap64 z = z.
Proof. unfold Strconv.wrap64, Strconv.int64_min, Strconv.int64_max. intros Hz. rewrite Z.mod_small; lia. Qed.

Lemma left_exact plan now t0 d :
  sp_MaximumPollingDuration plan = d -> 0 < d <= 9223372036 -> 0 <= now - t0 <= Strconv.int64_max ->
  planMaxPollingDuration plan = d * Second /\ leftPollingDuration plan now (Some t0) = d * Second - (now - t0).
Proof.
  intros Hd Hr Hnow. assert (Hmax : planMaxPollingDuration plan = d * Second).
  { unfold planMaxPollingDuration. rewrite Hd. apply wrap64_small.
    unfold Second, Strconv.int64_min, Strconv.int64_max in *. lia. }
  split; [done|]. unfold leftPollingDuration. rewrite Hmax.
  destruct (Z.ltb_spec 0 (d * Second)) as [_|Hz]; [|unfold Second in Hz; lia].
  simpl. unfold saturate64. rewrite Z.min_r, Z.max_r by (unfold Strconv.int64_min, Strconv.int64_max in *; lia).
  apply wrap64_small. unfold Second, Strconv.int64_min, Strconv.int64_max in *. lia.
Qed.

(** With no time left the broker is not asked. *)
Lemma poll_expired instance plan sid pid b s s' r op :
  time_is_up plan (env_now (st_trace s)) op = true -> st_op s = Some op ->
  pollServiceInstance ii instance plan sid pid b s = (s', r) -> no_panic r ->
  exists deletion ans op' e, st_trace s' = st_trace s ++ [EvStoreOperation (ended_operation op deletion) ans] /\
    (b = true -> is_Some deletion) /\ r = Err e /\ st_op s' = Some op' /\
    same_operation (ended_operation op deletion) op'.
Proof.
  intros Hup Hop Hr Hn. unfold pollServiceInstance, poll_broker, r_bind at 1 2 3, op_read, time_Now in Hr.
  rewrite Hop in Hr. cbv beta iota zeta in Hr. rewrite Hop in Hr. cbv beta iota zeta in Hr.
  fold (time_is_up plan (env_now (st_trace s)) op) in Hr. rewrite Hup in Hr. unfold processMaxPollingDurationElapsed in Hr.
  apply r_bind_inv in Hr as [(o & s2 & H2 & Hr)|(r0 & H2 & Hf)];
    destruct (op_read_inv _ _ _ _ H2 Hop) as [-> Ho2]; [|by subst]. injection Ho2 as ->.
  change (r_fail (A:=unit)) with (fun e => r_lift (A:=unit) (Err e)) in Hr. cbv beta zeta in Hr.
  destruct (finish_then_inv _ _ _ _ _ _ _ Hr Hop Hn) as (dl & a & op' & Ht & Ho & Hs & Hdl & _ & Hres).
  destruct Hres as [[-> ->]|[Hne [e ->]]]; by eexists dl, _, op', _.
Qed.

(** ** Polling returns *)
Section Returns.
(** Storing an operation does not panic. *)
Hypothesis store_returns : forall t o m, env_store_operation t o <> Panic m.

Definition returns {A} (m : run A) : Prop := forall s s' r,
  m s = (s', r) -> is_Some (st_op s) -> no_panic r /\ is_Some (st_op s').

Lemma returns_still {A} (m : run A) : (forall s, fst (m s) = s /\ no_panic (snd (m s))) -> returns m.
Proof. intros Hm s s' r Hr Ho. specialize (Hm s). rewrite Hr in Hm. simpl in Hm. destruct Hm as [-> Hn]. by split. Qed.
Lemma returns_bind {A B} (m : run A) (k : A -> run B) : returns m -> (forall a, returns (k a)) -> returns (r_bind m k).
Proof.
  intros Hm Hk s s' r Hr Ho. apply r_bind_inv in Hr as [(a & s1 & H1 & H2)|(r0 & H1 & Hf)].
  - destruct (Hm _ _ _ H1 Ho) as [_ Ho1]. by eapply Hk.
  - destruct (Hm _ _ _ H1 Ho) as [Hn Ho1]. split; [|done].
    destruct r0 as [|e|msg]; simpl in Hf; subst; [done|by intros ?|by destruct (Hn msg)].
Qed.
Lemma returns_read {B} (k : Operation -> run B) : (forall op, returns (k op)) -> returns (r_bind op_read k).
Proof.
  intros Hk s s' r Hr Ho. unfold r_bind, op_read in Hr. destruct (st_op s) as [op|] eqn:Hop; [|by destruct Ho].
  eapply Hk; [done|by rewrite Hop].
Qed.
Lemma returns_finish b wrap : returns (finish_polling b wrap).
Proof.
  unfold finish_polling. apply returns_read. intros op. apply returns_bind; [by apply returns_still|intros now].
  intros s s' r Hr _. unfold r_bind, op_write in Hr. apply or_fail_inv in Hr as (r0 & Hr & Hr0).
  apply storage_call_inv in Hr as (Ha & _ & Ho). simpl in Ho. split; [|by destruct (st_op s')].
  destruct r0 as [|e|m]; subst; [done|by intros ?|]. by destruct (store_returns _ _ _ (eq_sym Ha)).
Qed.
Lemma returns_loop {B} n (tick : run (option B)) last : returns tick -> returns last -> returns (poll_loop n tick last).
Proof.
  intros Ht Hl. induction n as [|n IH]; simpl; [done|]. apply returns_bind; [done|]. intros [b|]; [|done].
  by apply returns_still.
Qed.
Lemma returns_fail {A} e : returns (r_fail (A:=A) e).
Proof. apply returns_still. intros s. split; [done|]. by intros ?. Qed.
Lemma returns_elapsed instance plan b : returns (processMaxPollingDurationElapsed instance plan b).
Proof.
  unfold processMaxPollingDurationElapsed. apply returns_read. intros op.
  apply returns_bind; [apply returns_finish|intros _; apply returns_fail].
Qed.
Lemma returns_tick req instance b : returns (poll_instance_tick req instance b).
Proof.
  unfold poll_instance_tick. apply returns_bind; [by intros s s' r [= <- <-]|intros ans]. apply returns_read. intros op.
  repeat case_match; try apply returns_bind; intros; try apply returns_finish; try apply returns_fail; by apply returns_still.
Qed.
(** With the time limit checked before, no ticker is made for a duration that is not
    positive; the polling interval is a setting. *)
Lemma poll_instance_returns instance plan sid pid b :
  0 < ii_pollingInterval ii -> returns (pollServiceInstance ii instance plan sid pid b).
Proof.
  intros Hint. unfold pollServiceInstance, poll_broker. apply returns_read. intros op. apply returns_read. intros op'.
  apply returns_bind; [by apply returns_still|intros now].
  destruct (_ && _) eqn:Eup; [apply returns_elapsed|]. apply returns_bind.
  { apply returns_still. intros s. split; [done|]. simpl. unfold NewTicker.
    destruct (Z.leb_spec (leftPollingDuration plan now (RescheduleTimestamp op')) 0) as [Hle|_]; [|done].
    exfalso. rewrite andb_true_r in Eup. unfold leftPollingDuration in Hle. rewrite Eup in Hle. by vm_compute in Hle. }
  intros _. apply returns_bind.
  { apply returns_still. intros s. split; [done|]. simpl. unfold NewTicker. destruct (Z.leb_spec (ii_pollingInterval ii) 0); [lia|done]. }
  intros _. apply returns_bind; [by apply returns_still|intros [n last]]. apply returns_loop; [apply returns_tick|].
  simpl. destruct last; [by apply returns_still|apply returns_elapsed].
Qed.
End Returns.

(** With time left and a tick of the polling interval, the broker is asked. *)
Lemma poll_asks instance plan sid pid b s s' r op :
  time_is_up plan (env_now (st_trace s)) op = false -> (0 < fst (env_select (st_trace s)))%nat ->
  pollServiceInstance ii instance plan sid pid b s = (s', r) -> st_op s = Some op -> no_panic r ->
  exists ans t, st_trace s' = st_trace s ++ EvPoll (instance_poll_request instance op sid pid) ans :: t.
Proof.
  intros Hup Hsel Hr Hop Hn. destruct (poll_instance_inv _ _ _ _ _ _ _ _ _ Hr Hop Hn) as (t & op' & Ht & _ & He).
  rewrite Hup in He. rewrite Ht. clear Ht Hr. set (req := instance_poll_request _ _ _ _) in *.
  inversion He as [going|going|going|going|going|going final]; subst;
    (destruct going; [simpl|by eexists _, _]); try by eexists _, _.
  - match goal with Hs : env_select _ = _ |- _ => rewrite Hs in Hsel; simpl in Hsel; lia end.
  - match goal with Hs : env_select _ = _ |- _ => rewrite Hs in Hsel; simpl in Hsel; lia end.
  - destruct final as [|? []]; [|by eexists _, _|done].
    match goal with Hs : env_select _ = _ |- _ => rewrite Hs in Hsel; simpl in Hsel; lia end.
Qed.
End Polling.
