(* ===== verification/SmaapDeletion.v ===== *)
(** * Deletions are confirmed by the broker before the object is removed *)

From S2P Require Import Prelude GoStd Errors Query Labels OperationTypes DomainTypes Smaap SmaapProps InstanceInterceptor SmaapRequests.
From stdpp Require Import base gmap strings list.
From Stdlib Require Import ZArith.

(** The broker says that the resource is deleted. *)
Definition confirms (ty : OperationCategory) (e : event) : bool :=
  match e with
  | EvDeprovision _ (inl r) => negb (resp_Async r)
  | EvDeprovision _ (inr err) => IsGoneError err
  | EvPoll _ ans => ends_well ty ans
  | _ => false
  end.

(** The instance is removed from the storage: by the rest of the chain, or past it. *)
Definition removal (e : event) : bool :=
  match e with EvNextDelete _ | EvRawDelete _ => true | _ => false end.
Definition no_removal (t : trace) : Prop := Forall (fun e => removal e = false) t.
Lemma no_removal_app t1 t2 : no_removal t1 -> no_removal t2 -> no_removal (t1 ++ t2).
Proof. intros. by apply Forall_app. Qed.
Lemma no_removal_reads t : Forall is_read t -> no_removal t.
Proof. intros Hr. eapply Forall_impl; [exact Hr|]. by intros []. Qed.
Lemma no_removal_polls req l : no_removal (EvPoll req <$> l).
Proof. apply Forall_fmap. by apply Forall_true. Qed.

Lemma poll_ended_job req op b ex sel t op' r : poll_ended req op b ex sel t op' r -> same_job op op'.
Proof. intros He. destruct He; try done;
    match goal with Hs : same_operation _ _ |- _ => exact (same_job_operation _ _ Hs) end. Qed.
Lemma poll_ended_no_removal req op b ex sel t op' r : poll_ended req op b ex sel t op' r -> no_removal t.
Proof. intros He. destruct He; repeat apply no_removal_app; first [apply no_removal_polls|by repeat constructor]. Qed.

(** Polling that returns without error was confirmed, or left the operation as it was. *)
Lemma poll_ended_ok req op b ex sel t op' u :
  poll_ended req op b ex sel t op' (Ok u) -> op' = op \/ exists e, e ∈ t /\ confirms (Type_ op) e = true.
Proof.
  inversion 1 as [|going ans o Hgo Hend| | | |]; subst; [by left|]. right. exists (EvPoll req ans).
  split; [|done]. apply elem_of_app. right. left.
Qed.

Section Deletion.
Context `{SmaapEnv, TLSSettings}.
Variable ii : ServiceInstanceInterceptor.

Lemma mark_reschedule_inv key msg s s' u op :
  mark_reschedule key msg s = (s', Ok u) -> st_op s = Some op ->
  exists t op', st_trace s' = st_trace s ++ t /\ st_op s' = Some op' /\ same_job op op' /\ Reschedule op' = true /\
    no_removal t.
Proof.
  intros Hr Hop. unfold mark_reschedule in Hr.
  apply r_bind_inv in Hr as [(o & s1 & H1 & Hr)|(r0 & H1 & Hf)];
    destruct (op_read_inv _ _ _ _ H1 Hop) as [-> Ho]; [injection Ho as ->|by subst].
  apply r_bind_inv in Hr as [(c & s2 & H2 & Hr)|(r0 & H2 & Hf)]; [|by destruct r0].
  unfold r_lift in H2. injection H2 as -> _. unfold r_bind, time_Now, op_write in Hr.
  apply store_inv in Hr as (ans & Ht & _ & Ho). simpl in *. destruct (st_op s') as [op'|]; [|done].
  eexists _, op'. split; [done|]. split; [done|]. destruct Ho as [l ->]. split; [done|]. split; [done|]. by repeat constructor.
Qed.

(** What a deletion that returns without error leaves. *)
Definition deleted (instance : ServiceInstance) (op : Operation) (t : trace) (op' : Operation) : Prop :=
  no_removal t /\
  (si_ReferencedInstanceID instance <> ""%string \/
  (exists e, e ∈ t /\ confirms (Type_ op) e = true) \/ Reschedule op' = true).

Lemma poll_deleted instance plan sid pid s s' op :
  pollServiceInstance ii instance plan sid pid true s = (s', Ok tt) -> st_op s = Some op -> Reschedule op = true ->
  exists t op', st_trace s' = st_trace s ++ t /\ st_op s' = Some op' /\ same_job op op' /\ deleted instance op t op'.
Proof.
  intros Hr Hop HR. destruct (poll_instance_inv _ _ _ _ _ _ _ _ _ _ Hr Hop (no_panic_ok tt)) as (t & op' & Ht & Ho & He).
  exists t, op'. repeat (split; [first [done|by eapply poll_ended_job|by eapply poll_ended_no_removal]|]). right.
  destruct (poll_ended_ok _ _ _ _ _ _ _ _ He) as [->|?]; auto.
Qed.

Lemma deleted_app instance op t1 t2 op1 op' :
  same_job op op1 -> no_removal t1 -> deleted instance op1 t2 op' -> deleted instance op (t1 ++ t2) op'.
Proof.
  intros (HT & _) Hn1 [Hn2 Hd]. split; [by apply no_removal_app|]. destruct Hd as [?|[(e & He & Hc)|?]]; [by left| |by right; right]. right. left. exists e.
  split; [apply elem_of_app; by right|by rewrite <- HT].
Qed.

(** Steps before and after. *)
Lemma reads_then {A B} (m : run A) (k : A -> run B) s s' b :
  reads m -> r_bind m k s = (s', Ok b) ->
  exists a s1 t, m s = (s1, Ok a) /\ k a s1 = (s', Ok b) /\ st_trace s1 = st_trace s ++ t /\ st_op s1 = st_op s /\
    no_removal t.
Proof.
  intros Hm Hr. apply r_bind_inv in Hr as [(a & s1 & H1 & Hk)|(r0 & H1 & Hf)]; [|by destruct r0].
  destruct (Hm _ _ _ H1) as (t & Ht & Hf & Ho). exists a, s1, t. by repeat (split; [done|]); apply no_removal_reads.
Qed.

Lemma deprovision_deleted instance req s s' op (poll : run unit) err_of msg :
  (forall s s' op, poll s = (s', Ok tt) -> st_op s = Some op -> Reschedule op = true ->
     exists t op', st_trace s' = st_trace s ++ t /\ st_op s' = Some op' /\ same_job op op' /\ deleted instance op t op') ->
  (do! ans <- call (fun t => osb_deprovision t req) (EvDeprovision req);
   match ans with
   | inr err =>
       if IsGoneError err then r_ret tt
       else (if shouldStartOrphanMitigation err then mark_deletion_scheduled (err_of err) else r_ret tt) ;>
            r_fail (err_of err)
   | inl resp =>
       (if resp_Async resp then mark_reschedule (resp_OperationKey resp) msg else r_ret tt) ;>
       do! operation <- op_read;
       if shouldStartPolling operation then poll else r_ret tt
   end) s = (s', Ok tt) ->
  st_op s = Some op -> Reschedule op = false ->
  exists t op', st_trace s' = st_trace s ++ t /\ st_op s' = Some op' /\ same_job op op' /\ deleted instance op t op'.
Proof.
  intros Hpoll Hr Hop HR. apply r_bind_inv in Hr as [(ans & s1 & H1 & Hk)|(r0 & H1 & Hf)]; [|by destruct r0].
  apply call_inv in H1 as (Ha & Ht1 & Ho1). rewrite Hop in Ho1. injection Ha as ->.
  set (ans := osb_deprovision (st_trace s) req) in *. destruct ans as [resp|err].
  - destruct (resp_Async resp) eqn:Ea.
    + apply r_bind_inv in Hk as [([] & s2 & H2 & Hk)|(r0 & _ & Hf)]; [|by destruct r0].
      destruct (mark_reschedule_inv _ _ _ _ _ _ H2 Ho1) as (t2 & op2 & Ht2 & Ho2 & Hj & HR2 & Hn2).
      apply r_bind_inv in Hk as [(o & s3 & H3 & Hk)|(r0 & _ & Hf)]; [|by destruct r0].
      destruct (op_read_inv _ _ _ _ H3 Ho2) as [-> Ho3]. injection Ho3 as ->. destruct (shouldStartPolling op2).
      * destruct (Hpoll _ _ _ Hk Ho2 HR2) as (t3 & op3 & Ht3 & Ho3 & Hj3 & Hd).
        exists ((EvDeprovision req (inl resp) :: t2) ++ t3), op3. split; [by rewrite Ht3, Ht2, Ht1, <- !app_assoc|].
        split; [done|]. split; [by eapply same_job_trans|]. eapply deleted_app; [done|by constructor|done].
      * injection Hk as <-. eexists (_ :: t2), op2. rewrite Ht2, Ht1, <- app_assoc. split; [done|].
        split; [done|]. split; [done|]. split; [by constructor|by right; right].
    + unfold r_bind, r_ret in Hk. destruct (op_read s1) as [s2 r2] eqn:H3.
      destruct (op_read_inv _ _ _ _ H3 Ho1) as [-> ->].
      unfold shouldStartPolling in Hk. rewrite HR in Hk. injection Hk as <-. eexists _, op.
      split; [done|]. split; [done|]. split; [done|]. split; [by repeat constructor|]. right. left. eexists.
      split; [apply list_elem_of_singleton; done|]. simpl. by rewrite Ea.
  - destruct (IsGoneError err) eqn:Eg.
    + injection Hk as <-. eexists _, op. split; [done|]. split; [done|]. split; [done|].
      split; [by repeat constructor|]. right. left. eexists. by split; [apply list_elem_of_singleton|].
    + apply r_bind_inv in Hk as [([] & s2 & H2 & Hk)|(r0 & _ & Hf)]; [done|by destruct r0].
Qed.

Lemma delete_single_inv instance s s' op :
  deleteSingleInstance ii instance s = (s', Ok tt) -> st_op s = Some op ->
  exists t op', st_trace s' = st_trace s ++ t /\ st_op s' = Some op' /\ same_job op op' /\ deleted instance op t op'.
Proof.
  intros Hr Hop. unfold deleteSingleInstance in Hr.
  apply reads_then in Hr as (n & s1 & t1 & _ & Hr & Ht1 & Ho1 & Hn1); [|repeat reads_step].
  apply reads_then in Hr as (refs & s2 & t2 & _ & Hr & Ht2 & Ho2 & Hn2); [|repeat reads_step].
  cbv beta zeta in Hr. case_match; [done|]. case_match; [done|]. rewrite Ho1 in Ho2. rewrite Hop in Ho2.
  destruct (String.eqb_spec (si_ReferencedInstanceID instance) ""%string) as [Href|Href]; simpl in Hr.
  - apply reads_then in Hr as ([[broker service] plan] & s3 & t3 & _ & Hr & Ht3 & Ho3 & Hn3); [|apply reads_prerequisites].
    rewrite Ho2 in Ho3. apply r_bind_inv in Hr as [(o & s4 & H4 & Hr)|(r0 & _ & Hf)]; [|by destruct r0].
    destruct (op_read_inv _ _ _ _ H4 Ho3) as [-> Ho4]. injection Ho4 as ->.
    assert (exists t op', st_trace s' = st_trace s3 ++ t /\ st_op s' = Some op' /\ same_job op op' /\ deleted instance op t op')
      as (t & op' & Ht & Ho & Hj & Hd).
    { destruct (Reschedule op) eqn:HR; [by eapply poll_deleted|]. eapply deprovision_deleted; [|exact Hr|done|done].
      intros; by eapply poll_deleted. }
    exists ((t1 ++ t2 ++ t3) ++ t), op'. rewrite Ht, Ht3, Ht2, Ht1, <- !app_assoc. repeat (split; [done|]).
    rewrite !app_assoc. apply (deleted_app _ _ _ _ op); [done|by repeat apply no_removal_app|done].
  - injection Hr as <-. exists (t1 ++ t2), op. rewrite Ht2, Ht1, <- app_assoc. repeat (split; [done|]).
    split; [by apply no_removal_app|by left].
Qed.

(** Orphan mitigation is scheduled, for an instance of a plan that the operation names. *)
Definition orphan_plan (op : Operation) : Prop :=
  is_Some (DeletionScheduled op) /\ exists c, Context_ op = Some c /\ ServicePlanID c <> ""%string.

(** The part of a DELETE operation's deletion that handles the instances found. *)
Lemma delete_listed_inv (l : list ServiceInstance) op s s' c :
  (match l with
   | instance :: _ =>
       do! async <- (if bool_decide (Type_ op = CREATE) then r_lift (IsAsyncResponse op) else r_ret true);
       (match async with true => r_ret tt | false => raw_delete ServiceInstanceType c end) ;>
       deleteSingleInstance ii instance
   | [] =>
       if InOrphanMitigationState op then
         do! planID <- r_lift (match Context_ op with
                               | None => Panic Context_missing
                               | Some c => Ok (ServicePlanID c)
                               end);
         if negb (String.eqb planID "") then deleteSingleInstance ii (bare_instance (ResourceID op) planID)
         else r_ret tt
       else r_ret tt
   end) s = (s', Ok tt) ->
  st_op s = Some op -> Type_ op = DELETE -> length l <= 1 ->
  exists t op', st_trace s' = st_trace s ++ t /\ st_op s' = Some op' /\ same_job op op' /\ no_removal t /\
    (Reschedule op' = true \/ (l = [] /\ ~ orphan_plan op) \/
     (exists i, l = [i] /\ si_ReferencedInstanceID i <> ""%string) \/
     exists e, e ∈ t /\ confirms DELETE e = true).
Proof.
  intros Hr Hop HT Hlen. destruct l as [|i [|? ?]]; simpl in *; [| |lia].
  - destruct (InOrphanMitigationState op) eqn:Eo.
    + apply reads_then in Hr as (pid & s4 & t4 & Hp & Hr & Ht4 & Ho4 & Hn4); [|repeat reads_step]. rewrite Hop in Ho4.
      destruct (String.eqb_spec pid ""%string) as [Hpid|Hpid]; simpl in Hr.
      * injection Hr as <-. exists t4, op. repeat (split; [done|]). right. left. split; [done|].
        intros (_ & ctx & Hc & Hne). unfold r_lift in Hp. rewrite Hc in Hp. injection Hp as _ <-. by rewrite Hpid in Hne.
      * destruct (delete_single_inv _ _ _ _ Hr Ho4) as (t & op' & Ht & Ho & Hj & Hn & Hd).
        exists (t4 ++ t), op'. rewrite Ht, Ht4, <- app_assoc. repeat (split; [done|]).
        split; [by apply no_removal_app|]. rewrite <- HT. destruct Hd as [Hd|[(e & He & Hc)|?]]; [by destruct Hd| |by left].
        right. right. right. exists e. split; [apply elem_of_app; by right|done].
    + injection Hr as <-. exists [], op. rewrite app_nil_r. repeat (split; [done|]). split; [constructor|]. right. left.
      split; [done|]. intros (Hs & _). unfold InOrphanMitigationState in Eo. by rewrite bool_decide_eq_true_2 in Eo.
  - rewrite bool_decide_eq_false_2 in Hr by (by rewrite HT). unfold r_bind at 1, r_ret in Hr.
    apply r_bind_inv in Hr as [([] & s4 & H4 & Hr)|(r0 & _ & Hf)]; [|by destruct r0]. injection H4 as <-.
    destruct (delete_single_inv _ _ _ _ Hr Hop) as (t & op' & Ht & Ho & Hj & Hn & Hd). rewrite <- HT.
    exists t, op'. repeat (split; [done|]). destruct Hd as [?|[?|?]]; eauto 6.
Qed.
End Deletion.
