(* ===== verification/SmaapTheorems.v ===== *)
(** * Service Manager as a platform: the theorems *)

From S2P Require Import Prelude GoStd Errors Query Labels OperationTypes DomainTypes Smaap InstanceInterceptor BindingInterceptor SmaapProps SmaapJournal SmaapRequests SmaapDeletion.
From stdpp Require Import base gmap strings list pretty.
From Stdlib Require Import ZArith.
Local Open Scope Z_scope.

Section Theorems.
Context `{SmaapEnv, TLSSettings}.
Variables (ii : ServiceInstanceInterceptor) (bi : ServiceBindingInterceptor).


(** C21: a run sends at most one request that creates, changes or deletes something at the
    broker, and none when its operation is marked as rescheduled: an operation whose request
    was accepted is only polled by later runs, so the broker never gets the request twice. *)
Theorem one_request_per_run s s' :
  (forall obj r, AroundTxCreate_instance ii next_create obj s = (s', r) ->
     exists t, st_trace s' = st_trace s ++ t /\ (requests t <= 1)%nat /\
       ((forall op, st_op s = Some op -> Reschedule op = true) -> requests t = 0%nat)) /\
  (forall u c r, AroundTxUpdate_instance ii next_update u c s = (s', r) ->
     exists t, st_trace s' = st_trace s ++ t /\ (requests t <= 1)%nat /\
       ((forall op, st_op s = Some op -> Reschedule op = true) -> requests t = 0%nat)) /\
  (forall c r, AroundTxDelete_instance ii (next_delete ServiceInstanceType) c s = (s', r) ->
     exists t, st_trace s' = st_trace s ++ t /\ (requests t <= 1)%nat /\
       ((forall op, st_op s = Some op -> Reschedule op = true) -> requests t = 0%nat)) /\
  (forall b r, AroundTxCreate_binding bi next_create_binding b s = (s', r) ->
     exists t, st_trace s' = st_trace s ++ t /\ (requests t <= 1)%nat /\
       ((forall op, st_op s = Some op -> Reschedule op = true) -> requests t = 0%nat)) /\
  (forall c r, AroundTxDelete_binding bi (next_delete ServiceBindingType) c s = (s', r) ->
     exists t, st_trace s' = st_trace s ++ t /\ (requests t <= 1)%nat /\
       ((forall op, st_op s = Some op -> Reschedule op = true) -> requests t = 0%nat)).
Proof.
  assert (Hj : forall A (m : run A) r, sends 1 m -> resumes m -> m s = (s', r) ->
            exists t, st_trace s' = st_trace s ++ t /\ (requests t <= 1)%nat /\
              ((forall op, st_op s = Some op -> Reschedule op = true) -> requests t = 0%nat)).
  { intros A m r Hs Hre Hr. destruct (Hs _ _ _ Hr) as (t & Ht & Hn). exists t. repeat (split; [done|]).
    intros Hop. destruct (Hre _ _ _ Hr Hop) as (t' & Ht' & Hn'). rewrite Ht in Ht'. by simplify_list_eq. }
  repeat split; intros; (eapply Hj; [| |done]).
  - apply sends_create_instance.
  - apply resumes_create_instance.
  - apply sends_update_instance.
  - apply resumes_update_instance.
  - apply sends_delete_instance.
  - apply resumes_delete_instance.
  - apply sends_create_binding.
  - apply resumes_create_binding.
  - apply sends_delete_binding.
  - apply resumes_delete_binding.
Qed.

(** C23: the outcomes of polling an instance, all of them.  It returns without error only when
    the context ended after the ticks answered so far, with the operation untouched and so still
    rescheduled, or after the broker reported success (410 Gone for a deletion), with the
    operation stored as finished; a failure reported by the broker, and the end of the time
    limit, before polling or between two ticks, is stored, with the deletion scheduled if asked
    for, before the error is returned; another refusal leaves the operation as it is; and an
    operation that could not be stored is an error.  It never panics for a positive polling
    interval, as long as the storage does not. *)
Theorem poll_outcomes instance plan sid pid mitigate s s' r op :
  0 < ii_pollingInterval ii -> (forall t o m, env_store_operation t o <> Panic m) ->
  pollServiceInstance ii instance plan sid pid mitigate s = (s', r) -> st_op s = Some op ->
  no_panic r /\
  exists t op', st_trace s' = st_trace s ++ t /\ st_op s' = Some op' /\
    poll_ended (instance_poll_request instance op sid pid) op mitigate
      (time_is_up plan (env_now (st_trace s)) op) (env_select (st_trace s)) t op' r.
Proof.
  intros Hint Hstore Hr Hop.
  destruct (poll_instance_returns ii Hstore instance plan sid pid mitigate Hint s s' r Hr) as [Hn _]; [by rewrite Hop|].
  split; [done|]. by apply (poll_instance_inv ii).
Qed.

(** C24: an instance is removed from the storage by its deletion only when the broker
    confirmed.  If the interceptor of a DELETE operation returns without error, then either
    nothing was removed, and the operation is still rescheduled, or it had failed with nothing
    scheduled for deletion; or the rest of the chain was called once, last, and there was no
    instance to delete at the broker (a reference, or none found, unless orphan mitigation is
    scheduled and the operation names a plan), or the broker had answered that it is deleted. *)
Theorem deletion_confirmed c s s' op :
  AroundTxDelete_instance ii (next_delete ServiceInstanceType) c s = (s', Ok tt) ->
  st_op s = Some op -> Type_ op = DELETE ->
  exists t op', st_op s' = Some op' /\ no_removal t /\
    ((st_trace s' = st_trace s ++ t /\
      (Reschedule op' = true \/ (State op = FAILED /\ DeletionScheduled op' = None))) \/
     (st_trace s' = st_trace s ++ t ++ [EvNextDelete ServiceInstanceType] /\
      ((env_instances (st_trace s) c = Ok [] /\ ~ orphan_plan op) \/
       (exists instance, env_instances (st_trace s) c = Ok [instance] /\ si_ReferencedInstanceID instance <> ""%string) \/
       exists e, e ∈ t /\ confirms DELETE e = true))).
Proof.
  intros Hr Hop HT. unfold AroundTxDelete_instance in Hr.
  apply reads_then in Hr as (l & s1 & t1 & Hl & Hr & Ht1 & Ho1 & Hn1); [|repeat reads_step].
  apply or_fail_inv in Hl as (r0 & Hl & Hr0). apply call_result_inv in Hl as (Hl & _).
  destruct r0 as [l0| |]; [injection Hr0 as <-|done|done]. destruct (Nat.ltb_spec 1 (length l)); [done|].
  apply reads_then in Hr as (o & s2 & t2 & H2 & Hr & Ht2 & Ho2 & _); [|repeat reads_step].
  rewrite Hop in Ho1. rewrite Ho1 in Ho2. unfold opcontext_Get in H2. rewrite Ho1 in H2. injection H2 as <- <-.
  apply r_bind_inv in Hr as [([] & s3 & H3 & Hr)|(r0 & _ & Hf)]; [|by destruct r0].
  destruct (delete_listed_inv ii l op s1 s3 c H3) as (t3 & op3 & Ht3 & Ho3 & (HT3 & HS3 & _) & Hn3 & Hd); [done|done|lia|].
  apply r_bind_inv in Hr as [(o & s4 & H4 & Hr)|(r0 & _ & Hf)]; [|by destruct r0].
  destruct (op_read_inv _ _ _ _ H4 Ho3) as [-> Heq]. injection Heq as ->.
  apply r_bind_inv in Hr as [(b & s4 & H5 & Hr)|(r0 & _ & Hf)]; [|by destruct r0].
  unfold r_lift in H5. injection H5 as <- Hb. unfold shouldRemoveResource in Hb. rewrite HT3, HS3, HT in Hb. simpl in Hb.
  assert (Hkeep : no_removal (t1 ++ t3)) by by apply no_removal_app. destruct b.
  - apply storage_call_inv in Hr as (_ & Ht4 & Ho4). rewrite Ho3 in Ho4. destruct (st_op s') as [op4|]; [|done].
    exists (t1 ++ t3), op4. split; [done|]. split; [done|]. right. rewrite Ht4, Ht3, Ht1, <- !app_assoc. split; [done|].
    destruct Hd as [Hd|[[-> ?]|[(i & -> & Hi)|(e & He & Hc)]]]; [exfalso|by left|by right; left; exists i|].
    + rewrite Hd in Hb. unfold InOrphanMitigationState in Hb. by repeat case_bool_decide; simplify_eq/=.
    + right. right. exists e. split; [|done]. apply elem_of_app. by right.
  - injection Hr as <-. exists (t1 ++ t3), op3. split; [done|]. split; [done|]. left.
    split; [by rewrite Ht3, Ht1, <- app_assoc|].
    unfold InOrphanMitigationState in Hb. destruct (bool_decide_reflect (State op = FAILED)); simplify_eq/=.
    + destruct (bool_decide_reflect (is_Some (DeletionScheduled op3))) as [|Hnone]; simpl in Hb.
      * left. by destruct (Reschedule op3).
      * right. split; [done|]. by destruct (DeletionScheduled op3); [destruct Hnone|].
    + left. by destruct (Reschedule op3).
Qed.

(** C29: the time limit of a plan.  For a maximal polling duration of [d] seconds up to
    9223372036 the limit runs from the time of the first reschedule, so it spans all later
    runs: with the time used up (to the nanosecond) the broker is not asked at all, the
    operation is stored as finished with its deletion scheduled if asked for, and the run fails
    without a panic; with time left, the rest is computed without overflow and the broker is
    asked when the polling interval ticks.  A duration of 9223372037 seconds overflows 64 bits to
    a negative number and the limit is ignored: the broker is asked however late it is.
    Positive polling interval; the storage does not panic. *)
Theorem polling_deadline instance plan sid pid mitigate s s' r op d t0 :
  0 < ii_pollingInterval ii -> (forall t o m, env_store_operation t o <> Panic m) ->
  sp_MaximumPollingDuration plan = d -> 0 < d ->
  st_op s = Some op -> RescheduleTimestamp op = Some t0 ->
  0 <= env_now (st_trace s) - t0 <= Strconv.int64_max ->
  pollServiceInstance ii instance plan sid pid mitigate s = (s', r) ->
  let asked := (0 < fst (env_select (st_trace s)))%nat ->
    exists ans t, st_trace s' = st_trace s ++ EvPoll (instance_poll_request instance op sid pid) ans :: t in
  (d <= 9223372036 ->
   (env_now (st_trace s) - t0 < d * Second ->
    leftPollingDuration plan (env_now (st_trace s)) (Some t0) = d * Second - (env_now (st_trace s) - t0) /\ asked) /\
   (d * Second <= env_now (st_trace s) - t0 ->
    exists deletion ans op' e, st_trace s' = st_trace s ++ [EvStoreOperation (ended_operation op deletion) ans] /\
      (mitigate = true -> is_Some deletion) /\ r = Err e /\ st_op s' = Some op' /\
      same_operation (ended_operation op deletion) op')) /\
  (d = 9223372037 -> planMaxPollingDuration plan < 0 /\ asked).
Proof.
  intros Hint Hstore Hd Hpos Hop Hts Hnow Hr.
  destruct (poll_instance_returns ii Hstore instance plan sid pid mitigate Hint s s' r Hr) as [Hn _]; [by rewrite Hop|].
  cbv zeta. split.
  - intros Hle. destruct (left_exact plan (env_now (st_trace s)) t0 d Hd) as [Hmax Hleft]; [lia|done|].
    assert (Hup : time_is_up plan (env_now (st_trace s)) op = (d * Second <=? env_now (st_trace s) - t0)).
    { unfold time_is_up. rewrite Hts, Hleft, Hmax. apply eq_true_iff_eq. rewrite andb_true_iff, Z.ltb_lt, !Z.leb_le.
      unfold Second in *. lia. }
    split; intros Htime.
    + split; [done|]. intros Hsel. eapply (poll_asks ii); try done. rewrite Hup. apply Z.leb_gt. lia.
    + eapply (poll_expired ii); try done. rewrite Hup. by apply Z.leb_le.
  - intros ->. assert (Hneg : planMaxPollingDuration plan < 0) by (unfold planMaxPollingDuration; by rewrite Hd; vm_compute).
    split; [done|]. intros Hsel. eapply (poll_asks ii); try done. unfold time_is_up.
    destruct (Z.ltb_spec 0 (planMaxPollingDuration plan)); [lia|done].
Qed.

(** Nothing is deleted at the broker while something depends on it: with bindings left,
    or, for a shared instance, references that the storage returns, the deletion only reads
    and fails with a client error that names them. *)
Theorem deletion_guarded instance s s' r n refs :
  deleteSingleInstance ii instance s = (s', r) ->
  env_count_bindings (st_trace s) (si_ID instance) = Ok n ->
  env_references (st_trace s ++ [EvRead ServiceBindingType (si_ID instance)]) (si_ID instance) = Ok refs ->
  (0 < n \/ (IsShared instance = true /\ refs <> [])) ->
  (exists t, st_trace s' = st_trace s ++ t /\ Forall is_read t) /\ st_op s' = st_op s /\
  exists descr, r = Err (EHTTP "BadRequest" descr 400).
Proof.
  intros Hr Hn Hrefs Hwhy. unfold deleteSingleInstance in Hr.
  apply r_bind_inv in Hr as [(n' & s1 & H1 & Hr)|(r0 & H1 & Hf)]; apply or_fail_inv in H1 as (r1 & H1 & Hr1);
    apply read_inv in H1 as (Ha & Ht1 & Ho1); rewrite Hn in Ha; subst; [|done].
  simplify_eq/=. rewrite <- Ht1 in Hrefs.
  apply r_bind_inv in Hr as [(rs & s2 & H2 & Hr)|(r0 & H2 & Hf)].
  - assert (exists t, st_trace s2 = st_trace s1 ++ t /\ Forall is_read t /\ st_op s2 = st_op s1 /\
              (IsShared instance = true -> rs = inl refs)) as (t & Ht & Hf & Ho & Hrs).
    { destruct (IsShared instance); [|injection H2 as <- <-; exists []; rewrite app_nil_r; by repeat split].
      apply r_try_inv in H2 as (r1 & H2 & Hr1). apply or_fail_inv in H2 as (r2 & H2 & Hr2).
      apply read_inv in H2 as (Ha & Ht2 & Ho2). rewrite Hrefs in Ha. subst. simplify_eq/=.
      eexists. split; [done|]. split; [by repeat constructor|]. by split. }
    assert (Hend : (exists descr, r = Err (EHTTP "BadRequest" descr 400)) /\ s' = s2).
    { destruct (Nat.ltb_spec 0 (length (match rs with inl l => si_ID <$> l | inr _ => [] end))) as [Hl|Hl];
        [injection Hr as <- <-; split; [by eexists|done]|].
      destruct (Z.ltb_spec 0 n) as [Hz|Hz]; [injection Hr as <- <-; split; [by eexists|done]|].
      destruct Hwhy as [?|[Hsh Hne]]; [lia|]. rewrite (Hrs Hsh) in Hl. rewrite length_fmap in Hl.
      destruct refs; simpl in Hl; [done|lia]. }
    destruct Hend as [? ->]. split; [|split; [congruence|done]]. exists ([EvRead ServiceBindingType (si_ID instance)] ++ t).
    split; [by rewrite Ht, Ht1, app_assoc|]. apply Forall_app. split; [by repeat constructor|done].
  - exfalso. destruct (IsShared instance); [|injection H2 as <- <-; done].
    apply r_try_inv in H2 as (r1 & H2 & Hr1). apply or_fail_inv in H2 as (r2 & H2 & Hr2).
    apply read_inv in H2 as (Ha & _). rewrite Hrefs in Ha. by subst.
Qed.

(** Orphan mitigation of a failed creation does not end with 410 Gone.  For an operation
    of type CREATE that is rescheduled, under a plan without a time limit, a broker that
    answers every poll with 410 Gone makes polling fail and leaves the operation untouched,
    still rescheduled: the next run polls again, to the same end. *)
Theorem gone_never_ends_create instance plan sid pid mitigate s s' r op :
  st_op s = Some op -> Type_ op = CREATE -> Reschedule op = true -> planMaxPollingDuration plan <= 0 ->
  0 < ii_pollingInterval ii -> (0 < fst (env_select (st_trace s)))%nat ->
  (forall t req, exists text, osb_poll t req = inr (HTTPStatusCodeError 410 text)) ->
  pollServiceInstance ii instance plan sid pid mitigate s = (s', r) ->
  (exists descr, r = Err (BrokerError descr)) /\ st_op s' = Some op.
Proof.
  intros Hop HT HR Hmax Hint Hsel Hgone Hr. unfold pollServiceInstance, poll_broker, r_bind, op_read in Hr.
  rewrite Hop in Hr. simpl in Hr. rewrite Hop in Hr. simpl in Hr. unfold leftPollingDuration in Hr.
  destruct (Z.ltb_spec 0 (planMaxPollingDuration plan)); [lia|]. simpl in Hr.
  unfold NewTicker in Hr. destruct (Z.leb_spec (ii_pollingInterval ii) 0); [lia|]. simpl in Hr.
  destruct (env_select (st_trace s)) as [[|n] last]; simpl in Hsel; [lia|]. simpl in Hr.
  unfold r_bind at 1, poll_instance_tick, r_bind at 1, call in Hr. cbv beta iota zeta in Hr.
  match type of Hr with context [osb_poll ?t ?q] => destruct (Hgone t q) as [text Hp]; rewrite Hp in Hr end.
  unfold r_bind, op_read in Hr. simpl in Hr. rewrite Hop in Hr. simpl in Hr. rewrite HT in Hr.
  rewrite bool_decide_eq_false_2 in Hr by done. simpl in Hr. injection Hr as <- <-. split; [by eexists|done].
Qed.

(** Updating an instance whose [Shared] field is set, or a reference, never reaches the
    broker and drops the label changes: the rest of the chain is called once, with the
    object and no label changes, whatever changes were asked for. *)
Theorem sharing_update_drops_labels u changes s s' r op :
  si_PlatformID u = SMPlatform -> st_op s = Some op ->
  is_Some (si_Shared u) \/ si_ReferencedInstanceID u <> ""%string ->
  AroundTxUpdate_instance ii next_update u changes s = (s', r) ->
  st_trace s' = st_trace s ++ [EvNextUpdate (Some u) []] /\ r = env_next_update (st_trace s) (Some u) [].
Proof.
  intros Hp Hop Hsh Hr. unfold AroundTxUpdate_instance in Hr. rewrite Hp in Hr. simpl in Hr.
  unfold r_bind, opcontext_Get in Hr. rewrite Hop in Hr. cbv beta iota zeta in Hr.
  assert (Hb : bool_decide (is_Some (si_Shared u)) || negb (String.eqb (si_ReferencedInstanceID u) "") = true).
  { destruct Hsh as [Hs|Hs]; [by rewrite bool_decide_eq_true_2|].
    apply String.eqb_neq in Hs. by rewrite Hs, orb_true_r. }
  rewrite Hb in Hr. apply storage_call_inv in Hr as (-> & Ht & _). by rewrite Ht.
Qed.
End Theorems.

(** ** Concrete runs of the broker interceptors *)
Local Open Scope string_scope.
Definition no_base (id : string) : Base :=
  {| base_ID := id; base_CreatedAt := 0; base_UpdatedAt := 0; base_Labels := ∅; base_PagingSequence := 0;
     base_Ready := true; base_LastOperation := None |}.
Definition sample_plan (max : Z) : ServicePlan :=
  {| sp_Base := no_base "plan"; sp_Name := "small"; sp_Description := ""; sp_CatalogID := "cat-plan";
     sp_CatalogName := "small"; sp_Free := None; sp_Bindable := None; sp_PlanUpdatable := None; sp_Metadata := "";
     sp_Schemas := ""; sp_MaximumPollingDuration := max; sp_MaintenanceInfo := ""; sp_ServiceOfferingID := "offering" |}.
Definition sample_offering : ServiceOffering :=
  {| so_Base := no_base "offering"; so_Name := "db"; so_Description := ""; so_Bindable := true;
     so_InstancesRetrievable := false; so_BindingsRetrievable := true; so_PlanUpdatable := false;
     so_AllowContextUpdates := false; so_Tags := ""; so_Requires := ""; so_Metadata := ""; so_BrokerID := "broker";
     so_CatalogID := "cat-offering"; so_CatalogName := "db" |}.
Definition sample_broker : ServiceBroker :=
  {| br_Base := no_base "broker"; br_Name := "broker"; br_Description := ""; br_BrokerURL := "https://broker";
     br_Credentials := Some {| Basic_ := Some {| Username := "u"; Password := "p" |}; TLS_ := None; cred_Integrity := "" |};
     br_Catalog := "" |}.
Definition sample_instance (shared : option bool) : ServiceInstance :=
  {| si_Base := no_base "instance"; si_Name := "my-db"; si_ServicePlanID := "plan"; si_ReferencedInstanceID := "";
     si_PlatformID := SMPlatform; si_DashboardURL := ""; si_MaintenanceInfo := ""; si_Context := "";
     si_UpdateValues := (None, []); si_PreviousValues := ""; si_Parameters := ∅; si_Usable := true; si_Shared := shared |}.

Definition sample_context : OperationContext :=
  {| Async := false; IsAsyncNotDefined := false; Cascade := false; ServicePlanID := ""; ServiceInstanceID := "";
     UserInfo_ := None; OperationTypes.Params := ∅ |}.
Definition sample_operation (ty : OperationCategory) (resched : bool) : Operation :=
  {| ID := "op"; CreatedAt := 0; Labels_ := ∅; Ready := true; Description_ := ""; Type_ := ty; State := IN_PROGRESS;
     ResourceID := "instance"; TransitiveResources := []; ResourceType := ServiceInstanceType; Errors_ := None;
     PlatformID := SMPlatform; CorrelationID := ""; ExternalID := ""; ParentID := ""; CascadeRootID := "";
     Context_ := Some sample_context; Reschedule := resched;
     RescheduleTimestamp := if resched then Some 0 else None; DeletionScheduled := None |}.

Definition accepted : BrokerResponse :=
  {| resp_Async := true; resp_DashboardURL := None; resp_OperationKey := Some "key" |}.
Definition done_at_once : BrokerResponse :=
  {| resp_Async := false; resp_DashboardURL := None; resp_OperationKey := None |}.
Definition succeeded : LastOperationResponse := {| lr_State := StateSucceeded; lr_Description := None |}.
Definition no_details : bindResponseDetails :=
  {| bd_Credentials := ∅; bd_SyslogDrainURL := None; bd_RouteServiceURL := None; bd_VolumeMounts := [] |}.

(** JSON functions that keep texts as they are. *)
#[export] Instance sample_json : JSONText :=
  {| json_marshal := fun _ => Ok "{}"; json_marshal_array := fun _ => Ok "[]"; json_unmarshal := fun _ => Ok ∅;
     sjson_set := fun s _ _ => Ok s; sjson_delete := fun s _ => Ok s; gjson_string := fun _ _ => "" |}.

(** A world in which everything works: the answers to requests and polls, the plan's limit,
    the time and the number of bindings are chosen. *)
Definition sample_env (request_answer : BrokerResponse + osb_error) (poll_answer : LastOperationResponse + osb_error)
    (max now bindings : Z) : SmaapEnv :=
  {| env_plan := fun _ _ => Ok (sample_plan max); env_offering := fun _ _ => Ok sample_offering;
     env_broker := fun _ _ => Ok sample_broker; env_instance := fun _ _ => Ok (sample_instance None);
     env_last_operation := fun _ _ => Err ENotFoundInStorage;
     env_instances := fun _ _ => Ok [sample_instance None]; env_bindings := fun _ _ => Ok [];
     env_references := fun _ _ => Ok []; env_count_bindings := fun _ _ => Ok bindings;
     env_store_operation := fun _ _ => Ok tt; env_raw_update := fun _ i => Ok i; env_raw_delete := fun _ _ _ => Ok tt;
     env_transitive := fun _ => []; env_next_create := fun _ i => Ok i;
     env_next_update := fun _ i _ => match i with Some i => Ok i | None => Panic "nil" end;
     env_next_delete := fun _ _ _ => Ok tt; env_next_create_binding := fun _ b => Ok b;
     osb_client := fun _ _ _ => Ok tt; osb_provision := fun _ _ => request_answer; osb_update := fun _ _ => request_answer;
     osb_deprovision := fun _ _ => request_answer; osb_poll := fun _ _ => poll_answer;
     osb_bind := fun _ _ => inl {| bs_Async := false; bs_OperationKey := None; bs_Details := no_details |};
     osb_unbind := fun _ _ => request_answer; osb_get_binding := fun _ _ _ => inl no_details;
     env_now := fun _ => now; env_select := fun _ => (3%nat, ContextDone);
     env_json := sample_json;
     fmt_map := fun _ => "map[]"; env_signing := {| rsa_sign := fun _ s => Ok s |} |}.
Definition sample_tls : TLSSettings := {| x509_key_pair := fun _ _ => None; server_certificate := "" |}.
Definition sample_ii : ServiceInstanceInterceptor :=
  {| ii_tenantKey := ""; ii_pollingInterval := Second; ii_ContextPrivateKey := "" |}.
Definition start (op : Operation) : run_state := {| st_trace := []; st_op := Some op |}.

(** An asynchronous provisioning: stored, passed on, polled and finished. *)
Definition async_env : SmaapEnv := sample_env (inl accepted) (inl succeeded) 0 0 0.


(** Polling that succeeds. *)
Definition poll_start : run_state := start (sample_operation CREATE true).
Definition poll_run : run_state * result unit :=
  @pollServiceInstance async_env sample_ii (sample_instance None) (sample_plan 0) "s" "p" true poll_start.
Lemma poll_outcomes_witness :
  snd poll_run = Ok tt /\ no_panic (snd poll_run) /\
  exists t op', st_trace (fst poll_run) = t /\ st_op (fst poll_run) = Some op' /\
    poll_ended (@instance_poll_request async_env (sample_instance None) (sample_operation CREATE true) "s" "p")
      (sample_operation CREATE true) true false (3%nat, ContextDone) t op' (snd poll_run).
Proof.
  split; [by vm_compute|].
  apply (@poll_outcomes async_env sample_ii (sample_instance None) (sample_plan 0) "s" "p" true poll_start
    (fst poll_run) (snd poll_run) (sample_operation CREATE true)); [by vm_compute|done| |done].
  unfold poll_run. by destruct (pollServiceInstance _ _ _ _ _ _).
Defined.

(** A deletion the broker finishes at once. *)
Definition sync_env : SmaapEnv := sample_env (inl done_at_once) (inl succeeded) 0 0 0.
Definition delete_run : run_state * result unit :=
  @AroundTxDelete_instance sync_env sample_tls sample_ii (@next_delete sync_env ServiceInstanceType) []
    (start (sample_operation DELETE false)).
Lemma deletion_confirmed_witness :
  snd delete_run = Ok tt /\ last (st_trace (fst delete_run)) = Some (EvNextDelete ServiceInstanceType) /\
  exists t op', st_op (fst delete_run) = Some op' /\ no_removal t /\
    ((st_trace (fst delete_run) = t /\
      (Reschedule op' = true \/ (State (sample_operation DELETE false) = FAILED /\ DeletionScheduled op' = None))) \/
     (st_trace (fst delete_run) = (t ++ [EvNextDelete ServiceInstanceType])%list /\
      ((@env_instances sync_env [] [] = Ok [] /\ ~ orphan_plan (sample_operation DELETE false)) \/
       (exists i, @env_instances sync_env [] [] = Ok [i] /\ si_ReferencedInstanceID i <> "") \/
       exists e, e ∈ t /\ confirms DELETE e = true))).
Proof.
  split; [by vm_compute|]. split; [by vm_compute|].
  apply (@deletion_confirmed sync_env sample_tls sample_ii [] (start (sample_operation DELETE false))
    (fst delete_run) (sample_operation DELETE false)); [|done|done]. by vm_compute.
Defined.

(** The limit of a plan of 60 seconds, 100 seconds after the first reschedule. *)
Definition late_env : SmaapEnv := sample_env (inl accepted) (inl succeeded) 60 (100 * Second) 0.
Definition late_run : run_state * result unit :=
  @pollServiceInstance late_env sample_ii (sample_instance None) (sample_plan 60) "s" "p" true poll_start.
Lemma polling_deadline_witness :
  exists deletion ans op' e,
    st_trace (fst late_run) = [EvStoreOperation (ended_operation (sample_operation CREATE true) deletion) ans] /\
    (true = true -> is_Some deletion) /\ snd late_run = Err e /\ st_op (fst late_run) = Some op' /\
    same_operation (ended_operation (sample_operation CREATE true) deletion) op'.
Proof.
  eapply (proj2 (proj1 (@polling_deadline late_env sample_ii (sample_instance None) (sample_plan 60) "s" "p" true poll_start
    (fst late_run) (snd late_run) (sample_operation CREATE true) 60 0 ltac:(by vm_compute) ltac:(done) eq_refl ltac:(lia) eq_refl
    eq_refl ltac:(vm_compute; split; discriminate)
    ltac:(unfold late_run; by destruct (pollServiceInstance _ _ _ _ _ _))) ltac:(lia))); by vm_compute.
Defined.

(** Two bindings keep an instance. *)
Definition bound_env : SmaapEnv := sample_env (inl done_at_once) (inl succeeded) 0 0 2.
Definition guarded_run : run_state * result unit :=
  @deleteSingleInstance bound_env sample_tls sample_ii (sample_instance None) (start (sample_operation DELETE false)).
Lemma deletion_guarded_witness :
  (exists t, st_trace (fst guarded_run) = t /\ Forall is_read t) /\
  st_op (fst guarded_run) = Some (sample_operation DELETE false) /\
  exists descr, snd guarded_run = Err (EHTTP "BadRequest" descr 400).
Proof.
  apply (@deletion_guarded bound_env sample_tls sample_ii (sample_instance None) (start (sample_operation DELETE false))
    (fst guarded_run) (snd guarded_run) 2 []); [|done|done|left; lia].
  unfold guarded_run. by destruct (deleteSingleInstance _ _ _).
Defined.

(** Orphan mitigation of a creation at a broker that has nothing left. *)
Definition gone_env : SmaapEnv := sample_env (inl accepted) (inr (HTTPStatusCodeError 410 "gone")) 0 0 0.
Definition gone_run : run_state * result unit :=
  @pollServiceInstance gone_env sample_ii (sample_instance None) (sample_plan 0) "s" "p" true poll_start.
Lemma gone_never_ends_create_witness :
  (exists descr, snd gone_run = Err (BrokerError descr)) /\ st_op (fst gone_run) = Some (sample_operation CREATE true).
Proof.
  eapply (@gone_never_ends_create gone_env sample_ii (sample_instance None) (sample_plan 0) "s" "p" true poll_start
    (fst gone_run) (snd gone_run) (sample_operation CREATE true)); [done|done|done|by vm_compute|by vm_compute|simpl; lia|by eexists|].
  unfold gone_run. by destruct (pollServiceInstance _ _ _ _ _ _).
Defined.

(** A label change of an instance that is not shared any more. *)
Definition label_change : LabelChange := {| lc_Operation := AddLabelOperation; lc_Key := "k"; lc_Values := ["v"] |}.
Definition sharing_run : run_state * result ServiceInstance :=
  @AroundTxUpdate_instance sync_env sample_tls sample_ii (@next_update sync_env) (sample_instance (Some false)) [label_change]
    (start (sample_operation UPDATE false)).
Lemma sharing_update_drops_labels_witness :
  st_trace (fst sharing_run) = [EvNextUpdate (Some (sample_instance (Some false))) []] /\
  snd sharing_run = Ok (sample_instance (Some false)).
Proof.
  apply (@sharing_update_drops_labels sync_env sample_tls sample_ii (sample_instance (Some false)) [label_change]
    (start (sample_operation UPDATE false)) (fst sharing_run) (snd sharing_run) (sample_operation UPDATE false));
    [done|done|left; by eexists|].
  unfold sharing_run. by destruct (AroundTxUpdate_instance _ _ _ _).
Defined.
