(* ===== verification/Encryption.v ===== *)
(** * Secrets and integrity of stored objects

    The transformation of the secrets of an object (pkg/types: brokers, platforms, bindings,
    broker platform credentials), AES encryption (pkg/security/encrypter.go), integrity
    (pkg/security/integrity.go), and the two repository decorators
    storage/encrypting_repository.go and storage/integrity_repository.go.

    Objects are passed by pointer and changed in place: an operation that takes an object also
    returns what the caller's object has become.  Random bytes come from a numbered
    sequence of reads; the state of a repository is its database and the number of reads made.
    AES-GCM and the hash are parameters. *)

From S2P Require Import Prelude GoStd Errors Query Labels OperationTypes DomainTypes.
From stdpp Require Import base gmap strings list pretty.
From Stdlib Require Import ZArith.
Local Open Scope string_scope.

(** ** The encrypter *)

(** [io.ReadFull(rand.Reader, nonce)], [gcm.Seal] and [gcm.Open] for a key and a nonce. *)
Class Crypto := {
  random : nat -> result string;
  gcm_seal : string -> string -> string -> string;
  gcm_open : string -> string -> string -> option string
}.
Definition NonceSize : nat := 12.

Class CryptoLaws `{Crypto} := {
  random_length n s : random n = Ok s -> String.length s = NonceSize;
  open_seal k nonce p : gcm_open k nonce (gcm_seal k nonce p) = Some p
}.

Definition aes_key (key : string) : bool :=
  Nat.eqb (String.length key) 16 || Nat.eqb (String.length key) 24 || Nat.eqb (String.length key) 32.
Definition aes_error (key : string) : error :=
  EPlain ("crypto/aes: invalid key size " ++ pretty (Z.of_nat (String.length key))).

(** A transformation of bytes: it may read random bytes. *)
Notation byte_transform := (string -> nat -> nat * result string).

Class Encrypter := {
  Encrypt : string -> string -> nat -> nat * result string;
  Decrypt : string -> string -> result string
}.
(** What the repository relies on: a secret comes back, and its encryption is not empty. *)
Class EncrypterLaws `{Encrypter} := {
  decrypt_encrypt p k n n' c : Encrypt p k n = (n', Ok c) -> Decrypt c k = Ok p /\ c <> ""
}.

Section AES.
Context `{Crypto}.

Definition AES_Encrypt (plaintext key : string) (n : nat) : nat * result string :=
  if negb (aes_key key) then (n, Err (aes_error key))
  else match random n with
       | Ok nonce => (S n, Ok (nonce ++ gcm_seal key nonce plaintext))
       | Err e => (S n, Err e)
       | Panic m => (S n, Panic m)
       end.
Definition AES_Decrypt (ciphertext key : string) : result string :=
  if negb (aes_key key) then Err (aes_error key)
  else if Nat.ltb (String.length ciphertext) NonceSize then Err (EPlain "malformed ciphertext")
  else match gcm_open key (String.substring 0 NonceSize ciphertext)
               (String.substring NonceSize (String.length ciphertext - NonceSize) ciphertext) with
       | Some p => Ok p
       | None => Err (EPlain "cipher: message authentication failed")
       end.
#[global] Instance AESEncrypter : Encrypter := {| Encrypt := AES_Encrypt; Decrypt := AES_Decrypt |}.
End AES.

(** ** Objects and their secrets *)
Inductive object :=
  | OBroker (b : ServiceBroker)
  | OPlatform (p : Platform)
  | OBinding (b : ServiceBinding)
  | OCredential (c : BrokerPlatformCredential)
  | OPlain (objectType id data : string).

Definition GetType (o : object) : string :=
  match o with
  | OBroker _ => "/v1/service_brokers" | OPlatform _ => "/v1/platforms"
  | OBinding _ => "/v1/service_bindings" | OCredential _ => "/v1/credentials"
  | OPlain t _ _ => t
  end.
Definition GetID (o : object) : string :=
  match o with
  | OBroker b => base_ID (br_Base b) | OPlatform p => base_ID (pl_Base p)
  | OBinding b => base_ID (sb_Base b) | OCredential c => base_ID (bpc_Base c)
  | OPlain _ id _ => id
  end.

Definition set_Password (b : Basic) (p : string) : Basic := {| Username := Username b; Password := p |}.
Definition set_Key (t : TLS) (k : string) : TLS :=
  {| Certificate := Certificate t; Key_ := k; SMProvidedCredentials := SMProvidedCredentials t |}.
Definition set_credentials (c : Credentials) (b : option Basic) (t : option TLS) : Credentials :=
  {| Basic_ := b; TLS_ := t; cred_Integrity := cred_Integrity c |}.
Definition set_br_Credentials (e : ServiceBroker) (c : option Credentials) : ServiceBroker :=
  {| br_Base := br_Base e; br_Name := br_Name e; br_Description := br_Description e;
     br_BrokerURL := br_BrokerURL e; br_Credentials := c; br_Catalog := br_Catalog e |}.
Definition set_pl_Credentials (e : Platform) (c old : option Credentials) (integrity : string) : Platform :=
  {| pl_Base := pl_Base e; pl_Type := pl_Type e; pl_Name := pl_Name e; pl_Description := pl_Description e;
     pl_Credentials := c; pl_OldCredentials := old; pl_Version := pl_Version e; pl_Active := pl_Active e;
     pl_Suspended := pl_Suspended e; pl_LastActive := pl_LastActive e; pl_Integrity := integrity;
     pl_CredentialsActive := pl_CredentialsActive e; pl_Technical := pl_Technical e |}.
Definition set_bpc (e : BrokerPlatformCredential) (hash old integrity : string) : BrokerPlatformCredential :=
  {| bpc_Base := bpc_Base e; bpc_Username := bpc_Username e; bpc_PasswordHash := hash;
     bpc_OldUsername := bpc_OldUsername e; bpc_OldPasswordHash := old; bpc_PlatformID := bpc_PlatformID e;
     bpc_BrokerID := bpc_BrokerID e; bpc_NotificationID := bpc_NotificationID e; bpc_Integrity := integrity;
     bpc_Active := bpc_Active e |}.

(** A field replaced by its transformation: the object stays as it is when that fails. *)
Definition transform_field {O} (f : byte_transform) (v : string) (set : string -> O) (o : O) (n : nat)
    : nat * O * result unit :=
  match f v n with
  | (n', Ok v') => (n', set v', Ok tt)
  | (n', Err e) => (n', o, Err e)
  | (n', Panic m) => (n', o, Panic m)
  end.
(** Two fields, one after the other; without an error in the first the second follows. *)
Definition then_field {O} (r : nat * O * result unit) (k : O -> nat -> nat * O * result unit)
    : nat * O * result unit :=
  match r with
  | (n, o, Ok _) => k o n
  | _ => r
  end.

Definition broker_password (e : ServiceBroker) : option Basic := br_Credentials e ≫= Basic_.
Definition broker_key (e : ServiceBroker) : option TLS :=
  match br_Credentials e ≫= TLS_ with
  | Some t => if String.eqb (Key_ t) "" then None else Some t
  | None => None
  end.
Definition update_br_Basic (e : ServiceBroker) (b : Basic) : ServiceBroker :=
  set_br_Credentials e ((fun c => set_credentials c (Some b) (TLS_ c)) <$> br_Credentials e).
Definition update_br_TLS (e : ServiceBroker) (t : TLS) : ServiceBroker :=
  set_br_Credentials e ((fun c => set_credentials c (Basic_ c) (Some t)) <$> br_Credentials e).
Definition ServiceBroker_transform (f : byte_transform) (e : ServiceBroker) (n : nat)
    : nat * ServiceBroker * result unit :=
  then_field
    (match broker_password e with
     | Some b => transform_field f (Password b) (fun p => update_br_Basic e (set_Password b p)) e n
     | None => (n, e, Ok tt)
     end)
    (fun e n =>
     match broker_key e with
     | Some t => transform_field f (Key_ t) (fun k => update_br_TLS e (set_Key t k)) e n
     | None => (n, e, Ok tt)
     end).

Definition update_Basic (c : option Credentials) (b : Basic) : option Credentials :=
  (fun c => set_credentials c (Some b) (TLS_ c)) <$> c.
Definition Platform_transform (f : byte_transform) (e : Platform) (n : nat) : nat * Platform * result unit :=
  then_field
    (match pl_Credentials e ≫= Basic_ with
     | Some b => transform_field f (Password b)
         (fun p => set_pl_Credentials e (update_Basic (pl_Credentials e) (set_Password b p)) (pl_OldCredentials e) (pl_Integrity e)) e n
     | None => (n, e, Ok tt)
     end)
    (fun e n =>
     match pl_OldCredentials e ≫= Basic_ with
     | Some b => transform_field f (Password b)
         (fun p => set_pl_Credentials e (pl_Credentials e) (update_Basic (pl_OldCredentials e) (set_Password b p)) (pl_Integrity e)) e n
     | None => (n, e, Ok tt)
     end).
(** [Encrypt] and [Decrypt] of a platform skip a technical one. *)
Definition Platform_crypt (f : byte_transform) (e : Platform) (n : nat) : nat * Platform * result unit :=
  if pl_Technical e then (n, e, Ok tt) else Platform_transform f e n.

Definition ServiceBinding_transform (f : byte_transform) (e : ServiceBinding) (n : nat)
    : nat * ServiceBinding * result unit :=
  if Nat.eqb (String.length (sb_Credentials e)) 0 then (n, e, Ok tt)
  else transform_field f (sb_Credentials e) (set_sb_Credentials e) e n.

Definition BrokerPlatformCredential_transform (f : byte_transform) (e : BrokerPlatformCredential) (n : nat)
    : nat * BrokerPlatformCredential * result unit :=
  then_field
    (transform_field f (bpc_PasswordHash e) (fun p => set_bpc e p (bpc_OldPasswordHash e) (bpc_Integrity e)) e n)
    (fun e n =>
     if String.eqb (bpc_OldPasswordHash e) "" then (n, e, Ok tt)
     else transform_field f (bpc_OldPasswordHash e) (fun p => set_bpc e (bpc_PasswordHash e) p (bpc_Integrity e)) e n).

Definition lift_object {O} (inject : O -> object) (r : nat * O * result unit) : nat * object * result unit :=
  let '(n, o, x) := r in (n, inject o, x).
(** [encrypt] and [decrypt] of the repository: objects that are not secured stay. *)
Definition crypt (f : byte_transform) (o : object) (n : nat) : nat * object * result unit :=
  match o with
  | OBroker b => lift_object OBroker (ServiceBroker_transform f b n)
  | OPlatform p => lift_object OPlatform (Platform_crypt f p n)
  | OBinding b => lift_object OBinding (ServiceBinding_transform f b n)
  | OCredential c => lift_object OCredential (BrokerPlatformCredential_transform f c n)
  | OPlain _ _ _ => (n, o, Ok tt)
  end.

(** ** Integrity *)
Definition basic_pair (b : option Basic) : list string :=
  match b with
  | Some b => if negb (String.eqb (Username b) "") && negb (String.eqb (Password b) "")
              then [Username b; Password b] else []
  | None => []
  end.
Definition tls_pair (t : option TLS) : list string :=
  match t with
  | Some t => if negb (String.eqb (Certificate t) "") && negb (String.eqb (Key_ t) "")
              then [Certificate t; Key_ t] else []
  | None => []
  end.
Definition broker_IntegralData (e : ServiceBroker) : result string :=
  match br_Credentials e with
  | None => Panic nil_credentials
  | Some c => Ok (Strings.join ":" (tls_pair (TLS_ c) ++ basic_pair (Basic_ c) ++ [br_BrokerURL e])%list)
  end.
Definition platform_IntegralData (e : Platform) : result string :=
  if pl_Technical e then Ok ""
  else
    let oldCredentials := match pl_OldCredentials e ≫= Basic_ with
                          | Some b => ":" ++ Username b ++ ":" ++ Password b
                          | None => ""
                          end in
    match pl_Credentials e with
    | None => Ok ""
    | Some c => match Basic_ c with
                | None => Panic nil_credentials
                | Some b => Ok (Username b ++ ":" ++ Password b ++ oldCredentials)
                end
    end.
Definition bpc_IntegralData (e : BrokerPlatformCredential) : string :=
  Strings.join ":" [bpc_Username e; bpc_PasswordHash e; bpc_OldUsername e; bpc_OldPasswordHash e; bpc_BrokerID e;
                    bpc_PlatformID e].

(** [None]: the object is not integral. *)
Definition IntegralData (o : object) : option (result string) :=
  match o with
  | OBroker b => Some (broker_IntegralData b)
  | OPlatform p => Some (platform_IntegralData p)
  | OBinding b => Some (Ok (sb_Credentials b))
  | OCredential c => Some (Ok (bpc_IntegralData c))
  | OPlain _ _ _ => None
  end.
Definition GetIntegrity (o : object) : string :=
  match o with
  | OBroker b => match br_Credentials b with Some c => cred_Integrity c | None => "" end
  | OPlatform p => pl_Integrity p
  | OBinding b => sb_Integrity b
  | OCredential c => bpc_Integrity c
  | OPlain _ _ _ => ""
  end.
Definition SetIntegrity (o : object) (v : string) : object :=
  match o with
  | OBroker b => OBroker (set_br_Credentials b
      ((fun c => {| Basic_ := Basic_ c; TLS_ := TLS_ c; cred_Integrity := v |}) <$> br_Credentials b))
  | OPlatform p => OPlatform (set_pl_Credentials p (pl_Credentials p) (pl_OldCredentials p) v)
  | OBinding b => OBinding (set_sb_Integrity b v)
  | OCredential c => OCredential (set_bpc c (bpc_PasswordHash c) (bpc_OldPasswordHash c) v)
  | OPlain _ _ _ => o
  end.

Section Integrity.
Variable HashingFunc : string -> string.

Definition CalculateIntegrity (data : string) : string :=
  if String.eqb data "" then "" else HashingFunc data.
Definition ValidateIntegrity (data integrity : string) : bool :=
  if String.eqb data "" then true else String.eqb (HashingFunc data) integrity.

Definition setIntegrity (o : object) : result object :=
  match IntegralData o with
  | None => Ok o
  | Some data => let* data := data in Ok (SetIntegrity o (CalculateIntegrity data))
  end.
Definition validateIntegrity (o : object) : result unit :=
  match IntegralData o with
  | None => Ok tt
  | Some data =>
      let* data := data in
      guard_err (negb (ValidateIntegrity data (GetIntegrity o)))
        (EPlain ("invalid integrity for " ++ GetType o ++ " with ID " ++ GetID o))
  end.
End Integrity.

(** ** Repositories and their decorators *)
Notation criteria := (list Query.Criteria.Criterion).

(** The state: database and number of random reads. *)
Section Decorators.
Context {DB : Type}.
Definition rstate : Type := DB * nat.

Record ObjectRepository := {
  repo_Create : object -> rstate -> rstate * object * result object;
  repo_Get : string -> criteria -> rstate -> rstate * result object;
  repo_GetForUpdate : string -> criteria -> rstate -> rstate * result object;
  repo_List : string -> criteria -> rstate -> rstate * result (list object);
  repo_ListNoLabels : string -> criteria -> rstate -> rstate * result (list object);
  repo_QueryForList : string -> string -> rstate -> rstate * result (list object);
  repo_Count : string -> criteria -> rstate -> rstate * result Z;
  repo_CountLabelValues : string -> criteria -> rstate -> rstate * result Z;
  repo_Update : object -> list LabelChange -> criteria -> rstate -> rstate * object * result object;
  repo_UpdateLabels : string -> string -> list LabelChange -> criteria -> rstate -> rstate * result unit;
  repo_DeleteReturning : string -> criteria -> rstate -> rstate * result (list object);
  repo_Delete : string -> criteria -> rstate -> rstate * result unit
}.

Section Encrypting.
Context `{Encrypter}.
Variables (key : string) (next : ObjectRepository).

Definition encrypt (o : object) (s : rstate) : rstate * object * result unit :=
  let '(n, o', r) := crypt (fun p n => Encrypt p key n) o (snd s) in ((fst s, n), o', r).
Definition decrypt (o : object) (s : rstate) : rstate * object * result unit :=
  let '(n, o', r) := crypt (fun c n => (n, Decrypt c key)) o (snd s) in ((fst s, n), o', r).

(** The result of the repository below, decrypted. *)
Definition decrypt_result (sr : rstate * result object) : rstate * result object :=
  let '(s, r) := sr in
  match r with
  | Ok o => let '(s', o', d) := decrypt o s in
            (s', match d with Ok _ => Ok o' | Err e => Err e | Panic m => Panic m end)
  | _ => (s, r)
  end.
Fixpoint decrypt_items (l : list object) (s : rstate) : rstate * result (list object) :=
  match l with
  | [] => (s, Ok [])
  | o :: l' =>
      let '(s', o', d) := decrypt o s in
      match d with
      | Ok _ => let '(s'', r) := decrypt_items l' s' in (s'', let* l'' := r in Ok (o' :: l''))
      | Err e => (s', Err e)
      | Panic m => (s', Panic m)
      end
  end.
Definition decrypt_list (sr : rstate * result (list object)) : rstate * result (list object) :=
  let '(s, r) := sr in match r with Ok l => decrypt_items l s | _ => (s, r) end.

(** Encrypt in place, store, decrypt what came back. *)
Definition encrypt_and_store (o : object) (store : object -> rstate -> rstate * object * result object) (s : rstate)
    : rstate * object * result object :=
  let '(s1, o1, e) := encrypt o s in
  match e with
  | Ok _ => let '(s2, o2, r) := store o1 s1 in
            let '(s3, r') := decrypt_result (s2, r) in (s3, o2, r')
  | Err e => (s1, o1, Err e)
  | Panic m => (s1, o1, Panic m)
  end.

Definition encryptingRepository : ObjectRepository := {|
  repo_Create := fun o s => encrypt_and_store o (repo_Create next) s;
  repo_Get := fun t c s => decrypt_result (repo_Get next t c s);
  repo_GetForUpdate := fun t c s => decrypt_result (repo_Get next t c s);
  repo_List := fun t c s => decrypt_list (repo_List next t c s);
  repo_ListNoLabels := fun t c s => decrypt_list (repo_ListNoLabels next t c s);
  repo_QueryForList := fun t q s => decrypt_list (repo_QueryForList next t q s);
  repo_Count := repo_Count next;
  repo_CountLabelValues := repo_CountLabelValues next;
  repo_Update := fun o lc _ s => encrypt_and_store o (fun o => repo_Update next o lc []) s;
  repo_UpdateLabels := repo_UpdateLabels next;
  repo_DeleteReturning := fun t c s => decrypt_list (repo_DeleteReturning next t c s);
  repo_Delete := repo_Delete next
|}.
End Encrypting.

Section Integrity.
Variables (HashingFunc : string -> string) (next : ObjectRepository).

Definition validate_result (sr : rstate * result object) : rstate * result object :=
  let '(s, r) := sr in (s, let* o := r in validateIntegrity HashingFunc o ;;; Ok o).
Definition validate_list (sr : rstate * result (list object)) : rstate * result (list object) :=
  let '(s, r) := sr in (s, let* l := r in for_each (validateIntegrity HashingFunc) l ;;; Ok l).
Definition set_and_store (o : object) (store : object -> rstate -> rstate * object * result object) (s : rstate)
    : rstate * object * result object :=
  match setIntegrity HashingFunc o with
  | Ok o' => store o' s
  | Err e => (s, o, Err e)
  | Panic m => (s, o, Panic m)
  end.

Definition integrityRepository : ObjectRepository := {|
  repo_Create := fun o s => set_and_store o (repo_Create next) s;
  repo_Get := fun t c s => validate_result (repo_Get next t c s);
  repo_GetForUpdate := fun t c s => validate_result (repo_Get next t c s);
  repo_List := fun t c s => validate_list (repo_List next t c s);
  repo_ListNoLabels := fun t c s => validate_list (repo_ListNoLabels next t c s);
  repo_QueryForList := fun t q s => validate_list (repo_QueryForList next t q s);
  repo_Count := repo_Count next;
  repo_CountLabelValues := repo_CountLabelValues next;
  repo_Update := fun o lc c s => set_and_store o (fun o => repo_Update next o lc c) s;
  repo_UpdateLabels := repo_UpdateLabels next;
  repo_DeleteReturning := repo_DeleteReturning next;
  repo_Delete := repo_Delete next
|}.
End Integrity.
End Decorators.
Arguments ObjectRepository : clear implicits.
Arguments rstate : clear implicits.
