(* ===== verification/StorageEntities.v ===== *)
(** * Objects and the rows they are stored as (storage/postgres)

    The structs of the tables with the conversions in both directions, one file of
    storage/postgres each, behind the interface [PostgresEntity] that the storage uses; an object
    has the Go type of its entity, so the type assertions hold.  A nil
    slice of bytes and a nil JSON text are empty strings.  Columns come back from the database
    as they were written; a NULL comes back as the zero value that is not valid. *)

From S2P Require Import Prelude GoStd Errors Labels OperationTypes DomainTypes.
From stdpp Require Import base gmap strings list.
From Stdlib Require Import ZArith.
Local Open Scope string_scope.

(** ** abstract.go *)
Record NullString := { ns_String : string; ns_Valid : bool }.
Record NullBool := { nb_Bool : bool; nb_Valid : bool }.
Definition toNullString (s : string) : NullString := {| ns_String := s; ns_Valid := negb (String.eqb s "") |}.
Definition toNullBool (b : option bool) : NullBool :=
  match b with Some b => {| nb_Bool := b; nb_Valid := true |} | None => {| nb_Bool := false; nb_Valid := false |} end.
Definition toBoolPointer (n : NullBool) : option bool := if nb_Valid n then Some (nb_Bool n) else None.
Definition getJSONText (item : string) : string := if String.eqb item "null" then "{}" else item.
Definition getNullJSONText (item : string) : string * bool :=
  if String.eqb item "" || String.eqb item "null" then ("", false) else (getJSONText item, true).
Definition getJSONRawMessage (item : string) : string :=
  if String.eqb item "{}" || String.eqb item "null" then "" else item.
Definition getJSONRawMessageFromString (str : string) : string := str.
Definition getStringFromJSONRawMessage (message : string) : string := message.

(** ** base_entity.go *)
Record BaseEntity := { be_ID : string; be_CreatedAt : Z; be_UpdatedAt : Z; be_PagingSequence : Z; be_Ready : bool }.
Definition from_base (b : Base) : BaseEntity :=
  {| be_ID := base_ID b; be_CreatedAt := base_CreatedAt b; be_UpdatedAt := base_UpdatedAt b;
     be_PagingSequence := base_PagingSequence b; be_Ready := base_Ready b |}.
Definition to_base (e : BaseEntity) : Base :=
  {| base_ID := be_ID e; base_CreatedAt := be_CreatedAt e; base_UpdatedAt := be_UpdatedAt e; base_Labels := ∅;
     base_PagingSequence := be_PagingSequence e; base_Ready := be_Ready e; base_LastOperation := None |}.

(** ** The structs *)
Record VisibilityEntity := { ve_Base : BaseEntity; ve_PlatformID : NullString; ve_ServicePlanID : string }.
Record PlanEntity := {
  pe_Base : BaseEntity; pe_Name : string; pe_Description : string; pe_Free : bool; pe_Bindable : NullBool;
  pe_PlanUpdatable : NullBool; pe_CatalogID : string; pe_CatalogName : string; pe_Metadata : string; pe_Schemas : string;
  pe_MaximumPollingDuration : Z; pe_MaintenanceInfo : string; pe_ServiceOfferingID : string
}.
Record OfferingEntity := {
  oe_Base : BaseEntity; oe_Name : string; oe_Description : string; oe_Bindable : bool; oe_InstancesRetrievable : bool;
  oe_BindingsRetrievable : bool; oe_PlanUpdatable : bool; oe_AllowContextUpdates : bool; oe_CatalogID : string;
  oe_CatalogName : string; oe_Tags : string; oe_Requires : string; oe_Metadata : string; oe_BrokerID : string;
  oe_Plans : list PlanEntity
}.
Record BrokerEntity := {
  bre_Base : BaseEntity; bre_Name : string; bre_Description : NullString; bre_BrokerURL : string; bre_Username : string;
  bre_Password : string; bre_Integrity : string; bre_TlsClientKey : string; bre_TlsClientCertificate : string;
  bre_Catalog : string; bre_SMProvidedCredentials : bool; bre_Services : list OfferingEntity
}.
Record PlatformEntity := {
  ple_Base : BaseEntity; ple_Type : string; ple_Name : string; ple_Description : NullString; ple_Username : string;
  ple_OldUsername : string; ple_Password : string; ple_OldPassword : string; ple_Integrity : string; ple_Active : bool;
  ple_Suspended : bool; ple_CredentialsActive : bool; ple_LastActive : Z; ple_Technical : bool; ple_Version : NullString
}.
Record InstanceEntity := {
  ie_Base : BaseEntity; ie_Name : string; ie_ServicePlanID : string; ie_PlatformID : string; ie_ReferencedInstanceID : NullString;
  ie_DashboardURL : NullString; ie_MaintenanceInfo : string; ie_Context : string; ie_PreviousValues : string;
  ie_UpdateValues : string; ie_Usable : bool; ie_Shared : NullBool
}.
Record BindingEntity := {
  bie_Base : BaseEntity; bie_Name : string; bie_ServiceInstanceID : string; bie_SyslogDrainURL : NullString;
  bie_RouteServiceURL : NullString; bie_VolumeMounts : string * bool; bie_Endpoints : string * bool; bie_Context : string;
  bie_BindResource : string; bie_Credentials : string; bie_Integrity : string
}.
Record CredentialEntity := {
  ce_Base : BaseEntity; ce_Username : string; ce_PasswordHash : string; ce_OldUsername : string; ce_OldPasswordHash : string;
  ce_PlatformID : string; ce_BrokerID : string; ce_Integrity : string; ce_Active : bool
}.

(** ** visibility.go *)
Definition Visibility_FromObject (v : Visibility) : result VisibilityEntity :=
  Ok {| ve_Base := from_base (vi_Base v); ve_PlatformID := toNullString (vi_PlatformID v); ve_ServicePlanID := vi_ServicePlanID v |}.
Definition Visibility_ToObject (e : VisibilityEntity) : result Visibility :=
  Ok {| vi_Base := to_base (ve_Base e); vi_PlatformID := ns_String (ve_PlatformID e); vi_ServicePlanID := ve_ServicePlanID e |}.

(** ** service_plan.go *)
Definition ServicePlan_FromObject (plan : ServicePlan) : result PlanEntity :=
  Ok {| pe_Base := from_base (sp_Base plan); pe_Name := sp_Name plan; pe_Description := sp_Description plan;
        pe_Free := match sp_Free plan with None => true | Some free => free end;
        pe_Bindable := toNullBool (sp_Bindable plan); pe_PlanUpdatable := toNullBool (sp_PlanUpdatable plan);
        pe_CatalogID := sp_CatalogID plan; pe_CatalogName := sp_CatalogName plan; pe_Metadata := getJSONText (sp_Metadata plan);
        pe_Schemas := getJSONText (sp_Schemas plan); pe_MaximumPollingDuration := sp_MaximumPollingDuration plan;
        pe_MaintenanceInfo := getJSONText (sp_MaintenanceInfo plan); pe_ServiceOfferingID := sp_ServiceOfferingID plan |}.
Definition ServicePlan_ToObject (e : PlanEntity) : result ServicePlan :=
  Ok {| sp_Base := to_base (pe_Base e); sp_Name := pe_Name e; sp_Description := pe_Description e; sp_CatalogID := pe_CatalogID e;
        sp_CatalogName := pe_CatalogName e; sp_Free := Some (pe_Free e); sp_Bindable := toBoolPointer (pe_Bindable e);
        sp_PlanUpdatable := toBoolPointer (pe_PlanUpdatable e); sp_Metadata := getJSONRawMessage (pe_Metadata e);
        sp_Schemas := getJSONRawMessage (pe_Schemas e); sp_MaximumPollingDuration := pe_MaximumPollingDuration e;
        sp_MaintenanceInfo := getJSONRawMessage (pe_MaintenanceInfo e); sp_ServiceOfferingID := pe_ServiceOfferingID e |}.

(** The loops over the plans of an offering and the offerings of a broker. *)
Fixpoint convert_all {A B} (f : A -> result B) (wrap : error -> error) (l : list A) : result (list B) :=
  match l with
  | [] => Ok []
  | x :: l' =>
      match f x with
      | Ok y => let* ys := convert_all f wrap l' in Ok (y :: ys)
      | Err e => Err (wrap e)
      | Panic m => Panic m
      end
  end.
Definition conversion_failed (what while : string) (e : error) : error :=
  EPlain ("converting " ++ what ++ " object failed while converting " ++ while ++ ": " ++ Error e).

(** ** service_offering.go: an offering comes with its plans *)
Definition ServiceOffering_FromObject (o : ServiceOffering * list ServicePlan) : result OfferingEntity :=
  let '(offering, plans) := o in
  let* plans := convert_all ServicePlan_FromObject (conversion_failed "service offering from" "plans") plans in
  Ok {| oe_Base := from_base (so_Base offering); oe_Name := so_Name offering; oe_Description := so_Description offering;
        oe_Bindable := so_Bindable offering; oe_InstancesRetrievable := so_InstancesRetrievable offering;
        oe_BindingsRetrievable := so_BindingsRetrievable offering; oe_PlanUpdatable := so_PlanUpdatable offering;
        oe_AllowContextUpdates := so_AllowContextUpdates offering; oe_CatalogID := so_CatalogID offering;
        oe_CatalogName := so_CatalogName offering; oe_Tags := getJSONText (so_Tags offering);
        oe_Requires := getJSONText (so_Requires offering); oe_Metadata := getJSONText (so_Metadata offering);
        oe_BrokerID := so_BrokerID offering; oe_Plans := plans |}.
Definition ServiceOffering_ToObject (e : OfferingEntity) : result (ServiceOffering * list ServicePlan) :=
  let* plans := convert_all ServicePlan_ToObject (conversion_failed "service offering to" "plans") (oe_Plans e) in
  Ok ({| so_Base := to_base (oe_Base e); so_Name := oe_Name e; so_Description := oe_Description e; so_Bindable := oe_Bindable e;
         so_InstancesRetrievable := oe_InstancesRetrievable e; so_BindingsRetrievable := oe_BindingsRetrievable e;
         so_PlanUpdatable := oe_PlanUpdatable e; so_AllowContextUpdates := oe_AllowContextUpdates e;
         so_Tags := getJSONRawMessage (oe_Tags e); so_Requires := getJSONRawMessage (oe_Requires e);
         so_Metadata := getJSONRawMessage (oe_Metadata e); so_BrokerID := oe_BrokerID e; so_CatalogID := oe_CatalogID e;
         so_CatalogName := oe_CatalogName e |}, plans).

(** ** broker.go *)
Definition broker_credentials (e : BrokerEntity) : Credentials :=
  let tls := if negb (String.eqb (bre_TlsClientCertificate e) "") || negb (String.eqb (bre_TlsClientKey e) "")
             then {| Certificate := bre_TlsClientCertificate e; Key_ := bre_TlsClientKey e;
                     SMProvidedCredentials := bre_SMProvidedCredentials e |}
             else {| Certificate := ""; Key_ := ""; SMProvidedCredentials := bre_SMProvidedCredentials e |} in
  let basic := if negb (String.eqb (bre_Username e) "") || negb (String.eqb (bre_Password e) "")
               then Some {| Username := bre_Username e; Password := bre_Password e |} else None in
  {| Basic_ := basic; TLS_ := Some tls; cred_Integrity := bre_Integrity e |}.
Definition Broker_FromObject (o : ServiceBroker * list (ServiceOffering * list ServicePlan)) : result BrokerEntity :=
  let '(broker, services) := o in
  let* services := convert_all ServiceOffering_FromObject (conversion_failed "broker from" "services") services in
  let basic := br_Credentials broker ≫= Basic_ in
  let tls := br_Credentials broker ≫= TLS_ in
  Ok {| bre_Base := from_base (br_Base broker); bre_Name := br_Name broker; bre_Description := toNullString (br_Description broker);
        bre_BrokerURL := br_BrokerURL broker; bre_Username := default "" (Username <$> basic);
        bre_Password := default "" (Password <$> basic); bre_Integrity := default "" (cred_Integrity <$> br_Credentials broker);
        bre_TlsClientKey := default "" (Key_ <$> tls); bre_TlsClientCertificate := default "" (Certificate <$> tls);
        bre_Catalog := getJSONText (br_Catalog broker);
        bre_SMProvidedCredentials := default false (SMProvidedCredentials <$> tls); bre_Services := services |}.
Definition Broker_ToObject (e : BrokerEntity) : result (ServiceBroker * list (ServiceOffering * list ServicePlan)) :=
  let* services := convert_all ServiceOffering_ToObject (conversion_failed "broker to" "services") (bre_Services e) in
  Ok ({| br_Base := to_base (bre_Base e); br_Name := bre_Name e; br_Description := ns_String (bre_Description e);
         br_BrokerURL := bre_BrokerURL e; br_Credentials := Some (broker_credentials e);
         br_Catalog := getJSONRawMessage (bre_Catalog e) |}, services).

(** ** platform.go *)
Definition basic_of (c : option Credentials) : string * string :=
  match c ≫= Basic_ with Some b => (Username b, Password b) | None => ("", "") end.
Definition credentials_of (username password : string) : option Credentials :=
  if negb (String.eqb username "") || negb (String.eqb password "")
  then Some {| Basic_ := Some {| Username := username; Password := password |}; TLS_ := None; cred_Integrity := "" |}
  else None.
Definition Platform_FromObject (platform : Platform) : result PlatformEntity :=
  Ok {| ple_Base := from_base (pl_Base platform); ple_Type := pl_Type platform; ple_Name := pl_Name platform;
        ple_Description := toNullString (pl_Description platform); ple_Username := (basic_of (pl_Credentials platform)).1;
        ple_OldUsername := (basic_of (pl_OldCredentials platform)).1; ple_Password := (basic_of (pl_Credentials platform)).2;
        ple_OldPassword := (basic_of (pl_OldCredentials platform)).2; ple_Integrity := pl_Integrity platform;
        ple_Active := pl_Active platform; ple_Suspended := pl_Suspended platform;
        ple_CredentialsActive := pl_CredentialsActive platform; ple_LastActive := pl_LastActive platform;
        ple_Technical := pl_Technical platform; ple_Version := toNullString (pl_Version platform) |}.
Definition Platform_ToObject (e : PlatformEntity) : result Platform :=
  Ok {| pl_Base := to_base (ple_Base e); pl_Type := ple_Type e; pl_Name := ple_Name e; pl_Description := ns_String (ple_Description e);
        pl_Credentials := credentials_of (ple_Username e) (ple_Password e);
        pl_OldCredentials := credentials_of (ple_OldUsername e) (ple_OldPassword e); pl_Version := ns_String (ple_Version e);
        pl_Active := ple_Active e; pl_Suspended := ple_Suspended e; pl_LastActive := ple_LastActive e;
        pl_Integrity := ple_Integrity e; pl_CredentialsActive := ple_CredentialsActive e; pl_Technical := ple_Technical e |}.

(** ** service_instance.go *)
(** Encoding and decoding the values of an update: what was decoded once, or is empty, survives. *)
Class UpdateValuesJson := {
  marshal_update : option ServiceInstance * list LabelChange -> result string;
  unmarshal_update : string -> result (option ServiceInstance * list LabelChange);
  update_again v : v = (None, []) \/ (exists s, unmarshal_update s = Ok v) ->
    exists s, marshal_update v = Ok s /\ s <> "" /\ unmarshal_update s = Ok v
}.
Section Instances.
Context `{UpdateValuesJson}.
Definition ServiceInstance_FromObject (i : ServiceInstance) : result InstanceEntity :=
  let* newState := marshal_update (si_UpdateValues i) in
  Ok {| ie_Base := from_base (si_Base i); ie_Name := si_Name i; ie_ServicePlanID := si_ServicePlanID i;
        ie_PlatformID := si_PlatformID i; ie_ReferencedInstanceID := toNullString (si_ReferencedInstanceID i);
        ie_DashboardURL := toNullString (si_DashboardURL i); ie_MaintenanceInfo := getJSONText (si_MaintenanceInfo i);
        ie_Context := getJSONText (si_Context i); ie_PreviousValues := getJSONText (si_PreviousValues i);
        ie_UpdateValues := newState; ie_Usable := si_Usable i; ie_Shared := toNullBool (si_Shared i) |}.
Definition ServiceInstance_ToObject (e : InstanceEntity) : result ServiceInstance :=
  let* updateValues := (if String.eqb (ie_UpdateValues e) "" then Ok (None, []) else unmarshal_update (ie_UpdateValues e)) in
  Ok {| si_Base := to_base (ie_Base e); si_Name := ie_Name e; si_ServicePlanID := ie_ServicePlanID e;
        si_ReferencedInstanceID := ns_String (ie_ReferencedInstanceID e); si_PlatformID := ie_PlatformID e;
        si_DashboardURL := ns_String (ie_DashboardURL e); si_MaintenanceInfo := getJSONRawMessage (ie_MaintenanceInfo e);
        si_Context := getJSONRawMessage (ie_Context e); si_UpdateValues := updateValues;
        si_PreviousValues := getJSONRawMessage (ie_PreviousValues e); si_Parameters := ∅; si_Usable := ie_Usable e;
        si_Shared := toBoolPointer (ie_Shared e) |}.
End Instances.

(** ** service_binding.go *)
Definition ServiceBinding_FromObject (b : ServiceBinding) : result BindingEntity :=
  Ok {| bie_Base := from_base (sb_Base b); bie_Name := sb_Name b; bie_ServiceInstanceID := sb_ServiceInstanceID b;
        bie_SyslogDrainURL := toNullString (sb_SyslogDrainURL b); bie_RouteServiceURL := toNullString (sb_RouteServiceURL b);
        bie_VolumeMounts := getNullJSONText (sb_VolumeMounts b); bie_Endpoints := getNullJSONText (sb_Endpoints b);
        bie_Context := getJSONText (sb_Context b); bie_BindResource := getJSONText (sb_BindResource b);
        bie_Credentials := getStringFromJSONRawMessage (sb_Credentials b); bie_Integrity := sb_Integrity b |}.
Definition ServiceBinding_ToObject (e : BindingEntity) : result ServiceBinding :=
  Ok {| sb_Base := to_base (bie_Base e); sb_Name := bie_Name e; sb_ServiceInstanceID := bie_ServiceInstanceID e;
        sb_SyslogDrainURL := ns_String (bie_SyslogDrainURL e); sb_RouteServiceURL := ns_String (bie_RouteServiceURL e);
        sb_VolumeMounts := getJSONRawMessage (bie_VolumeMounts e).1; sb_Endpoints := getJSONRawMessage (bie_Endpoints e).1;
        sb_Context := getJSONRawMessage (bie_Context e); sb_BindResource := getJSONRawMessage (bie_BindResource e);
        sb_Credentials := getJSONRawMessageFromString (bie_Credentials e); sb_Parameters := ∅; sb_Integrity := bie_Integrity e |}.

(** ** broker_platform_credential.go *)
Definition Credential_FromObject (c : BrokerPlatformCredential) : result CredentialEntity :=
  Ok {| ce_Base := from_base (bpc_Base c); ce_Username := bpc_Username c; ce_PasswordHash := bpc_PasswordHash c;
        ce_OldUsername := bpc_OldUsername c; ce_OldPasswordHash := bpc_OldPasswordHash c; ce_PlatformID := bpc_PlatformID c;
        ce_BrokerID := bpc_BrokerID c; ce_Integrity := bpc_Integrity c; ce_Active := bpc_Active c |}.
Definition Credential_ToObject (e : CredentialEntity) : result BrokerPlatformCredential :=
  Ok {| bpc_Base := to_base (ce_Base e); bpc_Username := ce_Username e; bpc_PasswordHash := ce_PasswordHash e;
        bpc_OldUsername := ce_OldUsername e; bpc_OldPasswordHash := ce_OldPasswordHash e; bpc_PlatformID := ce_PlatformID e;
        bpc_BrokerID := ce_BrokerID e; bpc_NotificationID := ""; bpc_Integrity := ce_Integrity e; bpc_Active := ce_Active e |}.

(** ** The interface of the storage (interfaces.go) *)
Class PostgresEntity (A : Type) := {
  entity : Type;
  TableName : string;
  FromObject : A -> result entity;
  ToObject : entity -> result A;
  object_base : A -> Base;
  with_base : Base -> A -> A;
  storable : A -> Prop;                     (** what has no part the table cannot hold *)
  table_part : A -> A                       (** without what has no column: a field with the tag db:"-" *)
}.
Definition unlabelled `{PostgresEntity A} (o : A) : A := with_base (to_base (from_base (object_base o))) o.
(** Storing an object and reading it gives it back without its labels, which have a table of
    their own; and what was read once can be stored without loss. *)
Class EntityLaws (A : Type) `{PostgresEntity A} : Prop := {
  round_trip o : storable o -> exists e, FromObject o = Ok e /\ ToObject e = Ok (unlabelled o);
  read_storable o e o' : FromObject o = Ok e -> ToObject e = Ok o' -> storable o';
  base_kept o e o' : FromObject o = Ok e -> ToObject e = Ok o' -> object_base o' = to_base (from_base (object_base o));
  base_set b o : object_base (with_base b o) = b;
  part_storable_law o : storable o -> storable (table_part o);
  part_base o : object_base (table_part o) = object_base o
}.

(** JSON texts that are read as they were written. *)
Definition raw_ok (s : string) : Prop := s <> "null" /\ s <> "{}".
Lemma raw_read s : raw_ok (getJSONRawMessage s).
Proof.
  unfold getJSONRawMessage, raw_ok. destruct (String.eqb_spec s "{}"); [done|]. by destruct (String.eqb_spec s "null").
Qed.
Lemma raw_trip s : raw_ok s -> getJSONRawMessage (getJSONText s) = s.
Proof.
  intros [H1 H2]. unfold getJSONText. destruct (String.eqb_spec s "null"); [done|]. unfold getJSONRawMessage.
  destruct (String.eqb_spec s "{}"); [done|]. by destruct (String.eqb_spec s "null").
Qed.
Lemma null_raw_trip s : raw_ok s -> getJSONRawMessage (getNullJSONText s).1 = s.
Proof.
  intros Hs. unfold getNullJSONText. destruct (String.eqb_spec s "") as [->|Hne]; [done|].
  destruct (String.eqb_spec s "null") as [->|]; [by destruct Hs|]. by apply raw_trip.
Qed.
Lemma bool_trip b : toBoolPointer (toNullBool b) = b.
Proof. by destruct b. Qed.
#[export] Hint Rewrite bool_trip : entities.
#[export] Hint Resolve raw_read : entities.

#[export] Instance Visibility_entity : PostgresEntity Visibility := {|
  entity := VisibilityEntity; TableName := "visibilities"; FromObject := Visibility_FromObject; ToObject := Visibility_ToObject;
  object_base := vi_Base;
  with_base b v := {| vi_Base := b; vi_PlatformID := vi_PlatformID v; vi_ServicePlanID := vi_ServicePlanID v |};
  storable _ := True; table_part v := v |}.
#[export] Instance Visibility_laws : EntityLaws Visibility.
Proof.
  split; [|by intros| |done|done|done].
  - intros o _. eexists. split; [reflexivity|]. by destruct o.
  - intros o e o' [= <-] [= <-]. done.
Qed.

Definition plan_storable (p : ServicePlan) : Prop :=
  sp_Free p <> None /\ raw_ok (sp_Metadata p) /\ raw_ok (sp_Schemas p) /\ raw_ok (sp_MaintenanceInfo p).
Definition plan_with_base (b : Base) (p : ServicePlan) : ServicePlan :=
  {| sp_Base := b; sp_Name := sp_Name p; sp_Description := sp_Description p; sp_CatalogID := sp_CatalogID p;
     sp_CatalogName := sp_CatalogName p; sp_Free := sp_Free p; sp_Bindable := sp_Bindable p; sp_PlanUpdatable := sp_PlanUpdatable p;
     sp_Metadata := sp_Metadata p; sp_Schemas := sp_Schemas p; sp_MaximumPollingDuration := sp_MaximumPollingDuration p;
     sp_MaintenanceInfo := sp_MaintenanceInfo p; sp_ServiceOfferingID := sp_ServiceOfferingID p |}.
#[export] Instance ServicePlan_entity : PostgresEntity ServicePlan := {|
  entity := PlanEntity; TableName := "service_plans"; FromObject := ServicePlan_FromObject; ToObject := ServicePlan_ToObject;
  object_base := sp_Base; with_base := plan_with_base; storable := plan_storable; table_part p := p |}.
#[export] Instance ServicePlan_laws : EntityLaws ServicePlan.
Proof.
  split; [| | |done|by intros|done].
  - intros o (Hf & Hm & Hs & Hi). eexists. split; [reflexivity|]. unfold ToObject. simpl. unfold ServicePlan_ToObject, unlabelled. simpl.
    rewrite !bool_trip, !raw_trip by done. destruct o as [? ? ? ? ? [f|] ? ? ? ? ? ? ?]; [done|by destruct Hf].
  - intros o e o' [= <-] [= <-]. split; [done|]. simpl. eauto with entities.
  - intros o e o' [= <-] [= <-]. done.
Qed.

Lemma convert_all_trip {A B} (f : A -> result B) (g : B -> result A) w1 w2 l :
  Forall (fun x => exists e, f x = Ok e /\ g e = Ok x) l -> exists es, convert_all f w1 l = Ok es /\ convert_all g w2 es = Ok l.
Proof.
  induction 1 as [|x l (e & H1 & H2) _ (es & E1 & E2)]; [by exists []|]. exists (e :: es). simpl. by rewrite H1, H2, E1, E2.
Qed.
(** What a list was converted to and back consists of. *)
Lemma convert_all_read {A B} (f : A -> result B) (g : B -> result A) (P : A -> Prop) w1 w2 l es l' :
  (forall x e y, f x = Ok e -> g e = Ok y -> P y) -> convert_all f w1 l = Ok es -> convert_all g w2 es = Ok l' -> Forall P l'.
Proof.
  intros HP. revert es l'. induction l as [|x l IH]; intros es l'; simpl; [by intros [= <-] [= <-]|].
  destruct (f x) as [e| |] eqn:Ef; [|done..]. destruct (convert_all f w1 l) as [es'| |] eqn:El; [|done..]. simpl. intros [= <-]. simpl.
  destruct (g e) as [y| |] eqn:Eg; [|done..]. destruct (convert_all g w2 es') as [l2| |] eqn:E2; [|done..]. simpl. intros [= <-].
  constructor; [by eapply HP|by eapply IH].
Qed.

(** An object that is part of another one comes back as a whole, if it has no labels. *)
Definition part_storable `{PostgresEntity A} (x : A) : Prop := storable x /\ unlabelled x = x.
Lemma base_plain b : to_base (from_base (to_base (from_base b))) = to_base (from_base b).
Proof. done. Qed.
Lemma plan_part_trip p : part_storable p -> exists e, ServicePlan_FromObject p = Ok e /\ ServicePlan_ToObject e = Ok p.
Proof. intros [Hs Hu]. destruct (round_trip p Hs) as (e & E1 & E2). rewrite Hu in E2. by exists e. Qed.
Lemma plan_part_read p e p' : ServicePlan_FromObject p = Ok e -> ServicePlan_ToObject e = Ok p' -> part_storable p'.
Proof. intros E1 E2. split; [exact (@read_storable ServicePlan _ _ p e p' E1 E2)|]. injection E1 as <-. by injection E2 as <-. Qed.

Definition offering_storable (o : ServiceOffering * list ServicePlan) : Prop :=
  raw_ok (so_Tags o.1) /\ raw_ok (so_Requires o.1) /\ raw_ok (so_Metadata o.1) /\ Forall part_storable o.2.
Definition offering_with_base (b : Base) (o : ServiceOffering * list ServicePlan) : ServiceOffering * list ServicePlan :=
  ({| so_Base := b; so_Name := so_Name o.1; so_Description := so_Description o.1; so_Bindable := so_Bindable o.1;
      so_InstancesRetrievable := so_InstancesRetrievable o.1; so_BindingsRetrievable := so_BindingsRetrievable o.1;
      so_PlanUpdatable := so_PlanUpdatable o.1; so_AllowContextUpdates := so_AllowContextUpdates o.1; so_Tags := so_Tags o.1;
      so_Requires := so_Requires o.1; so_Metadata := so_Metadata o.1; so_BrokerID := so_BrokerID o.1;
      so_CatalogID := so_CatalogID o.1; so_CatalogName := so_CatalogName o.1 |}, o.2).
#[export] Instance ServiceOffering_entity : PostgresEntity (ServiceOffering * list ServicePlan) := {|
  entity := OfferingEntity; TableName := "service_offerings"; FromObject := ServiceOffering_FromObject;
  ToObject := ServiceOffering_ToObject; object_base o := so_Base o.1; with_base := offering_with_base; storable := offering_storable;
  table_part o := (o.1, []) |}.
Lemma offering_trip o : offering_storable o ->
  exists e, ServiceOffering_FromObject o = Ok e /\ ServiceOffering_ToObject e = Ok (offering_with_base (to_base (from_base (so_Base o.1))) o).
Proof.
  destruct o as [o plans]. intros (Ht & Hr & Hm & Hp).
  destruct (convert_all_trip ServicePlan_FromObject ServicePlan_ToObject (conversion_failed "service offering from" "plans")
    (conversion_failed "service offering to" "plans") plans) as (es & E1 & E2); [by eapply Forall_impl; [exact Hp|]; apply plan_part_trip|].
  simpl in *. rewrite E1. eexists. split; [reflexivity|]. unfold ServiceOffering_ToObject. simpl. rewrite E2. simpl.
  by rewrite !raw_trip by done.
Qed.
Lemma offering_read o e o' : ServiceOffering_FromObject o = Ok e -> ServiceOffering_ToObject e = Ok o' ->
  offering_storable o' /\ so_Base o'.1 = to_base (from_base (so_Base o.1)).
Proof.
  destruct o as [o plans]. simpl. destruct (convert_all _ _ plans) as [es| |] eqn:E1; [|done..]. simpl. intros [= <-].
  unfold ServiceOffering_ToObject. simpl. destruct (convert_all _ _ es) as [ps| |] eqn:E2; [|done..]. simpl. intros [= <-].
  split; [|done]. split; [apply raw_read|]. split; [apply raw_read|]. split; [apply raw_read|].
  eapply convert_all_read; [|exact E1|exact E2]. apply plan_part_read.
Qed.
#[export] Instance ServiceOffering_laws : EntityLaws (ServiceOffering * list ServicePlan).
Proof.
  split; [exact offering_trip| | |done| |done].
  3: { intros o (Ht & Hr & Hm & _). split_and!; [done..|constructor]. }
  - intros o e o' E1 E2. by destruct (offering_read o e o' E1 E2).
  - intros o e o' E1 E2. by destruct (offering_read o e o' E1 E2).
Qed.
Lemma offering_part_trip o : part_storable o -> exists e, ServiceOffering_FromObject o = Ok e /\ ServiceOffering_ToObject e = Ok o.
Proof. intros [Hs Hu]. destruct (round_trip o Hs) as (e & E1 & E2). rewrite Hu in E2. by exists e. Qed.
Lemma offering_part_read o e o' : ServiceOffering_FromObject o = Ok e -> ServiceOffering_ToObject e = Ok o' -> part_storable o'.
Proof.
  intros E1 E2. destruct (offering_read o e o' E1 E2) as [Hs Hb]. split; [done|]. unfold unlabelled. simpl. rewrite Hb, base_plain, <- Hb.
  by destruct o' as [[] ?].
Qed.

(** A broker comes back with credentials, and with TLS settings in them. *)
Definition broker_storable (o : ServiceBroker * list (ServiceOffering * list ServicePlan)) : Prop :=
  raw_ok (br_Catalog o.1) /\ Forall part_storable o.2 /\
  exists basic tls i, br_Credentials o.1 = Some {| Basic_ := basic; TLS_ := Some tls; cred_Integrity := i |} /\
    match basic with Some b => Username b <> "" \/ Password b <> "" | None => True end.
Definition broker_with_base (b : Base) (o : ServiceBroker * list (ServiceOffering * list ServicePlan)) :=
  ({| br_Base := b; br_Name := br_Name o.1; br_Description := br_Description o.1; br_BrokerURL := br_BrokerURL o.1;
      br_Credentials := br_Credentials o.1; br_Catalog := br_Catalog o.1 |}, o.2).
#[export] Instance Broker_entity : PostgresEntity (ServiceBroker * list (ServiceOffering * list ServicePlan)) := {|
  entity := BrokerEntity; TableName := "brokers"; FromObject := Broker_FromObject; ToObject := Broker_ToObject;
  object_base o := br_Base o.1; with_base := broker_with_base; storable := broker_storable;
  table_part o := (o.1, []) |}.
Lemma tls_kept (t : TLS) :
  (if negb (String.eqb (Certificate t) "") || negb (String.eqb (Key_ t) "")
   then {| Certificate := Certificate t; Key_ := Key_ t; SMProvidedCredentials := SMProvidedCredentials t |}
   else {| Certificate := ""; Key_ := ""; SMProvidedCredentials := SMProvidedCredentials t |}) = t.
Proof. destruct t as [c k b]. simpl. destruct (String.eqb_spec c "") as [->|]; [|done]. by destruct (String.eqb_spec k "") as [->|]. Qed.
Lemma basic_kept (b : Basic) : Username b <> "" \/ Password b <> "" ->
  negb (String.eqb (Username b) "") || negb (String.eqb (Password b) "") = true.
Proof. destruct b as [u p]. simpl. destruct (String.eqb_spec u ""), (String.eqb_spec p ""); naive_solver. Qed.
#[export] Instance Broker_laws : EntityLaws (ServiceBroker * list (ServiceOffering * list ServicePlan)).
Proof.
  split; [| | |done| |done].
  4: { intros o (Hc & _ & Hcr). split_and!; [done|constructor|done]. }
  - intros [b services] (Hc & Hs & basic & tls & i & Hcr & Hb). simpl in Hc, Hs, Hcr.
    destruct (convert_all_trip ServiceOffering_FromObject ServiceOffering_ToObject (conversion_failed "broker from" "services")
      (conversion_failed "broker to" "services") services) as (es & E1 & E2); [by eapply Forall_impl; [exact Hs|]; apply offering_part_trip|].
    unfold FromObject. simpl. rewrite E1. eexists. split; [reflexivity|]. unfold Broker_ToObject. simpl. rewrite E2. simpl.
    rewrite raw_trip by done. unfold broker_credentials, unlabelled, broker_with_base. simpl. rewrite Hcr. simpl. rewrite tls_kept.
    destruct basic as [[u p]|]; [|done]. simpl.
    pose proof (basic_kept {| Username := u; Password := p |} Hb) as Hk. simpl in Hk. by rewrite Hk.
  - intros [b services] e o'. unfold FromObject, ToObject. simpl. destruct (convert_all _ _ services) as [es| |] eqn:E1; [|done..].
    simpl. intros [= <-]. unfold Broker_ToObject. simpl. destruct (convert_all _ _ es) as [ps| |] eqn:E2; [|done..]. simpl. intros [= <-].
    split; [apply raw_read|]. split; [eapply convert_all_read; [|exact E1|exact E2]; apply offering_part_read|].
    simpl. unfold broker_credentials. eexists _, _, _. split; [reflexivity|]. simpl. set (u := default "" _). set (p := default "" _).
    destruct (String.eqb_spec u ""), (String.eqb_spec p ""); simpl; auto.
  - intros [b services] e o'. unfold FromObject, ToObject. simpl. destruct (convert_all _ _ services) as [es| |]; [|done..].
    simpl. intros [= <-]. unfold Broker_ToObject. simpl. by destruct (convert_all _ _ es) as [ps| |]; [|done..]; intros [= <-].
Qed.

(** A platform has nothing but a name and a password as credentials. *)
Definition platform_credentials_ok (c : option Credentials) : Prop :=
  match c with
  | None => True
  | Some c => exists b, c = {| Basic_ := Some b; TLS_ := None; cred_Integrity := "" |} /\ (Username b <> "" \/ Password b <> "")
  end.
Lemma credentials_trip c : platform_credentials_ok c -> credentials_of (basic_of c).1 (basic_of c).2 = c.
Proof. destruct c as [c|]; [|done]. intros (b & -> & Hb). simpl. unfold credentials_of. rewrite basic_kept by done. by destruct b. Qed.
Lemma credentials_read u p : platform_credentials_ok (credentials_of u p).
Proof.
  unfold credentials_of. destruct (String.eqb_spec u ""), (String.eqb_spec p ""); simpl; [done|..]; eexists; (split; [reflexivity|]); simpl; auto.
Qed.
#[export] Instance Platform_entity : PostgresEntity Platform := {|
  entity := PlatformEntity; TableName := "platforms"; FromObject := Platform_FromObject; ToObject := Platform_ToObject;
  object_base := pl_Base;
  with_base b p := {| pl_Base := b; pl_Type := pl_Type p; pl_Name := pl_Name p; pl_Description := pl_Description p;
    pl_Credentials := pl_Credentials p; pl_OldCredentials := pl_OldCredentials p; pl_Version := pl_Version p;
    pl_Active := pl_Active p; pl_Suspended := pl_Suspended p; pl_LastActive := pl_LastActive p; pl_Integrity := pl_Integrity p;
    pl_CredentialsActive := pl_CredentialsActive p; pl_Technical := pl_Technical p |};
  storable p := platform_credentials_ok (pl_Credentials p) /\ platform_credentials_ok (pl_OldCredentials p); table_part p := p |}.
#[export] Instance Platform_laws : EntityLaws Platform.
Proof.
  split; [| | |done|by intros|done].
  - intros o [H1 H2]. eexists. split; [reflexivity|]. unfold ToObject. simpl. unfold Platform_ToObject. simpl. by rewrite !credentials_trip.
  - intros o e o' [= <-] [= <-]. split; apply credentials_read.
  - intros o e o' [= <-] [= <-]. done.
Qed.

Section InstanceLaws.
Context `{UpdateValuesJson}.
Definition instance_storable (i : ServiceInstance) : Prop :=
  raw_ok (si_MaintenanceInfo i) /\ raw_ok (si_Context i) /\ raw_ok (si_PreviousValues i) /\ si_Parameters i = ∅ /\
  exists s, marshal_update (si_UpdateValues i) = Ok s /\ s <> "" /\ unmarshal_update s = Ok (si_UpdateValues i).
#[export] Instance ServiceInstance_entity : PostgresEntity ServiceInstance := {|
  entity := InstanceEntity; TableName := "service_instances"; FromObject := ServiceInstance_FromObject;
  ToObject := ServiceInstance_ToObject; object_base := si_Base;
  with_base b i := {| si_Base := b; si_Name := si_Name i; si_ServicePlanID := si_ServicePlanID i;
    si_ReferencedInstanceID := si_ReferencedInstanceID i; si_PlatformID := si_PlatformID i; si_DashboardURL := si_DashboardURL i;
    si_MaintenanceInfo := si_MaintenanceInfo i; si_Context := si_Context i; si_UpdateValues := si_UpdateValues i;
    si_PreviousValues := si_PreviousValues i; si_Parameters := si_Parameters i; si_Usable := si_Usable i; si_Shared := si_Shared i |};
  storable := instance_storable; table_part i := i |}.
#[export] Instance ServiceInstance_laws : EntityLaws ServiceInstance.
Proof.
  split; [| | |done|by intros|done].
  - intros o (Hm & Hc & Hp & Hpar & s & Es & Hne & Eu). unfold FromObject. simpl. unfold ServiceInstance_FromObject. rewrite Es. simpl.
    eexists. split; [reflexivity|]. unfold ServiceInstance_ToObject. simpl. destruct (String.eqb_spec s ""); [done|]. rewrite Eu. simpl.
    rewrite !raw_trip, bool_trip by done. unfold unlabelled. simpl. by rewrite Hpar.
  - intros o e o'. unfold FromObject, ToObject. simpl. unfold ServiceInstance_FromObject, ServiceInstance_ToObject.
    destruct (marshal_update _) as [s| |]; [|done..]. simpl. intros [= <-]. simpl.
    destruct (if String.eqb s "" then _ else _) as [v| |] eqn:Ev; [|done..]. simpl. intros [= <-].
    repeat (split; [apply raw_read|]). split; [done|]. simpl. apply update_again.
    destruct (String.eqb s ""); [left; by injection Ev|right; by exists s].
  - intros o e o'. unfold FromObject, ToObject. simpl. unfold ServiceInstance_FromObject, ServiceInstance_ToObject.
    destruct (marshal_update _) as [s| |]; [|done..]. simpl. intros [= <-]. simpl.
    by destruct (if String.eqb s "" then _ else _); [|done..]; intros [= <-].
Qed.
End InstanceLaws.

Definition binding_storable (b : ServiceBinding) : Prop :=
  raw_ok (sb_VolumeMounts b) /\ raw_ok (sb_Endpoints b) /\ raw_ok (sb_Context b) /\ raw_ok (sb_BindResource b) /\ sb_Parameters b = ∅.
#[export] Instance ServiceBinding_entity : PostgresEntity ServiceBinding := {|
  entity := BindingEntity; TableName := "service_bindings"; FromObject := ServiceBinding_FromObject;
  ToObject := ServiceBinding_ToObject; object_base := sb_Base;
  with_base b x := {| sb_Base := b; sb_Name := sb_Name x; sb_ServiceInstanceID := sb_ServiceInstanceID x;
    sb_SyslogDrainURL := sb_SyslogDrainURL x; sb_RouteServiceURL := sb_RouteServiceURL x; sb_VolumeMounts := sb_VolumeMounts x;
    sb_Endpoints := sb_Endpoints x; sb_Context := sb_Context x; sb_BindResource := sb_BindResource x;
    sb_Credentials := sb_Credentials x; sb_Parameters := sb_Parameters x; sb_Integrity := sb_Integrity x |};
  storable := binding_storable; table_part b := b |}.
#[export] Instance ServiceBinding_laws : EntityLaws ServiceBinding.
Proof.
  split; [| | |done|by intros|done].
  - intros o (Hv & He & Hc & Hb & Hp). eexists. split; [reflexivity|]. unfold ToObject. simpl. unfold ServiceBinding_ToObject. simpl.
    rewrite !null_raw_trip, !raw_trip by done. unfold unlabelled. simpl. by rewrite Hp.
  - intros o e o' [= <-] [= <-]. repeat (split; [apply raw_read|]). done.
  - intros o e o' [= <-] [= <-]. done.
Qed.

#[export] Instance Credential_entity : PostgresEntity BrokerPlatformCredential := {|
  entity := CredentialEntity; TableName := "broker_platform_credentials"; FromObject := Credential_FromObject;
  ToObject := Credential_ToObject; object_base := bpc_Base;
  with_base b c := {| bpc_Base := b; bpc_Username := bpc_Username c; bpc_PasswordHash := bpc_PasswordHash c;
    bpc_OldUsername := bpc_OldUsername c; bpc_OldPasswordHash := bpc_OldPasswordHash c; bpc_PlatformID := bpc_PlatformID c;
    bpc_BrokerID := bpc_BrokerID c; bpc_NotificationID := bpc_NotificationID c; bpc_Integrity := bpc_Integrity c;
    bpc_Active := bpc_Active c |};
  storable c := bpc_NotificationID c = ""; table_part c := c |}.
#[export] Instance Credential_laws : EntityLaws BrokerPlatformCredential.
Proof.
  split; [| | |done|by intros|done].
  - intros o Hn. eexists. split; [reflexivity|]. unfold ToObject. simpl. unfold Credential_ToObject, unlabelled. simpl.
    simpl in Hn. by rewrite Hn.
  - by intros o e o' [= <-] [= <-].
  - by intros o e o' [= <-] [= <-].
Qed.
