(* ===== verification/EncryptionProps.v ===== *)
(** * Secrets come back, are stored encrypted, and tampering is found *)

From S2P Require Import Prelude GoStd Errors Query Labels OperationTypes DomainTypes Encryption StorageEntities.
From stdpp Require Import base gmap strings list pretty.
From Stdlib Require Import ZArith.
Local Open Scope string_scope.

(** ** AES *)
Lemma substring_app_l s t : String.substring 0 (String.length s) (s ++ t) = s.
Proof.
  induction s as [|a s IH]; [by destruct t|]. rewrite Strings.app_cons. simpl. by rewrite IH.
Qed.
Lemma substring_all s : String.substring 0 (String.length s) s = s.
Proof. induction s as [|a s IH]; [done|]. simpl. by rewrite IH. Qed.
Lemma substring_app_r s t : String.substring (String.length s) (String.length t) (s ++ t) = t.
Proof.
  induction s as [|a s IH]; [apply substring_all|]. rewrite Strings.app_cons. simpl. done.
Qed.
Lemma string_length_app s t : String.length (s ++ t) = (String.length s + String.length t)%nat.
Proof. induction s as [|a s IH]; [done|]. rewrite Strings.app_cons. simpl. by rewrite IH. Qed.

#[global] Instance AESEncrypterLaws `{CryptoLaws} : EncrypterLaws (H:=AESEncrypter).
Proof.
  constructor. intros p k n n' c. unfold Encrypt, Decrypt, AESEncrypter, AES_Encrypt, AES_Decrypt.
  destruct (aes_key k); simpl; [|done]. destruct (random n) as [nonce| |] eqn:Hn; [|done..].
  intros [= <- <-]. apply random_length in Hn.
  assert (Hlen : String.length (nonce ++ gcm_seal k nonce p) = (NonceSize + String.length (gcm_seal k nonce p))%nat)
    by (rewrite string_length_app, Hn; done).
  split.
  - rewrite Hlen. rewrite (proj2 (Nat.ltb_ge _ _)) by lia.
    replace (NonceSize + String.length (gcm_seal k nonce p) - NonceSize)%nat
      with (String.length (gcm_seal k nonce p)) by lia.
    rewrite <- Hn, substring_app_l, substring_app_r, open_seal. done.
  - intros He. rewrite He in Hlen. done.
Qed.

(** ** The secrets of an object

    For each type, the fields that hold a password, a private key or credentials; what is not
    there is empty.  A technical platform has no secrets of its own. *)
Definition password_of (c : option Credentials) : string := default "" (Password <$> (c ≫= Basic_)).
Definition username_of (c : option Credentials) : string := default "" (Username <$> (c ≫= Basic_)).
Definition secrets (o : object) : list string :=
  match o with
  | OBroker b => [password_of (br_Credentials b); default "" (Key_ <$> (br_Credentials b ≫= TLS_))]
  | OPlatform p => if pl_Technical p then [] else [password_of (pl_Credentials p); password_of (pl_OldCredentials p)]
  | OBinding b => [sb_Credentials b]
  | OCredential c => [bpc_PasswordHash c; bpc_OldPasswordHash c]
  | OPlain _ _ _ => []
  end%list.

(** The values of the columns that hold credentials, and of those their integrity covers. *)
Definition columns (o : object) : list string :=
  match o with
  | OBroker b => [br_BrokerURL b; username_of (br_Credentials b); password_of (br_Credentials b);
                  default "" (Certificate <$> (br_Credentials b ≫= TLS_)); default "" (Key_ <$> (br_Credentials b ≫= TLS_))]
  | OPlatform p => [username_of (pl_Credentials p); password_of (pl_Credentials p);
                    username_of (pl_OldCredentials p); password_of (pl_OldCredentials p)]
  | OBinding b => [sb_Credentials b]
  | OCredential c => [bpc_Username c; bpc_PasswordHash c; bpc_OldUsername c; bpc_OldPasswordHash c; bpc_PlatformID c; bpc_BrokerID c]
  | OPlain _ _ data => [data]
  end%list.
(** Two objects have the same identity, credentials and integrity. *)
Definition same_columns (o o' : object) : Prop :=
  GetType o' = GetType o /\ GetID o' = GetID o /\ columns o' = columns o /\ GetIntegrity o' = GetIntegrity o /\
  IntegralData o' = IntegralData o.

(** ** What a row of the storage keeps of an object

    The object converted to its entity and back (storage/postgres); the parts of it that are
    secret or protected.  Timestamps, labels, the paging sequence and fields without a column
    are none of them. *)
Definition row (o : object) : result object :=
  match o with
  | OBroker b => let* e := Broker_FromObject (b, []) in let* (b', _) := Broker_ToObject e in Ok (OBroker b')
  | OPlatform p => let* e := Platform_FromObject p in let* p' := Platform_ToObject e in Ok (OPlatform p')
  | OBinding b => let* e := ServiceBinding_FromObject b in let* b' := ServiceBinding_ToObject e in Ok (OBinding b')
  | OCredential c => let* e := Credential_FromObject c in let* c' := Credential_ToObject e in Ok (OCredential c')
  | OPlain _ _ _ => Ok o
  end.
Inductive protected_part :=
  | PBroker (url : string) (c : option Credentials)
  | PPlatform (c old : option Credentials) (technical : bool) (integrity : string)
  | PBinding (credentials integrity : string)
  | PCredential (username hash old_username old_hash platform broker integrity : string)
  | PPlain (objectType data : string).
Definition protected (o : object) : protected_part :=
  match o with
  | OBroker b => PBroker (br_BrokerURL b) (br_Credentials b)
  | OPlatform p => PPlatform (pl_Credentials p) (pl_OldCredentials p) (pl_Technical p) (pl_Integrity p)
  | OBinding b => PBinding (sb_Credentials b) (sb_Integrity b)
  | OCredential c => PCredential (bpc_Username c) (bpc_PasswordHash c) (bpc_OldUsername c) (bpc_OldPasswordHash c)
                       (bpc_PlatformID c) (bpc_BrokerID c) (bpc_Integrity c)
  | OPlain t _ d => PPlain t d
  end.
(** [x] is read from a row to which [o] was written. *)
Definition read_from_row (o x : object) : Prop :=
  exists y, row o = Ok y /\ protected x = protected y /\ GetID x = GetID o.

Section Crypt.
Context `{EncrypterLaws}.
Variable key : string.
Notation enc := (fun p n => Encrypt p key n).
Notation dec := (fun c n => (n, Decrypt c key)).

Lemma field_inv {O} v (set : string -> O) o n n' o' :
  transform_field enc v set o n = (n', o', Ok tt) ->
  exists c, o' = set c /\ Decrypt c key = Ok v /\ c <> "".
Proof.
  unfold transform_field. destruct (Encrypt v key n) as [m [c| |]] eqn:He; intros [= <- <-].
  apply decrypt_encrypt in He as [Hd Hne]. by exists c.
Qed.
Lemma field_dec {O} c v (set : string -> O) o n :
  Decrypt c key = Ok v -> transform_field dec c set o n = (n, set v, Ok tt).
Proof. intros Hd. unfold transform_field. by rewrite Hd. Qed.
Lemma then_inv {O} (r : nat * O * result unit) k n' o' :
  then_field r k = (n', o', Ok tt) -> exists n1 o1, r = (n1, o1, Ok tt) /\ k o1 n1 = (n', o', Ok tt).
Proof. destruct r as [[n1 o1] [[]| |]]; simpl; intros Hk; [|done..]. by exists n1, o1. Qed.

(** Each secret is replaced by an encryption of it; an empty one may stay. *)
Definition encrypted (cs ps : list string) : Prop :=
  Forall2 (fun c p => (c <> "" /\ Decrypt c key = Ok p) \/ (c = "" /\ p = "")) cs ps.

Ltac seal := repeat (apply List.Forall2_cons; [first [by left|by right]|]); by apply List.Forall2_nil.

(** What was encrypted, written to a row and read from it is decrypted to the credentials it
    had, and the row has its secrets encrypted. *)
Definition comes_back (o x : object) : Prop :=
  encrypted (secrets x) (secrets o) /\
  exists o', (forall m, crypt dec x m = (m, o', Ok tt)) /\ same_columns o o'.
Definition crypts {O} (inject : O -> object) (t : byte_transform -> O -> nat -> nat * O * result unit) : Prop :=
  forall o n n' o' x d, t enc o n = (n', o', Ok tt) -> IntegralData (inject o) = Some (Ok d) ->
    read_from_row (inject o') x -> GetID (inject o') = GetID (inject o) -> comes_back (inject o) x.

Lemma crypts_binding : crypts OBinding ServiceBinding_transform.
Proof.
  intros o n n' o' x d Ho _ (y & Hy & Hp & Hid) Hid'. unfold ServiceBinding_transform in Ho. simpl in Hy.
  injection Hy as <-. destruct x as [| |x| |]; try done. injection Hp as Hc Hi. simpl in *.
  unfold comes_back, encrypted, same_columns. simpl. unfold ServiceBinding_transform.
  destruct (Nat.eqb_spec (String.length (sb_Credentials o)) 0) as [E|E].
  - injection Ho as <- <-. assert (sb_Credentials o = "") as Ee by by destruct (sb_Credentials o).
    rewrite Hc. unfold getJSONRawMessageFromString, getStringFromJSONRawMessage. rewrite Ee. simpl.
    split; [seal|]. eexists. split; [done|]. simpl. rewrite Hc, Hi.
    unfold getJSONRawMessageFromString, getStringFromJSONRawMessage. rewrite Ee. repeat split; congruence.
  - apply field_inv in Ho as (c & -> & Hd & Hne). simpl in *.
    unfold getJSONRawMessageFromString, getStringFromJSONRawMessage in Hc. rewrite Hc. destruct c as [|a c]; [done|].
    split; [seal|]. eexists. split.
    + intros m. simpl. by rewrite (field_dec _ (sb_Credentials o)).
    + simpl. repeat split; congruence.
Qed.

Lemma crypts_credential : crypts OCredential BrokerPlatformCredential_transform.
Proof.
  intros [base u ph ou oph pid bid nid ig ac] n n' o' x d Ho _ (y & Hy & Hp & Hid) Hid'.
  unfold BrokerPlatformCredential_transform in Ho. simpl in *.
  apply then_inv in Ho as (n1 & o1 & H1 & H2). apply field_inv in H1 as (c & -> & Hc & Hne). simpl in *.
  destruct x as [| | |[base' u' ph' ou' oph' pid' bid' nid' ig' ac']|];
    unfold comes_back, encrypted, same_columns; simpl; try (destruct (String.eqb oph ""); simplify_eq/=; by injection Hp).
  destruct (String.eqb_spec oph "") as [->|Hold].
  - injection H2 as <- <-. injection Hy as <-. injection Hp as -> -> -> -> -> -> ->. simpl in *.
    split; [seal|]. eexists. split; [intros m; unfold BrokerPlatformCredential_transform; simpl; by rewrite (field_dec _ ph)|]. by repeat split.
  - apply field_inv in H2 as (c' & -> & Hc' & Hne'). injection Hy as <-. injection Hp as -> -> -> -> -> -> ->. simpl in *.
    split; [seal|]. eexists. split.
    + intros m. unfold BrokerPlatformCredential_transform. simpl. rewrite (field_dec _ ph) by done. simpl.
      rewrite (proj2 (String.eqb_neq c' "")) by done. by rewrite (field_dec _ oph).
    + by repeat split.
Qed.

(** Credentials with an encrypted password are in the row, and come back. *)
Lemma credentials_row (c : option Credentials) c' :
  match c ≫= Basic_ with
  | Some b => exists s, c' = update_Basic c (set_Password b s) /\ Decrypt s key = Ok (Password b) /\ s <> ""
  | None => c' = c
  end ->
  let r := credentials_of (basic_of c').1 (basic_of c').2 in
  match c ≫= Basic_ with
  | Some b => exists s, r = Some {| Basic_ := Some {| Username := Username b; Password := s |}; TLS_ := None; cred_Integrity := "" |} /\
      Decrypt s key = Ok (Password b) /\ s <> ""
  | None => r = None
  end.
Proof.
  destruct c as [[[[u p]|] tls ig]|]; simpl; [|by intros ->..]. intros (s & -> & Hd & Hne). exists s. split; [|done].
  unfold credentials_of. simpl. by rewrite (proj2 (String.eqb_neq s "")), orb_true_r by done.
Qed.
(** The credentials after decryption. *)
Definition bare_credentials (c : option Credentials) : option Credentials :=
  (fun b => {| Basic_ := Some b; TLS_ := None; cred_Integrity := "" |}) <$> (c ≫= Basic_).

Lemma platform_step (c : option Credentials) {O} (set : option Credentials -> O) (o : O) n n' o' :
  match c ≫= Basic_ with
  | Some b => transform_field enc (Password b) (fun p => set (update_Basic c (set_Password b p))) o n
  | None => (n, o, Ok tt)
  end = (n', o', Ok tt) -> o = set c ->
  exists c', o' = set c' /\
    match c ≫= Basic_ with
    | Some b => exists s, c' = update_Basic c (set_Password b s) /\ Decrypt s key = Ok (Password b) /\ s <> ""
    | None => c' = c
    end.
Proof.
  destruct (c ≫= Basic_) as [b|]; intros Hf Ho.
  - apply field_inv in Hf as (s & -> & Hs & Hne). eexists. split; [done|by exists s].
  - injection Hf as _ <-. by exists c.
Qed.

Lemma crypts_platform : crypts OPlatform Platform_crypt.
Proof.
  intros [base ty nm de cr old ve ac su la it ca te] n n' o' x d Ho Hd (y & Hy & Hp & Hid) Hid'.
  unfold Platform_crypt in Ho. simpl in Ho, Hd. destruct te; simpl in *.
  { injection Ho as <- <-. injection Hy as <-. destruct x as [|[base' ty' nm' de' cr' old' ve' ac' su' la' it' ca' te']| | |]; try done.
    simpl in *. injection Hp as -> -> -> ->. unfold comes_back, encrypted, same_columns, Platform_crypt. simpl. split; [seal|].
    eexists. split; [done|]. simpl. split; [done|]. split; [done|]. split; [|done].
    unfold username_of, password_of. destruct cr as [[[[u p]|] tls ig]|], old as [[[[u' p']|] tls' ig']|]; simpl;
      unfold credentials_of, basic_of; simpl; repeat case_match; simplify_eq/=; try done;
      repeat match goal with Hb : negb _ || negb _ = false |- _ => apply orb_false_iff in Hb as [?%negb_false_iff ?%negb_false_iff] end;
      repeat match goal with Hb : String.eqb _ _ = true |- _ => apply String.eqb_eq in Hb as -> end; done. }
  unfold Platform_transform in Ho. apply then_inv in Ho as (n1 & o1 & H1 & H2). simpl in *.
  apply (platform_step cr (fun c => set_pl_Credentials (Build_Platform base ty nm de cr old ve ac su la it ca false) c old it)) in H1
    as (cr' & -> & Hcr); [|done]. simpl in *.
  apply (platform_step old (fun c => set_pl_Credentials (Build_Platform base ty nm de cr' old ve ac su la it ca false) cr' c it)) in H2
    as (old' & -> & Hold); [|done]. simpl in *.
  injection Hy as <-. destruct x as [|[base' ty' nm' de' cr2 old2 ve' ac' su' la' it' ca' te']| | |]; try done.
  simpl in *. injection Hp as Ecr Eold -> ->. apply credentials_row in Hcr, Hold. rewrite <- Ecr in Hcr. rewrite <- Eold in Hold.
  unfold comes_back, encrypted, same_columns, Platform_crypt, Platform_transform, username_of, password_of. simpl.
  destruct cr as [[[[u p]|] tls ig]|], old as [[[[u' p']|] tls' ig']|]; simpl in *;
    repeat match goal with Hx : exists _, _ |- _ => destruct Hx as (? & -> & ? & ?) end; subst; simpl;
    (split; [seal|]); (eexists; split; [intros m; unfold Platform_crypt, Platform_transform; simpl; repeat (erewrite field_dec by done; simpl); done
                              |by repeat split]).
Qed.

(** The columns of a broker's credentials. *)
Lemma broker_row (b y : ServiceBroker) c : row (OBroker b) = Ok (OBroker y) -> br_Credentials b = Some c ->
  br_BrokerURL y = br_BrokerURL b /\
  exists sm, br_Credentials y = Some {|
    Basic_ := match Basic_ c with
              | Some x => if String.eqb (Username x) "" && String.eqb (Password x) "" then None else Some x
              | None => None
              end;
    TLS_ := Some {| Certificate := default "" (Certificate <$> TLS_ c); Key_ := default "" (Key_ <$> TLS_ c);
                    SMProvidedCredentials := sm |};
    cred_Integrity := cred_Integrity c |}.
Proof.
  simpl. intros [= <-] Hc. simpl. split; [done|]. rewrite Hc. simpl. destruct c as [bas tls ig]. simpl.
  exists (default false (SMProvidedCredentials <$> tls)). unfold broker_credentials. simpl. do 2 f_equal.
  - destruct bas as [[u p]|]; simpl; [|done]. by destruct (String.eqb u ""), (String.eqb p "").
  - destruct tls as [[ce k sm]|]; simpl; [|done]. f_equal.
    destruct (String.eqb_spec ce "") as [->|], (String.eqb_spec k "") as [->|]; done.
Qed.

Lemma crypts_broker : crypts OBroker ServiceBroker_transform.
Proof.
  intros [base nm de url [[bas tls ig]|] cat] n n' o' x d Ho Hd (y & Hy & Hp & Hid) Hid'; simpl in Hd; [|done].
  unfold ServiceBroker_transform in Ho. apply then_inv in Ho as (n1 & o1 & H1 & H2). unfold broker_password in H1. simpl in H1.
  assert (exists bas', o1 = {| br_Base := base; br_Name := nm; br_Description := de; br_BrokerURL := url;
             br_Credentials := Some {| Basic_ := bas'; TLS_ := tls; cred_Integrity := ig |}; br_Catalog := cat |} /\
           match bas with
           | Some b => exists c, bas' = Some (set_Password b c) /\ Decrypt c key = Ok (Password b) /\ c <> ""
           | None => bas' = None
           end) as (bas' & -> & Hb).
  { destruct bas as [[u p]|]; [apply field_inv in H1 as (c & -> & Hc & Hne)|injection H1 as <- <-]; eexists; (split; [done|]).
    - by exists c.
    - done. }
  unfold broker_key in H2. simpl in H2.
  assert (exists tls', o' = {| br_Base := base; br_Name := nm; br_Description := de; br_BrokerURL := url;
             br_Credentials := Some {| Basic_ := bas'; TLS_ := tls'; cred_Integrity := ig |}; br_Catalog := cat |} /\
           match tls with
           | Some t => exists k, tls' = Some (set_Key t k) /\ ((k <> "" /\ Decrypt k key = Ok (Key_ t)) \/ (k = "" /\ Key_ t = ""))
           | None => tls' = None
           end) as (tls' & -> & Ht).
  { destruct tls as [[ce k sm]|]; simpl in H2; [|injection H2 as <- <-; by eexists].
    destruct (String.eqb_spec k "") as [->|Hk].
    - injection H2 as <- <-. eexists. split; [done|]. exists "". split; [done|by right].
    - apply field_inv in H2 as (c & -> & Hc & Hne). eexists. split; [done|]. exists c. split; [done|by left]. }
  destruct y as [y| | | |]; [|discriminate Hy..].
  destruct (broker_row _ _ {| Basic_ := bas'; TLS_ := tls'; cred_Integrity := ig |} Hy eq_refl) as (Hu & sm' & Hcr). simpl in *.
  destruct x as [[base' nm' de' url' cr' cat']| | | |]; try done. simpl in Hp. injection Hp as -> ->. rewrite Hu, Hcr.
  clear H1 H2 Hd Hcr Hu Hy. unfold comes_back, encrypted, same_columns, password_of, username_of, ServiceBroker_transform.
  simpl. destruct bas as [[u p]|]; simpl in *; [destruct Hb as (c & -> & Hc & Hne)|subst bas']; simpl;
    (destruct tls as [[ce k sm]|]; simpl in *; [destruct Ht as (k' & -> & [[Hk Hk']|[-> ->]])|subst tls']); simpl;
    try rewrite (proj2 (String.eqb_neq c "")), andb_false_r by done;
    (split; [simpl; seal|]); eexists;
    (split; [intros m; unfold ServiceBroker_transform, broker_password, broker_key; simpl;
             repeat first [erewrite field_dec by done | rewrite (proj2 (String.eqb_neq k' "")) by done | progress simpl]; done
            |by repeat split]).
Qed.

(** Encryption keeps the identity of an object. *)
Lemma lift_object_id {O} (inject : O -> object) (r : nat * O * result unit) n' o' x :
  lift_object inject r = (n', o', x) -> exists y, o' = inject y /\ r = (n', y, x).
Proof. destruct r as [[n y] z]. simpl. intros [= <- <- <-]. by exists y. Qed.

Lemma then_field_keeps {O} (P : O -> Prop) (r : nat * O * result unit) k n' o' x :
  then_field r k = (n', o', x) -> P (snd (fst r)) ->
  (forall o n n1 o1 y, k o n = (n1, o1, y) -> P o -> P o1) -> P o'.
Proof.
  destruct r as [[n o] [[]| |]]; simpl; intros Hr HP Hk; [by eapply Hk|by simplify_eq..].
Qed.
Lemma transform_field_keeps {O} (P : O -> Prop) f v (set : string -> O) o n n' o' x :
  transform_field f v set o n = (n', o', x) -> P o -> (forall w, P (set w)) -> P o'.
Proof. unfold transform_field. destruct (f v n) as [m [w| |]]; intros [= <- <- <-]; auto. Qed.

Lemma crypt_identity f o n n' o' x :
  crypt f o n = (n', o', x) -> GetType o' = GetType o /\ GetID o' = GetID o.
Proof.
  assert (Hf : forall O (P : O -> Prop) v (set : string -> O) o n, P o -> (forall w, P (set w)) ->
            P (snd (fst (transform_field f v set o n)))).
  { intros O P v set o1 n1 HP Hs. destruct (transform_field f v set o1 n1) as [[m y] r] eqn:E.
    by eapply transform_field_keeps. }
  destruct o as [b|p|b|c|]; simpl; [| | | |by intros [= <- <- <-]]; intros Ho; apply lift_object_id in Ho as (y & -> & Hr);
    simpl; (split; [done|]).
  - revert Hr. unfold ServiceBroker_transform. intros Hr.
    eapply (then_field_keeps (fun z => base_ID (br_Base z) = base_ID (br_Base b))) in Hr; [done| |].
    + case_match; [by apply Hf|done].
    + intros z m m1 z1 w Hz HP. case_match; [|by simplify_eq].
      by eapply (transform_field_keeps (fun z => base_ID (br_Base z) = base_ID (br_Base b))) in Hz.
  - revert Hr. unfold Platform_crypt. case_match; [by intros [= <- <- <-]|]. intros Hr.
    eapply (then_field_keeps (fun z => base_ID (pl_Base z) = base_ID (pl_Base p))) in Hr; [done| |].
    + case_match; [by apply Hf|done].
    + intros z m m1 z1 w Hz HP. case_match; [|by simplify_eq].
      by eapply (transform_field_keeps (fun z => base_ID (pl_Base z) = base_ID (pl_Base p))) in Hz.
  - revert Hr. unfold ServiceBinding_transform. case_match; [by intros [= <- <- <-]|]. intros Hr.
    by eapply (transform_field_keeps (fun z => base_ID (sb_Base z) = base_ID (sb_Base b))) in Hr.
  - revert Hr. unfold BrokerPlatformCredential_transform. intros Hr.
    eapply (then_field_keeps (fun z => base_ID (bpc_Base z) = base_ID (bpc_Base c))) in Hr; [done|by apply Hf|].
    intros z m m1 z1 w Hz HP. case_match; [by simplify_eq|].
    by eapply (transform_field_keeps (fun z => base_ID (bpc_Base z) = base_ID (bpc_Base c))) in Hz.
Qed.

(** The whole of [encrypt] and [decrypt]. *)
Lemma crypt_object o n n' o' x :
  crypt enc o n = (n', o', Ok tt) -> (forall d, IntegralData o = Some d -> exists t, d = Ok t) ->
  read_from_row o' x -> comes_back o x.
Proof.
  intros Ho Hint Hx. destruct (crypt_identity _ _ _ _ _ _ Ho) as [_ Hid].
  assert (Hl : forall O (inject : O -> object) t (z : O) d, crypts inject t -> o = inject z ->
    crypt enc o n = lift_object inject (t enc z n) -> IntegralData o = Some d -> comes_back o x).
  { intros O inject t z d Hc -> Hz Hd. rewrite Hz in Ho. destruct (Hint _ Hd) as [text ->].
    apply lift_object_id in Ho as (y & -> & Ho). by eapply Hc. }
  destruct o.
  - by eapply Hl; [apply crypts_broker|..].
  - by eapply Hl; [apply crypts_platform|..].
  - by eapply Hl; [apply crypts_binding|..].
  - by eapply Hl; [apply crypts_credential|..].
  - simpl in Ho. injection Ho as <- <-. destruct Hx as (y & [= <-] & Hp & Hidx). destruct x; try done.
    simpl in *. injection Hp as -> ->. split; [constructor|]. eexists. split; [done|]. by repeat split.
Qed.
End Crypt.

(** ** Integrity and encryption together *)
Lemma SetIntegrity_data o v : IntegralData (SetIntegrity o v) = IntegralData o.
Proof. destruct o as [[? ? ? ? [c|] ?]| | | |]; done. Qed.
Lemma SetIntegrity_get o v d : IntegralData o = Some (Ok d) -> GetIntegrity (SetIntegrity o v) = v.
Proof. destruct o as [[? ? ? ? [c|] ?]| | | |]; done. Qed.
Lemma SetIntegrity_secrets o v : secrets (SetIntegrity o v) = secrets o.
Proof. by destruct o as [[? ? ? ? [[? ? ?]|] ?]| | | |]. Qed.
Lemma SetIntegrity_id o v : GetType (SetIntegrity o v) = GetType o /\ GetID (SetIntegrity o v) = GetID o.
Proof. by destruct o. Qed.

(** What the decorators rely on of the storage below: an object that was created is in a row,
    the result of the creation is read from that row, and so is what a query by id returns.
    Creating and reading may fail. *)
Definition by_id (id : string) : criteria := [Query.Criteria.ByField Query.Operators.EqualsOperator "id" [id]].
Class StoreLaws {DB} (next : ObjectRepository DB) := {
  stored : DB -> string -> string -> option object;
  law_store_create o d n d' n' oc r :
    repo_Create next o (d, n) = ((d', n'), oc, Ok r) ->
    n' = n /\ read_from_row o r /\
    exists x, stored d' (GetType o) (GetID o) = Some x /\ read_from_row o x;
  law_store_get t id d n s' x :
    repo_Get next t (by_id id) (d, n) = (s', Ok x) -> s' = (d, n) /\ stored d t id = Some x
}.
