(* ===== verification/KeyStore.v ===== *)
(** * The encryption key: locker, key store and the encrypting decorator

    storage/postgres/locker.go, storage/postgres/keystore.go and [EncryptingDecorator] of
    storage/encrypting_repository.go.  The database answers of the locker are parameters: a
    connection, the query that locks or unlocks, and the row it returns. *)

From S2P Require Import Prelude GoStd Errors Query Labels OperationTypes DomainTypes Encryption.
From stdpp Require Import base gmap strings list pretty.
From Stdlib Require Import ZArith.
Local Open Scope string_scope.

(** ** The locker *)
Definition ErrLockAcquisition : error := EPlain "failed to acquire lock".
Definition ErrUnlockAcquisition : error := EPlain "failed to unlock".

(** [lockerCon] is nil or a connection. *)
Record Locker := { isLocked : bool; lockerCon : bool }.
Definition new_locker : Locker := {| isLocked := false; lockerCon := false |}.

(** The answers of the database to one call: whether a connection is given, the query runs,
    and, where it is read, the boolean of its row (no row leaves it false). *)
Record lock_answers := { con_answer : result unit; query_answer : result unit; row_answer : result bool }.

(** [release]: an error of closing is only logged. *)
Definition release (l : Locker) : Locker := {| isLocked := isLocked l; lockerCon := false |}.

Definition Lock (a : lock_answers) (l : Locker) : Locker * result unit :=
  if isLocked l || lockerCon l then (l, Err (EPlain "lock is already acquired"))
  else match con_answer a with
       | Ok _ =>
           let l := {| isLocked := isLocked l; lockerCon := true |} in
           match query_answer a with
           | Ok _ => ({| isLocked := true; lockerCon := true |}, Ok tt)
           | Err e => (release l, Err e)
           | Panic m => (l, Panic m)
           end
       | r => ({| isLocked := isLocked l; lockerCon := false |}, r)
       end.

Definition TryLock (a : lock_answers) (l : Locker) : Locker * result unit :=
  if isLocked l || lockerCon l then (l, Err (EPlain "try_lock is already acquired"))
  else match con_answer a with
       | Ok _ =>
           let l := {| isLocked := isLocked l; lockerCon := true |} in
           match query_answer a with
           | Ok _ =>
               match row_answer a with
               | Ok true => ({| isLocked := true; lockerCon := true |}, Ok tt)
               | Ok false => (release l, Err ErrLockAcquisition)
               | Err e => (release l, Err e)
               | Panic m => (l, Panic m)
               end
           | Err e => (release l, Err e)
           | Panic m => (l, Panic m)
           end
       | r => ({| isLocked := isLocked l; lockerCon := false |}, r)
       end.

(** [defer l.release(ctx)] runs on every path that reaches it. *)
Definition Unlock (a : lock_answers) (l : Locker) : Locker * result unit :=
  if negb (isLocked l) || negb (lockerCon l) then (l, Ok tt)
  else match query_answer a with
       | Ok _ =>
           match row_answer a with
           | Ok true => (release {| isLocked := false; lockerCon := lockerCon l |}, Ok tt)
           | Ok false => (release l, Err ErrUnlockAcquisition)
           | Err e => (release l, Err e)
           | Panic m => (release l, Panic m)
           end
       | Err e => (release l, Err e)
       | Panic m => (release l, Panic m)
       end.

(** ** The key store: the rows of the table "safe" *)

(** What [GetContext] with "SELECT * FROM safe" makes of the answer of the database: the secret
    of a row, [sql.ErrNoRows], or another error.  The query names no order, so with several
    rows any of them may be the one. *)
Inductive safe_answer := SafeRow (secret : string) | ErrNoRows | SelectFailed (e : error).
Definition answers_safe (rows : list string) (a : safe_answer) : Prop :=
  match a with
  | SafeRow secret => secret ∈ rows
  | ErrNoRows => rows = []
  | SelectFailed _ => True
  end.

Section KeyStore.
Context `{Crypto}.

Record key_state := { safe : list string; locker : Locker; reads_made : nat }.

Section Operations.
Variable layerOneEncryptionKey : string.

Definition GetEncryptionKey (answer : safe_answer) (transformationFunc : string -> string -> result string) : result string :=
  match answer with
  | ErrNoRows => Ok ""
  | SelectFailed err => Err err
  | SafeRow encryptedKey => transformationFunc encryptedKey layerOneEncryptionKey
  end.
(** [insert] is the answer of the database to the insertion. *)
Definition SetEncryptionKey (insert : result unit) (key : string)
    (transformationFunc : string -> string -> nat -> nat * result string) (s : key_state) : key_state * result unit :=
  let '(n, r) := transformationFunc key layerOneEncryptionKey (reads_made s) in
  let s := {| safe := safe s; locker := locker s; reads_made := n |} in
  match r with
  | Ok bytes =>
      match insert with
      | Ok _ => ({| safe := (safe s ++ [bytes])%list; locker := locker s; reads_made := n |}, Ok tt)
      | _ => (s, insert)
      end
  | Err e => (s, Err e)
  | Panic m => (s, Panic m)
  end.

(** ** The decorator: the key of the repository it makes

    [new_key] is [rand.Read] into 32 bytes for the [n]-th read. *)
Variable new_key : nat -> result string.

Definition with_locker (s : key_state) (l : Locker) : key_state :=
  {| safe := safe s; locker := l; reads_made := reads_made s |}.

(** What runs under the lock. *)
Definition encryption_key_locked `{Encrypter} (answer : safe_answer) (insert : result unit) (s : key_state)
    : key_state * result string :=
  match GetEncryptionKey answer Decrypt with
  | Ok encryptionKey =>
      if String.eqb encryptionKey "" then
        match new_key (reads_made s) with
        | Ok newEncryptionKey =>
            let s := {| safe := safe s; locker := locker s; reads_made := S (reads_made s) |} in
            let '(s, r) := SetEncryptionKey insert newEncryptionKey Encrypt s in
            (s, r ;;; Ok newEncryptionKey)
        | Err e => (s, Err (EPlain ("could not generate encryption key: " ++ Error e)))
        | Panic m => (s, Panic m)
        end
      else (s, Ok encryptionKey)
  | r => (s, r)
  end.
(** The deferred [Unlock] runs after every outcome; its error is only logged. *)
Definition EncryptingDecorator `{Encrypter} (lock unlock : lock_answers) (answer : safe_answer) (insert : result unit)
    (s : key_state) : key_state * result string :=
  let '(l, r) := Lock lock (locker s) in
  match r with
  | Ok _ =>
      let '(s', key) := encryption_key_locked answer insert (with_locker s l) in
      (with_locker s' (fst (Unlock unlock (locker s'))), key)
  | Err e => (with_locker s l, Err e)
  | Panic m => (with_locker s l, Panic m)
  end.
End Operations.
End KeyStore.

(** ** Theorems *)

(** Sequences of calls of a locker. *)
Inductive lock_call := CallLock (a : lock_answers) | CallTryLock (a : lock_answers) | CallUnlock (a : lock_answers).
Definition do_lock_call (c : lock_call) (l : Locker) : Locker * result unit :=
  match c with CallLock a => Lock a l | CallTryLock a => TryLock a l | CallUnlock a => Unlock a l end.
Fixpoint do_lock_calls (cs : list lock_call) (l : Locker) : Locker * list (result unit) :=
  match cs with
  | [] => (l, [])
  | c :: cs => let '(l1, r) := do_lock_call c l in let '(l2, rs) := do_lock_calls cs l1 in (l2, r :: rs)
  end.

(** The locker after an unlock that failed. *)
Definition stuck_locker : Locker := {| isLocked := true; lockerCon := false |}.

Lemma stuck_call c : do_lock_call c stuck_locker =
  (stuck_locker, match c with
                 | CallLock _ => Err (EPlain "lock is already acquired")
                 | CallTryLock _ => Err (EPlain "try_lock is already acquired")
                 | CallUnlock _ => Ok tt
                 end).
Proof. by destruct c. Qed.

(** an unlock that fails makes a locker useless for good: it gives up its connection but
    stays marked as locked, so after it every [Lock] and [TryLock] fails whatever the
    database answers, and every [Unlock] does nothing and reports success.  Without a failed
    unlock a locker is locked exactly when it has a connection, and free again after a
    successful unlock. *)
Theorem failed_unlock_locks_out cs a l :
  (isLocked l = true -> lockerCon l = true -> (forall u, snd (Unlock a l) <> Ok u) ->
   (forall m, snd (Unlock a l) <> Panic m) ->
   do_lock_calls cs (fst (Unlock a l)) =
   (stuck_locker, (fun c => match c with
                            | CallLock _ => Err (EPlain "lock is already acquired")
                            | CallTryLock _ => Err (EPlain "try_lock is already acquired")
                            | CallUnlock _ => Ok tt
                            end) <$> cs)) /\
  (isLocked l = lockerCon l ->
   forall c r, do_lock_call c l = (r, Ok tt) -> isLocked r = lockerCon r /\
     (match c with CallUnlock _ => isLocked r = false | _ => isLocked r = true end)).
Proof.
  split.
  - intros Hl Hc Hne Hnp. assert (Hs : fst (Unlock a l) = stuck_locker).
    { unfold Unlock in *. rewrite Hl, Hc in *. simpl in *. destruct (query_answer a) as [[]| |]; simpl in *.
      - destruct (row_answer a) as [[]| |]; simpl in *; [by destruct (Hne tt)|..]; destruct l; simpl in *; by subst.
      - destruct l; simpl in *; by subst.
      - by destruct (Hnp msg). }
    rewrite Hs. clear. induction cs as [|c cs IH]; [done|]. simpl. rewrite stuck_call, IH. done.
  - intros Heq c r. destruct l as [il lc]. simpl in Heq. subst lc. destruct c as [x|x|x]; simpl; unfold Lock, TryLock, Unlock; simpl;
      destruct il; simpl; repeat case_match; intros; simplify_eq/=; done.
Qed.

Section Keys.
Context `{EncrypterLaws}.
Variables (layerOneEncryptionKey : string) (new_key : nat -> result string).
Hypothesis new_key_length : forall n k, new_key n = Ok k -> String.length k = 32%nat.

(** What runs under the lock, for a table with one key at most that answers as it is. *)
Lemma locked_key answer insert s s1 k :
  (length (safe s) <= 1)%nat -> (forall e, e ∈ safe s -> Decrypt e layerOneEncryptionKey <> Ok "") ->
  answers_safe (safe s) answer ->
  encryption_key_locked layerOneEncryptionKey new_key answer insert s = (s1, Ok k) ->
  k <> "" /\ (safe s <> [] -> safe s1 = safe s) /\ exists c, safe s1 = [c] /\ Decrypt c layerOneEncryptionKey = Ok k.
Proof.
  intros Hlen Hne Hans Hrun. unfold encryption_key_locked, GetEncryptionKey in Hrun. destruct answer as [secret| |e]; simpl in *; [| |done].
  - destruct (safe s) as [|c [|? ?]] eqn:Es; simpl in Hlen; [by apply elem_of_nil in Hans| |lia].
    apply list_elem_of_singleton in Hans as ->. specialize (Hne c (list_elem_of_here _ _)).
    destruct (Decrypt c layerOneEncryptionKey) as [key| |] eqn:Hd; [|done..].
    destruct (String.eqb_spec key "") as [->|Hk]; [done|]. injection Hrun as <- <-. rewrite Es. split; [done|]. split; [done|]. by exists c.
  - destruct (new_key (reads_made s)) as [key| |] eqn:Hk; [|done..]. unfold SetEncryptionKey in Hrun. simpl in Hrun.
    destruct (Encrypt key layerOneEncryptionKey (S (reads_made s))) as [n [c| |]] eqn:He; simpl in Hrun; [|done..].
    destruct insert as [[]| |]; simplify_eq/=. apply decrypt_encrypt in He as [Hd _]. apply new_key_length in Hk.
    split; [by intros ->|]. rewrite Hans. split; [done|]. by exists c.
Qed.
(** With a key stored, it is the result unless the query fails, and nothing is stored. *)
Lemma locked_key_again answer insert s c k :
  safe s = [c] -> Decrypt c layerOneEncryptionKey = Ok k -> k <> "" -> answers_safe (safe s) answer ->
  encryption_key_locked layerOneEncryptionKey new_key answer insert s =
  (s, match answer with SelectFailed e => Err e | _ => Ok k end).
Proof.
  intros Hs Hd Hne Hans. unfold encryption_key_locked, GetEncryptionKey. destruct answer as [secret| |e]; simpl in *; [| |done].
  - rewrite Hs in Hans. apply list_elem_of_singleton in Hans as ->. rewrite Hd. by rewrite (proj2 (String.eqb_neq k "")).
  - by rewrite Hs in Hans.
Qed.

Lemma decorator_locked lock unlock answer insert s s1 r :
  locker s = new_locker -> snd (Lock lock new_locker) = Ok tt ->
  EncryptingDecorator layerOneEncryptionKey new_key lock unlock answer insert s = (s1, r) ->
  exists l s', encryption_key_locked layerOneEncryptionKey new_key answer insert (with_locker s l) = (s', r) /\
    safe s1 = safe s' /\ (query_answer unlock = Ok tt -> row_answer unlock = Ok true -> locker s1 = new_locker).
Proof.
  intros Hl Hlock Hrun. unfold EncryptingDecorator in Hrun. rewrite Hl in Hrun.
  destruct (Lock lock new_locker) as [l [[]| |]] eqn:El; [|done..].
  destruct (encryption_key_locked layerOneEncryptionKey new_key answer insert (with_locker s l)) as [s' k] eqn:Ek.
  injection Hrun as <- <-. exists l, s'. split; [done|]. split; [done|]. intros Hq Hr.
  assert (locker s' = l /\ isLocked l = true /\ lockerCon l = true) as (Hl' & Hi & Hc).
  { split.
    - clear -Ek. unfold encryption_key_locked, SetEncryptionKey in Ek. repeat case_match; simplify_eq/=; done.
    - clear -El. unfold Lock in El. simpl in El. repeat case_match; by simplify_eq/=. }
  simpl. unfold Unlock. by rewrite Hl', Hi, Hc, Hq, Hr.
Qed.

(** C25: the encryption key is made once.  Take a start of the decorator that succeeds, with a
    table of keys that is empty or has one key.  With a key stored it uses that and stores
    nothing; otherwise it makes one, stores it encrypted with the key of the environment, and
    uses it.  The lock is given back when the database unlocks it.  Every later start, with a
    locker of its own, leaves the table as it is, also when the database fails to read it; when
    it gets the lock it uses the same key, whatever its own random bytes would have been, or
    fails with the error of the database. *)
Theorem encryption_key_made_once lock unlock answer insert s s1 k :
  locker s = new_locker -> (length (safe s) <= 1)%nat ->
  (forall e, e ∈ safe s -> Decrypt e layerOneEncryptionKey <> Ok "") -> answers_safe (safe s) answer ->
  EncryptingDecorator layerOneEncryptionKey new_key lock unlock answer insert s = (s1, Ok k) ->
  (safe s <> [] -> safe s1 = safe s) /\
  (exists c, safe s1 = [c] /\ Decrypt c layerOneEncryptionKey = Ok k) /\
  (query_answer unlock = Ok tt -> row_answer unlock = Ok true -> locker s1 = new_locker) /\
  forall lock' unlock' answer' insert' s' s2 r,
    safe s' = safe s1 -> locker s' = new_locker -> answers_safe (safe s') answer' ->
    EncryptingDecorator layerOneEncryptionKey new_key lock' unlock' answer' insert' s' = (s2, r) ->
    safe s2 = safe s1 /\
    (snd (Lock lock' new_locker) = Ok tt -> r = match answer' with SelectFailed e => Err e | _ => Ok k end).
Proof.
  intros Hl Hlen Hne Hans Hrun.
  assert (snd (Lock lock new_locker) = Ok tt) as Hlock.
  { unfold EncryptingDecorator in Hrun. rewrite Hl in Hrun. by destruct (Lock lock new_locker) as [? [[]| |]]. }
  destruct (decorator_locked _ _ _ _ _ _ _ Hl Hlock Hrun) as (l & s1' & Ek & Hs1 & Hun).
  destruct (locked_key _ _ (with_locker s l) _ _ Hlen Hne Hans Ek) as (Hk & Hold & c & Hc & Hd). rewrite <- Hs1 in *.
  split; [done|]. split; [by exists c|]. split; [done|].
  intros lock' unlock' answer' insert' s' s2 r Hs' Hl' Hans' Hrun'. rewrite <- Hs' in Hc.
  destruct (Lock lock' new_locker) as [l2 r2] eqn:El2. destruct r2 as [[]| |].
  - destruct (decorator_locked _ _ _ _ _ _ _ Hl' ltac:(by rewrite El2) Hrun') as (l' & s2' & Ek' & Hs2 & _).
    rewrite (locked_key_again _ _ (with_locker s' l') c k Hc Hd Hk Hans') in Ek'. injection Ek' as <- <-.
    rewrite Hs2. by split.
  - unfold EncryptingDecorator in Hrun'. rewrite Hl', El2 in Hrun'. injection Hrun' as <- <-. by split.
  - unfold EncryptingDecorator in Hrun'. rewrite Hl', El2 in Hrun'. injection Hrun' as <- <-. by split.
Qed.
End Keys.
