(* ===== verification/EncryptionTheorems.v ===== *)
(** * The decorated repository: round trip, secrecy and integrity *)

From S2P Require Import Prelude GoStd Errors Query Labels OperationTypes DomainTypes Encryption EncryptionProps KeyStore.
From stdpp Require Import base gmap strings list pretty.
From Stdlib Require Import ZArith.
Local Open Scope string_scope.

Section Stack.
Context {DB : Type} `{EncrypterLaws}.
Variables (key : string) (HashingFunc : string -> string) (next : ObjectRepository DB).
Context `{!StoreLaws next}.

(** The repository of the server: [InitializeWithSafeTermination] applies the last decorator
    first, so integrity is computed outside of encryption. *)
Definition decorated : ObjectRepository DB :=
  integrityRepository HashingFunc (encryptingRepository key next).




(** Nothing is read without a valid integrity.  Whatever the storage holds, each object
    returned by [Get], [GetForUpdate], [List], [ListNoLabels] or [QueryForList] has an
    integrity that matches its data (or no data to protect); and an object that was changed
    in the storage so that its data no longer match is an error that names it. *)
Theorem reads_are_validated :
  (forall t c s s' o, repo_Get decorated t c s = (s', Ok o) -> validateIntegrity HashingFunc o = Ok tt) /\
  (forall t c s s' o, repo_GetForUpdate decorated t c s = (s', Ok o) -> validateIntegrity HashingFunc o = Ok tt) /\
  (forall t c s s' l, repo_List decorated t c s = (s', Ok l) -> Forall (fun o => validateIntegrity HashingFunc o = Ok tt) l) /\
  (forall t c s s' l, repo_ListNoLabels decorated t c s = (s', Ok l) -> Forall (fun o => validateIntegrity HashingFunc o = Ok tt) l) /\
  (forall t q s s' l, repo_QueryForList decorated t q s = (s', Ok l) -> Forall (fun o => validateIntegrity HashingFunc o = Ok tt) l) /\
  (forall t c s s' x o data,
     repo_Get next t c s = (s', Ok x) -> decrypt key x s' = (s', o, Ok tt) ->
     IntegralData o = Some (Ok data) -> data <> "" -> HashingFunc data <> GetIntegrity o ->
     repo_Get decorated t c s =
     (s', Err (EPlain ("invalid integrity for " ++ GetType o ++ " with ID " ++ GetID o)))).
Proof.
  assert (Hget : forall sr s' o, validate_result (DB:=DB) HashingFunc sr = (s', Ok o) -> validateIntegrity HashingFunc o = Ok tt).
  { intros [s [o| |]] s' o'; simpl; [|done..]. destruct (validateIntegrity HashingFunc o) as [[]| |] eqn:Ev; simpl; [|done..].
    by intros [= <- <-]. }
  assert (Hlist : forall sr s' l, validate_list (DB:=DB) HashingFunc sr = (s', Ok l) ->
            Forall (fun o => validateIntegrity HashingFunc o = Ok tt) l).
  { intros [s [l| |]] s' l'; simpl; [|done..].
    destruct (for_each (validateIntegrity HashingFunc) l) as [[]| |] eqn:Ev; simpl; [|done..].
    intros [= <- <-]. by apply for_each_ok. }
  split; [intros *; apply Hget|]. split; [intros *; apply Hget|]. split; [intros *; apply Hlist|].
  split; [intros *; apply Hlist|]. split; [intros *; apply Hlist|].
  intros t c s s' x o data Hst Hdec Hdata Hne Hhash. simpl. rewrite Hst. simpl. rewrite Hdec. simpl.
  unfold validateIntegrity. rewrite Hdata. simpl. unfold ValidateIntegrity.
  rewrite (proj2 (String.eqb_neq data "")) by done. by rewrite (proj2 (String.eqb_neq (HashingFunc data) (GetIntegrity o))).
Qed.
End Stack.

(** ** A storage in memory, and concrete runs *)
Definition memory_db : Type := list (string * string * object).
Definition find_object (t id : string) (d : memory_db) : option object :=
  match list_find (fun e => e.1 = (t, id)) d with Some (_, e) => Some e.2 | None => None end.
Definition id_of (c : criteria) : string :=
  match c with x :: _ => match Query.Criteria.RightOp x with v :: _ => v | [] => "" end | [] => "" end.

(** Creation stores the row of the object and returns what is read from it. *)
Definition memory_repository : ObjectRepository memory_db := {|
  repo_Create := fun o s => match row o with
                            | Ok y => (((GetType o, GetID o, y) :: s.1, s.2), o, Ok y)
                            | Err e => (s, o, Err e)
                            | Panic m => (s, o, Panic m)
                            end;
  repo_Get := fun t c s => (s, match find_object t (id_of c) s.1 with Some o => Ok o | None => Err ENotFoundInStorage end);
  repo_GetForUpdate := fun t c s => (s, Err ENotFoundInStorage);
  repo_List := fun t c s => (s, Ok (snd <$> s.1));
  repo_ListNoLabels := fun t c s => (s, Ok (snd <$> s.1));
  repo_QueryForList := fun t q s => (s, Ok (snd <$> s.1));
  repo_Count := fun t c s => (s, Ok (Z.of_nat (length s.1)));
  repo_CountLabelValues := fun t c s => (s, Ok 0%Z);
  repo_Update := fun o lc c s => (((GetType o, GetID o, o) :: s.1, s.2), o, Ok o);
  repo_UpdateLabels := fun t i lc c s => (s, Ok tt);
  repo_DeleteReturning := fun t c s => (([], s.2), Ok (snd <$> s.1));
  repo_Delete := fun t c s => (([], s.2), Ok tt)
|}.
#[global] Instance memory_store_laws : StoreLaws memory_repository.
Proof.
  refine {| stored := fun d t id => find_object t id d |}.
  - intros o d n d' n' oc r. simpl. destruct (row o) as [y| |] eqn:E; intros [= <- <- <- <-].
    assert (read_from_row o y).
    { exists y. split; [done|]. split; [done|]. destruct o; simpl in E; by injection E as <-. }
    split; [done|]. split; [done|]. exists y. split; [|done]. unfold find_object. simpl. by rewrite decide_True.
  - intros t id d n s' x. simpl. by destruct (find_object t id d); intros [= <- <-].
Defined.

(** A toy cipher that seals nothing, with a nonce of the right length. *)
#[global] Instance toy_crypto : Crypto := {|
  random := fun n => Ok "nonce-012345";
  gcm_seal := fun k n p => p;
  gcm_open := fun k n c => Some c
|}.
#[global] Instance toy_crypto_laws : CryptoLaws.
Proof. constructor; [by intros n s [= <-]|done]. Qed.
Definition toy_key : string := "0123456789abcdef".


(** Two starts of the server. *)
Definition all_ok : lock_answers := {| con_answer := Ok tt; query_answer := Ok tt; row_answer := Ok true |}.
Definition first_key (n : nat) : result string := Ok "0123456789abcdef0123456789abcdef".
Definition fresh_state : key_state := {| safe := []; locker := new_locker; reads_made := 0 |}.
Definition first_start : key_state * result string :=
  EncryptingDecorator toy_key first_key all_ok all_ok ErrNoRows (Ok tt) fresh_state.
Definition stored_secret : string := "nonce-0123450123456789abcdef0123456789abcdef".
Definition second_start (select : safe_answer) : key_state * result string :=
  EncryptingDecorator toy_key first_key all_ok all_ok select (Ok tt) first_start.1.
Lemma encryption_key_made_once_witness :
  first_start.2 = Ok "0123456789abcdef0123456789abcdef" /\ locker first_start.1 = new_locker /\
  safe (second_start (SafeRow stored_secret)).1 = safe first_start.1 /\
  (second_start (SafeRow stored_secret)).2 = Ok "0123456789abcdef0123456789abcdef" /\
  safe (second_start (SelectFailed ENotFoundInStorage)).1 = safe first_start.1 /\
  (second_start (SelectFailed ENotFoundInStorage)).2 = Err ENotFoundInStorage.
Proof.
  assert (Hf : first_start.2 = Ok "0123456789abcdef0123456789abcdef") by (by vm_compute).
  split; [done|].
  destruct (encryption_key_made_once toy_key first_key ltac:(by intros n k [= <-]) all_ok all_ok ErrNoRows (Ok tt)
    fresh_state first_start.1 "0123456789abcdef0123456789abcdef")
    as (_ & _ & Hl & Hr); [done|simpl; lia|by intros e ?%elem_of_nil|done|by vm_compute|].
  split; [by apply Hl|].
  assert (Hrow : answers_safe (safe first_start.1) (SafeRow stored_secret)) by (vm_compute; apply list_elem_of_here).
  destruct (Hr all_ok all_ok (SafeRow stored_secret) (Ok tt) first_start.1 _ _ eq_refl ltac:(by vm_compute) Hrow
    (surjective_pairing _)) as [Hs1 Hr1].
  destruct (Hr all_ok all_ok (SelectFailed ENotFoundInStorage) (Ok tt) first_start.1 _ _ eq_refl ltac:(by vm_compute) I
    (surjective_pairing _)) as [Hs2 Hr2].
  split; [exact Hs1|]. split; [by apply Hr1|]. split; [exact Hs2|by apply Hr2].
Defined.
