(* ===== verification/OSBWorld.v ===== *)
(** * What the OSB plugins work with

    An OSB request passes a chain of plugins (api/osb) before it is sent to the broker.  All
    plugins get one pointer to the request and may change it, and they read and write the
    storage.  A handler is a computation on a world: the request, the tables the plugins use
    and the number of calls made so far.  Every call of the storage may fail with any error
    ([fault]); one that does not fail reads or writes its table as the repository does:
    the tables of instances and bindings by id, operations with the newest first, the
    remaining tables in the order of their paging sequence, the foreign key from bindings to
    instances and the type [operation_state] as storage/postgres/migrations declares them.

    A transaction that fails leaves the tables as they were. *)

From S2P Require Import Prelude GoStd Errors Query OperationTypes DomainTypes.
From stdpp Require Import base gmap strings list.
From Stdlib Require Import ZArith.
Local Open Scope string_scope.

(** ** Requests and tables *)

(** [rq_User]: the user of the context and what its [Data] gives for a platform;
    [rq_Criteria]: [query.CriteriaForContext]. *)
Record osb_request := {
  rq_Method : string;
  rq_RequestURI : string;
  rq_PathParams : gmap string string;
  rq_Body : string;
  rq_User : option (result Platform);
  rq_StoreBindings : option bool;
  rq_Operation : option Operation;
  rq_OperationContext : option OperationContext;
  rq_Instance : option ServiceInstance;
  rq_SharedInstance : option ServiceInstance;
  rq_Plan : option ServicePlan;
  rq_CorrelationID : string;
  rq_Criteria : list Query.Criteria.Criterion
}.
Record osb_response := { rs_StatusCode : Z; rs_Body : string }.

Record tables := {
  tb_instances : gmap string ServiceInstance;
  tb_bindings : gmap string ServiceBinding;
  tb_operations : list Operation;
  tb_offerings : list ServiceOffering;
  tb_plans : list ServicePlan;
  tb_visibilities : list Visibility
}.
Definition set_instances (t : tables) (m : gmap string ServiceInstance) : tables :=
  {| tb_instances := m; tb_bindings := tb_bindings t; tb_operations := tb_operations t;
     tb_offerings := tb_offerings t; tb_plans := tb_plans t; tb_visibilities := tb_visibilities t |}.
Definition set_bindings (t : tables) (m : gmap string ServiceBinding) : tables :=
  {| tb_instances := tb_instances t; tb_bindings := m; tb_operations := tb_operations t;
     tb_offerings := tb_offerings t; tb_plans := tb_plans t; tb_visibilities := tb_visibilities t |}.
Definition set_operations (t : tables) (l : list Operation) : tables :=
  {| tb_instances := tb_instances t; tb_bindings := tb_bindings t; tb_operations := l;
     tb_offerings := tb_offerings t; tb_plans := tb_plans t; tb_visibilities := tb_visibilities t |}.

Record world := { w_req : osb_request; w_tables : tables; w_calls : nat }.
Definition handling (A : Type) : Type := world -> world * result A.

Definition h_ret {A} (a : A) : handling A := fun w => (w, Ok a).
Definition h_fail {A} (e : error) : handling A := fun w => (w, Err e).
Definition h_lift {A} (r : result A) : handling A := fun w => (w, r).
Definition h_bind {A B} (m : handling A) (f : A -> handling B) : handling B := fun w =>
  let '(w', r) := m w in
  match r with
  | Ok a => f a w'
  | Err e => (w', Err e)
  | Panic msg => (w', Panic msg)
  end.
(** The error of a call as a value. *)
Definition h_try {A} (m : handling A) : handling (A + error) := fun w =>
  let '(w', r) := m w in
  match r with
  | Ok a => (w', Ok (inl a))
  | Err e => (w', Ok (inr e))
  | Panic msg => (w', Panic msg)
  end.

Notation "'osb!' x <- m ; k" := (h_bind m (fun x => k))
  (at level 100, x pattern, m at level 99, k at level 200, right associativity) : sm_scope.
Notation "m ';!' k" := (h_bind m (fun _ => k)) (at level 100, right associativity) : sm_scope.

(** The pointer to the request. *)
Definition h_request : handling osb_request := fun w => (w, Ok (w_req w)).
Definition h_set_request (r : osb_request) : handling unit := fun w =>
  ({| w_req := r; w_tables := w_tables w; w_calls := w_calls w |}, Ok tt).
Definition set_Body (r : osb_request) (b : string) : osb_request :=
  {| rq_Method := rq_Method r; rq_RequestURI := rq_RequestURI r; rq_PathParams := rq_PathParams r; rq_Body := b; rq_User := rq_User r;
     rq_StoreBindings := rq_StoreBindings r; rq_Operation := rq_Operation r;
     rq_OperationContext := rq_OperationContext r; rq_Instance := rq_Instance r;
     rq_SharedInstance := rq_SharedInstance r; rq_Plan := rq_Plan r; rq_CorrelationID := rq_CorrelationID r;
     rq_Criteria := rq_Criteria r |}.
(** [req.WithContext(types.ContextWith...)]. *)
Definition set_context (r : osb_request) (i shared : option ServiceInstance) (plan : option ServicePlan)
    : osb_request :=
  {| rq_Method := rq_Method r; rq_RequestURI := rq_RequestURI r; rq_PathParams := rq_PathParams r;
     rq_Body := rq_Body r; rq_User := rq_User r;
     rq_StoreBindings := rq_StoreBindings r; rq_Operation := rq_Operation r;
     rq_OperationContext := rq_OperationContext r; rq_Instance := i;
     rq_SharedInstance := shared; rq_Plan := plan; rq_CorrelationID := rq_CorrelationID r;
     rq_Criteria := rq_Criteria r |}.

Notation handler := (handling osb_response).

(** ** The storage *)
Class OSBEnv := {
  fault : nat -> option error;
  uuid_NewV4 : nat -> result string;
  time_Now : nat -> Z;
  (** whether the storage selects an instance for criteria *)
  instance_matches : list Query.Criteria.Criterion -> ServiceInstance -> bool
}.

Section Storage.
Context `{OSBEnv}.

Definition tick (w : world) : world :=
  {| w_req := w_req w; w_tables := w_tables w; w_calls := S (w_calls w) |}.
(** A call to the outside, numbered. *)
Definition outside {A} (f : nat -> result A) : handling A := fun w => (tick w, f (w_calls w)).

Definition storage_call {A} (f : tables -> tables * result A) : handling A := fun w =>
  match fault (w_calls w) with
  | Some e => (tick w, Err e)
  | None =>
      let '(t, r) := f (w_tables w) in
      ({| w_req := w_req w; w_tables := t; w_calls := S (w_calls w) |}, r)
  end.
Definition read {A} (f : tables -> result A) : handling A := storage_call (fun t => (t, f t)).
Definition or_not_found {A} (o : option A) : result A :=
  match o with Some a => Ok a | None => Err ENotFoundInStorage end.

Definition get_instance (id : string) : handling ServiceInstance :=
  read (fun t => or_not_found (tb_instances t !! id)).
Definition get_binding (id : string) : handling ServiceBinding :=
  read (fun t => or_not_found (tb_bindings t !! id)).
Definition find_operation (p : Operation -> bool) : handling Operation :=
  read (fun t => or_not_found (List.find p (tb_operations t))).
Definition find_offering (p : ServiceOffering -> bool) : handling ServiceOffering :=
  read (fun t => or_not_found (List.find p (tb_offerings t))).
Definition find_plan (p : ServicePlan -> bool) : handling ServicePlan :=
  read (fun t => or_not_found (List.find p (tb_plans t))).
Definition list_plans (p : ServicePlan -> bool) : handling (list ServicePlan) :=
  read (fun t => Ok (List.filter p (tb_plans t))).
Definition count_operations (p : Operation -> bool) : handling Z :=
  read (fun t => Ok (Z.of_nat (length (List.filter p (tb_operations t))))).
Definition list_visibilities (p : Visibility -> bool) : handling (list Visibility) :=
  read (fun t => Ok (List.filter p (tb_visibilities t))).
Definition list_instances (p : ServiceInstance -> bool) : handling (list ServiceInstance) :=
  read (fun t => Ok (List.filter p (snd <$> map_to_list (tb_instances t)))).

(** [storage.GetObjectByField] for an instance: the criteria of the context apply too. *)
Definition GetObjectByField_instance (ctx : osb_request) (id : string) : handling ServiceInstance :=
  read (fun t => or_not_found (match tb_instances t !! id with
                               | Some i => if instance_matches (rq_Criteria ctx) i then Some i else None
                               | None => None
                               end)).

(** The values of the type [operation_state] of the database. *)
Definition stored_state (s : OperationState) : bool :=
  match s with OtherState _ => false | _ => true end.
Definition enum_error (s : OperationState) : error :=
  EPlain ("pq: invalid input value for enum operation_state: " ++ Strings.dquote ++ state_string s ++
          Strings.dquote).

Definition create_operation (op : Operation) : handling unit :=
  storage_call (fun t =>
    if negb (stored_state (State op)) then (t, Err (enum_error (State op)))
    else if List.existsb (fun o => String.eqb (ID o) (ID op)) (tb_operations t)
    then (t, Err EAlreadyExistsInStorage)
    else (set_operations t (op :: tb_operations t), Ok tt)).
Definition update_operation (op : Operation) : handling unit :=
  storage_call (fun t =>
    if negb (stored_state (State op)) then (t, Err (enum_error (State op)))
    else if List.existsb (fun o => String.eqb (ID o) (ID op)) (tb_operations t)
    then (set_operations t (List.map (fun o => if String.eqb (ID o) (ID op) then op else o)
                                      (tb_operations t)), Ok tt)
    else (t, Err ENotFoundInStorage)).

Definition with_times (b : Base) (updated : Z) (ready : bool) : Base :=
  {| base_ID := base_ID b; base_CreatedAt := base_CreatedAt b; base_UpdatedAt := updated;
     base_Labels := base_Labels b; base_PagingSequence := base_PagingSequence b; base_Ready := ready;
     base_LastOperation := base_LastOperation b |}.
Definition set_si_Base (e : ServiceInstance) (b : Base) : ServiceInstance :=
  {| si_Base := b; si_Name := si_Name e; si_ServicePlanID := si_ServicePlanID e;
     si_ReferencedInstanceID := si_ReferencedInstanceID e; si_PlatformID := si_PlatformID e;
     si_DashboardURL := si_DashboardURL e; si_MaintenanceInfo := si_MaintenanceInfo e;
     si_Context := si_Context e; si_UpdateValues := si_UpdateValues e;
     si_PreviousValues := si_PreviousValues e; si_Parameters := si_Parameters e;
     si_Usable := si_Usable e; si_Shared := si_Shared e |}.
Definition set_sb_Base (e : ServiceBinding) (b : Base) : ServiceBinding :=
  {| sb_Base := b; sb_Name := sb_Name e; sb_ServiceInstanceID := sb_ServiceInstanceID e;
     sb_SyslogDrainURL := sb_SyslogDrainURL e; sb_RouteServiceURL := sb_RouteServiceURL e;
     sb_VolumeMounts := sb_VolumeMounts e; sb_Endpoints := sb_Endpoints e; sb_Context := sb_Context e;
     sb_BindResource := sb_BindResource e; sb_Credentials := sb_Credentials e;
     sb_Parameters := sb_Parameters e; sb_Integrity := sb_Integrity e |}.
Definition touch_instance (now : Z) (i : ServiceInstance) : ServiceInstance :=
  set_si_Base i (with_times (si_Base i) now (base_Ready (si_Base i))).
Definition touch_binding (now : Z) (b : ServiceBinding) : ServiceBinding :=
  set_sb_Base b (with_times (sb_Base b) now (base_Ready (sb_Base b))).

Definition create_instance (i : ServiceInstance) : handling unit :=
  storage_call (fun t =>
    match tb_instances t !! si_ID i with
    | Some _ => (t, Err EAlreadyExistsInStorage)
    | None => (set_instances t (<[si_ID i := i]> (tb_instances t)), Ok tt)
    end).
(** [Storage.Update]: the object gets a new update time. *)
Definition update_instance (i : ServiceInstance) : handling unit :=
  osb! now <- outside (fun n => Ok (time_Now n));
  storage_call (fun t =>
    match tb_instances t !! si_ID i with
    | Some _ => (set_instances t (<[si_ID i := touch_instance now i]> (tb_instances t)), Ok tt)
    | None => (t, Err ENotFoundInStorage)
    end).
Definition references_instance (id : string) (b : ServiceBinding) : bool :=
  String.eqb (sb_ServiceInstanceID b) id.
Definition delete_instance (id : string) : handling unit :=
  storage_call (fun t =>
    match tb_instances t !! id with
    | Some _ =>
        if List.existsb (references_instance id) (snd <$> map_to_list (tb_bindings t))
        then (t, Err (EForeignKeyViolation ServiceInstanceType ServiceBindingType))
        else (set_instances t (base.delete id (tb_instances t)), Ok tt)
    | None => (t, Err ENotFoundInStorage)
    end).
Definition create_binding (b : ServiceBinding) : handling unit :=
  storage_call (fun t =>
    match tb_bindings t !! sb_ID b with
    | Some _ => (t, Err EAlreadyExistsInStorage)
    | None => (set_bindings t (<[sb_ID b := b]> (tb_bindings t)), Ok tt)
    end).
Definition update_binding (b : ServiceBinding) : handling unit :=
  osb! now <- outside (fun n => Ok (time_Now n));
  storage_call (fun t =>
    match tb_bindings t !! sb_ID b with
    | Some _ => (set_bindings t (<[sb_ID b := touch_binding now b]> (tb_bindings t)), Ok tt)
    | None => (t, Err ENotFoundInStorage)
    end).
Definition delete_binding (id : string) : handling unit :=
  storage_call (fun t =>
    match tb_bindings t !! id with
    | Some _ => (set_bindings t (base.delete id (tb_bindings t)), Ok tt)
    | None => (t, Err ENotFoundInStorage)
    end).

(** [InTransaction]: beginning and committing are calls of their own, and whatever fails,
    the tables are those of the beginning. *)
Definition roll_back (before after : world) : world :=
  {| w_req := w_req after; w_tables := w_tables before; w_calls := w_calls after |}.
Definition InTransaction (f : handling unit) : handling unit := fun w =>
  let '(w1, began) := storage_call (fun t => (t, Ok tt)) w in
  match began with
  | Ok _ =>
      let '(w2, r) := f w1 in
      match r with
      | Ok _ =>
          let '(w3, committed) := storage_call (fun t => (t, Ok tt)) w2 in
          match committed with
          | Ok _ => (w3, Ok tt)
          | failed => (roll_back w w3, failed)
          end
      | failed => (roll_back w w2, failed)
      end
  | failed => (w1, failed)
  end.
End Storage.

(** [if err != nil { return util.HandleStorageError(err, name) }]. *)
Definition handled {A} (name : string) (m : handling A) : handling A :=
  osb! r <- h_try m;
  match r with
  | inl a => h_ret a
  | inr e => h_fail (default e (HandleStorageError (Some e) name))
  end.
(** The same for a call that may find nothing. *)
Definition handled_not_found {A} (name : string) (m : handling A) : handling (option A) :=
  osb! r <- h_try m;
  match r with
  | inl a => h_ret (Some a)
  | inr ENotFoundInStorage => h_ret None
  | inr e => h_fail (default e (HandleStorageError (Some e) name))
  end.
