(* ===== verification/OSBStore.v ===== *)
(** * The OSB store plugin (api/osb/osb_store_plugin.go)

    The plugin mirrors in the storage what a broker answers to the OSB requests of a platform:
    it stores instances and bindings with the operation that made them, follows the
    operations by the answers to polls, and deletes, makes ready or rolls back the entity when
    the operation ends.  Each handler calls the rest of the chain and does its writes in
    one transaction.

    [context.Context] is a snapshot of the request: the handlers that read the context before
    they call the rest of the chain keep it, the others see what later plugins changed.
    Decoding JSON is a parameter; an answer that does not parse is decoded into what Go
    leaves in the struct. *)

From S2P Require Import Prelude GoStd Errors Query OperationTypes DomainTypes OSBWorld.
From stdpp Require Import base gmap strings list.
From Stdlib Require Import ZArith.
Local Open Scope string_scope.

Definition smServicePlanIDKey : string := "sm_service_plan_id".
Definition smContextKey : string := "sm_context_key".
Definition PreserveInstanceKey : string := "preserve_service_instance_key".
Definition ReferencedInstanceIDKey : string := "referenced_instance_id".
Definition ServiceOfferingType : string := "/v1/service_offerings".
Definition ServicePlanType : string := "/v1/service_plans".
Definition BrokerIDPathParam : string := "brokerID".
Definition InstanceIDPathParam : string := "instance_id".
Definition BindingIDPathParam : string := "binding_id".

Inductive entityOperation := READY | ROLLBACK | DELETE_ENTITY | NONE.

(** ** Requests and responses *)
Record commonRequestDetails := {
  cr_BrokerID : string; cr_InstanceID : string; cr_PlatformID : string; cr_Timestamp : Z
}.
Record provisionRequest := {
  prov_ServiceID : string; prov_PlanID : string; prov_OrganizationGUID : string; prov_SpaceGUID : string;
  prov_RawContext : string; prov_RawParameters : string; prov_RawMaintenanceInfo : string
}.
Record provisionResponse := {
  prs_OperationData : string; prs_Error : string; prs_Description : string; prs_DashboardURL : string;
  prs_InstanceUsable : bool
}.
Record lastInstanceOperationResponse := { lir_provisionResponse : provisionResponse; lir_State : OperationState }.
Record lastBindOperationResponse := { lbr_State : OperationState; lbr_Error : string; lbr_Description : string }.
Record bindRequest := {
  bind_ServiceID : string; bind_PlanID : string; bind_RawContext : string; bind_BindResource : string;
  bind_Parameters : gmap string json
}.
Record bindResponse := {
  brs_OperationData : string; brs_Error : string; brs_Description : string; brs_RouteServiceUrl : string;
  brs_SyslogDrainUrl : string; brs_VolumeMounts : string; brs_Endpoints : string
}.
Record unbindResponse := { ubs_OperationData : string; ubs_Error : string; ubs_Description : string }.
Record previousValues := { pv_PlanID : string; pv_ServiceID : string; pv_MaintenanceInfo : string }.
Record updateRequest := {
  upd_ServiceID : string; upd_PlanID : string; upd_RawParameters : string; upd_RawContext : string;
  upd_MaintenanceInfo : string; upd_PreviousValues : previousValues
}.
(** [brokerError]: [GetError] and [GetDescription] of an answer. *)
Record brokerError := { be_Error : string; be_Description : string }.
Definition provision_error (r : provisionResponse) : brokerError :=
  {| be_Error := prs_Error r; be_Description := prs_Description r |}.
Definition bind_error (r : lastBindOperationResponse) : brokerError :=
  {| be_Error := lbr_Error r; be_Description := lbr_Description r |}.

Definition check_ids (service plan : string) : result unit :=
  guard_err (String.eqb service "") (EPlain "service_id cannot be empty") ;;;
  guard_err (String.eqb plan "") (EPlain "plan_id cannot be empty").
Definition provisionRequest_Validate (pr : provisionRequest) : result unit :=
  check_ids (prov_ServiceID pr) (prov_PlanID pr).
Definition bindRequest_Validate (br : bindRequest) : result unit :=
  check_ids (bind_ServiceID br) (bind_PlanID br).
Definition updateRequest_Validate (ur : updateRequest) : result unit :=
  guard_err (String.eqb (upd_ServiceID ur) "") (EPlain "service_id cannot be empty").

(** Decoding of bodies; [sjson.SetBytes] with raw JSON and at "errors.-1"; [gjson] is in
    [JSONQueries] (raw texts) and [JSONText]. *)
Class OSBJson := {
  osb_json_text :: JSONText;
  osb_queries :: JSONQueries;
  unmarshal_provisionRequest : string -> option provisionRequest;
  unmarshal_bindRequest : string -> option bindRequest;
  unmarshal_updateRequest : string -> option updateRequest;
  unmarshal_provisionResponse : string -> provisionResponse;
  unmarshal_bindResponse : string -> bindResponse;
  unmarshal_unbindResponse : string -> unbindResponse;
  unmarshal_lastInstance : string -> lastInstanceOperationResponse;
  unmarshal_lastBind : string -> lastBindOperationResponse;
  marshal_previousValues : previousValues -> result string;
  sjson_set_raw : string -> string -> string -> result string;
  sjson_append_error : option errors_json -> errors_json -> result (option errors_json)
}.

(** The codes of net/http the plugin tests. *)
Definition StatusOK : Z := 200.
Definition StatusCreated : Z := 201.
Definition StatusAccepted : Z := 202.
Definition StatusGone : Z := 410.

(** [strconv.ParseBool] and its result when it fails, false. *)
Definition parse_bool (s : string) : bool :=
  bool_decide (s ∈ ["1"; "t"; "T"; "true"; "TRUE"; "True"]).

Section Store.
Context `{OSBEnv} `{OSBJson}.

(** ** Decoding requests *)
Definition ExtractPlatformFromContext (ctx : osb_request) : result Platform :=
  match rq_User ctx with
  | None => Err (EPlain "user details not found in request context")
  | Some data =>
      let* platform := data in
      match Platform_Validate platform with
      | Ok _ => Ok platform
      | Err e => Err (EPlain ("invalid platform found in user context: " ++ Error e))
      | Panic m => Panic m
      end
  end.

Definition path_param (r : osb_request) (name : string) : result string :=
  match rq_PathParams r !! name with
  | Some v => Ok v
  | None => Err (EPlain ("path parameter missing: " ++ name))
  end.

Definition parseRequestForm : handling commonRequestDetails :=
  osb! r <- h_request;
  osb! platform <- h_lift (ExtractPlatformFromContext r);
  osb! brokerID <- h_lift (path_param r BrokerIDPathParam);
  osb! instanceID <- h_lift (path_param r InstanceIDPathParam);
  osb! now <- outside (fun n => Ok (time_Now n));
  h_ret {| cr_BrokerID := brokerID; cr_InstanceID := instanceID; cr_PlatformID := base_ID (pl_Base platform);
           cr_Timestamp := now |}.

(** [util.BytesToObject]. *)
Definition bad_request (description : string) : error := EHTTP "BadRequest" description StatusBadRequest.
Definition BytesToObject {A} (unmarshal : string -> option A) (validate : A -> result unit) (bytes : string)
    : result A :=
  match unmarshal bytes with
  | None => Err (bad_request "Failed to decode request body")
  | Some a =>
      match validate a with
      | Ok _ => Ok a
      | Err e => Err (bad_request (Error e))
      | Panic m => Panic m
      end
  end.
Definition decodeRequestBody {A} (unmarshal : string -> option A) (validate : A -> result unit)
    : handling (A * commonRequestDetails) :=
  osb! r <- h_request;
  osb! body <- h_lift (BytesToObject unmarshal validate (rq_Body r));
  osb! details <- parseRequestForm;
  h_ret (body, details).

(** ** Operations *)
Definition ShouldStoreBindings (ctx : osb_request) : bool := default true (rq_StoreBindings ctx).

Definition getOperationFromDB (id operation_id : string) : handling (option Operation) :=
  handled_not_found OperationType
    (find_operation (fun op => String.eqb (ResourceID op) id &&
                               (String.eqb operation_id "" || String.eqb (ExternalID op) operation_id))).

Definition with_outcome (op : Operation) (st : OperationState) (correlation : string)
    (errs : option errors_json) : Operation :=
  {| ID := ID op; CreatedAt := CreatedAt op; Labels_ := Labels_ op; Ready := Ready op;
     Description_ := Description_ op; Type_ := Type_ op; State := st; ResourceID := ResourceID op;
     TransitiveResources := TransitiveResources op; ResourceType := ResourceType op; Errors_ := errs;
     PlatformID := PlatformID op; CorrelationID := correlation; ExternalID := ExternalID op;
     ParentID := ParentID op; CascadeRootID := CascadeRootID op; Context_ := Context_ op;
     Reschedule := Reschedule op; RescheduleTimestamp := RescheduleTimestamp op;
     DeletionScheduled := DeletionScheduled op |}.

Definition updateOperation (operation : Operation) (resp : brokerError) (state : OperationState)
    (correlationID : string) : handling unit :=
  osb! errs <- (if negb (String.eqb (be_Error resp) "") || negb (String.eqb (be_Description resp) "")
                then h_lift (sjson_append_error (Errors_ operation)
                               (HTTPErrorJSON ("BrokerError:" ++ be_Error resp) (be_Description resp)))
                else h_ret (Errors_ operation));
  handled OperationType (update_operation (with_outcome operation state correlationID errs)).

Definition new_operation (uuid : string) (ctx : osb_request) (resourceID : string) (req : commonRequestDetails)
    (operationData : string) (state : OperationState) (category : OperationCategory)
    (correlationID objType : string) : Operation :=
  {| ID := uuid; CreatedAt := cr_Timestamp req; Labels_ := ∅; Ready := true; Description_ := "";
     Type_ := category; State := state; ResourceID := resourceID; TransitiveResources := [];
     ResourceType := objType; Errors_ := None; PlatformID := cr_PlatformID req;
     CorrelationID := correlationID; ExternalID := operationData; ParentID := ""; CascadeRootID := "";
     Context_ := rq_OperationContext ctx; Reschedule := false; RescheduleTimestamp := None;
     DeletionScheduled := None |}.
Definition storeOperation (ctx : osb_request) (resourceID : string) (req : commonRequestDetails)
    (operationData : string) (state : OperationState) (category : OperationCategory)
    (correlationID objType : string) : handling unit :=
  osb! uuid <- h_try (outside uuid_NewV4);
  match uuid with
  | inr e => h_fail (EPlain ("could not generate GUID for " ++ objType ++ ": " ++ Error e))
  | inl uuid =>
      handled OperationType (create_operation
        (new_operation uuid ctx resourceID req operationData state category correlationID objType))
  end.

(** ** Entities *)
Definition findServicePlanByCatalogIDs (brokerID catalogServiceID catalogPlanID : string)
    : handling ServicePlan :=
  osb! serviceOffering <- handled ServiceOfferingType
    (find_offering (fun o => String.eqb (so_BrokerID o) brokerID && String.eqb (so_CatalogID o) catalogServiceID));
  handled ServicePlanType
    (find_plan (fun p => String.eqb (sp_ServiceOfferingID p) (base_ID (so_Base serviceOffering)) &&
                         String.eqb (sp_CatalogID p) catalogPlanID)).

Definition new_base (id : string) (time : Z) (ready : bool) : Base :=
  {| base_ID := id; base_CreatedAt := time; base_UpdatedAt := time; base_Labels := ∅;
     base_PagingSequence := 0; base_Ready := ready; base_LastOperation := None |}.

Definition new_instance (req : provisionRequest) (det : commonRequestDetails) (resp : provisionResponse)
    (planID reqCtx : string) (ready : bool) : ServiceInstance :=
  let instanceName := gjson_string (prov_RawContext req) "instance_name" in
  {| si_Base := new_base (cr_InstanceID det) (cr_Timestamp det) ready;
     si_Name := if String.eqb instanceName "" then cr_InstanceID det else instanceName;
     si_ServicePlanID := planID;
     si_ReferencedInstanceID := gjson_string (prov_RawParameters req) ReferencedInstanceIDKey;
     si_PlatformID := cr_PlatformID det;
     si_DashboardURL := prs_DashboardURL resp;
     si_MaintenanceInfo := prov_RawMaintenanceInfo req;
     si_Context := reqCtx;
     si_UpdateValues := (None, []);
     si_PreviousValues := "";
     si_Parameters := ∅;
     si_Usable := true;
     si_Shared := None |}.
Definition storeInstance (req : provisionRequest) (det : commonRequestDetails) (resp : provisionResponse)
    (ready : bool) : handling unit :=
  osb! plan <- findServicePlanByCatalogIDs (cr_BrokerID det) (prov_ServiceID req) (prov_PlanID req);
  osb! reqCtx <- h_lift (DeleteSignatureField (prov_RawContext req));
  handled ServiceInstanceType
    (create_instance (new_instance req det resp (base_ID (sp_Base plan)) reqCtx ready)).

Definition storeBinding (ctx : osb_request) (bindingID : string) (req : bindRequest)
    (det : commonRequestDetails) (resp : bindResponse) (ready : bool) : handling unit :=
  let bindingName := gjson_string (bind_RawContext req) "binding_name" in
  let bindingName := if String.eqb bindingName "" then bindingID else bindingName in
  osb! reqCtx <- h_lift (DeleteSignatureField (bind_RawContext req));
  osb! serviceInstance <- GetObjectByField_instance ctx (cr_InstanceID det);
  handled ServiceBindingType (create_binding
    {| sb_Base := new_base bindingID (cr_Timestamp det) ready;
       sb_Name := bindingName;
       sb_ServiceInstanceID := cr_InstanceID det;
       sb_SyslogDrainURL := brs_SyslogDrainUrl resp;
       sb_RouteServiceURL := brs_RouteServiceUrl resp;
       sb_VolumeMounts := brs_VolumeMounts resp;
       sb_Endpoints := brs_Endpoints resp;
       sb_Context := if String.eqb (si_ReferencedInstanceID serviceInstance) "" then reqCtx
                     else si_Context serviceInstance;
       sb_BindResource := bind_BindResource req;
       sb_Credentials := "";
       sb_Parameters := bind_Parameters req;
       sb_Integrity := "" |}).

(** The assignments to the fields of an instance that an update and its rollback make. *)
Definition set_si_plan_data (e : ServiceInstance) (planID dashboard maintenance context previous : string)
    (usable : bool) : ServiceInstance :=
  {| si_Base := si_Base e; si_Name := si_Name e; si_ServicePlanID := planID;
     si_ReferencedInstanceID := si_ReferencedInstanceID e; si_PlatformID := si_PlatformID e;
     si_DashboardURL := dashboard; si_MaintenanceInfo := maintenance;
     si_Context := context; si_UpdateValues := si_UpdateValues e;
     si_PreviousValues := previous; si_Parameters := si_Parameters e; si_Usable := usable;
     si_Shared := si_Shared e |}.
(** [if len(new) != 0 { field = new }]. *)
Definition or_kept (new old : string) : string := if String.eqb new "" then old else new.

Definition updateInstance (req : updateRequest) (det : commonRequestDetails) (resp : provisionResponse)
    : handling unit :=
  osb! found <- handled_not_found ServiceInstanceType (get_instance (cr_InstanceID det));
  match found with
  | None => h_ret tt
  | Some i =>
      osb! previous <- h_lift (marshal_previousValues (upd_PreviousValues req));
      osb! previous <- h_lift (sjson_set previous smServicePlanIDKey (si_ServicePlanID i));
      osb! previous <- h_lift (sjson_set_raw previous smContextKey (si_Context i));
      osb! planID <- (if negb (String.eqb (upd_PlanID req) "") &&
                         negb (String.eqb (pv_PlanID (upd_PreviousValues req)) (upd_PlanID req))
                      then osb! plan <- findServicePlanByCatalogIDs (cr_BrokerID det) (upd_ServiceID req)
                                          (upd_PlanID req);
                           h_ret (base_ID (sp_Base plan))
                      else h_ret (si_ServicePlanID i));
      handled ServiceInstanceType (update_instance
        (set_si_plan_data i planID (or_kept (prs_DashboardURL resp) (si_DashboardURL i))
           (or_kept (upd_MaintenanceInfo req) (si_MaintenanceInfo i))
           (or_kept (upd_RawContext req) (si_Context i)) previous (si_Usable i)))
  end.

(** [rollbackInstance]: its request is always that of a poll of an instance. *)
Definition rolled_back (usable : bool) (i : ServiceInstance) : ServiceInstance :=
  let previous := si_PreviousValues i in
  let oldCatalogPlanID := gjson_string previous smServicePlanIDKey in
  set_si_plan_data i (or_kept oldCatalogPlanID (si_ServicePlanID i)) (si_DashboardURL i)
    (or_kept (gjson_raw previous "maintenance_info") (si_MaintenanceInfo i))
    (if String.eqb oldCatalogPlanID "" then si_Context i else gjson_raw previous smContextKey)
    previous usable.
Definition rollbackInstance (instanceID : string) (usable : bool) : handling unit :=
  osb! found <- handled_not_found ServiceInstanceType (get_instance instanceID);
  match found with
  | None => h_ret tt
  | Some i => handled ServiceInstanceType (update_instance (rolled_back usable i))
  end.

Definition set_ready (b : Base) : Base := with_times b (base_UpdatedAt b) true.
(** [updateEntityReady] for the two object types it is called with. *)
Definition updateInstanceReady (resourceID : string) : handling unit :=
  osb! found <- handled_not_found ServiceInstanceType (get_instance resourceID);
  match found with
  | None => h_ret tt
  | Some i => handled ServiceInstanceType (update_instance (set_si_Base i (set_ready (si_Base i))))
  end.
Definition updateBindingReady (resourceID : string) : handling unit :=
  osb! found <- handled_not_found ServiceInstanceType (get_binding resourceID);
  match found with
  | None => h_ret tt
  | Some b => handled ServiceBindingType (update_binding (set_sb_Base b (set_ready (sb_Base b))))
  end.
Definition deleteInstance (id : string) : handling unit :=
  handled_not_found ServiceInstanceType (delete_instance id) ;! h_ret tt.
(** The type named in the error is the argument. *)
Definition deleteBinding (objType id : string) : handling unit :=
  handled_not_found objType (delete_binding id) ;! h_ret tt.

(** ** What the status of an answer leads to *)
Definition removeOsbEntity (resStatus : Z) (deleteEntity : handling unit)
    (storeOperation : OperationState -> OperationCategory -> handling unit) : handling unit :=
  if Z.eqb resStatus StatusOK || Z.eqb resStatus StatusGone
  then deleteEntity ;! storeOperation SUCCEEDED DELETE
  else if Z.eqb resStatus StatusAccepted then storeOperation IN_PROGRESS DELETE
  else h_ret tt.

Definition createOsbEntity (resStatus : Z)
    (storeOperation : OperationState -> OperationCategory -> handling unit)
    (storeEntity : bool -> handling unit) : handling unit :=
  if Z.eqb resStatus StatusCreated then storeOperation SUCCEEDED CREATE ;! storeEntity true
  else if Z.eqb resStatus StatusOK
  then osb! stored <- h_try (storeEntity true);
       match stored with
       | inl _ => storeOperation SUCCEEDED CREATE
       | inr EAlreadyExistsInStorage => h_ret tt
       | inr e => h_fail e
       end
  else if Z.eqb resStatus StatusAccepted then storeOperation IN_PROGRESS CREATE ;! storeEntity false
  else h_ret tt.

Definition handlePollDeleteResponse (resp : brokerError) (state : OperationState) (op : Operation)
    (correlationID : string) : handling entityOperation :=
  match state with
  | SUCCEEDED => updateOperation op resp state correlationID ;! h_ret DELETE_ENTITY
  | FAILED => updateOperation op resp state correlationID ;! h_ret ROLLBACK
  | _ => h_ret NONE
  end.
Definition handlePollCreateResponse (resp : brokerError) (state : OperationState) (op : Operation)
    (correlationID : string) : handling entityOperation :=
  updateOperation op resp state correlationID ;!
  h_ret (match state with SUCCEEDED => READY | FAILED => DELETE_ENTITY | _ => NONE end).
Definition handlePollUpdateResponse (resp : brokerError) (state : OperationState) (op : Operation)
    (correlationID : string) : handling entityOperation :=
  match state with
  | SUCCEEDED => updateOperation op resp state correlationID ;! h_ret NONE
  | FAILED => updateOperation op resp state correlationID ;! h_ret ROLLBACK
  | _ => h_ret NONE
  end.

(** ** The handlers of the plugin *)
Definition correlation_id : handling string := osb! r <- h_request; h_ret (rq_CorrelationID r).

Definition Bind (next : handler) : handler :=
  osb! ctx <- h_request;
  osb! bindingID <- h_lift (path_param ctx BindingIDPathParam);
  osb! decoded <- decodeRequestBody unmarshal_bindRequest bindRequest_Validate;
  let '(requestPayload, details) := decoded in
  osb! response <- next;
  if negb (ShouldStoreBindings ctx) then h_ret response
  else
    let responsePayload := unmarshal_bindResponse (rs_Body response) in
    osb! correlationID <- correlation_id;
    InTransaction (createOsbEntity (rs_StatusCode response)
      (fun state category => storeOperation ctx bindingID details (brs_OperationData responsePayload) state
                               category correlationID ServiceBindingType)
      (fun ready => storeBinding ctx bindingID requestPayload details responsePayload ready)) ;!
    h_ret response.

Definition Unbind (next : handler) : handler :=
  osb! ctx <- h_request;
  osb! bindingID <- h_lift (path_param ctx BindingIDPathParam);
  osb! details <- parseRequestForm;
  osb! response <- next;
  if negb (ShouldStoreBindings ctx) then h_ret response
  else
    let resp := unmarshal_unbindResponse (rs_Body response) in
    osb! correlationID <- correlation_id;
    InTransaction (removeOsbEntity (rs_StatusCode response) (deleteBinding ServiceBindingType bindingID)
      (fun state category => storeOperation ctx bindingID details (ubs_OperationData resp) state category
                               correlationID ServiceBindingType)) ;!
    h_ret response.

Definition Provision (next : handler) : handler :=
  osb! response <- next;
  osb! ctx <- h_request;
  osb! decoded <- decodeRequestBody unmarshal_provisionRequest provisionRequest_Validate;
  let '(requestPayload, details) := decoded in
  let responsePayload := unmarshal_provisionResponse (rs_Body response) in
  osb! correlationID <- correlation_id;
  InTransaction (createOsbEntity (rs_StatusCode response)
    (fun state category => storeOperation ctx (cr_InstanceID details) details
                             (prs_OperationData responsePayload) state category correlationID
                             ServiceInstanceType)
    (fun ready => storeInstance requestPayload details responsePayload ready)) ;!
  h_ret response.

Definition Deprovision (next : handler) : handler :=
  osb! details <- parseRequestForm;
  osb! response <- next;
  osb! ctx <- h_request;
  match rq_Operation ctx with
  | Some _ => h_ret response
  | None =>
      let responsePayload := unmarshal_provisionResponse (rs_Body response) in
      osb! correlationID <- correlation_id;
      InTransaction (removeOsbEntity (rs_StatusCode response) (deleteInstance (cr_InstanceID details))
        (fun state category => storeOperation ctx (cr_InstanceID details) details
                                 (prs_OperationData responsePayload) state category correlationID
                                 ServiceInstanceType)) ;!
      h_ret response
  end.

Definition UpdateService (next : handler) : handler :=
  osb! ctx <- h_request;
  osb! decoded <- decodeRequestBody unmarshal_updateRequest updateRequest_Validate;
  let '(requestPayload, details) := decoded in
  osb! response <- next;
  let responsePayload := unmarshal_provisionResponse (rs_Body response) in
  osb! correlationID <- correlation_id;
  InTransaction (
    let store state :=
      updateInstance requestPayload details responsePayload ;!
      storeOperation ctx (cr_InstanceID details) details (prs_OperationData responsePayload) state UPDATE
        correlationID ServiceInstanceType in
    if Z.eqb (rs_StatusCode response) StatusOK then store SUCCEEDED
    else if Z.eqb (rs_StatusCode response) StatusAccepted then store IN_PROGRESS
    else h_ret tt) ;!
  h_ret response.

Definition unsupported_type (op : Operation) : error :=
  EPlain ("unsupported operation type " ++ category_string (Type_ op)).

(** The bodies of the transactions of the two polls: [state] is the state the answer
    reports, SUCCEEDED for an answer 410. *)
Definition poll_binding_tx (bindingID operationData : string) (status : Z) (resp : lastBindOperationResponse)
    (correlationID : string) : handling unit :=
  osb! found <- getOperationFromDB bindingID operationData;
  match found with
  | None => h_ret tt
  | Some op =>
      if Z.eqb status StatusGone && negb (bool_decide (Type_ op = DELETE)) then h_ret tt
      else
        let state := if Z.eqb status StatusGone then SUCCEEDED else lbr_State resp in
        osb! instanceOp <-
          (if bool_decide (State op = state) then h_ret NONE
           else match Type_ op with
                | CREATE => handlePollCreateResponse (bind_error resp) state op correlationID
                | DELETE => handlePollDeleteResponse (bind_error resp) state op correlationID
                | _ => h_fail (unsupported_type op)
                end);
        match instanceOp with
        | READY => updateBindingReady bindingID
        | DELETE_ENTITY => deleteBinding ServiceInstanceType bindingID
        | _ => h_ret tt
        end
  end.

Definition preserves_instance (op : Operation) : bool :=
  bool_decide (Type_ op = CREATE) &&
  match Context_ op with
  | Some c => match OperationTypes.Params c !! PreserveInstanceKey with Some v => parse_bool v | None => false end
  | None => false
  end.
Definition poll_instance_tx (instanceID operationData : string) (status : Z)
    (resp : lastInstanceOperationResponse) (correlationID : string) : handling unit :=
  osb! found <- getOperationFromDB instanceID operationData;
  match found with
  | None => h_ret tt
  | Some op =>
      if Z.eqb status StatusGone && negb (bool_decide (Type_ op = DELETE)) then h_ret tt
      else
        let state := if Z.eqb status StatusGone then SUCCEEDED else lir_State resp in
        let brokerErr := provision_error (lir_provisionResponse resp) in
        osb! instanceOp <-
          (if bool_decide (State op = state) then h_ret NONE
           else match Type_ op with
                | CREATE => handlePollCreateResponse brokerErr state op correlationID
                | UPDATE => handlePollUpdateResponse brokerErr state op correlationID
                | DELETE => handlePollDeleteResponse brokerErr state op correlationID
                | OtherCategory _ => h_fail (unsupported_type op)
                end);
        match instanceOp with
        | READY => updateInstanceReady instanceID
        | DELETE_ENTITY => if preserves_instance op then h_ret tt else deleteInstance instanceID
        | ROLLBACK => rollbackInstance instanceID (prs_InstanceUsable (lir_provisionResponse resp))
        | NONE => h_ret tt
        end
  end.

(** The field [OperationData] of the payloads of the two polls: neither [parseRequestForm] nor
    anything else sets it. *)
Definition OperationData_unset : string := "".

Definition polled (status : Z) : bool := Z.eqb status StatusOK || Z.eqb status StatusGone.

Definition PollBinding (next : handler) : handler :=
  osb! ctx <- h_request;
  osb! bindingID <- h_lift (path_param ctx BindingIDPathParam);
  osb! details <- parseRequestForm;
  osb! response <- next;
  if negb (ShouldStoreBindings ctx) then h_ret response
  else if negb (polled (rs_StatusCode response)) then h_ret response
  else
    let responsePayload := unmarshal_lastBind (rs_Body response) in
    osb! correlationID <- correlation_id;
    InTransaction (poll_binding_tx bindingID OperationData_unset (rs_StatusCode response) responsePayload correlationID) ;!
    h_ret response.

Definition PollInstance (next : handler) : handler :=
  osb! details <- parseRequestForm;
  osb! response <- next;
  osb! ctx <- h_request;
  match rq_Operation ctx with
  | Some _ => h_ret response
  | None =>
      if negb (polled (rs_StatusCode response)) then h_ret response
      else
        let resp := unmarshal_lastInstance (rs_Body response) in
        osb! correlationID <- correlation_id;
        InTransaction (poll_instance_tx (cr_InstanceID details) OperationData_unset (rs_StatusCode response) resp
                         correlationID) ;!
        h_ret response
  end.
End Store.
