(* ===== verification/OSBStoreProps.v ===== *)
(** * Lemmas on handlers and transactions

    What a successful call of the storage does to the tables, the atomicity of a transaction, and
    the outcome of each helper of the store plugin in terms of the tables. *)

From S2P Require Import Prelude GoStd Errors Query OperationTypes DomainTypes OSBWorld OSBStore.
From stdpp Require Import base gmap strings list.
From Stdlib Require Import ZArith.
Local Open Scope string_scope.

(** ** Inversion *)
Lemma h_bind_ok {A B} (m : handling A) (f : A -> handling B) w w' b :
  h_bind m f w = (w', Ok b) -> exists w1 a, m w = (w1, Ok a) /\ f a w1 = (w', Ok b).
Proof. unfold h_bind. destruct (m w) as [w1 [a|e|x]]; naive_solver. Qed.
Lemma h_try_ok {A} (m : handling A) w w' x :
  h_try m w = (w', Ok x) ->
  (exists a, x = inl a /\ m w = (w', Ok a)) \/ (exists e, x = inr e /\ m w = (w', Err e)).
Proof. unfold h_try. destruct (m w) as [w1 [a|e|y]]; naive_solver. Qed.
Lemma handled_ok {A} name (m : handling A) w w' a : handled name m w = (w', Ok a) -> m w = (w', Ok a).
Proof.
  intros (w1 & x & Hm & Hx)%h_bind_ok.
  apply h_try_ok in Hm as [(a' & -> & Hm)|(e & -> & Hm)]; [|discriminate Hx].
  by injection Hx as <- <-.
Qed.
Lemma handled_not_found_ok {A} name (m : handling A) w w' o :
  handled_not_found name m w = (w', Ok o) ->
  (exists a, o = Some a /\ m w = (w', Ok a)) \/ (o = None /\ m w = (w', Err ENotFoundInStorage)).
Proof.
  intros (w1 & x & Hm & Hx)%h_bind_ok.
  apply h_try_ok in Hm as [(a' & -> & Hm)|(e & -> & Hm)].
  - injection Hx as <- <-. eauto.
  - right. destruct e; try discriminate Hx. by injection Hx as <- <-.
Qed.

Section Calls.
Context `{OSBEnv}.

Lemma storage_call_ok {A} (f : tables -> tables * result A) w w' a :
  storage_call f w = (w', Ok a) -> f (w_tables w) = (w_tables w', Ok a) /\ w_req w' = w_req w.
Proof.
  unfold storage_call. destruct (fault (w_calls w)); [naive_solver|].
  destruct (f (w_tables w)) as [t r]. intros [= <- ->]. done.
Qed.
(** A read leaves the tables, whatever it answers. *)
Lemma read_tables {A} (f : tables -> result A) w w' r : read f w = (w', r) -> w_tables w' = w_tables w.
Proof. unfold read, storage_call. destruct (fault (w_calls w)); by intros [= <- <-]. Qed.
Lemma read_ok {A} (f : tables -> result A) w w' a :
  read f w = (w', Ok a) -> w_tables w' = w_tables w /\ f (w_tables w) = Ok a.
Proof. intros Hr. split; [by eapply read_tables|]. apply storage_call_ok in Hr as [[=] _]. congruence. Qed.
Lemma outside_ok {A} (f : nat -> result A) w w' r : outside f w = (w', r) -> w_tables w' = w_tables w /\ w_req w' = w_req w.
Proof. by intros [= <- <-]. Qed.

Lemma create_operation_ok op w w' u :
  create_operation op w = (w', Ok u) ->
  w_tables w' = set_operations (w_tables w) (op :: tb_operations (w_tables w)) /\
  ID op ∉ (ID <$> tb_operations (w_tables w)).
Proof.
  intros [Hf _]%storage_call_ok. destruct (stored_state (State op)); simpl in Hf; [|done].
  destruct (List.existsb _ _) eqn:Ex; [done|]. injection Hf as Hf. split; [done|].
  intros (o & Ho & Hin)%list_elem_of_fmap. apply Bool.not_true_iff_false in Ex. apply Ex.
  apply List.existsb_exists. exists o. split; [by apply list_elem_of_In|]. apply String.eqb_eq. congruence.
Qed.
Lemma update_operation_ok op w w' u :
  update_operation op w = (w', Ok u) ->
  w_tables w' = set_operations (w_tables w)
    (List.map (fun o => if String.eqb (ID o) (ID op) then op else o) (tb_operations (w_tables w))) /\
  stored_state (State op) = true.
Proof.
  intros [Hf _]%storage_call_ok. destruct (stored_state (State op)); simpl in Hf; [|done].
  case_match; naive_solver.
Qed.
Lemma create_instance_ok i w w' u :
  create_instance i w = (w', Ok u) ->
  tb_instances (w_tables w) !! si_ID i = None /\
  w_tables w' = set_instances (w_tables w) (<[si_ID i := i]> (tb_instances (w_tables w))).
Proof. intros [Hf _]%storage_call_ok. case_match; naive_solver. Qed.
Lemma create_binding_ok b w w' u :
  create_binding b w = (w', Ok u) ->
  tb_bindings (w_tables w) !! sb_ID b = None /\
  w_tables w' = set_bindings (w_tables w) (<[sb_ID b := b]> (tb_bindings (w_tables w))).
Proof. intros [Hf _]%storage_call_ok. case_match; naive_solver. Qed.
Lemma update_instance_ok i w w' u :
  update_instance i w = (w', Ok u) ->
  exists now, w_tables w' = set_instances (w_tables w) (<[si_ID i := touch_instance now i]> (tb_instances (w_tables w))).
Proof.
  intros (w1 & now & [Ht _]%outside_ok & [Hf _]%storage_call_ok)%h_bind_ok. rewrite Ht in Hf.
  exists now. case_match; naive_solver.
Qed.
Lemma update_binding_ok b w w' u :
  update_binding b w = (w', Ok u) ->
  exists now, w_tables w' = set_bindings (w_tables w) (<[sb_ID b := touch_binding now b]> (tb_bindings (w_tables w))).
Proof.
  intros (w1 & now & [Ht _]%outside_ok & [Hf _]%storage_call_ok)%h_bind_ok. rewrite Ht in Hf.
  exists now. case_match; naive_solver.
Qed.

(** A deletion that finds nothing finds nothing to delete, up to a failure of the storage that
    claims so: such an answer leaves the table as it is. *)
Definition honest : Prop := forall n, fault n <> Some ENotFoundInStorage.

Lemma deleteInstance_ok `{OSBJson} id w w' u :
  honest -> deleteInstance id w = (w', Ok u) ->
  w_tables w' = set_instances (w_tables w) (base.delete id (tb_instances (w_tables w))).
Proof.
  intros Hh (w1 & o & Hd & Hr)%h_bind_ok. injection Hr as <- _.
  apply handled_not_found_ok in Hd as [([] & -> & [Hf _]%storage_call_ok)|[-> Hd]].
  - repeat case_match; naive_solver.
  - unfold delete_instance, storage_call in Hd. destruct (fault (w_calls w)) eqn:Ef.
    { injection Hd as _ ->. by destruct (Hh _ Ef). }
    destruct (tb_instances (w_tables w) !! id) eqn:Ei; [repeat case_match; naive_solver|].
    injection Hd as <-. simpl. rewrite delete_id by done. by destruct (w_tables w).
Qed.
Lemma deleteBinding_ok `{OSBJson} ty id w w' u :
  honest -> deleteBinding ty id w = (w', Ok u) ->
  w_tables w' = set_bindings (w_tables w) (base.delete id (tb_bindings (w_tables w))).
Proof.
  intros Hh (w1 & o & Hd & Hr)%h_bind_ok. injection Hr as <- _.
  apply handled_not_found_ok in Hd as [([] & -> & [Hf _]%storage_call_ok)|[-> Hd]].
  - repeat case_match; naive_solver.
  - unfold delete_binding, storage_call in Hd. destruct (fault (w_calls w)) eqn:Ef.
    { injection Hd as _ ->. by destruct (Hh _ Ef). }
    destruct (tb_bindings (w_tables w) !! id) eqn:Ei; [repeat case_match; naive_solver|].
    injection Hd as <-. simpl. rewrite delete_id by done. by destruct (w_tables w).
Qed.

(** ** Transactions *)
Lemma InTransaction_ok f w w' u :
  InTransaction f w = (w', Ok u) ->
  exists w1 w2, w_tables w1 = w_tables w /\ w_req w1 = w_req w /\ f w1 = (w2, Ok tt) /\ w_tables w' = w_tables w2.
Proof.
  unfold InTransaction. destruct (storage_call _ w) as [w1 [[]|e|m]] eqn:E1; [|done|done].
  apply storage_call_ok in E1 as [[= E1] Er].
  destruct (f w1) as [w2 [[]|e|m]] eqn:E2; [|done|done].
  destruct (storage_call _ w2) as [w3 [[]|e|m]] eqn:E3; [|done|done].
  apply storage_call_ok in E3 as [[= E3] _]. intros [= <- _].
  exists w1, w2. repeat split; try done; by rewrite ?E1, ?E3.
Qed.
Lemma storage_begin_tables w w' (r : result unit) :
  storage_call (fun t => (t, Ok tt)) w = (w', r) -> w_tables w' = w_tables w.
Proof. unfold storage_call. destruct (fault (w_calls w)); by intros [= <- _]. Qed.
(** All or nothing. *)
Lemma InTransaction_failed f w w' r :
  InTransaction f w = (w', r) -> is_ok r = false -> w_tables w' = w_tables w.
Proof.
  unfold InTransaction. destruct (storage_call _ w) as [w1 [[]|e|m]] eqn:E1;
    [|intros [= <- <-] _; by eapply storage_begin_tables..].
  destruct (f w1) as [w2 [[]|e|m]]; [|by intros [= <- <-]..].
  destruct (storage_call _ w2) as [w3 [[]|e|m]]; by intros [= <- <-].
Qed.
End Calls.
