(* ===== verification/OSBMirror.v ===== *)
(** * The store plugin as a mirror of the broker

    The specification of the plugin is a transition system per resource: whether the entity is
    stored and ready, and the operations recorded for it, the newest first.  A request may
    leave a resource alone or make one of the steps of [rstep].  Here are the
    specification, the abstraction of the tables to it, the well-formedness of the tables, and
    the outcome of the plugin's transactions in these terms. *)

From S2P Require Import Prelude GoStd Errors Query OperationTypes DomainTypes OSBWorld OSBStore OSBStoreProps.
From stdpp Require Import base gmap strings list.
From Stdlib Require Import ZArith.
Local Open Scope string_scope.

(** ** Specification *)
Record entry := { en_Type : OperationCategory; en_State : OperationState; en_Preserve : bool }.
Record resource := { res_ready : option bool; res_history : list entry }.

Definition after_create (preserve : bool) (st : OperationState) (p : option bool) : option bool :=
  match st with
  | SUCCEEDED => (fun _ => true) <$> p
  | FAILED => if preserve then p else None
  | _ => p
  end.
Definition after_delete (st : OperationState) (p : option bool) : option bool :=
  match st with SUCCEEDED => None | _ => p end.
Definition final (st : OperationState) : bool :=
  match st with SUCCEEDED | FAILED => true | _ => false end.

Inductive rstep : resource -> resource -> Prop :=
  | r_created pr h :
      rstep {| res_ready := None; res_history := h |}
            {| res_ready := Some true; res_history := {| en_Type := CREATE; en_State := SUCCEEDED; en_Preserve := pr |} :: h |}
  | r_create_started pr h :
      rstep {| res_ready := None; res_history := h |}
            {| res_ready := Some false; res_history := {| en_Type := CREATE; en_State := IN_PROGRESS; en_Preserve := pr |} :: h |}
  | r_deleted p pr h :
      rstep {| res_ready := p; res_history := h |}
            {| res_ready := None; res_history := {| en_Type := DELETE; en_State := SUCCEEDED; en_Preserve := pr |} :: h |}
  | r_delete_started p pr h :
      rstep {| res_ready := p; res_history := h |}
            {| res_ready := p; res_history := {| en_Type := DELETE; en_State := IN_PROGRESS; en_Preserve := pr |} :: h |}
  | r_updated p pr st h : st = SUCCEEDED \/ st = IN_PROGRESS ->
      rstep {| res_ready := p; res_history := h |}
            {| res_ready := p; res_history := {| en_Type := UPDATE; en_State := st; en_Preserve := pr |} :: h |}
  | r_create_polled p pr st st' h : st' <> st -> stored_state st' = true ->
      rstep {| res_ready := p; res_history := {| en_Type := CREATE; en_State := st; en_Preserve := pr |} :: h |}
            {| res_ready := after_create pr st' p;
               res_history := {| en_Type := CREATE; en_State := st'; en_Preserve := pr |} :: h |}
  | r_update_polled p pr st st' h : st' <> st -> final st' = true ->
      rstep {| res_ready := p; res_history := {| en_Type := UPDATE; en_State := st; en_Preserve := pr |} :: h |}
            {| res_ready := p; res_history := {| en_Type := UPDATE; en_State := st'; en_Preserve := pr |} :: h |}
  | r_delete_polled p pr st st' h : st' <> st -> final st' = true ->
      rstep {| res_ready := p; res_history := {| en_Type := DELETE; en_State := st; en_Preserve := pr |} :: h |}
            {| res_ready := after_delete st' p;
               res_history := {| en_Type := DELETE; en_State := st'; en_Preserve := pr |} :: h |}.

(** What the newest operation says about the entity. *)
Definition coherent (r : resource) : Prop :=
  match res_history r with
  | [] => res_ready r = None
  | e :: _ =>
      match en_Type e, en_State e with
      | CREATE, SUCCEEDED => res_ready r <> Some false
      | CREATE, FAILED => en_Preserve e = false -> res_ready r = None
      | DELETE, SUCCEEDED => res_ready r = None
      | _, _ => True
      end
  end.
Lemma rstep_coherent r r' : rstep r r' -> coherent r -> coherent r'.
Proof.
  destruct 1 as [| | | | |p pr st st' h| |p pr st st' h]; intros Hc; simpl; try done;
    destruct st'; simpl; try done; [by destruct p|].
  unfold coherent. simpl. by intros ->.
Qed.

(** ** The abstraction *)
Section View.
(** Which ids are those of bindings. *)
Context (is_binding : string -> bool).

(** Only the creation of an instance is preserved. *)
Definition entry_of (op : Operation) : entry :=
  {| en_Type := Type_ op; en_State := State op;
     en_Preserve := negb (is_binding (ResourceID op)) && preserves_instance op |}.
Definition history_of (t : tables) (x : string) : list Operation :=
  List.filter (fun op => String.eqb (ResourceID op) x) (tb_operations t).
Definition ready_of (t : tables) (x : string) : option bool :=
  if is_binding x then (fun b => base_Ready (sb_Base b)) <$> tb_bindings t !! x
  else (fun i => base_Ready (si_Base i)) <$> tb_instances t !! x.
Definition view (t : tables) (x : string) : resource :=
  {| res_ready := ready_of t x; res_history := entry_of <$> history_of t x |}.

(** The tables hold each entity under its id, and no two operations with one id. *)
Record well_formed (t : tables) : Prop := {
  wf_instances k i : tb_instances t !! k = Some i -> si_ID i = k;
  wf_bindings k b : tb_bindings t !! k = Some b -> sb_ID b = k;
  wf_operations : NoDup (ID <$> tb_operations t)
}.

(** A change of the tables that a request for [x] may make. *)
Definition allowed (x : string) (t t' : tables) : Prop :=
  well_formed t' /\ (forall y, y <> x -> view t' y = view t y) /\
  (view t' x = view t x \/ rstep (view t x) (view t' x)).
Lemma allowed_refl x t : well_formed t -> allowed x t t.
Proof. intros Hw. split; [done|]. split; [done|]. by left. Qed.

(** ** The elementary changes of the tables *)
Definition add_operation (t : tables) (op : Operation) : tables := set_operations t (op :: tb_operations t).
Definition put_instance (t : tables) (i : ServiceInstance) : tables :=
  set_instances t (<[si_ID i := i]> (tb_instances t)).
Definition put_binding (t : tables) (b : ServiceBinding) : tables :=
  set_bindings t (<[sb_ID b := b]> (tb_bindings t)).
Definition drop_instance (t : tables) (x : string) : tables := set_instances t (base.delete x (tb_instances t)).
Definition drop_binding (t : tables) (x : string) : tables := set_bindings t (base.delete x (tb_bindings t)).
Definition replace_operation (t : tables) (op : Operation) : tables :=
  set_operations t (List.map (fun o => if String.eqb (ID o) (ID op) then op else o) (tb_operations t)).

Lemma view_add_operation t op y :
  view (add_operation t op) y =
  {| res_ready := ready_of t y;
     res_history := (if String.eqb (ResourceID op) y then [entry_of op] else []) ++ res_history (view t y) |}.
Proof. unfold view, history_of. simpl. by destruct (String.eqb (ResourceID op) y). Qed.
Lemma view_put_instance t i y : is_binding (si_ID i) = false ->
  view (put_instance t i) y =
  {| res_ready := if decide (y = si_ID i) then Some (base_Ready (si_Base i)) else ready_of t y;
     res_history := res_history (view t y) |}.
Proof.
  intros Hb. unfold view, put_instance, ready_of. simpl. f_equal.
  destruct (decide (y = si_ID i)) as [->|Hne]; [by rewrite Hb, lookup_insert_eq|].
  by rewrite lookup_insert_ne.
Qed.
Lemma view_put_binding t b y : is_binding (sb_ID b) = true ->
  view (put_binding t b) y =
  {| res_ready := if decide (y = sb_ID b) then Some (base_Ready (sb_Base b)) else ready_of t y;
     res_history := res_history (view t y) |}.
Proof.
  intros Hb. unfold view, put_binding, ready_of. simpl. f_equal.
  destruct (decide (y = sb_ID b)) as [->|Hne]; [by rewrite Hb, lookup_insert_eq|].
  by rewrite lookup_insert_ne.
Qed.
Lemma view_drop_instance t x y : is_binding x = false ->
  view (drop_instance t x) y =
  {| res_ready := if decide (y = x) then None else ready_of t y; res_history := res_history (view t y) |}.
Proof.
  intros Hb. unfold view, drop_instance, ready_of. simpl. f_equal.
  destruct (decide (y = x)) as [->|Hne]; [by rewrite Hb, lookup_delete_eq|]. by rewrite lookup_delete_ne.
Qed.
Lemma view_drop_binding t x y : is_binding x = true ->
  view (drop_binding t x) y =
  {| res_ready := if decide (y = x) then None else ready_of t y; res_history := res_history (view t y) |}.
Proof.
  intros Hb. unfold view, drop_binding, ready_of. simpl. f_equal.
  destruct (decide (y = x)) as [->|Hne]; [by rewrite Hb, lookup_delete_eq|]. by rewrite lookup_delete_ne.
Qed.

Lemma wf_add_operation t op :
  well_formed t -> ID op ∉ (ID <$> tb_operations t) -> well_formed (add_operation t op).
Proof. intros [Hi Hb Ho] Hn. split; [done..|]. simpl. by constructor. Qed.
Lemma wf_put_instance t i : well_formed t -> well_formed (put_instance t i).
Proof.
  intros [Hi Hb Ho]. split; [|done..]. intros k j. simpl. rewrite lookup_insert_Some.
  intros [[<- <-]|[_ Hk]]; auto.
Qed.
Lemma wf_put_binding t b : well_formed t -> well_formed (put_binding t b).
Proof.
  intros [Hi Hb Ho]. split; [done| |done]. intros k j. simpl. rewrite lookup_insert_Some.
  intros [[<- <-]|[_ Hk]]; auto.
Qed.
Lemma wf_drop_instance t x : well_formed t -> well_formed (drop_instance t x).
Proof. intros [Hi Hb Ho]. split; [|done..]. intros k j. simpl. rewrite lookup_delete_Some. intros [_ Hk]. auto. Qed.
Lemma wf_drop_binding t x : well_formed t -> well_formed (drop_binding t x).
Proof. intros [Hi Hb Ho]. split; [done| |done]. intros k j. simpl. rewrite lookup_delete_Some. intros [_ Hk]. auto. Qed.

(** ** Replacing the newest operation of a resource *)
Lemma replace_ids t op : ID <$> tb_operations (replace_operation t op) = ID <$> tb_operations t.
Proof.
  simpl. induction (tb_operations t) as [|o l IH]; [done|].
  cbn [List.map]. rewrite !fmap_cons, IH. destruct (String.eqb_spec (ID o) (ID op)); congruence.
Qed.
Lemma wf_replace_operation t op : well_formed t -> well_formed (replace_operation t op).
Proof. intros [Hi Hb Ho]. split; [done..|]. by rewrite replace_ids. Qed.

Lemma replace_absent op l : ID op ∉ (ID <$> l) ->
  List.map (fun o => if String.eqb (ID o) (ID op) then op else o) l = l.
Proof.
  induction l as [|o l IH]; [done|]. rewrite fmap_cons, not_elem_of_cons. intros [Hne Hl]. simpl.
  rewrite IH by done. destruct (String.eqb_spec (ID o) (ID op)); congruence.
Qed.
Lemma filter_replace (p : Operation -> bool) old op l :
  NoDup (ID <$> l) -> List.find p l = Some old -> ID op = ID old -> p op = true ->
  List.filter p (List.map (fun o => if String.eqb (ID o) (ID op) then op else o) l) =
  op :: List.tail (List.filter p l) /\ List.head (List.filter p l) = Some old.
Proof.
  induction l as [|o l IH]; [done|]. rewrite fmap_cons, NoDup_cons. intros [Hn Hnd] Hf Hid Hp. simpl in *.
  destruct (p o) eqn:Ep.
  - injection Hf as ->. rewrite <- Hid, String.eqb_refl, Hp. rewrite replace_absent by congruence. done.
  - destruct (String.eqb_spec (ID o) (ID op)) as [He|He].
    + destruct Hn. apply List.find_some in Hf as [Hin _]. rewrite He, Hid.
      apply list_elem_of_fmap_2. by apply list_elem_of_In.
    + rewrite Ep. by apply IH.
Qed.
Lemma filter_replace_other (p : Operation -> bool) old op l :
  NoDup (ID <$> l) -> old ∈ l -> ID op = ID old -> p op = false -> p old = false ->
  List.filter p (List.map (fun o => if String.eqb (ID o) (ID op) then op else o) l) = List.filter p l.
Proof.
  induction l as [|o l IH]; [done|]. rewrite fmap_cons, NoDup_cons. intros [Hn Hnd] Hin Hid Hp Hold. simpl.
  apply elem_of_cons in Hin as [->|Hin].
  - rewrite Hid, String.eqb_refl, Hp, Hold. rewrite <- Hid, replace_absent by congruence. done.
  - destruct (String.eqb_spec (ID o) (ID op)) as [He|He]; [|by rewrite IH].
    destruct Hn. rewrite He, Hid. by apply list_elem_of_fmap_2.
Qed.

(** The newest operation of [x], which a poll finds. *)
Definition newest (t : tables) (x : string) : option Operation :=
  List.find (fun op => String.eqb (ResourceID op) x) (tb_operations t).

Lemma view_replace_other t old op x y :
  well_formed t -> newest t x = Some old -> ID op = ID old -> ResourceID op = ResourceID old -> y <> x ->
  view (replace_operation t op) y = view t y.
Proof.
  intros Hw Hf Hid Hr Hne. apply List.find_some in Hf as [Hin Hx%String.eqb_eq].
  unfold view, history_of. f_equal. f_equal. eapply filter_replace_other; [apply Hw|by apply list_elem_of_In| | |];
    try done; rewrite ?Hr, Hx; by apply String.eqb_neq.
Qed.
Lemma view_replace_newest t old op x :
  well_formed t -> newest t x = Some old -> ID op = ID old -> ResourceID op = ResourceID old ->
  exists h, view t x = {| res_ready := ready_of t x; res_history := entry_of old :: h |} /\
    view (replace_operation t op) x = {| res_ready := ready_of t x; res_history := entry_of op :: h |}.
Proof.
  intros Hw Hf Hid Hr. pose proof Hf as [Hin Hx]%List.find_some.
  destruct (filter_replace _ _ op _ (wf_operations _ Hw) Hf Hid) as [H1 H2]; [by rewrite Hr|].
  exists (entry_of <$> List.tail (history_of t x)). unfold view, history_of. simpl. rewrite H1.
  split; [|done]. clear H1. f_equal. destruct (List.filter _ _); simpl in H2; [done|]. by injection H2 as ->.
Qed.
End View.
