(* ===== verification/OSBRefinement.v ===== *)
(** * The store plugin refines the mirror

    Every handler of the store plugin, for every answer of the broker and whatever calls of
    the storage fail, keeps the tables well-formed, leaves every resource but that of the
    request, and either leaves that resource or makes a step of the specification. *)

From S2P Require Import Prelude GoStd Errors Query OperationTypes DomainTypes OSBWorld OSBStore OSBStoreProps OSBMirror.
From stdpp Require Import base gmap strings list.
From Stdlib Require Import ZArith.
Local Open Scope string_scope.

Section Refinement.
Context `{OSBEnv} `{OSBJson} (is_binding : string -> bool).
Hypothesis storage_honest : honest.
Notation allowed := (allowed is_binding).
Notation view := (view is_binding).

(** ** Creations and deletions *)
Lemma storeOperation_ok ctx x req data st c corr ty w w' u :
  storeOperation ctx x req data st c corr ty w = (w', Ok u) ->
  exists op, w_tables w' = add_operation (w_tables w) op /\ ID op ∉ (ID <$> tb_operations (w_tables w)) /\
    ResourceID op = x /\ Type_ op = c /\ State op = st.
Proof.
  intros (w1 & g & Hg & Hc)%h_bind_ok.
  apply h_try_ok in Hg as [(id & -> & [Ht _]%outside_ok)|(e & -> & [Ht _]%outside_ok)]; [|done].
  apply handled_ok, create_operation_ok in Hc as [Hc Hn]. rewrite Ht in Hc, Hn. eexists. by repeat split.
Qed.

Lemma findServicePlan_ok b s p w w' plan :
  findServicePlanByCatalogIDs b s p w = (w', Ok plan) -> w_tables w' = w_tables w.
Proof.
  intros (w1 & o & [Ho _]%handled_ok%read_ok & [Hp _]%handled_ok%read_ok)%h_bind_ok. congruence.
Qed.
Lemma storeInstance_ok req det resp ready w w' u :
  storeInstance req det resp ready w = (w', Ok u) ->
  exists i, w_tables w' = put_instance (w_tables w) i /\ si_ID i = cr_InstanceID det /\
    base_Ready (si_Base i) = ready /\ tb_instances (w_tables w) !! cr_InstanceID det = None.
Proof.
  intros (w1 & p & Hp%findServicePlan_ok & (w2 & c & [= <- _] & [Hn Hc]%handled_ok%create_instance_ok)%h_bind_ok)%h_bind_ok.
  rewrite Hp in Hn, Hc. eexists. by repeat split.
Qed.
Lemma storeBinding_ok ctx x req det resp ready w w' u :
  storeBinding ctx x req det resp ready w = (w', Ok u) ->
  exists b, w_tables w' = put_binding (w_tables w) b /\ sb_ID b = x /\
    base_Ready (sb_Base b) = ready /\ tb_bindings (w_tables w) !! x = None.
Proof.
  intros (w1 & c & [= <- _] & (w2 & i & [Hi _]%read_ok & [Hn Hc]%handled_ok%create_binding_ok)%h_bind_ok)%h_bind_ok.
  rewrite Hi in Hn, Hc. eexists. by repeat split.
Qed.

(** ** Failures of a creation leave the tables *)
Definition reads_only {A} (m : handling A) : Prop := forall w w' r, m w = (w', r) -> w_tables w' = w_tables w.
Definition fails_clean {A} (m : handling A) : Prop :=
  forall w w' r, m w = (w', r) -> is_ok r = false -> w_tables w' = w_tables w.

Lemma reads_only_bind {A B} (m : handling A) (f : A -> handling B) :
  reads_only m -> (forall a, reads_only (f a)) -> reads_only (h_bind m f).
Proof.
  intros Hm Hf w w' r. unfold h_bind. destruct (m w) as [w1 [a|e|x]] eqn:E.
  - intros E'. by rewrite (Hf _ _ _ _ E'), (Hm _ _ _ E).
  - intros [= <- _]. by eapply Hm.
  - intros [= <- _]. by eapply Hm.
Qed.
Lemma reads_only_try {A} (m : handling A) : reads_only m -> reads_only (h_try m).
Proof. intros Hm w w' r. unfold h_try. destruct (m w) as [w1 [a|e|x]] eqn:E; intros [= <- _]; by eapply Hm. Qed.
Lemma reads_only_lift {A} (r : result A) : reads_only (h_lift r).
Proof. by intros w w' r' [= <- _]. Qed.
Lemma reads_only_ret {A} (a : A) : reads_only (h_ret a).
Proof. by intros w w' r' [= <- _]. Qed.
Lemma reads_only_fail {A} e : reads_only (@h_fail A e).
Proof. by intros w w' r' [= <- _]. Qed.
Lemma reads_only_read {A} (f : tables -> result A) : reads_only (read f).
Proof. intros w w' r. apply read_tables. Qed.
Lemma reads_only_outside {A} (f : nat -> result A) : reads_only (outside f).
Proof. by intros w w' r [= <- _]. Qed.
Lemma reads_only_request : reads_only h_request.
Proof. by intros w w' r [= <- _]. Qed.
Lemma reads_only_handled {A} name (m : handling A) : reads_only m -> reads_only (handled name m).
Proof.
  intros Hm. apply reads_only_bind; [by apply reads_only_try|].
  intros []; [apply reads_only_ret|apply reads_only_fail].
Qed.
Lemma reads_only_handled_not_found {A} name (m : handling A) :
  reads_only m -> reads_only (handled_not_found name m).
Proof.
  intros Hm. apply reads_only_bind; [by apply reads_only_try|].
  intros [a|[]]; first [apply reads_only_ret|apply reads_only_fail].
Qed.
End Refinement.

Create HintDb osb.
#[export] Hint Resolve reads_only_lift reads_only_ret reads_only_fail reads_only_read reads_only_outside
  reads_only_request reads_only_handled reads_only_handled_not_found reads_only_try : osb.
#[export] Hint Extern 3 (reads_only (h_bind _ _)) => apply reads_only_bind; [|intros ?] : osb.

Section Refinement2.
Context `{OSBEnv} `{OSBJson} (is_binding : string -> bool).
Hypothesis storage_honest : honest.
Notation allowed := (allowed is_binding).
Notation view := (view is_binding).
Notation ready_of := (ready_of is_binding).

Lemma fails_clean_bind {A B} (m : handling A) (f : A -> handling B) :
  reads_only m -> (forall a, fails_clean (f a)) -> fails_clean (h_bind m f).
Proof.
  intros Hm Hf w w' r. unfold h_bind. destruct (m w) as [w1 [a|e|x]] eqn:E.
  - intros E' Hr. by rewrite (Hf _ _ _ _ E' Hr), (Hm _ _ _ E).
  - intros [= <- <-] _. by eapply Hm.
  - intros [= <- <-] _. by eapply Hm.
Qed.
Lemma fails_clean_handled {A} name (m : handling A) : fails_clean m -> fails_clean (handled name m).
Proof.
  intros Hm w w' r. unfold handled, h_bind, h_try. destruct (m w) as [w1 [a|e|x]] eqn:E; intros [= <- <-];
    try done; intros _; by eapply Hm.
Qed.
Lemma fails_clean_create_instance i : fails_clean (create_instance i).
Proof.
  intros w w' r. unfold create_instance, storage_call. destruct (fault (w_calls w)); [by intros [= <- <-]|].
  destruct (_ !! _); by intros [= <- <-].
Qed.
Lemma fails_clean_create_binding b : fails_clean (create_binding b).
Proof.
  intros w w' r. unfold create_binding, storage_call. destruct (fault (w_calls w)); [by intros [= <- <-]|].
  destruct (_ !! _); by intros [= <- <-].
Qed.
Lemma storeInstance_fails_clean req det resp ready : fails_clean (storeInstance req det resp ready).
Proof.
  apply fails_clean_bind; [unfold findServicePlanByCatalogIDs; eauto with osb|intros p].
  apply fails_clean_bind; [eauto with osb|intros c].
  apply fails_clean_handled, fails_clean_create_instance.
Qed.
Lemma storeBinding_fails_clean ctx x req det resp ready : fails_clean (storeBinding ctx x req det resp ready).
Proof.
  apply fails_clean_bind; [eauto with osb|intros c].
  apply fails_clean_bind; [unfold GetObjectByField_instance; eauto with osb|intros i].
  apply fails_clean_handled, fails_clean_create_binding.
Qed.

(** ** Changes of one entity *)

(** The entity of [x] changes from [p] to [q]; operations and other entities stay. *)
Definition entity_change (x : string) (p q : option bool) (t t' : tables) : Prop :=
  (well_formed t -> well_formed t') /\ tb_operations t' = tb_operations t /\
  ready_of t x = p /\ ready_of t' x = q /\ forall y, y <> x -> ready_of t' y = ready_of t y.
Lemma ready_view t y : ready_of t y = res_ready (view t y).
Proof. done. Qed.
Lemma put_instance_change t i x p r :
  is_binding x = false -> si_ID i = x -> ready_of t x = p -> base_Ready (si_Base i) = r ->
  entity_change x p (Some r) t (put_instance t i).
Proof.
  intros Hb <- Hp <-. split; [apply wf_put_instance|]. split; [done|]. split; [done|].
  split; [|intros y Hy]; rewrite (ready_view (put_instance t i)), view_put_instance by done; simpl;
    by case_decide.
Qed.
Lemma put_binding_change t b x p r :
  is_binding x = true -> sb_ID b = x -> ready_of t x = p -> base_Ready (sb_Base b) = r ->
  entity_change x p (Some r) t (put_binding t b).
Proof.
  intros Hb <- Hp <-. split; [apply wf_put_binding|]. split; [done|]. split; [done|].
  split; [|intros y Hy]; rewrite (ready_view (put_binding t b)), view_put_binding by done; simpl;
    by case_decide.
Qed.
Lemma drop_instance_change t x : is_binding x = false -> entity_change x (ready_of t x) None t (drop_instance t x).
Proof.
  intros Hb. split; [apply wf_drop_instance|]. split; [done|]. split; [done|].
  split; [|intros y Hy]; rewrite (ready_view (drop_instance t x)), view_drop_instance by done; simpl;
    by case_decide.
Qed.
Lemma drop_binding_change t x : is_binding x = true -> entity_change x (ready_of t x) None t (drop_binding t x).
Proof.
  intros Hb. split; [apply wf_drop_binding|]. split; [done|]. split; [done|].
  split; [|intros y Hy]; rewrite (ready_view (drop_binding t x)), view_drop_binding by done; simpl;
    by case_decide.
Qed.
Lemma no_change t x : entity_change x (ready_of t x) (ready_of t x) t t.
Proof. done. Qed.


(** The tables after a change of the entity of [x] and of its history. *)
Lemma allowed_step x t t' p q h h' :
  well_formed t -> well_formed t' -> (forall y, y <> x -> view t' y = view t y) ->
  view t x = {| res_ready := p; res_history := h |} -> view t' x = {| res_ready := q; res_history := h' |} ->
  rstep {| res_ready := p; res_history := h |} {| res_ready := q; res_history := h' |} -> allowed x t t'.
Proof. intros _ Hw Ho Hx Hx' Hs. split; [done|]. split; [done|]. right. by rewrite Hx, Hx'. Qed.

Lemma view_change x p q t t' y : entity_change x p q t t' ->
  view t' y = {| res_ready := if decide (y = x) then q else ready_of t y; res_history := res_history (view t y) |}.
Proof.
  intros (_ & Ho & _ & Hq & Hr). unfold OSBMirror.view, history_of. rewrite Ho. simpl. f_equal.
  destruct (decide (y = x)) as [->|Hy]; [done|]. by apply Hr.
Qed.

(** An operation is added before or after the entity changes. *)
Lemma added_then_changed x p q t t' op :
  well_formed t -> ResourceID op = x -> ID op ∉ (ID <$> tb_operations t) ->
  entity_change x p q (add_operation t op) t' ->
  (forall h, rstep {| res_ready := p; res_history := h |} {| res_ready := q; res_history := entry_of is_binding op :: h |}) ->
  allowed x t t'.
Proof.
  intros Hw Hr Hn Hc Hs. assert (Hw' : well_formed t') by by apply Hc, wf_add_operation.
  destruct Hc as (Hwf & Ho & Hp & Hc). eapply allowed_step; [done..| | | |apply (Hs (res_history (view t x)))].
  - intros y Hy. rewrite (view_change x p q _ _ _ (conj Hwf (conj Ho (conj Hp Hc)))), decide_False by done.
    rewrite view_add_operation. simpl. rewrite (proj2 (String.eqb_neq _ _)) by congruence. done.
  - by rewrite <- Hp.
  - rewrite (view_change x p q _ _ _ (conj Hwf (conj Ho (conj Hp Hc)))), decide_True by done.
    rewrite view_add_operation. simpl. by rewrite (proj2 (String.eqb_eq _ _)).
Qed.
Lemma changed_then_added x p q t t' op :
  well_formed t -> ResourceID op = x -> ID op ∉ (ID <$> tb_operations t') ->
  entity_change x p q t t' ->
  (forall h, rstep {| res_ready := p; res_history := h |} {| res_ready := q; res_history := entry_of is_binding op :: h |}) ->
  allowed x t (add_operation t' op).
Proof.
  intros Hw Hr Hn Hc Hs. assert (Hw' : well_formed t') by by apply Hc.
  eapply allowed_step; [done|by apply wf_add_operation| | | |apply (Hs (res_history (view t x)))].
  - intros y Hy. rewrite view_add_operation, (proj2 (String.eqb_neq _ _)) by congruence.
    rewrite ready_view, (view_change _ _ _ _ _ y Hc), decide_False by done. done.
  - destruct Hc as (_ & _ & <- & _). done.
  - rewrite view_add_operation, (proj2 (String.eqb_eq _ _)) by done.
    rewrite ready_view, (view_change _ _ _ _ _ x Hc), decide_True by done. done.
Qed.

(** ** The transactions *)
Definition records (x : string) (so : OperationState -> OperationCategory -> handling unit) : Prop :=
  forall st c w w' u, so st c w = (w', Ok u) ->
  exists op, w_tables w' = add_operation (w_tables w) op /\ ID op ∉ (ID <$> tb_operations (w_tables w)) /\
    ResourceID op = x /\ Type_ op = c /\ State op = st.
Lemma storeOperation_records ctx x req data corr ty :
  records x (fun st c => storeOperation ctx x req data st c corr ty).
Proof. intros st c w w' u. apply storeOperation_ok. Qed.

Lemma create_allowed x status so se w w' u :
  records x so ->
  (forall ready w w' u, se ready w = (w', Ok u) -> entity_change x None (Some ready) (w_tables w) (w_tables w')) ->
  (forall ready, fails_clean (se ready)) ->
  well_formed (w_tables w) -> createOsbEntity status so se w = (w', Ok u) ->
  allowed x (w_tables w) (w_tables w').
Proof.
  intros Hso Hse Hcl Hw. unfold createOsbEntity. repeat case_match.
  - intros (w1 & [] & Ho & Hc%Hse)%h_bind_ok.
    apply Hso in Ho as (op & Ht & Hn & Hr & Hty & Hst). rewrite Ht in Hc.
    eapply added_then_changed; [done..|]. intros h. unfold entry_of. rewrite Hty, Hst. constructor.
  - intros (w1 & s & Ho & Hc)%h_bind_ok. apply h_try_ok in Ho as [([] & -> & Ho%Hse)|(e & -> & Ho)].
    + apply Hso in Hc as (op & -> & Hn & Hr & Hty & Hst).
      eapply changed_then_added; [done..|]. intros h. unfold entry_of. rewrite Hty, Hst. constructor.
    + pose proof (Hcl _ _ _ _ Ho eq_refl) as Hkept. destruct e; try discriminate Hc. injection Hc as <- _.
      rewrite Hkept.
      by apply allowed_refl.
  - intros (w1 & [] & Ho & Hc%Hse)%h_bind_ok.
    apply Hso in Ho as (op & Ht & Hn & Hr & Hty & Hst). rewrite Ht in Hc.
    eapply added_then_changed; [done..|]. intros h. unfold entry_of. rewrite Hty, Hst. constructor.
  - intros [= <- _]. by apply allowed_refl.
Qed.

Lemma remove_allowed x status so de w w' u :
  records x so ->
  (forall w w' u, de w = (w', Ok u) -> entity_change x (ready_of (w_tables w) x) None (w_tables w) (w_tables w')) ->
  well_formed (w_tables w) -> removeOsbEntity status de so w = (w', Ok u) ->
  allowed x (w_tables w) (w_tables w').
Proof.
  intros Hso Hde Hw. unfold removeOsbEntity. repeat case_match.
  - intros (w1 & [] & Hd%Hde & Ho)%h_bind_ok. apply Hso in Ho as (op & -> & Hn & Hr & Hty & Hst).
    eapply changed_then_added; [done..|]. intros h. unfold entry_of. rewrite Hty, Hst. constructor.
  - intros Ho. apply Hso in Ho as (op & -> & Hn & Hr & Hty & Hst).
    eapply changed_then_added; [done..|apply no_change|]. intros h. unfold entry_of. rewrite Hty, Hst. constructor.
  - intros [= <- _]. by apply allowed_refl.
Qed.

(** A change of an instance that keeps its id and whether it is ready. *)
Lemma kept_instance_change t x i i' :
  is_binding x = false -> tb_instances t !! x = Some i -> si_ID i' = x ->
  entity_change x (Some (base_Ready (si_Base i))) (Some (base_Ready (si_Base i'))) t (put_instance t i').
Proof.
  intros Hb Hi Hid. apply put_instance_change; try done. unfold OSBMirror.ready_of. by rewrite Hb, Hi.
Qed.
Lemma kept_binding_change t x b b' :
  is_binding x = true -> tb_bindings t !! x = Some b -> sb_ID b' = x ->
  entity_change x (Some (base_Ready (sb_Base b))) (Some (base_Ready (sb_Base b'))) t (put_binding t b').
Proof.
  intros Hb Hi Hid. apply put_binding_change; try done. unfold OSBMirror.ready_of. by rewrite Hb, Hi.
Qed.
Lemma or_not_found_ok {A} (o : option A) a : or_not_found o = Ok a -> o = Some a.
Proof. by destruct o; intros [= ->]. Qed.
(** A lookup that may find nothing tells what the table holds. *)
Lemma handled_found {A} name (f : tables -> option A) w w' o :
  handled_not_found name (read (fun t => or_not_found (f t))) w = (w', Ok o) ->
  w_tables w' = w_tables w /\ f (w_tables w) = o.
Proof.
  intros [(i & -> & [Ht Hi%or_not_found_ok]%read_ok)|[-> Hn]]%handled_not_found_ok; [done|].
  split; [by eapply read_tables|]. unfold read, storage_call in Hn.
  destruct (fault (w_calls w)) eqn:Ef; injection Hn as <- Hn.
  - subst. by destruct (storage_honest _ Ef).
  - by destruct (f (w_tables w)).
Qed.

Lemma update_instance_change x i i' w w' u :
  is_binding x = false -> tb_instances (w_tables w) !! x = Some i -> si_ID i' = x ->
  update_instance i' w = (w', Ok u) ->
  entity_change x (Some (base_Ready (si_Base i))) (Some (base_Ready (si_Base i'))) (w_tables w) (w_tables w').
Proof.
  intros Hb Hi Hid [now ->]%update_instance_ok.
  exact (kept_instance_change (w_tables w) x i (touch_instance now i') Hb Hi Hid).
Qed.
Lemma update_binding_change x b b' w w' u :
  is_binding x = true -> tb_bindings (w_tables w) !! x = Some b -> sb_ID b' = x ->
  update_binding b' w = (w', Ok u) ->
  entity_change x (Some (base_Ready (sb_Base b))) (Some (base_Ready (sb_Base b'))) (w_tables w) (w_tables w').
Proof.
  intros Hb Hi Hid [now ->]%update_binding_ok.
  exact (kept_binding_change (w_tables w) x b (touch_binding now b') Hb Hi Hid).
Qed.

Lemma ready_instance t x : is_binding x = false ->
  ready_of t x = (fun i => base_Ready (si_Base i)) <$> tb_instances t !! x.
Proof. intros Hb. unfold OSBMirror.ready_of. by rewrite Hb. Qed.
Lemma ready_binding t x : is_binding x = true ->
  ready_of t x = (fun b => base_Ready (sb_Base b)) <$> tb_bindings t !! x.
Proof. intros Hb. unfold OSBMirror.ready_of. by rewrite Hb. Qed.

Lemma updateInstance_change req det resp w w' u :
  let x := cr_InstanceID det in
  is_binding x = false -> well_formed (w_tables w) -> updateInstance req det resp w = (w', Ok u) ->
  entity_change x (ready_of (w_tables w) x) (ready_of (w_tables w) x) (w_tables w) (w_tables w').
Proof.
  intros x Hb Hw (w1 & o & [Ht Hi]%handled_found & Hr)%h_bind_ok. destruct o as [i|].
  - apply h_bind_ok in Hr as (w2 & p1 & [= <- _] & (w3 & p2 & [= <- _] & (w4 & p3 & [= <- _] & Hr)%h_bind_ok)%h_bind_ok).
    apply h_bind_ok in Hr as (w5 & planID & Hp & Hu%handled_ok).
    assert (Hk : w_tables w5 = w_tables w1).
    { case_match; [|by injection Hp as <- _].
      apply h_bind_ok in Hp as (w6 & plan & Hp%findServicePlan_ok & [= <- _]). done. }
    rewrite Ht in Hk. rewrite <- Hk in Hw, Hi |- *. rewrite (ready_instance _ _ Hb). unfold x. rewrite Hi.
    pose proof (wf_instances _ Hw _ _ Hi) as Hid.
    refine (update_instance_change x i _ _ _ _ Hb Hi _ Hu). exact Hid.
  - injection Hr as <- _. rewrite Ht. apply no_change.
Qed.
Lemma update_allowed x so (m : handling unit) w w' st u :
  records x so ->
  (forall w w' u, well_formed (w_tables w) -> m w = (w', Ok u) ->
   entity_change x (ready_of (w_tables w) x) (ready_of (w_tables w) x) (w_tables w) (w_tables w')) ->
  st = SUCCEEDED \/ st = IN_PROGRESS ->
  well_formed (w_tables w) -> h_bind m (fun _ => so st UPDATE) w = (w', Ok u) ->
  allowed x (w_tables w) (w_tables w').
Proof.
  intros Hso Hm Hst Hw (w1 & [] & Hd & Ho)%h_bind_ok. pose proof (Hm _ _ _ Hw Hd) as Hc.
  apply Hso in Ho as (op & -> & Hn & Hr & Hty & Hs).
  eapply changed_then_added; [done..|]. intros h. unfold entry_of. rewrite Hty, Hs. by constructor.
Qed.

(** ** Polls *)
Lemma find_same {A} (p q : A -> bool) l : (forall a, p a = q a) -> List.find p l = List.find q l.
Proof. intros Hpq. induction l as [|a l IH]; simpl; [done|]. by rewrite Hpq, IH. Qed.
Lemma getOperationFromDB_ok x w w' o :
  getOperationFromDB x OperationData_unset w = (w', Ok o) ->
  w_tables w' = w_tables w /\ newest (w_tables w) x = o.
Proof.
  intros Hf. apply handled_found in Hf as [Ht Hf]. split; [done|]. rewrite <- Hf. unfold newest.
  apply find_same. intros op. simpl. by rewrite Bool.andb_true_r.
Qed.

Lemma updateOperation_ok op resp st corr w w' u :
  updateOperation op resp st corr w = (w', Ok u) ->
  exists errs, w_tables w' = replace_operation (w_tables w) (with_outcome op st corr errs) /\ stored_state st = true.
Proof.
  intros (w1 & errs & He & [Hu Hs]%handled_ok%update_operation_ok)%h_bind_ok. exists errs.
  assert (Ht : w_tables w1 = w_tables w) by (case_match; by injection He as <- _).
  by rewrite Ht in Hu.
Qed.

(** The newest operation of [x] gets another state and the entity changes. *)
Lemma polled_allowed x t t' old st corr errs q :
  well_formed t -> newest t x = Some old ->
  entity_change x (ready_of t x) q (replace_operation t (with_outcome old st corr errs)) t' ->
  (forall h, rstep {| res_ready := ready_of t x;
        res_history := {| en_Type := Type_ old; en_State := State old; en_Preserve := en_Preserve (entry_of is_binding old) |} :: h |}
     {| res_ready := q;
        res_history := {| en_Type := Type_ old; en_State := st; en_Preserve := en_Preserve (entry_of is_binding old) |} :: h |}) ->
  allowed x t t'.
Proof.
  intros Hw Hf Hc Hs. set (op := with_outcome old st corr errs) in *.
  destruct (view_replace_newest is_binding t old op x Hw Hf eq_refl eq_refl) as (h & Hv & Hv').
  eapply allowed_step; [done|by apply Hc, wf_replace_operation| |exact Hv| |apply Hs].
  - intros y Hy. rewrite (view_change _ _ _ _ _ y Hc), decide_False by done.
    rewrite <- (view_replace_other is_binding t old op x y) by done. done.
  - rewrite (view_change _ _ _ _ _ x Hc), decide_True by done. by rewrite Hv'.
Qed.

(** What the answer to a poll leads to, for a state different from the stored one. *)
Definition poll_effect (ty : OperationCategory) (st : OperationState) : entityOperation :=
  match ty, st with
  | CREATE, SUCCEEDED => READY
  | CREATE, FAILED => DELETE_ENTITY
  | DELETE, SUCCEEDED => DELETE_ENTITY
  | DELETE, FAILED => ROLLBACK
  | UPDATE, FAILED => ROLLBACK
  | _, _ => NONE
  end.
Definition poll_writes (ty : OperationCategory) (st : OperationState) : bool :=
  match ty with CREATE => true | _ => final st end.
Definition poll_response (brokerErr : brokerError) (state : OperationState) (op : Operation) (corr : string)
    : handling entityOperation :=
  match Type_ op with
  | CREATE => handlePollCreateResponse brokerErr state op corr
  | UPDATE => handlePollUpdateResponse brokerErr state op corr
  | DELETE => handlePollDeleteResponse brokerErr state op corr
  | OtherCategory _ => h_fail (unsupported_type op)
  end.
Lemma poll_response_ok e st op corr w w' eff :
  poll_response e st op corr w = (w', Ok eff) ->
  (forall n, Type_ op <> OtherCategory n) /\ eff = poll_effect (Type_ op) st /\
  if poll_writes (Type_ op) st
  then stored_state st = true /\
       exists errs, w_tables w' = replace_operation (w_tables w) (with_outcome op st corr errs)
  else w_tables w' = w_tables w.
Proof.
  unfold poll_response, handlePollCreateResponse, handlePollUpdateResponse, handlePollDeleteResponse.
  destruct (Type_ op) eqn:Ety; [| | |done]; intros Hp; (split; [done|]).
  - apply h_bind_ok in Hp as (w1 & [] & (errs & Ht & Hs)%updateOperation_ok & [= <- <-]).
    split; [by destruct st|]. simpl. eauto.
  - destruct st; try (injection Hp as <- <-; done);
      apply h_bind_ok in Hp as (w1 & [] & (errs & Ht & Hs)%updateOperation_ok & [= <- <-]); simpl; eauto.
  - destruct st; try (injection Hp as <- <-; done);
      apply h_bind_ok in Hp as (w1 & [] & (errs & Ht & Hs)%updateOperation_ok & [= <- <-]); simpl; eauto.
Qed.

(** The body of both polls: [act] is what is done to the entity. *)
Lemma poll_allowed x old st e corr (act : handling unit) w w1 w' eff u :
  well_formed (w_tables w) -> newest (w_tables w) x = Some old ->
  (if bool_decide (State old = st) then h_ret NONE else poll_response e st old corr) w = (w1, Ok eff) ->
  (eff = READY -> act w1 = (w', Ok u) ->
   entity_change x (ready_of (w_tables w1) x) ((fun _ => true) <$> ready_of (w_tables w1) x) (w_tables w1) (w_tables w')) ->
  (eff = DELETE_ENTITY -> act w1 = (w', Ok u) ->
   entity_change x (ready_of (w_tables w1) x)
     (if en_Preserve (entry_of is_binding old) && bool_decide (Type_ old = CREATE) then ready_of (w_tables w1) x else None)
     (w_tables w1) (w_tables w')) ->
  (eff = ROLLBACK \/ eff = NONE -> act w1 = (w', Ok u) -> well_formed (w_tables w1) ->
   entity_change x (ready_of (w_tables w1) x) (ready_of (w_tables w1) x) (w_tables w1) (w_tables w')) ->
  (eff = NONE -> w_tables w' = w_tables w1) ->
  act w1 = (w', Ok u) -> allowed x (w_tables w) (w_tables w').
Proof.
  intros Hw Hn Hp Hready Hdel Hkeep Hnone Ha. destruct (bool_decide (State old = st)) eqn:Hst.
  { injection Hp as <- <-. rewrite Hnone by done. by apply allowed_refl. }
  apply bool_decide_eq_false in Hst.
  apply poll_response_ok in Hp as (Hoc & -> & Hp). destruct (poll_writes (Type_ old) st) eqn:Epw.
  - destruct Hp as (Hs & errs & Ht).
    assert (Hr : ready_of (w_tables w1) x = ready_of (w_tables w) x) by by rewrite Ht.
    rewrite Hr in Hready, Hdel, Hkeep. rewrite Ht in Hready, Hdel, Hkeep.
    assert (Hw1 := wf_replace_operation _ (with_outcome old st corr errs) Hw).
    destruct (Type_ old) eqn:Ety; [| | |by destruct (Hoc name)].
    + assert (Hc : entity_change x (ready_of (w_tables w) x)
               (after_create (en_Preserve (entry_of is_binding old)) st (ready_of (w_tables w) x))
               (replace_operation (w_tables w) (with_outcome old st corr errs)) (w_tables w')).
      { destruct st; simpl in *; auto. specialize (Hdel eq_refl Ha). by rewrite Bool.andb_true_r in Hdel. }
      eapply polled_allowed; [done..|]. intros h. rewrite Ety. constructor; [congruence|done].
    + assert (Hc : entity_change x (ready_of (w_tables w) x) (ready_of (w_tables w) x)
               (replace_operation (w_tables w) (with_outcome old st corr errs)) (w_tables w')).
      { destruct st; simpl in *; auto; done. }
      eapply polled_allowed; [done..|]. intros h. rewrite Ety. constructor; [congruence|done].
    + assert (Hc : entity_change x (ready_of (w_tables w) x) (after_delete st (ready_of (w_tables w) x))
               (replace_operation (w_tables w) (with_outcome old st corr errs)) (w_tables w')).
      { destruct st; simpl in *; auto; try done. specialize (Hdel eq_refl Ha). by rewrite Bool.andb_false_r in Hdel. }
      eapply polled_allowed; [done..|]. intros h. rewrite Ety. constructor; [congruence|done].
  - assert (He : poll_effect (Type_ old) st = NONE) by (destruct (Type_ old), st; done).
    rewrite Hnone, Hp by done. by apply allowed_refl.
Qed.

Lemma updateInstanceReady_change x w w' u :
  is_binding x = false -> well_formed (w_tables w) -> updateInstanceReady x w = (w', Ok u) ->
  entity_change x (ready_of (w_tables w) x) ((fun _ => true) <$> ready_of (w_tables w) x) (w_tables w) (w_tables w').
Proof.
  intros Hb Hw (w1 & o & [Ht Hi]%handled_found & Hr)%h_bind_ok. rewrite <- Ht in Hw, Hi |- *.
  rewrite (ready_instance _ _ Hb), Hi. destruct o as [i|].
  - apply handled_ok in Hr. pose proof (wf_instances _ Hw _ _ Hi) as Hid.
    refine (update_instance_change x i _ _ _ _ Hb Hi _ Hr). exact Hid.
  - injection Hr as <- _. pose proof (no_change (w_tables w1) x) as Hc.
    by rewrite (ready_instance _ _ Hb), Hi in Hc.
Qed.
Lemma updateBindingReady_change x w w' u :
  is_binding x = true -> well_formed (w_tables w) -> updateBindingReady x w = (w', Ok u) ->
  entity_change x (ready_of (w_tables w) x) ((fun _ => true) <$> ready_of (w_tables w) x) (w_tables w) (w_tables w').
Proof.
  intros Hb Hw (w1 & o & [Ht Hi]%handled_found & Hr)%h_bind_ok. rewrite <- Ht in Hw, Hi |- *.
  rewrite (ready_binding _ _ Hb), Hi. destruct o as [i|].
  - apply handled_ok in Hr. pose proof (wf_bindings _ Hw _ _ Hi) as Hid.
    refine (update_binding_change x i _ _ _ _ Hb Hi _ Hr). exact Hid.
  - injection Hr as <- _. pose proof (no_change (w_tables w1) x) as Hc.
    by rewrite (ready_binding _ _ Hb), Hi in Hc.
Qed.
Lemma rollbackInstance_change x usable w w' u :
  is_binding x = false -> well_formed (w_tables w) -> rollbackInstance x usable w = (w', Ok u) ->
  entity_change x (ready_of (w_tables w) x) (ready_of (w_tables w) x) (w_tables w) (w_tables w').
Proof.
  intros Hb Hw (w1 & o & [Ht Hi]%handled_found & Hr)%h_bind_ok. rewrite <- Ht in Hw, Hi |- *.
  destruct o as [i|].
  - apply handled_ok in Hr. pose proof (wf_instances _ Hw _ _ Hi) as Hid.
    rewrite (ready_instance _ _ Hb), Hi. refine (update_instance_change x i _ _ _ _ Hb Hi _ Hr). exact Hid.
  - injection Hr as <- _. apply no_change.
Qed.
Lemma deleteInstance_change x w w' u :
  is_binding x = false -> deleteInstance x w = (w', Ok u) ->
  entity_change x (ready_of (w_tables w) x) None (w_tables w) (w_tables w').
Proof. intros Hb ->%deleteInstance_ok; [|done]. by apply drop_instance_change. Qed.
Lemma deleteBinding_change ty x w w' u :
  is_binding x = true -> deleteBinding ty x w = (w', Ok u) ->
  entity_change x (ready_of (w_tables w) x) None (w_tables w) (w_tables w').
Proof. intros Hb ->%deleteBinding_ok; [|done]. by apply drop_binding_change. Qed.

(** The newest operation of a resource is about it. *)
Lemma newest_resource t x op : newest t x = Some op -> ResourceID op = x.
Proof. by intros [_ Hx%String.eqb_eq]%List.find_some. Qed.
(** What an answer reports keeps the tables well-formed. *)
Lemma poll_response_wf e st op corr w w' eff :
  well_formed (w_tables w) ->
  (if bool_decide (State op = st) then h_ret NONE else poll_response e st op corr) w = (w', Ok eff) ->
  well_formed (w_tables w').
Proof.
  intros Hw. case_match; [by intros [= <- _]|]. intros (_ & _ & Hp)%poll_response_ok. case_match.
  - destruct Hp as (_ & errs & ->). by apply wf_replace_operation.
  - by rewrite Hp.
Qed.

Lemma poll_instance_allowed x status resp corr w w' u :
  is_binding x = false -> well_formed (w_tables w) ->
  poll_instance_tx x OperationData_unset status resp corr w = (w', Ok u) -> allowed x (w_tables w) (w_tables w').
Proof.
  intros Hb Hw (w1 & o & [Ht Hn]%getOperationFromDB_ok & Hr)%h_bind_ok. rewrite <- Ht in Hw, Hn |- *.
  destruct o as [op|]; [|injection Hr as <- _; by apply allowed_refl].
  case_match; [injection Hr as <- _; by apply allowed_refl|].
  apply h_bind_ok in Hr as (w2 & eff & Hp & Ha). pose proof (poll_response_wf _ _ _ _ _ _ _ Hw Hp) as Hw2.
  eapply poll_allowed; [done|done|exact Hp| | | | |exact Ha].
  - intros -> Ha'. by eapply updateInstanceReady_change.
  - intros -> Ha'. simpl. rewrite (newest_resource _ _ _ Hn), Hb. simpl in *.
    destruct (preserves_instance op) eqn:Epr.
    + injection Ha' as <- _. apply andb_true_iff in Epr as [-> _]. apply no_change.
    + by eapply deleteInstance_change.
  - intros [-> | ->] Ha' _; [by eapply rollbackInstance_change|]. injection Ha' as <- _. apply no_change.
  - intros ->. by injection Ha as <- _.
Qed.

Lemma poll_binding_allowed x status resp corr w w' u :
  is_binding x = true -> well_formed (w_tables w) ->
  poll_binding_tx x OperationData_unset status resp corr w = (w', Ok u) -> allowed x (w_tables w) (w_tables w').
Proof.
  intros Hb Hw (w1 & o & [Ht Hn]%getOperationFromDB_ok & Hr)%h_bind_ok. rewrite <- Ht in Hw, Hn |- *.
  destruct o as [op|]; [|injection Hr as <- _; by apply allowed_refl].
  case_match; [injection Hr as <- _; by apply allowed_refl|].
  apply h_bind_ok in Hr as (w2 & eff & Hp & Ha). set (st := if Z.eqb status StatusGone then _ else _) in Hp.
  assert (Hp' : (if bool_decide (State op = st) then h_ret NONE
                 else poll_response (bind_error resp) st op corr) w1 = (w2, Ok eff)).
  { destruct (bool_decide (State op = st)); [exact Hp|]. unfold poll_response. destruct (Type_ op); first [exact Hp|discriminate Hp]. }
  pose proof (poll_response_wf _ _ _ _ _ _ _ Hw Hp') as Hw2.
  eapply poll_allowed; [done|done|exact Hp'| | | | |exact Ha].
  - intros -> Ha'. by eapply updateBindingReady_change.
  - intros -> Ha'. simpl. rewrite (newest_resource _ _ _ Hn), Hb. by eapply deleteBinding_change.
  - intros [-> | ->] Ha' _; injection Ha' as <- _; apply no_change.
  - intros ->. by injection Ha as <- _.
Qed.

(** ** The handlers *)

(** What the rest of the chain does to the request and the tables: later plugins only read. *)
Definition keeps {A} (next : handling A) : Prop := forall w w' r, next w = (w', r) ->
  w_tables w' = w_tables w /\ rq_PathParams (w_req w') = rq_PathParams (w_req w).

Inductive osb_call := CProvision | CDeprovision | CUpdate | CPollInstance | CBind | CUnbind | CPollBinding.
Definition handle (c : osb_call) (next : handler) : handler :=
  match c with
  | CProvision => Provision next
  | CDeprovision => Deprovision next
  | CUpdate => UpdateService next
  | CPollInstance => PollInstance next
  | CBind => Bind next
  | CUnbind => Unbind next
  | CPollBinding => PollBinding next
  end.
Definition binding_call (c : osb_call) : bool :=
  match c with CBind | CUnbind | CPollBinding => true | _ => false end.
(** The resource a request names. *)
Definition resource_of (c : osb_call) (r : osb_request) : string :=
  default "" (rq_PathParams r !! (if binding_call c then BindingIDPathParam else InstanceIDPathParam)).

(** What a handler may do to the tables: nothing when it fails. *)
Definition outcome {A} (x : string) (r : result A) (t t' : tables) : Prop :=
  allowed x t t' /\ (is_ok r = false -> t' = t).
Lemma outcome_refl {A} x (r : result A) t : well_formed t -> outcome x r t t.
Proof. intros Hw. split; [by apply allowed_refl|done]. Qed.

Lemma transaction_outcome x f w w' r :
  InTransaction f w = (w', r) -> well_formed (w_tables w) ->
  (forall w1 w2, w_tables w1 = w_tables w -> f w1 = (w2, Ok tt) -> allowed x (w_tables w1) (w_tables w2)) ->
  outcome x r (w_tables w) (w_tables w').
Proof.
  intros Hi Hw Hf. destruct r as [[]|e|m].
  - apply InTransaction_ok in Hi as (w1 & w2 & Ht & _ & Hr & ->). split; [|done]. rewrite <- Ht. by apply Hf.
  - rewrite (InTransaction_failed _ _ _ _ Hi eq_refl). by apply outcome_refl.
  - rewrite (InTransaction_failed _ _ _ _ Hi eq_refl). by apply outcome_refl.
Qed.

Lemma outcome_bind {A B} x (m : handling A) (f : A -> handling B) w w' r :
  h_bind m f w = (w', r) -> keeps m -> well_formed (w_tables w) ->
  (forall a w1, m w = (w1, Ok a) -> w_tables w1 = w_tables w ->
   rq_PathParams (w_req w1) = rq_PathParams (w_req w) -> f a w1 = (w', r) ->
   outcome x r (w_tables w1) (w_tables w')) ->
  outcome x r (w_tables w) (w_tables w').
Proof.
  intros Hb Hk Hw Hf. unfold h_bind in Hb. destruct (m w) as [w1 [a|e|msg]] eqn:E.
  - destruct (Hk _ _ _ E) as [Ht Hp]. rewrite <- Ht. by eapply Hf.
  - injection Hb as <- _. destruct (Hk _ _ _ E) as [-> _]. by apply outcome_refl.
  - injection Hb as <- _. destruct (Hk _ _ _ E) as [-> _]. by apply outcome_refl.
Qed.
Lemma osb_keeps_bind {A B} (m : handling A) (f : A -> handling B) :
  keeps m -> (forall a, keeps (f a)) -> keeps (h_bind m f).
Proof.
  intros Hm Hf w w' r. unfold h_bind. destruct (m w) as [w1 [a|e|msg]] eqn:E; destruct (Hm _ _ _ E) as [Ht Hp].
  - intros [Ht' Hp']%Hf. split; congruence.
  - by intros [= <- _].
  - by intros [= <- _].
Qed.
Lemma keeps_request : keeps h_request.
Proof. by intros w w' r [= <- _]. Qed.
Lemma keeps_lift {A} (x : result A) : keeps (h_lift x).
Proof. by intros w w' r [= <- _]. Qed.
Lemma osb_keeps_ret {A} (x : A) : keeps (h_ret x).
Proof. by intros w w' r [= <- _]. Qed.
Lemma osb_keeps_fail {A} e : keeps (@h_fail A e).
Proof. by intros w w' r [= <- _]. Qed.
Lemma keeps_outside {A} (f : nat -> result A) : keeps (outside f).
Proof. by intros w w' r [= <- _]. Qed.
Lemma keeps_read {A} (f : tables -> result A) : keeps (read f).
Proof. intros w w' r. unfold read, storage_call. destruct (fault (w_calls w)); by intros [= <- _]. Qed.
Lemma keeps_try {A} (m : handling A) : keeps m -> keeps (h_try m).
Proof. intros Hm w w' r. unfold h_try. destruct (m w) as [w1 [a|e|x]] eqn:E; intros [= <- _]; by eapply Hm. Qed.
Lemma keeps_parse : keeps parseRequestForm.
Proof.
  repeat (apply osb_keeps_bind; [first [apply keeps_request|apply keeps_lift|apply keeps_outside]|intros ?]).
  apply osb_keeps_ret.
Qed.
Lemma keeps_decode {A} (un : string -> option A) va : keeps (decodeRequestBody un va).
Proof.
  repeat (apply osb_keeps_bind; [first [apply keeps_request|apply keeps_lift|apply keeps_parse]|intros ?]).
  apply osb_keeps_ret.
Qed.
Lemma keeps_correlation : keeps correlation_id.
Proof. apply osb_keeps_bind; [apply keeps_request|intros r; apply osb_keeps_ret]. Qed.

Lemma path_param_ok r name v : path_param r name = Ok v -> rq_PathParams r !! name = Some v.
Proof. unfold path_param. case_match; by intros [= ->]. Qed.
Lemma parse_instance w w' det :
  parseRequestForm w = (w', Ok det) -> rq_PathParams (w_req w) !! InstanceIDPathParam = Some (cr_InstanceID det).
Proof.
  intros (w1 & r & [= <- <-] & (w2 & pl & [= <- _] & (w3 & b & [= <- _] & (w4 & i & [= <- Hi%path_param_ok] & Hr)
    %h_bind_ok)%h_bind_ok)%h_bind_ok)%h_bind_ok.
  apply h_bind_ok in Hr as (w5 & now & _ & [= _ <-]). done.
Qed.
Lemma decode_instance {A} (un : string -> option A) va w w' a det :
  decodeRequestBody un va w = (w', Ok (a, det)) ->
  rq_PathParams (w_req w) !! InstanceIDPathParam = Some (cr_InstanceID det).
Proof.
  intros (w1 & r & [= <- <-] & (w2 & b & [= <- _] & (w3 & d & Hd%parse_instance & [= _ _ <-])%h_bind_ok)%h_bind_ok)%h_bind_ok.
  done.
Qed.

(** The transaction at the end of a handler. *)
Lemma tail_outcome x f (response : osb_response) w w' r :
  h_bind (InTransaction f) (fun _ => h_ret response) w = (w', r) -> well_formed (w_tables w) ->
  (forall w1 w2, w_tables w1 = w_tables w -> f w1 = (w2, Ok tt) -> allowed x (w_tables w1) (w_tables w2)) ->
  outcome x r (w_tables w) (w_tables w').
Proof.
  intros Hb Hw Hf. unfold h_bind in Hb. destruct (InTransaction f w) as [w1 r1] eqn:E.
  destruct (transaction_outcome x f w w1 r1 E Hw Hf) as [Ha Hf'].
  destruct r1; injection Hb as <- <-; split; try done; by intros _; apply Hf'.
Qed.
End Refinement2.

#[export] Hint Resolve keeps_request keeps_lift osb_keeps_ret osb_keeps_fail keeps_outside keeps_read keeps_try keeps_parse
  keeps_decode keeps_correlation : osb.
#[export] Hint Extern 3 (keeps (h_bind _ _)) => apply osb_keeps_bind; [|intros ?] : osb.

(** Steps over what a handler does before its transaction. *)
Ltac handler_step Hw :=
  match goal with
  | Hb : h_bind ?m ?f ?w = (?w', ?r) |- outcome _ ?x ?r (w_tables ?w) (w_tables ?w') =>
      eapply (outcome_bind _ x m f w w' r Hb); [eauto with osb|exact Hw|];
      let a := fresh "a" in let w1 := fresh "w" in let Hm := fresh "Hm" in let Ht := fresh "Ht" in
      let Hp := fresh "Hp" in
      clear Hb; intros a w1 Hm Ht Hp Hb; rewrite <- Ht in Hw
  end.

(** The resource of a request, once its id was read from the path. *)
Ltac handler_resource Hx Hi :=
  unfold resource_of in Hi |- *; simpl in Hi |- *; rewrite Hx in Hi |- *; simpl in Hi |- *.
Ltac handler_binding Hw Hi :=
  handler_step Hw;
  match goal with Hm : h_request _ = _ |- _ => injection Hm as <- <- end;
  handler_step Hw;
  match goal with Hm : h_lift _ _ = _ |- _ =>
    let Hx := fresh "Hx" in injection Hm as <- Hx; apply path_param_ok in Hx; handler_resource Hx Hi
  end.
(** A test after which the handler returns. *)
Ltac handler_skip :=
  case_match; [match goal with Hb : h_ret _ _ = _ |- _ => injection Hb as <- _; by apply outcome_refl end|].
Ltac handler_transaction Hw :=
  handler_step Hw;
  match goal with Hb : h_bind (InTransaction _) _ _ = _ |- _ =>
    eapply tail_outcome; [exact Hb|exact Hw|];
    let Hv := fresh "Hv" in intros ? ? Hv; rewrite <- Hv in Hw; intros Hc
  end.
