(* ===== verification/OSBTheorems.v ===== *)
(** * The handlers of the store plugin as steps of the mirror

    Each handler, given a rest of the chain that only reads, changes the tables as [OSBMirror]
    allows; and what the specification's invariant says of the tables. *)

From S2P Require Import Prelude GoStd Errors Query OperationTypes DomainTypes OSBWorld OSBStore OSBStoreProps OSBMirror OSBRefinement.
From stdpp Require Import base gmap strings list.
From Stdlib Require Import ZArith.
Local Open Scope string_scope.

Lemma find_head {A} (p : A -> bool) l : List.find p l = head (List.filter p l).
Proof. induction l as [|a l IH]; simpl; [done|]. by destruct (p a). Qed.

Section Handlers.
Context `{OSBEnv} `{OSBJson} (is_binding : string -> bool).
Hypothesis storage_honest : honest.
Notation allowed := (allowed is_binding).


(** What the store plugin's handlers are given: the rest of the chain only reads, and the
    resource is of the kind the request is about. *)
Record admissible (c : osb_call) (next : handler) (w : world) : Prop := {
  adm_keeps : keeps next;
  adm_kind : is_binding (resource_of c (w_req w)) = binding_call c
}.
Notation claim c := (forall next w w' r, admissible c next w -> well_formed (w_tables w) ->
  handle c next w = (w', r) -> outcome is_binding (resource_of c (w_req w)) r (w_tables w) (w_tables w')).

Lemma Provision_outcome : claim CProvision.
Proof.
  intros next w w' r [Hk Hi] Hw Hb. unfold handle, Provision in Hb.
  handler_step Hw. handler_step Hw. handler_step Hw. destruct a1 as [req det].
  apply decode_instance in Hm1. rewrite Hp0, Hp in Hm1.
  handler_resource Hm1 Hi.
  handler_transaction Hw.
  eapply create_allowed; [apply storeOperation_records| |intros; apply storeInstance_fails_clean|exact Hw|exact Hc].
  intros ready u1 u2 [] (i & -> & Hid & <- & Hn)%storeInstance_ok.
  apply put_instance_change; try done. unfold ready_of. by rewrite Hi, Hn.
Qed.

Lemma Deprovision_outcome : claim CDeprovision.
Proof.
  intros next w w' r [Hk Hi] Hw Hb. unfold handle, Deprovision in Hb.
  handler_step Hw. apply parse_instance in Hm.
  handler_resource Hm Hi.
  handler_step Hw. handler_step Hw. handler_skip.
  handler_transaction Hw.
  eapply remove_allowed; [apply storeOperation_records| |exact Hw|exact Hc].
  intros u1 u2 []. by apply deleteInstance_change.
Qed.

Lemma UpdateService_outcome : claim CUpdate.
Proof.
  intros next w w' r [Hk Hi] Hw Hb. unfold handle, UpdateService in Hb.
  handler_step Hw. handler_step Hw. destruct a0 as [req det]. apply decode_instance in Hm0. rewrite Hp in Hm0.
  handler_resource Hm0 Hi.
  handler_step Hw. handler_transaction Hw. repeat case_match.
  - eapply update_allowed; [apply storeOperation_records| |by left|exact Hw|exact Hc].
    intros u1 u2 []. by apply updateInstance_change.
  - eapply update_allowed; [apply storeOperation_records| |by right|exact Hw|exact Hc].
    intros u1 u2 []. by apply updateInstance_change.
  - injection Hc as <-. by apply allowed_refl.
Qed.

Lemma PollInstance_outcome : claim CPollInstance.
Proof.
  intros next w w' r [Hk Hi] Hw Hb. unfold handle, PollInstance in Hb.
  handler_step Hw. apply parse_instance in Hm.
  handler_resource Hm Hi.
  handler_step Hw. handler_step Hw. handler_skip.
  handler_skip.
  handler_transaction Hw.
  by eapply poll_instance_allowed.
Qed.

Lemma Bind_outcome : claim CBind.
Proof.
  intros next w w' r [Hk Hi] Hw Hb. unfold handle, Bind in Hb.
  handler_binding Hw Hi.
  handler_step Hw. destruct a0 as [req det].
  handler_step Hw. handler_skip.
  handler_transaction Hw.
  eapply create_allowed; [apply storeOperation_records| |intros; apply storeBinding_fails_clean|exact Hw|exact Hc].
  intros ready u1 u2 [] (b & -> & Hid & <- & Hn)%storeBinding_ok.
  apply put_binding_change; try done. unfold ready_of. by rewrite Hi, Hn.
Qed.

Lemma Unbind_outcome : claim CUnbind.
Proof.
  intros next w w' r [Hk Hi] Hw Hb. unfold handle, Unbind in Hb.
  handler_binding Hw Hi.
  handler_step Hw. handler_step Hw. handler_skip.
  handler_transaction Hw.
  eapply remove_allowed; [apply storeOperation_records| |exact Hw|exact Hc].
  intros u1 u2 []. by apply deleteBinding_change.
Qed.

Lemma PollBinding_outcome : claim CPollBinding.
Proof.
  intros next w w' r [Hk Hi] Hw Hb. unfold handle, PollBinding in Hb.
  handler_binding Hw Hi.
  handler_step Hw. handler_step Hw. handler_skip.
  handler_skip.
  handler_transaction Hw.
  by eapply poll_binding_allowed.
Qed.

Lemma handle_outcome c : claim c.
Proof.
  destruct c; [apply Provision_outcome|apply Deprovision_outcome|apply UpdateService_outcome|
    apply PollInstance_outcome|apply Bind_outcome|apply Unbind_outcome|apply PollBinding_outcome].
Qed.

(** The tables agree with the newest operation of a resource. *)
Definition stored (t : tables) (x : string) : Prop :=
  if is_binding x then is_Some (tb_bindings t !! x) else is_Some (tb_instances t !! x).
Definition mirrored (t : tables) (x : string) : Prop :=
  match newest t x with
  | None => ~ stored t x
  | Some op =>
      (Type_ op = DELETE -> State op = SUCCEEDED -> ~ stored t x) /\
      (Type_ op = CREATE -> State op = FAILED -> preserves_instance op = false -> ~ stored t x) /\
      (Type_ op = CREATE -> State op = SUCCEEDED -> stored t x -> ready_of is_binding t x = Some true)
  end.
Lemma not_stored t x : ready_of is_binding t x = None -> ~ stored t x.
Proof. unfold ready_of, stored. destruct (is_binding x); intros He [? Hs]; by rewrite Hs in He. Qed.
Lemma coherent_mirrored t x : coherent (view is_binding t x) -> mirrored t x.
Proof.
  unfold coherent, mirrored, newest, view, history_of. simpl. intros Hc.
  rewrite find_head. destruct (List.filter _ _) as [|op l]; simpl in *; [by apply not_stored|].
  split; [|split].
  - intros Hty Hs. rewrite Hty, Hs in Hc. by apply not_stored.
  - intros Hty Hs Hp. rewrite Hty, Hs, Hp in Hc. apply not_stored, Hc. by rewrite Bool.andb_false_r.
  - intros Hty Hs. rewrite Hty, Hs in Hc. unfold stored, ready_of in *.
    destruct (is_binding x); intros [e He]; rewrite He in Hc |- *; simpl in *; destruct (base_Ready _); done.
Qed.

End Handlers.
