(* ===== verification/OSBOutcomes.v ===== *)
(** * What OSB requests store and what a failed operation restores

    The rows a successful provisioning leaves, and the rollback of an instance: an update keeps
    the plan and the context it replaces, and a later failure of the newest operation puts
    them back - also when that operation is a deletion. *)

From S2P Require Import Prelude GoStd Errors Query OperationTypes DomainTypes OSBWorld OSBStore OSBStoreProps OSBMirror OSBRefinement.
From stdpp Require Import base gmap strings list.
From Stdlib Require Import ZArith.
Local Open Scope string_scope.

Section Outcomes.
Context `{OSBEnv} `{OSBJson}.

(** ** Provisioning *)

(** The plan with two catalog ids at a broker. *)
Definition plan_of (t : tables) (broker service plan : string) (p : ServicePlan) : Prop :=
  exists o, o ∈ tb_offerings t /\ so_BrokerID o = broker /\ so_CatalogID o = service /\
    p ∈ tb_plans t /\ sp_ServiceOfferingID p = base_ID (so_Base o) /\ sp_CatalogID p = plan.
Lemma found_in {A} (p : A -> bool) (l : list A) a : or_not_found (List.find p l) = Ok a -> a ∈ l /\ p a = true.
Proof. intros [Hin Hp]%or_not_found_ok%List.find_some. split; [by apply list_elem_of_In|done]. Qed.
Lemma findServicePlan_plan b s p w w' plan :
  findServicePlanByCatalogIDs b s p w = (w', Ok plan) -> w_tables w' = w_tables w /\ plan_of (w_tables w) b s p plan.
Proof.
  intros (w1 & o & [Ho Hf%found_in]%handled_ok%read_ok & [Hp Hg%found_in]%handled_ok%read_ok)%h_bind_ok.
  rewrite Ho in Hp, Hg. split; [done|]. destruct Hf as [Hin [Hb%String.eqb_eq Hs%String.eqb_eq]%andb_true_iff].
  destruct Hg as [Hin' [Hb'%String.eqb_eq Hs'%String.eqb_eq]%andb_true_iff]. exists o. by repeat split.
Qed.

Lemma storeInstance_stores req det resp ready w w' u :
  storeInstance req det resp ready w = (w', Ok u) ->
  exists plan c, plan_of (w_tables w) (cr_BrokerID det) (prov_ServiceID req) (prov_PlanID req) plan /\
    DeleteSignatureField (prov_RawContext req) = Ok c /\
    tb_instances (w_tables w) !! cr_InstanceID det = None /\
    w_tables w' = put_instance (w_tables w) (new_instance req det resp (base_ID (sp_Base plan)) c ready).
Proof.
  intros (w1 & p & [Ht Hp]%findServicePlan_plan & (w2 & c & [= <- Hc] & [Hn Hi]%handled_ok%create_instance_ok)%h_bind_ok)%h_bind_ok.
  rewrite Ht in Hn, Hi. by exists p, c.
Qed.
Lemma storeOperation_stores ctx x req data st c corr ty w w' u :
  storeOperation ctx x req data st c corr ty w = (w', Ok u) ->
  exists uuid, w_tables w' = add_operation (w_tables w) (new_operation uuid ctx x req data st c corr ty).
Proof.
  intros (w1 & g & Hg & Hc)%h_bind_ok.
  apply h_try_ok in Hg as [(id & -> & [Ht _]%outside_ok)|(e & -> & [Ht _]%outside_ok)]; [|done].
  apply handled_ok, create_operation_ok in Hc as [Hc Hn]. rewrite Ht in Hc. by exists id.
Qed.

(** Only the answer of the storage is [ErrAlreadyExistsInStorage], and it never gets out of
    [storeInstance]. *)
Lemma handled_never {A} name (m : handling A) w w' : handled name m w <> (w', Err EAlreadyExistsInStorage).
Proof.
  unfold handled, h_bind, h_try. destruct (m w) as [w1 [a|e|x]]; [done| |done]. by destruct e.
Qed.
Lemma bind_never {A B} (m : handling A) (f : A -> handling B) w w' e :
  h_bind m f w = (w', Err e) -> m w <> (w', Err e) -> exists w1 a, m w = (w1, Ok a) /\ f a w1 = (w', Err e).
Proof. unfold h_bind. destruct (m w) as [w1 [a|e'|x]]; [eauto| |done]. intros [= <- <-] Hn. by destruct Hn. Qed.
Lemma storeInstance_never req det resp ready w w' :
  (forall a b, sjson_delete a b <> Err EAlreadyExistsInStorage) ->
  storeInstance req det resp ready w <> (w', Err EAlreadyExistsInStorage).
Proof.
  intros Hs He. apply bind_never in He as (w1 & p & _ & He).
  - apply bind_never in He as (w2 & c & _ & He); [by apply handled_never in He|].
    intros [= _ Hd]. unfold DeleteSignatureField in Hd. case_match; [done|]. by apply Hs in Hd.
  - intros (w1 & o & _ & Hp%handled_never)%bind_never; [done|]. apply handled_never.
Qed.

(** What decoding a request gives. *)
Lemma parse_ok w w' det :
  parseRequestForm w = (w', Ok det) ->
  w_tables w' = w_tables w /\ w_req w' = w_req w /\
  rq_PathParams (w_req w) !! BrokerIDPathParam = Some (cr_BrokerID det) /\
  rq_PathParams (w_req w) !! InstanceIDPathParam = Some (cr_InstanceID det) /\
  exists platform, rq_User (w_req w) = Some (Ok platform) /\ cr_PlatformID det = base_ID (pl_Base platform).
Proof.
  intros (w1 & r & [= <- <-] & (w2 & pl & [= <- Hpl] & (w3 & b & [= <- Hb%path_param_ok] & (w4 & i & [= <- Hi%path_param_ok] & Hr)
    %h_bind_ok)%h_bind_ok)%h_bind_ok)%h_bind_ok.
  apply h_bind_ok in Hr as (w5 & now & [= <- _] & [= <- <-]). repeat split; try done. exists pl. split; [|done].
  unfold ExtractPlatformFromContext in Hpl. destruct (rq_User (w_req w)) as [data|]; [|done].
  apply bind_ok in Hpl as (p & -> & Hpl). destruct (Platform_Validate p); [by injection Hpl as ->|done..].
Qed.
Lemma decode_ok {A} (un : string -> option A) va w w' a det :
  decodeRequestBody un va w = (w', Ok (a, det)) ->
  un (rq_Body (w_req w)) = Some a /\ exists v, parseRequestForm v = (w', Ok det) /\ v = w.
Proof.
  intros (w1 & r & [= <- <-] & (w2 & b & [= <- Hb] & (w3 & d & Hd & [= <- <- <-])%h_bind_ok)%h_bind_ok)%h_bind_ok.
  split; [|by exists w]. unfold BytesToObject in Hb. destruct (un _) as [b'|]; [|done].
  destruct (va b'); [by injection Hb as ->|done..].
Qed.

(** A creation that succeeds, in the two orders of its writes. *)
Lemma createOsbEntity_ok status so se w w' u :
  (forall v v', se true v <> (v', Err EAlreadyExistsInStorage)) ->
  createOsbEntity status so se w = (w', Ok u) ->
  let done := negb (Z.eqb status StatusAccepted) in
  let state := if done then SUCCEEDED else IN_PROGRESS in
  if bool_decide (status ∈ [StatusOK; StatusCreated; StatusAccepted])
  then exists w1, (so state CREATE w = (w1, Ok tt) /\ se done w1 = (w', Ok tt)) \/
                  (se done w = (w1, Ok tt) /\ so state CREATE w1 = (w', Ok tt))
  else w' = w.
Proof.
  intros Hne. unfold createOsbEntity.
  destruct (Z.eqb_spec status StatusCreated) as [->|H1].
  { intros (w1 & [] & Ho & Hc)%h_bind_ok. simpl. exists w1. left. by destruct u. }
  destruct (Z.eqb_spec status StatusOK) as [->|H2].
  { intros (w1 & s & Ho & Hc)%h_bind_ok. simpl. exists w1. right. destruct u.
    apply h_try_ok in Ho as [([] & -> & Ho)|(e & -> & Ho)]; [done|].
    destruct e; try discriminate Hc. by apply Hne in Ho. }
  destruct (Z.eqb_spec status StatusAccepted) as [->|H3].
  { intros (w1 & [] & Ho & Hc)%h_bind_ok. simpl. exists w1. left. by destruct u. }
  intros [= <- _]. rewrite bool_decide_false; [done|]. rewrite !elem_of_cons, elem_of_nil. tauto.
Qed.

(** What a provisioning that succeeds leaves in the storage.  After an answer 200, 201 or 202
    the tables have gained exactly one instance, with the plan of the requested catalog ids at
    the broker of the path, the platform of the user, the requested context without its signature
    and the dashboard of the answer, and one operation CREATE of it with the key of the
    answer; instance and operation are done unless the answer is 202, and no instance
    with this id was stored before.  After any other answer the tables are unchanged. *)
Theorem provision_stores next w w1 w' response :
  (forall a b, sjson_delete a b <> Err EAlreadyExistsInStorage) -> keeps next ->
  next w = (w1, Ok response) -> Provision next w = (w', Ok response) ->
  let answer := unmarshal_provisionResponse (rs_Body response) in
  let done := negb (Z.eqb (rs_StatusCode response) StatusAccepted) in
  if bool_decide (rs_StatusCode response ∈ [StatusOK; StatusCreated; StatusAccepted])
  then exists req det plan context uuid,
    unmarshal_provisionRequest (rq_Body (w_req w1)) = Some req /\
    rq_PathParams (w_req w) !! BrokerIDPathParam = Some (cr_BrokerID det) /\
    rq_PathParams (w_req w) !! InstanceIDPathParam = Some (cr_InstanceID det) /\
    (exists platform, rq_User (w_req w1) = Some (Ok platform) /\ cr_PlatformID det = base_ID (pl_Base platform)) /\
    plan_of (w_tables w) (cr_BrokerID det) (prov_ServiceID req) (prov_PlanID req) plan /\
    DeleteSignatureField (prov_RawContext req) = Ok context /\
    tb_instances (w_tables w) !! cr_InstanceID det = None /\
    w_tables w' =
      add_operation (put_instance (w_tables w) (new_instance req det answer (base_ID (sp_Base plan)) context done))
        (new_operation uuid (w_req w1) (cr_InstanceID det) det (prs_OperationData answer)
           (if done then SUCCEEDED else IN_PROGRESS) CREATE (rq_CorrelationID (w_req w1)) ServiceInstanceType)
  else w_tables w' = w_tables w.
Proof.
  intros Hs Hk Hn (v1 & resp & Hn' & Hp)%h_bind_ok answer fin. rewrite Hn in Hn'. injection Hn' as <- <-.
  destruct (Hk _ _ _ Hn) as [Ht Hpp]. rewrite <- Ht, <- Hpp.
  apply h_bind_ok in Hp as (v2 & ctx & [= <- <-] & Hp).
  apply h_bind_ok in Hp as (v3 & [req det] & Hd & Hp).
  apply decode_ok in Hd as (Hreq & v & (Ht3 & Hr3 & Hbr & Hid & Hpl)%parse_ok & ->).
  apply h_bind_ok in Hp as (v4 & corr & (v5 & r & [= <- <-] & [= <- <-])%h_bind_ok & Hp).
  apply h_bind_ok in Hp as (v5 & [] & Hp & [= <-]).
  apply InTransaction_ok in Hp as (u1 & u2 & Hu & _ & Hp & Htab). rewrite Hr3 in Hp.
  apply createOsbEntity_ok in Hp; [|intros; by apply storeInstance_never].
  rewrite Htab, <- Ht3, <- Hu in *. clear Htab Hu Ht3. destruct (bool_decide _); [|by subst].
  exists req, det. simpl in Hp. fold answer in Hp. fold fin in Hp.
  destruct Hp as (u3 & [[Ho Hse]|[Hse Ho]]).
  - apply storeOperation_stores in Ho as (uuid & Ho).
    apply storeInstance_stores in Hse as (plan & c & Hplan & Hc & Hnone & Hse).
    rewrite Ho in Hplan, Hnone, Hse. exists plan, c, uuid. by repeat split.
  - apply storeOperation_stores in Ho as (uuid & Ho).
    apply storeInstance_stores in Hse as (plan & c & Hplan & Hc & Hnone & Hse).
    rewrite Hse in Ho. exists plan, c, uuid. by repeat split.
Qed.

(** ** Updates and their rollback *)
Hypothesis storage_honest : honest.

(** The values an update keeps for a rollback. *)
Definition kept_values (pv : previousValues) (i : ServiceInstance) (prev : string) : Prop :=
  exists j1 j2, marshal_previousValues pv = Ok j1 /\ sjson_set j1 smServicePlanIDKey (si_ServicePlanID i) = Ok j2 /\
    sjson_set_raw j2 smContextKey (si_Context i) = Ok prev.

Lemma updateInstance_stores req det resp w w' u i :
  tb_instances (w_tables w) !! cr_InstanceID det = Some i -> si_ID i = cr_InstanceID det ->
  updateInstance req det resp w = (w', Ok u) ->
  exists i', tb_instances (w_tables w') !! cr_InstanceID det = Some i' /\ si_ID i' = cr_InstanceID det /\
    kept_values (upd_PreviousValues req) i (si_PreviousValues i').
Proof.
  intros Hi Hid (w1 & o & [Ht Ho]%handled_found & Hr)%h_bind_ok; [|done]. rewrite Hi in Ho. subst o.
  apply h_bind_ok in Hr as (w2 & p1 & [= <- Hp1] & (w3 & p2 & [= <- Hp2] & (w4 & p3 & [= <- Hp3] & Hr)%h_bind_ok)%h_bind_ok).
  apply h_bind_ok in Hr as (w5 & planID & _ & [now Hu]%handled_ok%update_instance_ok). rewrite Hu. simpl.
  eexists. split; [rewrite <- Hid; apply lookup_insert_eq|]. split; [exact Hid|]. by exists p1, p2.
Qed.
Lemma storeOperation_instances ctx x req data st c corr ty w w' u :
  storeOperation ctx x req data st c corr ty w = (w', Ok u) -> tb_instances (w_tables w') = tb_instances (w_tables w).
Proof. intros [uuid ->]%storeOperation_stores. done. Qed.

Lemma UpdateService_stores next w w' response x i :
  keeps next -> UpdateService next w = (w', Ok response) ->
  rs_StatusCode response = StatusOK \/ rs_StatusCode response = StatusAccepted ->
  rq_PathParams (w_req w) !! InstanceIDPathParam = Some x -> tb_instances (w_tables w) !! x = Some i -> si_ID i = x ->
  exists i' pv, tb_instances (w_tables w') !! x = Some i' /\ si_ID i' = x /\ kept_values pv i (si_PreviousValues i').
Proof.
  intros Hk (w1 & ctx & [= <- <-] & Hb)%h_bind_ok Hst Hx Hi Hid.
  apply h_bind_ok in Hb as (w2 & [req det] & Hd & Hb).
  apply decode_ok in Hd as (_ & v & (Ht & Hr & _ & Hx' & _)%parse_ok & ->).
  rewrite Hx in Hx'. injection Hx' as ->.
  apply h_bind_ok in Hb as (w3 & resp & [Ht3 _]%Hk & Hb).
  apply h_bind_ok in Hb as (w4 & corr & (w5 & r & [= <- <-] & [= <- _])%h_bind_ok & Hb).
  apply h_bind_ok in Hb as (w5 & [] & Hb & [= <- ->]).
  apply InTransaction_ok in Hb as (u1 & u2 & Hu & _ & Hb & ->). rewrite Ht3, Ht in Hu. rewrite <- Hu in Hi.
  assert (Hb' : exists st, h_bind (updateInstance req det (unmarshal_provisionResponse (rs_Body response)))
     (fun _ => storeOperation (w_req w) (cr_InstanceID det) det
        (prs_OperationData (unmarshal_provisionResponse (rs_Body response))) st UPDATE corr
        ServiceInstanceType) u1 = (u2, Ok tt)).
  { destruct Hst as [Hst|Hst]; rewrite Hst in Hb; eexists; exact Hb. }
  destruct Hb' as (st & (u3 & [] & Hup & Hop%storeOperation_instances)%h_bind_ok). rewrite Hop.
  destruct (updateInstance_stores _ _ _ _ _ _ _ Hi Hid Hup) as (i' & Hi' & Hid' & Hk'). by exists i', (upd_PreviousValues req).
Qed.

(** A poll that reports the failure of an update or of a deletion. *)
Record failed_poll (next : handler) (v v' : world) (x : string) (op : Operation) (usable : bool) : Prop := {
  fp_keeps : keeps next;
  fp_path : rq_PathParams (w_req v) !! InstanceIDPathParam = Some x;
  fp_unmanaged : rq_Operation (w_req v) = None;
  fp_next : forall u u' r, next u = (u', r) -> rq_Operation (w_req u') = rq_Operation (w_req u);
  fp_answer : exists response, PollInstance next v = (v', Ok response) /\ rs_StatusCode response = StatusOK /\
    lir_State (unmarshal_lastInstance (rs_Body response)) = FAILED /\
    prs_InstanceUsable (lir_provisionResponse (unmarshal_lastInstance (rs_Body response))) = usable;
  fp_newest : newest (w_tables v) x = Some op;
  fp_running : State op <> FAILED
}.
Lemma failed_poll_rolls_back next v v' x op usable i :
  failed_poll next v v' x op usable -> Type_ op = UPDATE \/ Type_ op = DELETE ->
  tb_instances (w_tables v) !! x = Some i -> si_ID i = x ->
  exists now, tb_instances (w_tables v') !! x = Some (touch_instance now (rolled_back usable i)).
Proof.
  intros [Hk Hx Hv Hnm (response & Hb & Hst & Hfail & Hus) Hnew Hrun] Hty Hi Hid.
  apply h_bind_ok in Hb as (v2 & det & (Ht & Hr & _ & Hx' & _)%parse_ok & Hb). rewrite Hx in Hx'. injection Hx' as ->.
  apply h_bind_ok in Hb as (v3 & resp & Hn & Hb). pose proof (Hnm _ _ _ Hn) as Hop. rewrite Hr, Hv in Hop. apply Hk in Hn as [Ht3 _].
  apply h_bind_ok in Hb as (v4 & ctx & [= <- <-] & Hb). rewrite Hop in Hb.
  destruct (polled (rs_StatusCode resp)) eqn:Epl; simpl in Hb; [|by injection Hb as <- ->; unfold polled in Epl; rewrite Hst in Epl].
  apply h_bind_ok in Hb as (v5 & corr & (v6 & r & [= <- <-] & [= <- _])%h_bind_ok & Hb).
  apply h_bind_ok in Hb as (v7 & [] & Hb & [= <- ->]).
  apply InTransaction_ok in Hb as (u1 & u2 & Hu & _ & Hb & ->). rewrite Ht3, Ht in Hu. rewrite <- Hu in Hi, Hnew.
  apply h_bind_ok in Hb as (u3 & o & [Hu3 Ho]%getOperationFromDB_ok & Hb); [|done]. rewrite Hnew in Ho. subst o.
  rewrite Hst, Hfail in Hb. simpl in Hb. rewrite bool_decide_false in Hb by done.
  apply h_bind_ok in Hb as (u4 & eff & Hp & Ha).
  destruct (poll_response_ok (provision_error (lir_provisionResponse (unmarshal_lastInstance (rs_Body response)))) FAILED op corr u3 u4 eff Hp)
    as (_ & -> & Hw).
  assert (Hkept : tb_instances (w_tables u4) = tb_instances (w_tables u1)).
  { destruct (poll_writes _ _); [destruct Hw as (_ & errs & ->); by rewrite Hu3|by rewrite Hw, Hu3]. }
  rewrite <- Hkept in Hi.
  assert (Heff : poll_effect (Type_ op) FAILED = ROLLBACK) by (by destruct Hty as [-> | ->]).
  rewrite Heff, Hus in Ha.
  apply h_bind_ok in Ha as (u5 & o & [Hu5 Ho]%handled_found & Ha); [|done]. rewrite Hi in Ho. subst o.
  apply handled_ok, update_instance_ok in Ha as [now ->]. exists now. simpl. rewrite <- Hid at 1. apply lookup_insert_eq.
Qed.

(** What sjson and gjson promise for the values of one instance: an id of a plan that is set
    under its key, and a context that is a JSON text and set as it is under another key, are read
    back from the document of the previous values. *)
Definition read_back (planID context : string) : Prop :=
  forall pv j1 j2 j3, marshal_previousValues pv = Ok j1 -> sjson_set j1 smServicePlanIDKey planID = Ok j2 ->
    sjson_set_raw j2 smContextKey context = Ok j3 ->
    gjson_string j3 smServicePlanIDKey = planID /\ gjson_raw j3 smContextKey = context.

Lemma update_then_failure next next' w w1 v v' response x i op usable :
  keeps next -> UpdateService next w = (w1, Ok response) ->
  rs_StatusCode response = StatusOK \/ rs_StatusCode response = StatusAccepted ->
  rq_PathParams (w_req w) !! InstanceIDPathParam = Some x ->
  tb_instances (w_tables w) !! x = Some i -> si_ID i = x -> si_ServicePlanID i <> "" -> read_back (si_ServicePlanID i) (si_Context i) ->
  tb_instances (w_tables v) !! x = tb_instances (w_tables w1) !! x ->
  failed_poll next' v v' x op usable -> Type_ op = UPDATE \/ Type_ op = DELETE ->
  exists i', tb_instances (w_tables v') !! x = Some i' /\ si_ServicePlanID i' = si_ServicePlanID i /\
    si_Context i' = si_Context i /\ si_Usable i' = usable.
Proof.
  intros Hk Hup Hst Hx Hi Hid Hp Hv Hsame Hf Hty.
  destruct (UpdateService_stores _ _ _ _ _ _ Hk Hup Hst Hx Hi Hid) as (i1 & pv & Hi1 & Hid1 & j1 & j2 & Hm & Hs & Hr).
  rewrite Hi1 in Hsame. destruct (failed_poll_rolls_back _ _ _ _ _ _ _ Hf Hty Hsame Hid1) as (now & Hnow).
  exists (touch_instance now (rolled_back usable i1)). split; [done|].
  destruct (Hv _ _ _ _ Hm Hs Hr) as [Hpl Hctx].
  unfold rolled_back. simpl. rewrite Hpl. apply String.eqb_neq in Hp. unfold or_kept. rewrite Hp.
  by split.
Qed.

(** C28: an update that fails is taken back.  After an update the broker accepted with 202, a
    poll that the broker answers with 200 and the state FAILED gives the instance the plan and
    the context it had before the update, and marks it usable as the broker says.  This is for
    a storage that reports a missing row only where there is none, a rest of the chain that
    changes neither the tables nor the path, a poll without an operation of its own in its
    request, and an instance that was stored under its id, with a plan and a context that can be
    read back from JSON, is unchanged between the update and the poll, and has the update, not
    yet failed, as its newest operation. *)
Theorem failed_update_restores next next' w w1 v v' response x i op usable :
  keeps next -> UpdateService next w = (w1, Ok response) ->
  rs_StatusCode response = StatusAccepted ->
  rq_PathParams (w_req w) !! InstanceIDPathParam = Some x ->
  tb_instances (w_tables w) !! x = Some i -> si_ID i = x -> si_ServicePlanID i <> "" -> read_back (si_ServicePlanID i) (si_Context i) ->
  tb_instances (w_tables v) !! x = tb_instances (w_tables w1) !! x ->
  failed_poll next' v v' x op usable -> Type_ op = UPDATE ->
  exists i', tb_instances (w_tables v') !! x = Some i' /\ si_ServicePlanID i' = si_ServicePlanID i /\
    si_Context i' = si_Context i /\ si_Usable i' = usable.
Proof. intros. eapply update_then_failure; eauto. Qed.

(** The failure of a deletion takes back the last update although it succeeded: the
    plan and the context in the storage are again those before the update, while the broker has
    the instance with the new plan. *)
Theorem failed_deletion_reverts_update next next' w w1 v v' response x i op usable :
  keeps next -> UpdateService next w = (w1, Ok response) ->
  rs_StatusCode response = StatusOK ->
  rq_PathParams (w_req w) !! InstanceIDPathParam = Some x ->
  tb_instances (w_tables w) !! x = Some i -> si_ID i = x -> si_ServicePlanID i <> "" -> read_back (si_ServicePlanID i) (si_Context i) ->
  tb_instances (w_tables v) !! x = tb_instances (w_tables w1) !! x ->
  failed_poll next' v v' x op usable -> Type_ op = DELETE ->
  exists i', tb_instances (w_tables v') !! x = Some i' /\ si_ServicePlanID i' = si_ServicePlanID i /\
    si_Context i' = si_Context i.
Proof.
  intros Hk Hup Hst Hx Hi Hid Hp Hv Hs Hf Hty.
  destruct (update_then_failure next next' w w1 v v' response x i op usable) as (i' & H1 & H2 & H3 & _); eauto.
Qed.
End Outcomes.
