(* ===== verification/Sharing.v ===== *)
(** * Instance sharing: which instance a reference may point to

    api/common/sharing/utils.go, the helpers of storage/utils.go, and the filter
    api/filters/reference_instance_filter.go of the SM API.  A reference instance is
    created with the id of a shared instance or with selectors that single one out;
    the instance must belong to the tenant of the request and to the offering of the plan.

    Values of JSON documents are those of gjson: the map of an object, and the text of a number,
    an array or an object are parameters. *)

From S2P Require Import Prelude GoStd Errors Query OperationTypes DomainTypes OSBWorld OSBStore.
From stdpp Require Import base gmap strings list.
From Stdlib Require Import ZArith.
Local Open Scope string_scope.

Definition ReferencePlanName : string := "reference-instance".
Definition SelectorsKey : string := "selectors".
Definition ReferenceInstanceNameSelectorKey : string := "instance_name_selector".
Definition ReferencePlanNameSelectorKey : string := "plan_name_selector".
Definition ReferenceLabelSelectorKey : string := "instance_label_selector".

Class SharingJson := {
  gjson_members : json -> gmap string json;
  gjson_render : json -> string;
  gjson_value : string -> string -> json;
  antlr_parse : string -> Query.Listener.parse_outcome;
  sort_criteria :: Query.Listener.SortSlice
}.

Section Sharing.
Context `{OSBEnv} `{OSBJson} `{SharingJson}.

(** ** gjson results *)
Definition result_String (j : json) : string :=
  match j with
  | JNull => ""
  | JBool b => if b then "true" else "false"
  | JString s => s
  | _ => gjson_render j
  end.
Definition result_Array (j : json) : list json :=
  match j with JNull => [] | JArray l => l | _ => [j] end.
Definition is_string (j : json) : bool := match j with JString _ => true | _ => false end.
(** A key of a map: missing keys give the zero result. *)
Definition member (m : gmap string json) (k : string) : json := default JNull (m !! k).
Definition has_key (m : gmap string json) (k : string) : bool := bool_decide (is_Some (m !! k)).

Definition sharing_fail {A} (e : error) (name : string) : handling A :=
  h_fail (default e (HandleInstanceSharingError (Some e) name)).

(** ** storage/utils.go *)

(** [IsReferencePlan] keeps the plan in the context; every failure is answered as
    "not found". *)
Definition IsReferencePlan (by_plan : ServicePlan -> bool) : handling bool :=
  osb! r <- h_try (find_plan by_plan);
  match r with
  | inr _ => h_fail (default ENotFoundInStorage (HandleStorageError (Some ENotFoundInStorage) ServicePlanType))
  | inl plan =>
      osb! req <- h_request;
      h_set_request (set_context req (rq_Instance req) (rq_SharedInstance req) (Some plan)) ;!
      h_ret (String.eqb (sp_Name plan) ReferencePlanName)
  end.
Definition GetInstanceReferencesByID (instanceID : string) : handling (list ServiceInstance) :=
  osb! r <- h_try (list_instances (fun i => String.eqb (si_ReferencedInstanceID i) instanceID));
  match r with
  | inl l => h_ret l
  | inr _ => h_fail (default ENotFoundInStorage (HandleStorageError (Some ENotFoundInStorage) ServiceInstanceType))
  end.

(** ** Validation of the parameters *)
Definition validateParameters (parameters : gmap string json) : result unit :=
  let invalid := default EMissingOrInvalidReferenceParameter
                   (HandleInstanceSharingError (Some EMissingOrInvalidReferenceParameter) "") in
  guard_err (bool_decide (parameters = ∅)) invalid ;;;
  let ID := member parameters ReferencedInstanceIDKey in
  let validID := has_key parameters ReferencedInstanceIDKey && is_string ID &&
                 negb (String.eqb (result_String ID) "") in
  let hasAtLeastOneSelector :=
    has_key parameters SelectorsKey &&
    let selectorsMap := gjson_members (member parameters SelectorsKey) in
    let name := member selectorsMap ReferenceInstanceNameSelectorKey in
    let plan := member selectorsMap ReferencePlanNameSelectorKey in
    let labels := member selectorsMap ReferenceLabelSelectorKey in
    let validName := has_key selectorsMap ReferenceInstanceNameSelectorKey && is_string name &&
                     negb (String.eqb (result_String name) "") in
    let validPlan := has_key selectorsMap ReferencePlanNameSelectorKey && is_string plan &&
                     negb (String.eqb (result_String plan) "") in
    let validLabels := has_key selectorsMap ReferenceLabelSelectorKey &&
                       negb (String.eqb (result_String labels) "") &&
                       Nat.ltb 0 (length (result_Array labels)) in
    validLabels || validName || validPlan in
  guard_err ((validID && hasAtLeastOneSelector) || (negb validID && negb hasAtLeastOneSelector)) invalid.

(** ** The instance a request refers to *)

(** [query.ByLabel(EqualsOperator, key, value)]. *)
Definition has_label (i : ServiceInstance) (key value : string) : bool :=
  match si_Labels i !! key with Some vs => bool_decide (value ∈ vs) | None => false end.

Definition isSameServiceOffering (offeringID planID : string) : handling bool :=
  osb! count <- handled ServicePlanType
    (read (fun t => Ok (length (List.filter (fun p => String.eqb (sp_ServiceOfferingID p) offeringID &&
                                                      String.eqb (base_ID (sp_Base p)) planID) (tb_plans t)))));
  h_ret (Nat.ltb 0 count).

Definition sharing_getInstanceByID (instanceID offeringID tenantIdentifier tenantValue : string)
    : handling ServiceInstance :=
  osb! r <- h_try (read (fun t => or_not_found
    (match tb_instances t !! instanceID with
     | Some i => if has_label i tenantIdentifier tenantValue then Some i else None
     | None => None
     end)));
  match r with
  | inr _ => sharing_fail EReferencedInstanceNotFound instanceID
  | inl instance =>
      if negb (IsShared instance) then sharing_fail EReferencedInstanceNotShared (si_ID instance)
      else
        osb! sameOffering <- isSameServiceOffering offeringID (si_ServicePlanID instance);
        if negb sameOffering then sharing_fail EReferenceWithWrongServiceOffering (si_ID instance)
        else h_ret instance
  end.

(** The named query [QueryForSharedInstances]. *)
Definition getSharedInstances (offeringID tenantIdentifier tenantID : string) : handling (list ServiceInstance) :=
  read (fun t => Ok (List.filter (fun i =>
    bool_decide (si_Shared i = Some true) &&
    List.existsb (fun p => String.eqb (base_ID (sp_Base p)) (si_ServicePlanID i) &&
                           String.eqb (sp_ServiceOfferingID p) offeringID) (tb_plans t) &&
    has_label i tenantIdentifier tenantID) (snd <$> map_to_list (tb_instances t)))).

Definition getInstanceByLabelSelector (criteria : list Query.Criteria.Criterion) : handling (list ServiceInstance) :=
  osb! r <- h_try (list_instances (instance_matches criteria));
  match r with
  | inr _ => sharing_fail ENoResultsForReferenceSelector ""
  | inl [] => sharing_fail ENoResultsForReferenceSelector ""
  | inl l => h_ret l
  end.
Definition getPlansOfServiceOffering (offeringID : string) : handling (list ServicePlan) :=
  handled ServicePlanType (list_plans (fun p => String.eqb (sp_ServiceOfferingID p) offeringID)).
Fixpoint isInAllowedPlans (instance : ServiceInstance) (plans : list ServicePlan) : bool :=
  match plans with
  | [] => false
  | plan :: rest =>
      if String.eqb (si_ServicePlanID instance) (base_ID (sp_Base plan)) then true
      else isInAllowedPlans instance rest
  end.
Fixpoint filterInstancesByAllowedPlans (instances : list ServiceInstance) (plans : list ServicePlan)
    : list ServiceInstance :=
  match instances with
  | [] => []
  | i :: rest =>
      if negb (isInAllowedPlans i plans) then filterInstancesByAllowedPlans rest plans
      else i :: filterInstancesByAllowedPlans rest plans
  end.
Definition getSelectorPlan (smaap : bool) (offeringID selectorValue : string) : handling ServicePlan :=
  osb! r <- h_try (find_plan (fun p =>
    String.eqb (if smaap then sp_Name p else sp_CatalogName p) selectorValue &&
    String.eqb (sp_ServiceOfferingID p) offeringID));
  match r with
  | inl plan => h_ret plan
  | inr _ => sharing_fail ENoResultsForReferenceSelector ""
  end.

(** The criteria of the label selector: those of all its queries, in order. *)
Fixpoint label_criteria (queries : list json) : result (list Query.Criteria.Criterion) :=
  match queries with
  | [] => Ok []
  | q :: rest =>
      let* criterion := Query.Listener.Parse antlr_parse Query.Criteria.LabelQuery (result_String q) in
      let* more := label_criteria rest in
      Ok (criterion ++ more)%list
  end.

(** The loop over the shared instances: a second match is an error. *)
Fixpoint single_match (matches : ServiceInstance -> bool) (instances filtered : list ServiceInstance)
    : handling ServiceInstance :=
  match instances with
  | [] =>
      match filtered with
      | [] => sharing_fail ENoResultsForReferenceSelector ""
      | i :: _ => h_ret i
      end
  | i :: rest =>
      if matches i then
        let filtered := (filtered ++ [i])%list in
        if Nat.ltb 1 (length filtered) then sharing_fail EMultipleReferenceSelectorResults ""
        else single_match matches rest filtered
      else single_match matches rest filtered
  end.

Definition selector_matches (selectors : gmap string json) (selectorPlan : option ServicePlan)
    (instance : ServiceInstance) : bool :=
  let selectorVal := result_String (member selectors ReferenceInstanceNameSelectorKey) in
  if has_key selectors ReferenceInstanceNameSelectorKey && negb (String.eqb selectorVal "") &&
     negb (String.eqb (si_Name instance) selectorVal) then false
  else match selectorPlan with
       | Some p => String.eqb (si_ServicePlanID instance) (base_ID (sp_Base p))
       | None => true
       end.

Definition filterInstancesBySelectors (offeringID tenantIdentifier tenantValue : string)
    (selectors : gmap string json) (smaap : bool) : handling ServiceInstance :=
  let labels := result_Array (member selectors ReferenceLabelSelectorKey) in
  osb! sharedInstances <-
    (if has_key selectors ReferenceLabelSelectorKey &&
        match labels with l0 :: _ => negb (String.eqb (result_String l0) "") | [] => false end
     then osb! criteria <- h_lift (label_criteria labels);
          osb! byLabels <- getInstanceByLabelSelector
            (criteria ++ [Query.Criteria.ByLabel EqualsOperator tenantIdentifier [tenantValue];
                          Query.Criteria.ByField EqualsOperator "shared" ["true"]])%list;
          osb! allowedPlans <- getPlansOfServiceOffering offeringID;
          h_ret (filterInstancesByAllowedPlans byLabels allowedPlans)
     else getSharedInstances offeringID tenantIdentifier tenantValue);
  let planSelector := result_String (member selectors ReferencePlanNameSelectorKey) in
  osb! selectorPlan <-
    (if has_key selectors ReferencePlanNameSelectorKey && negb (String.eqb planSelector "")
     then osb! p <- getSelectorPlan smaap offeringID planSelector; h_ret (Some p)
     else h_ret None);
  single_match (selector_matches selectors selectorPlan) sharedInstances [].

Definition ExtractReferencedInstanceID (tenantIdentifier : string) (getTenantId : osb_request -> result string)
    (smaap : bool) : handling string :=
  osb! req <- h_request;
  let parameters := gjson_members (gjson_value (rq_Body req) "parameters") in
  h_lift (validateParameters parameters) ;!
  match rq_Plan req with
  | None => h_fail (default ENotFoundInStorage (HandleStorageError (Some ENotFoundInStorage) ServicePlanType))
  | Some referencePlan =>
      let ID := result_String (member parameters ReferencedInstanceIDKey) in
      osb! tenant <- h_lift (getTenantId req);
      osb! referencedInstance <-
        (if has_key parameters ReferencedInstanceIDKey && negb (String.eqb ID "") && negb (String.eqb ID "*")
         then sharing_getInstanceByID ID (sp_ServiceOfferingID referencePlan) tenantIdentifier tenant
         else filterInstancesBySelectors (sp_ServiceOfferingID referencePlan) tenantIdentifier tenant
                (gjson_members (member parameters SelectorsKey)) smaap);
      h_ret (si_ID referencedInstance)
  end.

Definition IsValidReferenceInstancePatchRequest (req : osb_request) (instance : ServiceInstance)
    (planIDProperty : string) : result unit :=
  let refuse e := default e (HandleInstanceSharingError (Some e) (si_ID instance)) in
  guard_err (negb (String.eqb (si_ServicePlanID instance) (gjson_string (rq_Body req) planIDProperty)))
    (refuse EChangingPlanOfReferenceInstance) ;;;
  let parameters := gjson_members (gjson_value (rq_Body req) "parameters") in
  let containsSameReference := has_key parameters ReferencedInstanceIDKey &&
    String.eqb (result_String (member parameters ReferencedInstanceIDKey)) (si_ReferencedInstanceID instance) in
  guard_err (negb (bool_decide (parameters = ∅)) && negb containsSameReference)
    (refuse EChangingParametersOfReferenceInstance).

(** ** The filter of the SM API *)
Definition planIDProperty : string := "service_plan_id".
Definition PathParamResourceID : string := "resource_id".
Definition json_response (status : Z) (body : string) : osb_response := {| rs_StatusCode := status; rs_Body := body |}.

Definition isValidRequestBody (req : osb_request) : result unit :=
  guard_err (negb (String.eqb (gjson_string (rq_Body req) ReferencedInstanceIDKey) ""))
    (default ERequestBodyContainsReferencedInstanceID
       (HandleInstanceSharingError (Some ERequestBodyContainsReferencedInstanceID) ReferencedInstanceIDKey)).

Definition plan_by_id (id : string) (p : ServicePlan) : bool := String.eqb (base_ID (sp_Base p)) id.
Definition is_not_found (e : error) : bool := match e with ENotFoundInStorage => true | _ => false end.

Definition handleProvision (tenantIdentifier : string) (next : handler) : handler :=
  osb! req <- h_request;
  osb! isReferencePlan <- h_try (IsReferencePlan (plan_by_id (gjson_string (rq_Body req) planIDProperty)));
  match isReferencePlan with
  | inr e => if is_not_found e then next else h_fail e
  | inl false => next
  | inl true =>
      osb! referenceInstanceID <- ExtractReferencedInstanceID tenantIdentifier
        (fun r => Query.Criteria.RetrieveFromCriteria tenantIdentifier (rq_Criteria r)) true;
      osb! req <- h_request;
      osb! body <- h_lift (sjson_set (rq_Body req) ReferencedInstanceIDKey referenceInstanceID);
      h_set_request (set_Body req body) ;!
      next
  end.
Definition handleServiceUpdate (next : handler) : handler :=
  osb! req <- h_request;
  osb! r <- h_try (GetObjectByField_instance req (default "" (rq_PathParams req !! PathParamResourceID)));
  match r with
  | inr _ => next
  | inl instance =>
      if String.eqb (si_ReferencedInstanceID instance) "" then next
      else h_lift (IsValidReferenceInstancePatchRequest req instance planIDProperty) ;! next
  end.
Definition handleGetParameters (next : handler) : handler :=
  osb! req <- h_request;
  osb! r <- h_try (GetObjectByField_instance req (default "" (rq_PathParams req !! PathParamResourceID)));
  match r with
  | inr _ => next
  | inl instance =>
      if String.eqb (si_ReferencedInstanceID instance) "" then next
      else osb! body <- h_lift (json_marshal {[ ReferencedInstanceIDKey := JString (si_ReferencedInstanceID instance) ]});
           h_ret (json_response 200 body)
  end.
Definition referenceInstanceFilter_Run (tenantIdentifier : string) (next : handler) : handler :=
  osb! req <- h_request;
  h_lift (isValidRequestBody req) ;!
  if String.eqb (rq_Method req) "POST" then handleProvision tenantIdentifier next
  else if String.eqb (rq_Method req) "PATCH" then handleServiceUpdate next
  else if String.eqb (rq_Method req) "GET" && Strings.contains (rq_RequestURI req) "/parameters"
  then handleGetParameters next
  else next.
End Sharing.
