(* ===== verification/SharingTheorems.v ===== *)
(** * Properties of instance sharing

    A reference only ever points to a shared instance of the tenant of the request and of the
    offering of the reference plan. *)

From S2P Require Import Prelude GoStd Errors Query OperationTypes DomainTypes OSBWorld OSBStore OSBStoreProps OSBRefinement Sharing.
From stdpp Require Import base gmap strings list.
From Stdlib Require Import ZArith.
Local Open Scope string_scope.

Section Targets.
Context `{OSBEnv} `{OSBJson} `{SharingJson}.

(** What the storage promises for the criteria the code adds. *)
Record selection_laws : Prop := {
  sl_label cs i k v : instance_matches cs i = true ->
    Query.Criteria.ByLabel EqualsOperator k [v] ∈ cs -> has_label i k v = true;
  sl_shared cs i : instance_matches cs i = true ->
    Query.Criteria.ByField EqualsOperator "shared" ["true"] ∈ cs -> si_Shared i = Some true
}.

(** An instance a reference with a plan of [offering] may point to. *)
Definition shareable (t : tables) (tenantIdentifier tenant offering : string) (i : ServiceInstance) : Prop :=
  (exists k, tb_instances t !! k = Some i) /\ IsShared i = true /\ has_label i tenantIdentifier tenant = true /\
  exists p, p ∈ tb_plans t /\ base_ID (sp_Base p) = si_ServicePlanID i /\ sp_ServiceOfferingID p = offering.

Lemma elem_of_filter_bool {A} (p : A -> bool) l x : x ∈ List.filter p l <-> x ∈ l /\ p x = true.
Proof. rewrite !list_elem_of_In. apply List.filter_In. Qed.
Lemma elem_of_rows t i : i ∈ (snd <$> map_to_list (tb_instances t)) -> exists k, tb_instances t !! k = Some i.
Proof. intros ([k j] & -> & Hin%elem_of_map_to_list)%list_elem_of_fmap. by exists k. Qed.
Lemma IsShared_some i : si_Shared i = Some true -> IsShared i = true.
Proof. unfold IsShared. by intros ->. Qed.

Lemma same_offering_ok offering plan w w' b :
  isSameServiceOffering offering plan w = (w', Ok b) -> w_tables w' = w_tables w /\
  (b = true -> exists p, p ∈ tb_plans (w_tables w) /\ base_ID (sp_Base p) = plan /\ sp_ServiceOfferingID p = offering).
Proof.
  intros (w1 & n & [Ht Hn]%handled_ok%read_ok & [= <- <-])%h_bind_ok. split; [done|]. injection Hn as <-.
  intros Hl. destruct (List.filter _ _) as [|p l] eqn:Ef; [done|]. exists p.
  assert (Hp : p ∈ List.filter (fun p => String.eqb (sp_ServiceOfferingID p) offering &&
                               String.eqb (base_ID (sp_Base p)) plan) (tb_plans (w_tables w)))
    by (rewrite Ef; apply list_elem_of_here).
  apply elem_of_filter_bool in Hp as [Hin [Ho%String.eqb_eq Hi%String.eqb_eq]%andb_true_iff]. done.
Qed.

Lemma by_id_shareable id offering tid tenant w w' i :
  sharing_getInstanceByID id offering tid tenant w = (w', Ok i) ->
  w_tables w' = w_tables w /\ shareable (w_tables w) tid tenant offering i.
Proof.
  intros (w1 & r & Hr & Hb)%h_bind_ok. apply h_try_ok in Hr as [(j & -> & [Ht Hj%or_not_found_ok]%read_ok)|(e & -> & _)]; [|done].
  destruct (tb_instances (w_tables w) !! id) as [j'|] eqn:Ej; [|done].
  destruct (has_label j' tid tenant) eqn:El; [|done]. injection Hj as ->.
  destruct (IsShared j) eqn:Es; [|discriminate Hb].
  apply h_bind_ok in Hb as (w2 & b & [Ht2 Hp]%same_offering_ok & Hb).
  destruct b; [|discriminate Hb]. injection Hb as <- <-. rewrite Ht2, Ht. split; [done|].
  split; [by exists id|]. split; [done|]. split; [done|]. rewrite Ht in Hp. by apply Hp.
Qed.

Lemma single_match_ok m l acc w w' i :
  single_match m l acc w = (w', Ok i) -> w' = w /\ (i ∈ acc \/ i ∈ l).
Proof.
  revert acc. induction l as [|j l IH]; intros acc; simpl.
  - destruct acc; [discriminate|]. intros [= -> ->]. split; [done|]. left. apply list_elem_of_here.
  - destruct (m j).
    + destruct (Nat.ltb _ _); [discriminate|]. intros [-> [Hi|Hi]]%IH; (split; [done|]).
      * apply elem_of_app in Hi as [Hi| ->%list_elem_of_singleton]; [by left|]. right. apply list_elem_of_here.
      * right. by apply list_elem_of_further.
    + intros [-> [Hi|Hi]]%IH; (split; [done|]); [by left|]. right. by apply list_elem_of_further.
Qed.
Lemma allowed_plans_ok l plans i :
  i ∈ filterInstancesByAllowedPlans l plans ->
  i ∈ l /\ exists p, p ∈ plans /\ base_ID (sp_Base p) = si_ServicePlanID i.
Proof.
  assert (Hin : forall i plans, isInAllowedPlans i plans = true -> exists p, p ∈ plans /\ base_ID (sp_Base p) = si_ServicePlanID i).
  { intros j ps. induction ps as [|p ps IH]; simpl; [done|].
    destruct (String.eqb_spec (si_ServicePlanID j) (base_ID (sp_Base p))) as [He|_].
    - intros _. exists p. split; [apply list_elem_of_here|done].
    - intros (q & Hq & He)%IH. exists q. split; [by apply list_elem_of_further|done]. }
  induction l as [|j l IH]; simpl; [by intros ?%elem_of_nil|].
  destruct (isInAllowedPlans j plans) eqn:Ej; simpl.
  - intros [->|Hi]%elem_of_cons; [split; [apply list_elem_of_here|by apply Hin]|].
    destruct (IH Hi) as [Hl Hp]. split; [by apply list_elem_of_further|done].
  - intros Hi. destruct (IH Hi) as [Hl Hp]. split; [by apply list_elem_of_further|done].
Qed.

Lemma shared_instances_ok offering tid tenant w w' l :
  getSharedInstances offering tid tenant w = (w', Ok l) ->
  w_tables w' = w_tables w /\ forall i, i ∈ l -> shareable (w_tables w) tid tenant offering i.
Proof.
  intros [Ht [= <-]]%read_ok. split; [done|]. intros i [Hrow Hp]%elem_of_filter_bool.
  apply andb_true_iff in Hp as [[Hs%bool_decide_eq_true Hp]%andb_true_iff Hl].
  split; [by apply elem_of_rows|]. split; [by apply IsShared_some|]. split; [done|].
  apply List.existsb_exists in Hp as (p & Hin & [Hi%String.eqb_eq Ho%String.eqb_eq]%andb_true_iff).
  exists p. split; [by apply list_elem_of_In|done].
Qed.

Lemma by_labels_ok cs offering tid tenant w w' l :
  selection_laws ->
  h_bind (getInstanceByLabelSelector
    (cs ++ [Query.Criteria.ByLabel EqualsOperator tid [tenant]; Query.Criteria.ByField EqualsOperator "shared" ["true"]])%list)
    (fun byLabels => h_bind (getPlansOfServiceOffering offering)
       (fun plans => h_ret (filterInstancesByAllowedPlans byLabels plans))) w = (w', Ok l) ->
  w_tables w' = w_tables w /\ forall i, i ∈ l -> shareable (w_tables w) tid tenant offering i.
Proof.
  intros Hl (w1 & rows & Hr & (w2 & plans & [Ht2 Hp]%handled_ok%read_ok & [= <- <-])%h_bind_ok)%h_bind_ok.
  apply h_bind_ok in Hr as (w3 & x & Hx & Hr).
  apply h_try_ok in Hx as [(rows' & -> & [Ht Hrows]%read_ok)|(e & -> & _)]; [|discriminate Hr].
  assert (rows' = rows /\ w3 = w1) as [-> ->] by (destruct rows'; [discriminate Hr|by injection Hr as -> ->]).
  injection Hrows as <-. rewrite Ht in Hp. injection Hp as <-. split; [congruence|].
  intros i ([Hrow Hm]%elem_of_filter_bool & p & [Hin Ho%String.eqb_eq]%elem_of_filter_bool & Hpi)%allowed_plans_ok.
  split; [by apply elem_of_rows|]. split; [|split].
  - apply IsShared_some. eapply (sl_shared Hl); [done|]. apply elem_of_app. right. apply list_elem_of_further, list_elem_of_here.
  - eapply (sl_label Hl); [done|]. apply elem_of_app. right. apply list_elem_of_here.
  - by exists p.
Qed.

Lemma by_selectors_shareable offering tid tenant sel smaap w w' i :
  selection_laws -> filterInstancesBySelectors offering tid tenant sel smaap w = (w', Ok i) ->
  w_tables w' = w_tables w /\ shareable (w_tables w) tid tenant offering i.
Proof.
  intros Hl (w1 & rows & Hr & Hb)%h_bind_ok.
  assert (Hrows : w_tables w1 = w_tables w /\ forall i, i ∈ rows -> shareable (w_tables w) tid tenant offering i).
  { case_match; [|by apply shared_instances_ok].
    apply h_bind_ok in Hr as (w2 & cs & [= <- _] & Hr). by eapply by_labels_ok. }
  destruct Hrows as [Ht Hrows]. apply h_bind_ok in Hb as (w2 & p & Hp & [-> Hin]%single_match_ok).
  destruct Hin as [Hin|Hin]; [by apply elem_of_nil in Hin|]. split; [|by apply Hrows].
  case_match; [|by injection Hp as <- _].
  apply h_bind_ok in Hp as (w3 & q & (w4 & x & Hx & Hq)%h_bind_ok & [= <- _]).
  apply h_try_ok in Hx as [(? & -> & [Hx _]%read_ok)|(e & -> & _)]; [|discriminate Hq]. injection Hq as <- _. congruence.
Qed.

(** C26: a reference points where it may: the instance the parameters of a request lead to, by its id or
    by selectors, is stored and shared, carries the tenant of the request in its label, and its
    plan is one of the offering of the reference plan. *)
Theorem reference_target tid getTenant smaap w w' id :
  selection_laws -> ExtractReferencedInstanceID tid getTenant smaap w = (w', Ok id) ->
  exists plan tenant i, rq_Plan (w_req w) = Some plan /\ getTenant (w_req w) = Ok tenant /\
    si_ID i = id /\ shareable (w_tables w) tid tenant (sp_ServiceOfferingID plan) i.
Proof.
  intros Hl (w1 & req & [= <- <-] & (w2 & [] & [= <- _] & Hb)%h_bind_ok)%h_bind_ok.
  destruct (rq_Plan (w_req w)) as [plan|]; [|discriminate Hb].
  apply h_bind_ok in Hb as (w3 & tenant & [= <- Hten] & Hb).
  apply h_bind_ok in Hb as (w4 & i & Hi & [= _ <-]). exists plan, tenant, i. repeat (split; [done|]).
  case_match; [by eapply by_id_shareable|by eapply by_selectors_shareable].
Qed.
End Targets.
