(* ===== verification/OSBPlugins.v ===== *)
(** * The other OSB plugins and the OSB controller (api/osb)

    The checks a request passes before it reaches the broker: the owner of the instance
    (check_instance_owner_plugin.go), its platform (check_platform_id_plugin.go), the visibility of
    the plan (check_instance_visibility_plugin.go), a platform under termination
    (platform_termination_plugin.go), instance sharing (instance_sharing_plugin.go), the
    signature of the context (context_signature_plugin.go), and the proxy of osb_controller.go.
    The chains are those pkg/sm/sm.go assembles. *)

From S2P Require Import Prelude GoStd Errors Query OperationTypes DomainTypes OSBWorld OSBStore Sharing.
From stdpp Require Import base gmap strings list pretty.
From Stdlib Require Import ZArith Ascii.
Local Open Scope string_scope.

Definition StatusUnprocessableEntity : Z := 422.
Definition StatusBadGateway : Z := 502.
Definition PlatformType : string := "/v1/platforms".
Definition ServiceInstanceIDFieldName : string := "service_instance_id".
Definition osb_planIDProperty : string := "plan_id".

(** What the controller uses: the broker with an id, the proxied call with the path and the body
    it is sent, and whether a text is valid JSON and an object. *)
Class OSBProxy := {
  BrokerFetcher : nat -> string -> result ServiceBroker;
  has_catalog : ServiceBroker -> option string;
  osb_path : osb_request -> option string;
  proxy_call : nat -> ServiceBroker -> string -> string -> Z * string;
  gjson_valid : string -> bool;
  gjson_is_object : string -> bool
}.

Section Plugins.
Context `{OSBEnv} `{OSBJson} `{SharingJson} `{ContextSigning} `{OSBProxy}.

Definition not_found_instance : error := EHTTP "NotFound" "could not find such service instance" StatusNotFound.
Definition instance_param (req : osb_request) : string := default "" (rq_PathParams req !! InstanceIDPathParam).
(** A lookup by id, for which nothing found is no error. *)
Definition lookup_instance (id : string) : handling (option ServiceInstance) :=
  handled_not_found ServiceInstanceType (get_instance id).

(** ** Ownership *)
Definition assertOwner (tenantIdentifier : string) (next : handler) : handler :=
  osb! req <- h_request;
  let callerTenantID := gjson_string (rq_Body req) ("context." ++ tenantIdentifier) in
  if String.eqb callerTenantID "" then next
  else
    osb! found <- lookup_instance (instance_param req);
    match found with
    | None => next
    | Some instance =>
        osb! instanceOwnerTenantID <- h_lift
          (match si_Labels instance !! tenantIdentifier with
           | Some (t :: _) => Ok t
           | Some [] => Panic "index out of range"
           | None => Ok ""
           end);
        if String.eqb instanceOwnerTenantID "" then next
        else if negb (String.eqb instanceOwnerTenantID callerTenantID) then h_fail not_found_instance
        else next
    end.

(** ** Platform of the instance *)

(** [user, _ := web.UserFromContext(ctx)] without a user is a nil pointer. *)
Definition user_platform (req : osb_request) : result Platform :=
  match rq_User req with
  | None => Panic "nil pointer dereference"
  | Some data => let* platform := data in Platform_Validate platform ;;; Ok platform
  end.
Definition assertPlatformID (next : handler) : handler :=
  osb! req <- h_request;
  osb! platform <- h_lift (user_platform req);
  osb! found <- lookup_instance (instance_param req);
  match found with
  | None => next
  | Some instance =>
      h_set_request (set_context req (Some instance) (rq_SharedInstance req) (rq_Plan req)) ;!
      if negb (String.eqb (base_ID (pl_Base platform)) (si_PlatformID instance)) then h_fail not_found_instance
      else next
  end.

(** ** Visibility of the plan *)
Definition errPlanNotAccessible : error :=
  EHTTP "ServicePlanNotFound" "service plan not found or not accessible" StatusNotFound.

(** The named query [QueryForVisibilityWithPlatformAndPlan]; a NULL platform is empty. *)
Definition visibility_label (v : Visibility) (key value : string) : bool :=
  match base_Labels (vi_Base v) !! key with Some vs => bool_decide (value ∈ vs) | None => false end.
Definition visible_with (platformID planID key value : string) (v : Visibility) : bool :=
  String.eqb (vi_ServicePlanID v) planID &&
  (String.eqb (vi_PlatformID v) "" ||
   (String.eqb (vi_PlatformID v) platformID &&
    (String.eqb key "" || bool_decide (base_Labels (vi_Base v) = ∅))) ||
   visibility_label v key value).

Definition checkVisibility (planID osbContext : string) (next : handler) : handler :=
  osb! req <- h_request;
  osb! platform <- h_lift (ExtractPlatformFromContext req);
  osb! tenant <- (if String.eqb (pl_Type platform) "cloudfoundry" then
                    if String.eqb osbContext "" then h_fail (bad_request "missing context in request body")
                    else
                      let payloadOrgGUID := gjson_string osbContext "organization_guid" in
                      if String.eqb payloadOrgGUID ""
                      then h_fail (bad_request "organization_guid missing in osb context")
                      else h_ret ("organization_guid", payloadOrgGUID)
                  else h_ret ("", ""));
  osb! visible <- list_visibilities
    (visible_with (base_ID (pl_Base platform)) planID (fst tenant) (snd tenant));
  match visible with
  | [] => h_fail errPlanNotAccessible
  | _ => next
  end.

Definition checkVisibility_Provision (next : handler) : handler :=
  osb! decoded <- decodeRequestBody unmarshal_provisionRequest provisionRequest_Validate;
  let '(requestPayload, details) := decoded in
  osb! plan <- findServicePlanByCatalogIDs (cr_BrokerID details) (prov_ServiceID requestPayload)
                 (prov_PlanID requestPayload);
  checkVisibility (base_ID (sp_Base plan)) (prov_RawContext requestPayload) next.
Definition checkVisibility_UpdateService (next : handler) : handler :=
  osb! decoded <- decodeRequestBody unmarshal_updateRequest updateRequest_Validate;
  let '(requestPayload, details) := decoded in
  if String.eqb (upd_PlanID requestPayload) "" then next
  else
    osb! plan <- findServicePlanByCatalogIDs (cr_BrokerID details) (upd_ServiceID requestPayload)
                   (upd_PlanID requestPayload);
    let planID := base_ID (sp_Base plan) in
    osb! found <- lookup_instance (cr_InstanceID details);
    match found with
    | None => next
    | Some instance =>
        if String.eqb (si_ServicePlanID instance) planID then next
        else checkVisibility planID (upd_RawContext requestPayload) next
    end.

(** ** Platforms under termination *)
Definition terminates (platformID : string) (op : Operation) : bool :=
  negb (String.eqb (CascadeRootID op) "") && bool_decide (Type_ op = DELETE) &&
  String.eqb (ResourceType op) PlatformType &&
  (bool_decide (State op = PENDING) || bool_decide (State op = IN_PROGRESS)) &&
  String.eqb (ResourceID op) platformID.
Definition validateNotPendingTermination (next : handler) : handler :=
  osb! req <- h_request;
  match rq_User req with
  | None => next
  | Some _ =>
      osb! platform <- h_lift (user_platform req);
      let platformID := base_ID (pl_Base platform) in
      osb! operationCount <- count_operations (terminates platformID);
      if (0 <? operationCount)%Z
      then h_fail (EHTTP "Unprocessable Entity"
             ("Operations are not possible for resources of platform " ++ platformID ++
              " which is during termination") StatusUnprocessableEntity)
      else next
  end.

(** ** Instance sharing *)
Definition sharing_Provision (tenantIdentifier : string) (next : handler) : handler :=
  osb! req <- h_request;
  if negb (String.eqb (gjson_string (rq_Body req) "shared") "")
  then sharing_fail EInvalidProvisionRequestWithSharedProperty ""
  else
    let servicePlanID := gjson_string (rq_Body req) osb_planIDProperty in
    osb! isReferencePlan <- h_try (IsReferencePlan (fun p => String.eqb (sp_CatalogID p) servicePlanID));
    match isReferencePlan with
    | inl true =>
        osb! referenceInstanceID <- ExtractReferencedInstanceID tenantIdentifier
          (fun r => Ok (gjson_string (rq_Body r) ("context." ++ tenantIdentifier))) false;
        osb! req <- h_request;
        osb! body <- h_lift (sjson_set (rq_Body req) ("parameters." ++ ReferencedInstanceIDKey) referenceInstanceID);
        h_set_request (set_Body req body) ;!
        h_ret (json_response StatusCreated "{}")
    | _ => next
    end.

Definition deprovisionSharedInstance (instance : ServiceInstance) (next : handler) : handler :=
  osb! referencesList <- h_try (GetInstanceReferencesByID (si_ID instance));
  match referencesList with
  | inl (i :: l) =>
      h_fail (default ESharedInstanceHasReferences
        (HandleReferencesError (Some ESharedInstanceHasReferences) (si_ID <$> i :: l)))
  | _ => next
  end.
Definition sharing_Deprovision (next : handler) : handler :=
  osb! req <- h_request;
  osb! r <- h_try (GetObjectByField_instance req (instance_param req));
  match r with
  | inr _ => next
  | inl instance =>
      if IsShared instance then deprovisionSharedInstance instance next
      else
        osb! isReferencePlan <- IsReferencePlan (plan_by_id (si_ServicePlanID instance));
        if negb isReferencePlan then next else h_ret (json_response StatusOK "{}")
  end.

Definition isValidSharedInstancePatchRequest (req : osb_request) (instance : ServiceInstance) : handling unit :=
  let newCatalogID := gjson_string (rq_Body req) osb_planIDProperty in
  osb! plan <- find_plan (plan_by_id (si_ServicePlanID instance));
  if IsShared instance && negb (String.eqb (sp_CatalogID plan) newCatalogID)
  then osb! newPlan <- handled ServicePlanType (find_plan (fun p => String.eqb (sp_CatalogID p) newCatalogID));
       if negb (SupportsInstanceSharing newPlan) then sharing_fail ENewPlanDoesNotSupportInstanceSharing ""
       else h_ret tt
  else h_ret tt.
Definition sharing_UpdateService (next : handler) : handler :=
  osb! req <- h_request;
  osb! r <- h_try (GetObjectByField_instance req (instance_param req));
  match r with
  | inr ENotFoundInStorage => next
  | inr e => h_fail (default e (HandleStorageError (Some e) ServiceInstanceType))
  | inl instance =>
      if IsShared instance then isValidSharedInstancePatchRequest req instance ;! next
      else
        osb! isReferencePlan <- IsReferencePlan (plan_by_id (si_ServicePlanID instance));
        if negb isReferencePlan then next
        else h_lift (IsValidReferenceInstancePatchRequest req instance osb_planIDProperty) ;!
             h_ret (json_response StatusOK "{}")
  end.

(** Requests about bindings of a reference are made with plan and context of the shared
    instance. *)
Definition handleBinding (next : handler) : handler :=
  osb! req <- h_request;
  osb! r <- h_try (GetObjectByField_instance req (instance_param req));
  match r with
  | inr ENotFoundInStorage => next
  | inr e => h_fail (default e (HandleStorageError (Some e) ServiceInstanceType))
  | inl instance =>
      if String.eqb (si_ReferencedInstanceID instance) "" then next
      else
        osb! referencedInstance <- handled ServiceInstanceType
          (GetObjectByField_instance req (si_ReferencedInstanceID instance));
        osb! servicePlan <- handled ServiceInstanceType
          (find_plan (plan_by_id (si_ServicePlanID referencedInstance)));
        h_set_request (set_context req (rq_Instance req) (Some referencedInstance) (rq_Plan req)) ;!
        osb! req <- h_request;
        osb! body <- h_lift (sjson_set (rq_Body req) "plan_id" (sp_CatalogID servicePlan));
        h_set_request (set_Body req body) ;!
        osb! body <- h_lift (sjson_set_raw body "context" (si_Context referencedInstance));
        h_set_request (set_Body req body) ;!
        next
  end.

Definition sharing_FetchService (next : handler) : handler :=
  osb! req <- h_request;
  osb! r <- h_try (GetObjectByField_instance req (instance_param req));
  match r with
  | inr _ => next
  | inl instance =>
      osb! isReferencePlan <- IsReferencePlan (plan_by_id (si_ServicePlanID instance));
      if negb isReferencePlan then next
      else
        osb! found <- h_try (osb! plan <- find_plan (plan_by_id (si_ServicePlanID instance));
                             osb! offering <- find_offering (fun o =>
                               String.eqb (base_ID (so_Base o)) (sp_ServiceOfferingID plan));
                             h_ret (offering, plan));
        match found with
        | inr _ => sharing_fail ENotFoundInStorage ServiceOfferingType
        | inl (offering, plan) =>
            osb! body <- h_lift (json_marshal
              (<["service_id" := JString (so_CatalogID offering)]>
               (<["plan_id" := JString (sp_CatalogID plan)]>
                (<["maintenance_info" := gjson_value (si_MaintenanceInfo instance) "@this"]>
                 {["parameters" := JObject [(ReferencedInstanceIDKey, JString (si_ReferencedInstanceID instance))]]}))));
            h_ret (json_response StatusOK body)
        end
  end.

(** ** Signature of the context: what fails is only logged *)
Definition signed_body (privateKey : string) (req : osb_request) : result (option string) :=
  if String.eqb privateKey "" then Ok None
  else match json_unmarshal (rq_Body req) with
       | Ok reqBodyMap =>
           match reqBodyMap !! "context" with
           | None => Ok None
           | Some (JObject _ as context) =>
               let contextMap := gjson_members context in
               let contextMap := match rq_PathParams req !! InstanceIDPathParam with
                                 | Some id => <[ServiceInstanceIDFieldName := JString id]> contextMap
                                 | None => contextMap
                                 end in
               match Sign privateKey contextMap with
               | Ok signed =>
                   match json_marshal (<["context" := JObject (map_to_list signed)]> reqBodyMap) with
                   | Ok body => Ok (Some body)
                   | _ => Ok None
                   end
               | _ => Ok None
               end
           | Some _ => Panic "interface conversion: interface {} is not map[string]interface {}"
           end
       | _ => Ok None
       end.
Definition signContext (privateKey : string) (next : handler) : handler :=
  osb! req <- h_request;
  osb! body <- h_lift (signed_body privateKey req);
  match body with
  | Some b => h_set_request (set_Body req b) ;! next
  | None => next
  end.

(** ** The controller *)
Definition getPathForReferencedInstance (referencedInstance : ServiceInstance) (currentPath : string)
    : result string :=
  let splitted := Strings.split_byte currentPath "/"%char in
  match splitted !! 3%nat with
  | None => Panic "index out of range"
  | Some s => if negb (String.eqb s "")
              then Ok (Strings.join "/" (<[3%nat := si_ID referencedInstance]> splitted))
              else Ok currentPath
  end.
Definition validateBrokerResponse (broker : ServiceBroker) (status : Z) (body : string) : result osb_response :=
  if negb (gjson_valid body)
  then let* b := sjson_set "" "description" ("Service broker " ++ br_Name broker ++
                   " responded with invalid JSON: " ++ body) in
       Ok {| rs_StatusCode := status; rs_Body := b |}
  else if (399 <? status)%Z || (status <? 100)%Z
  then let description := gjson_string body "description" in
       let description := if String.eqb description "" then body else description in
       let* b := sjson_set (if gjson_is_object body then body else "") "description"
                   ("Service broker " ++ br_Name broker ++ " failed with: " ++ description) in
       Ok {| rs_StatusCode := status; rs_Body := b |}
  else Ok {| rs_StatusCode := status; rs_Body := body |}.
Definition proxy (broker : ServiceBroker) : handler :=
  osb! r <- h_request;
  match osb_path r with
  | None => h_fail (EPlain ("could not get OSB path from URL " ++ rq_RequestURI r))
  | Some path =>
      osb! path <- h_lift (match rq_SharedInstance r with
                           | Some i => getPathForReferencedInstance i path
                           | None => Ok path
                           end);
      osb! answer <- outside (fun n => Ok (proxy_call n broker path (rq_Body r)));
      h_lift (validateBrokerResponse broker (fst answer) (snd answer))
  end.
Definition osb_catalog (broker : ServiceBroker) : handler :=
  match has_catalog broker with
  | None => proxy broker
  | Some catalog => h_ret (json_response StatusOK catalog)
  end.
Definition controller_handler (f : ServiceBroker -> handler) : handler :=
  osb! request <- h_request;
  match rq_PathParams request !! BrokerIDPathParam with
  | None => h_fail (bad_request "invalid broker id path parameter")
  | Some brokerID =>
      osb! broker <- outside (fun n => BrokerFetcher n brokerID);
      osb! response <- h_try (f broker);
      match response with
      | inl response => h_ret response
      | inr _ => h_fail (EHTTP "ServiceBrokerErr" ("could not reach service broker with id " ++ brokerID)
                           StatusBadGateway)
      end
  end.
Definition proxyHandler : handler := controller_handler proxy.
Definition catalogHandler : handler := controller_handler osb_catalog.
End Plugins.
