(* ===== verification/OSBChain.v ===== *)
(** * The OSB plugins together

    The chains of plugins pkg/sm/sm.go registers, for each OSB request.  All plugins but the store
    plugin either answer themselves or hand the request on, and change nothing in the storage;
    so the chains do what the store plugin does. *)

From S2P Require Import Prelude GoStd Errors Query OperationTypes DomainTypes OSBWorld OSBStore OSBStoreProps OSBMirror OSBRefinement OSBTheorems Sharing OSBPlugins.
From stdpp Require Import base gmap strings list.
From Stdlib Require Import ZArith.
Local Open Scope string_scope.

Section Chains.
Context `{OSBEnv} `{OSBJson} `{SharingJson} `{ContextSigning} `{OSBProxy}.
Context (privateKey tenantIdentifier : string).

(** The order of the plugins: visibility, store, platform, termination, sharing, signature,
    ownership. *)
Definition osb_chain (c : osb_call) : handler :=
  match c with
  | CProvision =>
      checkVisibility_Provision (Provision (validateNotPendingTermination
        (sharing_Provision tenantIdentifier (signContext privateKey proxyHandler))))
  | CDeprovision => Deprovision (assertPlatformID (sharing_Deprovision proxyHandler))
  | CUpdate =>
      checkVisibility_UpdateService (UpdateService (assertPlatformID (validateNotPendingTermination
        (sharing_UpdateService (signContext privateKey (assertOwner tenantIdentifier proxyHandler))))))
  | CPollInstance => PollInstance (assertPlatformID proxyHandler)
  | CBind =>
      Bind (assertPlatformID (validateNotPendingTermination
        (handleBinding (signContext privateKey (assertOwner tenantIdentifier proxyHandler)))))
  | CUnbind => Unbind (assertPlatformID (handleBinding proxyHandler))
  | CPollBinding => PollBinding (assertPlatformID (handleBinding proxyHandler))
  end.

(** ** Plugins that hand on *)
Definition same (w w1 : world) : Prop :=
  w_tables w1 = w_tables w /\ rq_PathParams (w_req w1) = rq_PathParams (w_req w).
(** From a world with the path [pp], the handler answers itself or calls [next]. *)
Definition hands_on (pp : gmap string string) (m next : handler) : Prop := forall w w' r,
  rq_PathParams (w_req w) = pp -> m w = (w', r) ->
  same w w' \/ exists w1, same w w1 /\ next w1 = (w', r).

Lemma same_trans w w1 w2 : same w w1 -> same w1 w2 -> same w w2.
Proof. intros [Ht Hp] [Ht' Hp']. split; congruence. Qed.
Lemma hands_on_next pp next : hands_on pp next next.
Proof. intros w w' r _ Hr. right. by exists w. Qed.
Lemma hands_on_fail pp e next : hands_on pp (h_fail e) next.
Proof. intros w w' r _ [= <- _]. by left. Qed.
Lemma hands_on_ret pp a next : hands_on pp (h_ret a) next.
Proof. intros w w' r _ [= <- _]. by left. Qed.
Lemma hands_on_bind {A} pp (m : handling A) f next :
  keeps m -> (forall a, hands_on pp (f a) next) -> hands_on pp (h_bind m f) next.
Proof.
  intros Hm Hf w w' r Hpp. unfold h_bind. destruct (m w) as [w1 [a|e|x]] eqn:E;
    pose proof (Hm _ _ _ E : same w w1) as Hs.
  - intros Hr. apply Hf in Hr; [|by rewrite (proj2 Hs)].
    destruct Hr as [Hr|(w2 & Hr & Hn)]; [left; by eapply same_trans|]. right. exists w2. split; [by eapply same_trans|done].
  - intros [= <- _]. by left.
  - intros [= <- _]. by left.
Qed.
Lemma hands_on_request pp f next :
  (forall req, rq_PathParams req = pp -> hands_on pp (f req) next) -> hands_on pp (h_bind h_request f) next.
Proof. intros Hf w w' r Hpp Hb. by eapply (Hf (w_req w)). Qed.
Lemma hands_on_set pp req f next :
  rq_PathParams req = pp -> hands_on pp f next -> hands_on pp (h_bind (h_set_request req) (fun _ => f)) next.
Proof.
  intros Hreq Hf w w' r Hpp Hb. unfold h_bind, h_set_request in Hb.
  assert (Hs : same w {| w_req := req; w_tables := w_tables w; w_calls := w_calls w |}) by (split; simpl; congruence).
  apply Hf in Hb; [|done]. destruct Hb as [Hr|(w2 & Hr & Hn)]; [left; by eapply same_trans|].
  right. exists w2. split; [by eapply same_trans|done].
Qed.
Lemma hands_on_keeps m next : (forall pp, hands_on pp m next) -> keeps next -> keeps m.
Proof.
  intros Hm Hn w w' r Hr. destruct (Hm _ w w' r eq_refl Hr) as [Hs|(w1 & Hs & Hr')]; [done|].
  eapply same_trans; [done|]. by eapply Hn.
Qed.

Lemma keeps_handled {A} name (m : handling A) : keeps m -> keeps (handled name m).
Proof. intros Hm. apply osb_keeps_bind; [by apply keeps_try|]. intros []; eauto with osb. Qed.
Lemma keeps_handled_not_found {A} name (m : handling A) : keeps m -> keeps (handled_not_found name m).
Proof. intros Hm. apply osb_keeps_bind; [by apply keeps_try|]. intros [a|[]]; eauto with osb. Qed.
End Chains.

#[export] Hint Resolve keeps_handled keeps_handled_not_found : osb.
#[export] Hint Extern 2 (keeps (find_plan _)) => apply keeps_read : osb.
#[export] Hint Extern 2 (keeps (find_offering _)) => apply keeps_read : osb.
#[export] Hint Extern 2 (keeps (get_instance _)) => apply keeps_read : osb.
#[export] Hint Extern 2 (keeps (list_visibilities _)) => apply keeps_read : osb.
#[export] Hint Extern 2 (keeps (list_instances _)) => apply keeps_read : osb.
#[export] Hint Extern 2 (keeps (list_plans _)) => apply keeps_read : osb.
#[export] Hint Extern 2 (keeps (count_operations _)) => apply keeps_read : osb.
#[export] Hint Extern 2 (keeps (GetObjectByField_instance _ _)) => apply keeps_read : osb.
#[export] Hint Extern 4 (keeps (if ?b then _ else _)) => destruct b : osb.
#[export] Hint Extern 4 (keeps (match ?b with _ => _ end)) => destruct b : osb.

(** One step into a plugin. *)
Ltac hand_on_step :=
  match goal with
  | |- hands_on _ ?n ?n => apply hands_on_next
  | |- hands_on _ (h_fail _) _ => apply hands_on_fail
  | |- hands_on _ (h_ret _) _ => apply hands_on_ret
  | |- hands_on _ (h_bind h_request _) _ => apply hands_on_request; intros ? ?
  | |- hands_on _ (h_bind (h_set_request _) _) _ => apply hands_on_set; [done|]
  | |- hands_on _ (h_bind _ _) _ => apply hands_on_bind; [solve [eauto 10 with osb]|intros ?]
  | |- hands_on _ (if ?b then _ else _) _ => destruct b
  | |- hands_on _ (match ?x with _ => _ end) _ => destruct x
  end.

Section Chained.
Context `{OSBEnv} `{OSBJson} `{SharingJson} `{ContextSigning} `{OSBProxy}.
Context (privateKey tenantIdentifier : string).

Lemma keeps_IsReferencePlan p : keeps (IsReferencePlan p).
Proof.
  apply osb_keeps_bind; [eauto with osb|]. intros [plan|e]; [|eauto with osb].
  intros w w' r [= <- _]. done.
Qed.
Lemma keeps_references id : keeps (GetInstanceReferencesByID id).
Proof. unfold GetInstanceReferencesByID. eauto with osb. Qed.
Lemma keeps_single_match m l acc : keeps (single_match m l acc).
Proof.
  revert acc. induction l as [|i l IH]; intros acc; simpl; [unfold sharing_fail; destruct acc; eauto with osb|].
  destruct (m i); [|apply IH]. destruct (Nat.ltb _ _); [apply osb_keeps_fail|apply IH].
Qed.
Lemma keeps_by_id id offering tid tenant : keeps (sharing_getInstanceByID id offering tid tenant).
Proof. unfold sharing_getInstanceByID, isSameServiceOffering, sharing_fail. eauto 10 with osb. Qed.
Lemma keeps_by_selectors offering tid tenant sel smaap :
  keeps (filterInstancesBySelectors offering tid tenant sel smaap).
Proof.
  apply osb_keeps_bind.
  - destruct (_ && _); [|apply keeps_read].
    unfold getInstanceByLabelSelector, getPlansOfServiceOffering, sharing_fail. eauto 15 with osb.
  - intros l. apply osb_keeps_bind; [|intros p; apply keeps_single_match].
    destruct (_ && _); [|apply osb_keeps_ret]. unfold getSelectorPlan, sharing_fail. eauto 15 with osb.
Qed.
Lemma keeps_Extract tid f smaap : keeps (ExtractReferencedInstanceID tid f smaap).
Proof.
  apply osb_keeps_bind; [apply keeps_request|intros req]. apply osb_keeps_bind; [apply keeps_lift|intros _].
  destruct (rq_Plan req); [|apply osb_keeps_fail]. apply osb_keeps_bind; [apply keeps_lift|intros tenant].
  apply osb_keeps_bind; [|intros i; apply osb_keeps_ret].
  destruct (_ && _); [apply keeps_by_id|apply keeps_by_selectors].
Qed.
Lemma keeps_findServicePlan b s p : keeps (findServicePlanByCatalogIDs b s p).
Proof. unfold findServicePlanByCatalogIDs. eauto with osb. Qed.
Lemma keeps_lookup id : keeps (lookup_instance id).
Proof. unfold lookup_instance. eauto with osb. Qed.
Lemma keeps_valid_patch req i : keeps (isValidSharedInstancePatchRequest req i).
Proof. unfold isValidSharedInstancePatchRequest, sharing_fail. eauto 10 with osb. Qed.
End Chained.

#[export] Hint Resolve keeps_IsReferencePlan keeps_references keeps_Extract keeps_findServicePlan keeps_lookup
  keeps_valid_patch : osb.

Section ChainTheorems.
Context `{OSBEnv} `{OSBJson} `{SharingJson} `{ContextSigning} `{OSBProxy}.
Context (privateKey tenantIdentifier : string) (is_binding : string -> bool).

Lemma owner_hands_on pp next : hands_on pp (assertOwner tenantIdentifier next) next.
Proof. unfold assertOwner. repeat hand_on_step. Qed.
Lemma platform_hands_on pp next : hands_on pp (assertPlatformID next) next.
Proof. unfold assertPlatformID. repeat hand_on_step. Qed.
Lemma check_hands_on pp planID ctx next : hands_on pp (checkVisibility planID ctx next) next.
Proof. unfold checkVisibility. repeat hand_on_step. Qed.
Lemma visibility_provision_hands_on pp next : hands_on pp (checkVisibility_Provision next) next.
Proof. unfold checkVisibility_Provision. repeat first [hand_on_step|apply check_hands_on]. Qed.
Lemma visibility_update_hands_on pp next : hands_on pp (checkVisibility_UpdateService next) next.
Proof. unfold checkVisibility_UpdateService. repeat first [hand_on_step|apply check_hands_on]. Qed.
Lemma termination_hands_on pp next : hands_on pp (validateNotPendingTermination next) next.
Proof. unfold validateNotPendingTermination. repeat hand_on_step. Qed.
Lemma sharing_provision_hands_on pp next : hands_on pp (sharing_Provision tenantIdentifier next) next.
Proof. unfold sharing_Provision, sharing_fail. repeat hand_on_step. Qed.
Lemma sharing_deprovision_hands_on pp next : hands_on pp (sharing_Deprovision next) next.
Proof. unfold sharing_Deprovision, deprovisionSharedInstance. repeat hand_on_step. Qed.
Lemma sharing_update_hands_on pp next : hands_on pp (sharing_UpdateService next) next.
Proof. unfold sharing_UpdateService. repeat hand_on_step. Qed.
Lemma binding_hands_on pp next : hands_on pp (handleBinding next) next.
Proof. unfold handleBinding. repeat hand_on_step. Qed.
Lemma signature_hands_on pp next : hands_on pp (signContext privateKey next) next.
Proof. unfold signContext. repeat hand_on_step. Qed.

Lemma keeps_proxyHandler : keeps proxyHandler.
Proof.
  apply osb_keeps_bind; [apply keeps_request|intros req]. destruct (_ !! _); [|apply osb_keeps_fail].
  apply osb_keeps_bind; [apply keeps_outside|intros broker]. apply osb_keeps_bind; [|intros []; eauto with osb].
  apply keeps_try. apply osb_keeps_bind; [apply keeps_request|intros r]. destruct (osb_path r); [|apply osb_keeps_fail].
  eauto 10 with osb.
Qed.
Lemma keeps_through m next : (forall pp, hands_on pp m next) -> keeps next -> keeps m.
Proof. apply hands_on_keeps. Qed.
End ChainTheorems.

(** The rest of a chain after the store plugin only reads. *)
Ltac keeps_chain :=
  repeat (eapply keeps_through;
    [intros ?; first [apply owner_hands_on|apply platform_hands_on|apply termination_hands_on|
       apply sharing_provision_hands_on|apply sharing_deprovision_hands_on|apply sharing_update_hands_on|
       apply binding_hands_on|apply signature_hands_on]|]);
  apply keeps_proxyHandler.
