(* ===== verification/OSBChainTheorems.v ===== *)
(** * Properties of the OSB API

    The chains of OSB plugins refine the mirror, so what is stored agrees with the newest operation
    after any sequence of requests; what the checks before the broker let through. *)

From S2P Require Import Prelude GoStd Errors Query OperationTypes DomainTypes OSBWorld OSBStore OSBStoreProps OSBMirror OSBRefinement OSBTheorems Sharing OSBPlugins OSBChain.
From stdpp Require Import base gmap strings list.
From Stdlib Require Import ZArith.
Local Open Scope string_scope.

Section OSB.
Context `{OSBEnv} `{OSBJson} `{SharingJson} `{ContextSigning} `{OSBProxy}.
Context (privateKey tenantIdentifier : string) (is_binding : string -> bool).
Hypothesis storage_honest : honest.
Notation chain := (osb_chain privateKey tenantIdentifier).
(** The resource is of the kind the request is about. *)
Notation of_kind c w := (is_binding (resource_of c (w_req w)) = binding_call c).

Lemma through_visibility c m next w w' r :
  (forall pp, hands_on pp m next) ->
  (forall w w' r, of_kind c w -> well_formed (w_tables w) -> next w = (w', r) ->
   outcome is_binding (resource_of c (w_req w)) r (w_tables w) (w_tables w')) ->
  of_kind c w -> well_formed (w_tables w) -> m w = (w', r) ->
  outcome is_binding (resource_of c (w_req w)) r (w_tables w) (w_tables w').
Proof.
  intros Hm Hn Hk Hw Hr. destruct (Hm _ w w' r eq_refl Hr) as [[Ht _]|(w1 & [Ht Hp] & Hr')].
  - rewrite Ht. by apply outcome_refl.
  - assert (Hres : resource_of c (w_req w1) = resource_of c (w_req w)) by (unfold resource_of; by rewrite Hp).
    rewrite <- Ht, <- Hres. apply Hn; [by rewrite Hres|by rewrite Ht|done].
Qed.
Lemma chain_outcome c w w' r :
  of_kind c w -> well_formed (w_tables w) -> chain c w = (w', r) ->
  outcome is_binding (resource_of c (w_req w)) r (w_tables w) (w_tables w').
Proof.
  assert (Hstore : forall next w w' r, keeps next -> of_kind c w -> well_formed (w_tables w) ->
    handle c next w = (w', r) -> outcome is_binding (resource_of c (w_req w)) r (w_tables w) (w_tables w')).
  { intros next v v' q Hk Hc Hw. by apply handle_outcome. }
  destruct c; simpl; try (apply Hstore; keeps_chain).
  - apply (through_visibility CProvision _ _ _ _ _ (fun pp => visibility_provision_hands_on pp _)).
    intros v v' q. apply Hstore. keeps_chain.
  - apply (through_visibility CUpdate _ _ _ _ _ (fun pp => visibility_update_hands_on pp _)).
    intros v v' q. apply Hstore. keeps_chain.
Qed.

(** C7: the OSB API mirrors the broker.  Whatever the broker answers and whichever calls
    of the storage fail, a request leaves every resource but its own as it was, changes its
    own only by a step of the specification - an entity is created with the operation that
    creates it, deleted, or made ready when its newest operation ends - and a request that
    fails changes nothing at all. *)
Theorem osb_refines_mirror c w w' r :
  of_kind c w -> well_formed (w_tables w) -> chain c w = (w', r) ->
  let x := resource_of c (w_req w) in
  (forall y, y <> x -> view is_binding (w_tables w') y = view is_binding (w_tables w) y) /\
  (view is_binding (w_tables w') x = view is_binding (w_tables w) x \/
   rstep (view is_binding (w_tables w) x) (view is_binding (w_tables w') x)) /\
  (is_ok r = false -> w_tables w' = w_tables w).
Proof.
  intros Ha Hw Hh x. destruct (chain_outcome c w w' r Ha Hw Hh) as [(_ & Ho & Hx) Hf]. by repeat split.
Qed.

(** ** Sequences of requests *)
Inductive requests : tables -> tables -> Prop :=
  | requests_none t : requests t t
  | requests_more t c w w' r :
      requests t (w_tables w) -> of_kind c w -> chain c w = (w', r) ->
      requests t (w_tables w').

Lemma requests_inv t t' :
  requests t t' -> well_formed t -> (forall x, coherent (view is_binding t x)) ->
  well_formed t' /\ forall x, coherent (view is_binding t' x).
Proof.
  intros Hr Hw Hc. induction Hr as [|t c w w' r Hr IH Ha Hh]; [done|].
  destruct (IH Hw Hc) as [Hw1 Hc1].
  destruct (chain_outcome c w w' r Ha Hw1 Hh) as [(Hw2 & Ho & Hx) _]. split; [done|].
  intros y. destruct (decide (y = resource_of c (w_req w))) as [->|Hne]; [|by rewrite Ho].
  destruct Hx as [->|Hs]; [done|]. by eapply rstep_coherent.
Qed.

(** C9: starting from empty tables, after any sequence of OSB requests with any answers of the
    broker and any failures of the storage: an entity whose newest operation is a
    successful deletion or a failed creation is not stored (a preserved instance apart), one whose
    newest operation is a successful creation is ready if it is stored, and nothing is stored
    for which no operation is. *)
Theorem mirror_coherent t x :
  requests {| tb_instances := ∅; tb_bindings := ∅; tb_operations := []; tb_offerings := tb_offerings t;
              tb_plans := tb_plans t; tb_visibilities := tb_visibilities t |} t -> mirrored is_binding t x.
Proof.
  intros Hr. apply coherent_mirrored. apply (requests_inv _ _ Hr).
  - split; [intros k i; simpl; by rewrite lookup_empty..|constructor].
  - intros y. unfold coherent, view, ready_of. simpl. destruct (is_binding y); by rewrite lookup_empty.
Qed.
End OSB.
