(* ===== verification/OSBGuards.v ===== *)
(** * What the checks before the broker let through

    A request for an instance of another platform never reaches the rest of the chain; a plan is
    provisioned exactly when a visibility admits it; a shared instance with references is not
    deprovisioned as long as the storage can list them. *)

From S2P Require Import Prelude GoStd Errors Query OperationTypes DomainTypes OSBWorld OSBStore OSBStoreProps OSBMirror OSBRefinement OSBTheorems OSBOutcomes Sharing SharingTheorems OSBPlugins OSBChain OSBChainTheorems.
From stdpp Require Import base gmap strings list pretty.
From Stdlib Require Import ZArith.
Local Open Scope string_scope.

Section Guards.
Context `{OSBEnv} `{OSBJson} `{SharingJson} `{OSBProxy}.

(** ** Computations that agree *)
Lemma bind_ext {A B} (m : handling A) (f g : A -> handling B) w :
  (forall a w1, m w = (w1, Ok a) -> f a w1 = g a w1) -> h_bind m f w = h_bind m g w.
Proof. intros Hf. unfold h_bind. destruct (m w) as [w1 [a|e|x]] eqn:E; [by apply Hf|done|done]. Qed.
Lemma bind_same {A B} (m m' : handling A) (f : A -> handling B) w : m w = m' w -> h_bind m f w = h_bind m' f w.
Proof. unfold h_bind. by intros ->. Qed.
Lemma bind_failed {A B} (m : handling A) (f : A -> handling B) w :
  is_ok (snd (m w)) = false -> is_ok (snd (h_bind m f w)) = false.
Proof. unfold h_bind. by destruct (m w) as [w1 [a|e|x]]. Qed.
Lemma bind_failed_after {A B} (m : handling A) (f : A -> handling B) w :
  (forall a w1, m w = (w1, Ok a) -> is_ok (snd (f a w1)) = false) -> is_ok (snd (h_bind m f w)) = false.
Proof. intros Hf. unfold h_bind. destruct (m w) as [w1 [a|e|x]] eqn:E; [by apply Hf|done|done]. Qed.

(** Two rests of a chain that agree on the worlds with this request and these tables. *)
Definition agree (w : world) (m m' : handler) : Prop :=
  forall w1, w_tables w1 = w_tables w -> w_req w1 = w_req w -> m w1 = m' w1.
Definition all_fail (w : world) (m : handler) : Prop :=
  forall w1, w_tables w1 = w_tables w -> w_req w1 = w_req w -> is_ok (snd (m w1)) = false.

Lemma decode_same {A} (un : string -> option A) va w w1 x :
  decodeRequestBody un va w = (w1, Ok x) -> w_tables w1 = w_tables w /\ w_req w1 = w_req w.
Proof. destruct x as [a det]. intros (_ & v & (Ht & Hr & _)%parse_ok & ->)%decode_ok. done. Qed.
Lemma parse_same w w1 x : parseRequestForm w = (w1, Ok x) -> w_tables w1 = w_tables w /\ w_req w1 = w_req w.
Proof. by intros (Ht & Hr & _)%parse_ok. Qed.
End Guards.

(** Into the handlers of the store plugin, up to their call of the rest of the chain. *)
Ltac to_rest lem :=
  repeat first
    [ match goal with |- h_bind ?m _ ?w = h_bind ?m _ ?w => apply lem; intros ? ? ?Hm end
    | match goal with |- is_ok (snd (h_bind h_request _ _)) = false => apply lem; intros ? ? ?Hm end
    | match goal with |- is_ok (snd (h_bind (h_lift _) _ _)) = false => apply lem; intros ? ? ?Hm end
    | match goal with |- is_ok (snd (h_bind parseRequestForm _ _)) = false => apply lem; intros ? ? ?Hm end
    | match goal with |- is_ok (snd (h_bind (decodeRequestBody _ _) _ _)) = false => apply lem; intros ? ? ?Hm end
    | match goal with Hm : h_request _ = (_, Ok _) |- _ => injection Hm as <- <- end
    | match goal with Hm : h_lift _ _ = (_, Ok _) |- _ => injection Hm as <- ? end
    | match goal with x : (_ * commonRequestDetails)%type |- _ => destruct x end ].

Section Guards2.
Context `{OSBEnv} `{OSBJson} `{SharingJson} `{OSBProxy}.

Lemma handle_agree c m m' w : c <> CProvision -> agree w m m' -> handle c m w = handle c m' w.
Proof.
  intros Hc Ha. destruct c; [done| | | | | |]; simpl;
    unfold Deprovision, UpdateService, PollInstance, Bind, Unbind, PollBinding; to_rest @bind_ext;
    apply bind_same, Ha;
    repeat match goal with
           | Hm : parseRequestForm _ = _ |- _ => apply parse_same in Hm as [? ?]
           | Hm : decodeRequestBody _ _ _ = _ |- _ => apply decode_same in Hm as [? ?]
           end; congruence.
Qed.
Lemma handle_fails c m w : c <> CProvision -> all_fail w m -> is_ok (snd (handle c m w)) = false.
Proof.
  intros Hc Ha. destruct c; [done| | | | | |]; simpl;
    unfold Deprovision, UpdateService, PollInstance, Bind, Unbind, PollBinding; to_rest @bind_failed_after;
    apply bind_failed, Ha;
    repeat match goal with
           | Hm : parseRequestForm _ = _ |- _ => apply parse_same in Hm as [? ?]
           | Hm : decodeRequestBody _ _ _ = _ |- _ => apply decode_same in Hm as [? ?]
           end; congruence.
Qed.

(** ** Platforms *)
Lemma lookup_found id w i :
  fault (w_calls w) = None -> tb_instances (w_tables w) !! id = Some i -> lookup_instance id w = (tick w, Ok (Some i)).
Proof.
  intros Hf Hi. unfold lookup_instance, handled_not_found, h_bind, h_try, get_instance, read, storage_call.
  rewrite Hf, Hi. done.
Qed.
(** The check of the platform ends before the rest of the chain. *)
Lemma foreign_instance next next' w platform i :
  (forall n, fault n = None) -> rq_User (w_req w) = Some (Ok platform) ->
  tb_instances (w_tables w) !! instance_param (w_req w) = Some i -> base_ID (pl_Base platform) <> si_PlatformID i ->
  assertPlatformID next w = assertPlatformID next' w /\ is_ok (snd (assertPlatformID next w)) = false.
Proof.
  intros Hf Hu Hi Hne. unfold assertPlatformID, h_bind, h_request, h_lift.
  destruct (user_platform (w_req w)) as [p|e|msg] eqn:Ep; [|done|done].
  assert (p = platform) as ->.
  { unfold user_platform in Ep. rewrite Hu in Ep. apply bind_ok in Ep as (q & [= <-] & Ep).
    apply bind_ok in Ep as (u & _ & [= ->]). done. }
  rewrite (lookup_found (instance_param (w_req w)) w i (Hf _) Hi). unfold h_set_request.
  apply String.eqb_neq in Hne. by rewrite Hne.
Qed.

(** C22: platforms are isolated from each other: a request to update, delete or poll an instance, or
    about a binding of it, made by another platform than the instance's fails before the
    rest of the chain, and with it the broker, is reached: what would come after the check makes no
    difference. *)
Theorem platform_isolation c next next' w platform i :
  c <> CProvision -> (forall n, fault n = None) -> rq_User (w_req w) = Some (Ok platform) ->
  tb_instances (w_tables w) !! instance_param (w_req w) = Some i -> base_ID (pl_Base platform) <> si_PlatformID i ->
  handle c (assertPlatformID next) w = handle c (assertPlatformID next') w /\
  is_ok (snd (handle c (assertPlatformID next) w)) = false.
Proof.
  intros Hc Hf Hu Hi Hne. split.
  - apply handle_agree; [done|]. intros w1 Ht Hr. rewrite <- Hr in Hu, Hi. rewrite <- Ht in Hi.
    by apply (foreign_instance next next' w1 platform i).
  - apply handle_fails; [done|]. intros w1 Ht Hr. rewrite <- Hr in Hu, Hi. rewrite <- Ht in Hi.
    by apply (foreign_instance next next' w1 platform i).
Qed.

(** ** Visibilities *)

(** The visibility [v] admits a plan for a request of a platform: it is for all platforms; or it
    is for this one, which on Cloud Foundry takes a visibility without labels; or, on Cloud
    Foundry, it is labelled with the organization of the request, whatever platform it is for. *)
Inductive admits (platform : Platform) (planID organization : string) (v : Visibility) : Prop :=
  | admits_everywhere : vi_ServicePlanID v = planID -> vi_PlatformID v = "" -> admits platform planID organization v
  | admits_platform : vi_ServicePlanID v = planID -> vi_PlatformID v = base_ID (pl_Base platform) ->
      (pl_Type platform = "cloudfoundry" -> base_Labels (vi_Base v) = ∅) -> admits platform planID organization v
  | admits_organization values : vi_ServicePlanID v = planID -> pl_Type platform = "cloudfoundry" ->
      base_Labels (vi_Base v) !! "organization_guid" = Some values -> organization ∈ values ->
      admits platform planID organization v.

Lemma label_holds v key value : visibility_label v key value = true <->
  exists vs, base_Labels (vi_Base v) !! key = Some vs /\ value ∈ vs.
Proof.
  unfold visibility_label. destruct (base_Labels (vi_Base v) !! key) as [vs|]; [|naive_solver].
  rewrite bool_decide_eq_true. naive_solver.
Qed.
(** The condition of the named query is this, with the parameters the check gives it. *)
Lemma cloudfoundry_admits platform planID organization v : pl_Type platform = "cloudfoundry" ->
  visible_with (base_ID (pl_Base platform)) planID "organization_guid" organization v = true <->
  admits platform planID organization v.
Proof.
  intros Hp. unfold visible_with. rewrite andb_true_iff, !orb_true_iff, andb_true_iff, orb_true_iff, !String.eqb_eq,
    bool_decide_eq_true, label_holds. split.
  - intros [Hplan [[?|[? [?|?]]]|(vs & ? & ?)]]; [by apply admits_everywhere|done|by apply admits_platform|by eapply admits_organization].
  - intros [? ?|? ? Hl|vs ? _ ? ?]; (split; [done|]); [by left; left|left; right; split; [done|right; by apply Hl]|right; by exists vs].
Qed.
Lemma other_admits platform planID v : pl_Type platform <> "cloudfoundry" -> base_Labels (vi_Base v) !! "" = None ->
  visible_with (base_ID (pl_Base platform)) planID "" "" v = true <-> admits platform planID "" v.
Proof.
  intros Hp Hl. unfold visible_with. rewrite andb_true_iff, !orb_true_iff, andb_true_iff, orb_true_iff, !String.eqb_eq,
    bool_decide_eq_true, label_holds. split.
  - intros [Hplan [[?|[? _]]|(vs & ? & ?)]]; [by apply admits_everywhere|by apply admits_platform|congruence].
  - intros [? ?|? ? _|vs ? ? ? ?]; (split; [done|]); [by left; left|left; right; split; [done|by left]|done].
Qed.

(** The rows of the query decide. *)
Lemma visible_rows planID osbContext next w platform key value :
  fault (w_calls w) = None -> ExtractPlatformFromContext (w_req w) = Ok platform ->
  (if String.eqb (pl_Type platform) "cloudfoundry"
   then osbContext <> "" /\ value = gjson_string osbContext "organization_guid" /\ value <> "" /\ key = "organization_guid"
   else key = "" /\ value = "") ->
  checkVisibility planID osbContext next w =
    match List.filter (visible_with (base_ID (pl_Base platform)) planID key value) (tb_visibilities (w_tables w)) with
    | [] => (tick w, Err errPlanNotAccessible)
    | _ => next (tick w)
    end.
Proof.
  intros Hf Hp Ht. unfold checkVisibility, h_bind, h_request, h_lift. rewrite Hp.
  unfold list_visibilities, read, storage_call. destruct (String.eqb (pl_Type platform) "cloudfoundry").
  - destruct Ht as (Hctx%String.eqb_neq & -> & Horg%String.eqb_neq & ->). rewrite Hctx, Horg. simpl. rewrite Hf.
    by destruct (List.filter _ _).
  - destruct Ht as (-> & ->). simpl. rewrite Hf. by destruct (List.filter _ _).
Qed.
Lemma rows_decide {A} (P : A -> bool) (Q : A -> Prop) l {B} (x y : B) : (forall v, v ∈ l -> P v = true <-> Q v) ->
  ((exists v, v ∈ l /\ Q v) -> match List.filter P l with [] => x | _ => y end = y) /\
  (~ (exists v, v ∈ l /\ Q v) -> match List.filter P l with [] => x | _ => y end = x).
Proof.
  intros HPQ. destruct (List.filter P l) as [|v l'] eqn:Ef; split; try done.
  - intros (v & Hin & Hv). apply (HPQ v Hin) in Hv. assert (Hi : In v []); [|done]. rewrite <- Ef. apply List.filter_In.
    split; [by apply list_elem_of_In|done].
  - intros Hn. destruct Hn. exists v. assert (Hi : In v (v :: l')) by by left. rewrite <- Ef in Hi.
    apply List.filter_In in Hi as [Hin%list_elem_of_In Hv]. split; [done|by apply HPQ].
Qed.

(** C27: a plan is accessible exactly when some visibility admits it.  As long as the storage
    answers and no label has an empty key: a request is handed on when a visibility of the plan
    is for all platforms, or for the platform of the request (on Cloud Foundry only one without
    labels), or, on Cloud Foundry, has the label of the organization in the context of the
    request, whatever platform it is for; without one the request fails with "not accessible"
    and goes no further.  On Cloud Foundry a request without an organization in its context is
    a bad request. *)
Theorem visibility_decides planID osbContext next w platform :
  fault (w_calls w) = None -> ExtractPlatformFromContext (w_req w) = Ok platform ->
  (forall v, v ∈ tb_visibilities (w_tables w) -> base_Labels (vi_Base v) !! "" = None) ->
  let organization := if bool_decide (pl_Type platform = "cloudfoundry") then gjson_string osbContext "organization_guid" else "" in
  let admitted := exists v, v ∈ tb_visibilities (w_tables w) /\ admits platform planID organization v in
  let nameless := pl_Type platform = "cloudfoundry" /\ (osbContext = "" \/ organization = "") in
  (~ nameless -> admitted -> checkVisibility planID osbContext next w = next (tick w)) /\
  (~ nameless -> ~ admitted -> checkVisibility planID osbContext next w = (tick w, Err errPlanNotAccessible)) /\
  (nameless -> exists text, checkVisibility planID osbContext next w = (w, Err (bad_request text))).
Proof.
  intros Hf Hp Hl organization admitted nameless. destruct (decide (pl_Type platform = "cloudfoundry")) as [Hcf|Hcf].
  - assert (organization = gjson_string osbContext "organization_guid") as Ho by (unfold organization; by rewrite bool_decide_true).
    assert (Hcf' : String.eqb (pl_Type platform) "cloudfoundry" = true) by by apply String.eqb_eq.
    assert (Hrows : ~ nameless -> _) by (intros Hn; apply (visible_rows planID osbContext next w platform "organization_guid" organization);
      [done|done|rewrite Hcf'; split_and!; [intros ->; apply Hn; by split; [|left]|done|intros He; apply Hn; by split; [|right]|done]]).
    destruct (rows_decide _ (admits platform planID organization) (tb_visibilities (w_tables w))
      (tick w, Err errPlanNotAccessible) (next (tick w)) (fun v _ => cloudfoundry_admits platform planID organization v Hcf)) as [Hy Hn].
    split; [intros Hm Ha; rewrite (Hrows Hm); by apply Hy|]. split; [intros Hm Ha; rewrite (Hrows Hm); by apply Hn|].
    intros (_ & Hm). unfold checkVisibility, h_bind, h_request, h_lift. rewrite Hp, Hcf'.
    destruct (String.eqb_spec osbContext "") as [->|Hc]; [by eexists|]. destruct Hm as [?|Hm]; [done|].
    rewrite <- Ho, Hm. by eexists.
  - assert (organization = "") as Ho by (unfold organization; by rewrite bool_decide_false).
    assert (Hcf' : String.eqb (pl_Type platform) "cloudfoundry" = false) by by apply String.eqb_neq.
    destruct (rows_decide _ (admits platform planID "") (tb_visibilities (w_tables w))
      (tick w, Err errPlanNotAccessible) (next (tick w)) (fun v Hv => other_admits platform planID v Hcf (Hl v Hv))) as [Hy Hn].
    unfold admitted. rewrite Ho, (visible_rows planID osbContext next w platform "" "") by (done || by rewrite Hcf').
    split; [intros _; apply Hy|]. split; [intros _; apply Hn|]. by intros [? _].
Qed.

(** ** Shared instances *)

(** References protect a shared instance from being deprovisioned as long as they can be
    listed: then the request fails with the references in its message.  When the storage
    fails to list them the request is handed on all the same. *)
Theorem references_protect_shared next w i :
  fault (w_calls w) = None -> tb_instances (w_tables w) !! instance_param (w_req w) = Some i ->
  instance_matches (rq_Criteria (w_req w)) i = true -> IsShared i = true ->
  let references := List.filter (fun j => String.eqb (si_ReferencedInstanceID j) (si_ID i))
                      (snd <$> map_to_list (tb_instances (w_tables w))) in
  (fault (S (w_calls w)) = None -> references <> [] ->
   exists text, sharing_Deprovision next w = (tick (tick w), Err (EHTTP "BadRequest" text StatusBadRequest))) /\
  (forall e, fault (S (w_calls w)) = Some e -> sharing_Deprovision next w = next (tick (tick w))).
Proof.
  intros Hf Hi Hm Hs references.
  assert (Hd : sharing_Deprovision next w = deprovisionSharedInstance i next (tick w)).
  { unfold sharing_Deprovision, h_bind, h_request, h_try, GetObjectByField_instance, read, storage_call.
    rewrite Hf, Hi, Hm. simpl. by rewrite Hs. }
  rewrite Hd. unfold deprovisionSharedInstance, GetInstanceReferencesByID, h_bind, h_try, list_instances, read, storage_call.
  simpl. split.
  - intros -> Hr. fold references. destruct references as [|j l]; [done|]. by eexists.
  - by intros e ->.
Qed.
End Guards2.

(** ** Concrete runs of the store plugin

    A storage that never fails, a broker whose answers are chosen, and an instance that is
    provisioned, updated and deleted; the hypotheses of the properties hold there. *)
(** Criteria on a label and on [shared]; others select everything. *)
Definition toy_criterion (i : ServiceInstance) (c : Query.Criteria.Criterion) : bool :=
  match Query.Criteria.COperator c, Query.Criteria.CType c, Query.Criteria.RightOp c with
  | EqualsOperator, Query.Criteria.LabelQuery, [v] => has_label i (Query.Criteria.LeftOp c) v
  | EqualsOperator, Query.Criteria.FieldQuery, _ =>
      negb (String.eqb (Query.Criteria.LeftOp c) "shared") || bool_decide (si_Shared i = Some true)
  | _, _, _ => true
  end.
#[export] Instance calm : OSBEnv :=
  {| fault := fun _ => None; uuid_NewV4 := fun n => Ok ("op-" ++ pretty n); time_Now := Z.of_nat;
     instance_matches := fun cs i => List.forallb (toy_criterion i) cs |}.
Lemma calm_honest : honest.
Proof. by intros n. Qed.

Definition no_answer : provisionResponse :=
  {| prs_OperationData := ""; prs_Error := ""; prs_Description := ""; prs_DashboardURL := ""; prs_InstanceUsable := true |}.
Definition no_previous : previousValues := {| pv_PlanID := "gold"; pv_ServiceID := ""; pv_MaintenanceInfo := "" |}.

(** JSON for the texts of the runs: "P" is the document with the key of the plan, "PC" the one with
    the context too. *)
Definition toy_set (j k v : string) : result string :=
  if String.eqb j "{}" && String.eqb k smServicePlanIDKey && String.eqb v "plan-1" then Ok "P" else Err (EPlain "json").
Definition toy_set_raw (j k v : string) : result string :=
  if String.eqb j "P" && String.eqb k smContextKey && String.eqb v "{c}" then Ok "PC" else Err (EPlain "json").
#[export] Instance toy_text : JSONText :=
  {| json_marshal := fun _ => Ok "{}"; json_marshal_array := fun _ => Ok "[]"; json_unmarshal := fun _ => Ok ∅;
     sjson_set := toy_set; sjson_delete := fun s _ => Ok s;
     gjson_string := fun j k => if String.eqb k "organization_guid" then "org" else if String.eqb k smServicePlanIDKey && (String.eqb j "P" || String.eqb j "PC") then "plan-1" else "" |}.
#[export] Instance toy_queries : JSONQueries :=
  {| gjson_raw := fun j k => if String.eqb j "PC" && String.eqb k smContextKey then "{c}" else "";
     gjson_array := fun _ _ => None; json_is_object := fun _ => true; json_is_array := fun _ => true |}.
#[export] Instance toy_json : OSBJson :=
  {| osb_json_text := toy_text; osb_queries := toy_queries;
     unmarshal_provisionRequest := fun _ => Some {| prov_ServiceID := "service"; prov_PlanID := "gold";
       prov_OrganizationGUID := ""; prov_SpaceGUID := ""; prov_RawContext := "{c}"; prov_RawParameters := "";
       prov_RawMaintenanceInfo := "" |};
     unmarshal_bindRequest := fun _ => None;
     unmarshal_updateRequest := fun _ => Some {| upd_ServiceID := "service"; upd_PlanID := "silver";
       upd_RawParameters := ""; upd_RawContext := "{d}"; upd_MaintenanceInfo := "";
       upd_PreviousValues := no_previous |};
     unmarshal_provisionResponse := fun _ => no_answer;
     unmarshal_bindResponse := fun _ => {| brs_OperationData := ""; brs_Error := ""; brs_Description := "";
       brs_RouteServiceUrl := ""; brs_SyslogDrainUrl := ""; brs_VolumeMounts := ""; brs_Endpoints := "" |};
     unmarshal_unbindResponse := fun _ => {| ubs_OperationData := ""; ubs_Error := ""; ubs_Description := "" |};
     unmarshal_lastInstance := fun _ => {| lir_provisionResponse := no_answer; lir_State := FAILED |};
     unmarshal_lastBind := fun _ => {| lbr_State := FAILED; lbr_Error := ""; lbr_Description := "" |};
     marshal_previousValues := fun _ => Ok "{}";
     sjson_set_raw := toy_set_raw;
     sjson_append_error := fun errs _ => Ok errs |}.

(** Requests with the body "refer" have the id of an instance in their parameters, those with
    the body "update" are answered 202, others 201. *)
#[export] Instance toy_sharing : SharingJson :=
  {| gjson_members := fun j => match j with JObject l => list_to_map l | _ => ∅ end;
     gjson_render := fun _ => "";
     gjson_value := fun body k => if String.eqb body "refer" && String.eqb k "parameters"
                                  then JObject [(ReferencedInstanceIDKey, JString "shared-1")] else JNull;
     antlr_parse := fun _ => {| Query.Listener.syntax_errors := []; Query.Listener.expression := [] |};
     sort_criteria := Query.Listener.sorted_by_merging |}.
#[export] Instance toy_signing : ContextSigning := {| rsa_sign := fun _ s => Ok s |}.
Definition toy_broker : ServiceBroker :=
  {| br_Base := new_base "broker" 0 true; br_Name := "broker"; br_Description := ""; br_BrokerURL := "http://broker";
     br_Credentials := None; br_Catalog := "" |}.
#[export] Instance toy_proxy : OSBProxy :=
  {| BrokerFetcher := fun _ _ => Ok toy_broker; has_catalog := fun _ => None; osb_path := fun _ => Some "/v2";
     proxy_call := fun _ _ _ body => (if String.eqb body "update" then 202%Z else 201%Z, "{}");
     gjson_valid := fun _ => true; gjson_is_object := fun _ => true |}.

Lemma toy_read_back : read_back "plan-1" "{c}".
Proof. intros pv j1 j2 j3. simpl. intros [= <-] [= <-] [= <-]. done. Qed.

(** ** A platform, an offering with two plans, and requests for one instance *)
Definition osb_platform : Platform :=
  {| pl_Base := new_base "platform" 0 true; pl_Type := "kubernetes"; pl_Name := "k8s"; pl_Description := "";
     pl_Credentials := None; pl_OldCredentials := None; pl_Version := ""; pl_Active := true; pl_Suspended := false;
     pl_LastActive := 0; pl_Integrity := ""; pl_CredentialsActive := true; pl_Technical := false |}.
Definition osb_offering : ServiceOffering :=
  {| so_Base := new_base "offering" 0 true; so_Name := "o"; so_Description := ""; so_Bindable := true;
     so_InstancesRetrievable := true; so_BindingsRetrievable := true; so_PlanUpdatable := true;
     so_AllowContextUpdates := true; so_Tags := ""; so_Requires := ""; so_Metadata := ""; so_BrokerID := "broker";
     so_CatalogID := "service"; so_CatalogName := "service" |}.
Definition osb_plan (id catalog : string) : ServicePlan :=
  {| sp_Base := new_base id 0 true; sp_Name := id; sp_Description := ""; sp_CatalogID := catalog;
     sp_CatalogName := catalog; sp_Free := None; sp_Bindable := None; sp_PlanUpdatable := None; sp_Metadata := "";
     sp_Schemas := ""; sp_MaximumPollingDuration := 0; sp_MaintenanceInfo := ""; sp_ServiceOfferingID := "offering" |}.
Definition catalog_tables : tables :=
  {| tb_instances := ∅; tb_bindings := ∅; tb_operations := []; tb_offerings := [osb_offering];
     tb_plans := [osb_plan "plan-1" "gold"; osb_plan "plan-2" "silver"]; tb_visibilities := [{| vi_Base := new_base "v1" 0 true; vi_PlatformID := ""; vi_ServicePlanID := "plan-1" |};
                       {| vi_Base := new_base "v2" 0 true; vi_PlatformID := "platform"; vi_ServicePlanID := "plan-2" |}] |}.
Definition instance_request_with (body : string) : osb_request :=
  {| rq_Method := "PUT"; rq_RequestURI := ""; rq_PathParams := {[ BrokerIDPathParam := "broker"; InstanceIDPathParam := "instance" ]}; rq_Body := body;
     rq_User := Some (Ok osb_platform); rq_StoreBindings := None; rq_Operation := None; rq_OperationContext := None;
     rq_Instance := None; rq_SharedInstance := None; rq_Plan := None;
     rq_CorrelationID := "corr"; rq_Criteria := [] |}.
Definition instance_request : osb_request := instance_request_with "{}".
Definition start : world := {| w_req := instance_request; w_tables := catalog_tables; w_calls := 0 |}.

Definition answers (status : Z) : handler := h_ret {| rs_StatusCode := status; rs_Body := "{}" |}.
Definition no_binding : string -> bool := fun _ => false.

Definition provisioned : world := fst (Provision (answers 201) start).
Definition updated (status : Z) : world := fst (UpdateService (answers status) provisioned).
Definition update_failed : world := fst (PollInstance (answers 200) (updated 202)).
Definition deleting : world := fst (Deprovision (answers 202) (updated 200)).
Definition deletion_failed : world := fst (PollInstance (answers 200) deleting).

Lemma answers_keeps status : keeps (answers status).
Proof. apply osb_keeps_ret. Qed.
Lemma catalog_well_formed : well_formed catalog_tables.
Proof. split; [intros k i; simpl; by rewrite lookup_empty..|constructor]. Qed.

(** ** Through the whole chain: provisioning, then an update the broker accepts *)
Definition chained : world := fst (osb_chain "" "tenant" CProvision start).
Definition update_start : world :=
  {| w_req := instance_request_with "update"; w_tables := w_tables chained; w_calls := w_calls chained |}.
Definition chain_updated : world := fst (osb_chain "" "tenant" CUpdate update_start).

Lemma osb_refines_mirror_witness :
  let x := resource_of CProvision (w_req start) in
  x = "instance" /\ is_ok (snd (osb_chain "" "tenant" CProvision start)) = true /\
  (forall y, y <> x -> view no_binding (w_tables chained) y = view no_binding (w_tables start) y) /\
  (view no_binding (w_tables chained) x = view no_binding (w_tables start) x \/
   rstep (view no_binding (w_tables start) x) (view no_binding (w_tables chained) x)) /\
  (is_ok (snd (osb_chain "" "tenant" CProvision start)) = false -> w_tables chained = w_tables start).
Proof.
  intros x. split; [reflexivity|]. split; [by vm_compute|].
  exact (osb_refines_mirror "" "tenant" no_binding calm_honest CProvision start chained
           (snd (osb_chain "" "tenant" CProvision start)) eq_refl catalog_well_formed (surjective_pairing _)).
Defined.

Lemma two_requests : requests "" "tenant" no_binding catalog_tables (w_tables chain_updated).
Proof.
  eapply (requests_more _ _ _ _ CUpdate update_start chain_updated); [|reflexivity|apply surjective_pairing].
  eapply (requests_more _ _ _ _ CProvision start chained); [|reflexivity|apply surjective_pairing].
  apply requests_none.
Qed.

Lemma mirror_coherent_witness :
  newest (w_tables chain_updated) "instance" <> None /\ mirrored no_binding (w_tables chain_updated) "instance".
Proof.
  split; [by vm_compute|].
  exact (mirror_coherent "" "tenant" no_binding calm_honest (w_tables chain_updated) "instance" two_requests).
Defined.

Lemma provision_stores_witness :
  exists req det plan context uuid,
    unmarshal_provisionRequest (rq_Body (w_req start)) = Some req /\
    rq_PathParams (w_req start) !! BrokerIDPathParam = Some (cr_BrokerID det) /\
    rq_PathParams (w_req start) !! InstanceIDPathParam = Some (cr_InstanceID det) /\
    (exists platform, rq_User (w_req start) = Some (Ok platform) /\ cr_PlatformID det = base_ID (pl_Base platform)) /\
    plan_of (w_tables start) (cr_BrokerID det) (prov_ServiceID req) (prov_PlanID req) plan /\
    DeleteSignatureField (prov_RawContext req) = Ok context /\
    tb_instances (w_tables start) !! cr_InstanceID det = None /\
    w_tables provisioned =
      add_operation (put_instance (w_tables start) (new_instance req det no_answer (base_ID (sp_Base plan)) context true))
        (new_operation uuid (w_req start) (cr_InstanceID det) det "" SUCCEEDED CREATE "corr" ServiceInstanceType).
Proof.
  assert (Hd : forall a b, sjson_delete a b <> Err EAlreadyExistsInStorage) by (intros a b; discriminate).
  refine (provision_stores (answers 201) start start provisioned {| rs_StatusCode := 201; rs_Body := "{}" |}
            Hd (answers_keeps 201) eq_refl _). by vm_compute.
Defined.

Definition no_operation : Operation :=
  new_operation "" instance_request "" {| cr_BrokerID := ""; cr_InstanceID := ""; cr_PlatformID := ""; cr_Timestamp := 0 |}
    "" FAILED CREATE "" "".
Definition newest_at (w : world) : Operation := default no_operation (newest (w_tables w) "instance").
Definition stored_at (w : world) : ServiceInstance :=
  default (new_instance {| prov_ServiceID := ""; prov_PlanID := ""; prov_OrganizationGUID := ""; prov_SpaceGUID := "";
             prov_RawContext := ""; prov_RawParameters := ""; prov_RawMaintenanceInfo := "" |}
             {| cr_BrokerID := ""; cr_InstanceID := ""; cr_PlatformID := ""; cr_Timestamp := 0 |} no_answer "" "" false)
    (tb_instances (w_tables w) !! "instance").

Lemma failing_poll w w' :
  w_req w = instance_request -> newest (w_tables w) "instance" = Some (newest_at w) ->
  PollInstance (answers 200) w = (w', Ok {| rs_StatusCode := 200; rs_Body := "{}" |}) ->
  State (newest_at w) <> FAILED -> failed_poll (answers 200) w w' "instance" (newest_at w) true.
Proof.
  intros Hr Hn Hp Hs. split; [apply answers_keeps|by rewrite Hr|by rewrite Hr|by intros u u' r [= <- _]| |done|done].
  by eexists.
Qed.

Lemma failed_update_restores_witness :
  si_ServicePlanID (stored_at (updated 202)) = "plan-2" /\
  exists i', tb_instances (w_tables update_failed) !! "instance" = Some i' /\ si_ServicePlanID i' = "plan-1" /\
    si_Context i' = "{c}" /\ si_Usable i' = true.
Proof.
  split; [by vm_compute|].
  refine (failed_update_restores calm_honest (answers 202) (answers 200) provisioned (updated 202) (updated 202)
            update_failed {| rs_StatusCode := 202; rs_Body := "{}" |} "instance" (stored_at provisioned)
            (newest_at (updated 202)) true (answers_keeps 202) _ eq_refl _ _ _ _ toy_read_back eq_refl _ _);
    [by vm_compute..| |by vm_compute].
  apply failing_poll; by vm_compute.
Defined.

Lemma failed_deletion_reverts_update_witness :
  si_ServicePlanID (stored_at (updated 200)) = "plan-2" /\
  exists i', tb_instances (w_tables deletion_failed) !! "instance" = Some i' /\ si_ServicePlanID i' = "plan-1" /\
    si_Context i' = "{c}".
Proof.
  split; [by vm_compute|].
  refine (failed_deletion_reverts_update calm_honest (answers 200) (answers 200) provisioned (updated 200) deleting
            deletion_failed {| rs_StatusCode := 200; rs_Body := "{}" |} "instance" (stored_at provisioned)
            (newest_at deleting) true (answers_keeps 200) _ eq_refl _ _ _ _ toy_read_back _ _ _);
    [by vm_compute..| |by vm_compute].
  apply failing_poll; by vm_compute.
Defined.

(** ** The checks *)
Definition other_platform : Platform :=
  {| pl_Base := new_base "other" 0 true; pl_Type := "cloudfoundry"; pl_Name := "cf"; pl_Description := "";
     pl_Credentials := None; pl_OldCredentials := None; pl_Version := ""; pl_Active := true; pl_Suspended := false;
     pl_LastActive := 0; pl_Integrity := ""; pl_CredentialsActive := true; pl_Technical := false |}.
Definition other_request : osb_request :=
  {| rq_Method := "PUT"; rq_RequestURI := ""; rq_PathParams := rq_PathParams instance_request; rq_Body := "{}";
     rq_User := Some (Ok other_platform); rq_StoreBindings := None; rq_Operation := None; rq_OperationContext := None;
     rq_Instance := None; rq_SharedInstance := None; rq_Plan := None; rq_CorrelationID := "corr"; rq_Criteria := [] |}.
Definition foreign : world := {| w_req := other_request; w_tables := w_tables provisioned; w_calls := 0 |}.

Lemma platform_isolation_witness :
  handle CDeprovision (assertPlatformID (answers 200)) foreign = handle CDeprovision (assertPlatformID (answers 500)) foreign /\
  is_ok (snd (handle CDeprovision (assertPlatformID (answers 200)) foreign)) = false.
Proof.
  refine (platform_isolation CDeprovision (answers 200) (answers 500) foreign other_platform (stored_at provisioned)
            _ _ eq_refl _ _); [discriminate|reflexivity|by vm_compute|by vm_compute].
Defined.

(** The plan is only visible for an organization of another platform. *)
Definition labelled : Visibility :=
  {| vi_Base := {| base_ID := "v3"; base_CreatedAt := 0; base_UpdatedAt := 0;
                   base_Labels := {[ "organization_guid" := ["org"] ]}; base_PagingSequence := 0; base_Ready := true;
                   base_LastOperation := None |};
     vi_PlatformID := "platform"; vi_ServicePlanID := "plan-1" |}.
Definition restricted : world :=
  {| w_req := other_request; w_calls := 0;
     w_tables := {| tb_instances := ∅; tb_bindings := ∅; tb_operations := []; tb_offerings := [osb_offering];
                    tb_plans := [osb_plan "plan-1" "gold"]; tb_visibilities := [labelled] |} |}.
Lemma visibility_decides_witness :
  vi_PlatformID labelled <> base_ID (pl_Base other_platform) /\
  checkVisibility "plan-1" "{c}" (answers 201) restricted = answers 201 (tick restricted).
Proof.
  split; [discriminate|].
  refine (proj1 (visibility_decides "plan-1" "{c}" (answers 201) restricted other_platform eq_refl eq_refl _) _ _).
  - by intros v ->%list_elem_of_singleton.
  - by intros [_ [?|?]].
  - exists labelled. split; [apply list_elem_of_here|]. eapply admits_organization; [done|done|reflexivity|apply list_elem_of_here].
Defined.

(** A shared instance with a reference to it, and a request that refers to it. *)
Definition instance_named (id referenced : string) (shared : option bool) : ServiceInstance :=
  {| si_Base := {| base_ID := id; base_CreatedAt := 0; base_UpdatedAt := 0; base_Labels := {[ "tenant" := ["t1"] ]};
                   base_PagingSequence := 0; base_Ready := true; base_LastOperation := None |};
     si_Name := id; si_ServicePlanID := "plan-1"; si_ReferencedInstanceID := referenced; si_PlatformID := "platform";
     si_DashboardURL := ""; si_MaintenanceInfo := ""; si_Context := ""; si_UpdateValues := (None, []);
     si_PreviousValues := ""; si_Parameters := ∅; si_Usable := true; si_Shared := shared |}.
Definition shared_world (body : string) : world :=
  {| w_req := {| rq_Method := "DELETE"; rq_RequestURI := ""; rq_PathParams := {[ InstanceIDPathParam := "shared-1" ]};
                 rq_Body := body; rq_User := None; rq_StoreBindings := None; rq_Operation := None;
                 rq_OperationContext := None; rq_Instance := None; rq_SharedInstance := None;
                 rq_Plan := Some (osb_plan "ref" "reference-instance"); rq_CorrelationID := ""; rq_Criteria := [] |};
     w_calls := 0;
     w_tables := {| tb_instances := {[ "shared-1" := instance_named "shared-1" "" (Some true);
                                       "reference-1" := instance_named "reference-1" "shared-1" None ]};
                    tb_bindings := ∅; tb_operations := []; tb_offerings := [osb_offering];
                    tb_plans := [osb_plan "plan-1" "gold"]; tb_visibilities := [] |} |}.
Lemma references_protect_shared_witness :
  exists text, sharing_Deprovision (answers 200) (shared_world "{}") =
    (tick (tick (shared_world "{}")), Err (EHTTP "BadRequest" text StatusBadRequest)).
Proof.
  refine (proj1 (references_protect_shared (answers 200) (shared_world "{}") (instance_named "shared-1" "" (Some true))
                   eq_refl _ _ _) eq_refl _); by vm_compute.
Defined.

Lemma toy_selection : selection_laws.
Proof.
  split.
  - intros cs i k v Hm Hin. change (List.forallb (toy_criterion i) cs = true) in Hm.
    apply list_elem_of_In in Hin. rewrite List.forallb_forall in Hm. exact (Hm _ Hin).
  - intros cs i Hm Hin. change (List.forallb (toy_criterion i) cs = true) in Hm.
    apply list_elem_of_In in Hin. rewrite List.forallb_forall in Hm. specialize (Hm _ Hin).
    unfold toy_criterion in Hm. simpl in Hm. by apply bool_decide_eq_true in Hm.
Qed.
Lemma reference_target_witness :
  exists plan tenant i, rq_Plan (w_req (shared_world "refer")) = Some plan /\ Ok "t1" = Ok tenant /\
    si_ID i = "shared-1" /\ shareable (w_tables (shared_world "refer")) "tenant" tenant (sp_ServiceOfferingID plan) i.
Proof.
  refine (reference_target "tenant" (fun _ => Ok "t1") false (shared_world "refer")
            (fst (ExtractReferencedInstanceID "tenant" (fun _ => Ok "t1") false (shared_world "refer"))) "shared-1"
            toy_selection _). by vm_compute.
Defined.
