(* ===== verification/RequestBody.v ===== *)
(** * Request bodies and responses (pkg/util/api.go)

    Reading a body, the check for duplicate keys on the tokens of the JSON decoder, decoding
    and validating, and the responses the handlers return. *)

From S2P Require Import Prelude GoStd Errors OperationTypes WebFilters.
From stdpp Require Import base gmap strings list pretty.
From Stdlib Require Import ZArith Ascii.
Local Open Scope string_scope.

(** ** JSON values as they are written: objects may repeat a key *)
Inductive value :=
  | VString (s : string)
  | VScalar
  | VArray (l : list value)
  | VObject (l : list (string * value)).

Section ValueInduction.
Variable P : value -> Prop.
Hypothesis string_case : forall s, P (VString s).
Hypothesis scalar_case : P VScalar.
Hypothesis array_case : forall l, Forall P l -> P (VArray l).
Hypothesis object_case : forall l, Forall (fun kv => P kv.2) l -> P (VObject l).
Fixpoint value_induction (v : value) : P v :=
  match v with
  | VString s => string_case s
  | VScalar => scalar_case
  | VArray l => array_case l
      ((fix go l : Forall P l :=
          match l with [] => Forall_nil_2 _ | x :: l' => Forall_cons_2 _ _ _ (value_induction x) (go l') end) l)
  | VObject l => object_case l
      ((fix go l : Forall (fun kv => P kv.2) l :=
          match l with [] => Forall_nil_2 _ | kv :: l' => Forall_cons_2 _ _ _ (value_induction kv.2) (go l') end) l)
  end.
End ValueInduction.

(** What [json.Decoder.Token] returns, one after the other. *)
Inductive token := TDelim (c : ascii) | TString (s : string) | TScalar.
Fixpoint tokens (v : value) : list token :=
  match v with
  | VString s => [TString s]
  | VScalar => [TScalar]
  | VArray l => (TDelim "[" :: List.flat_map tokens l) ++ [TDelim "]"]
  | VObject l => (TDelim "{" :: List.flat_map (fun kv => TString kv.1 :: tokens kv.2) l) ++ [TDelim "}"]
  end%list.

Definition EOF : error := EPlain "EOF".
Definition Token (d : list token) : result (token * list token) :=
  match d with [] => Err EOF | t :: d' => Ok (t, d') end.
Definition More (d : list token) : bool :=
  match d with
  | [] => false
  | TDelim c :: _ => negb (Ascii.eqb c "]" || Ascii.eqb c "}")
  | _ => true
  end.

Definition duplicate_key (path : list string) : error :=
  EPlain ("invalid json: duplicate key " ++ Strings.join "." path).

(** [checkDuplicateKeys] and the loops of its two cases; the decoder is the list of the
    tokens to come. *)
Fixpoint checkDuplicateKeys (depth : nat) (d : list token) (path : list string) : result (list token) :=
  match depth with
  | O => Panic "stack overflow"
  | S depth =>
      let* (t, d) := Token d in
      match t with
      | TDelim "{" => object_loop depth [] d path
      | TDelim "[" => array_loop depth 0 d path
      | _ => Ok d
      end
  end
with object_loop (depth : nat) (keys : list string) (d : list token) (path : list string) : result (list token) :=
  match depth with
  | O => Panic "stack overflow"
  | S depth =>
      if More d then
        let* (t, d) := Token d in
        match t with
        | TString key =>
            if bool_decide (key ∈ keys) then Err (duplicate_key (path ++ [key]))
            else let* d := checkDuplicateKeys depth d (path ++ [key]) in
                 object_loop depth (key :: keys) d path
        | _ => Panic "interface conversion"
        end
      else let* (_, d) := Token d in Ok d
  end
with array_loop (depth i : nat) (d : list token) (path : list string) : result (list token) :=
  match depth with
  | O => Panic "stack overflow"
  | S depth =>
      if More d then
        let* d := checkDuplicateKeys depth d (path ++ [("[" ++ pretty i ++ "]")%string])%list in
        array_loop depth (S i) d path
      else let* (_, d) := Token d in Ok d
  end.

(** ** Reading a body *)
Class Bodies := {
  ParseMediaType : string -> result string;   (** package mime *)
  json_parse : string -> option value         (** what [json.Valid] accepts *)
}.

(** A key that [encoding/json] may take for the field "labels": it ignores the case, and folds
    some letters that are not ASCII. *)
Definition labels_key (k : string) : bool :=
  negb (forallb (fun c => (nat_of_ascii c <? 128)%nat) (String.list_ascii_of_string k)) || String.eqb (Strconv.to_lower k) "labels".
Definition no_labels_key `{Bodies} (body : string) : Prop :=
  forall l, json_parse body = Some (VObject l) -> Forall (fun kv => labels_key kv.1 = false) l.
(** The body has at most one such key, and it is "labels". *)
Definition one_labels_key `{Bodies} (body : string) : Prop :=
  forall l, json_parse body = Some (VObject l) ->
    List.filter labels_key (fst <$> l) = [] \/ List.filter labels_key (fst <$> l) = ["labels"].

Definition jsonContentType : string := "application/json".
Definition supportedContentTypes : list string := [jsonContentType; "application/x-www-form-urlencoded"].
Definition StatusUnsupportedMediaType : Z := 415.

Section Bodies.
Context `{Bodies}.

Definition validateContentTypeIsSupported (contentTypeHeader : string) : result string :=
  if String.eqb contentTypeHeader "" then Ok jsonContentType
  else
    match ParseMediaType contentTypeHeader with
    | Panic m => Panic m
    | Err e => Err (EHTTP "UnsupportedMediaType" ("media type error: " ++ Error e) StatusUnsupportedMediaType)
    | Ok mimeType =>
        if Slice.StringsAnyEquals supportedContentTypes mimeType then Ok mimeType
        else Err (EHTTP "UnsupportedMediaType" ("unsupported media type: " ++ contentTypeHeader)
                    StatusUnsupportedMediaType)
    end.

Definition validJson (data : string) : result unit :=
  match json_parse data with
  | None => Err (EPlain "invalid json")
  | Some v => let* _ := checkDuplicateKeys (length (tokens v)) (tokens v) [] in Ok tt
  end.

Definition RequestBodyToBytes (contentTypeHeader : string) (read : result string) : result string :=
  let* contentType := validateContentTypeIsSupported contentTypeHeader in
  let* body := read in
  if String.eqb contentType jsonContentType then
    match validJson body with
    | Ok _ => Ok body
    | Err e => Err (EHTTP "BadRequest" ("Request body is not valid: " ++ Error e) StatusBadRequest)
    | Panic m => Panic m
    end
  else Ok body.

Definition IsJSONContentType (contentTypeHeader : string) : result bool :=
  if String.eqb contentTypeHeader "" then Ok true
  else
    match ParseMediaType contentTypeHeader with
    | Panic m => Panic m
    | Err _ => Err (EHTTP "BadRequest" "unsupported media type" StatusBadRequest)
    | Ok mimeType => Ok (String.eqb mimeType jsonContentType)
    end.
Definition ValidateJSONContentType (contentTypeHeader : string) : result unit :=
  let* isJSON := IsJSONContentType contentTypeHeader in
  guard_err (negb isJSON) (EHTTP "BadRequest" "unsupported media type" StatusBadRequest).
End Bodies.

(** ** Specification of the check

    The path of the first repeated key, in the order of the text. *)
Definition element (i : nat) : string := "[" ++ pretty i ++ "]".
Section FirstDuplicate.
Variable f : list string -> value -> option (list string).
Variable path : list string.
Fixpoint first_in_array (i : nat) (l : list value) : option (list string) :=
  match l with
  | [] => None
  | x :: l' => match f (path ++ [element i])%list x with
               | Some p => Some p
               | None => first_in_array (S i) l'
               end
  end.
Fixpoint first_in_object (seen : list string) (l : list (string * value)) : option (list string) :=
  match l with
  | [] => None
  | kv :: l' =>
      if bool_decide (kv.1 ∈ seen) then Some (path ++ [kv.1])%list
      else match f (path ++ [kv.1])%list kv.2 with
           | Some p => Some p
           | None => first_in_object (kv.1 :: seen) l'
           end
  end.
End FirstDuplicate.
Fixpoint first_duplicate (path : list string) (v : value) : option (list string) :=
  match v with
  | VString _ | VScalar => None
  | VArray l => first_in_array first_duplicate path 0 l
  | VObject l => first_in_object first_duplicate path [] l
  end.

(** No object of the value, at any depth, repeats a key. *)
Fixpoint unique_keys (v : value) : Prop :=
  match v with
  | VString _ | VScalar => True
  | VArray l => List.fold_right (fun x P => unique_keys x /\ P) True l
  | VObject l => NoDup l.*1 /\ List.fold_right (fun kv P => unique_keys kv.2 /\ P) True l
  end.

Definition checked (rest : list token) (dup : option (list string)) : result (list token) :=
  match dup with Some p => Err (duplicate_key p) | None => Ok rest end.
Definition checks (v : value) : Prop := forall depth path rest, (length (tokens v) <= depth)%nat ->
  checkDuplicateKeys depth (tokens v ++ rest) path = checked rest (first_duplicate path v).

Lemma tokens_more v rest : exists t ts, tokens v = t :: ts /\ More (t :: ts ++ rest) = true.
Proof. destruct v; eexists _, _; (split; [reflexivity|reflexivity]). Qed.

Lemma array_checks l : Forall checks l -> forall depth i path rest,
  (length (List.flat_map tokens l) < depth)%nat ->
  array_loop depth i (List.flat_map tokens l ++ TDelim "]" :: rest) path =
  checked rest (first_in_array first_duplicate path i l).
Proof.
  induction 1 as [|v l Hv _ IH]; intros [|depth] i path rest Hd; try (simpl in Hd; lia); [done|].
  simpl in Hd. rewrite length_app in Hd. cbn [List.flat_map]. rewrite <- app_assoc.
  destruct (tokens_more v (List.flat_map tokens l ++ TDelim "]" :: rest)) as (t & ts & Ht & Hm).
  cbn [array_loop]. rewrite Ht at 1. rewrite <- app_comm_cons, Hm. rewrite Hv by lia.
  cbn [first_in_array]. fold (element i). destruct (first_duplicate _ v); [done|]. simpl. apply IH.
  rewrite Ht in Hd. simpl in Hd. lia.
Qed.
Lemma object_checks l : Forall (fun kv => checks kv.2) l -> forall depth seen path rest,
  (length (List.flat_map (fun kv => TString kv.1 :: tokens kv.2) l) < depth)%nat ->
  object_loop depth seen (List.flat_map (fun kv => TString kv.1 :: tokens kv.2) l ++ TDelim "}" :: rest) path =
  checked rest (first_in_object first_duplicate path seen l).
Proof.
  induction 1 as [|[k v] l Hv _ IH]; intros [|depth] seen path rest Hd; try (simpl in Hd; lia); [done|].
  simpl in Hd. rewrite length_app in Hd. cbn [List.flat_map]. simpl.
  destruct (bool_decide (k ∈ seen)); [done|]. rewrite <- app_assoc. simpl in Hv. rewrite Hv by lia.
  destruct (first_duplicate _ v); [done|]. simpl. apply IH. lia.
Qed.
Lemma check_tokens v : checks v.
Proof.
  induction v as [s| |l Hl|l Hl] using value_induction; intros [|depth] path rest Hd; try (simpl in Hd; lia); [done|done| |];
    cbn [tokens] in *; rewrite length_app in Hd; simpl in Hd; rewrite <- app_assoc.
  - change (checkDuplicateKeys (S depth) ((TDelim "[" :: List.flat_map tokens l) ++ [TDelim "]"] ++ rest) path)
      with (array_loop depth 0 (List.flat_map tokens l ++ TDelim "]" :: rest) path). apply array_checks; [done|lia].
  - change (checkDuplicateKeys (S depth) ((TDelim "{" :: List.flat_map (fun kv => TString kv.1 :: tokens kv.2) l) ++ [TDelim "}"] ++ rest) path)
      with (object_loop depth [] (List.flat_map (fun kv => TString kv.1 :: tokens kv.2) l ++ TDelim "}" :: rest) path).
    apply object_checks; [done|lia].
Qed.

Lemma first_none v : forall path, first_duplicate path v = None <-> unique_keys v.
Proof.
  induction v as [s| |l Hl|l Hl] using value_induction; intros path; [done|done| |]; simpl.
  - generalize 0%nat. induction Hl as [|x l Hx _ IH]; intros i; [done|]. simpl. rewrite <- (IH (S i)).
    rewrite <- (Hx (path ++ [element i])%list). destruct (first_duplicate _ x); naive_solver.
  - assert (Hgo : forall seen, first_in_object first_duplicate path seen l = None <->
              (NoDup l.*1 /\ (forall k, k ∈ l.*1 -> k ∉ seen)) /\ List.fold_right (fun kv P => unique_keys kv.2 /\ P) True l).
    { induction Hl as [|[k x] l Hx _ IH]; intros seen; simpl.
      - split; [|done]. intros _. split; [|done]. split; [constructor|]. intros k Hk. inversion Hk.
      - simpl in Hx. specialize (Hx (path ++ [k])%list). rewrite NoDup_cons. case_bool_decide as Hin.
        + split; [done|]. intros ((_ & Hn) & _). destruct (Hn k); [left|done].
        + destruct (first_duplicate (path ++ [k])%list x) as [p|].
          * split; [done|]. intros (_ & Hu & _). by apply Hx in Hu.
          * rewrite IH. setoid_rewrite elem_of_cons. split.
            -- intros ((Hnd & Hs) & Hr). split_and!; [|done| |by apply Hx|done].
               ++ intros Hk. destruct (Hs _ Hk). by left.
               ++ intros y [->|Hy]; [done|]. intros Hys. destruct (Hs _ Hy). by right.
            -- intros (((Hk & Hnd) & Hs) & _ & Hr). split_and!; [done| |done].
               intros y Hy [->|Hys]; [done|]. by destruct (Hs y); [right|]. }
    rewrite Hgo. split; [by intros ((? & _) & ?)|]. intros (? & ?). split; [|done]. split; [done|]. intros ? _. apply not_elem_of_nil.
Qed.

(** C14: what bodies the API accepts: for a JSON content type (or none) exactly the JSON texts
    in which no object repeats a key; a repeated key is reported with the path of the first
    one, and the recursion never overflows. *)
Theorem body_accepted `{Bodies} header body :
  validateContentTypeIsSupported header = Ok jsonContentType ->
  (RequestBodyToBytes header (Ok body) = Ok body <-> exists v, json_parse body = Some v /\ unique_keys v) /\
  (forall v, json_parse body = Some v -> ~ unique_keys v -> exists p, first_duplicate [] v = Some p /\
     RequestBodyToBytes header (Ok body) =
     Err (EHTTP "BadRequest" ("Request body is not valid: " ++ Error (duplicate_key p)) StatusBadRequest)).
Proof.
  intros Hh.
  assert (Hv : forall v, json_parse body = Some v -> validJson body = let* _ := checked [] (first_duplicate [] v) in Ok tt).
  { intros v Hp. unfold validJson. rewrite Hp. rewrite <- (app_nil_r (tokens v)) at 2. by rewrite check_tokens. }
  unfold RequestBodyToBytes. rewrite Hh. simpl. split; [split|].
  - destruct (json_parse body) as [v|] eqn:Hp.
    + rewrite (Hv v eq_refl). intros Hr. exists v. split; [done|]. apply (first_none v []).
      by destruct (first_duplicate [] v).
    + unfold validJson. by rewrite Hp.
  - intros (v & Hp & Hu). rewrite (Hv v Hp). apply (first_none v []) in Hu. by rewrite Hu.
  - intros v Hp Hu. rewrite (Hv v Hp). destruct (first_duplicate [] v) as [p|] eqn:Hd.
    + exists p. done.
    + by apply first_none in Hd.
Qed.
