(* ===== verification/BaseController.v ===== *)
(** * The controller of the REST API (api/base_controller.go)

    The handlers every entity shares: creating, reading, listing page by page, updating and
    deleting, over the scheduler of [Scheduler] and the repository.  The action a handler
    gives to the scheduler is a closure; the scheduler knows it by the number [request_number],
    for which [closures] answers with it. *)

From S2P Require Import Prelude GoStd Errors Query GoSlice Labels OperationTypes Repository Scheduler Maintainer RequestBody.
From stdpp Require Import base gmap strings list pretty.
From Stdlib Require Import ZArith.
Import Operators Criteria.
Local Open Scope string_scope.

(** ** Requests and responses *)
Record api_request := {
  ar_ContentType : string;
  ar_Body : string;
  ar_PathParams : gmap string string;
  ar_Query : gmap string string;              (** the parameters of the URL *)
  ar_Criteria : list Criterion;               (** those in the context *)
  ar_OriginatingIdentity : option UserInfo;
  ar_UserName : option string;
  ar_CorrelationID : string
}.
Definition query_Get (r : api_request) (key : string) : string := default "" (ar_Query r !! key).
Definition path_Get (r : api_request) (key : string) : string := default "" (ar_PathParams r !! key).
Definition PathParamResourceID : string := "resource_id".
Definition PathParamID : string := "id".
Definition QueryParamAsync : string := "async".
Definition QueryParamCascade : string := "cascade".
Definition QueryParamForce : string := "force".
Definition SMPlatform : string := "service-manager".

(** An object with the operation attached to it for the answer. *)
Notation item := (resource * option Operation)%type.
Record ObjectPage := { Token_ : string; ItemsCount : Z; Items : list item }.
Inductive api_body :=
  | EmptyObject
  | CountBody (num_items : Z)
  | PageBody (page : ObjectPage)
  | ObjectBody (object : item)
  | OperationBody (op : Operation).
Record api_response := {
  StatusCode_ : Z;
  Location : option string;
  Link : option (gmap string string);         (** the parameters of the URL of the next page *)
  Body_ : api_body
}.

Definition NewJSONResponse (code : Z) (value : api_body) : api_response :=
  {| StatusCode_ := code; Location := None; Link := None; Body_ := value |}.
Definition buildOperationURL (operationID resourceID resourceType : string) : string :=
  resourceType ++ "/" ++ resourceID ++ "/operations" ++ "/" ++ operationID.
Definition NewLocationResponse (operationID resourceID resourceBaseURL : string) : api_response :=
  {| StatusCode_ := 202; Location := Some (buildOperationURL operationID resourceID resourceBaseURL);
     Link := None; Body_ := EmptyObject |}.

(** ** Fields of objects *)
Definition with_data (o : resource) (id : string) (ready : bool) (d : object_data) : resource :=
  {| res_type := res_type o; res_id := id; res_ready := ready; res_usable := res_usable o; res_data := d |}.
Definition SetID (id : string) (o : resource) : resource := with_data o id (res_ready o) (res_data o).
Definition SetTimes (created updated : Z) (o : resource) : resource :=
  with_data o (res_id o) (res_ready o)
    {| dat_CreatedAt := created; dat_UpdatedAt := updated; dat_Labels := dat_Labels (res_data o);
       dat_PagingSequence := dat_PagingSequence (res_data o); dat_Fields := dat_Fields (res_data o) |}.
Definition SetLabels (labels : gmap string (list string)) (o : resource) : resource :=
  with_data o (res_id o) (res_ready o)
    {| dat_CreatedAt := dat_CreatedAt (res_data o); dat_UpdatedAt := dat_UpdatedAt (res_data o);
       dat_Labels := labels; dat_PagingSequence := dat_PagingSequence (res_data o);
       dat_Fields := dat_Fields (res_data o) |}.

(** The types of objects: decoding a body over an object, its validation, and [Sanitize] for
    those that have it. *)
Class ObjectTypes := {
  unmarshal_object : string -> resource -> option resource;
  validate_object : resource -> result unit;
  Sanitize_object : resource -> resource;
  label_changes_of : string -> result (list LabelChange);   (** [LabelChangesFromJSON] *)
  delete_labels : string -> result string                    (** [sjson.DeleteBytes(body, "labels")] *)
}.
Definition Sanitize_operation (op : Operation) : Operation :=
  {| ID := ID op; CreatedAt := CreatedAt op; Labels_ := Labels_ op; Ready := Ready op;
     Description_ := Description_ op; Type_ := Type_ op; State := State op; ResourceID := ResourceID op;
     TransitiveResources := TransitiveResources op; ResourceType := ResourceType op; Errors_ := Errors_ op;
     PlatformID := PlatformID op; CorrelationID := CorrelationID op; ExternalID := ExternalID op;
     ParentID := ParentID op; CascadeRootID := CascadeRootID op; Context_ := None;
     Reschedule := Reschedule op; RescheduleTimestamp := RescheduleTimestamp op;
     DeletionScheduled := DeletionScheduled op |}.

(** The calls of the repository with criteria. *)
Class ApiRepository `{Repository} := {
  api_count : string -> list Criterion -> DB * op_heap -> (DB * op_heap) * result Z;
  api_list : string -> list Criterion -> DB * op_heap -> (DB * op_heap) * result (list resource);
  api_get : string -> list Criterion -> DB * op_heap -> (DB * op_heap) * result resource;
  api_delete : ctx -> string -> list Criterion -> DB * op_heap -> (DB * op_heap) * result unit;
  api_update : ctx -> resource -> list LabelChange -> list Criterion -> DB * op_heap -> (DB * op_heap) * result resource;
  (** [QueryForLastOperationsPerResource] *)
  api_last_operations : string -> list string -> DB * op_heap -> (DB * op_heap) * result (list Operation)
}.

Record BaseController := {
  scheduler : Scheduler;
  resourceBaseURL : string;
  objectType : string;
  objectBlueprint : resource;
  DefaultPageSize : Z;
  MaxPageSize : Z;
  supportsAsync : bool;
  supportsCascadeDelete : bool
}.

(** ** Pages *)
Definition pagingLimitOffset : Z := 1.
Definition invalid_max_items (d : string) : error := EHTTP "InvalidMaxItems" d StatusBadRequest.
Definition parseMaxItemsQuery (c : BaseController) (maxItems : string) : result Z :=
  if String.eqb maxItems "" then Ok (DefaultPageSize c)
  else
    match Strconv.atoi maxItems with
    | None => Err (invalid_max_items ("max_items should be integer: strconv.Atoi: parsing " ++ maxItems))
    | Some limit =>
        if (limit <? 0)%Z then Err (invalid_max_items "max_items cannot be negative")
        else Ok (if (MaxPageSize c <? limit)%Z then MaxPageSize c else limit)
    end.

Definition token_invalid : error := EHTTP "TokenInvalid" "Invalid token provided." StatusBadRequest.
Definition parsePageToken (token : string) : result string :=
  if String.eqb token "" then Ok "0"
  else
    match Base64.DecodeString token with
    | None => Err token_invalid
    | Some targetPageSequence =>
        match Strconv.atoi targetPageSequence with
        | None => Err token_invalid
        | Some pagingSequence =>
            if (pagingSequence <? 0)%Z then Err token_invalid else Ok targetPageSequence
        end
    end.
Definition generateTokenForItem (o : item) : string :=
  Base64.EncodeToString (FormatInt (dat_PagingSequence (res_data o.1))).

Section Pages.
Context `{ObjectTypes}.
Definition clean_item (o : item) : item := (Sanitize_object o.1, o.2).
Definition pageFromObjectList (objectList : list item) (count limit : Z) : result ObjectPage :=
  let items := clean_item <$> objectList in
  if (limit <? Z.of_nat (length items))%Z then
    let items := take (pred (length items)) items in
    match last items with
    | Some o => Ok {| Token_ := generateTokenForItem o; ItemsCount := count; Items := items |}
    | None => Panic "index out of range"
    end
  else Ok {| Token_ := ""; ItemsCount := count; Items := items |}.
End Pages.

(** [prepareOperationContextByRequest] *)
Definition prepareOperationContextByRequest (r : api_request) : OperationContext :=
  let userInfo :=
    match ar_OriginatingIdentity r with
    | Some i => Some i
    | None => (fun name => {| user_Platform := ""; user_Info := "{" ++ Strings.dquote ++ "username" ++ Strings.dquote ++
                              ": " ++ Strings.dquote ++ name ++ Strings.dquote ++ "}" |}) <$> ar_UserName r
    end in
  let async := query_Get r QueryParamAsync in
  let notDefined := String.eqb async "" in
  let isAsync := negb (notDefined || String.eqb async "false") in
  let cascade := String.eqb (query_Get r QueryParamCascade) "true" in
  {| Async := if cascade && notDefined then true else isAsync; IsAsyncNotDefined := notDefined;
     Cascade := cascade; ServicePlanID := ""; ServiceInstanceID := ""; UserInfo_ := userInfo; OperationTypes.Params := ∅ |}.

Definition new_operation (id : string) (now : Z) (labels : gmap string (list string)) (category : OperationCategory)
    (resourceID resourceType correlationID cascadeRootId : string) (opCtx : OperationContext) : Operation :=
  {| ID := id; CreatedAt := now; Labels_ := labels; Ready := true; Description_ := ""; Type_ := category;
     State := IN_PROGRESS; ResourceID := resourceID; TransitiveResources := []; ResourceType := resourceType;
     Errors_ := None; PlatformID := SMPlatform; CorrelationID := correlationID; ExternalID := "";
     ParentID := ""; CascadeRootID := cascadeRootId; Context_ := Some opCtx; Reschedule := false;
     RescheduleTimestamp := None; DeletionScheduled := None |}.

Section Handlers.
Context `{Bodies} `{ObjectTypes} `{ApiRepository} `{!OperationQueries} `{GrowPolicy}.
Variable await : Z -> M (option error).
Variable duration_string : Z -> string.
Variable errors_string : option errors_json -> string.
Variable closures : nat -> ctx -> M (option resource).
Variable request_number : nat.
(** The two random numbers a request may ask for. *)
Variables object_uuid operation_uuid : result string.
Variable c : BaseController.

Definition handled {A} (m : M A) (name : string) : M A :=
  let! r := attempt m in
  match r with inl a => m_ret a | inr e => m_fail (handled_storage_error e name) end.
Definition new_uuid (u : result string) : M string :=
  match u with
  | Ok s => m_ret s
  | Err e => m_fail (EPlain ("could not generate GUID for " ++ objectType c ++ ": " ++ Error e))
  | Panic m => m_panic m
  end.
(** [query.AddCriteria] on the context of the request. *)
Definition with_criteria (r : api_request) (new : list Criterion) : result (list Criterion) :=
  validateCriteria (ar_Criteria r ++ new) ;;; Ok (ar_Criteria r ++ new)%list.
Definition BytesToObject (body : string) (o : resource) : result resource :=
  match unmarshal_object body o with
  | None => Err (EHTTP "BadRequest" "Failed to decode request body" StatusBadRequest)
  | Some o =>
      match validate_object o with
      | Ok _ => Ok o
      | Err e => Err (EHTTP "BadRequest" (Error e) StatusBadRequest)
      | Panic m => Panic m
      end
  end.

(** ** The last operation of what is returned *)
Definition getLastOperations (resourceType : string) (resourceIDs : list string) : M (gmap string Operation) :=
  match resourceIDs with
  | [] => m_ret ∅
  | _ =>
      let! resourceLastOps := handled (repo_call (api_last_operations resourceType resourceIDs)) OperationType in
      m_ret (foldl (fun m op => <[ResourceID op := op]> m) ∅ resourceLastOps)
  end.
Definition attached (ops : gmap string Operation) (o : resource) (key : string) : item :=
  (o, (fun op => set_TransitiveResources op []) <$> ops !! key).
Definition attachLastOperations (resources : list resource) : M (list item) :=
  let! ops := getLastOperations (objectType c) (res_id <$> resources) in
  m_ret ((fun o => attached ops o (res_id o)) <$> resources).
Definition attachLastOperation (objectID : string) (object : resource) : M item :=
  let! ops := getLastOperations (res_type object) [objectID] in
  m_ret (attached ops object objectID).
Definition clean_last_operation (o : item) : item := (o.1, Sanitize_operation <$> o.2).

(** ** Scheduling the closure of the request *)
Definition with_closure (action : ctx -> M (option resource)) (n : nat) : ctx -> M (option resource) :=
  if Nat.eqb n request_number then action else closures n.
Definition schedule (op : op_ptr) (action : ctx -> M (option resource)) : M (option resource * bool * option error) :=
  ScheduleStorageAction (scheduler c) (with_closure action) await duration_string errors_string
    None op (CallerAction request_number) (supportsAsync c).
Definition schedule_sync (op : op_ptr) (action : ctx -> M (option resource)) : M (option resource) :=
  ScheduleSyncStorageAction (scheduler c) (with_closure action) await duration_string errors_string
    None op (CallerAction request_number).

(** The answer to a scheduled creation or update. *)
Definition answer (operation : op_ptr) (finish : resource -> M api_response)
    (scheduled : option resource * bool * option error) : M api_response :=
  let '(object, isAsync, err) := scheduled in
  match err with
  | Some e => m_fail e
  | None =>
      if (isAsync : bool) then
        let! op := deref (Some operation) in
        m_ret (NewLocationResponse (ID op) (ResourceID op) (resourceBaseURL c))
      else match object with
           | None => m_panic "nil pointer dereference"
           | Some o => finish o
           end
  end.

Definition create_action (object : resource) (ctx : ctx) : M (option resource) :=
  let! o := handled (repo_call (repo_create_around ctx object)) (objectType c) in m_ret (Some o).

Definition CreateObject (r : api_request) : M api_response :=
  lift (ValidateJSONContentType (ar_ContentType r)) ;!
  let! result := lift (BytesToObject (ar_Body r) (objectBlueprint c)) in
  let! result := (if String.eqb (res_id result) ""
                  then let! id := new_uuid object_uuid in m_ret (SetID id result)
                  else m_ret result) in
  let! currentTime := time_now in
  let result := SetReady false (SetTimes currentTime currentTime result) in
  let! id := new_uuid operation_uuid in
  let! now := time_now in
  let! operation := alloc (new_operation id now ∅ CREATE (res_id result) (objectType c) (ar_CorrelationID r) ""
                             (prepareOperationContextByRequest r)) in
  let! scheduled := schedule operation (create_action result) in
  answer operation (fun createdObj =>
    let! o := attachLastOperation (res_id createdObj) createdObj in
    m_ret (NewJSONResponse 201 (ObjectBody (clean_last_operation o)))) scheduled.

Definition DeleteObjects (r : api_request) : M api_response :=
  if String.eqb (query_Get r QueryParamAsync) "true"
  then m_fail (EHTTP "BadRequest" "Only one resource can be deleted asynchronously at a time" StatusBadRequest)
  else
    handled (repo_call (api_delete None (objectType c) (ar_Criteria r))) (objectType c) ;!
    m_ret (NewJSONResponse 200 EmptyObject).

Definition delete_action (opCtx : OperationContext) (criteria : list Criterion) (ctx : ctx) : M (option resource) :=
  if supportsCascadeDelete c && Cascade opCtx then m_ret None
  else handled (repo_call (api_delete ctx (objectType c) criteria)) (objectType c) ;! m_ret None.

(** The root of a cascade deletion: the resource has to exist. *)
Definition cascade_root (opCtx : OperationContext) (criteria : list Criterion) (uuid : string) : M string :=
  if Cascade opCtx then
    if supportsCascadeDelete c then
      let! resources := handled (repo_call (api_list (objectType c) criteria)) (objectType c) in
      match resources with
      | [] => m_fail (EHTTP "NotFound" "Resource not found" StatusNotFound)
      | _ => m_ret uuid
      end
    else m_fail (EHTTP "BadRequest" "Cascade delete is not supported for this API" StatusBadRequest)
  else m_ret "".

Definition DeleteSingleObject (r : api_request) : M api_response :=
  let resourceID := path_Get r PathParamResourceID in
  let! criteria := lift (with_criteria r [ByField EqualsOperator "id" [resourceID]]) in
  let opCtx := prepareOperationContextByRequest r in
  let action := delete_action opCtx criteria in
  let! uuid := new_uuid operation_uuid in
  let! cascadeRootId := cascade_root opCtx criteria uuid in
  let cascading := supportsCascadeDelete c && Cascade opCtx in
  let! concurrentOp := (if cascading then FindCascadeOperationForResource resourceID else m_ret None) in
  match concurrentOp with
  | Some op => m_ret (NewLocationResponse (ID op) resourceID (resourceBaseURL c))
  | None =>
      let labels := if String.eqb (query_Get r QueryParamForce) "true" then {["force" := ["true"]]} else ∅ in
      let! now := time_now in
      let! operation := alloc (new_operation uuid now labels DELETE resourceID (objectType c) (ar_CorrelationID r)
                                 cascadeRootId opCtx) in
      if cascading then
        schedule_sync operation action ;!
        let! op := deref (Some operation) in
        m_ret (NewLocationResponse (ID op) (ResourceID op) (resourceBaseURL c))
      else
        let! (_, isAsync, err) := schedule operation action in
        match err with
        | Some e => m_fail e
        | None =>
            if (isAsync : bool) then
              let! op := deref (Some operation) in
              m_ret (NewLocationResponse (ID op) (ResourceID op) (resourceBaseURL c))
            else m_ret (NewJSONResponse 200 EmptyObject)
        end
  end.

Definition GetSingleObject (r : api_request) : M api_response :=
  let objectID := path_Get r PathParamResourceID in
  let! object := handled (repo_call (api_get (objectType c)
                   (ar_Criteria r ++ [ByField EqualsOperator "id" [objectID]]))) (objectType c) in
  let! o := attachLastOperation objectID (Sanitize_object object) in
  m_ret (NewJSONResponse 200 (ObjectBody (clean_last_operation o))).

Definition GetOperation (r : api_request) : M api_response :=
  let objectID := path_Get r PathParamResourceID in
  let operationID := path_Get r PathParamID in
  let! criteria := lift (with_criteria r [ByField EqualsOperator "resource_id" [objectID];
                                          ByField EqualsOperator "id" [operationID]]) in
  let! operation := handled (repo_call (repo_find_operation criteria)) (objectType c) in
  m_ret (NewJSONResponse 200 (OperationBody (Sanitize_operation operation))).

Definition page_criteria (criteria : list Criterion) (limit : Z) (pagingSequence : string) : list Criterion :=
  criteria ++ [LimitResultBy (Strconv.wrap64 (limit + pagingLimitOffset)); OrderResultBy "paging_sequence" AscOrder;
               ByField GreaterThanOperator "paging_sequence" [pagingSequence]].

Definition ListObjects (r : api_request) : M api_response :=
  let! count := handled (repo_call (api_count (objectType c) (ar_Criteria r))) (objectType c) in
  let! limit := lift (parseMaxItemsQuery c (query_Get r "max_items")) in
  if (limit =? 0)%Z then m_ret (NewJSONResponse 200 (CountBody count))
  else
    let! pagingSequence := lift (parsePageToken (query_Get r "token")) in
    let! objectList := handled (repo_call (api_list (objectType c)
                         (page_criteria (ar_Criteria r) limit pagingSequence))) (objectType c) in
    let! items := (if String.eqb (query_Get r "attach_last_operations") "true" then attachLastOperations objectList
                   else m_ret ((fun o => (o, None)) <$> objectList)) in
    let! page := lift (pageFromObjectList items count limit) in
    let resp := NewJSONResponse 200 (PageBody page) in
    m_ret (if String.eqb (Token_ page) "" then resp
           else {| StatusCode_ := StatusCode_ resp; Location := Location resp;
                   Link := Some (<["token" := Token_ page]> (ar_Query r)); Body_ := Body_ resp |}).

Definition update_action (object : resource) (changes : list LabelChange) (criteria : list Criterion) (ctx : ctx)
    : M (option resource) :=
  let! o := handled (repo_call (api_update ctx object changes criteria)) (objectType c) in m_ret (Some o).

(** The object of the database with the labels changed and the body decoded over it. *)
Definition patched (objectID body : string) (changes : list LabelChange) (objFromDB : resource) : result resource :=
  let createdAt := dat_CreatedAt (res_data objFromDB) in
  let updatedAt := dat_UpdatedAt (res_data objFromDB) in
  let '(h, labels) := alloc_labels (dat_Labels (res_data objFromDB)) in
  let* st := ApplyLabelChangesToLabels h changes labels in
  let objFromDB := SetLabels (contents (Labels.heap st) (mergedLabels st)) objFromDB in
  let* objFromDB := BytesToObject body objFromDB in
  Ok (SetReady true (SetTimes createdAt updatedAt (SetID objectID objFromDB))).

Definition PatchObject (r : api_request) : M api_response :=
  lift (ValidateJSONContentType (ar_ContentType r)) ;!
  let objectID := path_Get r PathParamResourceID in
  let! labelChanges := lift (label_changes_of (ar_Body r)) in
  let! criteria := lift (with_criteria r [ByField EqualsOperator "id" [objectID]]) in
  let! objFromDB := handled (repo_call (api_get (objectType c) criteria)) (objectType c) in
  let! body := lift (delete_labels (ar_Body r)) in
  let! object := lift (patched objectID body labelChanges objFromDB) in
  let! id := new_uuid operation_uuid in
  let! now := time_now in
  let! operation := alloc (new_operation id now ∅ UPDATE (res_id object) (objectType c) (ar_CorrelationID r) ""
                             (prepareOperationContextByRequest r)) in
  let! scheduled := schedule operation (update_action object labelChanges criteria) in
  answer operation (fun object =>
    let! o := attachLastOperation (res_id object) object in
    m_ret (NewJSONResponse 200 (ObjectBody (clean_item (clean_last_operation o))))) scheduled.
End Handlers.
