(* ===== verification/PagingTheorems.v ===== *)
(** * Listing page by page

    Following the tokens of [ListObjects] while the database changes between the requests:
    nothing that stays is missed and nothing comes twice. *)

From S2P Require Import Prelude GoStd Errors Query Labels OperationTypes Repository Scheduler SchedulerProps Maintainer RequestBody BaseController.
From stdpp Require Import base gmap strings list pretty sorting.
From Stdlib Require Import ZArith Sorted.
Import Operators Criteria.
Local Open Scope string_scope.

(** ** Tokens *)
Notation sequence o := (dat_PagingSequence (res_data o)).

Lemma encode_nonempty s : s <> "" -> Base64.EncodeToString s <> "".
Proof. intros Hs He. apply Hs. pose proof (Base64.DecodeString_EncodeToString s) as Hd. by rewrite He in Hd; injection Hd. Qed.
Lemma format_nonempty z : (0 <= z <= Strconv.int64_max)%Z -> FormatInt z <> "".
Proof. intros Hz He. pose proof (atoi_FormatInt z Hz) as Ha. by rewrite He in Ha. Qed.
Lemma token_parsed (o : item) : (0 <= sequence o.1 <= Strconv.int64_max)%Z ->
  generateTokenForItem o <> "" /\ parsePageToken (generateTokenForItem o) = Ok (FormatInt (sequence o.1)).
Proof.
  intros Hs. assert (Hn : generateTokenForItem o <> "") by (by apply encode_nonempty, format_nonempty).
  split; [done|]. unfold parsePageToken. apply String.eqb_neq in Hn. rewrite Hn. unfold generateTokenForItem.
  rewrite Base64.DecodeString_EncodeToString, atoi_FormatInt by done.
  destruct (Z.ltb_spec (sequence o.1) 0); [lia|done].
Qed.

(** ** What the storage does with criteria on the paging sequence

    A criterion of a listing may compare the paging sequence with a number, order the result by
    it, or limit the result; [part_of] reads this from the criterion. *)
Inductive listing_part := Bounded (operator : Operator) (k : Z) | Ordered (direction : OrderType) | Limited (n : Z).
Definition part_of (c : Criterion) : option listing_part :=
  match CType c, RightOp c with
  | FieldQuery, [v] => if String.eqb (LeftOp c) "paging_sequence" then Bounded (COperator c) <$> Strconv.atoi v else None
  | ResultQuery, [v] => if String.eqb (LeftOp c) "limit" then Limited <$> Strconv.atoi v else None
  | ResultQuery, [field; direction] =>
      if String.eqb (LeftOp c) "orderBy" && String.eqb field "paging_sequence" then
        if String.eqb direction "ASC" then Some (Ordered AscOrder)
        else if String.eqb direction "DESC" then Some (Ordered DescOrder) else None
      else None
  | _, _ => None
  end.
Definition in_bound (s : Z) (p : listing_part) : bool :=
  match p with
  | Bounded EqualsOperator k => (s =? k)%Z
  | Bounded NotEqualsOperator k => negb (s =? k)%Z
  | Bounded GreaterThanOperator k => (k <? s)%Z
  | Bounded GreaterThanOrEqualOperator k => (k <=? s)%Z
  | Bounded LessThanOperator k => (s <? k)%Z
  | Bounded LessThanOrEqualOperator k => (s <=? k)%Z
  | _ => true
  end.
Definition order_parts : list listing_part -> list OrderType := omap (fun p => match p with Ordered d => Some d | _ => None end).
Definition limit_parts : list listing_part -> list Z := omap (fun p => match p with Limited n => Some n | _ => None end).
(** [l] is what a listing with these parts returns of [all], the matching objects by their
    paging sequence. *)
Definition listing (parts : list listing_part) (all l : list resource) : Prop :=
  exists ordered,
    (let kept := List.filter (fun o => forallb (in_bound (sequence o)) parts) all in
     match order_parts parts with
     | [] => ordered ≡ₚ kept
     | AscOrder :: _ => ordered = kept
     | DescOrder :: _ => ordered = reverse kept
     end) /\
    l = match limit_parts parts with [] => ordered | n :: _ => take (Z.to_nat n) ordered end.
Definition no_result_criteria (cs : list Criterion) : Prop := Forall (fun c => CType c <> ResultQuery) cs.

Class ListingLaws `{ApiRepository} := {
  (** the objects that match criteria, by their paging sequence *)
  rows : DB -> string -> list Criterion -> list resource;
  rows_sorted d t cs : StronglySorted (fun a b => (sequence a < sequence b)%Z) (rows d t cs);
  rows_sequence d t cs o : o ∈ rows d t cs -> (0 <= sequence o <= Strconv.int64_max)%Z;
  law_list d h d' h' t cs more parts l :
    no_result_criteria cs -> mapM part_of more = Some parts ->
    (length (order_parts parts) <= 1)%nat -> (length (limit_parts parts) <= 1)%nat ->
    api_list t (cs ++ more) (d, h) = ((d', h'), Ok l) ->
    d' = d /\ h' = h /\ listing parts (rows d t cs) l;
  (** the table of labels has one row for a key and a value *)
  rows_labels d t cs o : o ∈ rows d t cs -> forall k l, dat_Labels (res_data o) !! k = Some l -> NoDup l;
  law_api_get d h d' h' t cs r : api_get t cs (d, h) = ((d', h'), r) ->
    d' = d /\ h' = h /\ forall o, r = Ok o -> o ∈ rows d t cs;
  law_api_count d h d' h' t cs r : api_count t cs (d, h) = ((d', h'), r) -> d' = d /\ h' = h;
  law_last_operations d h d' h' t ids r : api_last_operations t ids (d, h) = ((d', h'), r) -> d' = d /\ h' = h
}.

Section Paging.
Context `{ListingLaws} `{Bodies} `{ObjectTypes}.
Hypothesis sanitize_sequence : forall o, sequence (Sanitize_object o) = sequence o.
Variable c : BaseController.
Variable r : api_request.
Variable limit : Z.
Hypothesis limit_requested : parseMaxItemsQuery c (query_Get r "max_items") = Ok limit.
Hypothesis limit_positive : (0 < limit < Strconv.int64_max)%Z.
Hypothesis only_filters : no_result_criteria (ar_Criteria r).

Definition with_token (tok : string) : api_request :=
  {| ar_ContentType := ar_ContentType r; ar_Body := ar_Body r; ar_PathParams := ar_PathParams r;
     ar_Query := <["token" := tok]> (ar_Query r); ar_Criteria := ar_Criteria r;
     ar_OriginatingIdentity := ar_OriginatingIdentity r; ar_UserName := ar_UserName r;
     ar_CorrelationID := ar_CorrelationID r |}.
Definition after (k : Z) (w : World) : list resource :=
  filter (fun o => (k < sequence o)%Z) (rows (db w) (objectType c) (ar_Criteria r)).

(** The criteria of a page select what comes after the token, in order. *)
Lemma page_listing seq k w w' objects :
  Strconv.atoi seq = Some k ->
  repo_call (api_list (objectType c) (page_criteria (ar_Criteria r) limit seq)) w = (w', Ok objects) ->
  w' = w /\ objects = take (Z.to_nat (limit + 1)) (after k w).
Proof.
  intros Hk (d & h & E & ->)%repo_call_inv. unfold page_criteria in E.
  assert (Hw : Strconv.wrap64 (limit + pagingLimitOffset) = (limit + 1)%Z).
  { unfold Strconv.wrap64, pagingLimitOffset. unfold Strconv.int64_max in limit_positive. rewrite Z.mod_small; lia. }
  rewrite Hw in E.
  assert (Ha : Strconv.atoi (pretty (limit + 1)%Z) = Some (limit + 1)%Z).
  { change (pretty (limit + 1)%Z) with (FormatInt (limit + 1)). apply atoi_FormatInt. lia. }
  eapply law_list in E as (-> & -> & ordered & Ho & ->); [|exact only_filters| | |].
  2:{ cbn. rewrite Ha, Hk. cbn. reflexivity. }
  2,3: simpl; lia.
  cbn in Ho. subst ordered. rewrite set_db_id. split; [done|]. unfold after. cbn [limit_parts omap list_omap]. f_equal.
  generalize (rows (db w) (objectType c) (ar_Criteria r)). intros l.
  induction l as [|x l IH]; [done|]. rewrite filter_cons. cbn [List.filter forallb in_bound]. rewrite !andb_true_r.
  cbn [andb]. destruct (Z.ltb_spec k (sequence x)); case_decide; try lia; by rewrite IH.
Qed.

(** The requests a client makes from a token on, each in the world it finds. *)
Inductive walk : string -> list World -> list ObjectPage -> Prop :=
  | walk_end tok w w' resp page :
      ListObjects c (with_token tok) w = (w', Ok resp) -> Body_ resp = PageBody page -> Link resp = None ->
      walk tok [w] [page]
  | walk_more tok w w' resp page next ws pages :
      ListObjects c (with_token tok) w = (w', Ok resp) -> Body_ resp = PageBody page ->
      Link resp = Some (ar_Query (with_token next)) -> walk next ws pages ->
      walk tok (w :: ws) (page :: pages).

Lemma page_of all count (items : list item) page :
  items.*1 = take (Z.to_nat (limit + 1)) all -> pageFromObjectList items count limit = Ok page ->
  (Items page).*1 = Sanitize_object <$> take (Z.to_nat limit) all /\ ItemsCount page = count /\
  if (limit <? Z.of_nat (length all))%Z
  then exists o, last (take (Z.to_nat limit) all) = Some o /\ exists op, Token_ page = generateTokenForItem (Sanitize_object o, op)
  else Token_ page = "".
Proof.
  intros Hi Hp. assert (Hlen : length items = min (Z.to_nat (limit + 1)) (length all)).
  { pose proof (length_fmap fst items) as Hf. rewrite Hi, length_take in Hf. done. }
  unfold pageFromObjectList in Hp. rewrite length_fmap in Hp.
  assert (Hc : forall l : list item, (clean_item <$> l).*1 = Sanitize_object <$> l.*1).
  { intros l. rewrite <- !list_fmap_compose. by apply list_fmap_ext. }
  destruct (Z.ltb_spec limit (Z.of_nat (length all))) as [Hl|Hl].
  - destruct (Z.ltb_spec limit (Z.of_nat (length items))); [|lia].
    replace (pred (length items)) with (Z.to_nat limit) in Hp by lia.
    assert (Hit : (take (Z.to_nat limit) (clean_item <$> items)).*1 = Sanitize_object <$> take (Z.to_nat limit) all).
    { rewrite <- fmap_take, Hc. f_equal. rewrite fmap_take. transitivity (take (Z.to_nat limit) (take (Z.to_nat (limit + 1)) all)).
      - by f_equal.
      - rewrite take_take. f_equal. lia. }
    destruct (last _) as [o|] eqn:Ho in Hp; [|done]. injection Hp as <-. simpl. split; [done|]. split; [done|].
    assert (Hl2 : last (take (Z.to_nat limit) (clean_item <$> items)).*1 = Some o.1) by (by rewrite fmap_last, Ho).
    rewrite Hit, fmap_last in Hl2. destruct (last (take _ all)) as [x|]; [|done]. injection Hl2 as Hx.
    exists x. split; [done|]. exists o.2. rewrite Hx. by destruct o.
  - destruct (Z.ltb_spec limit (Z.of_nat (length items))); [lia|]. injection Hp as <-. simpl.
    split; [|done]. rewrite Hc, Hi, !take_ge by lia. done.
Qed.

Lemma handled_inv {A} (m : M A) name w w' a :
  handled m name w = (w', Ok a) -> m w = (w', Ok a).
Proof.
  unfold handled. intros (w1 & r1 & (r2 & E & ->)%attempt_inv & E')%m_bind_inv.
  destruct r2; [injection E' as -> ->; exact E|discriminate|by destruct E'].
Qed.
Lemma attach_items objects w w' items :
  attachLastOperations c objects w = (w', Ok items) -> items.*1 = objects.
Proof.
  unfold attachLastOperations. intros (w1 & r1 & _ & E)%m_bind_inv.
  destruct r1; [|by destruct E..]. injection E as _ <-. rewrite <- list_fmap_compose.
  etransitivity; [|apply list_fmap_id]. by apply list_fmap_ext.
Qed.

Lemma taken_after k w n o : o ∈ take n (after k w) -> (k < sequence o)%Z /\ o ∈ rows (db w) (objectType c) (ar_Criteria r).
Proof. intros (i & Hi & _)%elem_of_take. by apply list_elem_of_lookup_2, list_elem_of_filter in Hi. Qed.
Lemma taken_row k w n o : last (take n (after k w)) = Some o -> o ∈ rows (db w) (objectType c) (ar_Criteria r).
Proof. intros Ho%last_Some_elem_of. by eapply taken_after. Qed.

(** One request: a page of what comes after the token. *)
Lemma list_step tok seq k w w' resp page :
  parsePageToken tok = Ok seq -> Strconv.atoi seq = Some k ->
  ListObjects c (with_token tok) w = (w', Ok resp) -> Body_ resp = PageBody page ->
  (Items page).*1 = Sanitize_object <$> take (Z.to_nat limit) (after k w) /\
  if (limit <? Z.of_nat (length (after k w)))%Z
  then exists o, last (take (Z.to_nat limit) (after k w)) = Some o /\
       exists t, t <> "" /\ Link resp = Some (<["token" := t]> (ar_Query (with_token tok))) /\
         parsePageToken t = Ok (FormatInt (sequence o))
  else Link resp = None.
Proof.
  intros Ht Hk Hr Hb. unfold ListObjects in Hr.
  apply m_bind_inv in Hr as (w1 & r1 & E1 & Hr). destruct r1 as [count| |]; [|by destruct Hr..].
  apply handled_inv in E1. apply repo_call_inv in E1 as (d & h & [-> ->]%law_api_count & ->). rewrite set_db_id in Hr.
  apply m_bind_inv in Hr as (w1 & r1 & E1 & Hr).
  assert (Hlim : r1 = Ok limit /\ w1 = w).
  { unfold lift in E1. injection E1 as <- <-. split; [|done]. rewrite <- limit_requested. unfold query_Get. simpl.
    by rewrite lookup_insert_ne. }
  clear E1. destruct Hlim as [-> ->]. destruct (Z.eqb_spec limit 0); [lia|].
  apply m_bind_inv in Hr as (w1 & r1 & E1 & Hr). unfold lift, query_Get in E1. simpl in E1.
  rewrite lookup_insert_eq in E1. simpl in E1. rewrite Ht in E1. injection E1 as <- <-.
  apply m_bind_inv in Hr as (w1 & r1 & E1 & Hr). destruct r1 as [objects| |]; [|by destruct Hr..].
  apply handled_inv in E1. apply (page_listing _ k) in E1 as [-> Hl]; [|done].
  apply m_bind_inv in Hr as (w1 & r1 & E1 & Hr). destruct r1 as [items| |]; [|by destruct Hr..].
  assert (Hit : items.*1 = objects).
  { destruct (String.eqb _ _); [by eapply attach_items|]. injection E1 as _ <-. rewrite <- list_fmap_compose.
    etransitivity; [|apply list_fmap_id]. by apply list_fmap_ext. }
  apply m_bind_inv in Hr as (w2 & r2 & E2 & Hr). destruct r2 as [pg| |]; [|by destruct Hr..].
  injection E2 as -> E2. rewrite Hl in Hit. destruct (page_of _ _ _ _ Hit E2) as (Hp & _ & Htok).
  injection Hr as _ <-. assert (pg = page) as -> by (destruct (String.eqb (Token_ pg) ""); by injection Hb).
  split; [done|]. destruct (limit <? _)%Z.
  - destruct Htok as (o & Ho & op & Htok). exists o. split; [done|]. exists (Token_ page).
    destruct (token_parsed (Sanitize_object o, op)) as [Hne Hpt].
    { simpl. rewrite sanitize_sequence. eapply rows_sequence. by eapply taken_row. }
    rewrite <- Htok in Hne, Hpt. simpl in Hpt. rewrite sanitize_sequence in Hpt.
    apply String.eqb_neq in Hne as Hnb. by rewrite Hnb.
  - by rewrite Htok.
Qed.

Notation before := (fun a b => (sequence a < sequence b)%Z).

Lemma filter_sorted (P : resource -> Prop) `{!forall x, Decision (P x)} l :
  StronglySorted before l -> StronglySorted before (filter P l).
Proof.
  induction 1 as [|x l Hl IH Hx]; [constructor|]. rewrite filter_cons. case_decide; [|done].
  constructor; [done|]. rewrite Forall_forall in *. intros y [_ Hy]%list_elem_of_filter. by apply Hx.
Qed.
Lemma after_sorted k w : StronglySorted before (after k w).
Proof. apply filter_sorted, rows_sorted. Qed.
Lemma sanitized_sorted l : StronglySorted before l -> StronglySorted before (Sanitize_object <$> l).
Proof. apply StronglySorted_fmap. intros x y. by rewrite !sanitize_sequence. Qed.
(** The first objects of a sorted list come up to the last of them, the others after it. *)
Lemma taken_sorted n l o x : StronglySorted before l -> last (take n l) = Some o ->
  (x ∈ take n l -> (sequence x <= sequence o)%Z) /\ (x ∈ l -> x ∉ take n l -> (sequence o < sequence x)%Z).
Proof.
  intros Hs (l' & Hl)%last_Some. rewrite <- (take_drop n l), Hl in Hs.
  split.
  - rewrite Hl. intros [Hx|Hx]%elem_of_app; [|by apply list_elem_of_singleton in Hx as ->; lia].
    apply StronglySorted_app_1_l in Hs. apply Z.lt_le_incl.
    apply (StronglySorted_app_1_elem_of before l' [o] x o Hs); [done|by left].
  - rewrite <- (take_drop n l) at 1. intros [Hx|Hx]%elem_of_app Hn; [done|].
    apply (StronglySorted_app_1_elem_of before (l' ++ [o]) (drop n l) o x Hs); [|done].
    apply elem_of_app. right. by left.
Qed.

(** What a walk has returned. *)
Definition listed (pages : list ObjectPage) : list resource := concat ((fun p => (Items p).*1) <$> pages).

Definition walked (k : Z) (ws : list World) (pages : list ObjectPage) : Prop :=
  StronglySorted before (listed pages) /\ Forall (fun o => (k < sequence o)%Z) (listed pages) /\
  (forall o, (k < sequence o)%Z -> (forall w, w ∈ ws -> o ∈ rows (db w) (objectType c) (ar_Criteria r)) ->
     Sanitize_object o ∈ listed pages) /\
  (forall x, x ∈ listed pages -> exists w o, w ∈ ws /\ o ∈ rows (db w) (objectType c) (ar_Criteria r) /\ x = Sanitize_object o) /\
  (forall i p, pages !! i = Some p -> if decide (S i < length pages)%nat
     then Z.of_nat (length (Items p)) = limit else (Z.of_nat (length (Items p)) <= limit)%Z).

Lemma page_facts k w (items : list item) :
  items.*1 = Sanitize_object <$> take (Z.to_nat limit) (after k w) ->
  StronglySorted before items.*1 /\ Forall (fun o => (k < sequence o)%Z) items.*1 /\
  (forall x, x ∈ items.*1 -> exists o, o ∈ rows (db w) (objectType c) (ar_Criteria r) /\ x = Sanitize_object o) /\
  length items = min (Z.to_nat limit) (length (after k w)).
Proof.
  intros Hi. rewrite Hi. split_and!.
  - apply sanitized_sorted. pose proof (after_sorted k w) as Hs. rewrite <- (take_drop (Z.to_nat limit)) in Hs.
    by apply StronglySorted_app_1_l in Hs.
  - apply Forall_forall. intros x (o & -> & Ho)%list_elem_of_fmap. rewrite sanitize_sequence. by eapply taken_after.
  - intros x (o & -> & Ho)%list_elem_of_fmap. exists o. split; [|done]. by eapply taken_after.
  - pose proof (length_fmap fst items) as Hf. by rewrite Hi, length_fmap, length_take in Hf.
Qed.

Lemma walk_walked tok ws pages : walk tok ws pages -> forall seq k,
  parsePageToken tok = Ok seq -> Strconv.atoi seq = Some k -> walked k ws pages.
Proof.
  induction 1 as [tok w w' resp page Hr Hb Hl|tok w w' resp page next ws pages Hr Hb Hl _ IH]; intros seq k Ht Hk;
    destruct (list_step tok seq k w w' resp page Ht Hk Hr Hb) as [Hi Hlink];
    destruct (page_facts k w _ Hi) as (Hsort & Hgt & Hin & Hlen).
  - destruct (Z.ltb_spec limit (Z.of_nat (length (after k w)))) as [Hlt|Hlt].
    { destruct Hlink as (o & _ & t & _ & Hlink & _). by rewrite Hl in Hlink. }
    unfold walked, listed. simpl. rewrite app_nil_r. split_and!; [done|done| | |].
    + intros o Ho Hrows. rewrite Hi. apply list_elem_of_fmap_2. rewrite take_ge by lia.
      apply list_elem_of_filter. split; [done|]. apply Hrows. by left.
    + intros x Hx. destruct (Hin x Hx) as (o & Ho & ->). exists w, o. split; [by left|done].
    + intros [|i] p Hp; [|done]. injection Hp as <-. simpl. lia.
  - destruct (Z.ltb_spec limit (Z.of_nat (length (after k w)))) as [Hlt|Hlt]; [|by rewrite Hl in Hlink].
    destruct Hlink as (o & Ho & t & _ & Hlink & Hpt).
    assert (t = next) as ->.
    { rewrite Hlink in Hl. injection Hl as Hl. apply (f_equal (fun m => m !! "token")) in Hl.
      simpl in Hl. rewrite !lookup_insert_eq in Hl. by injection Hl. }
    assert (Hof : o ∈ rows (db w) (objectType c) (ar_Criteria r)) by by eapply taken_row.
    pose proof (rows_sequence _ _ _ _ Hof) as Hseq.
    destruct (IH _ (sequence o) Hpt) as (Hs' & Hg' & Hall' & Hin' & Hp'); [by apply atoi_FormatInt|].
    assert (Hko : (k < sequence o)%Z) by (apply last_Some_elem_of in Ho; by eapply taken_after).
    unfold walked, listed in *. simpl. split_and!.
    + apply StronglySorted_app_2; [|done|done]. intros x y Hx Hy. rewrite Hi in Hx.
      apply list_elem_of_fmap in Hx as (x' & -> & Hx). rewrite sanitize_sequence.
      destruct (taken_sorted _ _ o x' (after_sorted k w) Ho) as [Hle _].
      rewrite Forall_forall in Hg'. specialize (Hg' y Hy). specialize (Hle Hx). simpl in *. lia.
    + apply Forall_app. split; [done|]. eapply Forall_impl; [exact Hg'|]. simpl. intros. lia.
    + intros x Hx Hrows. apply elem_of_app. rewrite Hi.
      assert (Hxa : x ∈ after k w) by (apply list_elem_of_filter; split; [done|apply Hrows; by left]).
      destruct (decide (x ∈ take (Z.to_nat limit) (after k w))) as [Hxt|Hxt]; [left; by apply list_elem_of_fmap_2|].
      right. apply Hall'; [|intros; apply Hrows; by right].
      by apply (taken_sorted _ _ o x (after_sorted k w) Ho).
    + intros x [Hx|Hx]%elem_of_app.
      * destruct (Hin x Hx) as (x' & Hx' & ->). exists w, x'. split; [by left|done].
      * destruct (Hin' x Hx) as (w2 & x' & Hw & ?). exists w2, x'. split; [by right|done].
    + intros [|i] p Hp; [injection Hp as <-|]; simpl.
      * case_decide; lia.
      * specialize (Hp' i p Hp). repeat case_decide; lia.
Qed.

(** C11: listing page by page, from the first request without a token along the links, while
    others change the database between the requests, which set no order or limit of their own.  The objects come strictly ordered by
    their paging sequence, so none comes twice; every object that matches throughout is
    among them; whatever is returned was in the database at one of the requests; and every
    page but the last is full, so that a listing of [n] objects ends after [n / limit + 1]
    requests. *)
Theorem pages_list_everything ws pages :
  walk "" ws pages ->
  StronglySorted before (listed pages) /\
  (forall o, (0 < sequence o)%Z -> (forall w, w ∈ ws -> o ∈ rows (db w) (objectType c) (ar_Criteria r)) ->
     Sanitize_object o ∈ listed pages) /\
  (forall x, x ∈ listed pages -> exists w o, w ∈ ws /\ o ∈ rows (db w) (objectType c) (ar_Criteria r) /\ x = Sanitize_object o) /\
  (forall i p, pages !! i = Some p -> if decide (S i < length pages)%nat
     then Z.of_nat (length (Items p)) = limit else (Z.of_nat (length (Items p)) <= limit)%Z).
Proof. intros Hw. by destruct (walk_walked "" ws pages Hw "0" 0%Z) as (? & _ & ?). Qed.
End Paging.
