(* ===== verification/ControllerTheorems.v ===== *)
(** * What the handlers of the controller leave behind *)

From S2P Require Import Prelude GoStd Errors Query GoSlice Labels OperationTypes Repository Scheduler SchedulerProps SchedulerTheorems Maintainer MaintainerTheorems RequestBody BaseController PagingTheorems.
From stdpp Require Import base gmap strings list pretty sorting.
From Stdlib Require Import ZArith Sorted Ascii.
From Stdlib Require String.
Import Operators Criteria.
Local Open Scope string_scope.

Section Controller.
Context `{RepositoryLaws} `{!ApiRepository} `{!ListingLaws} `{!OperationQueries} `{Bodies} `{ObjectTypes} `{GrowPolicy}.
Variable await : Z -> M (option error).
Variable duration_string : Z -> string.
Variable errors_string : option errors_json -> string.
Variable closures : nat -> ctx -> M (option resource).
Variable request_number : nat.
Variables object_uuid operation_uuid : result string.
Variable c : BaseController.

Notation scheduled op action := (schedule await duration_string errors_string closures request_number c op action).
Notation closure action := (with_closure closures request_number action).


(** ** Creation *)
Notation create := (CreateObject await duration_string errors_string closures request_number object_uuid operation_uuid c).

Lemma alloc_inv op w w' r :
  alloc op w = (w', r) -> exists p, r = Ok p /\ heap w' !! p = Some op /\ db w' = db w /\ clock w' = clock w.
Proof. unfold alloc. intros [= <- <-]. eexists. split; [done|]. simpl. by rewrite lookup_insert_eq. Qed.
Lemma lift_inv {A} (x : result A) w w' r : lift x w = (w', r) -> w' = w /\ r = x.
Proof. by intros [= <- <-]. Qed.




(** ** Update *)
Notation patch := (PatchObject await duration_string errors_string closures request_number operation_uuid c).

(** Decoding a body without such a key leaves the labels of the object. *)
Definition labels_undecoded : Prop := forall body o o',
  no_labels_key body -> unmarshal_object body o = Some o' -> dat_Labels (res_data o') = dat_Labels (res_data o).

Lemma patched_identity id body changes o o' :
  labels_undecoded -> (forall k l, dat_Labels (res_data o) !! k = Some l -> NoDup l) -> patched id body changes o = Ok o' ->
  res_id o' = id /\ res_ready o' = true /\ dat_CreatedAt (res_data o') = dat_CreatedAt (res_data o) /\
  dat_UpdatedAt (res_data o') = dat_UpdatedAt (res_data o) /\
  (no_labels_key body -> dat_Labels (res_data o') = foldl spec_change (dat_Labels (res_data o)) changes).
Proof.
  intros Hl Hd. unfold patched. destruct (apply_to_read _ changes Hd) as (st & Est & Hst).
  destruct (alloc_labels _) as [h labels]. simpl in Est. rewrite Est. simpl.
  unfold BytesToObject. destruct (unmarshal_object body _) as [x|] eqn:Hu; [|done].
  destruct (validate_object x); [|done..]. intros [= <-]. simpl. repeat (split; [done|]). intros Hn.
  by rewrite (Hl _ _ _ Hn Hu).
Qed.

(** C13: what a PATCH can change.  Whatever the body says, the object given to the storage has the
    id of the path, is ready, keeps the times it was created and updated at, and, unless the body
    still has a key that the decoder takes for "labels" once the labels are deleted from it, has
    the stored labels with the label changes of the body applied in order; it is updated by an
    operation on this id, under the criteria of the request with the id; and before that nothing
    is written. *)
Theorem patch_keeps_identity r w w' res :
  labels_undecoded -> patch r w = (w', res) ->
  (w' = w /\ is_ok res = false) \/
  exists changes rest o o' op p w1 finish,
    let id := path_Get r PathParamResourceID in
    let criteria := (ar_Criteria r ++ [ByField EqualsOperator "id" [id]])%list in
    validateCriteria criteria = Ok tt /\ label_changes_of (ar_Body r) = Ok changes /\
    delete_labels (ar_Body r) = Ok rest /\ o ∈ rows (db w) (objectType c) criteria /\
    res_id o' = id /\ res_ready o' = true /\ dat_CreatedAt (res_data o') = dat_CreatedAt (res_data o) /\
    dat_UpdatedAt (res_data o') = dat_UpdatedAt (res_data o) /\
    (no_labels_key rest -> dat_Labels (res_data o') = foldl spec_change (dat_Labels (res_data o)) changes) /\
    Type_ op = UPDATE /\ ResourceID op = id /\ ResourceType op = objectType c /\
    heap w1 !! p = Some op /\ db w1 = db w /\
    m_bind (scheduled p (update_action c o' changes criteria)) (answer c p finish) w1 = (w', res).
Proof.
  intros Hl E. unfold PatchObject in E.
  apply m_bind_inv in E as (w1 & r1 & [-> ->]%lift_inv & E). destruct (ValidateJSONContentType _); [|left; by destruct E as [-> ->]..].
  apply m_bind_inv in E as (w1 & r1 & [-> ->]%lift_inv & E). destruct (label_changes_of _) as [changes| |] eqn:Hch; [|left; by destruct E as [-> ->]..].
  apply m_bind_inv in E as (w1 & r1 & [-> ->]%lift_inv & E). unfold with_criteria in E.
  set (criteria := (ar_Criteria r ++ _)%list) in *. destruct (validateCriteria criteria) as [[]| |] eqn:Hv; [|left; by destruct E as [-> ->]..].
  apply m_bind_inv in E as (w1 & r1 & E1 & E).
  apply m_bind_inv in E1 as (w2 & r2 & (r3 & E2 & ->)%attempt_inv & E1).
  apply repo_call_inv in E2 as (d & h & E2 & ->). apply law_api_get in E2 as (-> & -> & Hget). rewrite set_db_id in E1.
  destruct r3 as [o|e|m]; [|injection E1 as <- <-; left; by destruct E as [-> ->]|destruct E1 as [-> ->]; left; by destruct E as [-> ->]].
  injection E1 as <- <-. specialize (Hget o eq_refl).
  apply m_bind_inv in E as (w1 & r1 & [-> ->]%lift_inv & E). destruct (delete_labels _) as [body| |] eqn:Hdel; [|left; by destruct E as [-> ->]..].
  apply m_bind_inv in E as (w1 & r1 & [-> ->]%lift_inv & E). destruct (patched _ _ _ _) as [o'| |] eqn:Hp; [|left; by destruct E as [-> ->]..].
  destruct (patched_identity _ _ _ _ _ Hl (rows_labels _ _ _ _ Hget) Hp) as (Hid & Hfacts).
  apply m_bind_inv in E as (w1 & r1 & E1 & E).
  destruct operation_uuid as [id| |]; [|injection E1 as <- <-; left; by destruct E as [-> ->]..]. injection E1 as <- <-.
  apply m_bind_inv in E as (w1 & r1 & E1 & E). injection E1 as <- <-.
  apply m_bind_inv in E as (w1 & r1 & (p & -> & Hp1 & Hd & _)%alloc_inv & E).
  right. exists changes, body, o, o'. match type of Hp1 with _ = Some ?op => exists op end. exists p, w1. eexists. cbv zeta. fold criteria. do 4 (split; [done|]). split; [done|].
  do 4 (split; [apply Hfacts|]). do 3 (split; [simpl; congruence|]). split; [exact Hp1|]. split; [done|]. exact E.
Qed.
End Controller.

(** ** The controller on concrete requests *)
(** ** The in-memory repository as one of the API *)
Definition distinct_labels (o : resource) : bool := bool_decide (map_Forall (fun _ l => NoDup l) (dat_Labels (res_data o))).
Fixpoint increasing (k : Z) (l : list resource) : list resource :=
  match l with
  | [] => []
  | o :: l' => if (k <? sequence o)%Z && (sequence o <=? Strconv.int64_max)%Z && distinct_labels o
               then o :: increasing (sequence o) l' else increasing k l'
  end.
Definition memory_rows (d : memory_db) (t : string) (cs : list Criterion) : list resource :=
  List.filter (fun o => forallb (in_bound (sequence o)) (omap part_of cs))
    (increasing 0 (List.filter (fun o => String.eqb (res_type o) t) (snd <$> map_to_list (mem_resources d)))).
Definition memory_list (d : memory_db) (t : string) (cs : list Criterion) : list resource :=
  let all := memory_rows d t cs in
  let ordered := match order_parts (omap part_of cs) with DescOrder :: _ => reverse all | _ => all end in
  match limit_parts (omap part_of cs) with n :: _ => take (Z.to_nat n) ordered | [] => ordered end.

#[export] Instance memory_api : ApiRepository := {
  api_count := fun t cs '(d, h) => ((d, h), Ok (Z.of_nat (length (memory_rows d t cs))));
  api_list := fun t cs '(d, h) => ((d, h), Ok (memory_list d t cs));
  api_get := fun t cs '(d, h) =>
    ((d, h), match memory_rows d t cs with o :: _ => Ok o | [] => Err ENotFoundInStorage end);
  api_delete := fun _ t cs '(d, h) => ((d, h), Err ENotFoundInStorage);
  api_update := fun _ o _ _ '(d, h) =>
    ((with_resources d (<[(res_type o, res_id o) := o]> (mem_resources d)), h), Ok o);
  api_last_operations := fun t ids '(d, h) =>
    ((d, h), Ok (List.filter (fun op => String.eqb (ResourceType op) t && bool_decide (ResourceID op ∈ ids)) (mem_operations d)))
}.

Lemma increasing_above l : forall k o, o ∈ increasing k l -> (k < sequence o <= Strconv.int64_max)%Z /\ distinct_labels o = true.
Proof.
  induction l as [|x l IH]; intros k o; simpl; [intros Ho; inversion Ho|].
  destruct (Z.ltb_spec k (sequence x)); simpl; [|apply IH].
  destruct (Z.leb_spec (sequence x) Strconv.int64_max); simpl; [|apply IH].
  destruct (distinct_labels x) eqn:Hx; [|apply IH].
  intros [->|Ho]%elem_of_cons; [done|]. apply IH in Ho as [? ?]. split; [lia|done].
Qed.
Lemma increasing_sorted l : forall k, StronglySorted (fun a b => (sequence a < sequence b)%Z) (increasing k l).
Proof.
  induction l as [|x l IH]; intros k; simpl; [constructor|]. destruct (_ && _); [|apply IH].
  constructor; [apply IH|]. apply Forall_forall. intros o Ho. destruct (increasing_above _ _ _ Ho) as [[? _] _]. done.
Qed.

Lemma bfilter_sorted (f : resource -> bool) l :
  StronglySorted (fun a b => (sequence a < sequence b)%Z) l -> StronglySorted (fun a b => (sequence a < sequence b)%Z) (List.filter f l).
Proof.
  induction 1 as [|x l Hl IH Hx]; simpl; [constructor|]. destruct (f x); [|done]. constructor; [done|].
  rewrite Forall_forall in *. intros y Hy. apply Hx. by apply elem_of_bfilter in Hy as [? _].
Qed.
Lemma bfilter_app {A} (f g : A -> bool) l : List.filter (fun x => f x && g x) l = List.filter g (List.filter f l).
Proof. induction l as [|x l IH]; simpl; [done|]. destruct (f x); simpl; [destruct (g x)|]; by rewrite IH. Qed.
Lemma parts_of_filters cs : no_result_criteria cs ->
  order_parts (omap part_of cs) = [] /\ limit_parts (omap part_of cs) = [].
Proof.
  induction 1 as [|c cs Hc _ [IH1 IH2]]; [done|]. simpl.
  assert (Hb : part_of c = None \/ exists o k, part_of c = Some (Bounded o k)).
  { unfold part_of. destruct (CType c); try (by left). destruct (RightOp c) as [|v [|]]; try (by left).
    destruct (String.eqb _ _); [|by left]. destruct (Strconv.atoi v); simpl; eauto. }
  destruct Hb as [->|(o & k & ->)]; simpl; done.
Qed.
Lemma omap_mapM {A B} (f : A -> option B) l k : mapM f l = Some k -> omap f l = k.
Proof. intros Hm%mapM_Some. induction Hm as [|x y l k Hx _ IH]; simpl; [done|]. rewrite Hx. by f_equal. Qed.

#[export] Program Instance memory_listing : ListingLaws := { rows := memory_rows }.
Next Obligation. intros. apply bfilter_sorted, increasing_sorted. Qed.
Next Obligation. intros d t cs o [Ho _]%elem_of_bfilter. apply increasing_above in Ho. lia. Qed.
Next Obligation.
  intros d h d' h' t cs more parts l Hcs Hm _ _ [= <- <- <-]. split; [done|]. split; [done|].
  destruct (parts_of_filters cs Hcs) as [Eo El]. pose proof (omap_mapM _ _ _ Hm) as Hp.
  unfold memory_list, listing. rewrite omap_app, Hp. unfold order_parts, limit_parts in *. rewrite !omap_app, Eo, El. simpl.
  assert (Hrows : memory_rows d t (cs ++ more) =
    List.filter (fun o => forallb (in_bound (sequence o)) parts) (memory_rows d t cs)).
  { unfold memory_rows. rewrite omap_app, Hp, <- bfilter_app. apply filter_ext. intros o. by rewrite forallb_app. }
  rewrite Hrows. eexists. split; [|reflexivity]. by destruct (omap _ parts) as [|[] ?].
Qed.
Next Obligation.
  intros d t cs o [Ho _]%elem_of_bfilter k l. apply increasing_above in Ho as [_ Hd].
  apply bool_decide_eq_true in Hd. apply Hd.
Qed.
Next Obligation.
  intros d h d' h' t cs r [= <- <- <-]. split_and!; [done|done|]. intros o. destruct (memory_rows d t cs); [done|].
  intros [= <-]. left.
Qed.
Next Obligation. by intros d h d' h' t cs r [= <- <- _]. Qed.
Next Obligation. by intros d h d' h' t ids r [= <- <- _]. Qed.

(** ** Bodies and objects *)
#[export] Instance toy_bodies : Bodies := {
  ParseMediaType := fun s => Ok s;
  json_parse := fun s => if String.eqb s "{}" then Some (VObject []) else if String.eqb s "{a,a}" then
                           Some (VObject [("a", VScalar); ("a", VArray [VString "x"])]) else None
}.
(** The body names the object. *)
#[export] Instance toy_types : ObjectTypes := {
  unmarshal_object := fun body o => Some (SetID body o);
  validate_object := fun _ => Ok tt;
  Sanitize_object := fun o => o;
  label_changes_of := fun _ => Ok [{| lc_Operation := AddLabelOperation; lc_Key := "k"; lc_Values := ["v"] |}];
  delete_labels := fun body => Ok body
}.
Definition toy_controller : BaseController :=
  {| scheduler := sample_scheduler; resourceBaseURL := ServiceInstanceType; objectType := ServiceInstanceType;
     objectBlueprint := sample_resource; DefaultPageSize := 2; MaxPageSize := 10; supportsAsync := false;
     supportsCascadeDelete := false |}.
Definition toy_request : api_request :=
  {| ar_ContentType := ""; ar_Body := "n"; ar_PathParams := {["resource_id" := "b"]}; ar_Query := ∅; ar_Criteria := [];
     ar_OriginatingIdentity := None; ar_UserName := Some "u"; ar_CorrelationID := "c" |}.
Definition numbered_resource (id : string) (n : Z) : resource :=
  {| res_type := ServiceInstanceType; res_id := id; res_ready := true; res_usable := true;
     res_data := {| dat_CreatedAt := 1; dat_UpdatedAt := 1; dat_Labels := ∅; dat_PagingSequence := n; dat_Fields := "" |} |}.
Definition world_with (l : list (string * Z)) : World :=
  {| db := {| mem_operations := [];
              mem_resources := list_to_map ((fun p => ((ServiceInstanceType, p.1), numbered_resource p.1 p.2)) <$> l) |};
     heap := ∅; clock := 5; workers := 0; wg := 0; jobs := [] |}.

Lemma body_accepted_witness : exists p, first_duplicate [] (VObject [("a", VScalar); ("a", VArray [VString "x"])]) = Some p /\
  RequestBodyToBytes "" (Ok "{a,a}") =
  Err (EHTTP "BadRequest" ("Request body is not valid: " ++ Error (duplicate_key p)) StatusBadRequest).
Proof.
  refine (proj2 (body_accepted "" "{a,a}" eq_refl) _ eq_refl _). intros [Hn _]. simpl in Hn.
  apply NoDup_cons in Hn as [Hn _]. apply Hn. left.
Defined.

(** ** Two pages, between which an object was added *)
Definition first_world : World := world_with [("c", 1%Z); ("a", 2%Z); ("b", 3%Z)].
Definition second_world : World := world_with [("c", 1%Z); ("a", 2%Z); ("b", 3%Z); ("d", 4%Z)].
Definition page_in (tok : string) (w : World) : ObjectPage :=
  match snd (ListObjects toy_controller (with_token toy_request tok) w) with
  | Ok resp => match Body_ resp with PageBody page => page | _ => {| Token_ := ""; ItemsCount := 0; Items := [] |} end
  | _ => {| Token_ := ""; ItemsCount := 0; Items := [] |}
  end.
Definition two_pages : list ObjectPage := [page_in "" first_world; page_in "Mg==" second_world].
Lemma two_page_walk : walk toy_controller toy_request "" [first_world; second_world] two_pages.
Proof.
  eapply walk_more; [apply run_snd; vm_compute; reflexivity|reflexivity|reflexivity|].
  eapply walk_end; [apply run_snd; vm_compute; reflexivity|reflexivity|reflexivity].
Qed.
Lemma toy_sequence o : sequence (Sanitize_object o) = sequence o.
Proof. done. Qed.
Lemma pages_list_everything_witness :
  res_id <$> listed two_pages = ["c"; "a"; "b"; "d"] /\
  StronglySorted (fun a b => (sequence a < sequence b)%Z) (listed two_pages) /\
  numbered_resource "b" 3 ∈ listed two_pages.
Proof.
  destruct (pages_list_everything toy_sequence toy_controller toy_request 2 eq_refl ltac:(split; reflexivity) ltac:(constructor)
              [first_world; second_world] two_pages two_page_walk) as (Hs & Hall & _).
  split; [by vm_compute|]. split; [exact Hs|]. apply (Hall (numbered_resource "b" 3)); [reflexivity|].
  intros w [->|[->|Hw]%elem_of_cons]%elem_of_cons.
  - apply (bool_decide_unpack _). by vm_compute.
  - apply (bool_decide_unpack _). by vm_compute.
  - inversion Hw.
Defined.

(** ** A creation and an update *)
Notation toy_create := (CreateObject no_wait text_of_duration text_of_errors sample_action 0 (Ok "uuid") (Ok "opid") toy_controller).
Notation toy_patch := (PatchObject no_wait text_of_duration text_of_errors sample_action 0 (Ok "opid") toy_controller).

Lemma toy_labels_undecoded : labels_undecoded.
Proof. by intros body o o' _ [= <-]. Qed.
Lemma patch_keeps_identity_witness :
  exists changes o o', label_changes_of (ar_Body toy_request) = Ok changes /\
    o ∈ rows (db first_world) ServiceInstanceType [ByField EqualsOperator "id" ["b"]] /\
    res_id o' = "b" /\ res_ready o' = true /\
    dat_Labels (res_data o') = foldl spec_change (dat_Labels (res_data o)) changes.
Proof.
  destruct (patch_keeps_identity no_wait text_of_duration text_of_errors sample_action 0 (Ok "opid") toy_controller
              toy_request first_world (fst (toy_patch toy_request first_world)) (snd (toy_patch toy_request first_world))
              toy_labels_undecoded (surjective_pairing _))
    as [[_ Hf]|(changes & rest & o & o' & op & p & w1 & finish & Hv & Hch & Hrest & Ho & Hid & Hr & _ & _ & Hl & _)].
  - exfalso. revert Hf. by vm_compute.
  - exists changes, o, o'. do 4 (split; [done|]). apply Hl. injection Hrest as <-. by intros l [=].
Defined.
