(* ===== verification/WorldMonad.v ===== *)
(** * Computations over a world that may fail

    The monad of the models whose world is a set of tables: a state, changed in place, and a
    [result].  Unlike a transaction it keeps the state it has reached when it fails. *)

From S2P Require Import Prelude.
From stdpp Require Import base gmap strings list.

Definition world_m (W A : Type) : Type := W -> W * result A.
Section Computations.
Context {W : Type}.
Definition c_ret {A} (a : A) : world_m W A := fun w => (w, Ok a).
Definition c_fail {A} (e : error) : world_m W A := fun w => (w, Err e).
Definition c_lift {A} (r : result A) : world_m W A := fun w => (w, r).
Definition c_bind {A B} (m : world_m W A) (f : A -> world_m W B) : world_m W B := fun w =>
  let '(w', r) := m w in
  match r with
  | Ok a => f a w'
  | Err e => (w', Err e)
  | Panic msg => (w', Panic msg)
  end.
(** [if err := x.Validate(); err != nil { return wrap(err) }] *)
Definition valid_or (r : result unit) (wrap : error -> error) : world_m W unit :=
  match r with Ok _ => c_ret tt | Err e => c_fail (wrap e) | Panic m => fun w => (w, Panic m) end.
End Computations.
Notation "'cat!' x <- m ; k" := (c_bind m (fun x => k))
  (at level 100, x pattern, m at level 99, k at level 200, right associativity) : sm_scope.
Notation "m '>;' k" := (c_bind m (fun _ => k)) (at level 100, right associativity) : sm_scope.

(** [for _, x := range l] with an early return. *)
Fixpoint c_fold {W A S} (f : S -> A -> world_m W S) (s : S) (l : list A) : world_m W S :=
  match l with
  | [] => c_ret s
  | x :: l' => cat! s' <- f s x; c_fold f s' l'
  end.

(** [for k, x := range m]: the pairs of a map in some order of its keys. *)
Definition ranged {A} (m : gmap string A) (order : list string) : list (string * A) :=
  omap (fun k => (fun x => (k, x)) <$> m !! k) order.
Lemma ranged_map {A} (m : gmap string A) o : o ≡ₚ (map_to_list m).*1 ->
  NoDup (ranged m o).*1 /\ forall k x, (k, x) ∈ ranged m o <-> m !! k = Some x.
Proof.
  intros Ho. split.
  - assert (Hd : NoDup o) by (rewrite Ho; apply NoDup_fst_map_to_list).
    clear Ho. induction Hd as [|k o Hk Hd IH]; simpl; [constructor|].
    unfold ranged. simpl. destruct (m !! k) as [x|]; simpl; [|done]. constructor; [|done].
    intros (kv & -> & (k' & Hin & Hf)%list_elem_of_omap)%list_elem_of_fmap.
    destruct (m !! k'); simplify_eq/=. done.
  - intros k x. unfold ranged. rewrite list_elem_of_omap. split.
    + intros (k' & _ & Hf). destruct (m !! k') eqn:E; by simplify_eq/=.
    + intros E. exists k. rewrite E. split; [|done]. rewrite Ho. apply list_elem_of_fmap.
      exists (k, x). split; [done|]. by apply elem_of_map_to_list.
Qed.

(** Distinct images come from distinct elements. *)
Lemma NoDup_fmap_elem {A B} (f : A -> B) l x y : NoDup (f <$> l) -> x ∈ l -> y ∈ l -> f x = f y -> x = y.
Proof.
  intros Hn [i Hi]%list_elem_of_lookup_1 [j Hj]%list_elem_of_lookup_1 Heq.
  assert (i = j) as ->; [|by simplify_eq].
  apply (NoDup_lookup _ i j (f x) Hn); rewrite list_lookup_fmap; [by rewrite Hi|by rewrite Hj, Heq].
Qed.

(** ** Computations that return *)
Lemma c_bind_ok {W A B} (m : world_m W A) (f : A -> world_m W B) w w' b :
  c_bind m f w = (w', Ok b) -> exists w1 a, m w = (w1, Ok a) /\ f a w1 = (w', Ok b).
Proof. unfold c_bind. destruct (m w) as [w1 [a| |]]; [eauto|discriminate..]. Qed.
Lemma c_ret_ok {W A} (a b : A) (w w' : W) : c_ret a w = (w', Ok b) -> w' = w /\ b = a.
Proof. by intros [= <- <-]. Qed.
Lemma valid_or_ok {W} r wrap (w w' : W) u : valid_or r wrap w = (w', Ok u) -> w' = w.
Proof. destruct r as [[]| |]; [|discriminate..]. by intros [= <-]. Qed.
(** Take apart a computation that returned. *)
Ltac c_inv :=
  repeat match goal with
    | E : c_bind _ _ _ = (_, Ok _) |- _ =>
        let w := fresh "w" in let a := fresh "a" in let E1 := fresh "E" in
        apply c_bind_ok in E as (w & a & E1 & E); cbv beta in E
    | E : c_ret _ _ = (_, Ok _) |- _ => apply c_ret_ok in E as [? ?]; subst
    | E : valid_or _ _ _ = (_, Ok _) |- _ => apply valid_or_ok in E; subst
    | E : c_fail _ _ = (_, Ok _) |- _ => discriminate E
    end.

Lemma c_fold_ok {W A S} (f : S -> A -> world_m W S) (I : list A -> S -> W -> Prop) l s0 w0 s' w' :
  I [] s0 w0 ->
  (forall pre x post s w s1 w1, l = (pre ++ x :: post)%list -> I pre s w -> f s x w = (w1, Ok s1) ->
    I (pre ++ [x])%list s1 w1) ->
  c_fold f s0 l w0 = (w', Ok s') -> I l s' w'.
Proof.
  intros H0 Hstep. cut (forall post pre s w, l = (pre ++ post)%list -> I pre s w ->
    c_fold f s post w = (w', Ok s') -> I l s' w'); [intros Hc; by apply (Hc l [])|].
  induction post as [|x post IH]; intros pre s w Hl Hi; simpl.
  - intros [= <- <-]. by rewrite Hl, app_nil_r.
  - intros (w1 & s1 & E1 & E)%c_bind_ok. apply (IH (pre ++ [x])%list s1 w1); [by rewrite <- app_assoc|by eapply Hstep|done].
Qed.
Lemma c_fold_app {W A S} (f : S -> A -> world_m W S) l1 l2 s w w' s' :
  c_fold f s (l1 ++ l2) w = (w', Ok s') <->
  exists w1 s1, c_fold f s l1 w = (w1, Ok s1) /\ c_fold f s1 l2 w1 = (w', Ok s').
Proof.
  revert s w. induction l1 as [|x l1 IH]; intros s w; simpl.
  - split; [by exists w, s|]. by intros (w1 & s1 & [= <- <-] & E).
  - unfold c_bind. destruct (f s x w) as [w1 [s1| |]]; [apply IH| |]; (split; [done|by intros (? & ? & ? & ?)]).
Qed.
Lemma c_fold_ext {W A S} (f g : S -> A -> world_m W S) l s w :
  (forall s x w, f s x w = g s x w) -> c_fold f s l w = c_fold g s l w.
Proof.
  intros Heq. revert s w. induction l as [|x l IH]; intros s w; [done|]. simpl. unfold c_bind. rewrite Heq.
  by destruct (g s x w) as [w1 [s1| |]].
Qed.
(** A loop in a loop is the loop over all pairs. *)
Lemma c_fold_nested {W A B S} (f : S -> A -> B -> world_m W S) (l : list (A * list B)) s w w' s' :
  c_fold (fun s x => c_fold (fun s y => f s x.1 y) s x.2) s l w = (w', Ok s') ->
  c_fold (fun s y => f s y.1 y.2) s (l ≫= fun x => pair x.1 <$> x.2) w = (w', Ok s').
Proof.
  revert s w. induction l as [|x l IH]; intros s w; simpl; [done|].
  intros (w1 & s1 & E1 & E)%c_bind_ok. apply c_fold_app. exists w1, s1. split; [|by apply IH].
  clear IH E. destruct x as [a bs]. simpl in *. revert s w E1. induction bs as [|b bs IHb]; intros s w; simpl; [done|].
  intros (w2 & s2 & E2 & E)%c_bind_ok. unfold c_bind. rewrite E2. by apply IHb.
Qed.

