(* ===== verification/Catalog.v ===== *)
(** * The catalog of a broker (storage/interceptors/broker_create_catalog_interceptor.go,
    broker_update_catalog_interceptor.go, storage/catalog/loader.go, schemas/predefined_plans.go)

    When a broker is created or updated its catalog is fetched and the offerings and plans in
    the storage are brought into line with it: what is new is created, what is known is updated
    under its old id, and what is gone is deleted.  The world has the rows of the two tables
    and counts the calls to the outside, each of which may fail. *)

From S2P Require Import Prelude GoStd Errors Labels OperationTypes DomainTypes WorldMonad.
From stdpp Require Import base gmap strings list.
From Stdlib Require Import ZArith.
Local Open Scope string_scope.

Record catalog_world := {
  cw_offerings : gmap string ServiceOffering;
  cw_plans : gmap string ServicePlan;
  cw_calls : nat
}.
Notation cat := (world_m catalog_world).

(** What the catalog is read with: the fetcher, decoding, changes of the JSON text, and the
    outside of the process. *)
Class CatalogEnv := {
  cat_fault : nat -> option error;
  cat_uuid : nat -> result string;
  cat_now : nat -> Z;
  shared_instances : string -> Z;    (** shared instances of a plan *)
  CatalogFetcher : ServiceBroker -> result string;
  decode_catalog : string -> option (list (ServiceOffering * list ServicePlan));
  append_plan_json : string -> nat -> ServicePlan -> result string;
  set_plan_id_json : string -> nat -> nat -> string -> result string;
  reference_schemas : string;        (** the text under "schemas" of [BuildReferencePlanSchema] *)
  (** the order of a [range] over a map, anew at every call *)
  range_order : nat -> list string -> list string
}.

(** ** Fields *)
Definition with_base (b : Base) (id : string) (created updated : Z) (ready : bool) : Base :=
  {| base_ID := id; base_CreatedAt := created; base_UpdatedAt := updated; base_Labels := base_Labels b;
     base_PagingSequence := base_PagingSequence b; base_Ready := ready; base_LastOperation := base_LastOperation b |}.
Definition offering_with (o : ServiceOffering) (b : Base) (brokerID catalogID catalogName : string) : ServiceOffering :=
  {| so_Base := b; so_Name := so_Name o; so_Description := so_Description o; so_Bindable := so_Bindable o;
     so_InstancesRetrievable := so_InstancesRetrievable o; so_BindingsRetrievable := so_BindingsRetrievable o;
     so_PlanUpdatable := so_PlanUpdatable o; so_AllowContextUpdates := so_AllowContextUpdates o;
     so_Tags := so_Tags o; so_Requires := so_Requires o; so_Metadata := so_Metadata o; so_BrokerID := brokerID;
     so_CatalogID := catalogID; so_CatalogName := catalogName |}.
Definition plan_with (p : ServicePlan) (b : Base) (offeringID catalogID catalogName : string) : ServicePlan :=
  {| sp_Base := b; sp_Name := sp_Name p; sp_Description := sp_Description p; sp_CatalogID := catalogID;
     sp_CatalogName := catalogName; sp_Free := sp_Free p; sp_Bindable := sp_Bindable p;
     sp_PlanUpdatable := sp_PlanUpdatable p; sp_Metadata := sp_Metadata p; sp_Schemas := sp_Schemas p;
     sp_MaximumPollingDuration := sp_MaximumPollingDuration p; sp_MaintenanceInfo := sp_MaintenanceInfo p;
     sp_ServiceOfferingID := offeringID |}.
Definition so_ID (o : ServiceOffering) : string := base_ID (so_Base o).
Definition sp_ID (p : ServicePlan) : string := base_ID (sp_Base p).
(** [x.ID = id; x.CreatedAt = ...; x.UpdatedAt = ...] *)
Definition reidentified_offering (o : ServiceOffering) (id : string) (created updated : Z) : ServiceOffering :=
  offering_with o (with_base (so_Base o) id created updated (base_Ready (so_Base o))) (so_BrokerID o) (so_CatalogID o)
    (so_CatalogName o).
Definition reidentified_plan (p : ServicePlan) (id : string) (created updated : Z) : ServicePlan :=
  plan_with p (with_base (sp_Base p) id created updated (base_Ready (sp_Base p))) (sp_ServiceOfferingID p)
    (sp_CatalogID p) (sp_CatalogName p).
Definition set_offering_of_plan (id : string) (p : ServicePlan) : ServicePlan :=
  plan_with p (sp_Base p) id (sp_CatalogID p) (sp_CatalogName p).

(** What an update leaves as it is: the labels of a row are in a table of their own, its paging
    sequence is counted by the database, and the last operation is no column. *)
Definition kept_base (row b : Base) : Base :=
  {| base_ID := base_ID b; base_CreatedAt := base_CreatedAt b; base_UpdatedAt := base_UpdatedAt b; base_Labels := base_Labels row;
     base_PagingSequence := base_PagingSequence row; base_Ready := base_Ready b; base_LastOperation := base_LastOperation row |}.
Definition kept_offering (row o : ServiceOffering) : ServiceOffering :=
  offering_with o (kept_base (so_Base row) (so_Base o)) (so_BrokerID o) (so_CatalogID o) (so_CatalogName o).
Definition kept_plan (row p : ServicePlan) : ServicePlan :=
  plan_with p (kept_base (sp_Base row) (sp_Base p)) (sp_ServiceOfferingID p) (sp_CatalogID p) (sp_CatalogName p).

Section Storage.
Context `{CatalogEnv}.

Definition cat_tick (w : catalog_world) : catalog_world :=
  {| cw_offerings := cw_offerings w; cw_plans := cw_plans w; cw_calls := S (cw_calls w) |}.
Definition c_outside {A} (f : nat -> result A) : cat A := fun w => (cat_tick w, f (cw_calls w)).
(** A call of the storage: it may fail, and else changes the rows. *)
Definition c_storage {A} (f : gmap string ServiceOffering * gmap string ServicePlan ->
    (gmap string ServiceOffering * gmap string ServicePlan) * result A) : cat A := fun w =>
  match cat_fault (cw_calls w) with
  | Some e => (cat_tick w, Err e)
  | None =>
      let '((o, p), r) := f (cw_offerings w, cw_plans w) in
      ({| cw_offerings := o; cw_plans := p; cw_calls := S (cw_calls w) |}, r)
  end.
Definition new_uuid : cat string := c_outside cat_uuid.

Definition create_offering (x : ServiceOffering) : cat unit :=
  c_storage (fun '(o, p) =>
    match o !! so_ID x with
    | Some _ => ((o, p), Err EAlreadyExistsInStorage)
    | None => ((<[so_ID x := x]> o, p), Ok tt)
    end).
Definition create_plan (x : ServicePlan) : cat unit :=
  c_storage (fun '(o, p) =>
    match p !! sp_ID x with
    | Some _ => ((o, p), Err EAlreadyExistsInStorage)
    | None => ((o, <[sp_ID x := x]> p), Ok tt)
    end).
(** [Storage.Update], without label changes: it sets the time of the update in the object, and
    writes the columns of the row. *)
Definition update_offering (x : ServiceOffering) : cat ServiceOffering :=
  cat! now <- c_outside (fun n => Ok (cat_now n));
  let x := reidentified_offering x (so_ID x) (base_CreatedAt (so_Base x)) now in
  c_storage (fun '(o, p) =>
    match o !! so_ID x with
    | Some row => ((<[so_ID x := kept_offering row x]> o, p), Ok x)
    | None => ((o, p), Err ENotFoundInStorage)
    end).
Definition update_plan (x : ServicePlan) : cat ServicePlan :=
  cat! now <- c_outside (fun n => Ok (cat_now n));
  let x := reidentified_plan x (sp_ID x) (base_CreatedAt (sp_Base x)) now in
  c_storage (fun '(o, p) =>
    match p !! sp_ID x with
    | Some row => ((o, <[sp_ID x := kept_plan row x]> p), Ok x)
    | None => ((o, p), Err ENotFoundInStorage)
    end).
(** Deleting an offering deletes its plans ([ON DELETE CASCADE]). *)
Definition delete_offering (id : string) : cat unit :=
  c_storage (fun '(o, p) =>
    match o !! id with
    | Some _ => ((delete id o, filter (fun kv => sp_ServiceOfferingID kv.2 <> id) p), Ok tt)
    | None => ((o, p), Err ENotFoundInStorage)
    end).
Definition delete_plan (id : string) : cat unit :=
  c_storage (fun '(o, p) =>
    match p !! id with
    | Some _ => ((o, delete id p), Ok tt)
    | None => ((o, p), Err ENotFoundInStorage)
    end).

(** ** catalog.Load: the offerings of a broker with their plans *)
Definition Load (brokerID : string) : cat (list (ServiceOffering * list ServicePlan)) :=
  cat! offerings <- c_storage (fun '(o, p) =>
    ((o, p), Ok (List.filter (fun x => String.eqb (so_BrokerID x) brokerID) (snd <$> map_to_list o))));
  match offerings with
  | [] => c_ret []
  | _ =>
      let serviceOfferingIDs := so_ID <$> offerings in
      cat! plans <- c_storage (fun '(o, p) =>
        ((o, p), Ok (List.filter (fun x => bool_decide (sp_ServiceOfferingID x ∈ serviceOfferingIDs))
                                 (snd <$> map_to_list p))));
      c_ret ((fun x => (x, List.filter (fun p => String.eqb (sp_ServiceOfferingID p) (so_ID x)) plans)) <$> offerings)
  end.
End Storage.

Section Catalogs.
Context `{CatalogEnv} `{JSONQueries}.
Definition ReferencePlanName : string := "reference-instance".
Definition ReferencePlanDescription : string :=
  "Allows to create a reference to a shared service instance from any environment in a subaccount and manage service bindings to that service instance.".

Definition isBindablePlan (service : ServiceOffering) (plan : ServicePlan) : bool :=
  match sp_Bindable plan with Some b => b | None => so_Bindable service end.
Definition servicePlanUsesReservedNameForReferencePlan (plan : ServicePlan) : bool :=
  String.eqb (sp_Name plan) ReferencePlanName || String.eqb (sp_CatalogName plan) ReferencePlanName.
Definition sharing_error (e : error) (name : string) : error := default e (HandleInstanceSharingError (Some e) name).

(** [CreatePlanOutOfSchema(BuildReferencePlanSchema(), id)] *)
Definition CreatePlanOutOfSchema (serviceOfferingId : string) : cat ServicePlan :=
  cat! uuid <- (fun w =>
    match new_uuid w with
    | (w', Err e) => (w', Err (EPlain ("could not generate GUID for ServicePlan: " ++ Error e)))
    | r => r
    end);
  cat! created <- c_outside (fun n => Ok (cat_now n));
  cat! updated <- c_outside (fun n => Ok (cat_now n));
  c_ret {| sp_Base := {| base_ID := uuid; base_CreatedAt := created; base_UpdatedAt := updated; base_Labels := ∅;
                         base_PagingSequence := 0; base_Ready := true; base_LastOperation := None |};
           sp_Name := ReferencePlanName; sp_Description := ReferencePlanDescription; sp_CatalogID := uuid;
           sp_CatalogName := ReferencePlanName; sp_Free := Some true; sp_Bindable := Some true;
           sp_PlanUpdatable := Some false;
           sp_Metadata := "{" ++ Strings.dquote ++ "supportedPlatforms" ++ Strings.dquote ++ ": []}";
           sp_Schemas := reference_schemas; sp_MaximumPollingDuration := 0; sp_MaintenanceInfo := "";
           sp_ServiceOfferingID := serviceOfferingId |}.

Definition invalid_entity (kind when : string) (e : error) : error :=
  EHTTP "BadRequest" (kind ++ " constructed during catalog " ++ when ++ " is invalid: " ++ Error e) StatusBadRequest.

(** One plan of a fetched catalog, and whether it can be shared. *)
Definition prepare_plan (broker : ServiceBroker) (service : ServiceOffering) (plan : ServicePlan)
    : cat (ServicePlan * bool) :=
  if servicePlanUsesReservedNameForReferencePlan plan
  then c_fail (sharing_error ECatalogUsesReservedPlanName ReferencePlanName)
  else
    let updated := base_UpdatedAt (br_Base broker) in
    cat! uuid <- new_uuid;
    let plan := plan_with plan (with_base (sp_Base plan) uuid updated updated (base_Ready (br_Base broker)))
                  (so_ID service) (sp_ID plan) (sp_Name plan) in
    valid_or (ServicePlan_Validate plan)
      (invalid_entity "service plan" ("insertion for broker with name " ++ br_Name broker)) >;
    if SupportsInstanceSharing plan then
      if negb (isBindablePlan service plan) then c_fail (sharing_error EPlanMustBeBindable (sp_ID plan))
      else c_ret (plan, true)
    else c_ret (plan, false).

(** One service; the catalog text gets the reference plan. *)
Definition prepare_service (broker : ServiceBroker) (s : nat * string * list (ServiceOffering * list ServicePlan))
    (x : ServiceOffering * list ServicePlan) : cat (nat * string * list (ServiceOffering * list ServicePlan)) :=
  let '(serviceIndex, catalog, done) := s in
  let '(service, plans) := x in
  let updated := base_UpdatedAt (br_Base broker) in
  cat! uuid <- new_uuid;
  let service := offering_with service (with_base (so_Base service) uuid updated updated (base_Ready (br_Base broker)))
                   (base_ID (br_Base broker)) (so_ID service) (so_Name service) in
  valid_or (ServiceOffering_Validate service)
    (invalid_entity "service offering" ("insertion for broker with name " ++ br_Name broker)) >;
  cat! prepared <- c_fold (fun l p => cat! q <- prepare_plan broker service p; c_ret (l ++ [q])%list) [] plans;
  let plans := prepared.*1 in
  if List.existsb snd prepared then
    cat! referencePlan <- (fun w =>
      match CreatePlanOutOfSchema (so_ID service) w with
      | (w', Err e) => (w', Err (EPlain ("error setting reference schema for the reference plan: " ++ Error e)))
      | r => r
      end);
    cat! catalog <- c_lift (append_plan_json catalog serviceIndex referencePlan);
    c_ret (S serviceIndex, catalog, (done ++ [(service, plans ++ [referencePlan])])%list)
  else c_ret (S serviceIndex, catalog, (done ++ [(service, plans)])%list).

Definition set_br_Catalog (b : ServiceBroker) (c : string) : ServiceBroker :=
  {| br_Base := br_Base b; br_Name := br_Name b; br_Description := br_Description b; br_BrokerURL := br_BrokerURL b;
     br_Credentials := br_Credentials b; br_Catalog := c |}.

(** The broker with the catalog text, and its services. *)
Definition brokerCatalogAroundTx (broker : ServiceBroker) : cat (ServiceBroker * list (ServiceOffering * list ServicePlan)) :=
  cat! catalogBytes <- c_lift (CatalogFetcher broker);
  match decode_catalog catalogBytes with
  | None => c_fail (EHTTP "BadRequest" "Failed to decode request body" StatusBadRequest)
  | Some services =>
      cat! r <- c_fold (prepare_service broker) (0%nat, catalogBytes, []) services;
      let '(_, catalog, services) := r in c_ret (set_br_Catalog broker catalog, services)
  end.

(** [brokerCreateCatalogInterceptor.OnTxCreate], around the creation of the broker. *)
Definition OnTxCreate_broker {A} (f : cat A) (services : list (ServiceOffering * list ServicePlan)) : cat A :=
  cat! createdObj <- f;
  c_fold (fun _ x => create_offering x.1 >; c_fold (fun _ p => create_plan p) tt x.2) tt services >;
  c_ret createdObj.

(** ** The update *)

(** [reuseReferenceInstancePlans]: the reference plan of a service keeps its ids. *)
Fixpoint reuse_plan (old : ServicePlan) (i : nat) (plans : list ServicePlan) : option (nat * list ServicePlan) :=
  match plans with
  | [] => None
  | p :: rest =>
      if String.eqb (sp_Name p) ReferencePlanName
      then Some (i, plan_with p (with_base (sp_Base p) (sp_ID old) (base_CreatedAt (sp_Base p)) (base_UpdatedAt (sp_Base p))
                                   (base_Ready (sp_Base p)))
                      (sp_ServiceOfferingID p) (sp_CatalogID old) (sp_CatalogName p) :: rest)
      else match reuse_plan old (S i) rest with Some (j, rest') => Some (j, p :: rest') | None => None end
  end.
(** The last service with a catalog id, and its index. *)
Fixpoint service_index (catalogID : string) (i : nat) (services : list (ServiceOffering * list ServicePlan)) : option nat :=
  match services with
  | [] => None
  | x :: rest => match service_index catalogID (S i) rest with
                 | Some j => Some j
                 | None => if String.eqb (so_CatalogID x.1) catalogID then Some i else None
                 end
  end.
Definition reuse_service (s : string * list (ServiceOffering * list ServicePlan)) (old : ServiceOffering * list ServicePlan)
    : result (string * list (ServiceOffering * list ServicePlan)) :=
  let '(catalog, services) := s in
  match List.find (fun p => String.eqb (sp_Name p) ReferencePlanName) old.2 with
  | None => Ok s
  | Some oldPlan =>
      match service_index (so_CatalogID old.1) 0 services with
      | None => Ok s
      | Some i =>
          match services !! i with
          | None => Ok s
          | Some (service, plans) =>
              match reuse_plan oldPlan 0 plans with
              | None => Ok s
              | Some (j, plans') =>
                  let* catalog := set_plan_id_json catalog i j (sp_ID oldPlan) in
                  Ok (catalog, <[i := (service, plans')]> services)
              end
          end
      end
  end.
Definition reuseReferenceInstancePlans (catalog : string) (old services : list (ServiceOffering * list ServicePlan))
    : result (string * list (ServiceOffering * list ServicePlan)) :=
  fold_result reuse_service (catalog, services) old.

Definition convertExistingServiceOfferingsToMaps (offerings : list (ServiceOffering * list ServicePlan))
    : gmap string ServiceOffering * gmap string (list ServicePlan) :=
  (foldl (fun m x => <[so_CatalogID x.1 := x.1]> m) ∅ offerings,
   foldl (fun m x => foldl (fun m p => <[so_CatalogID x.1 := (default [] (m !! so_CatalogID x.1) ++ [p])%list]> m) m x.2)
     ∅ offerings).
Definition getBrokerCatalogServicesAndPlans (offerings : list (ServiceOffering * list ServicePlan))
    : list ServiceOffering * gmap string (list ServicePlan) :=
  (offerings.*1, foldl (fun m x => <[so_CatalogID x.1 := x.2]> m) ∅ offerings).
Definition planHasSharedInstances (planID : string) : cat bool :=
  cat! n <- c_storage (fun s => (s, Ok (shared_instances planID)));
  c_ret (0 <? n)%Z.

(** Ranging over a map. *)
Definition range_map {A} (m : gmap string A) : cat (list (string * A)) :=
  fun w => (cat_tick w, Ok (ranged m (range_order (cw_calls w) (fst <$> map_to_list m)))).

(** The loop over the services of the catalog: the known services that were not met yet, those to
    be created, the services done, and the plans with the ids of their offerings. *)
Record resync := {
  rs_existing : gmap string ServiceOffering;
  rs_create : list ServiceOffering;
  rs_done : list ServiceOffering;
  rs_plans : gmap string (list ServicePlan)
}.
Definition resync_offering (brokerID : string) (s : resync) (catalogService : ServiceOffering) : cat resync :=
  let invalid := invalid_entity "service offering" ("update for broker " ++ brokerID) in
  let plans_of (o : ServiceOffering) :=
    match rs_plans s !! so_CatalogID o with
    | Some ps => <[so_CatalogID o := set_offering_of_plan (so_ID o) <$> ps]> (rs_plans s)
    | None => rs_plans s
    end in
  match rs_existing s !! so_CatalogID catalogService with
  | Some existing =>
      let o := reidentified_offering catalogService (so_ID existing) (base_CreatedAt (so_Base existing))
                 (base_UpdatedAt (so_Base existing)) in
      valid_or (ServiceOffering_Validate o) invalid >;
      cat! o <- update_offering o;
      c_ret {| rs_existing := base.delete (so_CatalogID o) (rs_existing s); rs_create := rs_create s;
               rs_done := (rs_done s ++ [o])%list; rs_plans := plans_of o |}
  | None =>
      cat! uuid <- new_uuid;
      let o := reidentified_offering catalogService uuid (base_CreatedAt (so_Base catalogService))
                 (base_UpdatedAt (so_Base catalogService)) in
      valid_or (ServiceOffering_Validate o) invalid >;
      c_ret {| rs_existing := rs_existing s; rs_create := (rs_create s ++ [o])%list;
               rs_done := (rs_done s ++ [o])%list; rs_plans := plans_of o |}
  end.

(** The loop over the plans of the catalog: the known plans by service, and those to be created. *)
Definition matching_plan (catalogID : string) (existing : list ServicePlan) : option ServicePlan :=
  last (List.filter (fun p => String.eqb (sp_CatalogID p) catalogID) existing).
Definition resync_plan (brokerID service : string) (s : gmap string (list ServicePlan) * list ServicePlan)
    (catalogPlan : ServicePlan) : cat (gmap string (list ServicePlan) * list ServicePlan) :=
  let '(existing, toCreate) := s in
  match existing !! service with
  | Some existingServicePlans =>
      match matching_plan (sp_CatalogID catalogPlan) existingServicePlans with
      | Some known =>
          let p := reidentified_plan catalogPlan (sp_ID known) (base_CreatedAt (sp_Base known))
                     (base_UpdatedAt (sp_Base known)) in
          cat! hasSharedInstances <- planHasSharedInstances (sp_ID p);
          if (hasSharedInstances : bool) && negb (SupportsInstanceSharing p)
          then c_fail (sharing_error ESharedPlanHasReferences (sp_ID p))
          else
            valid_or (ServicePlan_Validate p) (invalid_entity "service plan" ("update for broker " ++ brokerID)) >;
            update_plan p >;
            c_ret (<[service := List.filter (fun x => negb (String.eqb (sp_CatalogID x) (sp_CatalogID catalogPlan)))
                                  existingServicePlans]> existing, toCreate)
      | None => c_ret (existing, (toCreate ++ [catalogPlan])%list)
      end
  | None => c_ret (existing, (toCreate ++ [catalogPlan])%list)
  end.
Definition createPlan (brokerID : string) (plan : ServicePlan) : cat unit :=
  cat! uuid <- new_uuid;
  let plan := reidentified_plan plan uuid (base_CreatedAt (sp_Base plan)) (base_UpdatedAt (sp_Base plan)) in
  valid_or (ServicePlan_Validate plan) (invalid_entity "service plan" ("update for broker " ++ brokerID)) >;
  create_plan plan.
Definition delete_known_plan (p : ServicePlan) : cat unit := fun w =>
  match delete_plan (sp_ID p) w with
  | (w', Err ENotFoundInStorage) => (w', Ok tt)
  | r => r
  end.

Definition resync_offerings (brokerID : string) (existing : gmap string ServiceOffering)
    (services : list ServiceOffering) (plans : gmap string (list ServicePlan)) : cat resync :=
  cat! s <- c_fold (resync_offering brokerID)
              {| rs_existing := existing; rs_create := []; rs_done := []; rs_plans := plans |} services;
  cat! gone <- range_map (rs_existing s);
  c_fold (fun _ x => delete_offering (so_ID x.2)) tt gone >;
  c_fold (fun _ o => create_offering o) tt (rs_create s) >;
  c_ret s.
Definition resync_plans (brokerID : string) (existing plans : gmap string (list ServicePlan)) : cat unit :=
  cat! byService <- range_map plans;
  cat! s <- c_fold (fun s x => c_fold (resync_plan brokerID x.1) s x.2) (existing, []) byService;
  cat! gone <- range_map s.1;
  c_fold (fun _ x => c_fold (fun _ p => delete_known_plan p) tt x.2) tt gone >;
  c_fold (fun _ p => createPlan brokerID p) tt s.2.

(** [brokerUpdateCatalogInterceptor.OnTxUpdate], around the update of the broker itself, for a
    broker with the services of its new catalog; the offerings it returns. *)
Definition OnTxUpdate_broker (f : ServiceBroker -> cat unit) (oldBroker newBroker : ServiceBroker)
    (services : list (ServiceOffering * list ServicePlan)) : cat (ServiceBroker * list ServiceOffering) :=
  cat! known <- (fun w =>
    match Load (base_ID (br_Base oldBroker)) w with
    | (w', Err e) => (w', Err (EPlain ("error getting catalog for broker with id " ++ base_ID (br_Base oldBroker) ++
                                       " from SM DB: " ++ Error e)))
    | r => r
    end);
  cat! reused <- c_lift (reuseReferenceInstancePlans (br_Catalog newBroker) known services);
  let '(catalog, services) := reused in
  let newBroker := set_br_Catalog newBroker catalog in
  f newBroker >;
  let brokerID := base_ID (br_Base newBroker) in
  let '(existingOfferings, existingPlans) := convertExistingServiceOfferingsToMaps known in
  let '(catalogServices, catalogPlans) := getBrokerCatalogServicesAndPlans services in
  cat! s <- resync_offerings brokerID existingOfferings catalogServices catalogPlans;
  resync_plans brokerID existingPlans (rs_plans s) >;
  c_ret (newBroker, rs_done s).
End Catalogs.
