(* ===== verification/CatalogProps.v ===== *)
(** * The resynchronization of a catalog, loop by loop

    What each loop of the update of a catalog has done to the rows of the two tables once it
    returns, for any start; no loop is followed further than that here. *)

From S2P Require Import Prelude GoStd Errors Labels OperationTypes DomainTypes WorldMonad Catalog.
From stdpp Require Import base gmap strings list.
From Stdlib Require Import ZArith.
Local Open Scope string_scope.

Section Storage.
Context `{CatalogEnv}.
Lemma storage_ok {A} (f : gmap string ServiceOffering * gmap string ServicePlan ->
    (gmap string ServiceOffering * gmap string ServicePlan) * result A) w w' a :
  c_storage f w = (w', Ok a) -> f (cw_offerings w, cw_plans w) = ((cw_offerings w', cw_plans w'), Ok a).
Proof.
  unfold c_storage. destruct (cat_fault _); [discriminate|].
  destruct (f _) as [[o p] r]. by intros [= <- <-].
Qed.
Definition same_rows (w w' : catalog_world) : Prop := cw_offerings w' = cw_offerings w /\ cw_plans w' = cw_plans w.
Lemma outside_same {A} (f : nat -> result A) w w' r : c_outside f w = (w', r) -> same_rows w w'.
Proof. by intros [= <- _]. Qed.

Lemma create_offering_ok x w w' u : create_offering x w = (w', Ok u) ->
  cw_offerings w !! so_ID x = None /\ cw_offerings w' = <[so_ID x := x]> (cw_offerings w) /\ cw_plans w' = cw_plans w.
Proof. intros E%storage_ok. destruct (cw_offerings w !! so_ID x); by simplify_eq. Qed.
Lemma create_plan_ok x w w' u : create_plan x w = (w', Ok u) ->
  cw_plans w !! sp_ID x = None /\ cw_plans w' = <[sp_ID x := x]> (cw_plans w) /\ cw_offerings w' = cw_offerings w.
Proof. intros E%storage_ok. destruct (cw_plans w !! sp_ID x); by simplify_eq. Qed.
Lemma update_offering_ok x w w' y : update_offering x w = (w', Ok y) ->
  (exists now, y = reidentified_offering x (so_ID x) (base_CreatedAt (so_Base x)) now) /\
  (exists row, cw_offerings w !! so_ID x = Some row /\ cw_offerings w' = <[so_ID x := kept_offering row y]> (cw_offerings w)) /\
  cw_plans w' = cw_plans w.
Proof.
  intros (w1 & now & [Ho Hp]%outside_same & E)%c_bind_ok. apply storage_ok in E. rewrite Ho, Hp in E.
  change (so_ID (reidentified_offering x (so_ID x) (base_CreatedAt (so_Base x)) now)) with (so_ID x) in E.
  destruct (cw_offerings w !! so_ID x); [|discriminate]. injection E as <- <- <-. split_and!; eauto.
Qed.
Lemma update_plan_ok x w w' y : update_plan x w = (w', Ok y) ->
  (exists now, y = reidentified_plan x (sp_ID x) (base_CreatedAt (sp_Base x)) now) /\
  (exists row, cw_plans w !! sp_ID x = Some row /\ cw_plans w' = <[sp_ID x := kept_plan row y]> (cw_plans w)) /\
  cw_offerings w' = cw_offerings w.
Proof.
  intros (w1 & now & [Ho Hp]%outside_same & E)%c_bind_ok. apply storage_ok in E. rewrite Ho, Hp in E.
  change (sp_ID (reidentified_plan x (sp_ID x) (base_CreatedAt (sp_Base x)) now)) with (sp_ID x) in E.
  destruct (cw_plans w !! sp_ID x); [|discriminate]. injection E as <- <- <-. split_and!; eauto.
Qed.
Lemma delete_offering_ok id w w' u : delete_offering id w = (w', Ok u) ->
  cw_offerings w' = delete id (cw_offerings w) /\
  cw_plans w' = filter (fun kv => sp_ServiceOfferingID kv.2 <> id) (cw_plans w).
Proof. intros E%storage_ok. destruct (cw_offerings w !! id); by simplify_eq. Qed.

(** The storage says that a row is not found only of a row that is not there. *)
Definition honest_storage : Prop := forall n, cat_fault n <> Some ENotFoundInStorage.
Lemma delete_known_ok (Honest : honest_storage) p w w' u : delete_known_plan p w = (w', Ok u) ->
  cw_offerings w' = cw_offerings w /\ cw_plans w' = delete (sp_ID p) (cw_plans w).
Proof.
  unfold delete_known_plan, delete_plan, c_storage. destruct (cat_fault _) as [e|] eqn:Hf.
  - destruct e; try discriminate. by destruct (Honest _ Hf).
  - destruct (cw_plans w !! sp_ID p) eqn:Hp; [by intros [= <- _]|].
    intros [= <- _]. by rewrite delete_id.
Qed.
Lemma hasShared_same planID w w' b : planHasSharedInstances planID w = (w', Ok b) -> same_rows w w'.
Proof. intros (w1 & n & E & E')%c_bind_ok. apply storage_ok in E. injection E as Ho Hp _. c_inv. by split. Qed.

(** ** Ranging over a map *)
Definition ranges_permute : Prop := forall n l, range_order n l ≡ₚ l.
Lemma range_map_ok {A} (Ranges : ranges_permute) (m : gmap string A) w w' l :
  range_map m w = (w', Ok l) ->
  same_rows w w' /\ NoDup l.*1 /\ forall k x, (k, x) ∈ l <-> m !! k = Some x.
Proof.
  intros [= <- <-]. split; [done|]. apply ranged_map, Ranges.
Qed.
End Storage.

(** ** The loops over the offerings of a catalog

    What the three loops over offerings (update what is known, delete what is gone, create what
    is new) have done to the two tables when they return, and what they hand to the loops over
    plans. *)
(** What has become of an offering of the catalog: a known one keeps its id and the time it
    was created at. *)
Definition resynced_offering (existing : gmap string ServiceOffering) (x o : ServiceOffering) : Prop :=
  exists id created updated, o = reidentified_offering x id created updated /\
    forall e, existing !! so_CatalogID x = Some e -> id = so_ID e /\ created = base_CreatedAt (so_Base e).
(** Its row: a known one keeps what an update does not write. *)
Definition stored_offering (existing : gmap string ServiceOffering) (o : ServiceOffering) : ServiceOffering :=
  match existing !! so_CatalogID o with Some e => kept_offering e o | None => o end.
Lemma stored_fields existing o :
  so_ID (stored_offering existing o) = so_ID o /\ so_BrokerID (stored_offering existing o) = so_BrokerID o /\
  so_CatalogID (stored_offering existing o) = so_CatalogID o.
Proof. unfold stored_offering. by destruct (existing !! so_CatalogID o). Qed.
Lemma resynced_fields existing x o : resynced_offering existing x o ->
  so_CatalogID o = so_CatalogID x /\ so_BrokerID o = so_BrokerID x.
Proof. by intros (id & c & u & -> & _). Qed.
Lemma resynced_known existing x o e : resynced_offering existing x o -> existing !! so_CatalogID x = Some e -> so_ID o = so_ID e.
Proof. intros (id & c & u & -> & Hk) He. by destruct (Hk e He) as [-> _]. Qed.
Lemma resynced_elem existing pre l o : Forall2 (resynced_offering existing) pre l -> o ∈ l ->
  exists x, x ∈ pre /\ resynced_offering existing x o.
Proof.
  intros Hf Ho. apply list_elem_of_lookup_1 in Ho as (i & Hi).
  destruct (Forall2_lookup_r _ _ _ _ _ Hf Hi) as (x & Hx & Hr). eauto using list_elem_of_lookup_2.
Qed.
Lemma resynced_elem_r existing pre l x : Forall2 (resynced_offering existing) pre l -> x ∈ pre ->
  exists o, o ∈ l /\ resynced_offering existing x o.
Proof.
  intros Hf Hx. apply list_elem_of_lookup_1 in Hx as (i & Hi).
  destruct (Forall2_lookup_l _ _ _ _ _ Hf Hi) as (o & Ho & Hr). eauto using list_elem_of_lookup_2.
Qed.
Lemma resynced_ids existing pre l : Forall2 (resynced_offering existing) pre l ->
  so_CatalogID <$> l = so_CatalogID <$> pre.
Proof.
  induction 1 as [|x o pre l Hr _ IH]; [done|]. change (so_CatalogID o :: (so_CatalogID <$> l) = so_CatalogID x :: (so_CatalogID <$> pre)).
  by rewrite (proj1 (resynced_fields _ _ _ Hr)), IH.
Qed.

(** ** Deleting and creating in a loop *)
Section Rows.
Context `{CatalogEnv}.
Lemma delete_loop gone w w' u :
  c_fold (fun _ x => delete_offering (so_ID (x.2 : ServiceOffering))) tt gone w = (w', Ok u) ->
  (forall id, cw_offerings w' !! id = if decide (id ∈ (fun x : string * ServiceOffering => so_ID x.2) <$> gone)
                                      then None else cw_offerings w !! id) /\
  (forall k p, cw_plans w' !! k = Some p <-> cw_plans w !! k = Some p /\
     sp_ServiceOfferingID p ∉ (fun x : string * ServiceOffering => so_ID x.2) <$> gone).
Proof.
  intros E. pattern gone, u, w'. eapply c_fold_ok; [| |exact E]; clear E u w'.
  - split; [done|]. intros k p. set_solver.
  - intros pre x post u wa u' wb _ [Ho Hp] (Eo & Ep)%delete_offering_ok. rewrite fmap_app. split.
    + intros id. rewrite Eo, lookup_delete, Ho. repeat case_decide; set_solver.
    + intros k p. rewrite Ep, map_lookup_filter_Some, Hp. simpl. set_solver.
Qed.

Lemma create_loop l w w' u : c_fold (fun _ o => create_offering o) tt l w = (w', Ok u) ->
  cw_plans w' = cw_plans w /\
  (forall o, o ∈ l -> cw_offerings w' !! so_ID o = Some o /\ cw_offerings w !! so_ID o = None) /\
  (forall id x, cw_offerings w' !! id = Some x -> cw_offerings w !! id = Some x \/ x ∈ l /\ so_ID x = id) /\
  (forall id x, cw_offerings w !! id = Some x -> cw_offerings w' !! id = Some x).
Proof.
  intros E. pattern l, u, w'. eapply c_fold_ok; [| |exact E]; clear E u w'.
  - split_and!; auto. intros o Ho. by inversion Ho.
  - intros pre x post u wa u' wb _ (Hp & Hc & Hb & Hk) (Hn & Eo & Ep)%create_offering_ok. rewrite Eo, Ep.
    assert (Hfresh : cw_offerings w !! so_ID x = None).
    { destruct (cw_offerings w !! so_ID x) eqn:Ew; [|done]. apply Hk in Ew. congruence. }
    split; [done|]. split; [|split].
    + intros o [Ho| ->%list_elem_of_singleton]%elem_of_app; [|by rewrite lookup_insert_eq].
      destruct (Hc o Ho) as [Hw ?]. rewrite lookup_insert_ne; [done|]. congruence.
    + intros id y. rewrite lookup_insert_Some. intros [[<- <-]|[_ Hy]]; [right; set_solver|].
      destruct (Hb id y Hy) as [?|[? ?]]; [by left|right; set_solver].
    + intros id y Hy. apply Hk in Hy as Hy'. rewrite lookup_insert_ne; [done|]. congruence.
Qed.
End Rows.

(** ** Updating in a loop *)
Section Loop.
Context `{CatalogEnv} `{JSONQueries}.
Variables (brokerID : string) (existing : gmap string ServiceOffering) (plans : gmap string (list ServicePlan)).
Variable w0 : catalog_world.
Variable services : list ServiceOffering.
Hypothesis Services_once : NoDup (so_CatalogID <$> services).
Hypothesis Known_ids : forall c e c' e', existing !! c = Some e -> existing !! c' = Some e' -> so_ID e = so_ID e' -> c = c'.
Hypothesis Known_rows : forall c e, existing !! c = Some e -> cw_offerings w0 !! so_ID e = Some e.

Record offerings_met (pre : list ServiceOffering) (s : resync) (w : catalog_world) : Prop := {
  met_plans : cw_plans w = cw_plans w0;
  met_existing : forall c, rs_existing s !! c = if decide (c ∈ so_CatalogID <$> pre) then None else existing !! c;
  met_done : Forall2 (resynced_offering existing) pre (rs_done s);
  met_create : rs_create s = filter (fun o => existing !! so_CatalogID o = None) (rs_done s);
  met_plans_set : forall o, o ∈ rs_done s ->
    rs_plans s !! so_CatalogID o = (fmap (set_offering_of_plan (so_ID o))) <$> plans !! so_CatalogID o;
  met_plans_left : forall c, c ∉ so_CatalogID <$> pre -> rs_plans s !! c = plans !! c;
  met_updated : forall o, o ∈ rs_done s -> is_Some (existing !! so_CatalogID o) ->
    cw_offerings w !! so_ID o = Some (stored_offering existing o);
  met_kept : forall id, (forall o, o ∈ rs_done s -> is_Some (existing !! so_CatalogID o) -> so_ID o <> id) ->
    cw_offerings w !! id = cw_offerings w0 !! id
}.

(** The plans after an offering is done. *)
Lemma plans_set_step pre s w x o (v := match rs_plans s !! so_CatalogID o with
    | Some ps => <[so_CatalogID o := set_offering_of_plan (so_ID o) <$> ps]> (rs_plans s) | None => rs_plans s end) :
  offerings_met pre s w -> so_CatalogID o = so_CatalogID x -> so_CatalogID x ∉ so_CatalogID <$> pre ->
  (forall o', o' ∈ (rs_done s ++ [o])%list -> v !! so_CatalogID o' = (fmap (set_offering_of_plan (so_ID o'))) <$> plans !! so_CatalogID o') /\
  (forall c, c ∉ so_CatalogID <$> (pre ++ [x])%list -> v !! c = plans !! c).
Proof.
  intros M Hc Hx. pose proof (met_plans_left _ _ _ M _ Hx) as Hl. rewrite <- Hc in Hl, Hx.
  assert (Hv : forall c, v !! c = if decide (c = so_CatalogID o)
                 then (fmap (set_offering_of_plan (so_ID o))) <$> plans !! c else rs_plans s !! c).
  { intros c. subst v. rewrite Hl. case_decide as Hd; [subst c|]; destruct (plans !! so_CatalogID o) eqn:E; simpl;
      rewrite ?E; [by rewrite lookup_insert_eq|by rewrite Hl|by rewrite lookup_insert_ne by congruence|done]. }
  split.
  - intros o' Ho'. rewrite Hv. apply elem_of_app in Ho' as [Ho'| ->%list_elem_of_singleton]; [|by rewrite decide_True].
    destruct (decide (so_CatalogID o' = so_CatalogID o)) as [Hd|Hd]; [|by apply (met_plans_set _ _ _ M)].
    destruct Hx. rewrite <- Hd, <- (resynced_ids _ _ _ (met_done _ _ _ M)). by apply list_elem_of_fmap_2.
  - intros c Hcn. rewrite fmap_app, not_elem_of_app in Hcn. destruct Hcn as [Hcn Hcx]. rewrite Hv, decide_False.
    + by apply (met_plans_left _ _ _ M).
    + rewrite Hc. intros ->. destruct Hcx. by apply list_elem_of_singleton.
Qed.

(** The known offerings that are left after an offering is done. *)
Lemma existing_step pre s w x : offerings_met pre s w -> forall c,
  base.delete (so_CatalogID x) (rs_existing s) !! c = if decide (c ∈ so_CatalogID <$> (pre ++ [x])%list) then None else existing !! c.
Proof.
  intros M c. rewrite lookup_delete, (met_existing _ _ _ M), fmap_app.
  repeat case_decide; simpl in *; set_solver.
Qed.
Lemma existing_absent pre s w x : offerings_met pre s w -> rs_existing s !! so_CatalogID x = None ->
  so_CatalogID x ∉ so_CatalogID <$> pre -> existing !! so_CatalogID x = None.
Proof. intros M Hn Hx. rewrite (met_existing _ _ _ M) in Hn. by rewrite decide_False in Hn. Qed.

Lemma done_apart pre s w x e :
  offerings_met pre s w -> so_CatalogID x ∉ so_CatalogID <$> pre -> existing !! so_CatalogID x = Some e ->
  forall o', o' ∈ rs_done s -> is_Some (existing !! so_CatalogID o') -> so_ID o' <> so_ID e.
Proof.
  intros M Hx He o' (x' & Hx' & Hr)%(resynced_elem _ _ _ _ (met_done _ _ _ M)) [e' He'].
  rewrite (proj1 (resynced_fields _ _ _ Hr)) in He'. rewrite (resynced_known _ _ _ _ Hr He'). intros Heq.
  apply Hx. rewrite (Known_ids _ _ _ _ He He' (eq_sym Heq)). by apply list_elem_of_fmap_2.
Qed.
Lemma known_step pre s w x e now (o := reidentified_offering x (so_ID e) (base_CreatedAt (so_Base e)) now) w1 :
  offerings_met pre s w -> so_CatalogID x ∉ so_CatalogID <$> pre -> existing !! so_CatalogID x = Some e ->
  cw_offerings w1 = <[so_ID o := kept_offering e o]> (cw_offerings w) -> cw_plans w1 = cw_plans w ->
  offerings_met (pre ++ [x])%list {| rs_existing := base.delete (so_CatalogID o) (rs_existing s); rs_create := rs_create s;
      rs_done := (rs_done s ++ [o])%list;
      rs_plans := match rs_plans s !! so_CatalogID o with
        | Some ps => <[so_CatalogID o := set_offering_of_plan (so_ID o) <$> ps]> (rs_plans s) | None => rs_plans s end |} w1.
Proof.
  intros M Hx He Ho Hp. destruct (plans_set_step pre s w x o M eq_refl Hx) as [Hs Hl].
  pose proof (done_apart pre s w x e M Hx He) as Hne.
  assert (Hst : stored_offering existing o = kept_offering e o)
    by (unfold stored_offering; change (so_CatalogID o) with (so_CatalogID x); by rewrite He).
  constructor; simpl; try done.
  - by rewrite Hp, (met_plans _ _ _ M).
  - apply (existing_step _ _ _ x M).
  - apply Forall2_app; [apply M|]. constructor; [|constructor]. do 3 eexists. split; [done|]. intros e' He'. by simplify_eq.
  - rewrite filter_app, <- (met_create _ _ _ M). rewrite filter_cons_False; [by rewrite app_nil_r|].
    change (existing !! so_CatalogID x <> None). by rewrite He.
  - intros o' [Ho'| ->%list_elem_of_singleton]%elem_of_app Hk; rewrite Ho; [|by rewrite lookup_insert_eq, Hst].
    rewrite lookup_insert_ne; [by apply (met_updated _ _ _ M)|]. intros Heq. by apply (Hne o').
  - intros id Hid. rewrite Ho, lookup_insert_ne.
    + apply (met_kept _ _ _ M). intros o' Ho'. apply Hid. by apply elem_of_app; left.
    + apply Hid; [apply elem_of_app; right; by apply list_elem_of_singleton|]. change (is_Some (existing !! so_CatalogID x)). by rewrite He.
Qed.
Lemma new_step pre s w x id (o := reidentified_offering x id (base_CreatedAt (so_Base x)) (base_UpdatedAt (so_Base x))) w1 :
  offerings_met pre s w -> so_CatalogID x ∉ so_CatalogID <$> pre -> rs_existing s !! so_CatalogID x = None ->
  same_rows w w1 ->
  offerings_met (pre ++ [x])%list {| rs_existing := rs_existing s; rs_create := (rs_create s ++ [o])%list;
      rs_done := (rs_done s ++ [o])%list;
      rs_plans := match rs_plans s !! so_CatalogID o with
        | Some ps => <[so_CatalogID o := set_offering_of_plan (so_ID o) <$> ps]> (rs_plans s) | None => rs_plans s end |} w1.
Proof.
  intros M Hx Hn [Ho Hp]. destruct (plans_set_step pre s w x o M eq_refl Hx) as [Hs Hl].
  pose proof (existing_absent _ _ _ _ M Hn Hx) as He.
  constructor; simpl; try done.
  - by rewrite Hp, (met_plans _ _ _ M).
  - intros c. rewrite <- (existing_step _ _ _ x M), delete_id; done.
  - apply Forall2_app; [apply M|]. constructor; [|constructor]. do 3 eexists. split; [done|]. by rewrite He.
  - rewrite filter_app, <- (met_create _ _ _ M). by rewrite filter_cons_True.
  - intros o' [Ho'| ->%list_elem_of_singleton]%elem_of_app Hk; rewrite Ho; [by apply (met_updated _ _ _ M)|].
    change (is_Some (existing !! so_CatalogID x)) in Hk. rewrite He in Hk. by destruct Hk.
  - intros id' Hid. rewrite Ho. apply (met_kept _ _ _ M). intros o' Ho'. apply Hid. by apply elem_of_app; left.
Qed.

Lemma offerings_loop s' w' :
  c_fold (resync_offering brokerID) {| rs_existing := existing; rs_create := []; rs_done := []; rs_plans := plans |} services w0
    = (w', Ok s') -> offerings_met services s' w'.
Proof.
  intros E. eapply c_fold_ok; [| |exact E].
  - constructor; simpl; try (by constructor); try done; by intros o Ho; inversion Ho.
  - clear E s' w'. intros pre x post s w s1 w1 Hl M E.
    assert (Hx : so_CatalogID x ∉ so_CatalogID <$> pre).
    { pose proof Services_once as Hn. rewrite Hl, fmap_app in Hn. apply NoDup_app in Hn as (_ & Hd & _).
      intros Hin. apply (Hd _ Hin). by left. }
    clear Hl.
    unfold resync_offering in E. destruct (rs_existing s !! so_CatalogID x) as [e|] eqn:He; c_inv.
    + match goal with E : update_offering _ _ = _ |- _ => apply update_offering_ok in E as ((now & ->) & (row & Hrow & Ho) & Hp) end.
      assert (Hex : existing !! so_CatalogID x = Some e) by (rewrite (met_existing _ _ _ M) in He; by case_decide).
      change (cw_offerings w !! so_ID e = Some row) in Hrow.
      rewrite (met_kept _ _ _ M), (Known_rows _ _ Hex) in Hrow by by apply (done_apart pre s w x e).
      injection Hrow as <-. exact (known_step pre s w x e now _ M Hx Hex Ho Hp).
    + match goal with E : new_uuid _ = _ |- _ => apply outside_same in E end. by apply (new_step pre s w).
Qed.
End Loop.

(** ** The offerings of a broker after the three loops *)
Section Synced.
Context `{CatalogEnv} `{JSONQueries}.
Variables (brokerID : string) (existing : gmap string ServiceOffering) (plans : gmap string (list ServicePlan)).
Variable w0 : catalog_world.
Variable services : list ServiceOffering.
Hypothesis Ranges : ranges_permute.
Hypothesis Services_once : NoDup (so_CatalogID <$> services).
Hypothesis Services_broker : forall x, x ∈ services -> so_BrokerID x = brokerID.
(** The known offerings are the rows of the broker. *)
Hypothesis Known : forall c e, existing !! c = Some e <->
  cw_offerings w0 !! so_ID e = Some e /\ so_BrokerID e = brokerID /\ so_CatalogID e = c.
Hypothesis Keys : forall id x, cw_offerings w0 !! id = Some x -> so_ID x = id.

Definition gone_offering (id : string) : Prop :=
  exists e, existing !! so_CatalogID e = Some e /\ so_CatalogID e ∉ so_CatalogID <$> services /\ so_ID e = id.
Record offerings_synced (s : resync) (w : catalog_world) : Prop := {
  sy_done : Forall2 (resynced_offering existing) services (rs_done s);
  sy_stored : forall o, o ∈ rs_done s -> cw_offerings w !! so_ID o = Some (stored_offering existing o);
  sy_rows : forall id x, cw_offerings w !! id = Some x ->
    (exists o, o ∈ rs_done s /\ so_ID o = id /\ x = stored_offering existing o) \/ cw_offerings w0 !! id = Some x /\ so_BrokerID x <> brokerID;
  sy_others : forall id x, cw_offerings w0 !! id = Some x -> so_BrokerID x <> brokerID -> cw_offerings w !! id = Some x;
  sy_plan_rows : forall k p, cw_plans w !! k = Some p <-> cw_plans w0 !! k = Some p /\ ~ gone_offering (sp_ServiceOfferingID p);
  sy_plans : forall c ps, rs_plans s !! c = Some ps <->
    (exists o qs, o ∈ rs_done s /\ so_CatalogID o = c /\ plans !! c = Some qs /\ ps = set_offering_of_plan (so_ID o) <$> qs) \/
    c ∉ so_CatalogID <$> services /\ plans !! c = Some ps;
  (** a new offering has an id that no offering had that is still there *)
  sy_fresh : forall o, o ∈ rs_done s -> existing !! so_CatalogID o = None ->
    forall x, cw_offerings w0 !! so_ID o = Some x -> gone_offering (so_ID o)
}.
Lemma known_ids c e c' e' : existing !! c = Some e -> existing !! c' = Some e' -> so_ID e = so_ID e' -> c = c'.
Proof. intros (H1 & _ & <-)%Known (H2 & _ & <-)%Known Heq. rewrite Heq in H1. by simplify_eq. Qed.


Section Deleted.
Variables (s : resync) (w1 w2 : catalog_world) (gone : list string).
Hypothesis Met : offerings_met existing plans w0 services s w1.
Hypothesis Gone : forall id, id ∈ gone <-> gone_offering id.
Hypothesis Deleted : forall id, cw_offerings w2 !! id = if decide (id ∈ gone) then None else cw_offerings w1 !! id.

Lemma done_known o e : o ∈ rs_done s -> existing !! so_CatalogID o = Some e ->
  so_ID o = so_ID e /\ so_CatalogID o ∈ so_CatalogID <$> services.
Proof.
  intros (x & Hx & Hr)%(resynced_elem _ _ _ _ (met_done _ _ _ _ _ _ Met)) He.
  destruct (resynced_fields _ _ _ Hr) as [Hc _]. rewrite Hc in He |- *.
  split; [by apply (resynced_known _ _ _ _ Hr)|by apply list_elem_of_fmap_2].
Qed.
(** A known offering of the catalog is not deleted. *)
Lemma done_not_gone o e : o ∈ rs_done s -> existing !! so_CatalogID o = Some e -> so_ID o ∉ gone.
Proof.
  intros Ho He (e' & He' & Hn & Hid)%Gone. destruct (done_known _ _ Ho He) as [Hie Hin].
  apply Hn. rewrite (known_ids _ _ _ _ He' He); congruence.
Qed.
Lemma kept_row o : o ∈ rs_done s -> is_Some (existing !! so_CatalogID o) ->
  cw_offerings w2 !! so_ID o = Some (stored_offering existing o).
Proof.
  intros Ho [e He]. rewrite Deleted, decide_False by by eapply done_not_gone. apply (met_updated _ _ _ _ _ _ Met); eauto.
Qed.
Lemma row_before id : (exists o, o ∈ rs_done s /\ is_Some (existing !! so_CatalogID o) /\ so_ID o = id) \/
  cw_offerings w1 !! id = cw_offerings w0 !! id.
Proof.
  destruct (decide (Exists (fun o => is_Some (existing !! so_CatalogID o) /\ so_ID o = id) (rs_done s))) as [Hx|Hx].
  - left. apply Exists_exists in Hx as (o & ? & ? & ?). eauto.
  - right. apply (met_kept _ _ _ _ _ _ Met). intros o Ho Hk Hid. apply Hx, Exists_exists. eauto.
Qed.
Lemma row_left id x : cw_offerings w2 !! id = Some x ->
  (exists o, o ∈ rs_done s /\ so_ID o = id /\ x = stored_offering existing o) \/ cw_offerings w0 !! id = Some x /\ so_BrokerID x <> brokerID.
Proof.
  rewrite Deleted. case_decide as Hg; [done|]. intros Hx.
  destruct (row_before id) as [(o & Ho & Hk & <-)|He].
  - rewrite (met_updated _ _ _ _ _ _ Met o Ho Hk) in Hx. simplify_eq. left. by exists o.
  - rewrite He in Hx. destruct (decide (so_BrokerID x = brokerID)) as [Hb|Hb]; [|by right]. left.
    pose proof (Keys _ _ Hx) as <-.
    assert (Hkn : existing !! so_CatalogID x = Some x) by by apply Known.
    destruct (decide (so_CatalogID x ∈ so_CatalogID <$> services)) as [(y & Hy & Hin)%list_elem_of_fmap|Hn].
    + destruct (resynced_elem_r _ _ _ _ (met_done _ _ _ _ _ _ Met) Hin) as (o & Ho & Hr).
      destruct (resynced_fields _ _ _ Hr) as [Hc _]. rewrite Hy, <- Hc in Hkn.
      pose proof (met_updated _ _ _ _ _ _ Met o Ho ltac:(eauto)) as Hup.
      rewrite (proj1 (done_known _ _ Ho Hkn)) in Hup. rewrite He, Hx in Hup. injection Hup as ->.
      exists o. split_and!; [done| |done]. by rewrite (proj1 (stored_fields existing o)).
    + destruct Hg. apply Gone. by exists x.
Qed.
Lemma other_left id x : cw_offerings w0 !! id = Some x -> so_BrokerID x <> brokerID -> cw_offerings w2 !! id = Some x.
Proof.
  intros Hx Hb. rewrite Deleted, decide_False.
  - destruct (row_before id) as [(o & Ho & [e He] & <-)|He]; [|by rewrite He].
    rewrite (proj1 (done_known _ _ Ho He)) in Hx. apply Known in He as (He & Hbe & _). by simplify_eq.
  - intros (e & (He & Hbe & _)%Known & _ & <-)%Gone. by simplify_eq.
Qed.
Lemma fresh_left id x : cw_offerings w2 !! id = None -> cw_offerings w0 !! id = Some x -> gone_offering id.
Proof.
  rewrite Deleted. case_decide as Hg; [by intros; apply Gone|]. intros Hn Hx.
  destruct (row_before id) as [(o & Ho & Hk & <-)|He]; [|congruence].
  by rewrite (met_updated _ _ _ _ _ _ Met o Ho Hk) in Hn.
Qed.
Lemma plans_for c ps : rs_plans s !! c = Some ps <->
  (exists o qs, o ∈ rs_done s /\ so_CatalogID o = c /\ plans !! c = Some qs /\ ps = set_offering_of_plan (so_ID o) <$> qs) \/
  c ∉ so_CatalogID <$> services /\ plans !! c = Some ps.
Proof.
  destruct (decide (c ∈ so_CatalogID <$> services)) as [Hc|Hc].
  - pose proof Hc as Hd. rewrite <- (resynced_ids _ _ _ (met_done _ _ _ _ _ _ Met)) in Hd.
    apply list_elem_of_fmap in Hd as (o & -> & Ho). rewrite (met_plans_set _ _ _ _ _ _ Met o Ho).
    rewrite fmap_Some. split.
    + intros (qs & Hq & ->). left. by exists o, qs.
    + intros [(o' & qs & Ho' & Hi & Hq & ->)|[? _]]; [|done]. exists qs. split; [done|].
      replace o' with o; [done|]. pose proof Services_once as Hnd.
      rewrite <- (resynced_ids _ _ _ (met_done _ _ _ _ _ _ Met)) in Hnd.
      by apply (NoDup_fmap_elem so_CatalogID (rs_done s)).
  - rewrite (met_plans_left _ _ _ _ _ _ Met c Hc). split; [by right|].
    intros [(o & qs & Ho & <- & _)|[_ ?]]; [|done]. destruct Hc.
    rewrite <- (resynced_ids _ _ _ (met_done _ _ _ _ _ _ Met)). by apply list_elem_of_fmap_2.
Qed.
End Deleted.

Lemma offerings_resynced s w : resync_offerings brokerID existing services plans w0 = (w, Ok s) -> offerings_synced s w.
Proof.
  intros E. unfold resync_offerings in E.
  apply c_bind_ok in E as (w1 & s1 & E1 & E). apply offerings_loop in E1 as M; [|done|by apply known_ids|by intros c e (? & _)%Known].
  apply c_bind_ok in E as (w2 & gone & ([Ho1 Hp1] & _ & Hg)%range_map_ok & E); [|done].
  apply c_bind_ok in E as (w3 & u & [Ho2 Hp2]%delete_loop & E).
  apply c_bind_ok in E as (w4 & u' & (Hp3 & Hc & Hb & Hk)%create_loop & [-> ->]%c_ret_ok).
  rewrite Ho1 in Ho2. set (ids := (fun x : string * ServiceOffering => so_ID x.2) <$> gone) in *.
  assert (Gone : forall id, id ∈ ids <-> gone_offering id).
  { intros id. unfold ids. rewrite list_elem_of_fmap. split.
    - intros ([c e] & -> & Hin). apply Hg in Hin. rewrite (met_existing _ _ _ _ _ _ M) in Hin.
      case_decide as Hd; [done|]. exists e. assert (so_CatalogID e = c) as -> by (apply Known in Hin; naive_solver). done.
    - intros (e & He & Hn & <-). exists (so_CatalogID e, e). split; [done|]. apply Hg.
      by rewrite (met_existing _ _ _ _ _ _ M), decide_False. }
  assert (New : forall o, o ∈ rs_create s1 <-> o ∈ rs_done s1 /\ existing !! so_CatalogID o = None).
  { intros o. rewrite (met_create _ _ _ _ _ _ M), list_elem_of_filter. tauto. }
  constructor.
  - apply (met_done _ _ _ _ _ _ M).
  - intros o Ho. destruct (existing !! so_CatalogID o) as [e|] eqn:He.
    + apply Hk, (kept_row _ _ _ _ M Gone Ho2); eauto.
    + unfold stored_offering. rewrite He. by apply Hc, New.
  - intros id x [Hx|[Hx Hid]]%Hb; [by apply (row_left _ _ _ _ M Gone Ho2)|].
    apply New in Hx as [Hx Hn]. left. exists x. split_and!; [done..|]. unfold stored_offering. by rewrite Hn.
  - intros id x Hx Hne. by apply Hk, (other_left _ _ _ _ M Gone Ho2).
  - intros k p. rewrite Hp3, Hp2, Hp1, (met_plans _ _ _ _ _ _ M), <- Gone. done.
  - intros c ps. apply (plans_for _ _ M).
  - intros o Ho Hn x Hx. apply (fresh_left _ _ _ _ M Gone Ho2 _ x); [|done]. by apply Hc, New.
Qed.
End Synced.
