(* ===== verification/CatalogPlans.v ===== *)
(** * The loops over the plans of a catalog

    What the loops over plans (update what is known, delete what is gone, create what is new)
    have done to the table of plans when they return. *)

From S2P Require Import Prelude GoStd Errors Labels OperationTypes DomainTypes WorldMonad Catalog CatalogProps.
From stdpp Require Import base gmap strings list.
From Stdlib Require Import ZArith.
Local Open Scope string_scope.

(** The plans of a map from services to plans. *)
Definition plans_at (m : gmap string (list ServicePlan)) (c : string) : list ServicePlan := default [] (m !! c).
Notation keyed := (fun x : string * ServicePlan => (x.1, sp_CatalogID x.2)).

(** What has become of a plan of the catalog: a known one keeps its id, the time it was
    created at, and what an update does not write. *)
Definition resynced_plan (known : list ServicePlan) (p q : ServicePlan) : Prop :=
  exists id created updated row, q = kept_plan row (reidentified_plan p id created updated) /\
    (forall k, k ∈ known -> sp_CatalogID k = sp_CatalogID p -> id = sp_ID k /\ created = base_CreatedAt (sp_Base k) /\ row = k) /\
    ((forall k, k ∈ known -> sp_CatalogID k <> sp_CatalogID p) -> row = p).

Lemma matching_some catalogID l k : matching_plan catalogID l = Some k -> k ∈ l /\ sp_CatalogID k = catalogID.
Proof.
  intros Hm%last_Some_elem_of. apply list_elem_of_In, List.filter_In in Hm as [Hi He].
  apply list_elem_of_In in Hi. by apply String.eqb_eq in He.
Qed.
Lemma matching_none catalogID l k : matching_plan catalogID l = None -> k ∈ l -> sp_CatalogID k <> catalogID.
Proof.
  intros Hm%last_None Hk Heq. cut (k ∈ ([] : list ServicePlan)); [intros Hn; inversion Hn|].
  rewrite <- Hm. apply list_elem_of_In, List.filter_In. split; [by apply list_elem_of_In|by apply String.eqb_eq].
Qed.
Lemma unmatched_elem catalogID l k :
  k ∈ List.filter (fun x => negb (String.eqb (sp_CatalogID x) catalogID)) l <-> k ∈ l /\ sp_CatalogID k <> catalogID.
Proof.
  rewrite !list_elem_of_In, List.filter_In, Bool.negb_true_iff, String.eqb_neq. done.
Qed.

(** ** Deleting and creating in a loop *)
Section Rows.
Context `{CatalogEnv} `{JSONQueries}.
Hypothesis Honest : honest_storage.
Lemma delete_plans_loop (gone : list (string * ServicePlan)) w w' u :
  c_fold (fun _ x => delete_known_plan x.2) tt gone w = (w', Ok u) ->
  cw_offerings w' = cw_offerings w /\
  forall id, cw_plans w' !! id = if decide (id ∈ (fun x : string * ServicePlan => sp_ID x.2) <$> gone) then None else cw_plans w !! id.
Proof.
  intros E. pattern gone, u, w'. eapply c_fold_ok; [| |exact E]; clear E u w'.
  - by split.
  - intros pre x post u wa u' wb _ [Ho Hp] (Eo & Ep)%delete_known_ok; [|done]. rewrite fmap_app. split; [congruence|].
    intros id. rewrite Ep, lookup_delete, Hp. repeat case_decide; set_solver.
Qed.
(** A plan as it is created. *)
Definition new_plan (p : ServicePlan) (id : string) : ServicePlan :=
  reidentified_plan p id (base_CreatedAt (sp_Base p)) (base_UpdatedAt (sp_Base p)).
Lemma create_plans_loop brokerID l w w' u : c_fold (fun _ p => createPlan brokerID p) tt l w = (w', Ok u) ->
  cw_offerings w' = cw_offerings w /\
  (exists made : list (ServicePlan * string), made.*1 = l /\
     (forall p id, (p, id) ∈ made -> cw_plans w' !! id = Some (new_plan p id)) /\
     (forall id q, cw_plans w' !! id = Some q -> cw_plans w !! id = Some q \/
        exists p, (p, id) ∈ made /\ q = new_plan p id)) /\
  (forall id q, cw_plans w !! id = Some q -> cw_plans w' !! id = Some q).
Proof.
  intros E. pattern l, u, w'. eapply c_fold_ok; [| |exact E]; clear E u w'.
  - split_and!; auto. exists []. split_and!; auto. intros p id Hi. inversion Hi.
  - intros pre x post u wa u' wb _ (Ho & (made & Hlen & Hc & Hb) & Hk) E. unfold createPlan in E.
    apply c_bind_ok in E as (w1 & id & [Ho1 Hp1]%outside_same & E).
    apply c_bind_ok in E as (w2 & u2 & ->%valid_or_ok & (Hn & Ep & Eo)%create_plan_ok).
    fold (new_plan x id) in Hn, Ep. change (sp_ID (new_plan x id)) with id in *. rewrite Hp1 in Hn, Ep.
    rewrite Ep. split; [congruence|]. split.
    + exists (made ++ [(x, id)])%list. rewrite fmap_app, Hlen. split; [done|]. split.
      * intros p i [Hi|[= -> ->]%list_elem_of_singleton]%elem_of_app; [|by rewrite lookup_insert_eq].
        rewrite lookup_insert_ne; [by apply Hc|]. intros <-. by rewrite (Hc p id Hi) in Hn.
      * intros i q. rewrite lookup_insert_Some. intros [[<- <-]|[_ Hq]].
        -- right. exists x. split; [|done]. apply elem_of_app. right. by apply list_elem_of_singleton.
        -- destruct (Hb i q Hq) as [?|(p & Hp & ?)]; [by left|right]. exists p. split; [|done]. apply elem_of_app. by left.
    + intros i q Hq. apply Hk in Hq. rewrite lookup_insert_ne; [done|]. congruence.
Qed.
End Rows.

(** ** Updating in a loop *)
Section Loop.
Context `{CatalogEnv} `{JSONQueries}.
Variables (brokerID : string) (existing : gmap string (list ServicePlan)) (w0 : catalog_world).
Variable catalog : list (string * ServicePlan).
Hypothesis Catalog_once : NoDup (keyed <$> catalog).
Hypothesis Known_ids : forall c k c' k', k ∈ plans_at existing c -> k' ∈ plans_at existing c' -> sp_ID k = sp_ID k' -> c = c' /\ k = k'.
Hypothesis Known_once : forall c k k', k ∈ plans_at existing c -> k' ∈ plans_at existing c -> sp_CatalogID k = sp_CatalogID k' -> k = k'.
Hypothesis Known_rows : forall c k q, k ∈ plans_at existing c -> cw_plans w0 !! sp_ID k = Some q -> q = k.

Definition updates (x : string * ServicePlan) (id : string) : Prop :=
  Exists (fun k => sp_CatalogID k = sp_CatalogID x.2 /\ sp_ID k = id) (plans_at existing x.1).
Instance updates_dec x id : Decision (updates x id).
Proof. unfold updates. apply _. Defined.
Record plans_met (pre : list (string * ServicePlan)) (s : gmap string (list ServicePlan) * list ServicePlan) (w : catalog_world) : Prop := {
  pm_offerings : cw_offerings w = cw_offerings w0;
  pm_existing : forall c k, k ∈ plans_at s.1 c <-> k ∈ plans_at existing c /\ (c, sp_CatalogID k) ∉ keyed <$> pre;
  pm_create : s.2 = snd <$> filter (fun x => Forall (fun k => sp_CatalogID k <> sp_CatalogID x.2) (plans_at existing x.1)) pre;
  pm_updated : forall c p k, (c, p) ∈ pre -> k ∈ plans_at existing c -> sp_CatalogID k = sp_CatalogID p ->
    exists now, cw_plans w !! sp_ID k = Some (kept_plan k (reidentified_plan p (sp_ID k) (base_CreatedAt (sp_Base k)) now));
  pm_kept : forall id, (forall x, x ∈ pre -> ~ updates x id) -> cw_plans w !! id = cw_plans w0 !! id
}.

Lemma not_updated_step pre s w c p : plans_met pre s w -> (c, sp_CatalogID p) ∉ keyed <$> pre ->
  (forall k, k ∈ plans_at s.1 c -> sp_CatalogID k <> sp_CatalogID p) ->
  plans_met (pre ++ [(c, p)])%list (s.1, (s.2 ++ [p])%list) w.
Proof.
  intros M Hn Hk.
  assert (Hu : forall k, k ∈ plans_at existing c -> sp_CatalogID k <> sp_CatalogID p).
  { intros k Hin Heq. apply (Hk k); [|done]. apply (pm_existing _ _ _ M). by rewrite Heq. }
  constructor; simpl.
  - apply M.
  - intros c' k. rewrite (pm_existing _ _ _ M), fmap_app, not_elem_of_app. split; [|tauto].
    intros [Hi Hp]. split_and!; try done. intros [= -> Heq]%list_elem_of_singleton. by apply (Hu k).
  - rewrite (pm_create _ _ _ M), filter_app, fmap_app. by rewrite (filter_cons_True _ (c, p)) by (apply Forall_forall, Hu).
  - intros c' q k [Hin|[= -> ->]%list_elem_of_singleton]%elem_of_app Hin' Heq; [by apply (pm_updated _ _ _ M c')|].
    by destruct (Hu k).
  - intros id Hid. apply (pm_kept _ _ _ M). intros x Hx. apply Hid. set_solver.
Qed.
Lemma updated_step pre s w w1 c p k now l row :
  plans_met pre s w -> (c, sp_CatalogID p) ∉ keyed <$> pre -> s.1 !! c = Some l -> k ∈ l -> sp_CatalogID k = sp_CatalogID p ->
  cw_plans w !! sp_ID k = Some row ->
  cw_plans w1 = <[sp_ID k := kept_plan row (reidentified_plan p (sp_ID k) (base_CreatedAt (sp_Base k)) now)]> (cw_plans w) ->
  cw_offerings w1 = cw_offerings w ->
  plans_met (pre ++ [(c, p)])%list
    (<[c := List.filter (fun x => negb (String.eqb (sp_CatalogID x) (sp_CatalogID p))) l]> s.1, s.2) w1.
Proof.
  intros M Hn Hl Hk Heq Hrow Ep Eo.
  assert (Hke : k ∈ plans_at existing c).
  { apply (pm_existing _ _ _ M). unfold plans_at. by rewrite Hl. }
  assert (Hother : forall x, x ∈ pre -> ~ updates x (sp_ID k)).
  { intros [c' p'] Hin (k' & Hk' & Heq' & Hid)%Exists_exists. simpl in *.
    destruct (Known_ids _ _ _ _ Hk' Hke Hid) as [-> ->]. apply Hn. rewrite <- Heq, Heq'.
    by apply (list_elem_of_fmap_2 keyed _ (c, p')). }
  rewrite (pm_kept _ _ _ M _ Hother) in Hrow. rewrite (Known_rows _ _ _ Hke Hrow) in Ep. clear Hrow.
  constructor; simpl.
  - rewrite Eo. apply M.
  - intros c' k'. rewrite fmap_app, not_elem_of_app. pose proof (pm_existing _ _ _ M c' k') as Hm. unfold plans_at at 1.
    destruct (decide (c' = c)) as [->|Hc].
    + rewrite lookup_insert_eq. simpl. rewrite unmatched_elem. unfold plans_at at 1 in Hm. rewrite Hl in Hm. simpl in Hm.
      rewrite Hm. simpl. rewrite list_elem_of_singleton. split.
      * intros [[? ?] Hne]. split_and!; try done. congruence.
      * intros (? & ? & Hne). split_and!; try done. congruence.
    + rewrite lookup_insert_ne by done. fold (plans_at s.1 c'). rewrite Hm. simpl. rewrite list_elem_of_singleton. split.
      * intros [? ?]. split_and!; try done. congruence.
      * by intros (? & ? & _).
  - rewrite (pm_create _ _ _ M), filter_app, (filter_cons_False _ (c, p)), app_nil_r; [done|].
    rewrite Forall_forall. intros Hu. by apply (Hu k).
  - intros c' q k' [Hin|[= -> ->]%list_elem_of_singleton]%elem_of_app Hin' Heq'; rewrite Ep.
    + destruct (pm_updated _ _ _ M c' q k' Hin Hin' Heq') as (n & Hq). exists n. rewrite lookup_insert_ne; [done|].
      intros Hid. apply (Hother _ Hin). apply Exists_exists. by exists k'.
    + exists now. rewrite (Known_once c k' k) by congruence. by rewrite lookup_insert_eq.
  - intros id Hid. rewrite Ep, lookup_insert_ne.
    + apply (pm_kept _ _ _ M). intros x Hx. apply Hid. set_solver.
    + intros <-. apply (Hid (c, p)); [set_solver|]. apply Exists_exists. by exists k.
Qed.

Lemma plans_loop s' w' :
  c_fold (fun s x => resync_plan brokerID x.1 s x.2) (existing, []) catalog w0 = (w', Ok s') -> plans_met catalog s' w'.
Proof.
  intros E. eapply c_fold_ok; [| |exact E]; clear E s' w'.
  - constructor; simpl; try done; [set_solver|intros c p k Hin; inversion Hin].
  - intros pre [c p] post s w s1 w1 Hl M E. simpl in E.
    assert (Hn : (c, sp_CatalogID p) ∉ keyed <$> pre).
    { pose proof Catalog_once as Hn. rewrite Hl, fmap_app in Hn. apply NoDup_app in Hn as (_ & Hd & _).
      intros Hin. apply (Hd _ Hin). by left. }
    clear Hl. destruct s as [ex cr]. unfold resync_plan in E. destruct (ex !! c) as [l|] eqn:He.
    + destruct (matching_plan (sp_CatalogID p) l) as [k|] eqn:Hm.
      * apply matching_some in Hm as [Hk Heq].
        apply c_bind_ok in E as (w2 & sh & [Ho Hp]%hasShared_same & E).
        destruct (sh && _); [discriminate|]. c_inv.
        match goal with E : update_plan _ _ = _ |- _ => apply update_plan_ok in E as ((now & ->) & (row & Hrow & Ep) & Eo) end.
        rewrite Hp in Hrow, Ep. rewrite Ho in Eo. exact (updated_step pre (ex, cr) w _ c p k now l row M Hn He Hk Heq Hrow Ep Eo).
      * c_inv. apply (not_updated_step pre (ex, cr)); try done. intros k Hk. apply (matching_none _ l); [done|].
        unfold plans_at in Hk. simpl in Hk. by rewrite He in Hk.
    + c_inv. apply (not_updated_step pre (ex, cr)); try done. intros k Hk. unfold plans_at in Hk. simpl in Hk.
      rewrite He in Hk. inversion Hk.
Qed.
End Loop.

(** ** The plans after the loops *)
Section Synced.
Context `{CatalogEnv} `{JSONQueries}.
Variables (brokerID : string) (existing plans : gmap string (list ServicePlan)) (w0 : catalog_world).
Hypothesis Honest : honest_storage.
Hypothesis Ranges : ranges_permute.
Hypothesis Plans_once : forall c ps, plans !! c = Some ps -> NoDup (sp_CatalogID <$> ps).
Hypothesis Known_ids : forall c k c' k', k ∈ plans_at existing c -> k' ∈ plans_at existing c' -> sp_ID k = sp_ID k' -> c = c' /\ k = k'.
Hypothesis Known_once : forall c k k', k ∈ plans_at existing c -> k' ∈ plans_at existing c -> sp_CatalogID k = sp_CatalogID k' -> k = k'.
Hypothesis Known_rows : forall c k q, k ∈ plans_at existing c -> cw_plans w0 !! sp_ID k = Some q -> q = k.
(** The offering of a service: that of its plans, and of no others but known ones. *)
Variable parent : string -> string.
Hypothesis Parents : forall c p, p ∈ plans_at plans c -> sp_ServiceOfferingID p = parent c.
Hypothesis Parents_once : forall c c' p p', p ∈ plans_at plans c -> p' ∈ plans_at plans c' -> parent c = parent c' -> c = c'.

Definition unknown_id (id : string) : Prop := forall c k, k ∈ plans_at existing c -> sp_ID k <> id.
Record plans_synced (w : catalog_world) : Prop := {
  ps_offerings : cw_offerings w = cw_offerings w0;
  ps_stored : forall c p, p ∈ plans_at plans c -> exists q, cw_plans w !! sp_ID q = Some q /\ resynced_plan (plans_at existing c) p q;
  ps_rows : forall id q, cw_plans w !! id = Some q ->
    (exists c p, p ∈ plans_at plans c /\ resynced_plan (plans_at existing c) p q /\ sp_ID q = id) \/
    cw_plans w0 !! id = Some q /\ unknown_id id;
  ps_others : forall id q, cw_plans w0 !! id = Some q -> unknown_id id -> cw_plans w !! id = Some q;
  ps_once : forall i j q q', cw_plans w !! i = Some q -> cw_plans w !! j = Some q' ->
    ~ (cw_plans w0 !! i = Some q /\ unknown_id i) -> ~ (cw_plans w0 !! j = Some q' /\ unknown_id j) ->
    sp_ServiceOfferingID q = sp_ServiceOfferingID q' -> sp_CatalogID q = sp_CatalogID q' -> i = j
}.

(** The pairs of a service and a plan of a map that was ranged over. *)
Definition pairs (l : list (string * list ServicePlan)) : list (string * ServicePlan) := l ≫= fun x => pair x.1 <$> x.2.
Lemma pairs_elem (m : gmap string (list ServicePlan)) l c p :
  (forall k ps, (k, ps) ∈ l <-> m !! k = Some ps) -> (c, p) ∈ pairs l <-> p ∈ plans_at m c.
Proof.
  intros Hl. unfold pairs, plans_at. rewrite list_elem_of_bind. split.
  - intros ([c' ps] & (p' & [= <- <-] & Hp)%list_elem_of_fmap & Hin). apply Hl in Hin. simpl in *. by rewrite Hin.
  - destruct (m !! c) as [ps|] eqn:Hm; simpl; [|intros Hn; inversion Hn]. intros Hp. exists (c, ps).
    split; [by apply (list_elem_of_fmap_2 (pair c))|]. by apply Hl.
Qed.
Lemma pairs_once l : NoDup l.*1 -> (forall c ps, (c, ps) ∈ l -> NoDup (sp_CatalogID <$> ps)) -> NoDup (keyed <$> pairs l).
Proof.
  induction l as [|[c ps] l IH]; simpl; intros Hn Hp; [constructor|]. apply NoDup_cons in Hn as [Hc Hn].
  unfold pairs. simpl. rewrite fmap_app. fold (pairs l). apply NoDup_app. split_and!.
  - rewrite <- list_fmap_compose. assert (Heq : keyed ∘ pair c <$> ps = pair c <$> (sp_CatalogID <$> ps))
      by by rewrite <- list_fmap_compose.
    rewrite Heq. apply NoDup_fmap_2; [intros ? ? [= ?]; done|]. apply (Hp c). by left.
  - intros k ([c1 p1] & -> & (p2 & [= -> ->] & _)%list_elem_of_fmap)%list_elem_of_fmap.
    intros ([c3 p3] & [= -> _] & ([c4 qs] & (p4 & [= -> _] & _)%list_elem_of_fmap & Hin)%list_elem_of_bind)%list_elem_of_fmap.
    simpl in *. apply Hc. by apply (list_elem_of_fmap_2 fst _ (c4, qs)).
  - apply IH; [done|]. intros c' qs Hin. apply (Hp c'). by right.
Qed.

Section Deleted.
Variables (catalog gone : list (string * ServicePlan)) (s : gmap string (list ServicePlan) * list ServicePlan) (w1 w2 : catalog_world).
Hypothesis Catalog : forall c p, (c, p) ∈ catalog <-> p ∈ plans_at plans c.
Hypothesis Met : plans_met existing w0 catalog s w1.
Hypothesis Gone : forall c k, (c, k) ∈ gone <-> k ∈ plans_at s.1 c.
Hypothesis Deleted : forall id, cw_plans w2 !! id =
  if decide (id ∈ (fun x : string * ServicePlan => sp_ID x.2) <$> gone) then None else cw_plans w1 !! id.

Lemma known_stays c p k : p ∈ plans_at plans c -> k ∈ plans_at existing c -> sp_CatalogID k = sp_CatalogID p ->
  exists q, cw_plans w2 !! sp_ID q = Some q /\ resynced_plan (plans_at existing c) p q /\ sp_ID q = sp_ID k.
Proof.
  intros Hp Hk Heq. apply Catalog in Hp. destruct (pm_updated _ _ _ _ _ Met c p k Hp Hk Heq) as (now & Hq).
  exists (kept_plan k (reidentified_plan p (sp_ID k) (base_CreatedAt (sp_Base k)) now)). split; [|split].
  - rewrite Deleted, decide_False; [exact Hq|]. intros ([c' k'] & Hid & Hin)%list_elem_of_fmap.
    apply Gone, (pm_existing _ _ _ _ _ Met) in Hin as [Hin Hn]. simpl in Hid.
    destruct (Known_ids _ _ _ _ Hk Hin Hid) as [-> ->]. apply Hn. rewrite Heq.
    by apply (list_elem_of_fmap_2 keyed _ (c', p)).
  - exists (sp_ID k), (base_CreatedAt (sp_Base k)), now, k. split_and!; [done| |].
    + intros k' Hk' Heq'. by rewrite (Known_once c k' k) by congruence.
    + intros Hn. by destruct (Hn k Hk Heq).
  - done.
Qed.
(** Where a row comes from: it was updated, or it is none of the known ones. *)
Definition updated_row (id : string) (q : ServicePlan) : Prop := exists c p k,
  p ∈ plans_at plans c /\ k ∈ plans_at existing c /\ sp_CatalogID k = sp_CatalogID p /\ sp_ID k = id /\
  resynced_plan (plans_at existing c) p q /\ sp_ID q = id.
Lemma plan_left id q : cw_plans w2 !! id = Some q -> updated_row id q \/ cw_plans w0 !! id = Some q /\ unknown_id id.
Proof.
  intros Hq. destruct (decide (Exists (fun x => updates existing x id) catalog)) as [Hu|Hu].
  - left. apply Exists_exists in Hu as ([c p] & Hin & (k & Hk & Heq & <-)%Exists_exists). apply Catalog in Hin.
    destruct (known_stays c p k Hin Hk Heq) as (q' & Hq' & Hr & Hid). rewrite Hid in Hq'. simplify_eq.
    by exists c, p, k.
  - right. rewrite Deleted in Hq. case_decide as Hg; [done|].
    rewrite (pm_kept _ _ _ _ _ Met) in Hq by (intros x Hx Hux; apply Hu, Exists_exists; eauto).
    split; [done|]. intros c k Hk <-.
    destruct (decide ((c, sp_CatalogID k) ∈ keyed <$> catalog)) as [([c' p] & [= <- Heq] & Hin)%list_elem_of_fmap|Hn].
    + apply Hu, Exists_exists. exists (c, p). split; [done|]. apply Exists_exists. by exists k.
    + apply Hg, list_elem_of_fmap. exists (c, k). split; [done|]. by apply Gone, (pm_existing _ _ _ _ _ Met).
Qed.
Lemma other_plan_left id q : cw_plans w0 !! id = Some q -> unknown_id id -> cw_plans w2 !! id = Some q.
Proof.
  intros Hq Hu. rewrite Deleted, decide_False.
  - rewrite (pm_kept _ _ _ _ _ Met); [done|]. intros [c p] _ (k & Hk & _ & Hid)%Exists_exists. by apply (Hu c k).
  - intros ([c k] & -> & Hin)%list_elem_of_fmap. apply Gone, (pm_existing _ _ _ _ _ Met) in Hin as [Hin _]. by apply (Hu c k).
Qed.

(** A plan that is created was not known. *)
Lemma to_create p : p ∈ s.2 <-> exists c, p ∈ plans_at plans c /\
  forall k, k ∈ plans_at existing c -> sp_CatalogID k <> sp_CatalogID p.
Proof.
  rewrite (pm_create _ _ _ _ _ Met), list_elem_of_fmap. split.
  - intros ([c p'] & -> & [Hf Hin]%list_elem_of_filter). exists c. split; [by apply Catalog|]. by rewrite Forall_forall in Hf.
  - intros (c & Hp & Hf). exists (c, p). split; [done|]. apply list_elem_of_filter. split; [by apply Forall_forall|].
    by apply Catalog.
Qed.
Lemma new_resynced c p id : (forall k, k ∈ plans_at existing c -> sp_CatalogID k <> sp_CatalogID p) ->
  resynced_plan (plans_at existing c) p (new_plan p id).
Proof.
  intros Hn. exists id, (base_CreatedAt (sp_Base p)), (base_UpdatedAt (sp_Base p)), p. split_and!; [reflexivity| |done].
  intros k Hk Heq. by destruct (Hn k).
Qed.
Lemma create_once : NoDup (keyed <$> catalog) -> NoDup ((fun p => (sp_ServiceOfferingID p, sp_CatalogID p)) <$> s.2).
Proof.
  intros Hn. rewrite (pm_create _ _ _ _ _ Met), <- list_fmap_compose.
  assert (Hsub : filter (fun x => Forall (fun k => sp_CatalogID k <> sp_CatalogID x.2) (plans_at existing x.1)) catalog ⊆ catalog).
  { intros x [_ Hx]%list_elem_of_filter. done. }
  assert (Hf : NoDup (keyed <$> filter (fun x => Forall (fun k => sp_CatalogID k <> sp_CatalogID x.2) (plans_at existing x.1)) catalog)).
  { eapply sublist_NoDup; [exact Hn|]. apply fmap_sublist, sublist_filter. }
  revert Hsub Hf. generalize (filter (fun x => Forall (fun k => sp_CatalogID k <> sp_CatalogID x.2) (plans_at existing x.1)) catalog).
  intros l Hsub Hf. induction l as [|[c p] l IH]; [constructor|]. apply NoDup_cons in Hf as [Hc Hf]. constructor.
  - intros ([c' p'] & [= Ho Hid] & Hin)%list_elem_of_fmap. apply Hc. simpl.
    assert (Hp : (c, p) ∈ catalog) by (apply Hsub; by left). assert (Hp' : (c', p') ∈ catalog) by (apply Hsub; by right).
    apply Catalog in Hp, Hp'. rewrite (Parents _ _ Hp), (Parents _ _ Hp') in Ho.
    rewrite (Parents_once _ _ _ _ Hp Hp' Ho), Hid. by apply (list_elem_of_fmap_2 keyed _ (c', p')).
  - apply IH; [|done]. intros x Hx. apply Hsub. by right.
Qed.
End Deleted.

(** Plans of the catalog with one offering and one catalog id are one plan of one service. *)
Lemma one_plan c p c' p' : p ∈ plans_at plans c -> p' ∈ plans_at plans c' ->
  sp_ServiceOfferingID p = sp_ServiceOfferingID p' -> sp_CatalogID p = sp_CatalogID p' -> c = c' /\ p = p'.
Proof.
  intros Hp Hp' Ho Hid. rewrite (Parents _ _ Hp), (Parents _ _ Hp') in Ho.
  destruct (Parents_once _ _ _ _ Hp Hp' Ho). split; [done|].
  unfold plans_at in Hp, Hp'. destruct (plans !! c) as [ps|] eqn:E; [|by inversion Hp].
  by apply (NoDup_fmap_elem sp_CatalogID ps); [by apply (Plans_once c)|..].
Qed.
Lemma resynced_plan_fields known p q : resynced_plan known p q ->
  sp_ServiceOfferingID q = sp_ServiceOfferingID p /\ sp_CatalogID q = sp_CatalogID p.
Proof. by intros (id & c & u & row & -> & _). Qed.
Lemma updated_once i j q q' : updated_row i q -> updated_row j q' ->
  sp_ServiceOfferingID q = sp_ServiceOfferingID q' -> sp_CatalogID q = sp_CatalogID q' -> i = j.
Proof.
  intros (c & p & k & Hp & Hk & He & Hi & [Ho Hc]%resynced_plan_fields & _).
  intros (c' & p' & k' & Hp' & Hk' & He' & Hj & [Ho' Hc']%resynced_plan_fields & _) Hoo Hcc.
  destruct (one_plan c p c' p') as [<- <-]; try congruence.
  rewrite <- Hi, <- Hj. f_equal. apply (Known_once c); congruence.
Qed.

Lemma plans_resynced w u : resync_plans brokerID existing plans w0 = (w, Ok u) -> plans_synced w.
Proof.
  intros E. unfold resync_plans in E.
  apply c_bind_ok in E as (w1 & byService & ([Ho1 Hp1] & Hnd & Hl)%range_map_ok & E); [|done].
  apply c_bind_ok in E as (w2 & s & E2%(c_fold_nested (fun s c p => resync_plan brokerID c s p)) & E).
  assert (Hkeys : NoDup (keyed <$> pairs byService)) by (apply pairs_once; [done|intros c ps ?%Hl; eauto]).
  apply plans_loop in E2 as M; [|done..|by rewrite Hp1].
  apply c_bind_ok in E as (w3 & goneBy & ([Ho3 Hp3] & _ & Hl3)%range_map_ok & E); [|done].
  apply c_bind_ok in E as (w4 & u4 & E4 & E).
  rewrite (c_fold_ext _ (fun u x => c_fold (fun _ p => delete_known_plan p) u x.2)) in E4 by by intros [].
  apply (c_fold_nested (fun _ _ p => delete_known_plan p)) in E4. apply delete_plans_loop in E4 as [Ho4 Hp4]; [|done].
  apply create_plans_loop in E as (Ho5 & (made & Hmade & Hc & Hb) & Hk).
  assert (M0 : plans_met existing w0 (pairs byService) s w2).
  { destruct M as [M1 M2 M3 M4 M5]. constructor; try done; [congruence|]. intros id Hid. rewrite (M5 id Hid). congruence. }
  assert (Hcat : forall c p, (c, p) ∈ pairs byService <-> p ∈ plans_at plans c) by (intros; by apply pairs_elem).
  assert (Hgone : forall c p, (c, p) ∈ pairs goneBy <-> p ∈ plans_at s.1 c) by (intros; by apply pairs_elem).
  rewrite Hp3 in Hp4.
  assert (Hnew : forall p id, (p, id) ∈ made -> exists c, p ∈ plans_at plans c /\
            forall k, k ∈ plans_at existing c -> sp_CatalogID k <> sp_CatalogID p).
  { intros p id Hin. apply (to_create _ _ _ Hcat M0). rewrite <- Hmade. by apply (list_elem_of_fmap_2 fst _ (p, id)). }
  constructor.
  - rewrite Ho5, Ho4, Ho3. apply M0.
  - intros c p Hp. destruct (decide (Exists (fun k => sp_CatalogID k = sp_CatalogID p) (plans_at existing c))) as [Hx|Hx].
    + apply Exists_exists in Hx as (k & Hin & Heq).
      destruct (known_stays _ _ _ _ _ Hcat M0 Hgone Hp4 c p k Hp Hin Heq) as (q & Hq & Hr & _). eauto.
    + assert (Hnk : forall k, k ∈ plans_at existing c -> sp_CatalogID k <> sp_CatalogID p).
      { intros k Hin Heq. apply Hx, Exists_exists. eauto. }
      assert (Hin : p ∈ made.*1) by (rewrite Hmade; apply (to_create _ _ _ Hcat M0); eauto).
      apply list_elem_of_fmap in Hin as ([p' id] & -> & Hin). exists (new_plan p' id).
      split; [by apply Hc|by apply new_resynced].
  - intros id q [[(c & p & k & Hp & _ & _ & _ & Hr & Hid)|?]%(plan_left _ _ _ _ _ Hcat M0 Hgone Hp4)|(p & Hp & ->)]%Hb;
      [left; by exists c, p|by right|].
    left. destruct (Hnew p id Hp) as (c & Hpc & Hn). exists c, p. split_and!; [done|by apply new_resynced|done].
  - intros id q Hq Hu. by apply Hk, (other_plan_left _ _ _ _ _ M0 Hgone Hp4).
  - assert (Hcross : forall i j q p, updated_row i q -> (p, j) ∈ made -> sp_ServiceOfferingID q = sp_ServiceOfferingID p ->
              sp_CatalogID q = sp_CatalogID p -> i = j).
    { intros i j q p (c & p1 & k & Hp1' & Hk1 & He & _ & [Ho1' Hc1]%resynced_plan_fields & _) Hin Hoo Hcc.
      destruct (Hnew p j Hin) as (c' & Hp' & Hn).
      destruct (one_plan c p1 c' p) as [<- <-]; try congruence. by destruct (Hn k). }
    intros i j q q' [[Hq|?]%(plan_left _ _ _ _ _ Hcat M0 Hgone Hp4)|(p & Hp & ->)]%Hb
      [[Hq'|?]%(plan_left _ _ _ _ _ Hcat M0 Hgone Hp4)|(p' & Hp' & ->)]%Hb Hni Hnj Hoo Hcc; try done.
    + by apply (updated_once i j q q').
    + by apply (Hcross i j q p').
    + symmetry. by apply (Hcross j i q' p).
    + assert (Heq : (p, i) = (p', j)); [|by injection Heq].
      pose proof (create_once _ _ _ Hcat M0 Hkeys) as Hnd'. rewrite <- Hmade, <- list_fmap_compose in Hnd'.
      apply (NoDup_fmap_elem _ _ _ _ Hnd' Hp Hp'). simpl. by f_equal.
Qed.
End Synced.
