(* ===== verification/CatalogTheorems.v ===== *)
(** * After the update of a broker its catalog is in line with the tables

    [OnTxUpdate] as a whole: the rows of the broker are those of the new catalog, under their
    old ids where they were known; the rows of other brokers are as they were; and the
    constraints of the two tables hold again. *)

From S2P Require Import Prelude GoStd Errors Labels OperationTypes DomainTypes WorldMonad Catalog CatalogProps CatalogPlans.
From stdpp Require Import base gmap strings list pretty.
From Stdlib Require Import ZArith.
Local Open Scope string_scope.

(** ** The constraints of the tables service_offerings and service_plans *)
Record catalog_rows (w : catalog_world) : Prop := {
  row_offering : forall id x, cw_offerings w !! id = Some x -> so_ID x = id;
  row_plan : forall id p, cw_plans w !! id = Some p -> sp_ID p = id;
  row_parent : forall id p, cw_plans w !! id = Some p -> is_Some (cw_offerings w !! sp_ServiceOfferingID p);
  row_offering_once : forall i j x y, cw_offerings w !! i = Some x -> cw_offerings w !! j = Some y ->
    so_BrokerID x = so_BrokerID y -> so_CatalogID x = so_CatalogID y -> i = j;
  row_plan_once : forall i j p q, cw_plans w !! i = Some p -> cw_plans w !! j = Some q ->
    sp_ServiceOfferingID p = sp_ServiceOfferingID q -> sp_CatalogID p = sp_CatalogID q -> i = j
}.

(** An offering, or a plan of it, as it was stored for the broker before. *)
Definition known_offering (w : catalog_world) (brokerID catalogID : string) (e : ServiceOffering) : Prop :=
  cw_offerings w !! so_ID e = Some e /\ so_BrokerID e = brokerID /\ so_CatalogID e = catalogID.
Definition known_plan (w : catalog_world) (brokerID catalogID : string) (k : ServicePlan) : Prop :=
  cw_plans w !! sp_ID k = Some k /\ exists e, known_offering w brokerID catalogID e /\ sp_ServiceOfferingID k = so_ID e.

Definition offering_in_line (w : catalog_world) (brokerID : string) (x o : ServiceOffering) : Prop :=
  exists id created updated, o = reidentified_offering x id created updated /\
    forall e, known_offering w brokerID (so_CatalogID x) e -> id = so_ID e /\ created = base_CreatedAt (so_Base e).
Definition plan_in_line (w : catalog_world) (brokerID : string) (o : ServiceOffering) (p q : ServicePlan) : Prop :=
  exists id created updated row, q = kept_plan row (reidentified_plan (set_offering_of_plan (so_ID o) p) id created updated) /\
    (forall k, known_plan w brokerID (so_CatalogID o) k -> sp_CatalogID k = sp_CatalogID p ->
      id = sp_ID k /\ created = base_CreatedAt (sp_Base k) /\ row = k) /\
    ((forall k, known_plan w brokerID (so_CatalogID o) k -> sp_CatalogID k <> sp_CatalogID p) -> row = set_offering_of_plan (so_ID o) p).
(** The row of an offering of the result: a known one keeps what an update does not write. *)
Definition row_in_line (w : catalog_world) (brokerID : string) (o x : ServiceOffering) : Prop :=
  exists row, x = kept_offering row o /\ (forall e, known_offering w brokerID (so_CatalogID o) e -> row = e) /\
    ((forall e, ~ known_offering w brokerID (so_CatalogID o) e) -> row = o).

(** The tables [w'] are in line with a catalog, coming from [w]. *)
Record in_line (brokerID : string) (services : list (ServiceOffering * list ServicePlan)) (w w' : catalog_world)
    (done : list ServiceOffering) : Prop := {
  il_done : Forall2 (offering_in_line w brokerID) services.*1 done;
  il_offerings : forall id x, cw_offerings w' !! id = Some x /\ so_BrokerID x = brokerID <->
    exists o, o ∈ done /\ so_ID o = id /\ row_in_line w brokerID o x;
  il_other_offerings : forall id x, so_BrokerID x <> brokerID -> cw_offerings w' !! id = Some x <-> cw_offerings w !! id = Some x;
  il_plans : forall i x ps o, services !! i = Some (x, ps) -> done !! i = Some o ->
    (forall p, p ∈ ps -> exists q, cw_plans w' !! sp_ID q = Some q /\ plan_in_line w brokerID o p q) /\
    (forall id q, cw_plans w' !! id = Some q -> sp_ServiceOfferingID q = so_ID o ->
       exists p, p ∈ ps /\ plan_in_line w brokerID o p q);
  il_other_plans : forall id q y, cw_offerings w !! sp_ServiceOfferingID q = Some y -> so_BrokerID y <> brokerID ->
    cw_plans w' !! id = Some q <-> cw_plans w !! id = Some q
}.

(** ** Maps built in a loop *)
Lemma fold_insert_some {A B} (key : A -> string) (val : A -> B) l c v :
  foldl (fun m x => <[key x := val x]> m) (∅ : gmap string B) l !! c = Some v -> exists x, x ∈ l /\ key x = c /\ val x = v.
Proof.
  induction l as [|y l IH] using rev_ind; [done|]. rewrite foldl_snoc, lookup_insert_Some.
  intros [[<- <-]|[_ (x & ? & ? & ?)%IH]]; [exists y|exists x]; set_solver.
Qed.
Lemma fold_insert_in {A B} (key : A -> string) (val : A -> B) l x :
  (forall y z, y ∈ l -> z ∈ l -> key y = key z -> val y = val z) -> x ∈ l ->
  foldl (fun m x => <[key x := val x]> m) (∅ : gmap string B) l !! key x = Some (val x).
Proof.
  induction l as [|y l IH] using rev_ind; intros Hk Hx; [inversion Hx|]. rewrite foldl_snoc.
  destruct (decide (key y = key x)) as [He|He].
  - rewrite He, lookup_insert_eq. f_equal. apply Hk; set_solver.
  - rewrite lookup_insert_ne by done. apply IH; [|set_solver]. intros ? ? ? ?. apply Hk; set_solver.
Qed.
Lemma fold_append_in (a : string) (ps : list ServicePlan) m c k :
  k ∈ plans_at (foldl (fun m p => <[a := (default [] (m !! a) ++ [p])%list]> m) m ps) c <->
  k ∈ plans_at m c \/ a = c /\ k ∈ ps.
Proof.
  revert m. induction ps as [|p ps IH]; intros m; simpl; [set_solver|]. rewrite IH. unfold plans_at at 1.
  destruct (decide (a = c)) as [<-|Hc].
  - rewrite lookup_insert_eq. simpl. unfold plans_at. rewrite elem_of_app, list_elem_of_singleton, elem_of_cons. tauto.
  - rewrite lookup_insert_ne by done. unfold plans_at. tauto.
Qed.
Lemma existing_plans_in (known : list (ServiceOffering * list ServicePlan)) c k :
  k ∈ plans_at (convertExistingServiceOfferingsToMaps known).2 c <->
  exists x ps, (x, ps) ∈ known /\ so_CatalogID x = c /\ k ∈ ps.
Proof.
  simpl. cut (forall m, k ∈ plans_at (foldl (fun m x => foldl (fun m p => <[so_CatalogID x.1 := (default [] (m !! so_CatalogID x.1) ++ [p])%list]> m) m x.2)
      m known) c <-> k ∈ plans_at m c \/ exists x ps, (x, ps) ∈ known /\ so_CatalogID x = c /\ k ∈ ps).
  { intros Hm. rewrite Hm. split; [intros [Hn|?]; [inversion Hn|done]|by right]. }
  induction known as [|[x ps] known IH]; intros m; simpl; [set_solver|]. rewrite IH, fold_append_in. simpl. split.
  - intros [[?|[? ?]]|(x' & ps' & ? & ? & ?)]; [by left|right; exists x, ps; set_solver|right; exists x', ps'; set_solver].
  - intros [?|(x' & ps' & [[= <- <-]|?]%elem_of_cons & ? & ?)]; [tauto|tauto|right; eauto].
Qed.

(** ** What is known, and what is reused *)
Section Known.
Context `{CatalogEnv} `{JSONQueries}.
Lemma Load_ok b w w1 known : catalog_rows w -> Load b w = (w1, Ok known) -> same_rows w w1 /\
  (forall x ps, (x, ps) ∈ known -> known_offering w b (so_CatalogID x) x /\
     forall p, p ∈ ps <-> cw_plans w !! sp_ID p = Some p /\ sp_ServiceOfferingID p = so_ID x) /\
  (forall c x, known_offering w b c x -> exists ps, (x, ps) ∈ known).
Proof.
  intros W E. unfold Load in E. apply c_bind_ok in E as (w2 & offerings & E1%storage_ok & E).
  injection E1 as Ho Hp Hl.
  assert (Hin : forall x, x ∈ offerings <-> cw_offerings w !! so_ID x = Some x /\ so_BrokerID x = b).
  { intros x. rewrite <- Hl, list_elem_of_In, List.filter_In, <- list_elem_of_In, list_elem_of_fmap, String.eqb_eq. split.
    - intros [([id y] & -> & Hy%elem_of_map_to_list) ?]. simpl in *. by rewrite (row_offering _ W _ _ Hy).
    - intros [Hx ?]. split; [|done]. exists (so_ID x, x). split; [done|]. by apply elem_of_map_to_list. }
  clear Hl. destruct offerings as [|o offerings].
  - c_inv. split; [done|]. split; [intros x ps Hn; inversion Hn|].
    intros c x (Hx & Hb & _). assert (Hn : x ∈ ([] : list ServiceOffering)) by by apply Hin. inversion Hn.
  - revert Hin E. generalize (o :: offerings). clear o offerings. intros offerings Hin E.
    apply c_bind_ok in E as (w3 & plans & E3%storage_ok & [-> ->]%c_ret_ok). injection E3 as Ho3 Hp3 Hl3.
    rewrite <- Hp in Hl3.
    split; [split; congruence|]. split.
    + intros x ps (y & [= -> ->] & Hy)%list_elem_of_fmap. apply Hin in Hy as Hy'. destruct Hy' as [Hrow Hb]. split; [done|].
      intros p. rewrite list_elem_of_In, List.filter_In, <- list_elem_of_In, String.eqb_eq, <- Hl3.
      rewrite list_elem_of_In, List.filter_In, <- list_elem_of_In, list_elem_of_fmap, bool_decide_eq_true. split.
      * intros [[([id q] & -> & Hq%elem_of_map_to_list) _] ?]. simpl in *. by rewrite (row_plan _ W _ _ Hq).
      * intros [Hq Hof]. split; [split|done].
        -- exists (sp_ID p, p). split; [done|]. by apply elem_of_map_to_list.
        -- rewrite Hof. by apply list_elem_of_fmap_2.
    + intros c x (Hx & Hb & _). eexists. apply list_elem_of_fmap. exists x. split; [done|]. by apply Hin.
Qed.

Lemma existing_known b w known c e :
  catalog_rows w -> (forall x ps, (x, ps) ∈ known -> known_offering w b (so_CatalogID x) x) ->
  (forall c x, known_offering w b c x -> exists ps, (x, ps) ∈ known) ->
  (convertExistingServiceOfferingsToMaps known).1 !! c = Some e <-> known_offering w b c e.
Proof.
  intros W Hk Hin. simpl. split.
  - intros ([x ps] & Hx & <- & <-)%fold_insert_some. by apply (Hk x ps).
  - intros He. destruct (Hin _ _ He) as (ps & Hp).
    assert (Hc : c = so_CatalogID e) by by destruct He as (_ & _ & ->). subst c.
    apply (fold_insert_in (fun x => so_CatalogID x.1) (fun x => x.1) known (e, ps)); [|done].
    intros [y qs] [z rs] (Hy & Hby & _)%Hk (Hz & Hbz & _)%Hk Heq. simpl in *.
    assert (Hid : so_ID y = so_ID z) by (eapply (row_offering_once _ W); eauto; congruence).
    rewrite Hid in Hy. congruence.
Qed.
Lemma existing_plans_known b w known c k :
  (forall x ps, (x, ps) ∈ known -> known_offering w b (so_CatalogID x) x /\
     forall p, p ∈ ps <-> cw_plans w !! sp_ID p = Some p /\ sp_ServiceOfferingID p = so_ID x) ->
  (forall c x, known_offering w b c x -> exists ps, (x, ps) ∈ known) ->
  k ∈ plans_at (convertExistingServiceOfferingsToMaps known).2 c <-> known_plan w b c k.
Proof.
  intros Hk Hin. rewrite existing_plans_in. split.
  - intros (x & ps & [Hx Hps]%Hk & <- & [Hrow Ho]%Hps). split; [done|]. by exists x.
  - intros (Hrow & e & He & Ho). destruct (Hin _ _ He) as (ps & Hp). exists e, ps. split; [done|].
    split; [by destruct He as (_ & _ & ->)|]. by apply (Hk e ps).
Qed.
Lemma catalog_plans_in (services : list (ServiceOffering * list ServicePlan)) c ps :
  NoDup (so_CatalogID <$> services.*1) ->
  (getBrokerCatalogServicesAndPlans services).2 !! c = Some ps <-> exists x, (x, ps) ∈ services /\ so_CatalogID x = c.
Proof.
  intros Hn. simpl. split.
  - intros ([x qs] & Hx & <- & <-)%fold_insert_some. by exists x.
  - intros (x & Hx & <-). apply (fold_insert_in (fun x => so_CatalogID x.1) (fun x => x.2) services (x, ps)); [|done].
    rewrite <- list_fmap_compose in Hn. intros y z Hy Hz Heq. by rewrite (NoDup_fmap_elem _ _ _ _ Hn Hy Hz Heq).
Qed.

Lemma reuse_keeps_services old s s' : reuse_service s old = Ok s' -> s'.2.*1 = s.2.*1.
Proof.
  unfold reuse_service. destruct s as [catalog services].
  destruct (List.find _ old.2) as [oldPlan|]; [|by intros [= <-]].
  destruct (service_index _ _ _) as [i|]; [|by intros [= <-]].
  destruct (services !! i) as [[service plans]|] eqn:Hi; [|by intros [= <-]].
  destruct (reuse_plan _ _ _) as [[j plans']|]; [|by intros [= <-]].
  intros (catalog' & _ & [= <-])%bind_ok. simpl. rewrite list_fmap_insert. simpl.
  apply list_insert_id. by rewrite list_lookup_fmap, Hi.
Qed.
Lemma reused_services catalog old services catalog' services' :
  reuseReferenceInstancePlans catalog old services = Ok (catalog', services') -> services'.*1 = services.*1.
Proof.
  intros E. change services' with ((catalog', services').2).
  apply (fold_result_inv (fun s => s.2.*1 = services.*1) _ _ _ _) in E; [done| |done].
  intros s x s' _ Hs Hr%reuse_keeps_services. by rewrite Hr.
Qed.
End Known.

(** ** From the loops to the tables *)
Section InLine.
Context `{CatalogEnv} `{JSONQueries}.
Hypothesis Honest : honest_storage.
Hypothesis Ranges : ranges_permute.
Variables (brokerID : string) (known services : list (ServiceOffering * list ServicePlan)) (w w1 w2 w' : catalog_world).
Variables (s : resync) (u : unit).
Hypothesis Rows : catalog_rows w.
Hypothesis Known_in : forall x ps, (x, ps) ∈ known -> known_offering w brokerID (so_CatalogID x) x /\
  forall p, p ∈ ps <-> cw_plans w !! sp_ID p = Some p /\ sp_ServiceOfferingID p = so_ID x.
Hypothesis Known_all : forall c x, known_offering w brokerID c x -> exists ps, (x, ps) ∈ known.
Hypothesis Services_once : NoDup (so_CatalogID <$> services.*1).
Hypothesis Services_broker : forall x, x ∈ services.*1 -> so_BrokerID x = brokerID.
Hypothesis Plans_once : forall x ps, (x, ps) ∈ services -> NoDup (sp_CatalogID <$> ps).
Hypothesis Start : same_rows w w1.
Hypothesis Offerings : resync_offerings brokerID (convertExistingServiceOfferingsToMaps known).1
  (getBrokerCatalogServicesAndPlans services).1 (getBrokerCatalogServicesAndPlans services).2 w1 = (w2, Ok s).
Hypothesis Plans : resync_plans brokerID (convertExistingServiceOfferingsToMaps known).2 (rs_plans s) w2 = (w', Ok u).

Local Notation existing := (convertExistingServiceOfferingsToMaps known).1.
Local Notation existing_plans := (convertExistingServiceOfferingsToMaps known).2.
Local Notation done := (rs_done s).

Lemma existing_iff c e : existing !! c = Some e <-> known_offering w brokerID c e.
Proof. apply existing_known; [done| |done]. intros x ps Hx. by apply (Known_in x ps). Qed.
Lemma existing_plans_iff c k : k ∈ plans_at existing_plans c <-> known_plan w brokerID c k.
Proof. by apply existing_plans_known. Qed.

Lemma synced : offerings_synced brokerID existing (getBrokerCatalogServicesAndPlans services).2 w services.*1 s w2.
Proof.
  destruct Start as [Ho Hp].
  assert (Hs : offerings_synced brokerID existing (getBrokerCatalogServicesAndPlans services).2 w1 services.*1 s w2).
  { apply offerings_resynced; try done; rewrite Ho; [apply existing_iff|apply (row_offering _ Rows)]. }
  destruct Hs as [S1 S2 S3 S4 S5 S6 S7]. rewrite Ho in S3, S4, S7. rewrite Hp in S5. by constructor.
Qed.

(** The offerings of the result are told apart by their catalog ids, and by their ids. *)
Lemma done_once o o' : o ∈ done -> o' ∈ done -> so_CatalogID o = so_CatalogID o' -> o = o'.
Proof.
  apply NoDup_fmap_elem. by rewrite (resynced_ids _ _ _ (sy_done _ _ _ _ _ _ _ synced)).
Qed.
Lemma done_ids o o' : o ∈ done -> o' ∈ done -> so_ID o = so_ID o' -> o = o'.
Proof.
  intros Ho Ho' Heq. apply done_once; [done..|].
  pose proof (sy_stored _ _ _ _ _ _ _ synced o Ho) as Hs. pose proof (sy_stored _ _ _ _ _ _ _ synced o' Ho') as Hs'.
  rewrite Heq, Hs' in Hs. pose proof (proj2 (proj2 (stored_fields existing o))) as E. pose proof (proj2 (proj2 (stored_fields existing o'))) as E'.
  congruence.
Qed.
Lemma done_broker o : o ∈ done -> so_BrokerID o = brokerID.
Proof.
  intros (x & Hx & Hr)%(resynced_elem _ _ _ _ (sy_done _ _ _ _ _ _ _ synced)).
  rewrite (proj2 (resynced_fields _ _ _ Hr)). by apply Services_broker.
Qed.

Lemma stored_broker o : o ∈ done -> so_BrokerID (stored_offering existing o) = brokerID.
Proof. intros Ho. destruct (stored_fields existing o) as (_ & -> & _). by apply done_broker. Qed.
Lemma stored_row o x : row_in_line w brokerID o x <-> x = stored_offering existing o.
Proof.
  unfold stored_offering. destruct (existing !! so_CatalogID o) as [e|] eqn:He.
  - pose proof (proj1 (existing_iff _ _) He) as Hk. split; [intros (row & -> & Hr & _); by rewrite (Hr e Hk)|].
    intros ->. exists e. split_and!; [done| |]; [|intros Hn; by destruct (Hn e)].
    intros e' He'. apply existing_iff in He'. congruence.
  - assert (Hn : forall e, ~ known_offering w brokerID (so_CatalogID o) e) by (intros e Hk%existing_iff; congruence).
    split; [intros (row & -> & _ & Hr); rewrite (Hr Hn); by destruct o as [[] ? ? ? ? ? ? ? ? ? ? ? ? ?]|].
    intros ->. exists o. split_and!; [by destruct o as [[] ? ? ? ? ? ? ? ? ? ? ? ? ?]| |done]. intros e Hk. by destruct (Hn e).
Qed.

(** The plans that go into the loops are those of the catalog under the offerings of the result. *)
Lemma catalog_plan c p : p ∈ plans_at (rs_plans s) c <-> exists o x ps p0,
  o ∈ done /\ so_CatalogID o = c /\ (x, ps) ∈ services /\ so_CatalogID x = c /\ p0 ∈ ps /\ p = set_offering_of_plan (so_ID o) p0.
Proof.
  unfold plans_at. split.
  - destruct (rs_plans s !! c) as [ps|] eqn:E; [|intros Hn; inversion Hn]. simpl. intros Hp.
    apply (sy_plans _ _ _ _ _ _ _ synced) in E as [(o & qs & Ho & Hc & Hq & ->)|[Hn Hq]].
    + apply catalog_plans_in in Hq as (x & Hx & Hxc); [|done]. apply list_elem_of_fmap in Hp as (p0 & -> & Hp0).
      by exists o, x, qs, p0.
    + apply catalog_plans_in in Hq as (x & Hx & <-); [|done]. destruct Hn. apply list_elem_of_fmap_2.
      by apply (list_elem_of_fmap_2 fst _ (x, ps)).
  - intros (o & x & ps & p0 & Ho & Hc & Hx & Hxc & Hp0 & ->).
    assert (E : rs_plans s !! c = Some (set_offering_of_plan (so_ID o) <$> ps)).
    { apply (sy_plans _ _ _ _ _ _ _ synced). left. exists o, ps. split_and!; try done. apply catalog_plans_in; eauto. }
    rewrite E. simpl. by apply list_elem_of_fmap_2.
Qed.
Definition parent (c : string) : string := default "" (so_ID <$> List.find (fun o => String.eqb (so_CatalogID o) c) done).
Lemma parent_done o : o ∈ done -> parent (so_CatalogID o) = so_ID o.
Proof.
  intros Ho. unfold parent. destruct (List.find _ _) as [o'|] eqn:E.
  - apply List.find_some in E as [Hin Heq]. apply String.eqb_eq in Heq. simpl. f_equal.
    apply done_once; [by apply list_elem_of_In|done|done].
  - apply (List.find_none _ _ E) in Ho as Hf || (apply list_elem_of_In in Ho; apply (List.find_none _ _ E) in Ho as Hf).
    by rewrite String.eqb_refl in Hf.
Qed.

Lemma plans_done : plans_synced existing_plans (rs_plans s) w2 w'.
Proof.
  eapply (plans_resynced brokerID existing_plans (rs_plans s) w2 Honest Ranges) with (parent := parent); [..|exact Plans].
  - intros c ps E. apply (sy_plans _ _ _ _ _ _ _ synced) in E as [(o & qs & _ & _ & Hq & ->)|[_ Hq]];
      apply catalog_plans_in in Hq as (x & Hx & _); try done; [|by apply (Plans_once x)].
    rewrite <- list_fmap_compose. by apply (Plans_once x).
  - intros c k c' k' (Hr & e & He & Ho)%existing_plans_iff (Hr' & e' & He' & Ho')%existing_plans_iff Heq.
    rewrite Heq in Hr. assert (k = k') as -> by congruence. split; [|done].
    destruct He as (He & _ & <-), He' as (He' & _ & <-). rewrite <- Ho in He. rewrite <- Ho' in He'. congruence.
  - intros c k k' (Hr & e & He & Ho)%existing_plans_iff (Hr' & e' & He' & Ho')%existing_plans_iff Heq.
    assert (Hid : sp_ID k = sp_ID k'); [|rewrite Hid in Hr; congruence].
    eapply (row_plan_once _ Rows); eauto. rewrite Ho, Ho'.
    destruct He as (He & Hb & Hc), He' as (He' & Hb' & Hc'). eapply (row_offering_once _ Rows); eauto; congruence.
  - intros c k q (Hr & _)%existing_plans_iff [Hq _]%(sy_plan_rows _ _ _ _ _ _ _ synced). congruence.
  - intros c p (o & x & ps & p0 & Ho & <- & _ & _ & _ & ->)%catalog_plan. by rewrite parent_done.
  - intros c c' p p' (o & x & ps & p0 & Ho & <- & _)%catalog_plan (o' & x' & ps' & p0' & Ho' & <- & _)%catalog_plan.
    rewrite !parent_done by done. intros Heq. by rewrite (done_ids o o').
Qed.

(** A plan that no loop touched was there before and is not of an offering of the result. *)
Local Notation untouched id q := (cw_plans w2 !! id = Some q /\ unknown_id existing_plans id).
Lemma untouched_row id q : untouched id q -> cw_plans w !! id = Some q /\
  ~ gone_offering existing services.*1 (sp_ServiceOfferingID q) /\ forall c, ~ known_plan w brokerID c q.
Proof.
  intros [[Hq Hg]%(sy_plan_rows _ _ _ _ _ _ _ synced) Hu]. split_and!; [done..|].
  intros c Hk. apply (Hu c q); [by apply existing_plans_iff|]. by apply (row_plan _ Rows).
Qed.
(** Its offering is one of another broker. *)
Lemma untouched_parent id q : untouched id q ->
  exists y, cw_offerings w !! sp_ServiceOfferingID q = Some y /\ so_BrokerID y <> brokerID.
Proof.
  intros (Hq & Hg & Hk)%untouched_row. destruct (row_parent _ Rows _ _ Hq) as [y Hy]. exists y. split; [done|].
  intros Hb. pose proof (row_offering _ Rows _ _ Hy) as Hid. apply (Hk (so_CatalogID y)).
  pose proof (row_plan _ Rows _ _ Hq) as Hqid. split; [by rewrite Hqid|]. exists y. split; [|done].
  split; [by rewrite Hid|done].
Qed.
Lemma untouched_not_done id q o : untouched id q -> o ∈ done -> sp_ServiceOfferingID q <> so_ID o.
Proof.
  intros (y & Hy & Hb)%untouched_parent Ho Heq. rewrite Heq in Hy.
  apply (sy_others _ _ _ _ _ _ _ synced) in Hy; [|done]. rewrite (sy_stored _ _ _ _ _ _ _ synced o Ho) in Hy.
  simplify_eq. by rewrite stored_broker in Hb.
Qed.
Lemma touched_done id q : cw_plans w' !! id = Some q -> untouched id q \/
  exists o x ps p, o ∈ done /\ (x, ps) ∈ services /\ so_CatalogID x = so_CatalogID o /\ p ∈ ps /\
    resynced_plan (plans_at existing_plans (so_CatalogID o)) (set_offering_of_plan (so_ID o) p) q /\ sp_ID q = id.
Proof.
  intros [(c & p & (o & x & ps & p0 & Ho & <- & Hx & Hxc & Hp0 & ->)%catalog_plan & Hr & Hid)|?]%(ps_rows _ _ _ _ plans_done);
    [right|by left]. by exists o, x, ps, p0.
Qed.
Lemma resynced_in_line o p q :
  resynced_plan (plans_at existing_plans (so_CatalogID o)) (set_offering_of_plan (so_ID o) p) q -> plan_in_line w brokerID o p q.
Proof.
  intros (id & c & t & row & -> & Hk & Hn). exists id, c, t, row. split; [done|]. split.
  - intros k Hkn. apply Hk. by apply existing_plans_iff.
  - intros Hno. apply Hn. intros k Hkn. apply Hno. by apply existing_plans_iff.
Qed.
Lemma offerings_kept : cw_offerings w' = cw_offerings w2.
Proof. apply (ps_offerings _ _ _ _ plans_done). Qed.
Lemma service_of_done i x ps o : services !! i = Some (x, ps) -> done !! i = Some o -> so_CatalogID x = so_CatalogID o.
Proof.
  intros Hi Ho. pose proof (sy_done _ _ _ _ _ _ _ synced) as Hf.
  destruct (Forall2_lookup_r _ _ _ _ _ Hf Ho) as (y & Hy & Hr). rewrite list_lookup_fmap, Hi in Hy. simplify_eq/=.
  by destruct (resynced_fields _ _ _ Hr).
Qed.

Lemma tables_in_line : in_line brokerID services w w' done.
Proof.
  constructor.
  - eapply Forall2_impl; [exact (sy_done _ _ _ _ _ _ _ synced)|]. intros x o (id & c & t & -> & Hk).
    exists id, c, t. split; [done|]. intros e He. apply Hk. by apply existing_iff.
  - intros id x. rewrite offerings_kept. split.
    + intros [[(o & Ho & Hid & ->)|[_ ?]]%(sy_rows _ _ _ _ _ _ _ synced) Hb]; [|done]. exists o. by rewrite stored_row.
    + intros (o & Ho & <- & ->%stored_row). split; [by apply (sy_stored _ _ _ _ _ _ _ synced)|by apply stored_broker].
  - intros id x Hb. rewrite offerings_kept. split; [|by intros; apply (sy_others _ _ _ _ _ _ _ synced)].
    intros [(o & Ho & _ & ->)|[? _]]%(sy_rows _ _ _ _ _ _ _ synced); [|done]. by rewrite stored_broker in Hb.
  - intros i x ps o Hi Ho. pose proof (service_of_done _ _ _ _ Hi Ho) as Hc.
    apply list_elem_of_lookup_2 in Hi, Ho. split.
    + intros p Hp. destruct (ps_stored _ _ _ _ plans_done (so_CatalogID o) (set_offering_of_plan (so_ID o) p)) as (q & Hq & Hr).
      { apply catalog_plan. by exists o, x, ps, p. }
      exists q. split; [done|]. by apply resynced_in_line.
    + intros id q [Hu|(o' & x' & ps' & p & Ho' & Hx' & Hc' & Hp & Hr & _)]%touched_done Hoq; [by destruct (untouched_not_done _ _ o Hu)|].
      destruct (resynced_plan_fields _ _ _ Hr) as [Hof _]. rewrite Hoq in Hof.
      assert (o' = o) as -> by by apply done_ids.
      assert ((x', ps') = (x, ps)) as [= -> ->]; [|exists p; split; [done|by apply resynced_in_line]].
      pose proof Services_once as Hn. rewrite <- list_fmap_compose in Hn. apply (NoDup_fmap_elem _ _ _ _ Hn); [done..|]. simpl. congruence.
  - intros id q y Hy Hb. split.
    + intros [(? & _)%untouched_row|(o & x & ps & p & Ho & _ & _ & _ & [Hof _]%resynced_plan_fields & _)]%touched_done; [done|].
      rewrite Hof in Hy. simpl in Hy. apply (sy_others _ _ _ _ _ _ _ synced) in Hy; [|done].
      rewrite (sy_stored _ _ _ _ _ _ _ synced o Ho) in Hy. simplify_eq. by rewrite stored_broker in Hb.
    + intros Hq. apply (ps_others _ _ _ _ plans_done).
      * apply (sy_plan_rows _ _ _ _ _ _ _ synced). split; [done|].
        intros (e & (He & Hbe & _)%existing_iff & _ & Hid). rewrite Hid in He. congruence.
      * intros c k (Hk & e & (He & Hbe & _) & Ho)%existing_plans_iff Hid. rewrite Hid in Hk. assert (k = q) as -> by congruence.
        rewrite Ho in Hy. congruence.
Qed.

Lemma rows_again : catalog_rows w'.
Proof.
  constructor.
  - intros id x. rewrite offerings_kept. intros [(o & _ & <- & ->)|[? _]]%(sy_rows _ _ _ _ _ _ _ synced); [|by apply (row_offering _ Rows)].
    by destruct (stored_fields existing o).
  - intros id q [(? & _)%untouched_row|(o & x & ps & p & _ & _ & _ & _ & _ & ?)]%touched_done; [by apply (row_plan _ Rows)|done].
  - intros id q [(y & Hy & Hb)%untouched_parent|(o & x & ps & p & Ho & _ & _ & _ & [Hof _]%resynced_plan_fields & _)]%touched_done;
      rewrite offerings_kept; [eexists; by eapply (sy_others _ _ _ _ _ _ _ synced)|].
    rewrite Hof. eexists. by apply (sy_stored _ _ _ _ _ _ _ synced).
  - intros i j x y. rewrite offerings_kept.
    intros [(o & Ho & <- & ->)|[Hx Hbx]]%(sy_rows _ _ _ _ _ _ _ synced) [(o' & Ho' & <- & ->)|[Hy Hby]]%(sy_rows _ _ _ _ _ _ _ synced) Hb Hc.
    + destruct (stored_fields existing o) as (_ & _ & E), (stored_fields existing o') as (_ & _ & E'). rewrite E, E' in Hc.
      by rewrite (done_once o o').
    + by rewrite (stored_broker o Ho) in Hb.
    + by rewrite (stored_broker o' Ho') in Hb.
    + by eapply (row_offering_once _ Rows).
  - intros i j p q Hp Hq Ho Hc.
    destruct (touched_done i p Hp) as [Hup|(o & x & ps & p0 & Hod & _ & _ & _ & [Hof _]%resynced_plan_fields & _)].
    + destruct (touched_done j q Hq) as [Huq|(o & x & ps & p0 & Hod & _ & _ & _ & [Hof _]%resynced_plan_fields & _)].
      * eapply (row_plan_once _ Rows); [by apply untouched_row|by apply untouched_row|done..].
      * destruct (untouched_not_done i p o Hup Hod). by rewrite Ho, Hof.
    + apply (ps_once _ _ _ _ plans_done i j p q); try done;
        intros Hu; apply (untouched_not_done _ _ o Hu Hod); rewrite <- ?Ho; by rewrite Hof.
Qed.
End InLine.

(** C18: after a successful update of a broker the tables are in line with its new catalog.
    The result names exactly the offerings stored for the broker, one for each service of the
    catalog; the plans of each are exactly those of the service; what was known under the same
    catalog ids keeps its id, the time it was created at, its labels and its paging sequence, and
    everything else of the broker is gone; offerings and plans of other brokers are as they were; and the constraints of the
    tables hold again.  This is for a catalog that names each service, and in it each plan,
    once; [services'] are the services with the ids of the known reference plans. *)
Theorem catalog_resynced `{CatalogEnv} `{JSONQueries} f oldBroker newBroker services w w' broker done :
  honest_storage -> ranges_permute -> catalog_rows w ->
  (forall b v v' x, f b v = (v', Ok x) -> same_rows v v') ->
  base_ID (br_Base newBroker) = base_ID (br_Base oldBroker) ->
  NoDup (so_CatalogID <$> services.*1) ->
  (forall x, x ∈ services.*1 -> so_BrokerID x = base_ID (br_Base oldBroker)) ->
  (forall known v catalog services' x, Load (base_ID (br_Base oldBroker)) w = (v, Ok known) ->
     reuseReferenceInstancePlans (br_Catalog newBroker) known services = Ok (catalog, services') ->
     x ∈ services' -> NoDup (sp_CatalogID <$> x.2)) ->
  OnTxUpdate_broker f oldBroker newBroker services w = (w', Ok (broker, done)) ->
  exists catalog services' known v, Load (base_ID (br_Base oldBroker)) w = (v, Ok known) /\
    reuseReferenceInstancePlans (br_Catalog newBroker) known services = Ok (catalog, services') /\
    broker = set_br_Catalog newBroker catalog /\
    in_line (base_ID (br_Base oldBroker)) services' w w' done /\ catalog_rows w'.
Proof.
  intros Honest Ranges Rows Hf Hid Hs Hb Hp E. unfold OnTxUpdate_broker in E.
  apply c_bind_ok in E as (w1 & known & E1 & E).
  destruct (Load (base_ID (br_Base oldBroker)) w) as [v r] eqn:EL. destruct r as [l| |]; [|discriminate..].
  injection E1 as -> ->. destruct (Load_ok _ _ _ _ Rows EL) as ([Ho1 Hp1] & Hk & Hka).
  apply c_bind_ok in E as (w2 & [catalog services'] & E2 & E). injection E2 as <- ER.
  apply c_bind_ok in E as (w3 & x & [Ho2 Hp2]%Hf & E).
  simpl in E. apply c_bind_ok in E as (w4 & s & E4 & E). apply c_bind_ok in E as (w5 & [] & E5 & [-> [= -> ->]]%c_ret_ok).
  rewrite Hid in E4, E5. pose proof (reused_services _ _ _ _ _ ER) as Hfst.
  assert (Hstart : same_rows w w3) by (split; congruence).
  assert (Hn' : NoDup (so_CatalogID <$> services'.*1)) by by rewrite Hfst.
  assert (Hb' : forall x, x ∈ services'.*1 -> so_BrokerID x = base_ID (br_Base oldBroker)) by by rewrite Hfst.
  assert (Hp' : forall x ps, (x, ps) ∈ services' -> NoDup (sp_CatalogID <$> ps)) by (intros y ps Hy; by apply (Hp _ _ _ _ (y, ps) eq_refl ER)).
  exists catalog, services', known, w1. split_and!; try done.
  - by eapply (tables_in_line Honest Ranges _ known services' w w3 w4 w5 s tt).
  - by eapply (rows_again Honest Ranges _ known services' w w3 w4 w5 s tt).
Qed.

(** ** The theorem on catalogs at a concrete catalog

    A broker with two offerings, next to one of another broker, gets a catalog in which one
    service is known with one more plan, one is new and one is missing. *)
#[local] Instance catalog_json : JSONQueries :=
  {| gjson_raw _ _ := ""; gjson_array _ _ := None; json_is_object _ := true; json_is_array _ := true |}.
#[local] Instance toy_catalogs : CatalogEnv :=
  {| cat_fault _ := None; cat_uuid n := Ok ("new-" +:+ pretty n); cat_now n := Z.of_nat n; shared_instances _ := 0%Z;
     CatalogFetcher _ := Ok ""; decode_catalog _ := Some []; append_plan_json c _ _ := Ok c;
     set_plan_id_json c _ _ _ := Ok c; reference_schemas := ""; range_order _ l := l |}.

Definition catalog_base (id : string) (created : Z) : Base :=
  {| base_ID := id; base_CreatedAt := created; base_UpdatedAt := created; base_Labels := ∅; base_PagingSequence := 0%Z;
     base_Ready := true; base_LastOperation := None |}.
Definition toy_offering (id catalogID brokerID : string) : ServiceOffering :=
  {| so_Base := catalog_base id 1%Z; so_Name := catalogID; so_Description := "d"; so_Bindable := true;
     so_InstancesRetrievable := false; so_BindingsRetrievable := false; so_PlanUpdatable := false;
     so_AllowContextUpdates := false; so_Tags := ""; so_Requires := ""; so_Metadata := ""; so_BrokerID := brokerID;
     so_CatalogID := catalogID; so_CatalogName := catalogID |}.
Definition toy_plan (id catalogID offeringID : string) : ServicePlan :=
  {| sp_Base := catalog_base id 1%Z; sp_Name := catalogID; sp_Description := "d"; sp_CatalogID := catalogID;
     sp_CatalogName := catalogID; sp_Free := None; sp_Bindable := None; sp_PlanUpdatable := None; sp_Metadata := "";
     sp_Schemas := ""; sp_MaximumPollingDuration := 0%Z; sp_MaintenanceInfo := ""; sp_ServiceOfferingID := offeringID |}.
Definition toy_broker : ServiceBroker :=
  {| br_Base := catalog_base "broker" 1%Z; br_Name := "broker"; br_Description := ""; br_BrokerURL := "";
     br_Credentials := None; br_Catalog := "" |}.

Definition toy_tables : catalog_world :=
  {| cw_offerings := {["o1" := toy_offering "o1" "s1" "broker"; "o2" := toy_offering "o2" "s2" "broker";
                       "o9" := toy_offering "o9" "s1" "other"]};
     cw_plans := {["p1" := toy_plan "p1" "c1" "o1"; "p2" := toy_plan "p2" "c2" "o2"; "p9" := toy_plan "p9" "c1" "o9"]};
     cw_calls := 0 |}.
Definition toy_catalog : list (ServiceOffering * list ServicePlan) :=
  [(toy_offering "x1" "s1" "broker", [toy_plan "y1" "c1" "x1"; toy_plan "y3" "c3" "x1"]);
   (toy_offering "x3" "s3" "broker", [toy_plan "y4" "c1" "x3"])].
Definition keep_tables (b : ServiceBroker) : cat unit := c_ret tt.

Lemma toy_rows : catalog_rows toy_tables.
Proof.
  assert (Ho : forall id x, cw_offerings toy_tables !! id = Some x ->
    (id, x) ∈ [("o1", toy_offering "o1" "s1" "broker"); ("o2", toy_offering "o2" "s2" "broker"); ("o9", toy_offering "o9" "s1" "other")]).
  { intros id x. simpl. rewrite !lookup_insert_Some, lookup_singleton_Some. set_solver. }
  assert (Hp : forall id x, cw_plans toy_tables !! id = Some x ->
    (id, x) ∈ [("p1", toy_plan "p1" "c1" "o1"); ("p2", toy_plan "p2" "c2" "o2"); ("p9", toy_plan "p9" "c1" "o9")]).
  { intros id x. simpl. rewrite !lookup_insert_Some, lookup_singleton_Some. set_solver. }
  constructor.
  - intros id x Hx%Ho. rewrite !elem_of_cons in Hx. destruct Hx as [[= -> ->]|[[= -> ->]|[[= -> ->]|Hx]]]; [done..|inversion Hx].
  - intros id x Hx%Hp. rewrite !elem_of_cons in Hx. destruct Hx as [[= -> ->]|[[= -> ->]|[[= -> ->]|Hx]]]; [done..|inversion Hx].
  - intros id x Hx%Hp. rewrite !elem_of_cons in Hx. destruct Hx as [[= -> ->]|[[= -> ->]|[[= -> ->]|Hx]]]; [by eexists..|inversion Hx].
  - intros i j x y Hx%Ho Hy%Ho. rewrite !elem_of_cons in Hx, Hy.
    destruct Hx as [[= -> ->]|[[= -> ->]|[[= -> ->]|Hx]]]; [..|inversion Hx];
      (destruct Hy as [[= -> ->]|[[= -> ->]|[[= -> ->]|Hy]]]; [done..|inversion Hy]).
  - intros i j x y Hx%Hp Hy%Hp. rewrite !elem_of_cons in Hx, Hy.
    destruct Hx as [[= -> ->]|[[= -> ->]|[[= -> ->]|Hx]]]; [..|inversion Hx];
      (destruct Hy as [[= -> ->]|[[= -> ->]|[[= -> ->]|Hy]]]; [done..|inversion Hy]).
Qed.
Lemma toy_plans_once known v catalog services' x : Load "broker" toy_tables = (v, Ok known) ->
  reuseReferenceInstancePlans "" known toy_catalog = Ok (catalog, services') -> x ∈ services' -> NoDup (sp_CatalogID <$> x.2).
Proof.
  intros EL ER. vm_compute in EL. injection EL as <- <-. vm_compute in ER. injection ER as <- <-.
  intros Hx. rewrite !elem_of_cons in Hx. destruct Hx as [->|[->|Hx]]; [by apply (bool_decide_unpack _)..|inversion Hx].
Qed.

Lemma catalog_resynced_witness :
  exists w' broker done, OnTxUpdate_broker keep_tables toy_broker toy_broker toy_catalog toy_tables = (w', Ok (broker, done)) /\
    so_ID <$> done = ["o1"; "new-4"] /\ catalog_rows w'.
Proof.
  destruct (OnTxUpdate_broker keep_tables toy_broker toy_broker toy_catalog toy_tables) as [w' [[broker done]| |]] eqn:E;
    [|exfalso; revert E; vm_compute; discriminate..].
  exists w', broker, done. split; [reflexivity|]. split.
  - revert E. vm_compute. by intros [= _ _ <-].
  - destruct (catalog_resynced keep_tables toy_broker toy_broker toy_catalog toy_tables w' broker done) as (c & sv & k & v & _ & _ & _ & _ & Hr).
    + intros n Hn. discriminate Hn.
    + intros n l. reflexivity.
    + apply toy_rows.
    + intros b v v' x Hv. injection Hv as <- _. split; reflexivity.
    + reflexivity.
    + clear E. by apply (bool_decide_unpack _).
    + clear E. intros x Hx. simpl in Hx. rewrite !elem_of_cons in Hx. destruct Hx as [->|[->|Hx]]; [done..|inversion Hx].
    + apply toy_plans_once.
    + exact E.
    + exact Hr.
Defined.
