(* ===== verification/Registry.v ===== *)
(** * The tables of the registry

    Brokers, offerings, plans, platforms, visibilities, credentials and notifications as the
    hooks of brokers and visibilities see them inside a transaction.  A call of the storage
    may fail; the number of calls so far numbers the random ids, the readings of the clock and
    the orders of ranging over a map. *)

From S2P Require Import Prelude GoStd Errors Labels Query WebFilters OperationTypes DomainTypes WorldMonad.
From stdpp Require Import base gmap strings list.
From Stdlib Require Import ZArith.
Local Open Scope string_scope.

(** ** Notifications (pkg/types/notification.go) *)
Inductive NotificationOperation := CREATED | MODIFIED | DELETED.
#[global] Instance NotificationOperation_eq_dec : EqDecision NotificationOperation.
Proof. solve_decision. Defined.

(** What the interceptors send along, before it is encoded. *)
Inductive robject :=
  | RBroker (b : ServiceBroker) (services : list (ServiceOffering * list ServicePlan))
  | RVisibility (v : Visibility).
Inductive additional :=
  | BrokerAdditional (services : list (ServiceOffering * list ServicePlan))
  | VisibilityAdditional (brokerID brokerName : string) (plan : ServicePlan).
Record ObjectPayload := { Resource_ : robject; Additional : option additional }.
Record Payload := { New : option ObjectPayload; Old : option ObjectPayload; Payload_LabelChanges : list LabelChange }.
Record Notification := {
  no_Base : Base;
  no_Resource : string;
  no_Type : NotificationOperation;
  no_PlatformID : string;
  no_Payload : string;
  no_CorrelationID : string
}.

Record registry_world := {
  rg_brokers : gmap string ServiceBroker;
  rg_offerings : gmap string ServiceOffering;
  rg_plans : gmap string ServicePlan;
  rg_platforms : gmap string Platform;
  rg_visibilities : gmap string Visibility;
  rg_credentials : gmap string BrokerPlatformCredential;
  rg_notifications : list Notification;
  rg_calls : nat
}.
Notation reg := (world_m registry_world).

Definition with_rg_calls (n : nat) (w : registry_world) : registry_world :=
  {| rg_brokers := rg_brokers w; rg_offerings := rg_offerings w; rg_plans := rg_plans w; rg_platforms := rg_platforms w;
     rg_visibilities := rg_visibilities w; rg_credentials := rg_credentials w; rg_notifications := rg_notifications w;
     rg_calls := n |}.
Definition with_rg_visibilities (v : gmap string Visibility) (w : registry_world) : registry_world :=
  {| rg_brokers := rg_brokers w; rg_offerings := rg_offerings w; rg_plans := rg_plans w; rg_platforms := rg_platforms w;
     rg_visibilities := v; rg_credentials := rg_credentials w; rg_notifications := rg_notifications w;
     rg_calls := rg_calls w |}.
Definition with_rg_credentials (c : gmap string BrokerPlatformCredential) (w : registry_world) : registry_world :=
  {| rg_brokers := rg_brokers w; rg_offerings := rg_offerings w; rg_plans := rg_plans w; rg_platforms := rg_platforms w;
     rg_visibilities := rg_visibilities w; rg_credentials := c; rg_notifications := rg_notifications w;
     rg_calls := rg_calls w |}.
Definition with_rg_notifications (l : list Notification) (w : registry_world) : registry_world :=
  {| rg_brokers := rg_brokers w; rg_offerings := rg_offerings w; rg_plans := rg_plans w; rg_platforms := rg_platforms w;
     rg_visibilities := rg_visibilities w; rg_credentials := rg_credentials w; rg_notifications := l;
     rg_calls := rg_calls w |}.

Class RegistryEnv := {
  rg_fault : nat -> option error;
  rg_uuid : nat -> result string;
  rg_now : nat -> Z;
  rg_order : nat -> list string -> list string;      (** the order of a [range] over a map *)
  GetSMSupportedPlatformTypes : list string;         (** a setting of the process *)
  rg_marshal : Payload -> result string;             (** [json.Marshal] *)
  rg_sjson_delete : string -> string -> result string;
  rg_correlation : string
}.

(** ** Calls of the storage *)
Definition pl_ID (p : Platform) : string := base_ID (pl_Base p).
Definition vi_ID (v : Visibility) : string := base_ID (vi_Base v).
Definition rows {A} (m : gmap string A) : list A := snd <$> map_to_list m.

(** A field criterion on the value of its field. *)
Definition value_matches (value : string) (c : Criterion) : bool :=
  match COperator c with
  | EqualsOperator => match RightOp c with [v] => String.eqb value v | _ => false end
  | InOperator => Slice.StringsAnyEquals (RightOp c) value
  | NotInOperator => negb (Slice.StringsAnyEquals (RightOp c) value)
  | _ => false
  end.
Definition platform_field (p : Platform) (field : string) : string :=
  if String.eqb field "name" then pl_Name p else if String.eqb field "type" then pl_Type p else pl_ID p.
Definition platform_matches (criteria : list Criterion) (p : Platform) : bool :=
  forallb (fun c => value_matches (platform_field p (LeftOp c)) c) criteria.

Section Storage.
Context `{RegistryEnv}.
Definition rg_tick (w : registry_world) : registry_world := with_rg_calls (S (rg_calls w)) w.
Definition r_outside {A} (f : nat -> result A) : reg A := fun w => (rg_tick w, f (rg_calls w)).
Definition r_storage {A} (f : registry_world -> registry_world * result A) : reg A := fun w =>
  match rg_fault (rg_calls w) with
  | Some e => (rg_tick w, Err e)
  | None => let '(w', r) := f w in (with_rg_calls (S (rg_calls w)) w', r)
  end.
Definition r_read {A} (f : registry_world -> A) : reg A := r_storage (fun w => (w, Ok (f w))).
Definition r_range {A} (m : gmap string A) : reg (list (string * A)) := fun w =>
  (rg_tick w, Ok (ranged m (rg_order (rg_calls w) (fst <$> map_to_list m)))).

Definition list_platforms (criteria : list Criterion) : reg (list Platform) :=
  r_read (fun w => List.filter (platform_matches criteria) (rows (rg_platforms w))).
Definition create_visibility (v : Visibility) : reg unit := r_storage (fun w =>
  match rg_visibilities w !! vi_ID v with
  | Some _ => (w, Err EAlreadyExistsInStorage)
  | None => (with_rg_visibilities (<[vi_ID v := v]> (rg_visibilities w)) w, Ok tt)
  end).
Definition delete_visibility (id : string) : reg unit := r_storage (fun w =>
  match rg_visibilities w !! id with
  | Some _ => (with_rg_visibilities (base.delete id (rg_visibilities w)) w, Ok tt)
  | None => (w, Err ENotFoundInStorage)
  end).
End Storage.
