(* ===== verification/PublicPlans.v ===== *)
(** * Visibilities of the plans of a broker (storage/service_plans/resolver.go,
    storage/interceptors/broker_public_plans_interceptor.go)

    Which platforms a plan is for, and the visibilities that are made and removed when the
    catalog of a broker is stored. *)

From S2P Require Import Prelude GoStd Errors Labels Query WebFilters OperationTypes DomainTypes WorldMonad Registry.
From stdpp Require Import base gmap strings list.
From Stdlib Require Import ZArith.
Local Open Scope string_scope.

Section Resolver.
Context `{RegistryEnv} `{JSONQueries}.

(** The criteria for the platforms of a plan, and whether it is for all of them. *)
Definition plan_criteria (plan : ServicePlan) : list Criterion * bool :=
  match ExcludedPlatformNames plan with
  | (_ :: _) as excluded => ([ByField NotInOperator "name" excluded], false)
  | [] =>
      match SupportedPlatformNames plan with
      | (_ :: _) as names => ([ByField InOperator "name" names], false)
      | [] =>
          match SupportedPlatformTypes plan with
          | (_ :: _) as types =>
              ([ByField InOperator "type"
                  ((fun t => if Slice.StringsAnyEquals GetSMSupportedPlatformTypes t then SMPlatform else t) <$> types)], false)
          | [] => ([], true)
          end
      end
  end.
Fixpoint resolve_platforms (platformsMap : gmap string Platform) (plans : list ServicePlan) : reg (gmap string Platform) :=
  match plans with
  | [] => c_ret platformsMap
  | plan :: plans =>
      let '(criteria, allPlatformsSupported) := plan_criteria plan in
      cat! objList <- list_platforms criteria;
      let platformsMap := foldl (fun m p => <[pl_ID p := p]> m) platformsMap objList in
      if (allPlatformsSupported : bool) then c_ret platformsMap else resolve_platforms platformsMap plans
  end.
Definition ResolveSupportedPlatformsForPlans (plans : list ServicePlan) : reg (gmap string Platform) :=
  resolve_platforms ∅ plans.
Definition ResolveSupportedPlatformIDsForPlans (plans : list ServicePlan) : reg (list string) :=
  cat! platforms <- ResolveSupportedPlatformsForPlans plans;
  cat! l <- r_range platforms;
  c_ret (fst <$> l).

Definition tenant_values (p : Platform) (tenantKey : string) : list string := default [] (base_Labels (pl_Base p) !! tenantKey).
Definition isGlobal (tenantKey : string) (p : Platform) : bool := Nat.eqb (length (tenant_values p tenantKey)) 0.
Definition isTenantScoped_to (tenantKey tenantValue : string) (p : Platform) : bool :=
  match tenant_values p tenantKey with v :: _ => String.eqb v tenantValue | [] => false end.
Definition ResolveSupportedPlatformsForTenant (plans : list ServicePlan) (tenantKey tenantValue : string)
    : reg (gmap string Platform) :=
  cat! platforms <- ResolveSupportedPlatformsForPlans plans;
  cat! l <- r_range platforms;
  c_ret (foldl (fun m p => if isGlobal tenantKey p || isTenantScoped_to tenantKey tenantValue p then <[pl_ID p := p]> m else m)
           ∅ (snd <$> l)).
End Resolver.

Section Interceptor.
Context `{RegistryEnv} `{JSONQueries}.
(** The settings of the interceptor. *)
Variable isCatalogPlanPublicFunc : ServiceBroker -> ServiceOffering -> ServicePlan -> result bool.
Variable supportedPlatformsFunc : ServicePlan -> reg (gmap string Platform).
Variable tenantKey : string.

Definition isTenantScoped (p : Platform) : bool := bool_decide (is_Some (base_Labels (pl_Base p) !! tenantKey)).
Definition findPlatformByVisibility (supported : gmap string Platform) (v : Visibility) : option Platform :=
  supported !! vi_PlatformID v.
Definition persistVisibility (platformID planID : string) (broker : ServiceBroker) : reg unit :=
  cat! uuid <- (fun w => match r_outside rg_uuid w with
                         | (w', Err e) => (w', Err (EPlain ("could not generate GUID for visibility: " ++ Error e)))
                         | r => r
                         end);
  cat! now <- r_outside (fun n => Ok (rg_now n));
  create_visibility {| vi_Base := {| base_ID := uuid; base_CreatedAt := now; base_UpdatedAt := now; base_Labels := ∅;
                                     base_PagingSequence := 0; base_Ready := base_Ready (br_Base broker);
                                     base_LastOperation := None |};
                       vi_PlatformID := platformID; vi_ServicePlanID := planID |}.

(** The plans of a broker whose visibilities have no labels. *)
Definition getLabelLessVisibilitiesByID (services : list (ServiceOffering * list ServicePlan)) : reg (list string) :=
  match services ≫= (fun x => (fun p => base_ID (sp_Base p)) <$> x.2) with
  | [] => c_ret []
  | planIDs => r_read (fun w => vi_ID <$> List.filter (fun v => bool_decide (vi_ServicePlanID v ∈ planIDs) &&
                                                               bool_decide (base_Labels (vi_Base v) = ∅))
                                            (rows (rg_visibilities w)))
  end.

(** A plan for all platforms: one decision per visibility, and then the public one. *)
Definition resyncPublicPlanVisibilities (planVisibilities : list Visibility) (isPlanPublic : bool) (planID : string)
    (broker : ServiceBroker) : reg unit :=
  cat! publicVisibilityExists <- c_fold (fun (found : bool) v =>
    let public := String.eqb (vi_PlatformID v) "" in
    if isPlanPublic && public then c_ret true
    else if negb isPlanPublic && negb public then c_ret found
    else delete_visibility (vi_ID v) >; c_ret found) false planVisibilities;
  if isPlanPublic && negb publicVisibilityExists then persistVisibility "" planID broker else c_ret tt.

(** A plan for some platforms: the platforms that have no visibility yet. *)
Definition resync_visibility (labelLess : list string) (isPlanPublic : bool) (supported : gmap string Platform)
    (v : Visibility) : reg (gmap string Platform) :=
  let without_labels := bool_decide (vi_ID v ∈ labelLess) in
  let gone := delete_visibility (vi_ID v) >; c_ret supported in
  match findPlatformByVisibility supported v with
  | Some platform =>
      if isPlanPublic || isTenantScoped platform
      then if without_labels then c_ret (base.delete (pl_ID platform) supported) else gone
      else if negb without_labels then c_ret supported else gone
  | None => gone
  end.
Definition resyncPlanVisibilitiesWithSupportedPlatforms (planVisibilities : list Visibility) (isPlanPublic : bool)
    (planID : string) (broker : ServiceBroker) (supported : gmap string Platform) (labelLess : list string) : reg unit :=
  cat! supported <- c_fold (resync_visibility labelLess isPlanPublic) supported planVisibilities;
  if isPlanPublic then
    cat! platforms <- r_range supported;
    c_fold (fun _ x => persistVisibility x.1 planID broker) tt platforms
  else c_ret tt.

Definition resync_plan_visibilities (broker : ServiceBroker) (labelLess : list string) (serviceOffering : ServiceOffering)
    (servicePlan : ServicePlan) : reg unit :=
  let planID := base_ID (sp_Base servicePlan) in
  cat! isPlanPublic <- c_lift (isCatalogPlanPublicFunc broker serviceOffering servicePlan);
  cat! planVisibilities <- r_read (fun w => List.filter (fun v => String.eqb (vi_ServicePlanID v) planID) (rows (rg_visibilities w)));
  if SupportsAllPlatforms servicePlan
  then resyncPublicPlanVisibilities planVisibilities isPlanPublic planID broker
  else
    cat! supportedPlatformIDs <- supportedPlatformsFunc servicePlan;
    resyncPlanVisibilitiesWithSupportedPlatforms planVisibilities isPlanPublic planID broker supportedPlatformIDs labelLess.
Definition resync (broker : ServiceBroker) (services : list (ServiceOffering * list ServicePlan)) : reg unit :=
  cat! labelLess <- getLabelLessVisibilitiesByID services;
  c_fold (fun _ x => c_fold (fun _ p => resync_plan_visibilities broker labelLess x.1 p) tt x.2) tt services.

(** After the rest of the chain [f]: [OnTxCreate] with the broker that was given to the chain,
    [OnTxUpdate] with the one that the chain returns. *)
Definition OnTxCreate_public_plans {A} (f : reg A) (obj : ServiceBroker * list (ServiceOffering * list ServicePlan)) : reg A :=
  cat! newObject <- f;
  resync obj.1 obj.2 >;
  c_ret newObject.
Definition OnTxUpdate_public_plans (f : reg (ServiceBroker * list (ServiceOffering * list ServicePlan)))
    : reg (ServiceBroker * list (ServiceOffering * list ServicePlan)) :=
  cat! result <- f;
  resync result.1 result.2 >;
  c_ret result.
End Interceptor.
