(* ===== verification/PublicPlansTheorems.v ===== *)
(** * Supported platforms and visibilities of the plans of a broker *)

From S2P Require Import Prelude GoStd Errors Query Labels WebFilters OperationTypes DomainTypes WorldMonad Registry PublicPlans.
From stdpp Require Import base gmap strings list.
From Stdlib Require Import ZArith.
Local Open Scope string_scope.

(** ** Calls of the storage that return *)
Section Calls.
Context `{RegistryEnv}.
(** Nothing but visibilities and the number of calls differs. *)
Definition same_platforms (w w' : registry_world) : Prop := rg_platforms w' = rg_platforms w.
Definition same_visibilities (w w' : registry_world) : Prop :=
  rg_visibilities w' = rg_visibilities w /\ rg_platforms w' = rg_platforms w.
Lemma r_outside_same {A} (f : nat -> result A) w w' r : r_outside f w = (w', r) -> same_visibilities w w'.
Proof. by intros [= <- _]. Qed.
Lemma r_storage_ok {A} (f : registry_world -> registry_world * result A) w w' a : r_storage f w = (w', Ok a) ->
  exists w1, f w = (w1, Ok a) /\ rg_visibilities w' = rg_visibilities w1 /\ rg_platforms w' = rg_platforms w1.
Proof. unfold r_storage. destruct (rg_fault _); [discriminate|]. destruct (f w) as [w1 r]. intros [= <- ->]. by exists w1. Qed.
Lemma r_read_ok {A} (f : registry_world -> A) w w' a : r_read f w = (w', Ok a) -> a = f w /\ same_visibilities w w'.
Proof. by intros (w1 & [= <- <-] & ?)%r_storage_ok. Qed.
Lemma create_visibility_ok v w w' u : create_visibility v w = (w', Ok u) ->
  rg_visibilities w !! vi_ID v = None /\ rg_visibilities w' = <[vi_ID v := v]> (rg_visibilities w) /\ same_platforms w w'.
Proof.
  intros (w1 & E & Hv & Hp)%r_storage_ok. unfold same_platforms. rewrite Hv, Hp.
  destruct (rg_visibilities w !! vi_ID v); [discriminate|]. by injection E as <-.
Qed.
Lemma delete_visibility_ok id w w' u : delete_visibility id w = (w', Ok u) ->
  rg_visibilities w' = base.delete id (rg_visibilities w) /\ same_platforms w w'.
Proof.
  intros (w1 & E & Hv & Hp)%r_storage_ok. unfold same_platforms. rewrite Hv, Hp.
  destruct (rg_visibilities w !! id); [|discriminate]. by injection E as <-.
Qed.
Definition rg_orders_permute : Prop := forall n l, rg_order n l ≡ₚ l.
Lemma r_range_ok {A} (Orders : rg_orders_permute) (m : gmap string A) w w' l : r_range m w = (w', Ok l) ->
  same_visibilities w w' /\ NoDup l.*1 /\ forall k x, (k, x) ∈ l <-> m !! k = Some x.
Proof.
  intros [= <- <-]. split; [done|]. apply ranged_map, Orders.
Qed.
End Calls.

(** ** What is wanted of the visibilities of a plan *)
Section Plan.
Context `{RegistryEnv} `{JSONQueries}.
Variable tenantKey : string.
(** The platforms that support a plan. *)
Variable supports : ServicePlan -> gmap string Platform.
Hypothesis Orders : rg_orders_permute.
Hypothesis Supports_keys : forall p k x, supports p !! k = Some x -> pl_ID x = k.

(** The visibilities of a plan that stay, for a public or other plan. *)
Definition keeps (public : bool) (plan : ServicePlan) (v : Visibility) : bool :=
  if SupportsAllPlatforms plan then Bool.eqb public (String.eqb (vi_PlatformID v) "")
  else
    match supports plan !! vi_PlatformID v with
    | Some platform =>
        let labelless := bool_decide (base_Labels (vi_Base v) = ∅) in
        if public || isTenantScoped tenantKey platform then labelless else negb labelless
    | None => false
    end.
(** The platforms, or all of them, that have a visibility of a public plan. *)
Definition wanted (public : bool) (plan : ServicePlan) (platformID : string) : Prop :=
  public = true /\ if SupportsAllPlatforms plan then platformID = "" else is_Some (supports plan !! platformID).
Definition new_visibility (broker : ServiceBroker) (planID id : string) (v : Visibility) : Prop :=
  vi_ID v = id /\ vi_ServicePlanID v = planID /\ base_Labels (vi_Base v) = ∅ /\ base_Ready (vi_Base v) = base_Ready (br_Base broker).

(** The table: rows under their ids, one for each plan and platform. *)
Definition visibility_rows (V : gmap string Visibility) : Prop :=
  (forall id v, V !! id = Some v -> vi_ID v = id) /\
  (forall i j u v, V !! i = Some u -> V !! j = Some v ->
     vi_ServicePlanID u = vi_ServicePlanID v -> vi_PlatformID u = vi_PlatformID v -> i = j).

Record plan_resynced (public : bool) (broker : ServiceBroker) (plan : ServicePlan) (V V' : gmap string Visibility) : Prop := {
  pr_others : forall id v, vi_ServicePlanID v <> base_ID (sp_Base plan) -> V' !! id = Some v <-> V !! id = Some v;
  pr_kept : forall id v, V !! id = Some v -> vi_ServicePlanID v = base_ID (sp_Base plan) -> keeps public plan v = true -> V' !! id = Some v;
  pr_rows : forall id v, V' !! id = Some v -> vi_ServicePlanID v = base_ID (sp_Base plan) ->
    V !! id = Some v /\ keeps public plan v = true \/
    wanted public plan (vi_PlatformID v) /\ new_visibility broker (base_ID (sp_Base plan)) id v /\
      forall i u, V !! i = Some u -> vi_ServicePlanID u = base_ID (sp_Base plan) -> vi_PlatformID u = vi_PlatformID v -> keeps public plan u = false;
  pr_wanted : forall platformID, wanted public plan platformID ->
    exists id v, V' !! id = Some v /\ vi_ServicePlanID v = base_ID (sp_Base plan) /\ vi_PlatformID v = platformID;
  pr_table : visibility_rows V'
}.

(** ** The rows of the plan after what does not stay is deleted *)
Section Rows.
Variables (public : bool) (broker : ServiceBroker) (plan : ServicePlan) (V : gmap string Visibility).
Hypothesis Table : visibility_rows V.
Local Notation planID := (base_ID (sp_Base plan)).

Variable planVisibilities : list Visibility.
Hypothesis Listed : forall v, v ∈ planVisibilities <-> V !! vi_ID v = Some v /\ vi_ServicePlanID v = planID.

Definition pruned (pre : list Visibility) (V' : gmap string Visibility) : Prop :=
  forall id v, V' !! id = Some v <-> V !! id = Some v /\ (v ∈ pre -> keeps public plan v = true).
Lemma pruned_nil : pruned [] V.
Proof. intros id v. split; [|tauto]. intros Hv. split; [done|]. intros Hn. inversion Hn. Qed.
Lemma pruned_keep pre x V' : pruned pre V' -> keeps public plan x = true -> pruned (pre ++ [x])%list V'.
Proof.
  intros Hp Hk id v. rewrite (Hp id v). split; intros [Hv Hi]; (split; [done|]).
  - intros [?| ->%list_elem_of_singleton]%elem_of_app; auto.
  - intros Hin. apply Hi, elem_of_app. by left.
Qed.
Lemma pruned_delete pre x V' : pruned pre V' -> V !! vi_ID x = Some x -> keeps public plan x = false ->
  pruned (pre ++ [x])%list (base.delete (vi_ID x) V').
Proof.
  intros Hp Hx Hk id v. rewrite lookup_delete_Some, (Hp id v). split.
  - intros (Hid & Hv & Hi). split; [done|]. intros [?| ->%list_elem_of_singleton]%elem_of_app; [auto|].
    destruct Hid. by apply (proj1 Table).
  - intros (Hv & Hi). split; [|split; [done|]].
    + intros <-. assert (v = x) as -> by congruence. rewrite Hi in Hk; [done|]. apply elem_of_app. right. by apply list_elem_of_singleton.
    + intros Hin. apply Hi, elem_of_app. by left.
Qed.
Lemma pruned_rows V' id v : pruned planVisibilities V' -> vi_ServicePlanID v = planID ->
  V' !! id = Some v <-> V !! id = Some v /\ keeps public plan v = true.
Proof.
  intros Hp Hpl. rewrite (Hp id v). split; intros [Hv Hk]; (split; [done|]); [|done].
  apply Hk, Listed. by rewrite (proj1 Table _ _ Hv).
Qed.
Lemma pruned_others V' id v : pruned planVisibilities V' -> vi_ServicePlanID v <> planID -> V' !! id = Some v <-> V !! id = Some v.
Proof. intros Hp Hpl. rewrite (Hp id v). split; [tauto|]. intros Hv. split; [done|]. by intros [_ ?]%Listed. Qed.

(** Then what is missing is created: [made] are the ids and platforms. *)
Definition extended (made : list (string * string)) (V1 V2 : gmap string Visibility) : Prop :=
  (forall id v, V1 !! id = Some v -> V2 !! id = Some v) /\
  (forall id v, V2 !! id = Some v -> V1 !! id = Some v \/
     V1 !! id = None /\ (vi_PlatformID v, id) ∈ made /\ new_visibility broker planID id v) /\
  (forall platformID id, (platformID, id) ∈ made -> exists v, V2 !! id = Some v /\ vi_ServicePlanID v = planID /\ vi_PlatformID v = platformID).
Lemma resynced_when V1 V2 made :
  pruned planVisibilities V1 -> extended made V1 V2 -> NoDup made.*1 ->
  (forall platformID, platformID ∈ made.*1 <-> wanted public plan platformID /\
     forall i u, V1 !! i = Some u -> vi_ServicePlanID u = planID -> vi_PlatformID u <> platformID) ->
  (forall platformID, wanted public plan platformID -> platformID ∈ made.*1 \/
     exists i u, V1 !! i = Some u /\ vi_ServicePlanID u = planID /\ vi_PlatformID u = platformID) ->
  plan_resynced public broker plan V V2.
Proof.
  intros Hp (Hmono & Hb & Hc) Hn Hm Hw. constructor.
  - intros id v Hpl. rewrite <- (pruned_others V1 id v Hp Hpl). split; [|apply Hmono].
    intros [?|(_ & _ & _ & Hpl' & _)]%Hb; done.
  - intros id v Hv Hpl Hk. apply Hmono. by apply (pruned_rows V1).
  - intros id v [Hv|(Hid & Hin & Hnew)]%Hb Hpl.
    + left. by apply (pruned_rows V1).
    + right. assert (Hpf : vi_PlatformID v ∈ made.*1) by by apply (list_elem_of_fmap_2 fst _ (vi_PlatformID v, id)).
      apply Hm in Hpf as [Hpf Hno]. split_and!; try done. intros i u Hu Hplu Hpu.
      destruct (keeps public plan u) eqn:Hk; [|done]. destruct (Hno i u); [|done..]. by apply (pruned_rows V1).
  - intros pf [([pf' id] & -> & Hin)%list_elem_of_fmap|(i & u & Hu & ? & ?)]%Hw.
    + destruct (Hc _ _ Hin) as (v & ? & ? & ?). by exists id, v.
    + exists i, u. split; [by apply Hmono|done].
  - assert (Hpm : forall pf id i u, (pf, id) ∈ made -> V1 !! i = Some u -> vi_ServicePlanID u = planID -> vi_PlatformID u <> pf).
    { intros pf id i u Hin. apply Hm. by apply (list_elem_of_fmap_2 fst _ (pf, id)). }
    split.
    + intros id v [Hv|(_ & _ & ? & _)]%Hb; [|done]. apply (proj1 Table). by apply (Hp id v).
    + intros i j u v [Hu|(_ & Hinu & _ & Hplu & _)]%Hb [Hv|(_ & Hinv & _ & Hplv & _)]%Hb Hpl Hpf.
      * eapply (proj2 Table); [apply (Hp i u)|apply (Hp j v)|..]; done.
      * destruct (Hpm _ _ i u Hinv Hu); congruence.
      * destruct (Hpm _ _ j v Hinu Hv); congruence.
      * rewrite Hpf in Hinu. assert (Heq : (vi_PlatformID v, i) = (vi_PlatformID v, j)); [|by injection Heq].
        by apply (NoDup_fmap_elem fst made).
Qed.
End Rows.

(** ** The two ways to resynchronize *)
Lemma persist_ok platformID planID broker w w' u : persistVisibility platformID planID broker w = (w', Ok u) ->
  exists v, rg_visibilities w !! vi_ID v = None /\ rg_visibilities w' = <[vi_ID v := v]> (rg_visibilities w) /\
    vi_PlatformID v = platformID /\ new_visibility broker planID (vi_ID v) v /\ same_platforms w w'.
Proof.
  intros E. unfold persistVisibility in E. apply c_bind_ok in E as (w1 & uuid & E1 & E).
  destruct (r_outside rg_uuid w) as [w1' r] eqn:Eo. apply r_outside_same in Eo as [Hv Hp].
  destruct r; [|discriminate..]. injection E1 as -> ->.
  apply c_bind_ok in E as (w2 & now & [Hv2 Hp2]%r_outside_same & (Hn & Hi & Hs)%create_visibility_ok).
  rewrite Hv2, Hv in Hn, Hi. eexists. split_and!; [exact Hn|exact Hi|done..|].
  unfold same_platforms in *. congruence.
Qed.

Section Ways.
Variables (public : bool) (broker : ServiceBroker) (plan : ServicePlan) (w : registry_world).
Hypothesis Table : visibility_rows (rg_visibilities w).
Local Notation planID := (base_ID (sp_Base plan)).
Variable planVisibilities : list Visibility.
Hypothesis Listed : forall v, v ∈ planVisibilities <-> rg_visibilities w !! vi_ID v = Some v /\ vi_ServicePlanID v = planID.

Lemma extended_nil V : extended broker plan [] V V.
Proof. split_and!; auto. intros p i Hn. inversion Hn. Qed.
Lemma extended_one V1 V2 V3 made v : extended broker plan made V1 V2 -> V2 !! vi_ID v = None ->
  V3 = <[vi_ID v := v]> V2 -> new_visibility broker planID (vi_ID v) v -> extended broker plan (made ++ [(vi_PlatformID v, vi_ID v)])%list V1 V3.
Proof.
  intros (Hm & Hb & Hc) Hn -> Hnew. split_and!.
  - intros id u Hu. apply Hm in Hu. rewrite lookup_insert_ne; [done|]. congruence.
  - intros id u. rewrite lookup_insert_Some. intros [[<- <-]|[_ [?|(? & ? & ?)]%Hb]]; [right|by left|right].
    + split_and!; [|apply elem_of_app; right; by apply list_elem_of_singleton|done].
      destruct (V1 !! vi_ID v) eqn:E; [|done]. apply Hm in E. congruence.
    + split_and!; [done|apply elem_of_app; by left|done].
  - intros pf id [Hin|[= -> ->]%list_elem_of_singleton]%elem_of_app.
    + destruct (Hc pf id Hin) as (u & ? & ?). exists u. split; [|done]. rewrite lookup_insert_ne; [done|]. congruence.
    + exists v. rewrite lookup_insert_eq. destruct Hnew as (_ & ? & _). done.
Qed.

Lemma all_platforms_resynced w' u : SupportsAllPlatforms plan = true ->
  resyncPublicPlanVisibilities planVisibilities public planID broker w = (w', Ok u) ->
  plan_resynced public broker plan (rg_visibilities w) (rg_visibilities w') /\ same_platforms w w'.
Proof.
  intros Hall E. unfold resyncPublicPlanVisibilities in E. apply c_bind_ok in E as (w1 & found & E1 & E).
  assert (I : pruned public plan (rg_visibilities w) planVisibilities (rg_visibilities w1) /\ same_platforms w w1 /\
    (found = true <-> public = true /\ exists v, v ∈ planVisibilities /\ vi_PlatformID v = "")).
  { pattern planVisibilities, found, w1. eapply c_fold_ok; [| |exact E1]; clear E E1 w1 found.
    - split; [apply pruned_nil|]. split; [done|]. split; [done|]. intros (_ & v & Hn & _). inversion Hn.
    - intros pre x post found v found' v' Hl (Hp & Hs & Hf) E. simpl in E.
      assert (Hx : x ∈ planVisibilities) by (rewrite Hl; set_solver). apply Listed in Hx as [Hx _].
      assert (Hk : keeps public plan x = Bool.eqb public (String.eqb (vi_PlatformID x) "")) by by unfold keeps; rewrite Hall.
      destruct (String.eqb_spec (vi_PlatformID x) "") as [He|He], public; simpl in *; c_inv.
      + split; [by apply pruned_keep|]. split; [done|]. split; [|done]. intros _. split; [done|]. exists x. set_solver.
      + match goal with E : delete_visibility _ _ = _ |- _ => apply delete_visibility_ok in E as [Hv Hs'] end.
        unfold same_platforms in *. rewrite Hv. split; [by apply pruned_delete|]. split; [congruence|]. rewrite Hf. naive_solver.
      + match goal with E : delete_visibility _ _ = _ |- _ => apply delete_visibility_ok in E as [Hv Hs'] end.
        unfold same_platforms in *. rewrite Hv. split; [by apply pruned_delete|]. split; [congruence|]. rewrite Hf.
        split; intros [_ (v0 & Hin & Hv0)]; (split; [done|]); exists v0; (split; [|done]).
        * apply elem_of_app. by left.
        * apply elem_of_app in Hin as [?| ->%list_elem_of_singleton]; [done|by destruct He].
      + split; [by apply pruned_keep|]. split; [done|]. rewrite Hf. naive_solver. }
  destruct I as (Hp & Hs & Hf).
  assert (Hw : forall pf, wanted public plan pf <-> public = true /\ pf = "") by (intros pf; unfold wanted; by rewrite Hall).
  assert (Hrow : forall id v, rg_visibilities w1 !! id = Some v -> vi_ServicePlanID v = planID -> v ∈ planVisibilities).
  { intros id v Hv Hpl. apply Listed. apply Hp in Hv as [Hv _]. by rewrite (proj1 Table _ _ Hv). }
  destruct (public && negb found) eqn:Hc.
  - apply andb_true_iff in Hc as [Hpub Hnf]. apply negb_true_iff in Hnf.
    apply persist_ok in E as (v & Hn & Hi & Hpf & Hnew & Hs'). split; [|unfold same_platforms in *; congruence].
    assert (Hnone : forall i u, rg_visibilities w1 !! i = Some u -> vi_ServicePlanID u = planID -> vi_PlatformID u <> "").
    { intros i x Hx Hpl He. rewrite (proj2 Hf) in Hnf; [done|]. split; [done|]. eauto. }
    eapply (resynced_when _ _ _ _ Table _ Listed _ _ [(vi_PlatformID v, vi_ID v)]).
    + exact Hp.
    + apply (extended_one _ _ _ [] v (extended_nil _) Hn Hi Hnew).
    + apply NoDup_singleton.
    + intros pf. simpl. rewrite list_elem_of_singleton, Hw, Hpf. split; [intros ->; auto|tauto].
    + intros pf [_ ->]%Hw. left. simpl. rewrite Hpf. by left.
  - c_inv. split; [|done]. eapply (resynced_when _ _ _ _ Table _ Listed _ _ []); [exact Hp|apply extended_nil|constructor| |].
    + intros pf. split; [intros Hn; inversion Hn|]. rewrite Hw. intros ([-> ->] & Hno). simpl in Hc. apply negb_false_iff in Hc.
      apply Hf in Hc as (_ & v & Hv & He). apply Listed in Hv as Hv'. destruct Hv' as [Hv' Hpl]. destruct (Hno (vi_ID v) v); [|done..].
      apply (pruned_rows true plan _ Table _ Listed); [done..|]. split; [done|]. unfold keeps. by rewrite Hall, He.
    + intros pf [-> ->]%Hw. simpl in Hc. apply negb_false_iff in Hc. apply Hf in Hc as (_ & v & Hv & He).
      apply Listed in Hv as Hv'. destruct Hv' as [Hv' Hpl]. right. exists (vi_ID v), v. split; [|done].
      apply (pruned_rows true plan _ Table _ Listed); [done..|]. split; [done|]. unfold keeps. by rewrite Hall, He.
Qed.

(** The state of the loop over the visibilities of a plan for some platforms. *)
Variable labelLess : list string.
Hypothesis Labelless : forall v, v ∈ planVisibilities -> vi_ID v ∈ labelLess <-> base_Labels (vi_Base v) = ∅.
Hypothesis Some_platforms : SupportsAllPlatforms plan = false.
Definition supported_left (pre : list Visibility) (left : gmap string Platform) : Prop :=
  (forall k, (forall v, v ∈ pre -> vi_PlatformID v <> k) -> left !! k = supports plan !! k) /\
  (public = true -> forall k x, left !! k = Some x <-> supports plan !! k = Some x /\
     forall v, v ∈ pre -> vi_PlatformID v = k -> keeps public plan v = false).
Lemma left_same pre x left : supported_left pre left -> (public = true -> keeps public plan x = false) -> supported_left (pre ++ [x])%list left.
Proof.
  intros [Hl Hp] Hk. split.
  - intros k Hn. apply Hl. intros v Hv. apply Hn, elem_of_app. by left.
  - intros Hpub k y. rewrite (Hp Hpub k y). split; intros [Hs Hn]; (split; [done|]); intros v.
    + intros [Hv| ->%list_elem_of_singleton]%elem_of_app; [by apply Hn|auto].
    + intros Hv. apply Hn, elem_of_app. by left.
Qed.
Lemma left_deleted pre x left : supported_left pre left -> keeps public plan x = true ->
  supported_left (pre ++ [x])%list (base.delete (vi_PlatformID x) left).
Proof.
  intros [Hl Hp] Hk. split.
  - intros k Hn. rewrite lookup_delete_ne; [apply Hl; intros v Hv; apply Hn, elem_of_app; by left|].
    apply Hn, elem_of_app. right. by apply list_elem_of_singleton.
  - intros Hpub k y. rewrite lookup_delete_Some, (Hp Hpub k y). split.
    + intros (Hne & Hs & Hn). split; [done|]. intros v [Hv| ->%list_elem_of_singleton]%elem_of_app; [by apply Hn|done].
    + intros (Hs & Hn). split; [|split; [done|]].
      * intros Heq. rewrite (Hn x) in Hk; [done| |done]. apply elem_of_app. right. by apply list_elem_of_singleton.
      * intros v Hv. apply Hn, elem_of_app. by left.
Qed.
(** One visibility: whether it stays, and the platforms that are left. *)
Lemma visibility_step x left w1 left' w2 : x ∈ planVisibilities -> left !! vi_PlatformID x = supports plan !! vi_PlatformID x ->
  resync_visibility tenantKey labelLess public left x w1 = (w2, Ok left') ->
  (keeps public plan x = true /\ w2 = w1 /\ (left' = base.delete (vi_PlatformID x) left \/ public = false /\ left' = left)) \/
  (keeps public plan x = false /\ left' = left /\ rg_visibilities w2 = base.delete (vi_ID x) (rg_visibilities w1) /\ same_platforms w1 w2).
Proof.
  intros Hx Hlook E. unfold resync_visibility, findPlatformByVisibility in E. unfold keeps.
  rewrite Hlook in E. rewrite Some_platforms, (bool_decide_ext _ _ (symmetry (Labelless x Hx))).
  destruct (supports plan !! vi_PlatformID x) as [pf|] eqn:Es.
  - rewrite (Supports_keys _ _ _ Es) in E.
    destruct (public || isTenantScoped tenantKey pf) eqn:Ep, (bool_decide (vi_ID x ∈ labelLess)); simpl in E |- *; c_inv;
      try (match goal with E : delete_visibility _ _ = _ |- _ => apply delete_visibility_ok in E as [Hv Hs] end; by right).
    + left. by split_and!; [..|left].
    + left. split_and!; [done..|right]. by apply orb_false_iff in Ep as [-> _].
  - c_inv. match goal with E : delete_visibility _ _ = _ |- _ => apply delete_visibility_ok in E as [Hv Hs] end. by right.
Qed.
Lemma some_platforms_loop left w' :
  NoDup planVisibilities ->
  c_fold (resync_visibility tenantKey labelLess public) (supports plan) planVisibilities w = (w', Ok left) ->
  pruned public plan (rg_visibilities w) planVisibilities (rg_visibilities w') /\ same_platforms w w' /\
  supported_left planVisibilities left.
Proof.
  intros Hnd E. pattern planVisibilities, left, w'. eapply c_fold_ok; [| |exact E]; clear E left w'.
  - split; [apply pruned_nil|]. split; [done|]. split; [done|]. intros _ k x. split; [|tauto].
    intros Hx. split; [done|]. intros v Hn. inversion Hn.
  - intros pre x post left v left' v' Hl (Hp & Hs & Hleft & Hpub) E.
    assert (Hx : x ∈ planVisibilities) by (rewrite Hl; set_solver). pose proof (proj1 (Listed x) Hx) as [Hrow Hpl].
    assert (Hne : forall u, u ∈ pre -> vi_PlatformID u <> vi_PlatformID x).
    { intros u Hu Heq. assert (Huv : u ∈ planVisibilities) by (rewrite Hl; set_solver).
      pose proof (proj1 (Listed u) Huv) as [Hurow Hupl].
      assert (Hid : vi_ID u = vi_ID x) by (eapply (proj2 Table); eauto; congruence).
      assert (u = x) as -> by congruence. rewrite Hl in Hnd. apply NoDup_app in Hnd as (_ & Hd & _). apply (Hd x Hu). by left. }
    apply visibility_step in E as [(Hk & -> & Hl')|(Hk & -> & Hv & Hs')]; [..|done|by apply Hleft].
    + split; [by apply pruned_keep|]. split; [done|]. destruct Hl' as [->|[Hpf ->]].
      * by apply left_deleted.
      * apply left_same; [done|]. congruence.
    + unfold same_platforms in *. rewrite Hv. split; [by apply pruned_delete|]. split; [congruence|]. by apply left_same.
Qed.
Lemma create_loop_extended (l : list (string * Platform)) w1 w' u :
  c_fold (fun _ x => persistVisibility x.1 planID broker) tt l w1 = (w', Ok u) ->
  exists made, made.*1 = l.*1 /\ extended broker plan made (rg_visibilities w1) (rg_visibilities w') /\ same_platforms w1 w'.
Proof.
  intros E. pattern l, u, w'. eapply c_fold_ok; [| |exact E]; clear E u w'.
  - exists []. split_and!; [done|apply extended_nil|done].
  - intros pre x post u v u' v' _ (made & Hm & He & Hs) (y & Hn & Hi & Hpf & Hnew & Hs')%persist_ok.
    exists (made ++ [(vi_PlatformID y, vi_ID y)])%list. rewrite !fmap_app, Hm, Hpf. split; [done|].
    split; [|unfold same_platforms in *; congruence]. rewrite <- Hpf. by eapply extended_one.
Qed.
Lemma some_platforms_resynced w' u : NoDup planVisibilities ->
  resyncPlanVisibilitiesWithSupportedPlatforms tenantKey planVisibilities public planID broker (supports plan) labelLess w = (w', Ok u) ->
  plan_resynced public broker plan (rg_visibilities w) (rg_visibilities w') /\ same_platforms w w'.
Proof.
  intros Hnd E. unfold resyncPlanVisibilitiesWithSupportedPlatforms in E.
  apply c_bind_ok in E as (w1 & left & (Hp & Hs & _ & Hl)%some_platforms_loop & E); [|done].
  assert (Hw : forall pf, wanted public plan pf <-> public = true /\ is_Some (supports plan !! pf))
    by (intros pf; unfold wanted; by rewrite Some_platforms).
  destruct public eqn:Hpub.
  - specialize (Hl eq_refl).
    apply c_bind_ok in E as (w2 & platforms & ([Hv2 Hs2] & Hnd2 & Hin)%r_range_ok & E); [|done].
    apply create_loop_extended in E as (made & Hm & He & Hs3). split; [|unfold same_platforms in *; congruence].
    rewrite Hv2 in He.
    assert (Hleft : forall pf, pf ∈ made.*1 <-> is_Some (left !! pf)).
    { intros pf. rewrite Hm, list_elem_of_fmap. split.
      - intros ([k x] & -> & Hx). apply Hin in Hx. eauto.
      - intros [x Hx]. exists (pf, x). split; [done|]. by apply Hin. }
    assert (Hkept : forall i v, rg_visibilities w1 !! i = Some v /\ vi_ServicePlanID v = planID <->
              i = vi_ID v /\ v ∈ planVisibilities /\ keeps true plan v = true).
    { intros i v. split.
      - intros [Hv Hpl]. apply (pruned_rows true plan _ Table _ Listed) in Hv as [Hv Hk]; [|done..].
        pose proof (proj1 Table _ _ Hv) as <-. split_and!; [done|by apply Listed|done].
      - intros (-> & [Hv Hpl]%Listed & Hk). split; [|done]. by apply (pruned_rows true plan _ Table _ Listed). }
    eapply (resynced_when _ _ _ _ Table _ Listed _ _ made); [exact Hp|exact He|by rewrite Hm| |].
    + intros pf. rewrite Hleft, Hw. split.
      * intros [x [Hx Hno]%Hl]. split; [split; [done|by eexists]|]. intros i v Hv Hpl Hpf.
        destruct (proj1 (Hkept i v) (conj Hv Hpl)) as (_ & Hvin & Hk). rewrite (Hno v) in Hk; done.
      * intros [[_ [x Hx]] Hno]. exists x. apply Hl. split; [done|]. intros v Hv Hpf.
        destruct (keeps true plan v) eqn:Hk; [|done].
        destruct (proj2 (Hkept (vi_ID v) v)) as [Hrow Hpl]; [done|]. by destruct (Hno (vi_ID v) v).
    + intros pf [_ [x Hx]]%Hw. rewrite Hleft.
      destruct (decide (Exists (fun v => vi_PlatformID v = pf /\ keeps true plan v = true) planVisibilities)) as [He'|He'].
      * right. apply Exists_exists in He' as (v & Hv & Hpf & Hk). exists (vi_ID v), v.
        destruct (proj2 (Hkept (vi_ID v) v)) as [? ?]; done.
      * left. exists x. apply Hl. split; [done|]. intros v Hv Hpf. destruct (keeps true plan v) eqn:Hk; [|done].
        destruct He'. apply Exists_exists. eauto.
  - c_inv. split; [|done]. eapply (resynced_when _ _ _ _ Table _ Listed _ _ []); [exact Hp|apply extended_nil|constructor| |].
    + intros pf. split; [intros Hn; inversion Hn|]. rewrite Hw. by intros [[? _] _].
    + intros pf [? _]%Hw. done.
Qed.
End Ways.
End Plan.

(** ** Supported platforms and visibilities of the plans of a broker *)
(** ** The resolver *)
Section Resolver.
Context `{RegistryEnv} `{JSONQueries}.
Lemma list_platforms_ok criteria w w' l : list_platforms criteria w = (w', Ok l) ->
  same_visibilities w w' /\ forall p, p ∈ l <-> p ∈ rows (rg_platforms w) /\ platform_matches criteria p = true.
Proof.
  intros (-> & Hs)%r_read_ok. split; [done|]. intros p. by rewrite list_elem_of_In, List.filter_In, <- list_elem_of_In.
Qed.
Lemma platform_rows (m : gmap string Platform) p : (forall id q, m !! id = Some q -> pl_ID q = id) ->
  p ∈ rows m <-> m !! pl_ID p = Some p.
Proof.
  intros Hk. unfold rows. rewrite list_elem_of_fmap. split.
  - intros ([id q] & -> & Hq%elem_of_map_to_list). simpl. by rewrite (Hk _ _ Hq).
  - intros Hp. exists (pl_ID p, p). split; [done|]. by apply elem_of_map_to_list.
Qed.
(** The map after the platforms of one list. *)
Lemma fold_platforms (l : list Platform) (m : gmap string Platform) id p :
  (forall q q', q ∈ l -> (q' ∈ l \/ m !! pl_ID q' = Some q') -> pl_ID q = pl_ID q' -> q = q') ->
  (forall k q, m !! k = Some q -> pl_ID q = k) ->
  foldl (fun m p => <[pl_ID p := p]> m) m l !! id = Some p <-> m !! id = Some p \/ pl_ID p = id /\ p ∈ l.
Proof.
  revert m. induction l as [|x l IH]; intros m Huniq Hk; simpl; [set_solver|]. rewrite IH.
  - rewrite lookup_insert_Some, elem_of_cons. split.
    + intros [[[? ?]|[? ?]]|[? ?]]; subst; auto.
    + intros [Hm|[Hid [->|Hin]]]; [|left; left; auto|right; auto].
      destruct (decide (pl_ID x = id)) as [He|He]; [|left; by right]. left. left. split; [done|].
      apply Huniq; [by left| |by rewrite (Hk _ _ Hm)]. right. by rewrite (Hk _ _ Hm).
  - intros q q' Hq [Hq'|Hq'] Heq; [apply Huniq; [by right|left; by right|done]|].
    apply lookup_insert_Some in Hq' as [[_ <-]|[_ Hq']]; [apply Huniq; [by right|left; by left|done]|].
    apply Huniq; [by right|by right|done].
  - intros k q [[? <-]|[_ ?]]%lookup_insert_Some; auto.
Qed.

(** Service Manager's own platform type stands for its aliases, and no other platform has one. *)
Definition platform_types_apart (w : registry_world) : Prop :=
  SMPlatform ∈ GetSMSupportedPlatformTypes /\
  forall p, p ∈ rows (rg_platforms w) -> pl_Type p ∈ GetSMSupportedPlatformTypes -> pl_Type p = SMPlatform.
Lemma type_criterion p types w : platform_types_apart w -> p ∈ rows (rg_platforms w) -> types <> [] ->
  Slice.StringsAnyEquals ((fun t => if Slice.StringsAnyEquals GetSMSupportedPlatformTypes t then SMPlatform else t) <$> types) (pl_Type p) =
  Nat.ltb 0 (length (Slice.StringsIntersection types
    (if String.eqb (pl_Type p) SMPlatform then GetSMSupportedPlatformTypes else [pl_Type p]))).
Proof.
  intros [Hsm Hap] Hp _. apply eq_true_iff_eq. rewrite Slice.any_equals_true, list_elem_of_fmap, Nat.ltb_lt. split.
  - intros (t & Ht & Hin).
    assert (Hx : exists t', t' ∈ Slice.StringsIntersection types (if String.eqb (pl_Type p) SMPlatform then GetSMSupportedPlatformTypes else [pl_Type p])).
    { exists t. unfold Slice.StringsIntersection. apply list_elem_of_In, List.filter_In. rewrite <- list_elem_of_In, Slice.any_equals_true.
      split; [|done]. destruct (Slice.StringsAnyEquals GetSMSupportedPlatformTypes t) eqn:Ea.
      - rewrite Ht, String.eqb_refl. by apply Slice.any_equals_true.
      - destruct (String.eqb_spec (pl_Type p) SMPlatform) as [He|_]; [|rewrite Ht; by left]. apply Slice.any_equals_false in Ea. congruence. }
    destruct Hx as (t' & Ht'). destruct (Slice.StringsIntersection _ _); [inversion Ht'|simpl; lia].
  - intros Hlen. destruct (Slice.StringsIntersection _ _) as [|t l] eqn:Ei; simpl in Hlen; [lia|].
    assert (Ht : t ∈ t :: l) by by left. rewrite <- Ei in Ht. unfold Slice.StringsIntersection in Ht.
    apply list_elem_of_In, List.filter_In in Ht as [Hin Ht]. apply list_elem_of_In in Hin. apply Slice.any_equals_true in Ht.
    exists t. split; [|done]. destruct (String.eqb_spec (pl_Type p) SMPlatform) as [He|He].
    + apply Slice.any_equals_true in Hin. by rewrite Hin.
    + apply list_elem_of_singleton in Hin as ->. destruct (Slice.StringsAnyEquals _ (pl_Type p)) eqn:Ea; [|done].
      apply Slice.any_equals_true, Hap in Ea; done.
Qed.
Lemma plan_criteria_correct plan p w : platform_types_apart w -> p ∈ rows (rg_platforms w) ->
  platform_matches (plan_criteria plan).1 p = SupportsPlatformInstance GetSMSupportedPlatformTypes plan (pl_Name p) (pl_Type p) /\
  ((plan_criteria plan).2 = true -> platform_matches (plan_criteria plan).1 p = true).
Proof.
  intros Hap Hp. unfold plan_criteria, SupportsPlatformInstance, SupportsPlatformType.
  destruct (ExcludedPlatformNames plan) as [|e es]; [|by split; [simpl; rewrite andb_true_r|]].
  destruct (SupportedPlatformNames plan) as [|n ns]; [|by split; [simpl; rewrite andb_true_r|]].
  destruct (SupportedPlatformTypes plan) as [|t ts] eqn:Et; [done|]. split; [|done]. simpl. rewrite andb_true_r.
  pose proof (type_criterion p (t :: ts) w Hap Hp) as Ht. unfold value_matches, platform_field. simpl. by apply Ht.
Qed.
End Resolver.

Section Resolved.
Context `{RegistryEnv} `{JSONQueries}.
Lemma resolve_platforms_correct plans m w w' m' :
  (forall id p, rg_platforms w !! id = Some p -> pl_ID p = id) -> platform_types_apart w ->
  m ⊆ rg_platforms w ->
  resolve_platforms m plans w = (w', Ok m') -> same_visibilities w w' /\
  forall id p, m' !! id = Some p <-> m !! id = Some p \/ rg_platforms w !! id = Some p /\
    exists plan, plan ∈ plans /\ SupportsPlatformInstance GetSMSupportedPlatformTypes plan (pl_Name p) (pl_Type p) = true.
Proof.
  intros Hk Hap. revert m w w' Hk Hap. induction plans as [|plan plans IH]; intros m w w' Hk Hap Hm E; simpl in E.
  { c_inv. split; [done|]. intros id p. split; [by left|]. intros [?|(_ & plan & Hn & _)]; [done|inversion Hn]. }
  destruct (plan_criteria plan) as [criteria all] eqn:Ec.
  apply c_bind_ok in E as (w1 & l & ([Hv Hp] & Hl)%list_platforms_ok & E).
  assert (Hcrit : forall p, p ∈ rows (rg_platforms w) -> platform_matches criteria p =
      SupportsPlatformInstance GetSMSupportedPlatformTypes plan (pl_Name p) (pl_Type p) /\ (all = true -> platform_matches criteria p = true)).
  { intros p Hin. pose proof (plan_criteria_correct plan p w Hap Hin) as Hc. by rewrite Ec in Hc. }
  assert (Hfold : forall id p, foldl (fun m p => <[pl_ID p := p]> m) m l !! id = Some p <-> m !! id = Some p \/ rg_platforms w !! id = Some p /\
            SupportsPlatformInstance GetSMSupportedPlatformTypes plan (pl_Name p) (pl_Type p) = true).
  { intros id p. rewrite fold_platforms.
    - rewrite Hl, platform_rows by done. split; (intros [?|[? ?]]; [by left|right]).
      + destruct H2 as [Hrow Hmt]. rewrite <- H1. split; [done|]. rewrite <- (proj1 (Hcrit p ltac:(by apply platform_rows))). done.
      + pose proof (Hk _ _ H1) as Hid. rewrite Hid. split_and!; [done..|]. rewrite (proj1 (Hcrit p ltac:(apply platform_rows; [done|by rewrite Hid]))). done.
    - intros q q' [Hq _]%Hl Hq' Heq. apply platform_rows in Hq; [|done]. destruct Hq' as [[Hq' _]%Hl|Hq'].
      + apply platform_rows in Hq'; [|done]. rewrite Heq in Hq. congruence.
      + eapply lookup_weaken in Hq'; [|exact Hm]. rewrite Heq in Hq. congruence.
    - intros k q Hq. apply Hk. by eapply lookup_weaken. }
  destruct all.
  - c_inv. split; [done|]. intros id p. rewrite Hfold. split; (intros [?|(Hrow & ?)]; [by left|right; split; [done|]]).
    + exists plan. split; [by left|done].
    + assert (Hin : p ∈ rows (rg_platforms w)) by (apply platform_rows; [done|by rewrite (Hk _ _ Hrow)]).
      destruct (Hcrit p Hin) as [<- Hall]. by apply Hall.
  - apply IH in E as [[Hv' Hp'] Hm']; [..|by rewrite Hp|unfold platform_types_apart in *; by rewrite Hp|].
    + split; [split; congruence|]. intros id p. rewrite Hm', Hfold, Hp. split.
      * intros [[?|[? ?]]|(? & q & ? & ?)]; [by left|right; split; [done|]; exists plan; by split; [left|]|right; split; [done|]; exists q; by split; [right|]].
      * intros [?|(? & q & [->|?]%elem_of_cons & ?)]; [by left; left|by left; right|right; split; [done|]; by exists q].
    + rewrite Hp. apply map_subseteq_spec. intros id p [Hq|[? _]]%Hfold; [by eapply lookup_weaken|done].
Qed.
End Resolved.

(** C30: when it succeeds, the platforms that the resolver finds for the plans of a catalog are
    exactly those of the table that one of the plans supports: the query the resolver makes and
    the check [SupportsPlatformInstance] of a plan and a platform agree.  This is for a table
    keyed by the ids of its platforms, in which no platform has a type that is a configured alias
    of Service Manager's own type (only that type itself, which is among the configured ones):
    for a platform of an alias type the query and the check do disagree. *)
Theorem resolver_finds_supported `{RegistryEnv} `{JSONQueries} plans w w' platforms :
  (forall id p, rg_platforms w !! id = Some p -> pl_ID p = id) -> platform_types_apart w ->
  ResolveSupportedPlatformsForPlans plans w = (w', Ok platforms) ->
  forall id p, platforms !! id = Some p <-> rg_platforms w !! id = Some p /\
    exists plan, plan ∈ plans /\ SupportsPlatformInstance GetSMSupportedPlatformTypes plan (pl_Name p) (pl_Type p) = true.
Proof.
  intros Hk Hap E id p. destruct (resolve_platforms_correct plans ∅ w w' platforms Hk Hap (map_empty_subseteq _) E) as [_ Hm].
  rewrite Hm. split; [intros [Hn|?]; [done|done]|by right].
Qed.

(** ** All plans of a broker *)
Section Broker.
Context `{RegistryEnv} `{JSONQueries}.
Variable isCatalogPlanPublicFunc : ServiceBroker -> ServiceOffering -> ServicePlan -> result bool.
Variable supportedPlatformsFunc : ServicePlan -> reg (gmap string Platform).
Variable tenantKey : string.
Variable supports : ServicePlan -> gmap string Platform.
Variables (broker : ServiceBroker) (services : list (ServiceOffering * list ServicePlan)) (w : registry_world).

(** What becomes of the visibilities of one plan. *)
Record plan_visibilities (public : bool) (plan : ServicePlan) (V V' : gmap string Visibility) : Prop := {
  pv_kept : forall id v, V !! id = Some v -> vi_ServicePlanID v = base_ID (sp_Base plan) ->
    keeps tenantKey supports public plan v = true -> V' !! id = Some v;
  pv_rows : forall id v, V' !! id = Some v -> vi_ServicePlanID v = base_ID (sp_Base plan) ->
    V !! id = Some v /\ keeps tenantKey supports public plan v = true \/
    wanted supports public plan (vi_PlatformID v) /\ new_visibility broker (base_ID (sp_Base plan)) id v /\
      forall i u, V !! i = Some u -> vi_ServicePlanID u = base_ID (sp_Base plan) -> vi_PlatformID u = vi_PlatformID v ->
        keeps tenantKey supports public plan u = false;
  pv_wanted : forall platformID, wanted supports public plan platformID ->
    exists id v, V' !! id = Some v /\ vi_ServicePlanID v = base_ID (sp_Base plan) /\ vi_PlatformID v = platformID
}.
Lemma plan_visibilities_of public plan V1 V2 V V' :
  plan_resynced tenantKey supports public broker plan V1 V2 ->
  (forall id v, vi_ServicePlanID v = base_ID (sp_Base plan) -> V1 !! id = Some v <-> V !! id = Some v) ->
  (forall id v, vi_ServicePlanID v = base_ID (sp_Base plan) -> V2 !! id = Some v <-> V' !! id = Some v) ->
  plan_visibilities public plan V V'.
Proof.
  intros [_ Hk Hr Hw _] H1 H2. constructor.
  - intros id v Hv Hp Hkp. apply H2; [done|]. by apply Hk; [apply H1|..].
  - intros id v Hv Hp. apply H2 in Hv; [|done]. destruct (Hr id v Hv Hp) as [[? ?]|(? & ? & Hno)]; [left; by split; [apply H1|]|right].
    split_and!; [done..|]. intros i u Hu Hup. apply (Hno i u); [by apply H1|done].
  - intros pf Hpf. destruct (Hw pf Hpf) as (id & v & Hv & Hp & ?). exists id, v. split; [by apply H2|done].
Qed.

Hypothesis Orders : rg_orders_permute.
Hypothesis Supports_keys : forall p k x, supports p !! k = Some x -> pl_ID x = k.
Hypothesis Supported : forall p v v' m, rg_platforms v = rg_platforms w -> supportedPlatformsFunc p v = (v', Ok m) ->
  same_visibilities v v' /\ m = supports p.
Hypothesis Table : visibility_rows (rg_visibilities w).

Definition broker_plan_ids : list string := services ≫= (fun x => (fun p => base_ID (sp_Base p)) <$> x.2).
Lemma label_less_ok labelLess w' : getLabelLessVisibilitiesByID services w = (w', Ok labelLess) ->
  same_visibilities w w' /\ forall v, rg_visibilities w !! vi_ID v = Some v -> vi_ServicePlanID v ∈ broker_plan_ids ->
    vi_ID v ∈ labelLess <-> base_Labels (vi_Base v) = ∅.
Proof.
  unfold getLabelLessVisibilitiesByID. fold broker_plan_ids. destruct broker_plan_ids as [|i l] eqn:Ep; intros E.
  - c_inv. split; [done|]. intros v _ Hn. inversion Hn.
  - rewrite <- Ep in E |- *. apply r_read_ok in E as [-> Hs]. split; [done|]. intros v Hv Hin.
    rewrite list_elem_of_fmap. split.
    + intros (u & Hid & Hu). apply list_elem_of_In, List.filter_In in Hu as [Hu Hc]. apply list_elem_of_In, list_elem_of_fmap in Hu as ([k u'] & -> & Hu).
      apply elem_of_map_to_list in Hu. simpl in *. rewrite <- (proj1 Table _ _ Hu), <- Hid, Hv in Hu. simplify_eq.
      apply andb_true_iff in Hc as [_ Hc]. by apply bool_decide_eq_true in Hc.
    + intros Hl. exists v. split; [done|]. apply list_elem_of_In, List.filter_In. split.
      * apply list_elem_of_In, list_elem_of_fmap. exists (vi_ID v, v). split; [done|]. by apply elem_of_map_to_list.
      * apply andb_true_iff. split; by apply bool_decide_eq_true.
Qed.

(** One plan of the loop. *)
Lemma plan_step labelLess x p w1 w2 u :
  rg_platforms w1 = rg_platforms w -> visibility_rows (rg_visibilities w1) ->
  (forall v, rg_visibilities w1 !! vi_ID v = Some v -> vi_ServicePlanID v = base_ID (sp_Base p) -> vi_ID v ∈ labelLess <-> base_Labels (vi_Base v) = ∅) ->
  resync_plan_visibilities isCatalogPlanPublicFunc supportedPlatformsFunc tenantKey broker labelLess x p w1 = (w2, Ok u) ->
  exists public, isCatalogPlanPublicFunc broker x p = Ok public /\
    plan_resynced tenantKey supports public broker p (rg_visibilities w1) (rg_visibilities w2) /\ rg_platforms w2 = rg_platforms w.
Proof.
  intros Hpl Htab Hlab E. unfold resync_plan_visibilities in E.
  apply c_bind_ok in E as (w3 & public & [= <- Hpub] & E). exists public. split; [done|].
  apply c_bind_ok in E as (w4 & pv & [Hpv [Hv4 Hp4]]%r_read_ok & E).
  assert (Listed : forall v, v ∈ pv <-> rg_visibilities w1 !! vi_ID v = Some v /\ vi_ServicePlanID v = base_ID (sp_Base p)).
  { intros v. rewrite Hpv, list_elem_of_In, List.filter_In, <- list_elem_of_In, String.eqb_eq. unfold rows. rewrite list_elem_of_fmap. split.
    - intros [([k v'] & -> & Hk%elem_of_map_to_list) ?]. simpl in *. by rewrite (proj1 Htab _ _ Hk).
    - intros [Hk ?]. split; [|done]. exists (vi_ID v, v). split; [done|]. by apply elem_of_map_to_list. }
  rewrite <- Hv4 in Htab, Listed, Hlab |- *. rewrite <- Hp4 in Hpl.
  destruct (SupportsAllPlatforms p) eqn:Hall.
  - eapply all_platforms_resynced in E as [Hr Hs]; try done. split; [done|]. unfold same_platforms in Hs. congruence.
  - apply c_bind_ok in E as (w5 & m & E5 & E). destruct (Supported _ _ _ _ Hpl E5) as [[Hv5 Hp5] ->].
    rewrite <- Hv5 in Htab, Listed, Hlab |- *.
    eapply (some_platforms_resynced tenantKey supports) in E as [Hr Hs]; try done.
    + split; [done|]. unfold same_platforms in Hs. congruence.
    + intros v [? ?]%Listed. by apply Hlab.
    + rewrite Hpv. apply NoDup_ListNoDup, List.NoDup_filter, NoDup_ListNoDup. unfold rows.
      apply NoDup_fmap_2_strong; [|apply NoDup_map_to_list].
      intros [i a] [j b] Ha%elem_of_map_to_list Hb%elem_of_map_to_list Heq. simpl in Heq. subst b.
      f_equal. rewrite <- (proj1 Htab i a), <- (proj1 Htab j a); [done|by rewrite ?Hv5, ?Hv4..].
Qed.

(** After the plans [pre] of the broker. *)
Record visibilities_after (pre : list (ServiceOffering * ServicePlan)) (w' : registry_world) : Prop := {
  va_platforms : rg_platforms w' = rg_platforms w;
  va_table : visibility_rows (rg_visibilities w');
  va_others : forall id v, vi_ServicePlanID v ∉ (fun x : ServiceOffering * ServicePlan => base_ID (sp_Base x.2)) <$> pre ->
    rg_visibilities w' !! id = Some v <-> rg_visibilities w !! id = Some v;
  va_plans : forall x p, (x, p) ∈ pre -> exists public, isCatalogPlanPublicFunc broker x p = Ok public /\
    plan_visibilities public p (rg_visibilities w) (rg_visibilities w')
}.
Lemma broker_step labelLess pre x p w1 w2 u :
  (forall v, rg_visibilities w !! vi_ID v = Some v -> vi_ServicePlanID v = base_ID (sp_Base p) -> vi_ID v ∈ labelLess <-> base_Labels (vi_Base v) = ∅) ->
  base_ID (sp_Base p) ∉ (fun x : ServiceOffering * ServicePlan => base_ID (sp_Base x.2)) <$> pre ->
  visibilities_after pre w1 ->
  resync_plan_visibilities isCatalogPlanPublicFunc supportedPlatformsFunc tenantKey broker labelLess x p w1 = (w2, Ok u) ->
  visibilities_after (pre ++ [(x, p)])%list w2.
Proof.
  intros Hlab Hn [A1 A2 A3 A4] E.
  assert (Hrows : forall id v, vi_ServicePlanID v = base_ID (sp_Base p) -> rg_visibilities w1 !! id = Some v <-> rg_visibilities w !! id = Some v).
  { intros id v Hv. apply A3. by rewrite Hv. }
  apply plan_step in E as (public & Hpub & Hr & Hp); [|done..|].
  - constructor; [done|apply Hr|..].
    + intros id v. rewrite fmap_app, not_elem_of_app. intros [Hv Hv']. rewrite (pr_others _ _ _ _ _ _ _ Hr); [by apply A3|].
      intros Heq. apply Hv', list_elem_of_singleton. done.
    + intros y q [Hin|[= -> ->]%list_elem_of_singleton]%elem_of_app.
      * destruct (A4 y q Hin) as (b & Hb & [K1 K2 K3]). exists b. split; [done|].
        assert (Hsame : forall id v, vi_ServicePlanID v = base_ID (sp_Base q) -> rg_visibilities w2 !! id = Some v <-> rg_visibilities w1 !! id = Some v).
        { intros id v Hv. apply (pr_others _ _ _ _ _ _ _ Hr). rewrite Hv. intros Heq. apply Hn. rewrite <- Heq.
          by apply (list_elem_of_fmap_2 (fun x : ServiceOffering * ServicePlan => base_ID (sp_Base x.2)) _ (y, q)). }
        constructor.
        -- intros id v Hv Hq Hk. apply Hsame; [done|]. by apply K1.
        -- intros id v Hv Hq. apply K2; [by apply Hsame|done].
        -- intros pf (id & v & Hv & Hq & ?)%K3. exists id, v. split; [by apply Hsame|done].
      * exists public. split; [done|]. by eapply plan_visibilities_of.
  - intros v Hv Hq. apply Hlab; [by apply Hrows|done].
Qed.
Lemma broker_resynced w' u : NoDup broker_plan_ids ->
  resync isCatalogPlanPublicFunc supportedPlatformsFunc tenantKey broker services w = (w', Ok u) ->
  visibilities_after (services ≫= fun x => pair x.1 <$> x.2) w'.
Proof.
  intros Hn E. unfold resync in E. apply c_bind_ok in E as (w1 & labelLess & [[Hv1 Hp1] Hlab]%label_less_ok & E).
  rewrite (c_fold_ext _ (fun u x => c_fold (fun _ p => resync_plan_visibilities isCatalogPlanPublicFunc supportedPlatformsFunc tenantKey broker labelLess x.1 p) u x.2)) in E by by intros [].
  apply (c_fold_nested (fun _ x p => resync_plan_visibilities isCatalogPlanPublicFunc supportedPlatformsFunc tenantKey broker labelLess x p)) in E.
  set (flat := services ≫= fun x => pair x.1 <$> x.2) in *.
  assert (Hids : broker_plan_ids = (fun x : ServiceOffering * ServicePlan => base_ID (sp_Base x.2)) <$> flat).
  { unfold broker_plan_ids, flat. clear. induction services as [|[x ps] l IH]; [done|]. rewrite !bind_cons, fmap_app, IH.
    f_equal. by rewrite <- list_fmap_compose. }
  pattern flat, u, w'. eapply c_fold_ok; [| |exact E]; clear E u w'.
  - constructor; [congruence|by rewrite Hv1|by rewrite Hv1|]. intros x p Hin. inversion Hin.
  - intros pre [x p] post u w2 u' w3 Hl A E. eapply broker_step; [| |exact A|exact E].
    + intros v Hv Hq. apply Hlab; [done|]. rewrite Hids, Hl, Hq.
      apply (list_elem_of_fmap_2 (fun x : ServiceOffering * ServicePlan => base_ID (sp_Base x.2)) _ (x, p)). apply elem_of_app. right. by left.
    + rewrite Hids, Hl, fmap_app in Hn. apply NoDup_app in Hn as (_ & Hd & _). intros Hin. apply (Hd _ Hin). by left.
Qed.
End Broker.

(** C19: when the visibilities of the plans of a broker are resynchronized, the visibilities of
    every plan are in the end exactly the ones that are meant to be.  Those that stay are the
    public one (of a public plan for all platforms), the ones for platforms (of a plan for all
    platforms that is not public), and of a plan for some platforms those of its platforms
    without labels, or with labels when neither the plan is public nor the platform one of a
    tenant.  A public plan ends up visible to all, or with one visibility for each of its
    platforms, where what is new has no labels.  Visibilities of other plans are as they were,
    and there is still one for each plan and platform. *)
Theorem visibilities_resynced `{RegistryEnv} `{JSONQueries} isCatalogPlanPublicFunc supportedPlatformsFunc tenantKey supports
    broker services w w' u :
  rg_orders_permute -> (forall p k x, supports p !! k = Some x -> pl_ID x = k) ->
  (forall p v v' m, rg_platforms v = rg_platforms w -> supportedPlatformsFunc p v = (v', Ok m) -> same_visibilities v v' /\ m = supports p) ->
  visibility_rows (rg_visibilities w) -> NoDup (broker_plan_ids services) ->
  resync isCatalogPlanPublicFunc supportedPlatformsFunc tenantKey broker services w = (w', Ok u) ->
  visibility_rows (rg_visibilities w') /\
  (forall id v, vi_ServicePlanID v ∉ broker_plan_ids services -> rg_visibilities w' !! id = Some v <-> rg_visibilities w !! id = Some v) /\
  (forall x ps p, (x, ps) ∈ services -> p ∈ ps -> exists public, isCatalogPlanPublicFunc broker x p = Ok public /\
     plan_visibilities tenantKey supports broker public p (rg_visibilities w) (rg_visibilities w')).
Proof.
  intros Ho Hk Hs Ht Hn E. eapply (broker_resynced _ _ _ supports) in E as [_ A2 A3 A4]; try done.
  split; [done|]. split.
  - intros id v Hv. apply A3. intros ([x p] & Heq & ([y ps] & (q & [= -> ->] & Hq)%list_elem_of_fmap & Hin)%list_elem_of_bind)%list_elem_of_fmap.
    apply Hv. rewrite Heq. apply list_elem_of_bind. exists (y, ps). split; [|done]. by apply (list_elem_of_fmap_2 (fun p => base_ID (sp_Base p))).
  - intros x ps p Hx Hp. apply A4. apply list_elem_of_bind. exists (x, ps). split; [|done]. by apply list_elem_of_fmap_2.
Qed.
