(* ===== verification/NotificationHooks.v ===== *)
(** * Notifications of brokers and visibilities (storage/interceptors/notifications_interceptor.go,
    visibility_notifications_interceptor.go, broker_notifications_interceptor.go,
    pkg/types/notification.go)

    The hooks inside a transaction that write a notification for each platform that has to
    learn of a change. *)

From S2P Require Import Prelude GoStd Errors Labels Query WebFilters OperationTypes DomainTypes WorldMonad Catalog Registry PublicPlans.
From stdpp Require Import base gmap strings list.
From Stdlib Require Import ZArith.
Local Open Scope string_scope.

(** ** Notifications *)
Definition op_string (op : NotificationOperation) : string :=
  match op with CREATED => "CREATED" | MODIFIED => "MODIFIED" | DELETED => "DELETED" end.
Definition Notification_Validate (n : Notification) : result unit :=
  guard_err (HasRFC3986ReservedSymbols (base_ID (no_Base n))) (EPlain (base_ID (no_Base n) ++ " contains invalid character(s)")) ;;;
  guard_err (String.eqb (no_Resource n) "") (EPlain "notification resource missing").

(** ** The objects of the hooks *)
Definition r_base (o : robject) : Base := match o with RBroker b _ => br_Base b | RVisibility v => vi_Base v end.
Definition r_id (o : robject) : string := base_ID (r_base o).
Definition r_ready (o : robject) : bool := base_Ready (r_base o).
Definition r_type (o : robject) : string :=
  match o with RBroker _ _ => "/v1/service_brokers" | RVisibility _ => "/v1/visibilities" end.
Definition r_labels (o : robject) : gmap string (list string) := base_Labels (r_base o).
Definition with_labels (b : Base) (l : gmap string (list string)) : Base :=
  {| base_ID := base_ID b; base_CreatedAt := base_CreatedAt b; base_UpdatedAt := base_UpdatedAt b; base_Labels := l;
     base_PagingSequence := base_PagingSequence b; base_Ready := base_Ready b; base_LastOperation := base_LastOperation b |}.
Definition r_SetLabels (l : gmap string (list string)) (o : robject) : robject :=
  match o with
  | RBroker b s =>
      RBroker {| br_Base := with_labels (br_Base b) l; br_Name := br_Name b; br_Description := br_Description b;
                 br_BrokerURL := br_BrokerURL b; br_Credentials := br_Credentials b; br_Catalog := br_Catalog b |} s
  | RVisibility v =>
      RVisibility {| vi_Base := with_labels (vi_Base v) l; vi_PlatformID := vi_PlatformID v; vi_ServicePlanID := vi_ServicePlanID v |}
  end.
Definition r_Equals (a b : robject) : bool :=
  match a, b with
  | RBroker a _, RBroker b _ => ServiceBroker_Equals a b
  | RVisibility a, RVisibility b => Visibility_Equals a b
  | _, _ => false
  end.

Record NotificationsInterceptor := {
  PlatformIDsProviderFunc : robject -> reg (list string);
  AdditionalDetailsFunc : list robject -> reg (gmap string additional);
  DeletePostConditionFunc : robject -> string -> reg unit
}.

Section Hooks.
Context `{RegistryEnv}.
Definition create_notification (n : Notification) : reg unit := r_storage (fun w =>
  if bool_decide (base_ID (no_Base n) ∈ (fun m => base_ID (no_Base m)) <$> rg_notifications w)
  then (w, Err EAlreadyExistsInStorage)
  else (with_rg_notifications (rg_notifications w ++ [n])%list w, Ok tt)).

(** The text of a payload, without the credentials. *)
Definition payload_text (payload : Payload) : result string :=
  let* payloadBytes := rg_marshal payload in
  let* payloadBytes := rg_sjson_delete payloadBytes "old.resource.credentials" in
  rg_sjson_delete payloadBytes "new.resource.credentials".
Definition CreateNotification (op : NotificationOperation) (resource platformID : string) (payload : Payload) : reg unit :=
  cat! uuid <- (fun w => match r_outside rg_uuid w with
                         | (w', Err e) => (w', Err (EPlain ("could not generate GUID for notification of type " ++ op_string op ++
                                                            " for resource of type " ++ resource ++ ": " ++ Error e)))
                         | r => r
                         end);
  cat! payloadBytes <- c_lift (payload_text payload);
  cat! currentTime <- r_outside (fun n => Ok (rg_now n));
  create_notification {| no_Base := {| base_ID := uuid; base_CreatedAt := currentTime; base_UpdatedAt := currentTime;
                                       base_Labels := ∅; base_PagingSequence := 0; base_Ready := true;
                                       base_LastOperation := None |};
                         no_Resource := resource; no_Type := op; no_PlatformID := platformID; no_Payload := payloadBytes;
                         no_CorrelationID := rg_correlation |}.

Definition determinePlatformIDs (oldPlatformIDs updatedPlatformIDs : list string)
    : list string * list string * list string :=
  let preexisting := Slice.StringsIntersection oldPlatformIDs updatedPlatformIDs in
  (preexisting, Slice.StringsDistinct updatedPlatformIDs preexisting, Slice.StringsDistinct oldPlatformIDs preexisting).

Variable ni : NotificationsInterceptor.
Definition created_payload (o : robject) (a : option additional) : Payload :=
  {| New := Some {| Resource_ := o; Additional := a |}; Old := None; Payload_LabelChanges := [] |}.
Definition deleted_payload (o : robject) (a : option additional) : Payload :=
  {| New := None; Old := Some {| Resource_ := o; Additional := a |}; Payload_LabelChanges := [] |}.
Definition modified_payload (new old : robject) (a : option additional) (changes : list LabelChange) : Payload :=
  {| New := Some {| Resource_ := new; Additional := a |}; Old := Some {| Resource_ := old; Additional := a |};
     Payload_LabelChanges := changes |}.

Definition OnTxCreate_notify (h : reg robject) (obj : robject) : reg robject :=
  cat! newObj <- h;
  cat! additionalDetails <- AdditionalDetailsFunc ni [obj];
  cat! platformIDs <- PlatformIDsProviderFunc ni obj;
  if negb (r_ready newObj) then c_ret newObj
  else
    c_fold (fun _ platformID =>
      CreateNotification CREATED (r_type newObj) platformID (created_payload newObj (additionalDetails !! r_id obj))) tt platformIDs >;
    c_ret newObj.

Definition OnTxUpdate_notify (h : reg robject) (oldObject : robject) (labelChanges : list LabelChange) : reg robject :=
  cat! oldPlatformIDs <- PlatformIDsProviderFunc ni oldObject;
  cat! updatedObject <- h;
  if negb (r_ready updatedObject) then c_ret updatedObject
  else
    cat! detailsMap <- AdditionalDetailsFunc ni [updatedObject];
    let additionalDetails := detailsMap !! r_id updatedObject in
    cat! updatedPlatformIDs <- PlatformIDsProviderFunc ni updatedObject;
    if negb (r_ready oldObject) && r_ready updatedObject then
      c_fold (fun _ platformID =>
        CreateNotification CREATED (r_type updatedObject) platformID (created_payload updatedObject additionalDetails)) tt updatedPlatformIDs >;
      c_ret updatedObject
    else
      let '(preexisting, added, removed) := determinePlatformIDs oldPlatformIDs updatedPlatformIDs in
      (** the labels are taken out of the two objects while the notifications are written *)
      let updated := if r_Equals updatedObject oldObject then r_SetLabels ∅ updatedObject else updatedObject in
      let old := r_SetLabels ∅ oldObject in
      c_fold (fun _ platformID =>
        CreateNotification CREATED (r_type updatedObject) platformID (created_payload updated additionalDetails)) tt added >;
      c_fold (fun _ platformID =>
        CreateNotification DELETED (r_type updatedObject) platformID (deleted_payload old additionalDetails) >;
        DeletePostConditionFunc ni old platformID) tt removed >;
      c_fold (fun _ platformID =>
        CreateNotification MODIFIED (r_type updatedObject) platformID (modified_payload updated old additionalDetails labelChanges))
        tt (preexisting ++ added)%list >;
      c_ret updatedObject.

Definition OnTxDelete_notify (h : reg unit) (objects : list robject) : reg unit :=
  cat! objectIDPlatformsMap <- c_fold (fun (m : gmap string (list string)) oldObject =>
    cat! platformIDs <- PlatformIDsProviderFunc ni oldObject;
    c_ret (<[r_id oldObject := platformIDs]> m)) ∅ objects;
  cat! additionalDetails <- AdditionalDetailsFunc ni objects;
  h >;
  c_fold (fun _ oldObject =>
    c_fold (fun _ platformID =>
      CreateNotification DELETED (r_type oldObject) platformID (deleted_payload oldObject (additionalDetails !! r_id oldObject)))
      tt (default [] (objectIDPlatformsMap !! r_id oldObject))) tt objects.
End Hooks.

(** ** Visibilities *)
Section Visibilities.
Context `{RegistryEnv}.
Definition fetchVisibilityPlans (visibilities : list Visibility) : reg (gmap string ServicePlan) :=
  let planIDs := vi_ServicePlanID <$> visibilities in
  r_read (fun w => filter (fun kv => kv.1 ∈ planIDs) (rg_plans w)).
Definition fetchPlanOfferings (plans : gmap string ServicePlan) : reg (gmap string ServiceOffering) :=
  let offeringIDs := sp_ServiceOfferingID <$> rows plans in
  r_read (fun w => filter (fun kv => kv.1 ∈ offeringIDs) (rg_offerings w)).
Definition fetchOfferingBrokers (offerings : gmap string ServiceOffering) : reg (gmap string ServiceBroker) :=
  let brokerIDs := so_BrokerID <$> rows offerings in
  r_read (fun w => filter (fun kv => kv.1 ∈ brokerIDs) (rg_brokers w)).
Definition or_nil {A} (x : option A) : reg A :=
  match x with Some a => c_ret a | None => fun w => (w, Panic "invalid memory address or nil pointer dereference") end.
Definition visibility_of (o : robject) : reg Visibility :=
  match o with RVisibility v => c_ret v | RBroker _ _ => fun w => (w, Panic "interface conversion") end.
Definition VisibilityAdditional_Validate `{JSONQueries} (brokerID brokerName : string) (plan : option ServicePlan) : result unit :=
  guard_err (String.eqb brokerID "") (EPlain "broker id cannot be empty") ;;;
  guard_err (String.eqb brokerName "") (EPlain "broker name cannot be empty") ;;;
  match plan with
  | None => Err (EPlain "visibility details service plan cannot be empty")
  | Some p => ServicePlan_Validate p
  end.

Definition NewVisibilityNotificationsInterceptor : NotificationsInterceptor :=
  {| PlatformIDsProviderFunc obj :=
       cat! v <- visibility_of obj;
       c_ret (if negb (String.eqb (vi_PlatformID v) SMPlatform) then [vi_PlatformID v] else []);
     AdditionalDetailsFunc objects :=
       cat! visibilities <- c_fold (fun l o => cat! v <- visibility_of o; c_ret (l ++ [v])%list) [] objects;
       match visibilities with
       | [] => c_ret ∅
       | _ =>
           cat! plans <- fetchVisibilityPlans visibilities;
           cat! offerings <- fetchPlanOfferings plans;
           cat! brokers <- fetchOfferingBrokers offerings;
           c_fold (fun (details : gmap string additional) vis =>
             cat! plan <- or_nil (plans !! vi_ServicePlanID vis);
             cat! offering <- or_nil (offerings !! sp_ServiceOfferingID plan);
             cat! broker <- or_nil (brokers !! so_BrokerID offering);
             c_ret (<[vi_ID vis := VisibilityAdditional (base_ID (br_Base broker)) (br_Name broker) plan]> details)) ∅ visibilities
       end;
     DeletePostConditionFunc _ _ := c_ret tt |}.
End Visibilities.

(** ** Brokers *)
Section Brokers.
Context `{RegistryEnv} `{JSONQueries}.
Definition broker_of (o : robject) : reg (ServiceBroker * list (ServiceOffering * list ServicePlan)) :=
  match o with RBroker b s => c_ret (b, s) | RVisibility _ => fun w => (w, Panic "interface conversion") end.
(** The plans of the offerings of a broker. *)
Definition broker_offerings (brokerID : string) : reg (list ServiceOffering) :=
  r_read (fun w => List.filter (fun x => String.eqb (so_BrokerID x) brokerID) (rows (rg_offerings w))).
Definition plans_of_offerings (serviceOfferingIDs : list string) : reg (list ServicePlan) :=
  r_read (fun w => List.filter (fun p => bool_decide (sp_ServiceOfferingID p ∈ serviceOfferingIDs)) (rows (rg_plans w))).
Definition fetchBrokerPlans (brokerID : string) : reg (list ServicePlan) :=
  cat! offerings <- broker_offerings brokerID;
  match offerings with
  | [] => c_ret []
  | _ => plans_of_offerings ((fun x => base_ID (so_Base x)) <$> offerings)
  end.
(** [catalog.Load] *)
Definition Load_catalog (brokerID : string) : reg (list (ServiceOffering * list ServicePlan)) :=
  cat! offerings <- broker_offerings brokerID;
  match offerings with
  | [] => c_ret []
  | _ =>
      cat! plans <- plans_of_offerings ((fun x => base_ID (so_Base x)) <$> offerings);
      c_ret ((fun x => (x, List.filter (fun p => String.eqb (sp_ServiceOfferingID p) (base_ID (so_Base x))) plans)) <$> offerings)
  end.
(** The first occurrence is replaced by the last element. *)
Fixpoint replace_first (platforms : list string) (x y : string) : list string :=
  match platforms with
  | [] => []
  | p :: rest => if String.eqb p x then y :: rest else p :: replace_first rest x y
  end.
Definition removeSMPlatform (platforms : list string) : list string :=
  match last platforms with
  | Some l =>
      if Slice.StringsAnyEquals platforms SMPlatform
      then take (pred (length platforms)) (replace_first platforms SMPlatform l)
      else platforms
  | None => platforms
  end.
Definition BrokerAdditional_Validate (services : list (ServiceOffering * list ServicePlan)) : result unit :=
  guard_err (Nat.eqb (length services) 0) (EPlain "broker details services cannot be empty").

Variables (tenantKey : string) (notificationsKeepFor : Z).
(** Whether a platform is active, or was in the time for which notifications are kept. *)
Definition is_notified (p : Platform) : reg bool :=
  if pl_Technical p then c_ret false
  else if pl_Active p then c_ret true
  else cat! now <- r_outside (fun n => Ok (rg_now n)); c_ret (now - notificationsKeepFor <? pl_LastActive p)%Z.
Definition NewBrokerNotificationsInterceptor : NotificationsInterceptor :=
  {| PlatformIDsProviderFunc obj :=
       cat! b <- broker_of obj;
       let '(broker, services) := b in
       cat! plans <- (match services with
                      | [] => fetchBrokerPlans (base_ID (br_Base broker))
                      | _ => c_ret (services ≫= snd)
                      end);
       cat! supportedPlatforms <- (match base_Labels (br_Base broker) !! tenantKey with
                                   | Some (tenant :: _) => ResolveSupportedPlatformsForTenant plans tenantKey tenant
                                   | _ => ResolveSupportedPlatformsForPlans plans
                                   end);
       cat! platforms <- r_range supportedPlatforms;
       cat! supportedPlatformIDs <- c_fold (fun l x =>
         cat! (ok : bool) <- is_notified x.2; c_ret (if ok then (l ++ [x.1])%list else l)) [] platforms;
       c_ret (removeSMPlatform supportedPlatformIDs);
     AdditionalDetailsFunc objects :=
       c_fold (fun (details : gmap string additional) o =>
         cat! b <- broker_of o;
         let '(broker, services) := b in
         cat! services <- (match services with
                           | [] => Load_catalog (base_ID (br_Base broker))
                           | _ => c_ret services
                           end);
         c_ret (<[base_ID (br_Base broker) := BrokerAdditional services]> details)) ∅ objects;
     DeletePostConditionFunc object platformID := fun w =>
       match r_storage (fun w =>
         let gone := filter (fun kv => bpc_BrokerID kv.2 = r_id object /\ bpc_PlatformID kv.2 = platformID) (rg_credentials w) in
         if bool_decide (gone = ∅) then (w, Err ENotFoundInStorage)
         else (with_rg_credentials (rg_credentials w ∖ gone) w, Ok tt)) w with
       | (w', Err ENotFoundInStorage) => (w', Ok tt)
       | r => r
       end |}.
End Brokers.
