(* ===== verification/NotificationTheorems.v ===== *)
(** * Which platforms are notified of a change

    The promises that the hooks need of what tells them the platforms ([NotifierLaws]), that
    brokers and visibilities keep them, and what an update writes. *)

From S2P Require Import Prelude GoStd Errors Query Labels WebFilters OperationTypes DomainTypes WorldMonad Catalog CatalogTheorems Registry PublicPlans PublicPlansTheorems NotificationHooks.
From stdpp Require Import base gmap strings list pretty.
From Stdlib Require Import ZArith.
Local Open Scope string_scope.

Definition same_notifications (w w' : registry_world) : Prop := rg_notifications w' = rg_notifications w.
(** What the hooks rely on: nobody else writes notifications, and no platform is named twice. *)
Class NotifierLaws (ni : NotificationsInterceptor) := {
  platforms_read_only : forall o w w' ids, PlatformIDsProviderFunc ni o w = (w', Ok ids) -> same_notifications w w';
  platforms_once : forall o w w' ids, PlatformIDsProviderFunc ni o w = (w', Ok ids) -> NoDup ids;
  details_read_only : forall l w w' d, AdditionalDetailsFunc ni l w = (w', Ok d) -> same_notifications w w';
  condition_silent : forall o p w w' u, DeletePostConditionFunc ni o p w = (w', Ok u) -> same_notifications w w'
}.

(** ** Writing notifications *)
Section Writing.
Context `{RegistryEnv}.
Notation message := (NotificationOperation * string * Payload)%type.
(** A notification says what was meant to be said. *)
Definition notification_of (resource : string) (m : message) (n : Notification) : Prop :=
  no_Type n = m.1.1 /\ no_PlatformID n = m.1.2 /\ no_Resource n = resource /\ payload_text m.2 = Ok (no_Payload n) /\
  base_Ready (no_Base n) = true.
Definition sent (resource : string) (l : list message) (w w' : registry_world) : Prop :=
  exists ns, rg_notifications w' = (rg_notifications w ++ ns)%list /\ Forall2 (notification_of resource) l ns.
Lemma sent_nothing r w w' : same_notifications w w' -> sent r [] w w'.
Proof. intros Hs. exists []. rewrite app_nil_r. by split. Qed.
Lemma sent_app r l1 l2 w1 w2 w3 : sent r l1 w1 w2 -> sent r l2 w2 w3 -> sent r (l1 ++ l2)%list w1 w3.
Proof.
  intros (n1 & E1 & F1) (n2 & E2 & F2). exists (n1 ++ n2)%list. rewrite E2, E1, <- app_assoc. split; [done|].
  by apply Forall2_app.
Qed.
Lemma r_outside_quiet {A} (f : nat -> result A) w w' r : r_outside f w = (w', r) -> same_notifications w w'.
Proof. by intros [= <- _]. Qed.
Lemma r_read_quiet {A} (f : registry_world -> A) w w' r : r_read f w = (w', r) -> same_notifications w w'.
Proof. unfold r_read, r_storage. destruct (rg_fault _); by intros [= <- _]. Qed.

Lemma CreateNotification_sends op resource platformID payload w w' u :
  CreateNotification op resource platformID payload w = (w', Ok u) -> sent resource [(op, platformID, payload)] w w'.
Proof.
  intros E. unfold CreateNotification in E. apply c_bind_ok in E as (w1 & uuid & E1 & E).
  destruct (r_outside rg_uuid w) as [w1' r] eqn:Eo. apply r_outside_quiet in Eo. destruct r; [|discriminate..]. injection E1 as -> ->.
  apply c_bind_ok in E as (w2 & text & [= <- Ht] & E).
  apply c_bind_ok in E as (w3 & now & E3%r_outside_quiet & E).
  unfold create_notification, r_storage in E. destruct (rg_fault _); [discriminate|].
  case_bool_decide; [discriminate|]. injection E as <- _. eexists. unfold same_notifications in *. simpl. rewrite E3, Eo.
  split; [done|]. by constructor.
Qed.
Lemma loop_sends op resource payload (ids : list string) w w' u :
  c_fold (fun _ platformID => CreateNotification op resource platformID payload) tt ids w = (w', Ok u) ->
  sent resource ((fun p => (op, p, payload)) <$> ids) w w'.
Proof.
  intros E. pattern ids, u, w'. eapply c_fold_ok; [| |exact E]; clear E u w'.
  - by apply sent_nothing.
  - intros pre x post u w1 u' w2 _ Hs E%CreateNotification_sends. rewrite fmap_app. by eapply sent_app.
Qed.
End Writing.

(** ** An update *)
Section Update.
Context `{RegistryEnv}.
Variable ni : NotificationsInterceptor.
Context `{!NotifierLaws ni}.

(** What an update has to say: the object appears on the platforms that are new, disappears from
    those that are not named any more, and has changed on those of now. *)
Definition update_messages (old updated : robject) (details : option additional) (changes : list LabelChange)
    (oldIDs updatedIDs : list string) : list (NotificationOperation * string * Payload) :=
  if r_ready old then
    let updated' := if r_Equals updated old then r_SetLabels ∅ updated else updated in
    let old' := r_SetLabels ∅ old in
    let added := filter (fun p => p ∉ oldIDs) updatedIDs in
    (((fun p => (CREATED, p, created_payload updated' details)) <$> added) ++
     ((fun p => (DELETED, p, deleted_payload old' details)) <$> filter (fun p => p ∉ updatedIDs) oldIDs) ++
     ((fun p => (MODIFIED, p, modified_payload updated' old' details changes)) <$>
        (filter (fun p => p ∈ oldIDs) updatedIDs ++ added)))%list
  else (fun p => (CREATED, p, created_payload updated details)) <$> updatedIDs.

Lemma filters_agree {A} (f : A -> bool) (P : A -> Prop) `{!forall x, Decision (P x)} l :
  (forall x, x ∈ l -> f x = true <-> P x) -> List.filter f l = filter P l.
Proof.
  induction l as [|x l IH]; intros Hf; [done|]. simpl. rewrite filter_cons, IH by (intros y Hy; apply Hf; by right).
  destruct (Hf x) as [H1 H2]; [by left|]. destruct (f x) eqn:E, (decide (P x)) as [Hd|Hd]; [done|by destruct Hd; apply H1| |done].
  by specialize (H2 Hd).
Qed.
Lemma determine_correct oldIDs updatedIDs : NoDup updatedIDs ->
  determinePlatformIDs oldIDs updatedIDs =
  (filter (fun p => p ∈ oldIDs) updatedIDs, filter (fun p => p ∉ oldIDs) updatedIDs, filter (fun p => p ∉ updatedIDs) oldIDs).
Proof.
  intros Hn. unfold determinePlatformIDs.
  assert (Hi : Slice.StringsIntersection oldIDs updatedIDs = filter (fun p => p ∈ oldIDs) updatedIDs)
    by (apply filters_agree; intros; apply Slice.any_equals_true).
  rewrite Hi. set (pre := filter (fun p => p ∈ oldIDs) updatedIDs).
  assert (Hpre : forall x, x ∈ pre <-> x ∈ oldIDs /\ x ∈ updatedIDs) by (intros x; apply (list_elem_of_filter (fun p => p ∈ oldIDs))).
  unfold Slice.StringsDistinct. rewrite !decide_False.
  - rewrite !app_nil_r. f_equal; [f_equal|]; apply filters_agree; intros x Hx;
      rewrite negb_true_iff, Slice.any_equals_false, Hpre; tauto.
  - assert (Hle : (length pre <= length oldIDs)%nat); [|lia]. apply submseteq_length, NoDup_submseteq; [by apply NoDup_filter|].
    intros x Hx. by apply Hpre.
  - assert (Hle : (length pre <= length updatedIDs)%nat); [|lia]. apply length_filter.
Qed.
End Update.

(** ** Visibilities and brokers keep the promises *)
Section Promises.
Context `{RegistryEnv} `{JSONQueries}.
Lemma quiet_fold {A S} (f : S -> A -> reg S) l s w w' s' :
  (forall s x w w' s', f s x w = (w', Ok s') -> same_notifications w w') -> c_fold f s l w = (w', Ok s') -> same_notifications w w'.
Proof.
  intros Hf E. unfold same_notifications in *. pattern l, s', w'. eapply c_fold_ok; [| |exact E]; [done|].
  intros pre x post s1 w1 s2 w2 _ <- Ex. by eapply Hf.
Qed.
Lemma quiet_trans w1 w2 w3 : same_notifications w1 w2 -> same_notifications w2 w3 -> same_notifications w1 w3.
Proof. unfold same_notifications. congruence. Qed.
Lemma or_nil_quiet {A} (x : option A) w w' a : or_nil x w = (w', Ok a) -> same_notifications w w'.
Proof. destruct x; [by intros [= <- _]|discriminate]. Qed.
Lemma visibility_of_quiet o w w' v : visibility_of o w = (w', Ok v) -> w' = w /\ o = RVisibility v.
Proof. destruct o; [discriminate|]. by intros [= <- <-]. Qed.
Lemma broker_of_quiet o w w' v : broker_of o w = (w', Ok v) -> w' = w.
Proof. destruct o; [|discriminate]. by intros [= <- _]. Qed.

#[export] Instance visibility_notifier : NotifierLaws NewVisibilityNotificationsInterceptor.
Proof.
  constructor; simpl.
  - intros o w w' ids E. apply c_bind_ok in E as (w1 & v & [-> _]%visibility_of_quiet & [-> _]%c_ret_ok). done.
  - intros o w w' ids E. apply c_bind_ok in E as (w1 & v & _ & [_ ->]%c_ret_ok). destruct (negb _); [apply NoDup_singleton|constructor].
  - intros l w w' d E. apply c_bind_ok in E as (w1 & vs & E1 & E). eapply quiet_trans.
    { eapply quiet_fold; [|exact E1]. intros s x v v' s' Ex. apply c_bind_ok in Ex as (v1 & y & [-> _]%visibility_of_quiet & [-> _]%c_ret_ok). done. }
    destruct vs; [by c_inv|].
    apply c_bind_ok in E as (w2 & plans & E2%r_read_quiet & E). apply c_bind_ok in E as (w3 & offerings & E3%r_read_quiet & E).
    apply c_bind_ok in E as (w4 & brokers & E4%r_read_quiet & E).
    eapply quiet_trans; [exact E2|]. eapply quiet_trans; [exact E3|]. eapply quiet_trans; [exact E4|].
    eapply quiet_fold; [|exact E]. intros s x a b s' Ex.
    apply c_bind_ok in Ex as (a1 & p & Ea%or_nil_quiet & Ex). apply c_bind_ok in Ex as (a2 & offering & Eb%or_nil_quiet & Ex).
    apply c_bind_ok in Ex as (a3 & br & Ec%or_nil_quiet & [-> _]%c_ret_ok). eapply quiet_trans; [exact Ea|]. by eapply quiet_trans.
  - by intros o p w w' u [= <- _].
Qed.

(** The platform of Service Manager is taken out, whatever the order. *)
Lemma replace_first_app a b x y : x ∉ a -> replace_first (a ++ x :: b) x y = (a ++ y :: b)%list.
Proof.
  induction a as [|z a IH]; intros Hx; simpl; [by rewrite String.eqb_refl|].
  destruct (String.eqb_spec z x) as [->|_]; [destruct Hx; by left|]. rewrite IH; [done|]. intros ?. apply Hx. by right.
Qed.
Lemma removeSMPlatform_once l : NoDup l -> NoDup (removeSMPlatform l) /\ forall x, x ∈ removeSMPlatform l <-> x ∈ l /\ x <> SMPlatform.
Proof.
  intros Hn. unfold removeSMPlatform. destruct (last l) as [y|] eqn:El.
  2: { apply last_None in El as ->. split; [constructor|]. intros x. split; [intros Hx; inversion Hx|by intros [Hx _]]. }
  destruct (Slice.StringsAnyEquals l SMPlatform) eqn:Es.
  2: { apply Slice.any_equals_false in Es. split; [done|]. intros x. split; [|tauto]. intros Hx. split; [done|]. by intros ->. }
  apply last_Some in El as [l' ->]. rewrite length_app. simpl. rewrite Nat.add_1_r. simpl.
  apply Slice.any_equals_true in Es. apply NoDup_app in Hn as Hn'. destruct Hn' as (Hl' & Hd & _).
  assert (Hy : y ∉ l') by (intros Hin; apply (Hd y Hin); by left).
  destruct (decide (SMPlatform ∈ l')) as [Hin|Hin].
  - apply list_elem_of_split in Hin as (a & b & ->). apply NoDup_app in Hl' as (Ha & Hda & Hb). apply NoDup_cons in Hb as [Hnb Hb].
    assert (Hna : SMPlatform ∉ a) by (intros Hx; apply (Hda _ Hx); by left).
    rewrite <- app_assoc. simpl. rewrite replace_first_app by done.
    replace (a ++ y :: b ++ [y])%list with ((a ++ y :: b) ++ [y])%list by by rewrite <- app_assoc.
    rewrite take_app_length' by (by rewrite !length_app). split.
    + apply NoDup_app. split_and!; [done| |].
      * intros x Hx [->|Hxb]%elem_of_cons; [apply Hy, elem_of_app; by left|]. apply (Hda x Hx). by right.
      * apply NoDup_cons. split; [|done]. intros Hyb. apply Hy, elem_of_app. right. by right.
    + intros x. rewrite !elem_of_app, !elem_of_cons, elem_of_app, list_elem_of_singleton. split.
      * intros [Hx|[->|Hx]]; (split; [tauto|]); intros ->; [done| |done]. apply Hy, elem_of_app. right. by left.
      * intros [[?|[?|[?|?]]] ?]; tauto.
  - assert (y = SMPlatform) as -> by (apply elem_of_app in Es as [?|?%list_elem_of_singleton]; done).
    rewrite replace_first_app by done. rewrite take_app_length' by done. split; [done|].
    intros x. rewrite elem_of_app, list_elem_of_singleton. split; [|tauto]. intros Hx. split; [by left|]. by intros ->.
Qed.
Lemma resolve_quiet plans m w w' m' : resolve_platforms m plans w = (w', Ok m') -> same_notifications w w'.
Proof.
  revert m w. induction plans as [|p plans IH]; intros m w E; simpl in E; [by c_inv|].
  destruct (plan_criteria p) as [criteria all]. apply c_bind_ok in E as (w1 & l & E1%r_read_quiet & E).
  eapply quiet_trans; [exact E1|]. destruct all; [by c_inv|by eapply IH].
Qed.
Lemma fetch_plans_quiet id w w' l : fetchBrokerPlans id w = (w', Ok l) -> same_notifications w w'.
Proof.
  intros E. unfold fetchBrokerPlans in E. apply c_bind_ok in E as (w1 & os & E1%r_read_quiet & E).
  eapply quiet_trans; [exact E1|]. destruct os; [by c_inv|by apply r_read_quiet in E].
Qed.
Lemma Load_quiet id w w' l : Load_catalog id w = (w', Ok l) -> same_notifications w w'.
Proof.
  intros E. unfold Load_catalog in E. apply c_bind_ok in E as (w1 & os & E1%r_read_quiet & E).
  eapply quiet_trans; [exact E1|]. destruct os; [by c_inv|].
  by apply c_bind_ok in E as (w2 & ps & E2%r_read_quiet & [-> _]%c_ret_ok).
Qed.
Lemma supported_quiet plans labels tenantKey w w' m :
  (match (labels : option (list string)) with
   | Some (tenant :: _) => ResolveSupportedPlatformsForTenant plans tenantKey tenant
   | _ => ResolveSupportedPlatformsForPlans plans
   end) w = (w', Ok m) -> same_notifications w w'.
Proof.
  destruct labels as [[|t l]|]; [by intros E%resolve_quiet| |by intros E%resolve_quiet].
  intros E. unfold ResolveSupportedPlatformsForTenant in E. apply c_bind_ok in E as (w1 & ps & E1%resolve_quiet & E).
  apply c_bind_ok in E as (w2 & l2 & [= <- _] & [-> _]%c_ret_ok). done.
Qed.
Lemma is_notified_quiet keepFor p w w' b : is_notified keepFor p w = (w', Ok b) -> same_notifications w w'.
Proof.
  unfold is_notified. destruct (pl_Technical p); [by intros [-> _]%c_ret_ok|]. destruct (pl_Active p); [by intros [-> _]%c_ret_ok|].
  intros E. by apply c_bind_ok in E as (w1 & now & E1%r_outside_quiet & [-> _]%c_ret_ok).
Qed.
(** The platforms of a broker that are notified, of those that were ranged over. *)
Lemma notified_loop keepFor (platforms : list (string * Platform)) w w' ids : NoDup platforms.*1 ->
  c_fold (fun l x => cat! (ok : bool) <- is_notified keepFor x.2; c_ret (if ok then (l ++ [x.1])%list else l)) [] platforms w = (w', Ok ids) ->
  same_notifications w w' /\ NoDup ids.
Proof.
  intros Hn E. cut (same_notifications w w' /\ ids `sublist_of` platforms.*1).
  { intros [? Hs]. split; [done|]. by eapply sublist_NoDup. }
  pattern platforms, ids, w'. eapply c_fold_ok; [| |exact E]; clear E ids w'; [by split|].
  intros pre x post l w1 l' w2 _ [Hq Hs] Ex. apply c_bind_ok in Ex as (w3 & ok & E3%is_notified_quiet & [-> ->]%c_ret_ok).
  split; [by eapply quiet_trans|]. rewrite fmap_app. destruct ok; [by apply sublist_app|]. by apply sublist_inserts_r.
Qed.
Hypothesis Orders : rg_orders_permute.
Lemma broker_notifier tenantKey keepFor : NotifierLaws (NewBrokerNotificationsInterceptor tenantKey keepFor).
Proof.
  assert (Hp : forall o w w' ids, PlatformIDsProviderFunc (NewBrokerNotificationsInterceptor tenantKey keepFor) o w = (w', Ok ids) ->
    same_notifications w w' /\ NoDup ids).
  { simpl. intros o w w' ids E. apply c_bind_ok in E as (w1 & [b s] & ->%broker_of_quiet & E).
    apply c_bind_ok in E as (w2 & plans & E2 & E). apply c_bind_ok in E as (w3 & m & E3%supported_quiet & E).
    apply c_bind_ok in E as (w4 & l & E4 & E). apply c_bind_ok in E as (w5 & l5 & E5 & [-> ->]%c_ret_ok).
    assert (Q2 : same_notifications w w2) by (destruct s; [by eapply fetch_plans_quiet|by apply c_ret_ok in E2 as [-> _]]).
    assert (Q4 : same_notifications w3 w4) by by injection E4 as <- _.
    apply r_range_ok in E4 as (_ & Hn & _); [|done]. apply notified_loop in E5 as [Q5 H5]; [|done]. split.
    - eapply quiet_trans; [exact Q2|]. eapply quiet_trans; [exact E3|]. by eapply quiet_trans.
    - by apply removeSMPlatform_once. }
  constructor; [by intros; eapply Hp|by intros; eapply Hp| |].
  - simpl. intros l w w' d E. eapply quiet_fold; [|exact E]. intros s x v v' s' Ex.
    apply c_bind_ok in Ex as (v1 & [b sv] & ->%broker_of_quiet & Ex). apply c_bind_ok in Ex as (v2 & sv' & E2 & [-> _]%c_ret_ok).
    destruct sv; [by eapply Load_quiet|by apply c_ret_ok in E2 as [-> _]].
  - simpl. intros o p w w' u E. unfold r_storage in E. destruct (rg_fault _) as [e|].
    + destruct e; try discriminate. by injection E as <- _.
    + case_bool_decide; by injection E as <- _.
Qed.
End Promises.

(** C20: what an update of a broker or a visibility tells the platforms.  The platforms are
    asked for before and after the rest of the chain [h] has run; for an object that is ready
    then, exactly the notifications of [update_messages] are written behind those that were
    there, in that order: when the object has just become ready a CREATED for each platform, and
    otherwise a CREATED for each platform that is new, a DELETED for each that is gone, and a
    MODIFIED for each of the platforms of now.  An object that is not ready is not mentioned.
    The labels of the object that is returned are not touched. *)
Theorem update_notifies `{RegistryEnv} ni `{!NotifierLaws ni} h old changes w w' res :
  OnTxUpdate_notify ni h old changes w = (w', Ok res) ->
  exists w1 oldIDs w2, PlatformIDsProviderFunc ni old w = (w1, Ok oldIDs) /\ h w1 = (w2, Ok res) /\
    if r_ready res then
      exists w3 details w4 updatedIDs, AdditionalDetailsFunc ni [res] w2 = (w3, Ok details) /\
        PlatformIDsProviderFunc ni res w3 = (w4, Ok updatedIDs) /\
        sent (r_type res) (update_messages old res (details !! r_id res) changes oldIDs updatedIDs) w2 w'
    else rg_notifications w' = rg_notifications w2.
Proof.
  intros E. unfold OnTxUpdate_notify in E.
  apply c_bind_ok in E as (w1 & oldIDs & E1 & E). apply c_bind_ok in E as (w2 & updated & E2 & E).
  exists w1, oldIDs, w2. destruct (r_ready updated) eqn:Hr; cbn [negb] in E; [|c_inv; by rewrite Hr].
  apply c_bind_ok in E as (w3 & details & E3 & E). apply c_bind_ok in E as (w4 & updatedIDs & E4 & E).
  pose proof (details_read_only _ _ _ _ E3) as Q3. pose proof (platforms_read_only _ _ _ _ E4) as Q4.
  assert (Q : sent (r_type updated) [] w2 w4) by (apply sent_nothing; unfold same_notifications in *; congruence).
  unfold update_messages. destruct (r_ready old) eqn:Ho; cbn [negb andb] in E.
  - rewrite determine_correct in E by by eapply platforms_once.
    apply c_bind_ok in E as (w5 & u5 & E5%loop_sends & E). apply c_bind_ok in E as (w6 & u6 & E6 & E).
    apply c_bind_ok in E as (w7 & u7 & E7%loop_sends & [-> ->]%c_ret_ok).
    split; [done|]. split; [done|]. rewrite Hr. exists w3, details, w4, updatedIDs. split_and!; [done..|].
    eapply (sent_app _ []); [exact Q|]. eapply sent_app; [exact E5|]. eapply sent_app; [|exact E7].
    pattern (filter (fun p => p ∉ updatedIDs) oldIDs), u6, w6. eapply c_fold_ok; [| |exact E6].
    + by apply sent_nothing.
    + intros pre x post u v u' v' _ Hs Ex. apply c_bind_ok in Ex as (v1 & y & Ec%CreateNotification_sends & Ed%condition_silent).
      rewrite fmap_app. eapply sent_app; [exact Hs|]. rewrite <- (app_nil_r (_ <$> [x])). eapply sent_app; [exact Ec|by apply sent_nothing].
  - apply c_bind_ok in E as (w5 & u5 & E5%loop_sends & [-> ->]%c_ret_ok).
    split; [done|]. split; [done|]. rewrite Hr. exists w3, details, w4, updatedIDs. split_and!; [done..|].
    by eapply (sent_app _ []).
Qed.

(** ** The theorems on platforms, visibilities and notifications at a concrete registry

    Two platforms of different types; a plan for all platforms that is public, and one for
    Kubernetes; a visibility that moves from one platform to the other. *)
#[local] Instance registry_json : JSONQueries :=
  {| gjson_raw _ _ := ""; gjson_array m k := if String.eqb m "k8s" && String.eqb k "supportedPlatforms" then Some ["kubernetes"] else None;
     json_is_object _ := true; json_is_array _ := true |}.
#[local] Instance toy_registry : RegistryEnv :=
  {| rg_fault _ := None; rg_uuid n := Ok ("new-" +:+ pretty n); rg_now n := Z.of_nat n; rg_order _ l := l;
     GetSMSupportedPlatformTypes := [SMPlatform]; rg_marshal _ := Ok "{}"; rg_sjson_delete s _ := Ok s; rg_correlation := "c" |}.

Definition toy_platform (id type : string) : Platform :=
  {| pl_Base := catalog_base id 1; pl_Type := type; pl_Name := id; pl_Description := ""; pl_Credentials := None;
     pl_OldCredentials := None; pl_Version := ""; pl_Active := true; pl_Suspended := false; pl_LastActive := 0%Z;
     pl_Integrity := ""; pl_CredentialsActive := false; pl_Technical := false |}.
Definition plan_for (id metadata : string) : ServicePlan :=
  {| sp_Base := catalog_base id 1; sp_Name := id; sp_Description := "d"; sp_CatalogID := id;
     sp_CatalogName := id; sp_Free := None; sp_Bindable := None; sp_PlanUpdatable := None; sp_Metadata := metadata;
     sp_Schemas := ""; sp_MaximumPollingDuration := 0%Z; sp_MaintenanceInfo := ""; sp_ServiceOfferingID := "o1" |}.
Definition toy_visibility (id platformID planID : string) : Visibility :=
  {| vi_Base := catalog_base id 1; vi_PlatformID := platformID; vi_ServicePlanID := planID |}.
Definition toy_tables_reg : registry_world :=
  {| rg_brokers := {["broker" := toy_broker]}; rg_offerings := {["o1" := toy_offering "o1" "s1" "broker"]};
     rg_plans := {["all" := plan_for "all" ""; "some" := plan_for "some" "k8s"]};
     rg_platforms := {["cf" := toy_platform "cf" "cloudfoundry"; "k" := toy_platform "k" "kubernetes"]};
     rg_visibilities := {["v1" := toy_visibility "v1" "cf" "all"; "v2" := toy_visibility "v2" "cf" "some"]};
     rg_credentials := ∅; rg_notifications := []; rg_calls := 0 |}.
Definition toy_services : list (ServiceOffering * list ServicePlan) :=
  [(toy_offering "o1" "s1" "broker", [plan_for "all" ""; plan_for "some" "k8s"])].

Lemma two_platforms id p : rg_platforms toy_tables_reg !! id = Some p ->
  id = "cf" /\ p = toy_platform "cf" "cloudfoundry" \/ id = "k" /\ p = toy_platform "k" "kubernetes".
Proof. simpl. rewrite lookup_insert_Some, lookup_singleton_Some. intros [[<- <-]|[_ [<- <-]]]; auto. Qed.
Lemma platform_keys id p : rg_platforms toy_tables_reg !! id = Some p -> pl_ID p = id.
Proof. by intros [[-> ->]|[-> ->]]%two_platforms. Qed.
Lemma toy_types_apart : platform_types_apart toy_tables_reg.
Proof.
  split; [by left|]. intros p Hp. apply platform_rows in Hp; [|apply platform_keys].
  apply two_platforms in Hp as [[_ ->]|[_ ->]]; by intros Hn%list_elem_of_singleton.
Qed.

Lemma resolver_finds_supported_witness :
  exists w' platforms, ResolveSupportedPlatformsForPlans [plan_for "some" "k8s"] toy_tables_reg = (w', Ok platforms) /\
    platforms !! "k" = Some (toy_platform "k" "kubernetes") /\ platforms !! "cf" = None.
Proof.
  destruct (ResolveSupportedPlatformsForPlans [plan_for "some" "k8s"] toy_tables_reg) as [w' [m| |]] eqn:E;
    [|exfalso; revert E; vm_compute; discriminate..].
  pose proof (resolver_finds_supported [plan_for "some" "k8s"] toy_tables_reg w' m platform_keys toy_types_apart E) as Hm.
  exists w', m. split; [reflexivity|]. clear E. split.
  - apply Hm. split; [reflexivity|]. exists (plan_for "some" "k8s"). split; [by left|reflexivity].
  - destruct (m !! "cf") as [p|] eqn:Ep; [|reflexivity]. apply Hm in Ep as (Hrow & plan & Hin & Hs).
    apply list_elem_of_singleton in Hin as ->. apply two_platforms in Hrow as [[_ ->]|[[=] _]]. discriminate Hs.
Defined.

(** Every plan is public; its platforms are those the resolver finds. *)
Definition all_public (b : ServiceBroker) (o : ServiceOffering) (p : ServicePlan) : result bool := Ok true.
Definition resolved (p : ServicePlan) : gmap string Platform :=
  match ResolveSupportedPlatformsForPlans [p] toy_tables_reg with (_, Ok m) => m | _ => ∅ end.
Lemma resolve_depends p v v' m : rg_platforms v = rg_platforms toy_tables_reg -> ResolveSupportedPlatformsForPlans [p] v = (v', Ok m) ->
  same_visibilities v v' /\ m = resolved p.
Proof.
  intros Hv E. unfold resolved, ResolveSupportedPlatformsForPlans in *. simpl in *. destruct (plan_criteria p) as [criteria all].
  unfold list_platforms, r_read, r_storage, c_bind in *. simpl in *. rewrite Hv in E.
  destruct all; injection E as <- <-; done.
Qed.
Lemma resolved_keys p k x : resolved p !! k = Some x -> pl_ID x = k.
Proof.
  unfold resolved. destruct (ResolveSupportedPlatformsForPlans [p] toy_tables_reg) as [w' [m| |]] eqn:E; [|done..].
  intros Hx. destruct (resolve_platforms_correct [p] ∅ _ _ _ platform_keys toy_types_apart (map_empty_subseteq _) E) as [_ Hm].
  apply Hm in Hx as [Hn|[Hrow _]]; [done|]. by apply platform_keys.
Qed.
Lemma toy_visibility_rows : visibility_rows (rg_visibilities toy_tables_reg).
Proof.
  assert (Hr : forall id v, rg_visibilities toy_tables_reg !! id = Some v ->
    id = "v1" /\ v = toy_visibility "v1" "cf" "all" \/ id = "v2" /\ v = toy_visibility "v2" "cf" "some").
  { intros id v. simpl. rewrite lookup_insert_Some, lookup_singleton_Some. intros [[<- <-]|[_ [<- <-]]]; auto. }
  split; [by intros id v [[-> ->]|[-> ->]]%Hr|].
  by intros i j u v [[-> ->]|[-> ->]]%Hr [[-> ->]|[-> ->]]%Hr.
Qed.

Lemma visibilities_resynced_witness :
  exists w', resync all_public (fun p => ResolveSupportedPlatformsForPlans [p]) "tenant" toy_broker toy_services toy_tables_reg = (w', Ok tt) /\
    visibility_rows (rg_visibilities w') /\
    (exists id v, rg_visibilities w' !! id = Some v /\ vi_ServicePlanID v = "all" /\ vi_PlatformID v = "") /\
    (exists id v, rg_visibilities w' !! id = Some v /\ vi_ServicePlanID v = "some" /\ vi_PlatformID v = "k").
Proof.
  destruct (resync all_public (fun p => ResolveSupportedPlatformsForPlans [p]) "tenant" toy_broker toy_services toy_tables_reg)
    as [w' [[]| |]] eqn:E; [|exfalso; revert E; vm_compute; discriminate..].
  exists w'. split; [reflexivity|].
  destruct (visibilities_resynced all_public (fun p => ResolveSupportedPlatformsForPlans [p]) "tenant" resolved toy_broker toy_services
    toy_tables_reg w' tt) as (Hrows & _ & Hplans).
  - intros n l. reflexivity.
  - apply resolved_keys.
  - apply resolve_depends.
  - apply toy_visibility_rows.
  - clear E. by apply (bool_decide_unpack _).
  - exact E.
  - clear E. split; [exact Hrows|]. split.
    + destruct (Hplans (toy_offering "o1" "s1" "broker") [plan_for "all" ""; plan_for "some" "k8s"] (plan_for "all" "")) as (b & Hb & [_ _ Hw]);
        [by left|by left|]. injection Hb as <-. apply Hw. split; reflexivity.
    + destruct (Hplans (toy_offering "o1" "s1" "broker") [plan_for "all" ""; plan_for "some" "k8s"] (plan_for "some" "k8s")) as (b & Hb & [_ _ Hw]);
        [by left|by right; left|]. injection Hb as <-. apply Hw. split; [reflexivity|]. by eexists.
Defined.

Lemma notified_summary resource l ns : Forall2 (notification_of resource) l ns ->
  (fun n => (no_Type n, no_PlatformID n)) <$> ns = fst <$> l.
Proof.
  induction 1 as [|[[op pf] p] n l ns (Ht & Hp & _) _ IH]; [done|]. rewrite !fmap_cons, IH. simpl in *. by rewrite Ht, Hp.
Qed.
(** A visibility moves from one platform to another. *)
Definition moved : robject := RVisibility (toy_visibility "v2" "k" "some").
Lemma update_notifies_witness :
  exists w' ns, OnTxUpdate_notify NewVisibilityNotificationsInterceptor (c_ret moved) (RVisibility (toy_visibility "v2" "cf" "some")) [] toy_tables_reg
      = (w', Ok moved) /\ rg_notifications w' = ns /\
    (fun n => (no_Type n, no_PlatformID n)) <$> ns = [(CREATED, "k"); (DELETED, "cf"); (MODIFIED, "k")].
Proof.
  destruct (OnTxUpdate_notify NewVisibilityNotificationsInterceptor (c_ret moved) (RVisibility (toy_visibility "v2" "cf" "some")) [] toy_tables_reg)
    as [w' [res| |]] eqn:E; [|exfalso; revert E; vm_compute; discriminate..].
  assert (Hres : res = moved) by (clear -E; revert E; vm_compute; by intros [= _ <-]). subst res.
  exists w', (rg_notifications w'). split; [reflexivity|]. split; [reflexivity|].
  destruct (update_notifies NewVisibilityNotificationsInterceptor (c_ret moved) (RVisibility (toy_visibility "v2" "cf" "some")) []
    toy_tables_reg w' moved E) as (w1 & oldIDs & w2 & E1 & E2 & w3 & details & w4 & ids & E3 & E4 & ns & Hns & Hf).
  clear E. injection E1 as <- <-. injection E2 as <-. injection E4 as _ <-. rewrite Hns.
  change (rg_notifications toy_tables_reg ++ ns)%list with ns. rewrite (notified_summary _ _ _ Hf). reflexivity.
Defined.
