(* ===== verification/ApiFilters.v ===== *)
(** * The filters of the REST API (api/filters)

    Every filter ends either in [return next.Handle(req)] or in an answer or an error of its
    own, so that its [Run] is a computation on the request and the state that says whether to
    go on ([filter_step], [Run_of]).  A filter only reads the storage: the tables are those
    the handler finds as well.  A criterion selects rows as its SQL does: NULL is [None]. *)

From S2P Require Import Prelude GoStd Errors Labels Query WhereClause WebFilters OperationTypes DomainTypes RequestBody WorldMonad OSBPlugins.
From stdpp Require Import base gmap strings list.
From Stdlib Require Import ZArith.
Import Operators Criteria.
Local Open Scope string_scope.

(** ** Requests (pkg/web) *)
Definition PlatformsURL : string := "/v1/platforms".
Definition ServiceBrokersURL : string := "/v1/service_brokers".
Definition ServiceOfferingsURL : string := "/v1/service_offerings".
Definition ServicePlansURL : string := "/v1/service_plans".
Definition ServiceInstancesURL : string := "/v1/service_instances".
Definition ServiceBindingsURL : string := "/v1/service_bindings".
Definition VisibilitiesURL : string := "/v1/visibilities".
Definition OSBURL : string := "/v1/osb".

Inductive AuthenticationType := Basic | Bearer.
Inductive AccessLevel := NoAccess | TenantAccess | AllTenantAccess | GlobalAccess.
#[global] Instance AuthenticationType_eq_dec : EqDecision AuthenticationType.
Proof. solve_decision. Defined.
#[global] Instance AccessLevel_eq_dec : EqDecision AccessLevel.
Proof. solve_decision. Defined.
(** [uc_Data]: what [Data] gives for a platform. *)
Record UserContext := {
  uc_Data : result Platform;
  uc_AuthenticationType : AuthenticationType;
  uc_Name : string;
  uc_AccessLevel : AccessLevel
}.
Record filter_request := {
  fr_Method : string;
  fr_Path : string;
  fr_Header : gmap string string;
  fr_PathParams : gmap string string;
  fr_Query : gmap string string;
  fr_Body : string;
  fr_User : option UserContext;
  fr_Criteria : list Criterion;
  fr_SMAAPOperated : bool;
  fr_GenerateCredentials : bool
}.
Definition with_fr_Body (b : string) (r : filter_request) : filter_request :=
  {| fr_Method := fr_Method r; fr_Path := fr_Path r; fr_Header := fr_Header r; fr_PathParams := fr_PathParams r;
     fr_Query := fr_Query r; fr_Body := b; fr_User := fr_User r; fr_Criteria := fr_Criteria r;
     fr_SMAAPOperated := fr_SMAAPOperated r; fr_GenerateCredentials := fr_GenerateCredentials r |}.
Definition with_fr_Criteria (c : list Criterion) (r : filter_request) : filter_request :=
  {| fr_Method := fr_Method r; fr_Path := fr_Path r; fr_Header := fr_Header r; fr_PathParams := fr_PathParams r;
     fr_Query := fr_Query r; fr_Body := fr_Body r; fr_User := fr_User r; fr_Criteria := c;
     fr_SMAAPOperated := fr_SMAAPOperated r; fr_GenerateCredentials := fr_GenerateCredentials r |}.
Definition with_fr_Header (h : gmap string string) (r : filter_request) : filter_request :=
  {| fr_Method := fr_Method r; fr_Path := fr_Path r; fr_Header := h; fr_PathParams := fr_PathParams r;
     fr_Query := fr_Query r; fr_Body := fr_Body r; fr_User := fr_User r; fr_Criteria := fr_Criteria r;
     fr_SMAAPOperated := fr_SMAAPOperated r; fr_GenerateCredentials := fr_GenerateCredentials r |}.
(** [ContextWithGeneratePlatformCredentialsFlag] *)
Definition with_fr_Generate (b : bool) (r : filter_request) : filter_request :=
  {| fr_Method := fr_Method r; fr_Path := fr_Path r; fr_Header := fr_Header r; fr_PathParams := fr_PathParams r;
     fr_Query := fr_Query r; fr_Body := fr_Body r; fr_User := fr_User r; fr_Criteria := fr_Criteria r;
     fr_SMAAPOperated := fr_SMAAPOperated r; fr_GenerateCredentials := b |}.
Definition url_Get (r : filter_request) (key : string) : string := default "" (fr_Query r !! key).
Definition path_param (r : filter_request) (key : string) : string := default "" (fr_PathParams r !! key).
Definition resource_id (r : filter_request) : string := path_param r "resource_id".

Inductive filter_body :=
  | EmptyPage                              (** [types.ObjectPage{Items: make([]types.Object, 0)}] *)
  | InstanceBody (i : ServiceInstance)
  | OtherBody (text : string).
Record filter_response := { fs_StatusCode : Z; fs_Body : filter_body }.

(** ** The storage as the filters read it *)
Record filter_tables := {
  ft_platforms : list Platform;
  ft_offerings : list ServiceOffering;
  ft_plans : list ServicePlan;
  ft_visibilities : list Visibility;
  ft_instances : list ServiceInstance;
  ft_bindings : list ServiceBinding
}.
Record filter_state := { fst_tables : filter_tables; fst_calls : nat }.

(** The columns and the labels of a row. *)
Class Row (A : Type) := { row_field : A -> string -> option string; row_labels : A -> gmap string (list string) }.
(** [toNullString] *)
Definition nullable (s : string) : option string := if String.eqb s "" then None else Some s.
Definition bool_text (b : bool) : string := if b then "true" else "false".
#[global] Instance Platform_row : Row Platform := {|
  row_field p f := Some (if String.eqb f "id" then base_ID (pl_Base p)
                         else if String.eqb f "name" then pl_Name p
                         else if String.eqb f "type" then pl_Type p else bool_text (pl_Technical p));
  row_labels p := base_Labels (pl_Base p) |}.
#[global] Instance ServiceOffering_row : Row ServiceOffering := {|
  row_field o f := Some (if String.eqb f "id" then base_ID (so_Base o) else so_BrokerID o);
  row_labels o := base_Labels (so_Base o) |}.
#[global] Instance ServicePlan_row : Row ServicePlan := {|
  row_field p f := Some (if String.eqb f "id" then base_ID (sp_Base p) else sp_ServiceOfferingID p);
  row_labels p := base_Labels (sp_Base p) |}.
#[global] Instance Visibility_row : Row Visibility := {|
  row_field v f := if String.eqb f "service_plan_id" then Some (vi_ServicePlanID v)
                   else if String.eqb f "id" then Some (base_ID (vi_Base v)) else nullable (vi_PlatformID v);
  row_labels v := base_Labels (vi_Base v) |}.
#[global] Instance ServiceInstance_row : Row ServiceInstance := {|
  row_field i f := if String.eqb f "id" then Some (base_ID (si_Base i))
                   else if String.eqb f "platform_id" then Some (si_PlatformID i)
                   else if String.eqb f "service_plan_id" then Some (si_ServicePlanID i)
                   else if String.eqb f "referenced_instance_id" then nullable (si_ReferencedInstanceID i)
                   else bool_text <$> si_Shared i;
  row_labels i := base_Labels (si_Base i) |}.
#[global] Instance ServiceBinding_row : Row ServiceBinding := {|
  row_field b f := Some (if String.eqb f "id" then base_ID (sb_Base b) else sb_ServiceInstanceID b);
  row_labels b := base_Labels (sb_Base b) |}.

(** The comparison of a column with the operands, for the operators the filters use. *)
Definition column_matches (c : Criterion) (v : option string) : bool :=
  match COperator c, v with
  | EqualsOperator, Some x => String.eqb x (hd "" (RightOp c))
  | EqualsOrNilOperator, Some x => String.eqb x (hd "" (RightOp c))
  | EqualsOrNilOperator, None => true
  | NotEqualsOperator, Some x => negb (String.eqb x (hd "" (RightOp c)))
  | InOperator, Some x => Slice.StringsAnyEquals (RightOp c) x
  | NotInOperator, Some x => negb (Slice.StringsAnyEquals (RightOp c) x)
  | _, _ => false
  end.
Definition row_matches {A} `{Row A} (criteria : list Criterion) (row : A) : bool :=
  forallb (fun c =>
    match CType c with
    | FieldQuery => column_matches c (row_field row (LeftOp c))
    | LabelQuery => existsb (fun v => column_matches c (Some v)) (default [] (row_labels row !! LeftOp c))
    | _ => true
    end) criteria.

(** Bodies: gjson at a path, and encoding/json into the types the filters decode. *)
Class BodyJson := {
  g_exists : string -> string -> bool;
  g_bool : string -> string -> bool;
  g_str : string -> string -> string;               (** the field [Str], set for JSON strings *)
  g_keys : string -> list string;                   (** the keys of [gjson.ParseBytes(body).Map()] *)
  s_set_strings : string -> string -> list string -> result string;
  json_labels : string -> option (gmap string (list string));  (** the labels of a [types.Base] *)
  json_label_changes : string -> result (list LabelChange);    (** [query.LabelChangesFromJSON] *)
  json_instance : string -> result ServiceInstance;            (** [BytesToObjectNoLabels] *)
  json_map_size : string -> result nat
}.

Class FilterEnv := {
  ff_fault : nat -> option error;
  ff_server_certificate : string;                   (** of the HTTP client of the process *)
  ff_sm_platform_types : list string
}.

Notation fworld := (filter_request * filter_state)%type.
Notation fm := (world_m fworld).
Definition filter_step := fm (option filter_response).

(** ** Steps *)
Definition go_on : filter_step := c_ret None.
Definition answer (r : filter_response) : filter_step := c_ret (Some r).
Definition the_request : fm filter_request := fun w => (w, Ok w.1).
Definition set_request (f : filter_request -> filter_request) : fm unit := fun w => ((f w.1, w.2), Ok tt).
Definition Run_of (step : filter_step) (r : filter_request)
    (next : Handler filter_request filter_response filter_state) (s : filter_state) : filter_state * result filter_response :=
  match step (r, s) with
  | ((r', s'), Ok None) => next r' s'
  | ((_, s'), Ok (Some a)) => (s', Ok a)
  | ((_, s'), Err e) => (s', Err e)
  | ((_, s'), Panic m) => (s', Panic m)
  end.
(** [query.AddCriteria] on the context of the request *)
Definition add_criteria (wrap : error -> error) (cs : list Criterion) : fm unit := fun w =>
  let criteria := (fr_Criteria w.1 ++ cs)%list in
  match validateCriteria criteria with
  | Ok _ => ((with_fr_Criteria criteria w.1, w.2), Ok tt)
  | Err e => (w, Err (wrap e))
  | Panic m => (w, Panic m)
  end.
Definition handled (name : string) (e : error) : error := default e (HandleStorageError (Some e) name).
Definition f_try {A} (wrap : error -> error) (m : fm A) : fm A := fun w =>
  match m w with (w', Err e) => (w', Err (wrap e)) | r => r end.
Definition refuse {A} (type description : string) (code : Z) : fm A := c_fail (EHTTP type description code).
Definition bad_request {A} (description : string) : fm A := refuse "BadRequest" description StatusBadRequest.

Section Storage.
Context `{FilterEnv}.
Definition f_storage {A} (f : filter_tables -> result A) : fm A := fun w =>
  let s := {| fst_tables := fst_tables w.2; fst_calls := S (fst_calls w.2) |} in
  match ff_fault (fst_calls w.2) with
  | Some e => ((w.1, s), Err e)
  | None => ((w.1, s), f (fst_tables w.2))
  end.
(** The query builder validates the criteria before it builds the statement. *)
Definition selected {A} `{Row A} (criteria : list Criterion) (l : list A) : result (list A) :=
  for_each Validate criteria ;;; Ok (List.filter (row_matches criteria) l).
Definition rep_List {A} `{Row A} (table : filter_tables -> list A) (criteria : list Criterion) : fm (list A) :=
  f_storage (fun t => selected criteria (table t)).
Definition rep_Count {A} `{Row A} (table : filter_tables -> list A) (criteria : list Criterion) : fm Z :=
  f_storage (fun t => let* l := selected criteria (table t) in Ok (Z.of_nat (length l))).
Definition rep_Get {A} `{Row A} (table : filter_tables -> list A) (criteria : list Criterion) : fm A :=
  f_storage (fun t => let* l := selected criteria (table t) in
                      match l with x :: _ => Ok x | [] => Err ENotFoundInStorage end).
Definition by_id (id : string) : list Criterion := [ByField EqualsOperator "id" [id]].
End Storage.

(** ** Lists and single resources by visibility *)
Definition K8sPlatformType : string := "kubernetes".
Definition StatusNotImplemented : Z := 501.

Section Visibilities.
Context `{FilterEnv}.

(** helpers.go *)
Definition plansCriteria (platformID : string) : fm (option Criterion) :=
  cat! visibilityList <- rep_List ft_visibilities [ByField EqualsOrNilOperator "platform_id" [platformID]];
  c_ret (match visibilityList with
         | [] => None
         | _ => Some (ByField InOperator "id" (vi_ServicePlanID <$> visibilityList))
         end).
Definition servicesCriteria (planQuery : Criterion) : fm (option Criterion) :=
  cat! plans <- rep_List ft_plans [planQuery];
  c_ret (match plans with
         | [] => None
         | _ => Some (ByField InOperator "id" (sp_ServiceOfferingID <$> plans))
         end).
Definition brokersCriteria (servicesQuery : Criterion) : fm (option Criterion) :=
  cat! services <- rep_List ft_offerings [servicesQuery];
  c_ret (match services with
         | [] => None
         | _ => Some (ByField InOperator "id" (so_BrokerID <$> services))
         end).

Definition plansCriteriaFunc : string -> fm (option Criterion) := plansCriteria.
Definition servicesCriteriaFunc (platformID : string) : fm (option Criterion) :=
  cat! planQuery <- plansCriteria platformID;
  match planQuery with
  | None => c_ret None
  | Some planQuery => servicesCriteria planQuery
  end.
Definition brokersCriteriaFunc (platformID : string) : fm (option Criterion) :=
  cat! planQuery <- plansCriteria platformID;
  match planQuery with
  | None => c_ret None
  | Some planQuery =>
      cat! servicesQuery <- servicesCriteria planQuery;
      match servicesQuery with
      | None => c_ret None
      | Some servicesQuery => brokersCriteria servicesQuery
      end
  end.

Definition visibilities_of (planIDs : Criterion) (platformID : string) : fm bool :=
  cat! cnt <- rep_Count ft_visibilities [planIDs; ByField EqualsOrNilOperator "platform_id" [platformID]];
  c_ret (0 <? cnt)%Z.
Definition isPlanVisibile (planID platformID : string) : fm bool :=
  visibilities_of (ByField EqualsOperator "service_plan_id" [planID]) platformID.
Definition isServiceVisible (serviceID platformID : string) : fm bool :=
  cat! plansList <- rep_List ft_plans [ByField EqualsOperator "service_offering_id" [serviceID]];
  visibilities_of (ByField InOperator "service_plan_id" ((fun p => base_ID (sp_Base p)) <$> plansList)) platformID.
Definition isBrokerVisible (brokerID platformID : string) : fm bool :=
  cat! servicesList <- rep_List ft_offerings [ByField EqualsOperator "broker_id" [brokerID]];
  cat! plansList <- rep_List ft_plans
    [ByField InOperator "service_offering_id" ((fun o => base_ID (so_Base o)) <$> servicesList)];
  visibilities_of (ByField InOperator "service_plan_id" ((fun p => base_ID (sp_Base p)) <$> plansList)) platformID.

Definition could_not_find : error := EHTTP "NotFound" "could not find resource" StatusNotFound.
Definition visibilityFilteringMiddleware_Run (IsResourceVisible : string -> string -> fm bool)
    (ListResourcesCriteria : string -> fm (option Criterion)) : filter_step :=
  cat! req <- the_request;
  match fr_User req with
  | None => c_fail (EPlain "no user found")
  | Some userCtx =>
      if bool_decide (uc_AuthenticationType userCtx <> Basic) then go_on
      else
        cat! platform <- c_lift (uc_Data userCtx);
        if negb (String.eqb (pl_Type platform) K8sPlatformType) then go_on
        else if negb (String.eqb (resource_id req) "") then
          cat! isResourceVisible <- IsResourceVisible (resource_id req) (base_ID (pl_Base platform));
          if (isResourceVisible : bool) then go_on else c_fail could_not_find
        else
          cat! finalQuery <- ListResourcesCriteria (base_ID (pl_Base platform));
          match finalQuery with
          | None => answer {| fs_StatusCode := 200; fs_Body := EmptyPage |}
          | Some finalQuery => add_criteria id [finalQuery] >; go_on
          end
  end.
Definition PlanFilterByVisibility_Run : filter_step := visibilityFilteringMiddleware_Run isPlanVisibile plansCriteriaFunc.
Definition ServicesFilterByVisibility_Run : filter_step := visibilityFilteringMiddleware_Run isServiceVisible servicesCriteriaFunc.
Definition BrokersFilterByVisibility_Run : filter_step := visibilityFilteringMiddleware_Run isBrokerVisible brokersCriteriaFunc.

(** visibility_for_platform.go *)
Definition PlatformAwareVisibilityFilter_Run : filter_step :=
  cat! req <- the_request;
  match fr_User req with
  | None => c_fail (EPlain "user details not found in request context")
  | Some user =>
      if bool_decide (uc_AuthenticationType user <> Basic) then go_on
      else
        cat! p <- c_lift (uc_Data user);
        if String.eqb (base_ID (pl_Base p)) "" then c_fail (EPlain "user details contain an invalid user")
        else add_criteria id [ByField EqualsOrNilOperator "platform_id" [base_ID (pl_Base p)]] >; go_on
  end.

(** technical_platform_filter.go; the regular expression wants the rest of the path in one line *)
Fixpoint operationsUrl (path : string) : bool :=
  (Strings.has_prefix path "/operations/" && negb (Strings.contains_byte path newline)) ||
  match path with
  | EmptyString => false
  | String _ rest => operationsUrl rest
  end.
Definition operationRequest (req : filter_request) : bool := operationsUrl (fr_Path req).
Definition TechnicalPlatformFilter_Run : filter_step :=
  cat! req <- the_request;
  if negb (String.eqb (fr_Method req) "GET") then go_on
  else if operationRequest req then
    cat! cnt <- rep_Count ft_platforms [ByField EqualsOperator "id" [resource_id req]; ByField EqualsOperator "technical" ["true"]];
    if (cnt =? 0)%Z then go_on
    else add_criteria id [ByField NotEqualsOperator "resource_id" [resource_id req]] >; go_on
  else add_criteria id [ByField EqualsOperator "technical" ["false"]] >; go_on.
End Visibilities.

(** ** Tenants and labels *)
Section Tenants.
Context `{FilterEnv} `{JSONText} `{BodyJson} `{Bodies}.

(** labeling_filter.go *)
Definition LabelingFilter_Run (ExtractValue : option (filter_request -> result string))
    (LabelingFunc : option (string -> string -> fm unit)) (LabelKey : string) : filter_step :=
  match ExtractValue, LabelingFunc with
  | None, _ => c_fail (EPlain "ExtractValue function should be provided")
  | _, None => c_fail (EPlain "LabelingFunc function should be provided")
  | Some extract, Some labeling =>
      cat! req <- the_request;
      cat! value <- c_lift (extract req);
      if String.eqb value "" then go_on else labeling LabelKey value >; go_on
  end.
Definition label_criteria_func (labelKey labelValue : string) : fm unit :=
  add_criteria (fun err => EPlain ("could not add label criteria with key " ++ labelKey ++ " and value " ++ labelValue ++
                                   ": " ++ Error err))
    [ByLabel EqualsOperator labelKey [labelValue]].
Definition resource_labeling_func (labelKey labelValue : string) : fm unit :=
  cat! request <- the_request;
  let path := "labels." ++ labelKey in
  match (if g_exists (fr_Body request) path
         then sjson_set (fr_Body request) (path ++ ".-1") labelValue
         else s_set_strings (fr_Body request) path [labelValue]) with
  | Ok body => set_request (with_fr_Body body)
  | Err err => c_fail (EPlain ("could not add label with key " ++ labelKey ++ " and value " ++ labelValue ++ ": " ++ Error err ++
                               " to request body during resource creation"))
  | Panic m => fun w => (w, Panic m)
  end.

(** tenant_filter.go: nothing is extracted without a user and for global access. *)
Definition extract_tenant (extractTenantFunc : filter_request -> result string) (request : filter_request) : result string :=
  match fr_User request with
  | None => Ok ""
  | Some userContext =>
      if bool_decide (uc_AccessLevel userContext = GlobalAccess) then Ok "" else extractTenantFunc request
  end.
Definition TenantCriteriaFilter_Run (labelKey : string) (extractTenantFunc : filter_request -> result string) : filter_step :=
  LabelingFilter_Run (Some (extract_tenant extractTenantFunc)) (Some label_criteria_func) labelKey.
Definition TenantLabelingFilter_Run (labelKey : string) (extractTenantFunc : filter_request -> result string) : filter_step :=
  LabelingFilter_Run (Some (extract_tenant extractTenantFunc)) (Some resource_labeling_func) labelKey.

(** protected_labels.go; [order] is that of ranging over the labels *)
Definition is_protected (protectedLabels : list string) (key : string) : bool := bool_decide (key ∈ protectedLabels).
Fixpoint check_label_keys (protectedLabels keys : list string) (description : string -> string) : result unit :=
  match keys with
  | [] => Ok tt
  | key :: keys =>
      if is_protected protectedLabels key then Err (EHTTP "BadRequest" (description key) StatusBadRequest)
      else check_label_keys protectedLabels keys description
  end.
Definition ProtectedLabelsFilter_Run (order : list string -> list string) (protectedLabels : list string) : filter_step :=
  cat! req <- the_request;
  match protectedLabels with
  | [] => go_on
  | _ =>
      if String.eqb (fr_Method req) "POST" then
        cat! isJSON <- c_lift (IsJSONContentType (default "" (fr_Header req !! "Content-Type")));
        if negb isJSON then go_on
        else
          match json_labels (fr_Body req) with
          | None => bad_request "Invalid JSON body"
          | Some labels =>
              c_lift (check_label_keys protectedLabels (order (fst <$> map_to_list labels))
                        (fun key => "Set/Add values for label " ++ key ++ " is not allowed")) >; go_on
          end
      else if String.eqb (fr_Method req) "PATCH" then
        cat! labelChanges <- c_lift (json_label_changes (fr_Body req));
        c_lift (check_label_keys protectedLabels (lc_Key <$> labelChanges)
                  (fun key => "Modifying is not allowed for label " ++ key)) >; go_on
      else go_on
  end.

(** [DefaultGetVisibilityMetadataFunc] of pkg/sm/sm.go *)
Record VisibilityMetadata := { vm_PlatformID : string; vm_PlatformType : string; vm_LabelKey : string; vm_LabelValue : string }.
Definition DefaultGetVisibilityMetadataFunc (labelKey : string) (req : filter_request) : result VisibilityMetadata :=
  let* tenantID := RetrieveFromCriteria labelKey (fr_Criteria req) in
  match fr_User req with
  | None => Err (EPlain "user details not found in request context")
  | Some user =>
      if bool_decide (uc_AuthenticationType user <> Basic) && String.eqb tenantID ""
      then Err (EHTTP "BadRequest" "no tenant identifier provided" StatusBadRequest)
      else Ok {| vm_PlatformID := SMPlatform; vm_PlatformType := SMPlatform; vm_LabelKey := labelKey; vm_LabelValue := tenantID |}
  end.

(** check_instance_visibility_filter.go *)
Definition serviceInstanceVisibilityFilter_Run (getInstanceVisibilityMetadata : filter_request -> result VisibilityMetadata)
    : filter_step :=
  cat! req <- the_request;
  cat! metadata <- c_lift (getInstanceVisibilityMetadata req);
  let planID := gjson_string (fr_Body req) "service_plan_id" in
  if String.eqb (fr_Method req) "DELETE" || String.eqb planID "" then go_on
  else
    cat! visible <- f_try (handled VisibilitiesURL) (f_storage (fun t =>
      Ok (List.filter (visible_with (vm_PlatformID metadata) planID (vm_LabelKey metadata) (vm_LabelValue metadata))
            (ft_visibilities t))));
    match visible with
    | [] => refuse "NotFound" "could not find such service plan" StatusNotFound
    | _ => go_on
    end.

(** check_binding_visibility_filter.go *)
Definition binding_instance (req : filter_request) : fm string :=
  if String.eqb (fr_Method req) "PATCH" then
    cat! binding <- f_try (handled ServiceBindingsURL) (rep_Get ft_bindings (by_id (resource_id req)));
    c_ret (sb_ServiceInstanceID binding)
  else c_ret (gjson_string (fr_Body req) "service_instance_id").
Definition serviceBindingVisibilityFilter_Run (tenantIdentifier : string) : filter_step :=
  cat! req <- the_request;
  cat! tenantID <- c_lift (RetrieveFromCriteria tenantIdentifier (fr_Criteria req));
  if String.eqb tenantID "" then bad_request "no tenant identifier provided"
  else if String.eqb (fr_Method req) "DELETE" then go_on
  else
    cat! instanceID <- binding_instance req;
    if String.eqb instanceID "" then go_on
    else
      cat! platformID <- (if fr_SMAAPOperated req then
                            cat! body <- c_lift (sjson_delete (fr_Body req) "platform_id");
                            set_request (with_fr_Body body) >; c_ret (gjson_string (fr_Body req) "platform_id")
                          else c_ret SMPlatform);
      cat! count <- f_try (handled ServiceInstancesURL) (rep_Count ft_instances
        [ByField EqualsOperator "platform_id" [platformID]; ByField EqualsOperator "id" [instanceID];
         ByLabel EqualsOperator tenantIdentifier [tenantID]]);
      if (count =? 1)%Z then go_on
      else refuse "NotFound" "service instance not found or not accessible" StatusNotFound.

(** extract_plan_id_by_service_and_plan_name_filter.go: the named query
    [QueryForPlanByNameAndOfferingsWithVisibility] joins plans with their offerings, their
    visibilities and the labels of these; a plan that is in several rows of the join is
    listed once. *)
Definition visible_for_names (platformID key val : string) (v : Visibility) : bool :=
  visibility_label v key val && bool_decide (nullable (vi_PlatformID v) = Some platformID) ||
  (String.eqb (vi_PlatformID v) "" || String.eqb (vi_PlatformID v) platformID) && bool_decide (base_Labels (vi_Base v) = ∅).
Definition plans_by_names (platformID planName offeringName key val : string) (t : filter_tables) : list ServicePlan :=
  List.filter (fun sp =>
    String.eqb (sp_CatalogName sp) planName &&
    existsb (fun so => String.eqb (base_ID (so_Base so)) (sp_ServiceOfferingID sp) && String.eqb (so_CatalogName so) offeringName)
      (ft_offerings t) &&
    existsb (fun v => String.eqb (vi_ServicePlanID v) (base_ID (sp_Base sp)) && visible_for_names platformID key val v)
      (ft_visibilities t)) (ft_plans t).
Definition extractPlanIDByServiceAndPlanNameFilter_Run (getVisibilityMetadata : filter_request -> result VisibilityMetadata)
    : filter_step :=
  cat! req <- the_request;
  cat! metadata <- c_lift (getVisibilityMetadata req);
  let body := fr_Body req in
  let hasID := g_exists body "service_plan_id" in
  let hasPlan := g_exists body "service_plan_name" in
  let hasOffering := g_exists body "service_offering_name" in
  if hasID && negb hasPlan && negb hasOffering then go_on
  else if negb hasID && hasPlan && hasOffering then
    let plan := gjson_string body "service_plan_name" in
    let offering := gjson_string body "service_offering_name" in
    cat! plansList <- f_try (handled ServicePlansURL) (f_storage (fun t =>
      Ok (plans_by_names (vm_PlatformID metadata) plan offering (vm_LabelKey metadata) (vm_LabelValue metadata) t)));
    match plansList with
    | [] => bad_request ("service plan " ++ plan ++ " not found for service offering " ++ offering)
    | [p] =>
        cat! body <- c_lift (sjson_set body "service_plan_id" (base_ID (sp_Base p)));
        set_request (with_fr_Body body) >; go_on
    | _ => bad_request ("ambiguity error, found more than one resource matching the provided offering name " ++ offering ++
                        " and plan name " ++ plan ++ ", provide the desired servicePlanID")
    end
  else bad_request "Constraint violated: you have to provide parameters as following: service offering name and service plan name, or  service plan id.".
End Tenants.

(** ** Checks of bodies and parameters *)
Section Checks.
Context `{FilterEnv} `{JSONText} `{JSONQueries} `{BodyJson}.

(** selection_criteria.go *)
Definition CriteriaTypes : list CriterionType := [FieldQuery; LabelQuery; ExistQuery; Subquery].
Definition SelectionCriteria_Run (Parse : CriterionType -> string -> result (list Criterion)) : filter_step :=
  cat! req <- the_request;
  cat! criteria <- c_fold (fun criteria queryType =>
    cat! queryCriteria <- c_lift (Parse queryType (url_Get req (type_String queryType)));
    c_ret (criteria ++ queryCriteria)%list) [] CriteriaTypes;
  add_criteria id criteria >; go_on.

(** service_instance_strip_filter.go, service_binding_strip_filter.go: [fuel] bounds the
    deletions of one property *)
Definition serviceInstanceUnmodifiableProperties : list string := ["ready"; "usable"; "context"].
Definition serviceBindingUnmodifiableProperties : list string :=
  ["credentials"; "syslog_drain_url"; "route_service_url"; "volume_mounts"; "endpoints"; "ready"; "context"].
Fixpoint remove_property (fuel : nat) (body prop : string) : option (result string) :=
  if g_exists body prop then
    match fuel with
    | O => None
    | S fuel =>
        match sjson_delete body prop with
        | Ok body => remove_property fuel body prop
        | Err _ => Some (Err (EHTTP "BadRequest" "Invalid request body" StatusBadRequest))
        | Panic m => Some (Panic m)
        end
    end
  else Some (Ok body).
Fixpoint removePropertiesFromRequest (fuel : nat) (body : string) (props : list string) : option (result string) :=
  match props with
  | [] => Some (Ok body)
  | prop :: props =>
      match remove_property fuel body prop with
      | Some (Ok body) => removePropertiesFromRequest fuel body props
      | r => r
      end
  end.
(** The number of occurrences of a key in a text is less than its length. *)
Definition strip_Run (props : list string) : filter_step :=
  cat! req <- the_request;
  if g_exists (fr_Body req) "id" then bad_request "Invalid request body - providing specific resource id is forbidden"
  else
    match removePropertiesFromRequest (String.length (fr_Body req)) (fr_Body req) props with
    | Some r => cat! body <- c_lift r; set_request (with_fr_Body body) >; go_on
    | None => fun w => (w, Panic "does not return")
    end.
Definition ServiceInstanceStripFilter_Run : filter_step := strip_Run serviceInstanceUnmodifiableProperties.
Definition ServiceBindingStripFilter_Run : filter_step := strip_Run serviceBindingUnmodifiableProperties.

(** protected_sm_platform_filter.go *)
Definition ProtectedSMPlatformFilter_Run : filter_step :=
  add_criteria id [ByField NotEqualsOperator "name" [SMPlatform]] >; go_on.

(** platform_id_instance_validation_filter.go *)
Definition getSharedProperty (body : string) : option bool :=
  match json_instance body with Ok i => si_Shared i | _ => None end.
Definition LabelsOnly (body : string) : bool :=
  bool_decide (length (g_keys body) = 1) && forallb (String.eqb "labels") (g_keys body).
Definition PlatformIDInstanceValidationFilter_Run : filter_step :=
  cat! req <- the_request;
  if fr_SMAAPOperated req || bool_decide (is_Some (getSharedProperty (fr_Body req))) then go_on
  else
    let platformID := g_str (fr_Body req) "platform_id" in
    if negb (String.eqb platformID "") && negb (String.eqb platformID SMPlatform) then
      refuse "InvalidTransfer" ("Providing platform_id property during provisioning/updating with a value different from " ++
                                SMPlatform ++ " is forbidden") StatusBadRequest
    else if String.eqb (fr_Method req) "POST" then
      if String.eqb platformID "" then
        cat! body <- c_lift (sjson_set (fr_Body req) "platform_id" SMPlatform);
        set_request (with_fr_Body body) >; go_on
      else go_on
    else if String.eqb (fr_Method req) "PATCH" then
      if negb (LabelsOnly (fr_Body req)) && negb (String.eqb platformID SMPlatform) then
        add_criteria id [ByField EqualsOperator "platform_id" [SMPlatform]] >; go_on
      else go_on
    else go_on.

(** patch_labels_only.go *)
Definition PatchOnlyLabelsFilter_Run : filter_step :=
  cat! req <- the_request;
  if forallb (String.eqb "labels") (g_keys (fr_Body req)) then go_on
  else bad_request "Only labels can be patched for service offerings and plans".

(** checkBrokerCredentials.go *)
Definition credentialsMissing (body : string) : result unit :=
  let sm := "credentials.tls.sm_provided_tls_credentials" in
  let smProvided := g_exists body sm && g_bool body sm in
  if smProvided && String.eqb ff_server_certificate ""
  then Err (EPlain "no sm provided credentials available, provide another type of credentials")
  else
    let basic := g_exists body "credentials.basic.username" && g_exists body "credentials.basic.password" in
    let tls := g_exists body "credentials.tls.client_certificate" && g_exists body "credentials.tls.client_key" in
    if tls || basic || smProvided then Ok tt
    else Err (EPlain "updating a url of a broker requires its credentials").
Definition CheckBrokerCredentialsFilter_Run : filter_step :=
  cat! req <- the_request;
  match credentialsMissing (fr_Body req) with
  | Err err => if g_exists (fr_Body req) "broker_url" then bad_request (Error err) else go_on
  | _ => go_on
  end.

(** check_platform_suspended_filter.go *)
Definition CheckPlatformSuspendedFilter_Run : filter_step :=
  cat! req <- the_request;
  match fr_User req with
  | None => go_on
  | Some user =>
      cat! platform <- c_lift (uc_Data user);
      if pl_Suspended platform then bad_request "platform suspended" else go_on
  end.

(** disabled_query_parameters.go *)
Definition DisabledQueryParametersFilter_Run (DisabledQueryParameters : list string) : filter_step :=
  cat! req <- the_request;
  c_fold (fun _ param =>
    if String.eqb (url_Get req param) "" then c_ret tt
    else refuse "NotImplemented" ("The '" ++ param ++ "' parameter is not supported in this service manager installation.")
           StatusNotImplemented) tt DisabledQueryParameters >;
  go_on.

(** force_delete_validation_filter.go *)
Definition validateAllowedUrls (path : string) : bool :=
  Strings.contains path ServiceInstancesURL || Strings.contains path ServiceBindingsURL.
Definition FailOnNotAllowedUrlDescription : string :=
  "Couldn't delete this resource. You can only force-delete instances or bindings.".
Definition FailOnBadFlagsCombinationDescription : string :=
  "Invalid combination of parameters. When using force-delete, you must also use cascade-delete. Set both 'force' and 'cascade' parameters to true.".
Definition ForceDeleteValidationFilter_Run : filter_step :=
  cat! request <- the_request;
  let forceDelete := String.eqb (url_Get request "force") "true" in
  let cascadeDelete := String.eqb (url_Get request "cascade") "true" in
  if negb forceDelete then go_on
  else if negb (validateAllowedUrls (fr_Path request)) then bad_request FailOnNotAllowedUrlDescription
  else if forceDelete && negb cascadeDelete then bad_request FailOnBadFlagsCombinationDescription
  else go_on.

(** regenerate_platform_credentials_filter.go, supported_encodings_filter.go *)
Definition RegeneratePlatformCredentialsFilter_Run : filter_step :=
  cat! req <- the_request;
  if String.eqb (url_Get req "regenerateCredentials") "true" then set_request (with_fr_Generate true) >; go_on else go_on.
Definition SupportedEncodingsFilter_Run : filter_step :=
  cat! req <- the_request;
  set_request (with_fr_Header (base.delete "Accept-Encoding" (fr_Header req))) >; go_on.
End Checks.

(** ** Guards of instances and platforms *)
Section Guards.
Context `{FilterEnv} `{JSONText} `{JSONQueries} `{BodyJson}.

(** [storage.GetObjectByField]: the criteria of the context apply to instances *)
Definition get_instance_by_id (req : filter_request) (id : string) : fm ServiceInstance :=
  rep_Get ft_instances (by_id id ++ fr_Criteria req)%list.
Definition get_plan_by_id (id : string) : fm ServicePlan := rep_Get ft_plans (by_id id).

(** check_instance_transfer_filter.go *)
Definition serviceInstanceTransferFilter_Run (enableInstanceTransfer : bool) : filter_step :=
  cat! req <- the_request;
  let platformID := gjson_string (fr_Body req) "platform_id" in
  if String.eqb platformID "" then go_on
  else if negb enableInstanceTransfer then
    refuse "TransferDisabled" "Instance transfer is disabled in this service-manager installation" StatusBadRequest
  else
    let instanceID := resource_id req in
    if String.eqb instanceID "" then go_on
    else
      let planID := gjson_string (fr_Body req) "service_plan_id" in
      cat! planID <- (if String.eqb planID "" then
                        cat! instance <- f_try (handled ServiceInstancesURL) (rep_Get ft_instances (by_id instanceID));
                        c_ret (si_ServicePlanID instance)
                      else c_ret planID);
      cat! plan <- f_try (handled ServicePlansURL) (rep_Get ft_plans (by_id planID));
      cat! platform <- f_try (handled PlatformsURL) (rep_Get ft_platforms (by_id platformID));
      if negb (SupportsPlatformInstance ff_sm_platform_types plan (pl_Name platform) (pl_Type platform)) then
        refuse "UnsupportedPlatform" ("Instance transfer to platform of type " ++ pl_Type platform ++
          " failed because instance plan " ++ sp_Name plan ++ " does not support this platform") StatusBadRequest
      else
        cat! service <- f_try (handled ServiceOfferingsURL) (rep_Get ft_offerings (by_id (sp_ServiceOfferingID plan)));
        if negb (so_AllowContextUpdates service) then
          refuse "UnsupportedContextUpdate" ("Instance transfer to platform of type " ++ pl_Type platform ++
            " failed because instance service offering " ++ so_Name service ++ " does not support context updates") StatusBadRequest
        else go_on.

(** platform_termination_filter.go; [order] is that of ranging over a map *)
Definition findSharedInstancesInPlatform (platform : Platform) : fm (list string) :=
  cat! sharedInstances <- f_try (handled ServiceInstancesURL) (rep_List ft_instances
    [ByField EqualsOperator "platform_id" [base_ID (pl_Base platform)]; ByField EqualsOperator "shared" ["true"]]);
  c_ret ((fun i => base_ID (si_Base i)) <$> sharedInstances).
Definition findReferencesOfSharedInstancesInOtherPlatforms (platform : Platform) : fm (list ServiceInstance) :=
  cat! sharedInstanceIDs <- findSharedInstancesInPlatform platform;
  match sharedInstanceIDs with
  | [] => c_ret []
  | _ => f_try (handled ServiceInstancesURL) (rep_List ft_instances
           [ByField InOperator "referenced_instance_id" sharedInstanceIDs;
            ByField NotEqualsOperator "platform_id" [base_ID (pl_Base platform)]])
  end.
Definition references_by_shared (references : list ServiceInstance) : gmap string (list string) :=
  foldl (fun m i => <[si_ReferencedInstanceID i := (default [] (m !! si_ReferencedInstanceID i) ++ [base_ID (si_Base i)])%list]> m)
    ∅ references.
Definition formatSharingReferences (order : list string -> list string) (references : list ServiceInstance) : string :=
  let byShared := references_by_shared references in
  Strings.join ", " ((fun kv => "shared instance " ++ kv.1 ++ " is referenced by instance(s)" ++ Strings.join ", " kv.2) <$>
    ranged byShared (order (fst <$> map_to_list byShared))).
Definition platformTerminationFilter_Run (order : list string -> list string) : filter_step :=
  cat! req <- the_request;
  let platformID := resource_id req in
  if String.eqb (fr_Method req) "DELETE" && negb (String.eqb platformID "") && String.eqb (url_Get req "cascade") "true" then
    cat! platform <- f_try (handled PlatformsURL) (rep_Get ft_platforms (by_id platformID));
    if pl_Active platform then refuse "UnprocessableEntity" "Active platform cannot be deleted" StatusUnprocessableEntity
    else
      cat! references <- findReferencesOfSharedInstancesInOtherPlatforms platform;
      match references with
      | [] => go_on
      | _ => refuse "UnprocessableEntity"
               ("Platform cannot be deleted because other platform(s) has reference instance(s) to the shared instances in given platform. Details: "
                ++ formatSharingReferences order references) StatusUnprocessableEntity
      end
  else go_on.

(** shared_instance_update_filter.go *)
Definition isPlanChanged (persistedInstance reqServiceInstance : ServiceInstance) : bool :=
  negb (String.eqb (si_ServicePlanID reqServiceInstance) "") &&
  negb (String.eqb (si_ServicePlanID persistedInstance) (si_ServicePlanID reqServiceInstance)).
Definition sharing_refused {A} (e : error) (name : string) : fm A := c_fail (default e (HandleInstanceSharingError (Some e) name)).
Definition validateRequestContainsSingleProperty (body instanceID : string) : fm unit :=
  cat! size <- c_lift (json_map_size body);
  if (1 <? size)%nat then sharing_refused EInvalidShareRequest instanceID else c_ret tt.
(** The references of an instance that is to be unshared: an error of the storage is only logged. *)
Definition unsharing_references (instance : ServiceInstance) : fm (list ServiceInstance) := fun w =>
  match rep_List ft_instances [ByField EqualsOperator "referenced_instance_id" [base_ID (si_Base instance)]] w with
  | (w', Err _) => (w', Ok [])
  | r => r
  end.
Definition sharing_of_instance (req : filter_request) (persistedInstance : ServiceInstance) (shared : bool) : filter_step :=
  let instanceID := resource_id req in
  if String.eqb (url_Get req "async") "true" then sharing_refused EAsyncNotSupportedForSharing instanceID
  else
    validateRequestContainsSingleProperty (fr_Body req) instanceID >;
    cat! plan <- get_plan_by_id (si_ServicePlanID persistedInstance);
    if negb (SupportsInstanceSharing plan) then sharing_refused EPlanDoesNotSupportInstanceSharing (base_ID (sp_Base plan))
    else if Bool.eqb (IsShared persistedInstance) shared
    then answer {| fs_StatusCode := 200; fs_Body := InstanceBody persistedInstance |}
    else if IsShared persistedInstance && negb shared then
      cat! references <- unsharing_references persistedInstance;
      match references with
      | [] => go_on
      | _ => c_fail (default EUnsharingInstanceWithReferences
                       (HandleReferencesError (Some EUnsharingInstanceWithReferences) ((fun i => base_ID (si_Base i)) <$> references)))
      end
    else go_on.
Definition handleServiceUpdate (req : filter_request) (reqServiceInstance : ServiceInstance) : filter_step := fun w =>
  match get_instance_by_id req (resource_id req) w with
  | (w', Err _) => go_on w'
  | (w', Panic m) => (w', Panic m)
  | (w', Ok persistedInstance) =>
      (cat! _ <- (if IsShared persistedInstance && isPlanChanged persistedInstance reqServiceInstance then
                    cat! newPlan <- f_try (handled ServicePlansURL) (get_plan_by_id (si_ServicePlanID reqServiceInstance));
                    if SupportsInstanceSharing newPlan then c_ret tt
                    else sharing_refused ENewPlanDoesNotSupportInstanceSharing ""
                  else c_ret tt);
       match si_Shared reqServiceInstance with
       | None => go_on
       | Some shared => sharing_of_instance req persistedInstance shared
       end) w'
  end.
Definition sharedInstanceUpdateFilter_Run : filter_step :=
  cat! req <- the_request;
  cat! reqServiceInstance <- c_lift (json_instance (fr_Body req));
  if String.eqb (fr_Method req) "POST" then
    match si_Shared reqServiceInstance with
    | Some _ => sharing_refused EInvalidProvisionRequestWithSharedProperty ""
    | None => go_on
    end
  else if String.eqb (fr_Method req) "PATCH" then handleServiceUpdate req reqServiceInstance
  else go_on.
End Guards.
