(* ===== verification/ApiChain.v ===== *)
(** * The filters of an API with tenants, in their order (api/api.go, pkg/sm/sm.go)

    Names and matchers of the filters of api/filters, the list [api.New] starts with and what
    [EnableMultitenancy] registers into it.  Logging has no effect on the request; the filter
    for reference instances is that of [Sharing], here a parameter. *)

From S2P Require Import Prelude GoStd Errors Labels Query WebFilters WebRegistry OperationTypes DomainTypes RequestBody WorldMonad ApiFilters.
From stdpp Require Import base gmap strings list.
From Stdlib Require Import ZArith.
Import Operators Criteria.
Local Open Scope string_scope.

Record api_filter := { af_Name : string; af_FilterMatchers : list FilterMatcher; af_step : filter_step }.
Notation filter := (WebFilters.Filter filter_request filter_response filter_state).
Definition as_filter (f : api_filter) : filter :=
  {| Name := af_Name f; FilterMatchers := af_FilterMatchers f; Run := Run_of (af_step f) |}.

(** A chain of steps: the first that does not go on ends it. *)
Fixpoint chain_steps (l : list filter_step) : filter_step :=
  match l with
  | [] => go_on
  | step :: l => cat! r <- step; match r with None => chain_steps l | Some a => answer a end
  end.

Section Matchers.
Variable glob_compile : string -> option (string -> bool).
Definition on (path : string) (methods : list string) : FilterMatcher :=
  {| Matchers := [Path glob_compile [path]; Methods methods] |}.
Definition on_path (path : string) : FilterMatcher := {| Matchers := [Path glob_compile [path]] |}.
Definition on_methods (methods : list string) : FilterMatcher := {| Matchers := [Methods methods] |}.

Section Filters.
Context `{FilterEnv} `{JSONText} `{JSONQueries} `{BodyJson} `{Bodies}.
Variable Parse_ : CriterionType -> string -> result (list Criterion).
Variable reference_step : filter_step.
Variable map_order : list string -> list string.
Variables (authn_matchers authz_matchers : list FilterMatcher) (authn_step authz_step : filter_step).

Definition Logging : api_filter :=
  {| af_Name := "LoggingFilter"; af_FilterMatchers := [on_path "/**"]; af_step := go_on |}.
Definition SupportedEncodingsFilter : api_filter :=
  {| af_Name := "SupportedEncodingsFilter"; af_FilterMatchers := [on_path (OSBURL ++ "/**")];
     af_step := SupportedEncodingsFilter_Run |}.
Definition SelectionCriteria : api_filter :=
  {| af_Name := "CriteriaFilter"; af_FilterMatchers := [on "/**" ["GET"; "DELETE"]];
     af_step := SelectionCriteria_Run Parse_ |}.
Definition ServiceInstanceStripFilter : api_filter :=
  {| af_Name := "ServiceInstanceStripFilter"; af_FilterMatchers := [on (ServiceInstancesURL ++ "/**") ["POST"; "PATCH"]];
     af_step := ServiceInstanceStripFilter_Run |}.
Definition ServiceBindingStripFilter : api_filter :=
  {| af_Name := "ServiceBindingStripFilter"; af_FilterMatchers := [on (ServiceBindingsURL ++ "/**") ["POST"]];
     af_step := ServiceBindingStripFilter_Run |}.
Definition ProtectedLabelsFilter (labels : list string) : api_filter :=
  {| af_Name := "ProtectedLabelsFilter"; af_FilterMatchers := [on_methods ["POST"; "PATCH"]];
     af_step := ProtectedLabelsFilter_Run map_order labels |}.
Definition ProtectedSMPlatformFilter : api_filter :=
  {| af_Name := "ProtectedSMPlatformFilter"; af_FilterMatchers := [on (PlatformsURL ++ "/*") ["PATCH"; "DELETE"]];
     af_step := ProtectedSMPlatformFilter_Run |}.
Definition PlatformIDInstanceValidationFilter : api_filter :=
  {| af_Name := "PlatformIDInstanceValidationFilter";
     af_FilterMatchers := [on (ServiceInstancesURL ++ "/**") ["POST"; "PATCH"]];
     af_step := PlatformIDInstanceValidationFilter_Run |}.
Definition PlatformAwareVisibilityFilter : api_filter :=
  {| af_Name := "PlatformAwareVisibilityFilter"; af_FilterMatchers := [on (VisibilitiesURL ++ "/*") ["GET"]];
     af_step := PlatformAwareVisibilityFilter_Run |}.
Definition PatchOnlyLabelsFilter : api_filter :=
  {| af_Name := "PatchOnlyLabelsFilter";
     af_FilterMatchers := [on (ServiceOfferingsURL ++ "/**") ["PATCH"]; on (ServicePlansURL ++ "/**") ["PATCH"]];
     af_step := PatchOnlyLabelsFilter_Run |}.
Definition PlanFilterByVisibility : api_filter :=
  {| af_Name := "PlanFilterByVisibility"; af_FilterMatchers := [on (ServicePlansURL ++ "/*") ["GET"]];
     af_step := PlanFilterByVisibility_Run |}.
Definition ServicesFilterByVisibility : api_filter :=
  {| af_Name := "ServicesFilterByVisibility"; af_FilterMatchers := [on (ServiceOfferingsURL ++ "/*") ["GET"]];
     af_step := ServicesFilterByVisibility_Run |}.
Definition BrokersFilterByVisibility : api_filter :=
  {| af_Name := "BrokersFilterByVisibility"; af_FilterMatchers := [on (ServiceBrokersURL ++ "/*") ["GET"]];
     af_step := BrokersFilterByVisibility_Run |}.
Definition SharedInstanceUpdateFilter : api_filter :=
  {| af_Name := "SharedInstanceUpdateFilter"; af_FilterMatchers := [on (ServiceInstancesURL ++ "/**") ["PATCH"; "POST"]];
     af_step := sharedInstanceUpdateFilter_Run |}.
Definition ReferenceInstanceFilter : api_filter :=
  {| af_Name := "ReferenceInstanceFilter";
     af_FilterMatchers := [on (ServiceInstancesURL ++ "/**") ["POST"; "PATCH"; "GET"]]; af_step := reference_step |}.
Definition CheckBrokerCredentialsFilter : api_filter :=
  {| af_Name := "CheckBrokerCredentialsFilter"; af_FilterMatchers := [on (ServiceBrokersURL ++ "/**") ["PATCH"]];
     af_step := CheckBrokerCredentialsFilter_Run |}.
Definition ServiceInstanceTransferFilter (enable : bool) : api_filter :=
  {| af_Name := "ServiceInstanceTransferFilter"; af_FilterMatchers := [on (ServiceInstancesURL ++ "/*") ["PATCH"]];
     af_step := serviceInstanceTransferFilter_Run enable |}.
Definition PlatformTerminationFilter : api_filter :=
  {| af_Name := "PlatformTerminationFilter"; af_FilterMatchers := [on (PlatformsURL ++ "/**") ["DELETE"]];
     af_step := platformTerminationFilter_Run map_order |}.
Definition DisabledQueryParametersFilter (params : list string) : api_filter :=
  {| af_Name := "DisabledQueryParameter";
     af_FilterMatchers := [on ServiceOfferingsURL ["GET"]; on ServicePlansURL ["GET"]];
     af_step := DisabledQueryParametersFilter_Run params |}.
Definition RegeneratePlatformCredentialsFilter : api_filter :=
  {| af_Name := "RegeneratePlatformCredentialsFilter"; af_FilterMatchers := [on (PlatformsURL ++ "/*") ["PATCH"]];
     af_step := RegeneratePlatformCredentialsFilter_Run |}.
Definition TechnicalPlatformFilter : api_filter :=
  {| af_Name := "TechnicalPlatformFilter";
     af_FilterMatchers := [{| Matchers := [Methods ["GET"]; Path glob_compile [PlatformsURL ++ "/**"]] |}];
     af_step := TechnicalPlatformFilter_Run |}.
Definition CheckPlatformSuspendedFilter : api_filter :=
  {| af_Name := "CheckPlatformSuspendedFilter"; af_FilterMatchers := [on (OSBURL ++ "/**") ["POST"; "PUT"; "PATCH"]];
     af_step := CheckPlatformSuspendedFilter_Run |}.
Definition ForceDeleteValidationFilter : api_filter :=
  {| af_Name := "ForceDeleteValidationFilter"; af_FilterMatchers := [on_methods ["DELETE"]];
     af_step := ForceDeleteValidationFilter_Run |}.

Definition Authentication : api_filter :=
  {| af_Name := "Authentication"; af_FilterMatchers := authn_matchers; af_step := authn_step |}.
Definition Authorization : api_filter :=
  {| af_Name := "Authorization"; af_FilterMatchers := authz_matchers; af_step := authz_step |}.

(** [NewMultitenancyFilters] *)
Definition LabelName : string := "Tenant".
Definition LabelCriteriaFilterNameSuffix : string := "CriteriaFilter".
Definition ResourceLabelingFilterNameSuffix : string := "LabelingFilter".
Definition tenant_paths : list string := [PlatformsURL; ServiceBrokersURL; ServiceInstancesURL; ServiceBindingsURL].
Definition labeling_matchers (basePaths methods : list string) : list FilterMatcher :=
  (fun basePath => on (basePath ++ "/**") methods) <$> basePaths.
Definition TenantCriteriaFilter (labelKey : string) (extract : filter_request -> result string) : api_filter :=
  {| af_Name := LabelName ++ LabelCriteriaFilterNameSuffix;
     af_FilterMatchers := labeling_matchers tenant_paths ["GET"; "PATCH"; "DELETE"; "POST"];
     af_step := TenantCriteriaFilter_Run labelKey extract |}.
Definition TenantLabelingFilter (labelKey : string) (extract : filter_request -> result string) : api_filter :=
  {| af_Name := LabelName ++ ResourceLabelingFilterNameSuffix;
     af_FilterMatchers := labeling_matchers tenant_paths ["POST"];
     af_step := TenantLabelingFilter_Run labelKey extract |}.
Definition NewMultitenancyFilters (labelKey : string) (extract : filter_request -> result string) : list api_filter :=
  [TenantCriteriaFilter labelKey extract; TenantLabelingFilter labelKey extract].
Definition ExtractPlanIDFilter (labelKey : string) : api_filter :=
  {| af_Name := "ExtractPlanIDByServiceAndPlanName"; af_FilterMatchers := [on (ServiceInstancesURL ++ "/**") ["POST"]];
     af_step := extractPlanIDByServiceAndPlanNameFilter_Run (DefaultGetVisibilityMetadataFunc labelKey) |}.
Definition ServiceInstanceVisibilityFilter (labelKey : string) : api_filter :=
  {| af_Name := "ServiceInstanceVisibilityFilter";
     af_FilterMatchers := [on (ServiceInstancesURL ++ "/**") ["POST"; "PATCH"; "DELETE"]];
     af_step := serviceInstanceVisibilityFilter_Run (DefaultGetVisibilityMetadataFunc labelKey) |}.
Definition ServiceBindingVisibilityFilter (labelKey : string) : api_filter :=
  {| af_Name := "ServiceBindingVisibilityFilter";
     af_FilterMatchers := [on (ServiceBindingsURL ++ "/**") ["POST"; "DELETE"; "PATCH"]];
     af_step := serviceBindingVisibilityFilter_Run labelKey |}.

(** [api.New], for a configuration without rate limits, and [EnableMultitenancy] *)
Record api_settings := { ProtectedLabels : list string; DisabledQueryParameters : list string; EnableInstanceTransfer : bool }.
Definition default_filters (c : api_settings) : list api_filter :=
  [Logging; SupportedEncodingsFilter; SelectionCriteria; ServiceInstanceStripFilter; ServiceBindingStripFilter;
   ProtectedLabelsFilter (ProtectedLabels c); ProtectedSMPlatformFilter; PlatformIDInstanceValidationFilter;
   PlatformAwareVisibilityFilter; PatchOnlyLabelsFilter; PlanFilterByVisibility; ServicesFilterByVisibility;
   SharedInstanceUpdateFilter; ReferenceInstanceFilter; BrokersFilterByVisibility; CheckBrokerCredentialsFilter;
   ServiceInstanceTransferFilter (EnableInstanceTransfer c); PlatformTerminationFilter].
Definition New (c : api_settings) : result (list filter) :=
  RegisterFiltersBefore (as_filter <$> default_filters c) "ProtectedLabelsFilter"
    [as_filter (DisabledQueryParametersFilter (DisabledQueryParameters c))].
(** What pkg/sm/sm.go adds; the two filters of [NewSecurityBuilder] run what is configured. *)
Definition ServiceManager_filters (c : api_settings) : result (list filter) :=
  let* api := New c in
  let* api := RegisterFiltersAfter api "LoggingFilter" (as_filter <$> [Authentication; Authorization]) in
  let* api := RegisterFilters api (as_filter <$> [RegeneratePlatformCredentialsFilter; TechnicalPlatformFilter]) in
  RegisterFiltersAfter api "Authorization" (as_filter <$> [CheckPlatformSuspendedFilter; ForceDeleteValidationFilter]).
Definition EnableMultitenancy (api : list filter) (labelKey : string) (extract : filter_request -> result string)
    : result (list filter) :=
  if String.eqb labelKey "" then Panic "labelKey should be provided"
  else
    let* api := RegisterFiltersAfter api "ProtectedLabelsFilter" (as_filter <$> NewMultitenancyFilters labelKey extract) in
    let* api := RegisterFiltersAfter api (LabelName ++ ResourceLabelingFilterNameSuffix) [as_filter (ExtractPlanIDFilter labelKey)] in
    RegisterFilters api (as_filter <$> [ServiceInstanceVisibilityFilter labelKey; ServiceBindingVisibilityFilter labelKey]).

(** The order that results: what comes before the protection of labels, and the rest. *)
Definition filters_before (c : api_settings) : list api_filter :=
  [Logging; Authentication; Authorization; CheckPlatformSuspendedFilter; ForceDeleteValidationFilter;
   SupportedEncodingsFilter; SelectionCriteria; ServiceInstanceStripFilter; ServiceBindingStripFilter;
   DisabledQueryParametersFilter (DisabledQueryParameters c)].
Definition filters_behind (c : api_settings) (labelKey : string) : list api_filter :=
  [ExtractPlanIDFilter labelKey; ProtectedSMPlatformFilter; PlatformIDInstanceValidationFilter;
   PlatformAwareVisibilityFilter; PatchOnlyLabelsFilter; PlanFilterByVisibility; ServicesFilterByVisibility;
   SharedInstanceUpdateFilter; ReferenceInstanceFilter; BrokersFilterByVisibility; CheckBrokerCredentialsFilter;
   ServiceInstanceTransferFilter (EnableInstanceTransfer c); PlatformTerminationFilter;
   RegeneratePlatformCredentialsFilter; TechnicalPlatformFilter;
   ServiceInstanceVisibilityFilter labelKey; ServiceBindingVisibilityFilter labelKey].
Definition multitenant_filters (c : api_settings) (labelKey : string) (extract : filter_request -> result string)
    : list api_filter :=
  filters_before c ++ ProtectedLabelsFilter (ProtectedLabels c) :: TenantCriteriaFilter labelKey extract ::
  TenantLabelingFilter labelKey extract :: filters_behind c labelKey.

(** Registering gives this order. *)
Lemma multitenant_order c labelKey extract : labelKey <> "" ->
  (let* api := ServiceManager_filters c in EnableMultitenancy api labelKey extract) =
  Ok (as_filter <$> multitenant_filters c labelKey extract).
Proof.
  intros Hk. unfold EnableMultitenancy. destruct (String.eqb_spec labelKey ""); [done|].
  lazy -[go_on SupportedEncodingsFilter_Run SelectionCriteria_Run ServiceInstanceStripFilter_Run ServiceBindingStripFilter_Run
    ProtectedLabelsFilter_Run ProtectedSMPlatformFilter_Run PlatformIDInstanceValidationFilter_Run
    PlatformAwareVisibilityFilter_Run PatchOnlyLabelsFilter_Run PlanFilterByVisibility_Run ServicesFilterByVisibility_Run
    BrokersFilterByVisibility_Run sharedInstanceUpdateFilter_Run CheckBrokerCredentialsFilter_Run
    serviceInstanceTransferFilter_Run platformTerminationFilter_Run DisabledQueryParametersFilter_Run
    RegeneratePlatformCredentialsFilter_Run TechnicalPlatformFilter_Run CheckPlatformSuspendedFilter_Run
    ForceDeleteValidationFilter_Run TenantCriteriaFilter_Run TenantLabelingFilter_Run
    extractPlanIDByServiceAndPlanNameFilter_Run serviceInstanceVisibilityFilter_Run serviceBindingVisibilityFilter_Run
    DefaultGetVisibilityMetadataFunc Run_of Path Methods].
  reflexivity.
Qed.
End Filters.
End Matchers.
