(* ===== verification/ApiFilterTheorems.v ===== *)
(** * What the filters of the API guarantee

    Filters only narrow a request ([narrowed]); with tenants, a request that reaches its
    handler is confined to its tenant; lists by visibility agree with single resources. *)

From S2P Require Import Prelude GoStd Errors Labels Query QueryProps WhereClause WebFilters WebRegistry WebProps OperationTypes DomainTypes RequestBody WorldMonad OSBPlugins Catalog CatalogTheorems NotificationTheorems ApiFilters ApiChain.
From stdpp Require Import base gmap strings list.
From Stdlib Require Import ZArith Ascii Lia.
Import Operators Criteria.
Local Open Scope string_scope.

(** ** Chains of steps *)
Lemma chain_is_steps (l : list api_filter) h r s :
  Chain (as_filter <$> l) h r s = Run_of (chain_steps (af_step <$> l)) r h s.
Proof.
  revert r s. induction l as [|f l IH]; intros r s; [done|]. simpl. unfold Run_of at 1, Run_of, c_bind.
  destruct (af_step f (r, s)) as [[r' s'] [[a|]|e|m]]; [done| |done..]. apply IH.
Qed.
Lemma chain_steps_app l1 l2 w w' :
  chain_steps (l1 ++ l2) w = (w', Ok None) <-> exists w1, chain_steps l1 w = (w1, Ok None) /\ chain_steps l2 w1 = (w', Ok None).
Proof.
  revert w. induction l1 as [|f l IH]; intros w; simpl.
  - split; [by exists w|]. by intros (w1 & [= <-] & E).
  - unfold c_bind. destruct (f w) as [w1 [[a|]|e|m]].
    + split; [done|by intros (? & ? & ?)].
    + apply IH.
    + split; [done|by intros (? & ? & ?)].
    + split; [done|by intros (? & ? & ?)].
Qed.
Lemma chain_steps_cons f l w w' :
  chain_steps (f :: l) w = (w', Ok None) <-> exists w1, f w = (w1, Ok None) /\ chain_steps l w1 = (w', Ok None).
Proof.
  simpl. unfold c_bind. destruct (f w) as [w1 [[a|]|e|m]].
  - split; [done|by intros (? & ? & ?)].
  - split; [by exists w1|]. by intros (? & [= <-] & ?).
  - split; [done|by intros (? & ? & ?)].
  - split; [done|by intros (? & ? & ?)].
Qed.

(** ** Narrowing *)
(** The text of a body, as far as it is about labels. *)
Definition label_text `{BodyJson} (b : string) := (json_labels b, json_label_changes b).
Record narrowed `{BodyJson} (w w' : fworld) : Prop := {
  nr_criteria : exists cs, fr_Criteria w'.1 = (fr_Criteria w.1 ++ cs)%list;
  nr_method : fr_Method w'.1 = fr_Method w.1;
  nr_path : fr_Path w'.1 = fr_Path w.1;
  nr_params : fr_PathParams w'.1 = fr_PathParams w.1;
  nr_user : fr_User w'.1 = fr_User w.1;
  nr_content : fr_Header w'.1 !! "Content-Type" = fr_Header w.1 !! "Content-Type";
  nr_labels : label_text (fr_Body w'.1) = label_text (fr_Body w.1);
  nr_tables : fst_tables w'.2 = fst_tables w.2
}.
#[global] Instance narrowed_preorder `{BodyJson} : PreOrder narrowed.
Proof.
  split.
  - intros w. split; try done. exists []. by rewrite app_nil_r.
  - intros w1 w2 w3 [[cs1 H1] ? ? ? ? ? ? ?] [[cs2 H2] ? ? ? ? ? ? ?]. split; try congruence.
    exists (cs1 ++ cs2)%list. by rewrite H2, H1, app_assoc.
Qed.

(** What the filters rely on of sjson: a property that is set or deleted is the only one to
    change. *)
Class BodyLaws `{JSONText} `{BodyJson} : Prop := {
  set_keeps_labels b p v b' : p = "platform_id" \/ p = "service_plan_id" -> sjson_set b p v = Ok b' -> label_text b' = label_text b;
  delete_keeps_labels b b' : sjson_delete b "platform_id" = Ok b' -> label_text b' = label_text b
}.

(** A computation that narrows the request it starts with. *)
Definition stable `{BodyJson} {A} (m : fm A) : Prop := forall w w' a, m w = (w', Ok a) -> narrowed w w'.
Create HintDb narrowing.
#[export] Hint Extern 1 (narrowed ?w ?w) => reflexivity : narrowing.

Section Stable.
Context `{FilterEnv} `{JSONText} `{BodyJson}.
Lemma stable_ret {A} (a : A) : stable (c_ret a).
Proof. intros w w' b [= <- _]. reflexivity. Qed.
Lemma stable_fail {A} e : stable (@c_fail _ A e).
Proof. by intros w w' b [=]. Qed.
Lemma stable_lift {A} (r : result A) : stable (c_lift r).
Proof. intros w w' b [= <- _]. reflexivity. Qed.
Lemma stable_panic {A} m : stable (fun w => (w, @Panic A m)).
Proof. by intros w w' b [=]. Qed.
Lemma stable_request : stable the_request.
Proof. intros w w' b [= <- _]. reflexivity. Qed.
Lemma stable_bind {A B} (m : fm A) (k : A -> fm B) : stable m -> (forall a, stable (k a)) -> stable (c_bind m k).
Proof. intros Hm Hk w w' b (w1 & a & E1 & E2)%c_bind_ok. etrans; [by eapply Hm|by eapply Hk]. Qed.
Lemma stable_fold {A S} (f : S -> A -> fm S) l s : (forall s x, stable (f s x)) -> stable (c_fold f s l).
Proof.
  intros Hf. revert s. induction l as [|x l IH]; intros s; simpl; [apply stable_ret|]. apply stable_bind; auto.
Qed.
Lemma stable_storage {A} (f : filter_tables -> result A) : stable (f_storage f).
Proof.
  intros [r s] w' a. unfold f_storage. destruct (ff_fault _); [done|]. simpl. intros [= <- _].
  split; try done. exists []. by rewrite app_nil_r.
Qed.
Lemma stable_try {A} wrap (m : fm A) : stable m -> stable (f_try wrap m).
Proof. intros Hm w w' a. unfold f_try. destruct (m w) as [w1 [b| |]] eqn:E; intros [= <- <-]. by eapply Hm. Qed.
Lemma stable_add wrap cs : stable (add_criteria wrap cs).
Proof.
  intros [r s] w' a. unfold add_criteria. simpl. destruct (validateCriteria _); intros [= <- _]. split; try done. by exists cs.
Qed.
Lemma stable_generate b : stable (set_request (with_fr_Generate b)).
Proof. intros [r s] w' a [= <- _]. split; try done. exists []. by rewrite app_nil_r. Qed.
End Stable.
#[export] Hint Resolve stable_ret stable_fail stable_lift stable_panic stable_request stable_bind stable_fold stable_storage
  stable_try stable_add stable_generate : narrowing.
(** Take a computation apart along its binds and branches. *)
Ltac stable_step :=
  match goal with
  | |- stable (c_bind _ _) => apply stable_bind; [|intros ?]
  | |- stable (f_try _ _) => apply stable_try
  | |- stable (c_fold _ _ _) => apply stable_fold; intros ? ?
  | |- stable go_on => apply stable_ret
  | |- stable (answer _) => apply stable_ret
  | |- stable (refuse _ _ _) => apply stable_fail
  | |- stable (bad_request _) => apply stable_fail
  | |- stable (sharing_refused _ _) => apply stable_fail
  | |- stable (rep_List _ _) => apply stable_storage
  | |- stable (rep_Count _ _) => apply stable_storage
  | |- stable (rep_Get _ _) => apply stable_storage
  | |- stable (if ?b then _ else _) => destruct b
  | |- stable (match ?x with _ => _ end) => destruct x
  | |- stable (let _ := _ in _) => cbv zeta
  | |- stable _ => solve [auto with narrowing]
  end.
Ltac stable_solve := repeat stable_step.

Section Filters.
Context `{FilterEnv} `{JSONText} `{JSONQueries} `{BodyJson} `{Bodies}.

Lemma plansCriteria_stable p : stable (plansCriteria p).
Proof. unfold plansCriteria. stable_solve. Qed.
Lemma servicesCriteria_stable c : stable (servicesCriteria c).
Proof. unfold servicesCriteria. stable_solve. Qed.
Lemma brokersCriteria_stable c : stable (brokersCriteria c).
Proof. unfold brokersCriteria. stable_solve. Qed.
Lemma visibilities_of_stable c p : stable (visibilities_of c p).
Proof. unfold visibilities_of. stable_solve. Qed.
Hint Resolve plansCriteria_stable servicesCriteria_stable brokersCriteria_stable visibilities_of_stable : narrowing.
Lemma middleware_stable visible criteria :
  (forall a b, stable (visible a b)) -> (forall a, stable (criteria a)) -> stable (visibilityFilteringMiddleware_Run visible criteria).
Proof. intros Hv Hc. unfold visibilityFilteringMiddleware_Run. stable_solve. Qed.
Lemma visibility_filters_stable :
  stable PlanFilterByVisibility_Run /\ stable ServicesFilterByVisibility_Run /\ stable BrokersFilterByVisibility_Run.
Proof.
  split_and!; apply middleware_stable; intros.
  - unfold isPlanVisibile. stable_solve.
  - unfold plansCriteriaFunc. stable_solve.
  - unfold isServiceVisible. stable_solve.
  - unfold servicesCriteriaFunc. stable_solve.
  - unfold isBrokerVisible. stable_solve.
  - unfold brokersCriteriaFunc. stable_solve.
Qed.
Lemma platform_filters_stable order :
  stable PlatformAwareVisibilityFilter_Run /\ stable TechnicalPlatformFilter_Run /\ stable ProtectedSMPlatformFilter_Run /\
  stable RegeneratePlatformCredentialsFilter_Run /\ stable (platformTerminationFilter_Run order).
Proof.
  unfold PlatformAwareVisibilityFilter_Run, TechnicalPlatformFilter_Run, ProtectedSMPlatformFilter_Run,
    RegeneratePlatformCredentialsFilter_Run, platformTerminationFilter_Run, findReferencesOfSharedInstancesInOtherPlatforms,
    findSharedInstancesInPlatform.
  split_and!; stable_solve.
Qed.
Lemma check_filters_stable enable :
  stable PatchOnlyLabelsFilter_Run /\ stable CheckBrokerCredentialsFilter_Run /\ stable (serviceInstanceTransferFilter_Run enable).
Proof.
  unfold PatchOnlyLabelsFilter_Run, CheckBrokerCredentialsFilter_Run, serviceInstanceTransferFilter_Run.
  split_and!; stable_solve.
Qed.
Lemma instance_visibility_stable meta : stable (serviceInstanceVisibilityFilter_Run meta).
Proof. unfold serviceInstanceVisibilityFilter_Run. stable_solve. Qed.
Lemma unsharing_stable i : stable (unsharing_references i).
Proof.
  intros w w' a. unfold unsharing_references. destruct (rep_List _ _ w) as [w1 [l|e|m]] eqn:E; intros [= <- <-].
  - by eapply stable_storage.
  - clear -E. unfold rep_List, f_storage in E. destruct (ff_fault _); injection E as <- _; (split; try done; exists []; by rewrite app_nil_r).
Qed.
Lemma get_failed_narrowed {A} `{Row A} (t : filter_tables -> list A) cs w w' e : rep_Get t cs w = (w', Err e) -> narrowed w w'.
Proof.
  unfold rep_Get, f_storage. destruct (ff_fault _); intros E; injection E as <- _; (split; try done; exists []; by rewrite app_nil_r).
Qed.
Hint Resolve unsharing_stable : narrowing.
Lemma sharing_stable : stable sharedInstanceUpdateFilter_Run.
Proof.
  unfold sharedInstanceUpdateFilter_Run. stable_solve. intros w w' o. unfold handleServiceUpdate.
  destruct (get_instance_by_id _ _ w) as [w1 [i|e|m]] eqn:E; [| |done].
  - intros E2. etrans; [eapply stable_storage; exact E|]. revert E2.
    match goal with |- ?m w1 = _ -> _ => assert (Hs : stable m); [|apply Hs] end.
    unfold get_plan_by_id, sharing_of_instance, validateRequestContainsSingleProperty, get_plan_by_id. stable_solve.
  - intros [= <- _]. unfold get_instance_by_id in E. by apply get_failed_narrowed in E.
Qed.
End Filters.

(** The outermost branch of a computation that returned. *)
Ltac branch E :=
  cbv zeta in E; lazymatch type of E with (if ?b then _ else _) _ = _ => let Hb := fresh "Hb" in destruct b eqn:Hb end.
(** What remains is stable as it is. *)
Ltac stable_rest E :=
  lazymatch type of E with ?m ?w = (?w', Ok ?a) => let Hs := fresh in assert (Hs : stable m) by stable_solve; exact (Hs w w' a E) end.

(** ** Filters that change the body *)
Section Bodies.
Context `{FilterEnv} `{JSONText} `{JSONQueries} `{BodyJson} `{Bodies} `{!BodyLaws}.

Lemma body_narrowed r s b : label_text b = label_text (fr_Body r) -> narrowed (r, s) (with_fr_Body b r, s).
Proof. intros Hb. split; try done. exists []. by rewrite app_nil_r. Qed.
Lemma request_taken {B} (k : filter_request -> fm B) : (forall w w' b, k w.1 w = (w', Ok b) -> narrowed w w') -> stable (c_bind the_request k).
Proof. intros Hk w w' b. unfold c_bind. simpl. apply Hk. Qed.
Lemma storage_keeps_request {A} (f : filter_tables -> result A) w w' r : f_storage f w = (w', r) -> w'.1 = w.1.
Proof. unfold f_storage. by destruct (ff_fault _); intros [= <- _]. Qed.
Lemma try_keeps_request {A} wrap (f : filter_tables -> result A) w w' r : f_try wrap (f_storage f) w = (w', r) -> w'.1 = w.1.
Proof.
  unfold f_try. destruct (f_storage f w) as [w1 [a|e|m]] eqn:E; intros [= <- _]; by apply storage_keeps_request in E.
Qed.
Lemma set_body_then w w' body p v b o :
  p = "platform_id" \/ p = "service_plan_id" -> body = fr_Body w.1 -> sjson_set body p v = Ok b ->
  (set_request (with_fr_Body b) >; go_on)%sm w = (w', Ok o) -> narrowed w w'.
Proof.
  intros Hp -> Hs [= <- _]. destruct w as [r s]. apply body_narrowed. by eapply set_keeps_labels.
Qed.

Lemma platform_id_stable : stable PlatformIDInstanceValidationFilter_Run.
Proof.
  apply request_taken. intros w w' o E. branch E; [by injection E as <- _|]. branch E; [done|]. branch E; [branch E|].
  - apply c_bind_ok in E as (w1 & b & [= <- Hs] & E). eapply set_body_then; [by left|done|exact Hs|exact E].
  - by injection E as <- _.
  - stable_rest E.
Qed.
Lemma extract_plan_stable meta : stable (extractPlanIDByServiceAndPlanNameFilter_Run meta).
Proof.
  apply request_taken. intros w w' o (w1 & md & [= <- _] & E)%c_bind_ok.
  branch E; [by injection E as <- _|]. branch E; [|done].
  apply c_bind_ok in E as (w1 & ps & E1 & E). pose proof (try_keeps_request _ _ _ _ _ E1) as Hr.
  etrans; [by eapply stable_try, E1; apply stable_storage|]. destruct ps as [|p [|]]; [done| |done].
  apply c_bind_ok in E as (w2 & b & [= <- Hs] & E). eapply set_body_then; [by right| |exact Hs|exact E]. by rewrite Hr.
Qed.
Lemma binding_instance_keeps req w w' a : binding_instance req w = (w', Ok a) -> narrowed w w' /\ w'.1 = w.1.
Proof.
  unfold binding_instance. intros E. branch E; [|by injection E as <- _].
  apply c_bind_ok in E as (w1 & b & E & [= <- _]). split; [by eapply stable_try, E; apply stable_storage|by eapply try_keeps_request].
Qed.
Lemma smaap_platform_narrowed w w' req p : fr_Body req = fr_Body w.1 ->
  (if fr_SMAAPOperated req then
     cat! body <- c_lift (sjson_delete (fr_Body req) "platform_id");
     set_request (with_fr_Body body) >; c_ret (gjson_string (fr_Body req) "platform_id")
   else c_ret SMPlatform)%sm w = (w', Ok p) -> narrowed w w'.
Proof.
  intros Hr E. branch E; [|by injection E as <- _]. apply c_bind_ok in E as (w1 & b & [= <- Hs] & [= <- _]).
  destruct w as [r s]. apply body_narrowed. etrans; [by apply delete_keeps_labels|]. by rewrite Hr.
Qed.
Lemma binding_visibility_stable key : stable (serviceBindingVisibilityFilter_Run key).
Proof.
  apply request_taken. intros w w' o (w1 & t & [= <- _] & E)%c_bind_ok.
  branch E; [done|]. branch E; [by injection E as <- _|].
  apply c_bind_ok in E as (w1 & i & [Hn Hr]%binding_instance_keeps & E). etrans; [exact Hn|].
  branch E; [by injection E as <- _|].
  apply c_bind_ok in E as (w2 & p & E2 & E). etrans; [eapply smaap_platform_narrowed; [|exact E2]; by rewrite Hr|].
  stable_rest E.
Qed.
End Bodies.

(** ** Which filters of a list run *)
Section Matched.
Notation filter := (WebFilters.Filter filter_request filter_response filter_state).
Definition taken (ep : Endpoint) (f : filter) : bool :=
  match FilterMatchers f with [] => true | _ => match Matching (FilterMatchers f) ep with Ok b => b | _ => false end end.
Lemma matching_filters_taken (fs l : list filter) ep :
  MatchingFilters fs ep = Ok l -> l = List.filter (taken ep) fs /\ forall f, f ∈ fs -> exists b, Matching (FilterMatchers f) ep = Ok b.
Proof.
  revert l. induction fs as [|f fs IH]; intros l; simpl.
  - intros [= <-]. split; [done|]. by intros f ?%elem_of_nil.
  - destruct (Matching (FilterMatchers f) ep) as [b| |] eqn:Em; [|done..].
    destruct (MatchingFilters fs ep) as [m| |] eqn:E; [|done..]. simpl. intros [= <-].
    destruct (IH m eq_refl) as [-> Hd]. split.
    + unfold taken at 2. rewrite Em. destruct (FilterMatchers f); [by injection Em as <-|]. by destruct b.
    + intros g [->|Hg]%elem_of_cons; [by exists b|by apply Hd].
Qed.
Lemma Matching_hit l g ep b : g ∈ l -> miss_match (Matchers g) ep = Ok false -> Matching l ep = Ok b -> b = true.
Proof.
  intros Hg Hm. induction l as [|x l IH]; simpl; [by apply elem_of_nil in Hg|].
  destruct (miss_match (Matchers x) ep) as [[]| |] eqn:E; simpl; [|by intros [= <-]|done..].
  apply elem_of_cons in Hg as [->|Hg]; [congruence|by apply IH].
Qed.
Lemma taken_hit f g ep : FilterMatchers f <> [] -> (exists b, Matching (FilterMatchers f) ep = Ok b) ->
  g ∈ FilterMatchers f -> miss_match (Matchers g) ep = Ok false -> taken ep f = true.
Proof.
  intros Hn [b Hb] Hg Hm. pose proof (Matching_hit _ _ _ _ Hg Hm Hb) as ->. unfold taken. destruct (FilterMatchers f); [done|].
  by rewrite Hb.
Qed.
Lemma taken_true f ep : taken ep f = true -> FilterMatchers f = [] \/ Matching (FilterMatchers f) ep = Ok true.
Proof. unfold taken. destruct (FilterMatchers f); [by left|]. intros E. right. by destruct (Matching _ ep) as [[]| |]. Qed.
Lemma filter_as_filter ep l : List.filter (taken ep) (as_filter <$> l) = as_filter <$> List.filter (fun f => taken ep (as_filter f)) l.
Proof.
  induction l as [|f l IH]; [done|]. rewrite fmap_cons. cbn [List.filter]. rewrite IH. by destruct (taken ep (as_filter f)).
Qed.
End Matched.

(** ** Tenants *)
(** Labels in a body, as encoding/json, gjson and sjson see them, for a key without characters
    that mean something in a path, and a body in which nothing but one key "labels" can be taken
    for the labels: encoding/json would decode the others, too. *)
Class LabelLaws `{JSONText} `{BodyJson} `{Bodies} (key : string) : Prop := {
  label_absent b l : one_labels_key b -> json_labels b = Some l -> l !! key = None -> g_exists b ("labels." ++ key) = false;
  label_added b l v b' : one_labels_key b -> json_labels b = Some l -> g_exists b ("labels." ++ key) = false ->
    s_set_strings b ("labels." ++ key) [v] = Ok b' -> json_labels b' = Some (<[key := [v]]> l)
}.
Lemma check_keys_ok labels keys d : check_label_keys labels keys d = Ok tt <-> forall k, k ∈ keys -> k ∉ labels.
Proof.
  induction keys as [|k keys IH]; simpl; [split; [by intros _ k ?%elem_of_nil|done]|].
  unfold is_protected. case_bool_decide as Hk.
  - split; [done|]. intros Hf. by destruct (Hf k); [left|].
  - rewrite IH. split.
    + intros Hf x [->|Hx]%elem_of_cons; [done|by apply Hf].
    + intros Hf x Hx. apply Hf. by right.
Qed.

Section Tenants.
Context `{FilterEnv} `{JSONText} `{JSONQueries} `{BodyJson} `{Bodies} `{!BodyLaws}.
Variables (key : string) (extract : filter_request -> result string) (order : list string -> list string).
Context `{!LabelLaws key}.
Hypothesis order_permutes : forall l, order l ≡ₚ l.

Definition json_request (r : filter_request) : Prop := IsJSONContentType (default "" (fr_Header r !! "Content-Type")) = Ok true.
Lemma protected_keeps labels w w' o : ProtectedLabelsFilter_Run order labels w = (w', Ok o) -> w' = w /\ o = None.
Proof.
  intros (w1 & r & [= <- <-] & E)%c_bind_ok. destruct labels; [by injection E as <- <-|].
  branch E.
  - apply c_bind_ok in E as (w1 & j & [= <- _] & E). branch E; [by injection E as <- <-|].
    destruct (json_labels _); [|done]. by apply c_bind_ok in E as (w1 & u & [= <- _] & [= <- <-]).
  - branch E; [|by injection E as <- <-]. apply c_bind_ok in E as (w1 & lcs & [= <- _] & E).
    by apply c_bind_ok in E as (w1 & u & [= <- _] & [= <- <-]).
Qed.
Lemma protected_created labels w w' : key ∈ labels -> fr_Method w.1 = "POST" -> json_request w.1 ->
  ProtectedLabelsFilter_Run order labels w = (w', Ok None) -> exists l, json_labels (fr_Body w.1) = Some l /\ l !! key = None.
Proof.
  intros Hk Hm Hj (w1 & r & [= <- <-] & E)%c_bind_ok. destruct labels as [|x labels]; [by apply elem_of_nil in Hk|].
  rewrite Hm in E. simpl in E. apply c_bind_ok in E as (w1 & j & [= <- Hj'] & E).
  unfold json_request in Hj. rewrite Hj in Hj'. injection Hj' as <-. simpl in E.
  destruct (json_labels _) as [l|] eqn:El; [|done]. exists l. split; [done|].
  apply c_bind_ok in E as (w2 & [] & [= <- Hc] & _). rewrite check_keys_ok in Hc.
  destruct (l !! key) as [vs|] eqn:Ek; [|done]. destruct (Hc key); [|done].
  rewrite order_permutes. apply list_elem_of_fmap. exists (key, vs). split; [done|]. by apply elem_of_map_to_list.
Qed.
Lemma protected_patched labels w w' : key ∈ labels -> fr_Method w.1 = "PATCH" ->
  ProtectedLabelsFilter_Run order labels w = (w', Ok None) ->
  exists lcs, json_label_changes (fr_Body w.1) = Ok lcs /\ key ∉ lc_Key <$> lcs.
Proof.
  intros Hk Hm (w1 & r & [= <- <-] & E)%c_bind_ok. destruct labels as [|x labels]; [by apply elem_of_nil in Hk|].
  rewrite Hm in E. simpl in E. apply c_bind_ok in E as (w1 & lcs & [= <- Hl] & E). exists lcs. split; [done|].
  apply c_bind_ok in E as (w2 & [] & [= <- Hc] & _). rewrite check_keys_ok in Hc. intros Hin. by apply (Hc _ Hin).
Qed.

Variables (user : UserContext) (tenant : string).
Hypothesis no_global : uc_AccessLevel user <> GlobalAccess.
Hypothesis tenant_known : tenant <> "".
Lemma tenant_criteria w w' : fr_User w.1 = Some user -> extract w.1 = Ok tenant ->
  TenantCriteriaFilter_Run key extract w = (w', Ok None) ->
  w' = (with_fr_Criteria (fr_Criteria w.1 ++ [ByLabel EqualsOperator key [tenant]]) w.1, w.2).
Proof.
  intros Hu He. unfold TenantCriteriaFilter_Run, LabelingFilter_Run.
  intros (w1 & r & [= <- <-] & E)%c_bind_ok. apply c_bind_ok in E as (w1 & v & [= <- Hv] & E).
  unfold extract_tenant in Hv. rewrite Hu in Hv. rewrite bool_decide_false in Hv by done. rewrite He in Hv. injection Hv as <-.
  destruct (String.eqb_spec tenant ""); [done|]. apply c_bind_ok in E as (w1 & [] & E & [= <-]).
  unfold label_criteria_func, add_criteria in E. by destruct (validateCriteria _); injection E as <-.
Qed.
Lemma tenant_labeling w w' l : fr_User w.1 = Some user -> extract w.1 = Ok tenant ->
  one_labels_key (fr_Body w.1) -> json_labels (fr_Body w.1) = Some l -> l !! key = None -> TenantLabelingFilter_Run key extract w = (w', Ok None) ->
  exists b, w' = (with_fr_Body b w.1, w.2) /\ json_labels b = Some (<[key := [tenant]]> l).
Proof.
  intros Hu He Hone Hl Hk. unfold TenantLabelingFilter_Run, LabelingFilter_Run.
  intros (w1 & r & [= <- <-] & E)%c_bind_ok. apply c_bind_ok in E as (w1 & v & [= <- Hv] & E).
  unfold extract_tenant in Hv. rewrite Hu in Hv. rewrite bool_decide_false in Hv by done. rewrite He in Hv. injection Hv as <-.
  destruct (String.eqb_spec tenant ""); [done|]. apply c_bind_ok in E as (w1 & [] & E & [= <-]).
  unfold resource_labeling_func in E. apply c_bind_ok in E as (w2 & r & [= <- <-] & E).
  pose proof (label_absent _ _ Hone Hl Hk) as Hx. cbv zeta in E. rewrite Hx in E.
  destruct (s_set_strings _ _ _) as [b| |] eqn:Es; [|done..]. injection E as <-. exists b. split; [done|].
  by eapply label_added.
Qed.
Lemma labeling_keeps w w' : fr_User w.1 = Some user ->
  TenantLabelingFilter_Run key extract w = (w', Ok None) -> exists b, w' = (with_fr_Body b w.1, w.2).
Proof.
  intros Hu. unfold TenantLabelingFilter_Run, LabelingFilter_Run.
  intros (w1 & r & [= <- <-] & E)%c_bind_ok. apply c_bind_ok in E as (w1 & v & [= <- _] & E).
  branch E; [injection E as <-; exists (fr_Body w.1); by destruct w as [[] ?]|].
  apply c_bind_ok in E as (w1 & [] & E & [= <-]). unfold resource_labeling_func in E.
  apply c_bind_ok in E as (w2 & r & [= <- <-] & E). cbv zeta in E.
  lazymatch type of E with (match ?x with _ => _ end) _ = _ => destruct x as [b| |] end; [|done..]. injection E as <-. by exists b.
Qed.
End Tenants.

(** ** The chain with tenants *)
Lemma Matching_true l ep : Matching l ep = Ok true -> exists g, g ∈ l /\ miss_match (Matchers g) ep = Ok false.
Proof.
  induction l as [|x l IH]; simpl; [done|].
  destruct (miss_match (Matchers x) ep) as [[]| |] eqn:E; simpl; [| |done..].
  - intros (g & Hg & Hm)%IH. exists g. split; [by right|done].
  - intros _. exists x. split; [by left|done].
Qed.
Lemma in_array l x : matchInArray l x = true <-> x ∈ l.
Proof.
  induction l as [|y l IH]; simpl; [by rewrite elem_of_nil|]. rewrite elem_of_cons.
  destruct (String.eqb_spec y x) as [->|Hne]; [naive_solver|]. rewrite IH. naive_solver.
Qed.
Lemma on_hit glob path methods ep : methods <> [] ->
  miss_match (Matchers (on glob path methods)) ep = Ok false <->
  Path glob [path] ep = Ok true /\ Method ep ∈ methods.
Proof.
  intros Hm. unfold on. cbn [Matchers miss_match]. destruct (Path glob [path] ep) as [[]| |]; simpl; [|naive_solver..].
  unfold Methods. destruct methods as [|m ms]; [done|]. simpl.
  destruct (String.eqb_spec m (Method ep)) as [->|Hne]; simpl.
  - rewrite elem_of_cons. naive_solver.
  - destruct (matchInArray ms (Method ep)) eqn:E; simpl.
    + apply in_array in E. rewrite elem_of_cons. naive_solver.
    + split; [done|]. rewrite elem_of_cons, <- in_array. intros [_ [?|?]]; congruence.
Qed.

Section Isolation.
Context `{FilterEnv} `{JSONText} `{JSONQueries} `{BodyJson} `{Bodies} `{!BodyLaws}.
Variables (glob : string -> option (string -> bool)) (parse : CriterionType -> string -> result (list Criterion)).
Variables (reference_step : filter_step) (order : list string -> list string).
Variables (authn_matchers authz_matchers : list FilterMatcher) (authn_step authz_step : filter_step).
Variables (key : string) (extract : filter_request -> result string) (c : api_settings).
Context `{!LabelLaws key}.
Hypothesis order_permutes : forall l, order l ≡ₚ l.
Hypothesis reference_stable : stable reference_step.
Hypothesis extract_by_user : forall r r', fr_User r = fr_User r' -> extract r = extract r'.
Hypothesis key_protected : key ∈ ProtectedLabels c.

Lemma stable_chain l w w' : Forall stable l -> chain_steps l w = (w', Ok None) -> narrowed w w'.
Proof.
  intros Hl. revert w. induction Hl as [|f l Hf _ IH]; intros w; [by intros [= <-]|].
  intros (w1 & E1 & E2)%chain_steps_cons. etrans; [by eapply Hf|by apply IH].
Qed.
Lemma behind_stable : Forall (fun f => stable (af_step f)) (filters_behind glob reference_step order c key).
Proof.
  destruct visibility_filters_stable as (? & ? & ?). destruct (platform_filters_stable order) as (? & ? & ? & ? & ?).
  destruct (check_filters_stable (EnableInstanceTransfer c)) as (? & ? & ?).
  repeat (apply Forall_cons; split); simpl; try done; [apply extract_plan_stable|apply platform_id_stable|apply sharing_stable|
    apply instance_visibility_stable|apply binding_visibility_stable].
Qed.

(** What a handler may rely on, for a request [r] that came to the protection of labels. *)
Record confined (tenant : string) (r r' : filter_request) : Prop := {
  co_criteria : exists behind, fr_Criteria r' = (fr_Criteria r ++ ByLabel EqualsOperator key [tenant] :: behind)%list;
  co_valid : validateCriteria (fr_Criteria r ++ [ByLabel EqualsOperator key [tenant]]) = Ok tt;
  co_created : fr_Method r = "POST" -> json_request r -> one_labels_key (fr_Body r) ->
    exists l, json_labels (fr_Body r) = Some l /\ l !! key = None /\ json_labels (fr_Body r') = Some (<[key := [tenant]]> l);
  co_patched : fr_Method r = "PATCH" ->
    exists lcs, json_label_changes (fr_Body r') = Ok lcs /\ key ∉ lc_Key <$> lcs
}.
Lemma criteria_validated user tenant w w' : fr_User w.1 = Some user -> uc_AccessLevel user <> GlobalAccess -> extract w.1 = Ok tenant ->
  tenant <> "" -> TenantCriteriaFilter_Run key extract w = (w', Ok None) ->
  validateCriteria (fr_Criteria w.1 ++ [ByLabel EqualsOperator key [tenant]]) = Ok tt.
Proof.
  intros Hu Hg He Ht. unfold TenantCriteriaFilter_Run, LabelingFilter_Run.
  intros (w1 & r & [= <- <-] & E)%c_bind_ok. apply c_bind_ok in E as (w1 & v & [= <- Hv] & E).
  unfold extract_tenant in Hv. rewrite Hu in Hv. rewrite bool_decide_false in Hv by done. rewrite He in Hv. injection Hv as <-.
  destruct (String.eqb_spec tenant ""); [done|]. apply c_bind_ok in E as (w1 & [] & E & [= <-]).
  unfold label_criteria_func, add_criteria in E. by destruct (validateCriteria _) as [[]| |].
Qed.

Lemma tail_confines user tenant (protect label : bool) behind r s w' :
  fr_User r = Some user -> uc_AccessLevel user <> GlobalAccess -> extract r = Ok tenant -> tenant <> "" ->
  (fr_Method r = "POST" \/ fr_Method r = "PATCH" -> protect = true) -> (label = true <-> fr_Method r = "POST") ->
  Forall stable behind ->
  chain_steps ((if protect then [ProtectedLabelsFilter_Run order (ProtectedLabels c)] else []) ++
    TenantCriteriaFilter_Run key extract :: (if label then [TenantLabelingFilter_Run key extract] else []) ++ behind) (r, s) = (w', Ok None) ->
  confined tenant r w'.1.
Proof.
  intros Hu Hg He Ht Hp Hl Hb (w1 & E1 & E)%chain_steps_app. apply chain_steps_cons in E as (w2 & E2 & E).
  apply chain_steps_app in E as (w3 & E3 & [Hc _ _ _ _ _ Hlt _]%stable_chain); [|done].
  assert (w1 = (r, s) /\ (protect = true -> ProtectedLabelsFilter_Run order (ProtectedLabels c) (r, s) = (w1, Ok None))) as [-> Epr].
  { destruct protect; [|by injection E1 as <-]. apply chain_steps_cons in E1 as (w0 & E0 & [= <-]).
    pose proof (protected_keeps order _ _ _ _ E0) as [-> _]. done. }
  pose proof (criteria_validated user tenant (r, s) w2 Hu Hg He Ht E2) as Hv.
  apply (tenant_criteria key extract user tenant Hg Ht (r, s) w2 Hu He) in E2 as ->. simpl in *.
  set (r1 := with_fr_Criteria _ r) in E3.
  assert (fr_Criteria w3.1 = fr_Criteria r1) as Hc3.
  { destruct label; [|by injection E3 as <-]. apply chain_steps_cons in E3 as (w0 & E0 & [= <-]).
    by apply (labeling_keeps _ _ user) in E0 as [b ->]. }
  injection Hlt as Hlab Hch. destruct Hc as [cs Hcs]. split.
  - exists cs. rewrite Hcs, Hc3. unfold r1. simpl. by rewrite <- app_assoc.
  - done.
  - intros Hm Hj Hone. rewrite (proj2 Hl Hm) in E3. apply chain_steps_cons in E3 as (w0 & E0 & [= <-]).
    destruct (protected_created key _ order_permutes (ProtectedLabels c) (r, s) (r, s)) as (l & Hjl & Hk); try done; [apply Epr, Hp; by left|].
    exists l. split; [done|]. split; [done|].
    eapply (tenant_labeling _ _ user) in E0 as (b & -> & Hb'); try done.
    + by rewrite Hlab.
    + simpl. by rewrite (extract_by_user r1 r).
  - intros Hm. assert (label = false) as -> by (destruct label; [|done]; destruct Hl as [Hl _]; rewrite Hm in Hl; by specialize (Hl eq_refl)).
    injection E3 as <-. simpl in Hch. rewrite Hch.
    apply (protected_patched key order (ProtectedLabels c) (r, s) (r, s)); [done..|]. apply Epr, Hp. by right.
Qed.

(** The list that runs for a route below a tenant-scoped path. *)
Definition below (ep : Endpoint) (p : string) : Prop := Path glob [p ++ "/**"] ep = Ok true.
Lemma labeling_taken p methods ep f : p ∈ tenant_paths -> below ep p -> methods <> [] ->
  FilterMatchers f = labeling_matchers glob tenant_paths methods -> (exists b, Matching (FilterMatchers f) ep = Ok b) ->
  taken ep f = bool_decide (Method ep ∈ methods).
Proof.
  intros Hp Hb Hm Hf Hex. case_bool_decide as Hin.
  - apply (taken_hit f (on glob (p ++ "/**") methods)); [by rewrite Hf|done| |by apply on_hit].
    rewrite Hf. unfold labeling_matchers. by apply (list_elem_of_fmap_2 (fun q => on glob (q ++ "/**") methods)).
  - destruct (taken ep f) eqn:E; [|done]. exfalso. apply Hin.
    apply taken_true in E as [E|Em]; [by rewrite Hf in E|]. rewrite Hf in Em. apply Matching_true in Em as (g & (q & -> & _)%list_elem_of_fmap & Hg). apply on_hit in Hg; [|done]. by destruct Hg.
Qed.
Lemma protection_taken labels ep : taken ep (as_filter (ProtectedLabelsFilter order labels)) = matchInArray ["POST"; "PATCH"] (Method ep).
Proof.
  unfold taken. simpl. repeat match goal with |- context [if ?b then _ else _] => destruct b end; done.
Qed.
Lemma filter_stable (p : api_filter -> bool) l :
  Forall (fun f => stable (af_step f)) l -> Forall stable (af_step <$> List.filter p l).
Proof. induction 1 as [|f l Hf _ IH]; simpl; [constructor|]. destruct (p f); [by constructor|done]. Qed.
Lemma chain_reaches l r s :
  (exists out, forall h, Chain (as_filter <$> l) h r s = out) \/
  exists r' s', chain_steps (af_step <$> l) (r, s) = ((r', s'), Ok None) /\ forall h, Chain (as_filter <$> l) h r s = h r' s'.
Proof.
  destruct (chain_steps (af_step <$> l) (r, s)) as [[r' s'] [[a|]|e|m]] eqn:E.
  - left. eexists. intros h. rewrite chain_is_steps. unfold Run_of. by rewrite E.
  - right. exists r', s'. split; [done|]. intros h. rewrite chain_is_steps. unfold Run_of. by rewrite E.
  - left. eexists. intros h. rewrite chain_is_steps. unfold Run_of. by rewrite E.
  - left. eexists. intros h. rewrite chain_is_steps. unfold Run_of. by rewrite E.
Qed.
Lemma if_steps (b : bool) (f : api_filter) l :
  (af_step <$> (if b then f :: l else l)) = ((if b then [af_step f] else []) ++ (af_step <$> l))%list.
Proof. by destruct b. Qed.

Lemma Ok_inj {A} (x y : A) : Ok x = Ok y -> x = y.
Proof. congruence. Qed.

(** C15: tenants are kept apart.  In the API that is registered with tenants, with the label key
    of the tenants among the protected labels (a setting of its own, empty by default), for a
    route below one of the tenant-scoped paths, the handler of the route is behind a list of
    filters that begins with the protection of labels.  Whatever request of a user without global
    access comes to this list, with a tenant that is known, either the list answers it on its
    own, or it hands the handler a request that is confined to the tenant: its criteria are those
    it had and, behind them, the one for the label of the tenant (all of them valid together, so
    none of the earlier ones is for the same label); an object to be created by a request with
    JSON content type, whose body has no key but "labels", once at most, that encoding/json takes
    for the labels, is labelled with exactly this tenant besides the labels it came with; and a
    patch has no change of the label of the tenant. *)
Theorem tenant_isolation api route handler p :
  key <> "" -> p ∈ tenant_paths -> below (Endpoint_ route) p -> Method (Endpoint_ route) ∈ ["GET"; "PATCH"; "DELETE"; "POST"] ->
  (let* api := ServiceManager_filters glob parse reference_step order authn_matchers authz_matchers authn_step authz_step c in
   EnableMultitenancy glob api key extract) = Ok api ->
  ChainMatching api route = Ok handler ->
  exists before tail, handler = Chain before (Chain tail (Handler_ route)) /\
    forall r s user tenant, fr_Method r = Method (Endpoint_ route) -> fr_User r = Some user ->
      uc_AccessLevel user <> GlobalAccess -> extract r = Ok tenant -> tenant <> "" ->
      (exists out, forall h, Chain tail h r s = out) \/
      (exists r' s', (forall h, Chain tail h r s = h r' s') /\ confined tenant r r').
Proof.
  intros Hk Hp Hb Hm Ha. rewrite multitenant_order in Ha by done. apply Ok_inj in Ha. subst api. unfold ChainMatching.
  destruct (MatchingFilters _ _) as [l| |] eqn:E; [|done..].
  intros Hh. change (Ok (Chain l (Handler_ route)) = Ok handler) in Hh. injection Hh as <-.
  apply matching_filters_taken in E as [-> Hd].
  set (ep := Endpoint_ route) in *.
  rewrite filter_as_filter. unfold multitenant_filters. rewrite List.filter_app, fmap_app, Chain_app.
  match goal with |- context [Chain (as_filter <$> List.filter ?q ?l)] =>
    lazymatch l with ProtectedLabelsFilter _ _ :: _ =>
      exists (as_filter <$> List.filter q (filters_before glob parse authn_matchers authz_matchers authn_step authz_step c)),
             (as_filter <$> List.filter q l) end end.
  split; [done|]. intros r s user tenant Hr Hu Hg He Ht.
  destruct (chain_reaches (List.filter (fun f => taken ep (as_filter f))
    (ProtectedLabelsFilter order (ProtectedLabels c) :: TenantCriteriaFilter glob key extract ::
     TenantLabelingFilter glob key extract :: filters_behind glob reference_step order c key)) r s) as [Hout|(r' & s' & E & Hh)];
    [by left|right]. exists r', s'. split; [done|].
  assert (Hex : forall f, f ∈ [TenantCriteriaFilter glob key extract; TenantLabelingFilter glob key extract] ->
    exists b, Matching (FilterMatchers (as_filter f)) ep = Ok b).
  { intros f Hf. apply Hd, list_elem_of_fmap_2. unfold multitenant_filters. apply elem_of_app. right. right.
    apply elem_of_cons in Hf as [->|Hf]; [by left|]. apply list_elem_of_singleton in Hf as ->. right. by left. }
  cbn [List.filter] in E. rewrite protection_taken in E.
  rewrite (labeling_taken p ["GET"; "PATCH"; "DELETE"; "POST"] ep (as_filter (TenantCriteriaFilter glob key extract))) in E
    by (done || apply Hex; by left).
  rewrite (labeling_taken p ["POST"] ep (as_filter (TenantLabelingFilter glob key extract))) in E
    by (done || apply Hex; by right; left).
  rewrite (bool_decide_true _ Hm), if_steps, fmap_cons, if_steps in E.
  change r' with (r', s').1. refine (tail_confines user tenant _ _ _ r s _ Hu Hg He Ht _ _ _ E); [| |by apply filter_stable, behind_stable].
  - intros Hpm. apply in_array. rewrite <- Hr. destruct Hpm as [-> | ->]; [by left|by right; left].
  - rewrite bool_decide_eq_true, <- Hr. split; [by intros ?%list_elem_of_singleton|intros ->; by left].
Qed.
End Isolation.

(** ** Lists and single resources *)
Definition one_line (s : string) : Prop := Strings.contains_byte s newline = false.
Lemma Validate_field op left rs :
  rs <> [] -> (op_Type op = UnivariateOperator -> length rs = 1) -> op_IsNumeric op = false -> has_separator left = false ->
  Forall one_line rs -> Validate (ByField op left rs) = Ok tt.
Proof.
  intros Hne Hu Hn Hs Hl. apply Validate_iff. split; [done|]. rewrite bool_decide_false by done.
  unfold valid_filter_criterion. cbn [COperator RightOp CType LeftOp ByField NewCriterion]. split_and!; try done. by rewrite Hn.
Qed.

Section Listing.
Context `{FilterEnv}.
Hypothesis no_fault : forall n, ff_fault n = None.
Definition called (w : fworld) : fworld := (w.1, {| fst_tables := fst_tables w.2; fst_calls := S (fst_calls w.2) |}).
Lemma call_ok {A} (f : filter_tables -> result A) w : f_storage f w = (called w, f (fst_tables w.2)).
Proof. unfold f_storage. by rewrite no_fault. Qed.
Lemma selected_ok {A} `{Row A} cs (l : list A) : for_each Validate cs = Ok tt -> selected cs l = Ok (List.filter (row_matches cs) l).
Proof. intros Hv. unfold selected. by rewrite Hv. Qed.
Lemma list_ok {A} `{Row A} (t : filter_tables -> list A) cs w : for_each Validate cs = Ok tt ->
  rep_List t cs w = (called w, Ok (List.filter (row_matches cs) (t (fst_tables w.2)))).
Proof. intros Hv. unfold rep_List. by rewrite call_ok, selected_ok. Qed.

(** A criterion that says which ids are listed. *)
Definition listed (c : option Criterion) (id : string) : bool :=
  match c with Some c => column_matches c (Some id) | None => false end.
Definition good_criterion (c : option Criterion) : Prop :=
  match c with Some c => CType c = FieldQuery /\ LeftOp c = "id" /\ Validate c = Ok tt | None => True end.
Definition admits (platformID : string) (v : Visibility) : Prop := vi_PlatformID v = "" \/ vi_PlatformID v = platformID.
Lemma admits_matches platformID v :
  row_matches [ByField EqualsOrNilOperator "platform_id" [platformID]] v = true <-> admits platformID v.
Proof.
  unfold row_matches, admits. cbn -[String.eqb]. unfold nullable. destruct (String.eqb_spec (vi_PlatformID v) "") as [->|Hne]; simpl.
  - naive_solver.
  - rewrite andb_true_r. destruct (String.eqb_spec (vi_PlatformID v) platformID); naive_solver.
Qed.
(** The criterion that lists the images of some rows. *)
Definition ids_of {A} (f : A -> string) (l : list A) : option Criterion :=
  match l with [] => None | _ => Some (ByField InOperator "id" (f <$> l)) end.
Lemma ids_listed {A} (f : A -> string) l id : listed (ids_of f l) id = true <-> exists x, x ∈ l /\ f x = id.
Proof.
  destruct l as [|x l]; [split; [done|by intros (y & ?%elem_of_nil & _)]|].
  transitivity (id ∈ f <$> (x :: l)); [apply Slice.any_equals_true|]. rewrite list_elem_of_fmap. naive_solver.
Qed.
Lemma ids_good {A} (f : A -> string) l : Forall (fun x => one_line (f x)) l -> good_criterion (ids_of f l).
Proof.
  intros Hf. destruct l as [|x l]; [done|]. split; [done|]. split; [done|]. apply Validate_field; try done. by apply Forall_fmap.
Qed.
Lemma id_matches {A} `{Row A} c (x : A) : CType c = FieldQuery -> row_matches [c] x = column_matches c (row_field x (LeftOp c)).
Proof. intros Ht. unfold row_matches. simpl. by rewrite Ht, andb_true_r. Qed.
Lemma validated_alone c : Validate c = Ok tt -> for_each Validate [c] = Ok tt.
Proof. intros Hv. apply for_each_ok. by constructor. Qed.
Lemma in_filter {A} (p : A -> bool) l x : x ∈ List.filter p l <-> x ∈ l /\ p x = true.
Proof. rewrite !list_elem_of_In. apply List.filter_In. Qed.

Variables (platformID : string) (w : fworld).
Notation t := (fst_tables w.2).
Hypothesis platform_line : one_line platformID.
Hypothesis visibility_lines : Forall (fun v => one_line (vi_ServicePlanID v)) (ft_visibilities t).
Hypothesis plan_lines : Forall (fun p => one_line (base_ID (sp_Base p)) /\ one_line (sp_ServiceOfferingID p)) (ft_plans t).
Hypothesis offering_lines : Forall (fun o => one_line (base_ID (so_Base o)) /\ one_line (so_BrokerID o)) (ft_offerings t).

(** The resources a platform may see. *)
Definition plan_visible (id : string) : Prop := exists v, v ∈ ft_visibilities t /\ admits platformID v /\ vi_ServicePlanID v = id.
Definition service_visible (id : string) : Prop :=
  exists p, p ∈ ft_plans t /\ sp_ServiceOfferingID p = id /\ plan_visible (base_ID (sp_Base p)).
Definition broker_visible (id : string) : Prop :=
  exists o, o ∈ ft_offerings t /\ so_BrokerID o = id /\ service_visible (base_ID (so_Base o)).

Definition lists (c : option Criterion) (P : string -> Prop) : Prop :=
  good_criterion c /\ forall id, listed c id = true <-> P id.
Lemma filter_lines {A} (P : A -> Prop) (p : A -> bool) l : Forall P l -> Forall P (List.filter p l).
Proof. rewrite !Forall_forall. intros Hl x [Hx _]%in_filter. by apply Hl. Qed.
Lemma plansCriteria_lists w1 : fst_tables w1.2 = t -> exists c, plansCriteria platformID w1 = (called w1, Ok c) /\ lists c plan_visible.
Proof.
  intros Ht. unfold plansCriteria, c_bind. rewrite list_ok by (apply validated_alone, Validate_field; try done; by constructor).
  eexists (ids_of vi_ServicePlanID _). split; [reflexivity|]. rewrite Ht. split.
  - by apply ids_good, filter_lines.
  - intros id. rewrite ids_listed. unfold plan_visible. setoid_rewrite in_filter. setoid_rewrite admits_matches. naive_solver.
Qed.
Lemma servicesCriteria_lists c w1 : fst_tables w1.2 = t -> lists (Some c) plan_visible ->
  exists c', servicesCriteria c w1 = (called w1, Ok c') /\ lists c' service_visible.
Proof.
  intros Ht [(Hty & Hle & Hv) Hl]. unfold servicesCriteria, c_bind. rewrite list_ok by by apply validated_alone.
  eexists (ids_of sp_ServiceOfferingID _). split; [reflexivity|]. rewrite Ht. split.
  - apply ids_good, filter_lines. eapply Forall_impl; [exact plan_lines|]. by intros p [_ ?].
  - intros id. rewrite ids_listed. unfold service_visible. setoid_rewrite in_filter. setoid_rewrite id_matches; [|done].
    rewrite Hle. split; intros (p & Hp); exists p; rewrite <- (Hl (base_ID (sp_Base p))) in *; simpl in *; tauto.
Qed.
Lemma brokersCriteria_lists c w1 : fst_tables w1.2 = t -> lists (Some c) service_visible ->
  exists c', brokersCriteria c w1 = (called w1, Ok c') /\ lists c' broker_visible.
Proof.
  intros Ht [(Hty & Hle & Hv) Hl]. unfold brokersCriteria, c_bind. rewrite list_ok by by apply validated_alone.
  eexists (ids_of so_BrokerID _). split; [reflexivity|]. rewrite Ht. split.
  - apply ids_good, filter_lines. eapply Forall_impl; [exact offering_lines|]. by intros o [_ ?].
  - intros id. rewrite ids_listed. unfold broker_visible. setoid_rewrite in_filter. setoid_rewrite id_matches; [|done].
    rewrite Hle. split; intros (o & Ho); exists o; rewrite <- (Hl (base_ID (so_Base o))) in *; simpl in *; tauto.
Qed.

Definition missing_operand : error := EPlain "missing right operand".
Lemma positive_length {A} (l : list A) : (0 <? Z.of_nat (length l))%Z = true <-> exists x, x ∈ l.
Proof.
  rewrite Z.ltb_lt. destruct l as [|x l]; simpl; split; [lia|by intros (x & ?%elem_of_nil)|intros _; exists x; by left|lia].
Qed.
Lemma visibilities_of_spec planIDs w1 : fst_tables w1.2 = t -> CType planIDs = FieldQuery -> LeftOp planIDs = "service_plan_id" ->
  Validate planIDs = Ok tt ->
  exists b, visibilities_of planIDs platformID w1 = (called w1, Ok b) /\
    (b = true <-> exists id, column_matches planIDs (Some id) = true /\ plan_visible id).
Proof.
  intros Ht Hty Hle Hv. unfold visibilities_of, rep_Count, c_bind. rewrite call_ok, selected_ok.
  2:{ apply for_each_ok. repeat constructor; [done|]. apply Validate_field; try done. by constructor. }
  simpl. eexists. split; [reflexivity|]. rewrite positive_length, Ht. unfold plan_visible. setoid_rewrite in_filter.
  assert (Hm : forall v, row_matches [planIDs; ByField EqualsOrNilOperator "platform_id" [platformID]] v = true <->
    column_matches planIDs (Some (vi_ServicePlanID v)) = true /\ admits platformID v).
  { intros v. rewrite <- admits_matches. unfold row_matches at 1. cbn [forallb]. rewrite Hty, Hle. simpl. by rewrite andb_true_iff. }
  setoid_rewrite Hm. naive_solver.
Qed.
Lemma no_ids_fail w1 : visibilities_of (ByField InOperator "service_plan_id" []) platformID w1 = (called w1, Err missing_operand).
Proof. unfold visibilities_of, rep_Count, c_bind. by rewrite call_ok. Qed.
Lemma bool_same (b1 b2 : bool) (P : Prop) : (b1 = true <-> P) -> (b2 = true <-> P) -> b1 = b2.
Proof. destruct b1, b2; naive_solver. Qed.
Lemma in_ids_match left ids id : column_matches (ByField InOperator left ids) (Some id) = true <-> id ∈ ids.
Proof. apply Slice.any_equals_true. Qed.

(** The checks of single resources. *)
Lemma plans_seen (plans : list ServicePlan) (P : Prop) w1 : fst_tables w1.2 = t -> (forall p, p ∈ plans -> p ∈ ft_plans t) ->
  ((exists p, p ∈ plans /\ plan_visible (base_ID (sp_Base p))) <-> P) ->
  exists b, (b = true <-> P) /\
  visibilities_of (ByField InOperator "service_plan_id" ((fun p => base_ID (sp_Base p)) <$> plans)) platformID w1 =
    (called w1, match plans with [] => Err missing_operand | _ => Ok b end).
Proof.
  intros Ht Hsub HP. destruct plans as [|p ps].
  - exists false. split; [|apply no_ids_fail]. rewrite <- HP. split; [done|]. by intros (p & ?%elem_of_nil & _).
  - destruct (visibilities_of_spec (ByField InOperator "service_plan_id" ((fun p => base_ID (sp_Base p)) <$> p :: ps)) w1)
      as (b & -> & Hb); try done.
    + apply Validate_field; try done. apply Forall_fmap, Forall_forall. intros q Hq.
      pose proof (proj1 (Forall_forall _ _) plan_lines q (Hsub q Hq)) as [? _]. done.
    + exists b. split; [|done]. rewrite Hb, <- HP. setoid_rewrite in_ids_match. setoid_rewrite list_elem_of_fmap. naive_solver.
Qed.
Definition plans_of_service (id : string) : list ServicePlan :=
  List.filter (row_matches [ByField EqualsOperator "service_offering_id" [id]]) (ft_plans t).
Definition services_of_broker (id : string) : list ServiceOffering :=
  List.filter (row_matches [ByField EqualsOperator "broker_id" [id]]) (ft_offerings t).
Definition plans_of_services (ids : list string) : list ServicePlan :=
  List.filter (row_matches [ByField InOperator "service_offering_id" ids]) (ft_plans t).
Lemma plan_of_service id p : p ∈ plans_of_service id <-> p ∈ ft_plans t /\ sp_ServiceOfferingID p = id.
Proof. unfold plans_of_service. by rewrite in_filter, id_matches, <- String.eqb_eq. Qed.
Lemma service_of_broker id o : o ∈ services_of_broker id <-> o ∈ ft_offerings t /\ so_BrokerID o = id.
Proof. unfold services_of_broker. by rewrite in_filter, id_matches, <- String.eqb_eq. Qed.
Lemma plan_of_services ids p : p ∈ plans_of_services ids <-> p ∈ ft_plans t /\ sp_ServiceOfferingID p ∈ ids.
Proof. unfold plans_of_services. by rewrite in_filter, id_matches, <- (in_ids_match "service_offering_id"). Qed.

Lemma service_lookup id : one_line id -> exists b w1, (b = true <-> service_visible id) /\
  isServiceVisible id platformID w = (w1, match plans_of_service id with [] => Err missing_operand | _ => Ok b end).
Proof.
  intros Hid. unfold isServiceVisible, c_bind. rewrite list_ok by (apply validated_alone, Validate_field; try done; by constructor).
  fold (plans_of_service id).
  destruct (plans_seen (plans_of_service id) (service_visible id) (called w)) as (b & Hb & ->); [done|by intros p [? _]%plan_of_service| |by eauto].
  unfold service_visible. setoid_rewrite plan_of_service. naive_solver.
Qed.
Lemma no_services_fail w1 : rep_List ft_plans [ByField InOperator "service_offering_id" []] w1 = (called w1, Err missing_operand).
Proof. unfold rep_List. by rewrite call_ok. Qed.
Lemma broker_lookup id : one_line id -> exists b w1, (b = true <-> broker_visible id) /\
  isBrokerVisible id platformID w =
    (w1, match plans_of_services ((fun o => base_ID (so_Base o)) <$> services_of_broker id) with [] => Err missing_operand | _ => Ok b end).
Proof.
  intros Hid. unfold isBrokerVisible, c_bind. rewrite list_ok by (apply validated_alone, Validate_field; try done; by constructor).
  fold (services_of_broker id).
  assert (Hbv : (exists p, p ∈ plans_of_services ((fun o => base_ID (so_Base o)) <$> services_of_broker id) /\
    plan_visible (base_ID (sp_Base p))) <-> broker_visible id).
  { unfold broker_visible, service_visible. setoid_rewrite plan_of_services. setoid_rewrite list_elem_of_fmap.
    setoid_rewrite service_of_broker. split.
    - intros (p & [Hp (o & Ho1 & Ho2 & Ho3)] & Hv). exists o. eauto 8.
    - intros (o & Ho & Hbr & p & Hp & Hop & Hv). exists p. eauto 8. }
  revert Hbv. destruct (services_of_broker id) as [|o os] eqn:Es; intros Hbv.
  - exists false, (called (called w)). cbn [fmap list_fmap]. rewrite no_services_fail. split.
    + rewrite <- Hbv. split; [done|]. intros (p & [_ Hp]%plan_of_services & _). by apply elem_of_nil in Hp.
    + destruct (plans_of_services []) as [|p ps] eqn:Ep; [done|]. exfalso.
      assert (Hp : p ∈ plans_of_services []) by (rewrite Ep; by left). apply plan_of_services in Hp as [_ Hp].
      by apply elem_of_nil in Hp.
  - rewrite list_ok.
    2:{ apply validated_alone, Validate_field; try done. apply Forall_fmap, Forall_forall. intros q Hq. rewrite <- Es in Hq.
        apply service_of_broker in Hq as [Hq _]. by destruct (proj1 (Forall_forall _ _) offering_lines q Hq). }
    destruct (plans_seen (plans_of_services ((fun o => base_ID (so_Base o)) <$> o :: os)) (broker_visible id) (called (called w)))
      as (b & Hb & E); [done|by intros p [? _]%plan_of_services|done|]. exists b. eexists. split; [exact Hb|exact E].
Qed.

(** C16: a Kubernetes platform that lists plans, services or brokers is shown exactly the
    resources that it can get one by one.  The criterion that the list is restricted by admits
    an id if and only if the check of the single resource with this id does; only a service
    without any plan, or a broker without any, is not found out to be invisible: its check ends
    with an internal error, since it queries with an empty list of ids. *)
Theorem listings_match_lookups id : one_line id ->
  (exists c w1 w2, plansCriteriaFunc platformID w = (w1, Ok c) /\ isPlanVisibile id platformID w = (w2, Ok (listed c id))) /\
  (exists c w1 w2, servicesCriteriaFunc platformID w = (w1, Ok c) /\
     isServiceVisible id platformID w =
       (w2, match plans_of_service id with [] => Err missing_operand | _ => Ok (listed c id) end)) /\
  (exists c w1 w2, brokersCriteriaFunc platformID w = (w1, Ok c) /\
     isBrokerVisible id platformID w =
       (w2, match plans_of_services ((fun o => base_ID (so_Base o)) <$> services_of_broker id) with
            | [] => Err missing_operand | _ => Ok (listed c id) end)).
Proof.
  intros Hid. destruct (plansCriteria_lists w eq_refl) as (cp & Ep & Hp).
  assert (Hsv : exists c w1, servicesCriteriaFunc platformID w = (w1, Ok c) /\ fst_tables w1.2 = t /\ lists c service_visible).
  { unfold servicesCriteriaFunc, c_bind. rewrite Ep. destruct cp as [cp|].
    - destruct (servicesCriteria_lists cp (called w) eq_refl Hp) as (c & E & Hc). exists c, (called (called w)). done.
    - exists None, (called w). split; [done|]. split; [done|]. split; [done|]. intros x. split; [done|].
      intros (p & _ & _ & Hv%Hp). done. }
  split_and!.
  - exists cp, (called w). unfold isPlanVisibile.
    destruct (visibilities_of_spec (ByField EqualsOperator "service_plan_id" [id]) w) as (b & -> & Hb); try done.
    + apply Validate_field; try done. by constructor.
    + eexists. split; [exact Ep|]. f_equal. f_equal. eapply bool_same; [exact Hb|]. rewrite (proj2 Hp). split.
      * intros Hv. exists id. split; [by apply String.eqb_eq|done].
      * intros (x & ->%String.eqb_eq & Hv). done.
  - destruct Hsv as (c & w1 & E & _ & Hc). destruct (service_lookup id Hid) as (b & w2 & Hb & E2). exists c, w1, w2.
    split; [done|]. rewrite E2. by rewrite (bool_same b (listed c id) _ Hb (proj2 Hc id)).
  - destruct Hsv as (cs & ws & Es & Hts & Hcs). destruct (broker_lookup id Hid) as (b & w2 & Hb & E2).
    assert (exists c w1, brokersCriteriaFunc platformID w = (w1, Ok c) /\ lists c broker_visible) as (c & w1 & E & Hc).
    { unfold servicesCriteriaFunc, c_bind in Es. unfold brokersCriteriaFunc, c_bind. rewrite Ep in Es |- *. destruct cp as [cp|].
      - rewrite Es. destruct cs as [cs|].
        + destruct (brokersCriteria_lists cs ws Hts Hcs) as (c & E & Hc). by exists c, (called ws).
        + exists None, ws. split; [done|]. split; [done|]. intros x. split; [done|]. intros (o & _ & _ & Hv%Hcs). done.
      - exists None, (called w). split; [done|]. split; [done|]. intros x. split; [done|].
        intros (o & _ & _ & p & _ & _ & Hv%Hp). done. }
    exists c, w1, w2. split; [done|]. rewrite E2. by rewrite (bool_same b (listed c id) _ Hb (proj2 Hc id)).
Qed.
End Listing.

(** ** Queries of the user in the statements of the storage *)
Section Queries.
Context `{Query.Listener.SortSlice} (antlr : string -> Query.Listener.parse_outcome).
Lemma selection_criteria w w' : SelectionCriteria_Run (Query.Listener.Parse antlr) w = (w', Ok None) ->
  forall t cs, t ∈ CriteriaTypes -> Query.Listener.Parse antlr t (url_Get w.1 (type_String t)) = Ok cs ->
  forall c, c ∈ cs -> c ∈ fr_Criteria w'.1.
Proof.
  intros (w1 & r & [= <- <-] & E)%c_bind_ok t cs Ht Hp c Hc. apply c_bind_ok in E as (w1 & all & E1 & E).
  assert (c ∈ all /\ w1 = w) as [Hall ->].
  { cut (w1 = w /\ forall t cs, t ∈ CriteriaTypes -> Query.Listener.Parse antlr t (url_Get w.1 (type_String t)) = Ok cs ->
      forall c, c ∈ cs -> c ∈ all); [intros [-> Hf]; split; [by eapply Hf|done]|].
    refine (c_fold_ok _ (fun pre acc v => v = w /\ forall t cs, t ∈ pre ->
      Query.Listener.Parse antlr t (url_Get w.1 (type_String t)) = Ok cs -> forall c, c ∈ cs -> c ∈ acc) _ _ _ _ _ _ _ E1).
    - split; [done|]. by intros ? ? ?%elem_of_nil.
    - intros pre x post acc v acc1 v1 _ [-> Hacc] Ef. apply c_bind_ok in Ef as (v2 & q & [= <- Hq] & [= <- <-]).
      split; [done|]. intros t' cs' [Hin| ->%list_elem_of_singleton]%elem_of_app Hp' c' Hc'; apply elem_of_app.
      + left. by eapply Hacc.
      + right. rewrite Hp' in Hq. by injection Hq as <-. }
  apply c_bind_ok in E as (w2 & [] & E2 & [= <-]). unfold add_criteria in E2. destruct (validateCriteria _); [|done..]. injection E2 as <-.
  simpl. apply elem_of_app. by right.
Qed.

(** C17: text of a request becomes text of a statement.  The criteria that a user gives in the
    parameter [subQuery] of any GET or DELETE request reach the handler and the storage, and
    the where clause made of such a criterion has its value in it as it is, as a subquery,
    where the values of [fieldQuery] and [labelQuery] are parameters of the statement.  An
    operator with a list of values makes the storage panic. *)
Theorem user_text_in_statement w w' cs c tags table :
  SelectionCriteria_Run (Query.Listener.Parse antlr) w = (w', Ok None) ->
  Query.Listener.Parse antlr Subquery (url_Get w.1 "subQuery") = Ok cs -> c ∈ cs ->
  findTagType tags (hd "" (Strings.split_byte (LeftOp c) "/"%char)) <> Some jsonType ->
  c ∈ fr_Criteria w'.1 /\
  match op_Type (COperator c) with
  | UnivariateOperator => exists text, RightOp c = [text] /\
      criterionSQL c tags table =
        Ok (LeftOp c ++ " " ++ translateOperationToSQLEquivalent (COperator c) ++ " (" ++ text ++ ")", PText text)
  | MultivariateOperator => exists m, criterionSQL c tags table = Panic m
  end.
Proof.
  intros E Hp Hc Htag. split; [eapply (selection_criteria w w' E Subquery); [|exact Hp|exact Hc]; by right; right; right; left|].
  apply Parse_sorted in Hp as (_ & Hty & Hval & _). rewrite Forall_forall in Hty, Hval.
  specialize (Hty c Hc). specialize (Hval c Hc) as [_ Hval]. rewrite Hty in Hval. simpl in Hval. destruct Hval as (Hu & Hn & _).
  unfold criterionSQL, buildRightOp. destruct (op_Type (COperator c)) eqn:Eo.
  - specialize (Hu eq_refl). destruct (RightOp c) as [|text [|]]; [done| |done]. exists text. split; [done|].
    cbn [as_string]. rewrite Hty, bool_decide_false by done. simpl.
    destruct (op_IsNullable (COperator c)); [|done]. by specialize (Hn eq_refl); rewrite Hty in Hn.
  - rewrite Hty, bool_decide_false by done. simpl. by eexists.
Qed.
End Queries.

(** ** Stripping a body *)
(** What gjson and sjson do with a key that an object may have several times: a deletion takes
    one of them away and adds none of any other. *)
Class StripLaws `{JSONText} `{BodyJson} := {
  occurrences : string -> string -> nat;
  exists_occurs b p : g_exists b p = true <-> 0 < occurrences b p;
  delete_occurs b p b' : sjson_delete b p = Ok b' -> 0 < occurrences b p -> occurrences b' p < occurrences b p;
  delete_keeps_others b p b' q : sjson_delete b p = Ok b' -> occurrences b' q <= occurrences b q;
  occurrences_bounded b p : occurrences b p <= String.length b
}.
Section Strip.
Context `{JSONText} `{BodyJson} `{!StripLaws}.
Lemma remove_property_returns fuel b p : occurrences b p <= fuel ->
  exists r, remove_property fuel b p = Some r /\
    forall b', r = Ok b' -> g_exists b' p = false /\ forall q, occurrences b' q <= occurrences b q.
Proof.
  revert b. induction fuel as [|fuel IH]; intros b Hf; simpl; destruct (g_exists b p) eqn:E.
  - apply exists_occurs in E. lia.
  - exists (Ok b). split; [done|]. by intros b' [= <-].
  - destruct (sjson_delete b p) as [b1| |] eqn:Ed; [|by eexists; split..].
    pose proof (delete_occurs _ _ _ Ed (proj1 (exists_occurs b p) E)) as Hlt.
    destruct (IH b1) as (r & Hr & Hb); [lia|]. exists r. split; [done|]. intros b' Hok. destruct (Hb b' Hok) as [Hx Hq].
    split; [done|]. intros q. etrans; [apply Hq|by eapply delete_keeps_others].
  - exists (Ok b). split; [done|]. by intros b' [= <-].
Qed.
Lemma remove_properties_return fuel b props : (forall p, occurrences b p <= fuel) ->
  exists r, removePropertiesFromRequest fuel b props = Some r /\
    forall b', r = Ok b' -> (forall p, p ∈ props -> g_exists b' p = false) /\ forall q, occurrences b' q <= occurrences b q.
Proof.
  revert b. induction props as [|p props IH]; intros b Hf; simpl.
  - exists (Ok b). split; [done|]. intros b' [= <-]. split; [by intros p ?%elem_of_nil|done].
  - destruct (remove_property_returns fuel b p (Hf p)) as (r & -> & Hr).
    destruct r as [b1|e|m]; [|by eexists; split..]. destruct (Hr b1 eq_refl) as [Hx Hq].
    destruct (IH b1) as (r & Hr2 & Hb); [intros q; etrans; [apply Hq|apply Hf]|]. exists r. split; [done|].
    intros b' Hok. destruct (Hb b' Hok) as [Hall Hle]. split; [|intros q; by etrans; [apply Hle|]].
    intros q [->|Hin]%elem_of_cons; [|by apply Hall].
    destruct (g_exists b' p) eqn:E; [|done]. apply exists_occurs in E. specialize (Hle p).
    destruct (occurrences b1 p) as [|n] eqn:En; [lia|]. assert (g_exists b1 p = true) by (apply exists_occurs; lia). congruence.
Qed.
(** Stripping a body ends, for a body that has a property any number of times, and a body that
    is handed on has no id and none of the properties the filter is for. *)
Theorem strip_terminates props w :
  (exists r, removePropertiesFromRequest (String.length (fr_Body w.1)) (fr_Body w.1) props = Some r) /\
  forall w', strip_Run props w = (w', Ok None) ->
    g_exists (fr_Body w.1) "id" = false /\ forall p, p ∈ props -> g_exists (fr_Body w'.1) p = false.
Proof.
  destruct (remove_properties_return (String.length (fr_Body w.1)) (fr_Body w.1) props) as (o & E & Ho);
    [intros p; apply occurrences_bounded|].
  split; [by exists o|]. intros w'. unfold strip_Run, c_bind. simpl. destruct (g_exists (fr_Body w.1) "id"); [done|]. rewrite E.
  destruct o as [b|e|m]; [|done..]. intros [= <-]. split; [done|]. by apply Ho.
Qed.
End Strip.

(** ** Guards *)
Section Guards.
Context `{FilterEnv} `{JSONText} `{JSONQueries} `{BodyJson}.
Lemma try_ok {A} wrap (m : fm A) w w' a : f_try wrap m w = (w', Ok a) -> m w = (w', Ok a).
Proof. unfold f_try. by destruct (m w) as [w1 [b| |]]; intros [= <- <-]. Qed.
Lemma storage_returns {A} (f : filter_tables -> result A) w w' a :
  f_storage f w = (w', Ok a) -> w'.1 = w.1 /\ fst_tables w'.2 = fst_tables w.2 /\ f (fst_tables w.2) = Ok a.
Proof. unfold f_storage. destruct (ff_fault _); [done|]. by intros [= <- <-]. Qed.
Lemma found {A} `{Row A} (t : filter_tables -> list A) cs w w' x : rep_Get t cs w = (w', Ok x) ->
  x ∈ t (fst_tables w.2) /\ row_matches cs x = true /\ fst_tables w'.2 = fst_tables w.2.
Proof.
  intros (_ & Ht & E)%storage_returns. unfold selected in E. destruct (for_each _ _) as [[]| |]; [|done..]. simpl in E.
  destruct (List.filter _ _) as [|y l] eqn:Ef; [done|]. injection E as ->.
  assert (Hx : x ∈ List.filter (row_matches cs) (t (fst_tables w.2))) by (rewrite Ef; by left). apply in_filter in Hx as [? ?]. done.
Qed.
Lemma by_id_found {A} `{Row A} (x : A) id v : row_field x "id" = Some v -> row_matches (by_id id) x = true -> v = id.
Proof. intros Hx. unfold by_id. rewrite id_matches by done. cbn [LeftOp ByField NewCriterion]. rewrite Hx. apply String.eqb_eq. Qed.
Lemma listed_rows {A} `{Row A} (t : filter_tables -> list A) cs w w' l : rep_List t cs w = (w', Ok l) ->
  l = List.filter (row_matches cs) (t (fst_tables w.2)) /\ fst_tables w'.2 = fst_tables w.2.
Proof.
  intros (_ & Ht & E)%storage_returns. unfold selected in E. destruct (for_each _ _) as [[]| |]; [|done..]. by injection E as <-.
Qed.

(** A transfer of an instance to another platform is handed on only when transfers are enabled,
    the plan supports the platform and the service allows changes of the context. *)
Theorem transfer_guarded enable w w' : serviceInstanceTransferFilter_Run enable w = (w', Ok None) ->
  gjson_string (fr_Body w.1) "platform_id" <> "" -> resource_id w.1 <> "" ->
  enable = true /\
  exists plan platform service, plan ∈ ft_plans (fst_tables w.2) /\ platform ∈ ft_platforms (fst_tables w.2) /\
    service ∈ ft_offerings (fst_tables w.2) /\ base_ID (pl_Base platform) = gjson_string (fr_Body w.1) "platform_id" /\
    base_ID (so_Base service) = sp_ServiceOfferingID plan /\
    SupportsPlatformInstance ff_sm_platform_types plan (pl_Name platform) (pl_Type platform) = true /\
    so_AllowContextUpdates service = true.
Proof.
  intros (w1 & r & [= <- <-] & E)%c_bind_ok Hp Hi. cbv zeta in E.
  destruct (String.eqb_spec (gjson_string (fr_Body w.1) "platform_id") ""); [done|].
  destruct enable; [|done]. cbn [negb] in E. destruct (String.eqb_spec (resource_id w.1) ""); [done|].
  apply c_bind_ok in E as (w1 & planID & E1 & E). apply c_bind_ok in E as (w2 & plan & E2%try_ok%found & E).
  apply c_bind_ok in E as (w3 & platform & E3%try_ok%found & E).
  destruct (SupportsPlatformInstance _ _ _ _) eqn:Es; [|done]. cbn [negb] in E.
  apply c_bind_ok in E as (w4 & service & E4%try_ok%found & E). destruct (so_AllowContextUpdates service) eqn:Ea; [|done].
  assert (Ht1 : fst_tables w1.2 = fst_tables w.2).
  { branch E1; [|by injection E1 as <- _]. apply c_bind_ok in E1 as (w5 & i & E5%try_ok%found & [= <- _]). by destruct E5 as (_ & _ & ->). }
  destruct E2 as (P1 & _ & Ht2), E3 as (P2 & Q2 & Ht3), E4 as (P3 & Q3 & _). rewrite Ht2, Ht1 in *. rewrite Ht3 in P3.
  split; [done|]. exists plan, platform, service. split_and!; try done.
  - by eapply by_id_found in Q2.
  - by eapply by_id_found in Q3.
Qed.

(** A platform with everything on it is deleted only when it is not active and no instance of
    another platform refers to one of its shared instances. *)
Theorem platform_deletion_guarded order w w' : platformTerminationFilter_Run order w = (w', Ok None) ->
  fr_Method w.1 = "DELETE" -> resource_id w.1 <> "" -> url_Get w.1 "cascade" = "true" ->
  exists platform, platform ∈ ft_platforms (fst_tables w.2) /\ base_ID (pl_Base platform) = resource_id w.1 /\
    pl_Active platform = false /\
    forall i j, i ∈ ft_instances (fst_tables w.2) -> j ∈ ft_instances (fst_tables w.2) ->
      si_PlatformID i = resource_id w.1 -> IsShared i = true -> base_ID (si_Base i) <> "" ->
      si_ReferencedInstanceID j = base_ID (si_Base i) -> si_PlatformID j = resource_id w.1.
Proof.
  intros (w1 & r & [= <- <-] & E)%c_bind_ok Hm Hi Hc. cbv zeta in E. rewrite Hm, Hc in E. simpl in E.
  destruct (String.eqb_spec (resource_id w.1) ""); [done|]. cbn [negb andb] in E.
  apply c_bind_ok in E as (w1 & platform & E1%try_ok%found & E). destruct E1 as (P1 & Q1 & Ht1).
  assert (Hid1 : base_ID (pl_Base platform) = resource_id w.1) by (apply (by_id_found (A := Platform) platform); [reflexivity|exact Q1]).
  clear Q1. rename Hid1 into Q1.
  destruct (pl_Active platform) eqn:Ea; [done|]. apply c_bind_ok in E as (w2 & refs & E2 & E). destruct refs as [|x refs]; [|done].
  exists platform. split_and!; try done. intros i j Hin Hjn Hpi Hs Hid Href.
  apply c_bind_ok in E2 as (w3 & ids & E3 & E2). apply c_bind_ok in E3 as (w4 & l & E4%try_ok%listed_rows & [= <- <-]).
  destruct E4 as [-> Ht4]. rewrite Ht1 in *.
  assert (Hsh : base_ID (si_Base i) ∈ (fun i => base_ID (si_Base i)) <$> List.filter (row_matches
    [ByField EqualsOperator "platform_id" [base_ID (pl_Base platform)]; ByField EqualsOperator "shared" ["true"]])
    (ft_instances (fst_tables w.2))).
  { apply (list_elem_of_fmap_2 (fun i => base_ID (si_Base i))), in_filter. split; [done|]. unfold row_matches. cbn [forallb]. rewrite andb_true_r.
    apply andb_true_iff. split.
    - change (String.eqb (si_PlatformID i) (base_ID (pl_Base platform)) = true). rewrite Hpi, Q1. apply String.eqb_refl.
    - change (column_matches (ByField EqualsOperator "shared" ["true"]) (bool_text <$> si_Shared i) = true).
      unfold IsShared in Hs. by destruct (si_Shared i) as [[]|]. }
  destruct (_ <$> List.filter _ _) as [|y ys] eqn:Ey; [by apply elem_of_nil in Hsh|].
  apply try_ok, listed_rows in E2 as [E2 _]. rewrite Ht4 in E2. symmetry in E2.
  destruct (String.eqb_spec (si_PlatformID j) (base_ID (pl_Base platform))) as [Heq|Hne]; [by rewrite Heq, Q1|]. exfalso.
  assert (Hj : j ∈ List.filter (row_matches [ByField InOperator "referenced_instance_id" (y :: ys);
    ByField NotEqualsOperator "platform_id" [base_ID (pl_Base platform)]]) (ft_instances (fst_tables w.2))).
  { apply in_filter. split; [done|]. unfold row_matches. cbn [forallb]. rewrite andb_true_r. apply andb_true_iff. split.
    - change (column_matches (ByField InOperator "referenced_instance_id" (y :: ys)) (nullable (si_ReferencedInstanceID j)) = true).
      unfold nullable. rewrite Href. destruct (String.eqb_spec (base_ID (si_Base i)) ""); [done|]. by apply in_ids_match.
    - change (negb (String.eqb (si_PlatformID j) (base_ID (pl_Base platform))) = true).
      by destruct (String.eqb_spec (si_PlatformID j) (base_ID (pl_Base platform))). }
  rewrite E2 in Hj. by apply elem_of_nil in Hj.
Qed.
End Guards.

(** ** A small API *)
Definition labelled_body : string :=
  "{" ++ Strings.dquote ++ "labels" ++ Strings.dquote ++ ":{" ++ Strings.dquote ++ "tenant" ++ Strings.dquote ++ ":[" ++
  Strings.dquote ++ "t1" ++ Strings.dquote ++ "]}}".
#[local] Instance api_env : FilterEnv := {| ff_fault _ := None; ff_server_certificate := ""; ff_sm_platform_types := [SMPlatform] |}.
#[local] Instance api_text : JSONText :=
  {| json_marshal _ := Err EOF; json_marshal_array _ := Err EOF; json_unmarshal _ := Err EOF; sjson_set _ _ _ := Err EOF;
     sjson_delete _ _ := Err EOF; gjson_string _ _ := "" |}.
#[local] Instance api_queries : JSONQueries :=
  {| gjson_raw _ _ := ""; gjson_array _ _ := None; json_is_object _ := true; json_is_array _ := true |}.
#[local] Instance api_json : BodyJson :=
  {| g_exists b p := String.eqb b labelled_body && String.eqb p "labels.tenant"; g_bool _ _ := false; g_str _ _ := "";
     g_keys _ := [];
     s_set_strings b p vs := if String.eqb b "{}" && bool_decide (vs = ["t1"]) then Ok labelled_body else Err EOF;
     json_labels b := if String.eqb b "{}" then Some ∅
                      else if String.eqb b labelled_body then Some {["tenant" := ["t1"]]} else None;
     json_label_changes _ := Ok []; json_instance _ := Err EOF; json_map_size _ := Ok 0 |}.
#[local] Instance api_bodies : Bodies := {| ParseMediaType s := Ok s; json_parse _ := None |}.
#[local] Instance api_body_laws : BodyLaws.
Proof. by split. Qed.
#[local] Instance api_label_laws : LabelLaws "tenant".
Proof.
  split.
  - intros b l _ Hl Hk. simpl in *. destruct (String.eqb_spec b labelled_body) as [->|]; [|done]. vm_compute in Hl.
    injection Hl as <-. vm_compute in Hk. done.
  - intros b l v b' _ Hl _ Hs. simpl in *. destruct (String.eqb_spec b "{}") as [->|]; [|done].
    case_bool_decide as Hv; [|done]. injection Hv as ->. injection Hs as <-. injection Hl as <-. reflexivity.
Qed.

(** A glob that knows the patterns of all paths below one. *)
Definition below_glob (p : string) : option (string -> bool) := Some (fun path => String.eqb (path ++ "**") p).
Definition user_name (r : filter_request) : result string :=
  match fr_User r with Some u => Ok (uc_Name u) | None => Ok "" end.
Definition api_config : api_settings :=
  {| ProtectedLabels := ["tenant"]; DisabledQueryParameters := []; EnableInstanceTransfer := false |}.
Definition api_list : list ApiChain.filter :=
  as_filter <$> multitenant_filters below_glob (fun _ _ => Ok []) go_on id [] [] go_on go_on api_config "tenant" user_name.
Definition create_route : Route filter_request filter_response filter_state :=
  {| Endpoint_ := {| Method := "POST"; Path_ := PlatformsURL |};
     Handler_ r s := (s, Ok {| fs_StatusCode := 201; fs_Body := OtherBody (fr_Body r) |}) |}.
Definition create_handler : Handler filter_request filter_response filter_state :=
  match ChainMatching api_list create_route with Ok h => h | _ => Handler_ create_route end.

Lemma tenant_isolation_witness :
  exists before tail, create_handler = Chain before (Chain tail (Handler_ create_route)) /\
    forall r s user tenant, fr_Method r = "POST" -> fr_User r = Some user ->
      uc_AccessLevel user <> GlobalAccess -> user_name r = Ok tenant -> tenant <> "" ->
      (exists out, forall h, Chain tail h r s = out) \/
      (exists r' s', (forall h, Chain tail h r s = h r' s') /\ confined "tenant" tenant r r').
Proof.
  apply (tenant_isolation below_glob (fun _ _ => Ok []) go_on id [] [] go_on go_on "tenant" user_name api_config) with (api := api_list) (p := PlatformsURL).
  - by intros l.
  - apply stable_ret.
  - by intros r r' Hu; unfold user_name; rewrite Hu.
  - by left.
  - done.
  - by left.
  - reflexivity.
  - by do 3 right; left.
  - by apply multitenant_order.
  - reflexivity.
Defined.

Definition toy_filter_world : fworld :=
  ({| fr_Method := "GET"; fr_Path := ServicePlansURL; fr_Header := ∅; fr_PathParams := ∅;
      fr_Query := {["subQuery" := "id eq 'select 1'"]}; fr_Body := ""; fr_User := None; fr_Criteria := []; fr_SMAAPOperated := false;
      fr_GenerateCredentials := false |},
   {| fst_tables := {| ft_platforms := [toy_platform "k" "kubernetes"]; ft_offerings := [toy_offering "o1" "s1" "broker"];
        ft_plans := [plan_for "all" ""; plan_for "some" "k8s"]; ft_visibilities := [toy_visibility "v1" "k" "some"];
        ft_instances := []; ft_bindings := [] |}; fst_calls := 0 |}).
Lemma listings_match_lookups_witness :
  exists c w1 w2, plansCriteriaFunc "k" toy_filter_world = (w1, Ok c) /\ isPlanVisibile "some" "k" toy_filter_world = (w2, Ok true) /\
    listed c "some" = true.
Proof.
  destruct (@listings_match_lookups api_env (fun _ => eq_refl) "k" toy_filter_world eq_refl) with (id := "some")
    as [(c & w1 & w2 & E1 & E2) _]; [repeat constructor..|].
  exists c, w1, w2. pose proof E2 as E3. vm_compute in E3. injection E3 as _ Hl.
  change (true = listed c "some") in Hl. rewrite <- Hl in E2 |- *. split; [exact E1|]. split; [exact E2|reflexivity].
Defined.

#[local] Existing Instance Query.Listener.sorted_by_merging.
Definition subquery_parser (_ : string) : Query.Listener.parse_outcome :=
  {| Query.Listener.syntax_errors := []; Query.Listener.expression := [Query.Listener.Univariate "id" "eq" "'select 1'"] |}.
Lemma user_text_in_statement_witness :
  exists w' c, SelectionCriteria_Run (Query.Listener.Parse subquery_parser) toy_filter_world = (w', Ok None) /\
    c ∈ fr_Criteria w'.1 /\ criterionSQL c [] "service_plans" = Ok ("id = (select 1)", PText "select 1").
Proof.
  destruct (SelectionCriteria_Run (Query.Listener.Parse subquery_parser) toy_filter_world) as [w' r] eqn:E.
  assert (r = Ok None) as -> by (vm_compute in E; by injection E).
  exists w', (NewCriterion "id" EqualsOperator ["select 1"] Subquery). split; [reflexivity|].
  destruct (user_text_in_statement subquery_parser toy_filter_world w' [NewCriterion "id" EqualsOperator ["select 1"] Subquery]
    (NewCriterion "id" EqualsOperator ["select 1"] Subquery) [] "service_plans" E) as [Hc (text & [= <-] & Hs)];
    [reflexivity|by left|discriminate|]. split; [exact Hc|exact Hs].
Defined.
