(* ===== verification/StorageRows.v ===== *)
(** * The tables behind the storage (storage/postgres)

    The statements the storage sends for one type of objects: columns from struct tags
    (abstract.go), labels and rows (interfaces.go), and the calls of [Storage] (storage.go) on the
    statements of the query builder.  The type has been introduced to the scheme.  The database,
    sqlx, the library structs and the generator of ids are the interface [Postgres]. *)

From S2P Require Import Prelude GoStd GoSlice Errors Labels OperationTypes DomainTypes WorldMonad WebFilters Query WhereClause QueryBuilder StorageEntities.
From stdpp Require Import base gmap strings list.
From Stdlib Require Import ZArith.
Local Open Scope string_scope.

(** ** Columns of a struct (abstract.go) *)
(** The fields of a struct as the library structs shows them; [nilPtr]: a nil pointer. *)
Inductive Field :=
  | Embedded (nilPtr : bool) (fields : list Field)
  | Plain (nilPtr : bool) (name tag : string) (type : colType).
Fixpoint field_tags (predicate : string -> bool) (field : Field) : list tagType :=
  match field with
  | Embedded true _ | Plain true _ _ _ => []
  | Embedded false fields => flat_map (field_tags predicate) fields
  | Plain false name dbTag type =>
      if String.eqb dbTag "-" || predicate dbTag then []
      else [{| Tag := if String.eqb dbTag "" then Strconv.to_lower name else dbTag; TType := type |}]
  end.
Definition getTags (fields : list Field) (predicate : string -> bool) : list tagType := flat_map (field_tags predicate) fields.
Definition noPredicate (_ : string) : bool := false.
Definition isAutoIncrementable (tagValue : string) : bool := Strings.contains tagValue "auto_increment".
Definition getDBTags (structure : option (list Field)) (predicate : option (string -> bool)) : list tagType :=
  match structure with None => [] | Some fields => getTags fields (default noPredicate predicate) end.
Definition updateQuery (tableName : string) (structure : list Field) : string :=
  let set := map (fun t => Tag t ++ " = :" ++ Tag t) (getDBTags (Some structure) (Some isAutoIncrementable)) in
  match set with
  | [] => ""
  | _ => "UPDATE " ++ tableName ++ " SET " ++ Strings.join ", " set ++ " WHERE id = :id"
  end.
Definition insertQuery (table : string) (dbTags : list string) (suffix : string) : string :=
  "INSERT INTO " ++ table ++ " (" ++ Strings.join ", " dbTags ++ ") VALUES(:" ++ Strings.join ", :" dbTags ++ ") " ++ suffix.

(** ** Labels (base_entity.go, the generated label structs) *)
Record PostgresLabel := {
  l_ID : NullString; l_Key : NullString; l_Val : NullString; l_CreatedAt : Z; l_UpdatedAt : Z; l_Reference : NullString
}.
Definition NewLabel (now : Z) (id entityID key value : string) : PostgresLabel :=
  {| l_ID := toNullString id; l_Key := toNullString key; l_Val := toNullString value; l_CreatedAt := now; l_UpdatedAt := now;
     l_Reference := toNullString entityID |}.
Definition GetKey (l : PostgresLabel) : string := ns_String (l_Key l).
Definition GetValue (l : PostgresLabel) : string := ns_String (l_Val l).
Definition base_label_fields : list Field :=
  [Plain false "ID" "id" nullableStringType; Plain false "Key" "key" nullableStringType; Plain false "Val" "val" nullableStringType;
   Plain false "CreatedAt" "created_at" (OtherType "pq.NullTime"); Plain false "UpdatedAt" "updated_at" (OtherType "pq.NullTime")].
Definition label_fields (l : labelEntity) : list Field :=
  [Embedded false base_label_fields; Plain false "" (ReferenceColumn l) nullableStringType].

(** ** interfaces.go *)
Definition validate_step (pairs : gmap string (list string)) (bl : PostgresLabel) : result (gmap string (list string)) :=
  let newKey := GetKey bl in let newValue := GetValue bl in
  let val := default [] (pairs !! newKey) in
  if bool_decide (is_Some (pairs !! newKey)) && Slice.StringsAnyEquals val newValue
  then Err (EPlain ("duplicate label with key " ++ newKey ++ " and value " ++ newValue))
  else Ok (<[newKey := (val ++ [newValue])%list]> pairs).
Definition validateLabels (entities : list PostgresLabel) : result unit :=
  fold_result validate_step ∅ entities ;;; Ok tt.

(** What the driver delivers: the scanned rows, each an entity with the key and the value of a
    label, and the error that ended the iteration, which [rows.Err] would report. *)
Record Rows (E : Type) := { scanned : list (result (E * (string * string))); rows_Err : option error }.
Arguments scanned {E}. Arguments rows_Err {E}.

Definition set_labels `{PostgresEntity A} (labels : gmap string (list string)) (o : A) : A :=
  let b := object_base o in
  with_base {| base_ID := base_ID b; base_CreatedAt := base_CreatedAt b; base_UpdatedAt := base_UpdatedAt b; base_Labels := labels;
               base_PagingSequence := base_PagingSequence b; base_Ready := base_Ready b;
               base_LastOperation := base_LastOperation b |} o.
Definition GetID `{PostgresEntity A} (o : A) : string := base_ID (object_base o).

Section RowsToList.
Context `{PostgresEntity A}.
Variable row_id : entity -> string.
Record row_state := { rs_entities : gmap string A; rs_labels : gmap string (gmap string (list string)); rs_result : list A }.
Definition row_step (st : row_state) (row : result (entity * (string * string))) : result row_state :=
  let* (e, (key, val)) := row in
  let* (ent, st) :=
    match rs_entities st !! row_id e with
    | Some ent => Ok (ent, st)
    | None =>
        match ToObject e with
        | Ok ent => Ok (ent, {| rs_entities := <[row_id e := ent]> (rs_entities st); rs_labels := rs_labels st;
                                rs_result := (rs_result st ++ [ent])%list |})
        | Err err => Err (EPlain ("error converting pg rows to list: " ++ Error err))
        | Panic m => Panic m
        end
    end in
  if String.eqb key "" then Ok st
  else
    let ls := default ∅ (rs_labels st !! GetID ent) in
    Ok {| rs_entities := rs_entities st;
          rs_labels := <[GetID ent := <[key := (default [] (ls !! key) ++ [val])%list]> ls]> (rs_labels st);
          rs_result := rs_result st |}.
Definition rowsToList (rows : Rows entity) : result (list A) :=
  let* st := fold_result row_step {| rs_entities := ∅; rs_labels := ∅; rs_result := [] |} (scanned rows) in
  Ok (map (fun b => set_labels (default ∅ (rs_labels st !! GetID b)) b) (rs_result st)).
End RowsToList.

(** ** The database *)
(** What the code asks of a [pq.Error]: class and name of its code, and the table. *)
Record PqError := { code_class : string; code_name : string; pq_table : string }.
Class Postgres (A : Type) `{PostgresEntity A} := {
  World : Type;
  struct_fields : entity -> list Field;
  entity_ID : entity -> string;
  PrepareNamedContext : string -> world_m World unit;
  GetContext : string -> entity -> world_m World entity;                    (** INSERT with RETURNING *)
  NamedExecContext : string -> entity -> world_m World (result Z);          (** [RowsAffected] of the result *)
  NamedExecLabels : string -> list PostgresLabel -> world_m World unit;
  ExecContext : string -> list param -> world_m World (result Z);
  QueryxContext : string -> list param -> world_m World (Rows entity);
  GetCount : string -> list param -> world_m World Z;
  sqlx_In : string -> list param -> result (string * list param);
  Rebind : string -> string;
  NewV4 : world_m World string;
  Now : World -> Z;
  pq_error : error -> option PqError
}.

(** ** The calls of the storage (storage.go) *)
(** The storage as the calls see it: is it bound to a transaction, the type it is asked for, and
    the names of the types by their tables. *)
Record Storage := { inTx : bool; objectType : string; kind : QueryBuilder.entity; entityToObjectTypeConverter : gmap string string }.

Section Calls.
Context `{Postgres A}.
Definition c_wrap {X} (f : error -> error) (m : world_m World X) : world_m World X := fun w =>
  let '(w', r) := m w in (w', match r with Ok x => Ok x | Err e => Err (f e) | Panic msg => Panic msg end).

(** abstract.go *)
Definition checkUniqueViolation (err : error) : error :=
  match pq_error err with
  | Some sqlErr => if String.eqb (code_name sqlErr) "unique_violation" then EAlreadyExistsInStorage else err
  | None => err
  end.
Definition checkIntegrityViolation (err : error) : error :=
  match pq_error err with
  | Some sqlErr =>
      if String.eqb (code_class sqlErr) "42" || String.eqb (code_class sqlErr) "44" || String.eqb (code_class sqlErr) "23"
      then EBadRequestStorage err else err
  | None => err
  end.
Definition checkRowsAffected (result : result Z) : world_m World unit :=
  cat! rowsAffected <- c_lift result;
  if (rowsAffected <? 1)%Z then c_fail ENotFoundInStorage else c_ret tt.
Definition create (table : string) (argsDto : entity) : world_m World entity :=
  match map Tag (getDBTags (Some (struct_fields argsDto)) (Some isAutoIncrementable)) with
  | [] => c_fail (EPlain (table ++ " insert: No fields to insert"))
  | dbTags =>
      let sqlQuery := insertQuery table dbTags "RETURNING *;" in
      PrepareNamedContext sqlQuery >;
      c_wrap (fun e => checkIntegrityViolation (checkUniqueViolation e)) (GetContext sqlQuery argsDto)
  end.
Definition update (table : string) (dto : entity) : world_m World unit :=
  let updateQueryString := updateQuery table (struct_fields dto) in
  if String.eqb updateQueryString "" then c_ret tt
  else
    cat! result <- c_wrap (fun e => checkIntegrityViolation (checkUniqueViolation e)) (NamedExecContext updateQueryString dto);
    checkRowsAffected result.

(** scheme.go, for a type that has been introduced *)
Definition convert (s : Storage) (object : A) : result entity :=
  match FromObject object with
  | Err e => Err (EPlain ("regsitered entity cannot convert object from type " ++ objectType s ++ ": " ++ Error e))
  | r => r
  end.
Definition provideLabel (objectID key value : string) : world_m World PostgresLabel :=
  cat! UUID <- c_wrap (fun e => EPlain ("could not generate GUID for label: " ++ Error e)) NewV4;
  fun w => (w, Ok (NewLabel (Now w) UUID objectID key value)).

(** The loops over a map of labels; Go leaves the order open, which shows only in the ids and in
    the order of the rows. *)
Definition provide_labels (objectID : string) (labels : gmap string (list string)) : world_m World (list PostgresLabel) :=
  c_fold (fun pgLabels '(key, values) =>
    c_fold (fun pgLabels labelValue =>
      cat! pgLabel <- provideLabel objectID key labelValue; c_ret (pgLabels ++ [pgLabel])%list) pgLabels values)
    [] (map_to_list labels).

(** The loop of [createLabels]; each round takes at least one label. *)
Fixpoint insert_batches (fuel : nat) (maxRows : nat) (sqlQuery : string) (labels : list PostgresLabel) : world_m World unit :=
  match labels with
  | [] => c_ret tt
  | _ =>
      match fuel with
      | O => c_lift (Panic "out of fuel")
      | S n =>
          let rows := Nat.min (length labels) maxRows in
          c_wrap checkIntegrityViolation (NamedExecLabels sqlQuery (take rows labels)) >;
          insert_batches n maxRows sqlQuery (drop rows labels)
      end
  end.
Definition maxParams : nat := N.to_nat 65535.
Definition createLabels (pgLabel : labelEntity) (labels : list PostgresLabel) : world_m World unit :=
  match labels with
  | [] => c_ret tt
  | _ =>
      c_lift (validateLabels labels) >;
      match map Tag (getDBTags (Some (label_fields pgLabel)) (Some isAutoIncrementable)) with
      | [] => c_fail (EPlain (LabelsTableName pgLabel ++ " insert: No fields to insert"))
      | dbTags =>
          insert_batches (length labels) (maxParams / length dbTags)
            (insertQuery (LabelsTableName pgLabel) dbTags "ON CONFLICT DO NOTHING;") labels
      end
  end.

(** The conditions of [deleteLabels]: text, arguments, and whether a list is among them. *)
Definition delete_segment (referenceColumnName entityID : string) (kv : string * list string) : string * list param :=
  let '(key, vals) := kv in
  ("(key=? AND " ++ referenceColumnName ++ "=?" ++ (match vals with [] => "" | _ => " AND val IN (?)" end) ++ ")",
   PText key :: PText entityID :: match vals with [] => [] | _ => [PList vals] end).
Definition deleteLabelsQuery (pgLabel : labelEntity) (entityID : string) (removed : list (string * list string)) : string * list param :=
  let segments := map (delete_segment (ReferenceColumn pgLabel) entityID) removed in
  ("DELETE FROM " ++ LabelsTableName pgLabel ++ " WHERE " ++ Strings.join " OR " (map fst segments), concat (map snd segments)).
Definition isExpansionRequired (removed : list (string * list string)) : bool := existsb (fun kv => negb (bool_decide (kv.2 = []))) removed.
Definition deleteLabels (pgLabel : labelEntity) (entityID : string) (removedLabels : gmap string (list string)) : world_m World unit :=
  match map_to_list removedLabels with
  | [] => c_ret tt
  | removed =>
      provideLabel entityID "" "" >;                            (** asked for the names of its table and column only *)
      let '(baseQuery, args) := deleteLabelsQuery pgLabel entityID removed in
      cat! (baseQuery, args) <- c_lift (if isExpansionRequired removed then sqlx_In baseQuery args else Ok (baseQuery, args));
      ExecContext (Rebind baseQuery) args >; c_ret tt
  end.
Section WithGrow.
Context `{GrowPolicy}.
Definition updateLabels (pgLabel : labelEntity) (entityID : string) (updateActions : list LabelChange) : world_m World unit :=
  cat! st <- c_lift (ApplyLabelChangesToLabels ∅ updateActions ∅);
  cat! pgAddedLabels <- provide_labels entityID (contents (heap st) (labelsToAdd st));
  createLabels pgLabel pgAddedLabels >;
  deleteLabels pgLabel entityID (contents (heap st) (labelsToRemove st)).
Definition label_entity (s : Storage) : labelEntity :=
  default {| LabelsTableName := ""; ReferenceColumn := "" |} (LabelEntity (kind s)).
Definition Storage_UpdateLabels (s : Storage) (objectID : string) (labelChanges : list LabelChange) : world_m World unit :=
  updateLabels (label_entity s) objectID labelChanges.
Definition set_updated_at (t : Z) (o : A) : A :=
  let b := object_base o in
  with_base {| base_ID := base_ID b; base_CreatedAt := base_CreatedAt b; base_UpdatedAt := t; base_Labels := base_Labels b;
               base_PagingSequence := base_PagingSequence b; base_Ready := base_Ready b;
               base_LastOperation := base_LastOperation b |} o.
(** The updated time stays in the object of the caller, which is returned with the result. *)
Definition Storage_Update (s : Storage) (obj : A) (labelChanges : list LabelChange) : world_m World A := fun w =>
  let obj := set_updated_at (Now w) obj in
  (cat! ent <- c_lift (convert s obj);
   update (StorageEntities.TableName) ent >;
   updateLabels (label_entity s) (entity_ID ent) labelChanges >;
   c_wrap (fun e => EPlain ("could not convert updated pg entity for object: " ++ Error e)) (c_lift (ToObject ent))) w.
End WithGrow.

Definition Storage_Create (s : Storage) (obj : A) : world_m World A :=
  cat! pgEntity <- c_lift (convert s obj);
  cat! result <- create (StorageEntities.TableName) pgEntity;
  cat! createdObj <- c_wrap (fun e => EPlain ("could not convert created pg entity to object: " ++ Error e)) (c_lift (ToObject result));
  let createdObj := set_labels (base_Labels (object_base obj)) createdObj in
  cat! pgLabels <- provide_labels (GetID createdObj) (base_Labels (object_base obj));
  createLabels (label_entity s) pgLabels >;
  c_ret createdObj.

(** Reading *)
Definition list_ (s : Storage) (forUpdate withLabels : bool) (criteria : list Query.Criteria.Criterion) : world_m World (list A) :=
  cat! q <- c_lift (WithCriteria (NewQuery (inTx s) (kind s)) criteria);
  let q := if forUpdate then WithLock q else q in
  cat! (sql, params) <- c_lift (if withLabels then List_ sqlx_In Rebind q else ListNoLabels sqlx_In Rebind q);
  cat! rows <- QueryxContext sql params;
  c_lift (rowsToList entity_ID rows).
Definition Storage_List (s : Storage) := list_ s false true.
Definition Storage_ListNoLabels (s : Storage) := list_ s false false.
Definition first_item (l : list A) : world_m World A := match l with [] => c_fail ENotFoundInStorage | o :: _ => c_ret o end.
Definition Storage_Get (s : Storage) (criteria : list Query.Criteria.Criterion) : world_m World A :=
  cat! result <- Storage_List s criteria; first_item result.
Definition Storage_GetForUpdate (s : Storage) (criteria : list Query.Criteria.Criterion) : world_m World A :=
  cat! result <- list_ s true true criteria; first_item result.
Definition Storage_Count (s : Storage) (criteria : list Query.Criteria.Criterion) : world_m World Z :=
  cat! q <- c_lift (WithCriteria (NewQuery (inTx s) (kind s)) criteria);
  cat! (sql, params) <- c_lift (Count sqlx_In Rebind q);
  GetCount sql params.
Definition Storage_CountLabelValues (s : Storage) (criteria : list Query.Criteria.Criterion) : world_m World Z :=
  cat! q <- c_lift (WithCriteria (NewQuery (inTx s) (kind s)) criteria);
  cat! (sql, params) <- c_lift (CountLabelValues sqlx_In Rebind q);
  GetCount sql params.

(** Deleting *)
Definition foreign_key (s : Storage) (err : error) : error :=
  match pq_error err with
  | Some pqError =>
      if String.eqb (code_name pqError) "foreign_key_violation"
      then EForeignKeyViolation (objectType s) (default "" (entityToObjectTypeConverter s !! pq_table pqError))
      else err
  | None => err
  end.
Definition Storage_Delete (s : Storage) (criteria : list Query.Criteria.Criterion) : world_m World unit :=
  cat! q <- c_lift (WithCriteria (NewQuery (inTx s) (kind s)) criteria);
  cat! result <- c_wrap (foreign_key s) (cat! (sql, params) <- c_lift (QueryBuilder.Delete sqlx_In Rebind q); ExecContext sql params);
  checkRowsAffected result.
Definition Storage_DeleteReturning (s : Storage) (criteria : list Query.Criteria.Criterion) : world_m World (list A) :=
  cat! q <- c_lift (WithCriteria (NewQuery (inTx s) (kind s)) criteria);
  cat! rows <- c_wrap (foreign_key s)
    (cat! (sql, params) <- c_lift (QueryBuilder.DeleteReturning sqlx_In Rebind q ["*"]); QueryxContext sql params);
  cat! objectList <- c_lift (rowsToList entity_ID rows);
  match objectList with [] => c_fail ENotFoundInStorage | _ => c_ret objectList end.
End Calls.

(** ** What a list of changes asks for, on plain maps *)
Record plan := { p_merged : gmap string (list string); p_add : gmap string (list string); p_remove : gmap string (list string) }.
Definition no_plan : plan := {| p_merged := ∅; p_add := ∅; p_remove := ∅ |}.
Definition plan_add (k : string) (p : plan) (v : string) : plan :=
  if decide (v ∈ default [] (p_merged p !! k)) then p
  else {| p_merged := spec_add k v (p_merged p); p_add := <[k := (default [] (p_add p !! k) ++ [v])%list]> (p_add p);
          p_remove := p_remove p |}.
Definition added_values (c : LabelChange) : list string := if decide (lc_Values c = []) then [""] else lc_Values c.
Definition plan_change (p : plan) (c : LabelChange) : plan :=
  let k := lc_Key c in
  match lc_Operation c with
  | AddLabelOperation | AddLabelValuesOperation => foldl (plan_add k) p (added_values c)
  | RemoveLabelOperation | RemoveLabelValuesOperation =>
      {| p_merged := spec_change (p_merged p) c; p_add := p_add p;
         p_remove := <[k := if decide (lc_Values c = []) then [] else (default [] (p_remove p !! k) ++ lc_Values c)%list]> (p_remove p) |}
  | OtherOperation _ => p
  end.

Section Plans.
Context `{GrowPolicy}.
Definition outs (st : label_store) (b : bool) : gmap string slice := if b then labelsToAdd st else labelsToRemove st.
Definition planned_outs (p : plan) (b : bool) : gmap string (list string) := if b then p_add p else p_remove p.
(** The store holds the plan, and its output slices share no array. *)
Record planned (st : label_store) (p : plan) : Prop := {
  pl_inv : inv ∅ st;
  pl_merged : contents (heap st) (mergedLabels st) = p_merged p;
  pl_outs b : contents (heap st) (outs st b) = planned_outs p b;
  pl_sep b1 k1 s1 b2 k2 s2 q : outs st b1 !! k1 = Some s1 -> outs st b2 !! k2 = Some s2 -> owns s1 q -> owns s2 q -> b1 = b2 /\ k1 = k2
}.
Definition with_merged (m : gmap string (list string)) (p : plan) : plan :=
  {| p_merged := m; p_add := p_add p; p_remove := p_remove p |}.
Definition with_out (b : bool) (k : string) (vs : list string) (p : plan) : plan :=
  if b then {| p_merged := p_merged p; p_add := <[k := vs]> (p_add p); p_remove := p_remove p |}
  else {| p_merged := p_merged p; p_add := p_add p; p_remove := <[k := vs]> (p_remove p) |}.
Definition put (st : label_store) (h : gmap nat (list string)) (b : bool) (k : string) (s : slice) : label_store :=
  if b then {| heap := h; mergedLabels := mergedLabels st; labelsToAdd := <[k := s]> (labelsToAdd st); labelsToRemove := labelsToRemove st |}
  else {| heap := h; mergedLabels := mergedLabels st; labelsToAdd := labelsToAdd st; labelsToRemove := <[k := s]> (labelsToRemove st) |}.

Lemma inv_outs labels st b k s : inv labels st -> outs st b !! k = Some s ->
  wf_slice (heap st) s /\ disjoint_from s (mergedLabels st).
Proof. intros Hi Hs. apply (inv_out _ _ Hi k). destruct b; auto. Qed.
Lemma at_outs labels st b k : inv labels st ->
  wf_slice (heap st) (at_key (outs st b) k) /\ disjoint_from (at_key (outs st b) k) (mergedLabels st).
Proof. intros Hi. destruct (at_key_out labels st k Hi). by destruct b. Qed.

(** Steps on the merged labels. *)
Lemma kept_planned st st' p : planned st p -> inv ∅ st' -> out_kept st st' ->
  planned st' (with_merged (contents (heap st') (mergedLabels st')) p).
Proof.
  intros Hp Hi' (Ha & Hr & Hk). assert (Ho : forall b, outs st' b = outs st b) by (by intros []; simpl).
  split; [done|done| |].
  - intros b. rewrite Ho. transitivity (planned_outs p b); [|by destruct b]. rewrite <- (pl_outs _ _ Hp b). unfold contents.
    apply map_fmap_ext. intros k s Hs. destruct (inv_outs ∅ st b k s (pl_inv _ _ Hp) Hs). by apply Hk.
  - intros b1 k1 s1 b2 k2 s2 q. rewrite !Ho. apply (pl_sep _ _ Hp).
Qed.

(** Putting a slice with the array of the old one, or with a fresh one, into an output. *)
Lemma put_planned st p h' b k s' vs : planned st p -> inv ∅ (set_merged st h' (mergedLabels st)) ->
  contents h' (mergedLabels st) = contents (heap st) (mergedLabels st) ->
  wf_slice h' s' -> disjoint_from s' (mergedLabels st) -> read h' s' = vs ->
  (forall q, owns s' q -> owns (at_key (outs st b) k) q \/ q ∉ dom (heap st)) ->
  (forall t, wf_slice (heap st) t -> (forall q, owns (at_key (outs st b) k) q -> ~ owns t q) -> read h' t = read (heap st) t) ->
  planned (put st h' b k s') (with_out b k vs p).
Proof.
  intros Hp Hi' Hm Hw Hd Hr Hown Hread.
  assert (Hold : forall q, owns (at_key (outs st b) k) q -> exists s0, outs st b !! k = Some s0 /\ owns s0 q).
  { unfold at_key. destruct (outs st b !! k) as [s0|]; [by eauto|]. intros q [Hc _]. simpl in Hc. lia. }
  assert (Hother : forall b2 k2 t, (b2, k2) <> (b, k) -> outs st b2 !! k2 = Some t -> forall q, owns (at_key (outs st b) k) q -> ~ owns t q).
  { intros b2 k2 t Hne Ht q (s0 & Hs0 & Hq0)%Hold Hq. destruct (pl_sep _ _ Hp _ _ _ _ _ _ q Hs0 Ht Hq0 Hq) as [-> ->]. done. }
  assert (Hputs : forall b2, outs (put st h' b k s') b2 = if decide (b2 = b) then <[k := s']> (outs st b) else outs st b2).
  { intros b2. by destruct b, b2. }
  assert (Hput : heap (put st h' b k s') = h' /\ mergedLabels (put st h' b k s') = mergedLabels st) by (by destruct b).
  assert (Hnew : forall b2 k2 t q, (b2, k2) <> (b, k) -> outs st b2 !! k2 = Some t -> owns s' q -> ~ owns t q).
  { intros b2 k2 t q Hne Ht Hq Hqt. destruct (Hown q Hq) as [Ho|Hf]; [by eapply Hother|].
    apply Hf. eapply owns_dom; [|exact Hqt]. by eapply (inv_outs ∅ st b2 k2 t (pl_inv _ _ Hp)). }
  split.
  - destruct Hi' as [? ? ? ? Ho]. destruct b; (constructor; simpl in *; eauto);
      (intros k1 t [Ht|Ht]; [|eauto]); first [by eauto|rewrite lookup_insert in Ht; case_decide; simplify_eq; eauto].
  - destruct Hput as [-> ->]. rewrite Hm. rewrite (pl_merged _ _ Hp). by destruct b.
  - intros b2. destruct Hput as [-> _]. rewrite Hputs. case_decide as Hb; [subst b2|].
    + unfold contents. rewrite fmap_insert, Hr. transitivity (<[k := vs]> (planned_outs p b)); [|by destruct b].
      rewrite <- (pl_outs _ _ Hp b). unfold contents. apply map_eq. intros k1. rewrite !lookup_insert, !lookup_fmap.
      case_decide as Hk; [done|]. destruct (outs st b !! k1) as [t|] eqn:Et; [|done]. simpl. f_equal.
      apply Hread; [by eapply (inv_outs ∅ st b k1 t (pl_inv _ _ Hp))|]. apply (Hother b k1); congruence.
    + transitivity (planned_outs p b2); [|by destruct b, b2]. rewrite <- (pl_outs _ _ Hp b2). unfold contents.
      apply map_fmap_ext. intros k1 t Et. apply Hread; [by eapply (inv_outs ∅ st b2 k1 t (pl_inv _ _ Hp))|]. apply (Hother b2 k1); congruence.
  - assert (Hback : forall b2 k2 t, (b2, k2) <> (b, k) -> outs (put st h' b k s') b2 !! k2 = Some t -> outs st b2 !! k2 = Some t).
    { intros b2 k2 t Hne. rewrite Hputs. destruct (decide (b2 = b)) as [->|]; [|done]. rewrite lookup_insert_ne; congruence. }
    assert (Hhere : forall t, outs (put st h' b k s') b !! k = Some t -> t = s').
    { intros t. rewrite Hputs, decide_True, lookup_insert_eq by done. congruence. }
    intros b1 k1 s1 b2 k2 s2 q H1 H2 Q1 Q2.
    destruct (decide ((b1, k1) = (b, k))) as [[= -> ->]|N1], (decide ((b2, k2) = (b, k))) as [[= -> ->]|N2]; [done|..].
    + apply Hhere in H1 as ->. exfalso. by eapply (Hnew b2 k2 s2 q N2); [apply Hback|..].
    + apply Hhere in H2 as ->. exfalso. by eapply (Hnew b1 k1 s1 q N1); [apply Hback|..].
    + apply (pl_sep _ _ Hp _ _ s1 _ _ s2 q); [by apply Hback..|done|done].
Qed.
Lemma append_planned st p b k xs h' s' : planned st p -> append (heap st) (at_key (outs st b) k) xs = (h', s') ->
  planned (put st h' b k s') (with_out b k (default [] (planned_outs p b !! k) ++ xs)%list p).
Proof.
  intros Hp E. destruct (at_outs ∅ st b k (pl_inv _ _ Hp)) as [Hw Hd].
  destruct (append_frame ∅ st _ _ _ _ (pl_inv _ _ Hp) Hw Hd E) as (Hc & Hw' & Hd' & Hi').
  destruct (append_spec _ _ _ _ _ Hw E) as (Hr & _ & _ & Hown & _ & Hread).
  apply put_planned; [done..| |done|done]. rewrite Hr. f_equal. rewrite <- (pl_outs _ _ Hp b). unfold contents, at_key.
  rewrite lookup_fmap. by destruct (outs st b !! k).
Qed.

Lemma addValue_planned st p k v : planned st p -> planned (addValue st k v) (plan_add k p v).
Proof.
  intros Hp. destruct (addValue_spec ∅ st k v (pl_inv _ _ Hp)) as [Hi2 Hc2]. revert Hi2 Hc2. unfold addValue, plan_add.
  destruct (at_key_merged ∅ st k (pl_inv _ _ Hp)) as (_ & _ & Hm). rewrite (pl_merged _ _ Hp) in Hm. rewrite Hm.
  case_bool_decide as Hin; [by rewrite decide_True|]. rewrite decide_False by done.
  destruct (append (heap st) (at_key (labelsToAdd st) k) [v]) as [h1 added] eqn:E1.
  pose proof (append_planned st p true k [v] h1 added Hp E1) as Hp1. destruct (append h1 _ [v]) as [h2 merged] eqn:E2.
  intros Hi2 Hc2. destruct (at_key_merged ∅ _ k (pl_inv _ _ Hp1)) as (Hwm & _ & _).
  destruct (append_spec _ _ _ _ _ Hwm E2) as (_ & _ & _ & _ & _ & Hread).
  rewrite (pl_merged _ _ Hp) in Hc2. rewrite <- Hc2. apply (kept_planned _ _ _ Hp1 Hi2). split; [done|]. split; [done|].
  intros t Ht Hd. apply Hread; [done|]. intros q Hq Hqt. simpl in Hq, Hd. unfold at_key in Hq.
  destruct (mergedLabels st !! k) as [s|] eqn:Es; [by eapply Hd|]. destruct Hq as [Hc _]. simpl in Hc. lia.
Qed.
Lemma adds_planned k vs : forall st p, planned st p ->
  planned (foldl (fun s v => addValue s k v) st vs) (foldl (plan_add k) p vs).
Proof. induction vs as [|v vs IH]; intros st p Hp; [done|]. simpl. by apply IH, addValue_planned. Qed.
Lemma removes_planned k vs : forall st p, planned st p ->
  exists st', fold_result (fun s v => remove_value s k v) st vs = Ok st' /\
    planned st' (with_merged (foldl (fun m v => spec_remove k v m) (p_merged p) vs) p).
Proof.
  induction vs as [|v vs IH]; intros st p Hp; simpl; [by exists st; destruct p|].
  destruct (remove_value_spec ∅ st k v (pl_inv _ _ Hp)) as (st1 & E & Hi1 & Hc & Hk). rewrite E. simpl.
  pose proof (kept_planned st st1 p Hp Hi1 Hk) as Hp1. destruct (IH st1 _ Hp1) as (st2 & E2 & Hp2). exists st2. split; [done|].
  rewrite <- (pl_merged _ _ Hp), <- Hc. exact Hp2.
Qed.
Lemma change_planned st p c : planned st p -> exists st', apply_change ∅ st c = Ok st' /\ planned st' (plan_change p c).
Proof.
  intros Hp.
  assert (Hadd : planned (apply_add st (lc_Key c) (lc_Values c)) (foldl (plan_add (lc_Key c)) p (added_values c))).
  { unfold apply_add, added_values. case_decide as Hv; [|by apply adds_planned]. rewrite Hv. simpl. by apply addValue_planned. }
  assert (Hrem : lc_Operation c = RemoveLabelOperation \/ lc_Operation c = RemoveLabelValuesOperation ->
    exists st', apply_remove ∅ st (lc_Key c) (lc_Values c) = Ok st' /\
    planned st' {| p_merged := spec_change (p_merged p) c; p_add := p_add p;
      p_remove := <[lc_Key c := if decide (lc_Values c = []) then [] else (default [] (p_remove p !! lc_Key c) ++ lc_Values c)%list]> (p_remove p) |}).
  { intros Hop. assert (Hs : spec_change (p_merged p) c = if decide (lc_Values c = []) then delete (lc_Key c) (p_merged p)
      else foldl (fun m v => spec_remove (lc_Key c) v m) (p_merged p) (lc_Values c)) by (unfold spec_change; by destruct Hop as [-> | ->]).
    rewrite Hs. unfold apply_remove. case_decide as Hv.
    - eexists. split; [reflexivity|].
      pose proof (kept_planned st (set_merged st (heap st) (delete (lc_Key c) (mergedLabels st))) p Hp
        (delete_merged ∅ st (lc_Key c) (pl_inv _ _ Hp))) as Hp1.
      assert (Hk : out_kept st (set_merged st (heap st) (delete (lc_Key c) (mergedLabels st)))) by (by split; [|split]). specialize (Hp1 Hk).
      pose proof (put_planned _ _ (heap st) false (lc_Key c) (at_key ∅ (lc_Key c)) [] Hp1 (pl_inv _ _ Hp1) eq_refl) as Hput.
      unfold at_key in Hput |- *. rewrite lookup_empty in Hput |- *. simpl in Hput |- *.
      rewrite <- (pl_merged _ _ Hp). unfold contents at 1. rewrite <- fmap_delete. apply Hput; [apply nil_wf|apply nil_disjoint|done| |done].
      intros q [Hc _]. simpl in Hc. lia.
    - destruct (append _ _ (lc_Values c)) as [h' removed] eqn:E. pose proof (append_planned st p false _ _ _ _ Hp E) as Hp1.
      exact (removes_planned (lc_Key c) (lc_Values c) _ _ Hp1). }
  unfold apply_change, plan_change. destruct (lc_Operation c); [by eexists..|by apply Hrem; auto|by apply Hrem; auto|by exists st].
Qed.
(** [ApplyLabelChangesToLabels] on no labels computes the plan. *)
Lemma Apply_plan h changes : exists st, ApplyLabelChangesToLabels h changes ∅ = Ok st /\
  contents (heap st) (labelsToAdd st) = p_add (foldl plan_change no_plan changes) /\
  contents (heap st) (labelsToRemove st) = p_remove (foldl plan_change no_plan changes).
Proof.
  unfold ApplyLabelChangesToLabels. set (st0 := {| heap := h |}).
  assert (Hp : planned st0 no_plan).
  { split; [|by apply fmap_empty|intros []; by apply fmap_empty|intros []; simpl; by intros]. split; try by (intros; simplify_map_eq).
    intros k s [E|E]; unfold st0 in E; simpl in E; by rewrite lookup_empty in E. }
  clearbody st0. revert st0 Hp. generalize no_plan. induction changes as [|c cs IH]; intros p st Hp; simpl.
  - exists st. split; [done|]. split; [exact (pl_outs _ _ Hp true)|exact (pl_outs _ _ Hp false)].
  - destruct (change_planned st p c Hp) as (st1 & -> & Hp1). simpl. by apply IH.
Qed.
End Plans.

(** ** Changes whose order the database keeps *)
Definition is_removal (c : LabelChange) : bool :=
  match lc_Operation c with RemoveLabelOperation | RemoveLabelValuesOperation => true | _ => false end.
(** No change of a key comes after a removal from it. *)
Fixpoint settled (changes : list LabelChange) : bool :=
  match changes with
  | [] => true
  | c :: rest => (negb (is_removal c) || forallb (fun c' => negb (String.eqb (lc_Key c') (lc_Key c))) rest) && settled rest
  end.
Lemma settled_snoc cs c : settled (cs ++ [c]) = true ->
  settled cs = true /\ forall c', c' ∈ cs -> is_removal c' = true -> lc_Key c' <> lc_Key c.
Proof.
  induction cs as [|a cs IH]; simpl; [by split; [|intros ? ?%elem_of_nil]|].
  intros [Ha Hcs]%andb_prop. destruct (IH Hcs) as [H1 H2]. rewrite forallb_app in Ha. simpl in Ha. split.
  - apply andb_true_intro. split; [|done]. destruct (is_removal a); [|done]. simpl in *. by apply andb_prop in Ha as [-> _].
  - intros c' [-> |Hc']%elem_of_cons Hr; [|by apply H2]. rewrite Hr in Ha. simpl in Ha. apply andb_prop in Ha as [_ Ha].
    intros Heq. by rewrite Heq, String.eqb_refl in Ha.
Qed.
Definition planned_removal (p : plan) (k v : string) : Prop := exists vs, p_remove p !! k = Some vs /\ (vs = [] \/ v ∈ vs).
Lemma plan_adds k vs : forall p, default [] (p_add p !! k) = default [] (p_merged p !! k) -> NoDup (default [] (p_add p !! k)) ->
  let p' := foldl (plan_add k) p vs in
  default [] (p_add p' !! k) = default [] (p_merged p' !! k) /\ NoDup (default [] (p_add p' !! k)) /\
  (forall v, has_value (p_add p') k v <-> has_value (p_add p) k v \/ v ∈ vs) /\
  (forall k', k' <> k -> p_add p' !! k' = p_add p !! k' /\ p_merged p' !! k' = p_merged p !! k') /\ p_remove p' = p_remove p.
Proof.
  induction vs as [|v vs IH]; intros p Heq Hnd; simpl.
  { split; [done|]. split; [done|]. split; [|done]. intros v. rewrite elem_of_nil. naive_solver. }
  unfold plan_add at 2 4 6 8 10 12 14. case_decide as Hin.
  - destruct (IH p Heq Hnd) as (H1 & H2 & H3 & H4). split; [done|]. split; [done|]. split; [|done]. intros v'. rewrite H3, elem_of_cons.
    unfold has_value. rewrite Heq. naive_solver.
  - set (p1 := {| p_merged := _ |}).
    assert (E1 : default [] (p_add p1 !! k) = (default [] (p_add p !! k) ++ [v])%list) by (simpl; by rewrite lookup_insert_eq).
    assert (E2 : default [] (p_merged p1 !! k) = (default [] (p_merged p !! k) ++ [v])%list).
    { simpl. unfold spec_add. rewrite decide_False by done. by rewrite lookup_insert_eq. }
    destruct (IH p1) as (H1 & H2 & H3 & H4 & H5).
    + by rewrite E1, E2, Heq.
    + rewrite E1. apply NoDup_app. split; [done|]. split; [|apply NoDup_singleton]. intros x Hx ->%list_elem_of_singleton.
      by rewrite Heq in Hx.
    + split; [done|]. split; [done|]. split; [|split; [|done]].
      * intros v'. rewrite H3. unfold has_value. rewrite E1, elem_of_app, list_elem_of_singleton, elem_of_cons. naive_solver.
      * intros k' Hk. destruct (H4 k' Hk) as [-> ->]. simpl. unfold spec_add. rewrite decide_False by done. by rewrite !lookup_insert_ne.
Qed.
(** What the plan of settled changes holds. *)
Record plan_of (cs : list LabelChange) (p : plan) : Prop := {
  po_add k v : has_value (p_add p) k v <-> exists c, c ∈ cs /\ effect c k v = Some true;
  po_nodup k : NoDup (default [] (p_add p !! k));
  po_remove k v : planned_removal p k v <-> exists c, c ∈ cs /\ effect c k v = Some false;
  po_fresh k : (forall c, c ∈ cs -> is_removal c = true -> lc_Key c <> k) ->
    default [] (p_add p !! k) = default [] (p_merged p !! k) /\ p_remove p !! k = None
}.
Definition is_addition (c : LabelChange) : bool :=
  match lc_Operation c with AddLabelOperation | AddLabelValuesOperation => true | _ => false end.
Lemma effect_add c k v : effect c k v = Some true <-> is_addition c = true /\ lc_Key c = k /\ v ∈ added_values c.
Proof. unfold effect, is_addition, added_values. destruct (lc_Operation c); repeat case_decide; naive_solver. Qed.
Lemma effect_remove c k v : effect c k v = Some false <-> is_removal c = true /\ lc_Key c = k /\ (lc_Values c = [] \/ v ∈ lc_Values c).
Proof. unfold effect, is_removal. destruct (lc_Operation c); repeat case_decide; naive_solver. Qed.
Lemma exists_snoc (P : LabelChange -> Prop) cs c : (exists x, x ∈ (cs ++ [c])%list /\ P x) <-> (exists x, x ∈ cs /\ P x) \/ P c.
Proof.
  split.
  - intros (x & [Hx | ->%list_elem_of_singleton]%elem_of_app & HP); eauto.
  - intros [(x & Hx & HP)|HP]; [exists x|exists c]; (split; [|done]); apply elem_of_app; [by left|right; by apply list_elem_of_singleton].
Qed.
Lemma plan_of_add cs p c : plan_of cs p -> is_addition c = true -> (forall c', c' ∈ cs -> is_removal c' = true -> lc_Key c' <> lc_Key c) ->
  plan_of (cs ++ [c]) (foldl (plan_add (lc_Key c)) p (added_values c)).
Proof.
  intros Hp Ha Hs. destruct (po_fresh _ _ Hp _ Hs) as [Heq Hnone].
  destruct (plan_adds (lc_Key c) (added_values c) p Heq (po_nodup _ _ Hp _)) as (H1 & H2 & H3 & H4 & H5).
  assert (Hnr : is_removal c = false) by (unfold is_addition, is_removal in *; by destruct (lc_Operation c)).
  split.
  - intros k v. rewrite exists_snoc, effect_add, <- (po_add _ _ Hp). destruct (decide (k = lc_Key c)) as [->|Hk].
    + rewrite H3. naive_solver.
    + unfold has_value. destruct (H4 k Hk) as [-> _]. naive_solver.
  - intros k. destruct (decide (k = lc_Key c)) as [->|Hk]; [done|]. destruct (H4 k Hk) as [-> _]. apply (po_nodup _ _ Hp).
  - intros k v. unfold planned_removal. rewrite H5, exists_snoc, effect_remove, Hnr. rewrite (po_remove _ _ Hp k v). naive_solver.
  - intros k Hk. assert (Hk' : forall c', c' ∈ cs -> is_removal c' = true -> lc_Key c' <> k) by (intros; apply Hk; [apply elem_of_app; by left|done]).
    destruct (po_fresh _ _ Hp k Hk') as [E1 E2]. rewrite H5. split; [|done].
    destruct (decide (k = lc_Key c)) as [->|Hne]; [done|]. by destruct (H4 k Hne) as [-> ->].
Qed.
Lemma removes_other k vs : forall m k', k <> k' -> foldl (fun m v => spec_remove k v m) m vs !! k' = m !! k'.
Proof.
  induction vs as [|v vs IH]; intros m k' Hk; simpl; [done|]. rewrite IH by done. unfold spec_remove.
  case_decide; [|done]. case_decide; [by rewrite lookup_delete_ne|by rewrite lookup_insert_ne].
Qed.
Lemma plan_of_remove cs p c : plan_of cs p -> is_removal c = true -> (forall c', c' ∈ cs -> is_removal c' = true -> lc_Key c' <> lc_Key c) ->
  plan_of (cs ++ [c]) {| p_merged := spec_change (p_merged p) c; p_add := p_add p;
    p_remove := <[lc_Key c := if decide (lc_Values c = []) then [] else (default [] (p_remove p !! lc_Key c) ++ lc_Values c)%list]> (p_remove p) |}.
Proof.
  intros Hp Hr Hs. destruct (po_fresh _ _ Hp _ Hs) as [Heq Hnone].
  assert (Hna : is_addition c = false) by (unfold is_addition, is_removal in *; by destruct (lc_Operation c)).
  assert (Hvs : (if decide (lc_Values c = []) then [] else (default [] (p_remove p !! lc_Key c) ++ lc_Values c)%list) = lc_Values c).
  { rewrite Hnone. case_decide as E; by rewrite ?E. }
  rewrite Hvs. split.
  - intros k v. simpl. rewrite exists_snoc, effect_add, Hna, <- (po_add _ _ Hp). naive_solver.
  - exact (po_nodup _ _ Hp).
  - intros k v. rewrite exists_snoc, <- (po_remove _ _ Hp), effect_remove, Hr. unfold planned_removal. simpl.
    destruct (decide (k = lc_Key c)) as [->|Hk].
    + rewrite lookup_insert_eq, Hnone. split; [intros (vs & [= <-] & Hv); by right|intros [(vs & E & _)|(_ & _ & Hv)]; [done|by eexists]].
    + rewrite lookup_insert_ne by done. naive_solver.
  - intros k Hk. assert (Hk' : forall c', c' ∈ cs -> is_removal c' = true -> lc_Key c' <> k)
      by (intros; apply Hk; [apply elem_of_app; by left|done]).
    assert (Hne : lc_Key c <> k) by (apply Hk; [apply elem_of_app; right; by apply list_elem_of_singleton|done]).
    destruct (po_fresh _ _ Hp k Hk') as [E1 E2]. split; [|cbn [p_remove]; by rewrite lookup_insert_ne]. cbn [p_add p_merged]. rewrite E1.
    unfold spec_change. unfold is_removal in Hr. destruct (lc_Operation c); try done.
    all: case_decide; [by rewrite lookup_delete_ne|by rewrite removes_other].
Qed.
Lemma plan_changes cs : settled cs = true -> plan_of cs (foldl plan_change no_plan cs).
Proof.
  induction cs as [|c cs IH] using rev_ind.
  - intros _. split; simpl; unfold has_value, planned_removal; simpl; intros *; rewrite ?lookup_empty; simpl; [|constructor| |done].
    + rewrite elem_of_nil. split; [done|]. by intros (c & ?%elem_of_nil & _).
    + split; [by intros (vs & ? & _)|]. by intros (c & ?%elem_of_nil & _).
  - intros [Hs Hc]%settled_snoc. specialize (IH Hs). rewrite foldl_app. simpl. set (p := foldl plan_change no_plan cs) in *.
    unfold plan_change. destruct (lc_Operation c) as [| | | |n] eqn:Eop.
    1,2: apply plan_of_add; [done|by unfold is_addition; rewrite Eop|done].
    1,2: apply plan_of_remove; [done|by unfold is_removal; rewrite Eop|done].
    assert (He : forall k v, effect c k v = None) by (intros; unfold effect; rewrite Eop; by case_decide).
    destruct IH as [H1 H2 H3 H4]. split; [| |  |].
    + intros k v. rewrite exists_snoc, He, H1. naive_solver.
    + done.
    + intros k v. rewrite exists_snoc, He, H3. naive_solver.
    + intros k Hk. apply H4. intros c' Hc'. apply Hk. apply elem_of_app. by left.
Qed.
(** What settled changes come to. *)
Lemma last_effect_settled cs k v : settled cs = true ->
  last_effect cs k v = if decide (Exists (fun c => effect c k v = Some false) cs) then Some false
    else if decide (Exists (fun c => effect c k v = Some true) cs) then Some true else None.
Proof.
  induction cs as [|c cs IH] using rev_ind; [intros _; by rewrite !decide_False by (intros E; inversion E)|].
  intros [Hs Hc]%settled_snoc. unfold last_effect. rewrite foldl_app. simpl. fold (last_effect cs k v). rewrite (IH Hs).
  repeat case_decide; destruct (effect c k v) as [[]|] eqn:E; try done; exfalso;
    repeat match goal with H : Exists _ (_ ++ [c]) |- _ => apply Exists_app in H as [H|H]; [|apply Exists_cons in H as [H|H]; [|by inversion H]] end;
    try done; try congruence;
    try match goal with H : ~ Exists _ (_ ++ [c]) |- _ => apply H, Exists_app; (by left) || (right; by left) end.
  apply Exists_exists in H as (c' & Hin & Hf). apply effect_remove in Hf as (Hr & Hk & _).
  apply (Hc c' Hin Hr). rewrite Hk. by apply effect_add in E as (_ & -> & _).
Qed.

(** ** validateLabels *)
Lemma validate_fold ls : forall pairs, is_ok (fold_result validate_step pairs ls) = true <->
  NoDup (map (fun l => (GetKey l, GetValue l)) ls) /\ forall l, l ∈ ls -> ~ has_value pairs (GetKey l) (GetValue l).
Proof.
  induction ls as [|l ls IH]; intros pairs; simpl.
  { split; [|done]. intros _. split; [constructor|]. by intros l ?%elem_of_nil. }
  assert (Hb : bool_decide (is_Some (pairs !! GetKey l)) && Slice.StringsAnyEquals (default [] (pairs !! GetKey l)) (GetValue l) = true <->
    has_value pairs (GetKey l) (GetValue l)).
  { unfold has_value. rewrite andb_true_iff, bool_decide_eq_true, Slice.any_equals_true. destruct (pairs !! GetKey l); simpl;
      [naive_solver|]. rewrite elem_of_nil. split; [by intros [[? ?] _]|done]. }
  destruct (validate_step pairs l) as [pairs'| |] eqn:Es; unfold validate_step in Es; destruct (bool_decide _ && _); try discriminate Es;
    [injection Es as <-|].
  2: { simpl. split; [done|]. intros [_ Hno]. exfalso. apply (Hno l); [by apply list_elem_of_here|by apply Hb]. }
  - assert (Hl : ~ has_value pairs (GetKey l) (GetValue l)) by (intros Hh; by apply Hb in Hh). simpl. rewrite IH, NoDup_cons.
    assert (Hins : forall k v, has_value (<[GetKey l := (default [] (pairs !! GetKey l) ++ [GetValue l])%list]> pairs) k v <->
      has_value pairs k v \/ (k, v) = (GetKey l, GetValue l)).
    { intros k v. unfold has_value. destruct (decide (k = GetKey l)) as [->|Hk].
      - rewrite lookup_insert_eq. simpl. rewrite elem_of_app, list_elem_of_singleton. naive_solver.
      - rewrite lookup_insert_ne by done. naive_solver. }
    split.
    + intros [Hnd Hno]. split; [split; [|done]|].
      * intros (x & Heq & Hx)%list_elem_of_fmap. apply (Hno x Hx), Hins. right. by symmetry.
      * intros x [-> |Hx]%elem_of_cons; [done|]. intros Hh. apply (Hno x Hx), Hins. by left.
    + intros [[Hni Hnd] Hno]. split; [done|]. intros x Hx [Hh|Heq]%Hins; [by apply (Hno x); [apply list_elem_of_further|]|].
      apply Hni. apply list_elem_of_fmap. by exists x.
Qed.
(** Labels are accepted exactly when no pair of a key and a value is repeated. *)
Lemma validateLabels_iff ls : is_ok (validateLabels ls) = true <-> NoDup (map (fun l => (GetKey l, GetValue l)) ls).
Proof.
  unfold validateLabels. pose proof (validate_fold ls ∅) as Hv. destruct (fold_result validate_step ∅ ls); simpl in *; rewrite Hv;
    unfold has_value; setoid_rewrite lookup_empty; simpl; (split; [by intros [? _]|]); intros ?; (split; [done|]); intros ? _; apply not_elem_of_nil.
Qed.

(** ** What the database promises of a table of labels *)
Definition column (n : NullString) : option string := if ns_Valid n then Some (ns_String n) else None.
(** The columns for the object, the key and the value; [None] is NULL. *)
Definition label_row : Type := option string * option string * option string.
Definition row_of (l : PostgresLabel) : label_row := (column (l_Reference l), column (l_Key l), column (l_Val l)).
Definition row_for (id k v : string) : label_row := (column (toNullString id), column (toNullString k), column (toNullString v)).
(** The rows that a removal of these keys and values is for; a comparison with NULL is not true. *)
Definition row_matches (id : string) (removed : list (string * list string)) (r : label_row) : Prop :=
  exists k vs, (k, vs) ∈ removed /\ r.1 = (Some id, Some k) /\ (vs = [] \/ exists v, v ∈ vs /\ r.2 = Some v).

(** A DELETE statement: a disjunction of conjunctions of comparisons of a column with a value or
    with a list of values, as its text with placeholders, its arguments, and the rows it means. *)
Inductive atom := Equals (col arg : string) | OneOf (col : string) (args : list string).
Definition atom_col (a : atom) : string := match a with Equals col _ | OneOf col _ => col end.
Definition atom_text (a : atom) : string := match a with Equals col _ => col ++ "=?" | OneOf col _ => col ++ " IN (?)" end.
Definition atom_arg (a : atom) : param := match a with Equals _ v => PText v | OneOf _ vs => PList vs end.
Definition conjunction_text (c : list atom) : string := "(" ++ Strings.join " AND " (map atom_text c) ++ ")".
Definition delete_text (table : string) (d : list (list atom)) : string :=
  "DELETE FROM " ++ table ++ " WHERE " ++ Strings.join " OR " (map conjunction_text d).
Definition delete_args (d : list (list atom)) : list param := map atom_arg (concat d).
Definition has_list (d : list (list atom)) : bool :=
  existsb (existsb (fun a => match a with OneOf _ _ => true | Equals _ _ => false end)) d.
Definition cell (t : labelEntity) (r : label_row) (col : string) : option string :=
  if String.eqb col "key" then r.1.2 else if String.eqb col "val" then r.2
  else if String.eqb col (ReferenceColumn t) then r.1.1 else None.
Definition atom_true (t : labelEntity) (r : label_row) (a : atom) : Prop :=
  match a with
  | Equals col v => cell t r col = Some v
  | OneOf col vs => exists v, v ∈ vs /\ cell t r col = Some v
  end.
Definition selected (t : labelEntity) (d : list (list atom)) (r : label_row) : Prop :=
  exists c, c ∈ d /\ forall a, a ∈ c -> atom_true t r a.
Definition well_formed (t : labelEntity) (d : list (list atom)) : Prop :=
  d <> [] /\ forall c, c ∈ d -> c <> [] /\ forall a, a ∈ c -> atom_col a ∈ ["key"; "val"; ReferenceColumn t].
(** An INSERT of labels that leaves the rows which are already there. *)
Definition insert_text (table : string) (cols : list string) : string :=
  "INSERT INTO " ++ table ++ " (" ++ Strings.join ", " cols ++ ") VALUES(" ++ Strings.join ", " (map (fun col => ":" ++ col) cols) ++
  ") ON CONFLICT DO NOTHING;".

Definition label_tags (t : labelEntity) : list string := map Tag (getDBTags (Some (label_fields t)) (Some isAutoIncrementable)).
Class LabelTable (A : Type) `{Postgres A} (t : labelEntity) := {
  held : World -> label_row -> Prop;
  reference_column : ReferenceColumn t ∉ [""; "-"; "key"; "val"] /\ Strings.contains (ReferenceColumn t) "auto_increment" = false;
  new_id_holds w : match NewV4 w with (w', Panic _) => False | (w', _) => forall r, held w' r <-> held w r end;
  insert_holds w cols rows :
    (forall col, col ∈ ["key"; "val"; ReferenceColumn t] -> col ∈ cols) ->
    (forall col, col ∈ cols -> col ∈ ["id"; "key"; "val"; "created_at"; "updated_at"; ReferenceColumn t]) ->
    match NamedExecLabels (insert_text (LabelsTableName t) cols) rows w with
    | (w', Ok _) => forall r, held w' r <-> held w r \/ exists l, l ∈ rows /\ r = row_of l
    | (_, Err _) => True
    | (_, Panic _) => False
    end;
  expanded q args : match sqlx_In q args with Panic _ => False | _ => True end;
  delete_holds w d q args :
    well_formed t d ->
    (if has_list d then sqlx_In (delete_text (LabelsTableName t) d) (delete_args d)
     else Ok (delete_text (LabelsTableName t) d, delete_args d)) = Ok (q, args) ->
    match ExecContext (Rebind q) args w with
    | (w', Ok _) => forall r, held w' r <-> held w r /\ ~ selected t d r
    | (_, Err _) => True
    | (_, Panic _) => False
    end
}.

Section LabelTables.
Context {A : Type} `{LabelTable A t} `{GrowPolicy}.
(** The errors of the database, of the expansion of lists and of the generator of ids. *)
Definition call_failed (e : error) : Prop :=
  (exists w w' e', NewV4 w = (w', Err e') /\ e = EPlain ("could not generate GUID for label: " ++ Error e')) \/
  (exists q rows w w' e', NamedExecLabels q rows w = (w', Err e') /\ e = checkIntegrityViolation e') \/
  (exists q args, sqlx_In q args = Err e) \/
  (exists q args w w', ExecContext q args w = (w', Err e)).
Definition outcome {X} (Q : X -> World -> Prop) (r : World * result X) : Prop :=
  match r with (w', Ok x) => Q x w' | (_, Err e) => call_failed e | (_, Panic _) => False end.
Lemma run_bind {X Y} (P : X -> World -> Prop) (Q : Y -> World -> Prop) m f w :
  outcome P (m w) -> (forall x w1, P x w1 -> outcome Q (f x w1)) -> outcome Q (c_bind m f w).
Proof. unfold c_bind. destruct (m w) as [w1 [x|e|]]; simpl; [|done..]. intros HP Hf. by apply Hf. Qed.
Lemma run_weaken {X} (P Q : X -> World -> Prop) r : (forall x w, P x w -> Q x w) -> outcome P r -> outcome Q r.
Proof. destruct r as [w [x|e|]]; simpl; auto. Qed.

Definition label_for (id : string) (l : PostgresLabel) (kv : string * string) : Prop :=
  l_Key l = toNullString kv.1 /\ l_Val l = toNullString kv.2 /\ l_Reference l = toNullString id.
Lemma label_for_row id l kv : label_for id l kv -> row_of l = row_for id kv.1 kv.2.
Proof. intros (E1 & E2 & E3). unfold row_of, row_for. by rewrite E1, E2, E3. Qed.
Definition same_rows (w w' : World) : Prop := forall r, held w' r <-> held w r.
Lemma provideLabel_outcome id k v w :
  outcome (fun l w' => label_for id l (k, v) /\ same_rows w w') (provideLabel id k v w).
Proof.
  unfold provideLabel. eapply (run_bind (fun _ w' => same_rows w w')).
  - unfold c_wrap. pose proof (new_id_holds w) as Hn. destruct (NewV4 w) as [w1 [u|e|]] eqn:E; simpl; [done| |done]. left. eauto 10.
  - intros u w1 Hw1. simpl. done.
Qed.
Lemma provide_values id k vs : forall ls kvs w, Forall2 (label_for id) ls kvs ->
  outcome (fun ls' w' => Forall2 (label_for id) ls' (kvs ++ map (pair k) vs) /\ same_rows w w')
    (c_fold (fun pgLabels labelValue => cat! pgLabel <- provideLabel id k labelValue; c_ret (pgLabels ++ [pgLabel])%list) ls vs w).
Proof.
  induction vs as [|v vs IH]; intros ls kvs w Hls; simpl; [by rewrite app_nil_r|].
  eapply (run_bind (fun ls' w' => Forall2 (label_for id) ls' (kvs ++ [(k, v)]) /\ same_rows w w')).
  - eapply run_bind; [apply provideLabel_outcome|]. intros l w1 [Hl Hw]. simpl. split; [|done]. by apply Forall2_app; [|constructor].
  - intros ls1 w1 [Hls1 Hw1]. eapply run_weaken; [|by apply (IH ls1 (kvs ++ [(k, v)])%list)]. intros ls2 w2 [Hls2 Hw2].
    rewrite <- app_assoc in Hls2. split; [done|]. intros r. by rewrite (Hw2 r).
Qed.
Definition pairs_of (m : list (string * list string)) : list (string * string) := flat_map (fun kvs => map (pair kvs.1) kvs.2) m.
Lemma provide_pairs id l : forall ls kvs w, Forall2 (label_for id) ls kvs ->
  outcome (fun ls' w' => Forall2 (label_for id) ls' (kvs ++ pairs_of l) /\ same_rows w w')
    (c_fold (fun pgLabels '(key, values) =>
      c_fold (fun pgLabels labelValue => cat! pgLabel <- provideLabel id key labelValue; c_ret (pgLabels ++ [pgLabel])%list) pgLabels values) ls l w).
Proof.
  induction l as [|[k vs] l IH]; intros ls kvs w Hls; simpl; [by rewrite app_nil_r|].
  eapply run_bind; [by apply provide_values|]. intros ls1 w1 [Hls1 Hw1].
  eapply run_weaken; [|by apply (IH ls1 _ w1 Hls1)]. intros ls2 w2 [Hls2 Hw2].
  rewrite <- app_assoc in Hls2. split; [done|]. intros r. by rewrite (Hw2 r).
Qed.
Lemma provide_labels_outcome id m w :
  outcome (fun ls w' => Forall2 (label_for id) ls (pairs_of (map_to_list m)) /\ same_rows w w') (provide_labels id m w).
Proof. apply (provide_pairs id (map_to_list m) [] []). constructor. Qed.

(** The statements of the code are such statements. *)
Lemma join_colons cols : cols <> [] -> ":" ++ Strings.join ", :" cols = Strings.join ", " (map (fun col => ":" ++ col) cols).
Proof.
  induction cols as [|c [|c' cols] IH]; [done|done|]. intros _.
  change (Strings.join ", :" (c :: c' :: cols)) with (c ++ ", " ++ ":" ++ Strings.join ", :" (c' :: cols)).
  rewrite IH by done. done.
Qed.
Lemma insert_query_text : insertQuery (LabelsTableName t) (label_tags t) "ON CONFLICT DO NOTHING;" = insert_text (LabelsTableName t) (label_tags t).
Proof.
  unfold insertQuery, insert_text. rewrite <- join_colons; [done|]. unfold label_tags, getDBTags, label_fields. simpl.
  by destruct (_ || _).
Qed.
Lemma label_columns : label_tags t = ["id"; "key"; "val"; "created_at"; "updated_at"; ReferenceColumn t].
Proof.
  destruct (reference_column (t := t)) as [Hr Ha]. unfold label_tags, getDBTags, label_fields, isAutoIncrementable. simpl.
  unfold isAutoIncrementable. rewrite Ha, orb_false_r.
  destruct (String.eqb_spec (ReferenceColumn t) "-"); [exfalso; apply Hr; set_solver|].
  destruct (String.eqb_spec (ReferenceColumn t) ""); [exfalso; apply Hr; set_solver|]. done.
Qed.
Definition removal (id : string) (kv : string * list string) : list atom :=
  Equals "key" kv.1 :: Equals (ReferenceColumn t) id :: match kv.2 with [] => [] | _ => [OneOf "val" kv.2] end.
Lemma delete_query_text id removed :
  deleteLabelsQuery t id removed = (delete_text (LabelsTableName t) (map (removal id) removed), delete_args (map (removal id) removed)).
Proof.
  unfold deleteLabelsQuery, delete_text, delete_args. f_equal.
  - do 4 f_equal. rewrite map_map, map_map. apply map_ext. intros [k vs]. destruct vs; unfold conjunction_text; simpl;
      by rewrite ?Strings.app_assoc.
  - induction removed as [|[k [|v vs]] removed IH]; simpl; [done|by rewrite IH..].
Qed.
Lemma removal_list id removed : has_list (map (removal id) removed) = isExpansionRequired removed.
Proof.
  induction removed as [|[k vs] removed IH]; [done|]. simpl. unfold isExpansionRequired in IH. rewrite IH. by destruct vs.
Qed.
Lemma removal_well_formed id removed : removed <> [] -> well_formed t (map (removal id) removed).
Proof.
  intros Hn. split; [by destruct removed|]. intros c ([k vs] & -> & _)%list_elem_of_fmap. split; [done|].
  intros a Ha. destruct vs; set_solver.
Qed.
Lemma removal_selected id removed r : selected t (map (removal id) removed) r <-> row_matches id removed r.
Proof.
  destruct (reference_column (t := t)) as [Hr _].
  assert (Hc : cell t r (ReferenceColumn t) = r.1.1).
  { unfold cell. destruct (String.eqb_spec (ReferenceColumn t) "key"); [exfalso; apply Hr; set_solver|].
    destruct (String.eqb_spec (ReferenceColumn t) "val"); [exfalso; apply Hr; set_solver|]. by rewrite String.eqb_refl. }
  unfold selected, row_matches. split.
  - intros (c & ([k vs] & -> & Hin)%list_elem_of_fmap & Hall). exists k, vs. split; [done|].
    pose proof (Hall (Equals "key" k) ltac:(left)) as Hk. pose proof (Hall (Equals (ReferenceColumn t) id) ltac:(right; left)) as Hi.
    simpl in Hk, Hi. unfold cell in Hk. simpl in Hk. rewrite Hc in Hi. split; [by rewrite <- Hk, <- Hi; destruct r as [[? ?] ?]|].
    destruct vs as [|v vs]; [by left|right]. apply (Hall (OneOf "val" (v :: vs))). right. right. left.
  - intros (k & vs & Hin & Hr1 & Hv). exists (removal id (k, vs)). split; [by apply list_elem_of_fmap_2|].
    assert (Hbase : forall a, a ∈ [Equals "key" k; Equals (ReferenceColumn t) id] -> atom_true t r a).
    { intros a [->|[->|Ha]%elem_of_cons]%elem_of_cons; simpl; [by unfold cell; simpl; rewrite Hr1|by rewrite Hc, Hr1|by inversion Ha]. }
    intros a [->|[->|Ha]%elem_of_cons]%elem_of_cons; [apply Hbase; left|apply Hbase; right; left|].
    destruct vs as [|v vs]; [by inversion Ha|]. apply list_elem_of_singleton in Ha as ->. destruct Hv as [[=]|Hv]. exact Hv.
Qed.

(** The rows are sent in batches, none of them empty. *)
Lemma insert_batches_outcome maxRows n : forall ls w, length ls <= n -> 0 < maxRows ->
  outcome (fun _ w' => forall r, held w' r <-> held w r \/ exists l, l ∈ ls /\ r = row_of l)
    (insert_batches n maxRows (insertQuery (LabelsTableName t) (label_tags t) "ON CONFLICT DO NOTHING;") ls w).
Proof.
  induction n as [|n IH]; intros ls w Hn Hm; (destruct ls as [|l ls]; [simpl; intros r; split; [by left|];
    intros [?|(l & ?%elem_of_nil & _)]; done|]); [simpl in Hn; lia|].
  cbn [insert_batches]. set (rows := Nat.min (length (l :: ls)) maxRows). assert (Hrows : 0 < rows) by (unfold rows; cbn [length]; lia).
  eapply (run_bind (fun _ w' => forall r, held w' r <-> held w r \/ exists x, x ∈ take rows (l :: ls) /\ r = row_of x)).
  - unfold c_wrap. pose proof (insert_holds w (label_tags t) (take rows (l :: ls))) as Hi. rewrite <- insert_query_text in Hi.
    specialize (Hi ltac:(rewrite label_columns; set_solver) ltac:(rewrite label_columns; set_solver)). destruct (NamedExecLabels _ _ w) as [w1 [u|e|]] eqn:E; simpl;
      [done| |done]. right. left. eauto 10.
  - intros _ w1 Hw1. eapply run_weaken; [|apply IH; [rewrite length_drop; cbn [length] in *; lia|done]]. intros u w2 Hw2 r.
    rewrite (Hw2 r), (Hw1 r). assert (Hsplit : forall x, x ∈ l :: ls <-> x ∈ take rows (l :: ls) \/ x ∈ drop rows (l :: ls)).
    { intros x. rewrite <- elem_of_app. by rewrite take_drop. }
    setoid_rewrite Hsplit. naive_solver.
Qed.
Lemma label_tags_length : 0 < length (label_tags t) <= 6.
Proof. unfold label_tags, getDBTags, label_fields. simpl. destruct (String.eqb _ _ || isAutoIncrementable _); simpl; lia. Qed.
Lemma createLabels_outcome ls w : NoDup (map (fun l => (GetKey l, GetValue l)) ls) ->
  outcome (fun _ w' => forall r, held w' r <-> held w r \/ exists l, l ∈ ls /\ r = row_of l) (createLabels t ls w).
Proof.
  intros Hnd. unfold createLabels. destruct ls as [|l ls]; [simpl; intros r; split; [by left|]; intros [?|(l & ?%elem_of_nil & _)]; done|].
  apply validateLabels_iff in Hnd. set (all := l :: ls) in *.
  eapply (run_bind (fun _ w' => w' = w)); [by unfold c_lift; destruct (validateLabels all) as [[]| |]|]. intros _ w1 ->.
  pose proof label_tags_length as Hlen. fold (label_tags t). destruct (label_tags t) as [|tag tags] eqn:Et; [simpl in Hlen; lia|].
  rewrite <- Et in *. apply insert_batches_outcome; [done|]. apply Nat.div_str_pos. unfold maxParams. lia.
Qed.
Lemma deleteLabels_outcome id m w :
  outcome (fun _ w' => forall r, held w' r <-> held w r /\ ~ row_matches id (map_to_list m) r) (deleteLabels t id m w).
Proof.
  unfold deleteLabels. destruct (map_to_list m) as [|kv removed] eqn:Em.
  { simpl. intros r. split; [|by intros [? _]]. intros Hr. split; [done|]. by intros (k & vs & ?%elem_of_nil & _). }
  set (all := kv :: removed). eapply run_bind; [apply (provideLabel_outcome id "" "")|]. intros l w1 [_ Hw1]. cbv beta.
  rewrite delete_query_text. set (q := delete_text _ _). set (args := delete_args _). eapply (run_bind (fun qa w' => w' = w1 /\
    (if isExpansionRequired all then sqlx_In q args else Ok (q, args)) = Ok qa)).
  - unfold c_lift. pose proof (expanded q args) as He. destruct (isExpansionRequired all); [|done].
    destruct (sqlx_In q args) as [qa|e|] eqn:Ei; simpl; [done| |done]. right. right. left. eauto.
  - intros [q' args'] w2 [-> Eqa]. pose proof (delete_holds w1 (map (removal id) all) q' args') as Hd.
    rewrite removal_list in Hd. specialize (Hd ltac:(by apply removal_well_formed) Eqa).
    unfold c_bind. destruct (ExecContext (Rebind q') args' w1) as [w3 [n|e|]] eqn:Ee; simpl; [|right; right; right; eauto 10|done].
    intros r. by rewrite (Hd r), (Hw1 r), removal_selected.
Qed.

Lemma labels_pairs id ls kvs : Forall2 (label_for id) ls kvs -> map (fun l => (GetKey l, GetValue l)) ls = kvs.
Proof.
  induction 1 as [|l [k v] ls kvs (E1 & E2 & _) _ IH]; [done|]. simpl. rewrite IH. unfold GetKey, GetValue. by rewrite E1, E2.
Qed.
Lemma elem_of_pairs m k v : (k, v) ∈ pairs_of (map_to_list m) <-> has_value m k v.
Proof.
  unfold pairs_of, has_value. rewrite list_elem_of_In, in_flat_map. split.
  - intros ([k' vs] & Hkv%list_elem_of_In & (v' & [= <- <-] & Hv%list_elem_of_In)%in_map_iff). apply elem_of_map_to_list in Hkv.
    simpl in Hv. by rewrite Hkv.
  - destruct (m !! k) as [vs|] eqn:E; simpl; [|by intros ?%elem_of_nil]. intros Hv. exists (k, vs).
    split; [by apply list_elem_of_In, elem_of_map_to_list|]. apply in_map_iff. exists v. split; [done|]. by apply list_elem_of_In.
Qed.
Lemma NoDup_pairs (l : list (string * list string)) : NoDup l.*1 -> Forall (fun kvs => NoDup kvs.2) l -> NoDup (pairs_of l).
Proof.
  induction l as [|[k vs] l IH]; intros Hk Hv; [constructor|]. apply NoDup_cons in Hk as [Hk Hks]. apply Forall_cons in Hv as [Hv Hvs].
  simpl. apply NoDup_app. split; [by apply NoDup_fmap; [intros ?? [=]|]|]. split; [|by apply IH].
  intros x (v & -> & _)%list_elem_of_fmap Hx. apply Hk. unfold pairs_of in Hx. apply list_elem_of_In, in_flat_map in Hx as ([k' vs'] & Hin & Hx).
  apply in_map_iff in Hx as (v' & [= <- _] & _). apply list_elem_of_In in Hin. by apply list_elem_of_fmap; exists (k', vs').
Qed.
Lemma column_inj s s' : column (toNullString s) = column (toNullString s') -> s = s'.
Proof. unfold column, toNullString. simpl. destruct (String.eqb_spec s ""), (String.eqb_spec s' ""); simpl; congruence. Qed.
Lemma column_some s s' : column (toNullString s) = Some s' <-> s = s' /\ s <> "".
Proof. unfold column, toNullString. simpl. destruct (String.eqb_spec s ""); simpl; naive_solver. Qed.

(** The rows the statements leave behind: additions come first, then removals. *)
Lemma updateLabels_rows id changes w : let p := foldl plan_change no_plan changes in
  (forall k, NoDup (default [] (p_add p !! k))) ->
  outcome (fun _ w' => forall r, held w' r <->
      (held w r \/ exists k v, has_value (p_add p) k v /\ r = row_for id k v) /\ ~ row_matches id (map_to_list (p_remove p)) r)
    (updateLabels t id changes w).
Proof.
  intros p Hnd. destruct (Apply_plan ∅ changes) as (st & Est & Ea & Er).
  unfold updateLabels. eapply (run_bind (fun st' w' => st' = st /\ w' = w)); [unfold c_lift; by rewrite Est|]. intros st' w0 [-> ->].
  rewrite Ea, Er. fold p. eapply run_bind; [apply (provide_labels_outcome id (p_add p))|]. intros ls w1 [Hls Hw1].
  eapply run_bind; [apply (createLabels_outcome ls w1)|].
  { rewrite (labels_pairs _ _ _ Hls). apply NoDup_pairs; [apply NoDup_fst_map_to_list|]. apply Forall_forall. intros [k vs] Hk.
    apply elem_of_map_to_list in Hk. simpl. specialize (Hnd k). by rewrite Hk in Hnd. }
  intros u w2 Hw2. eapply run_weaken; [|apply deleteLabels_outcome]. intros u' w3 Hw3 r. rewrite (Hw3 r), (Hw2 r), (Hw1 r).
  assert (Hrow : (exists l, l ∈ ls /\ r = row_of l) <-> exists k v, has_value (p_add p) k v /\ r = row_for id k v).
  { setoid_rewrite <- elem_of_pairs. split.
    - intros (l & [i Hi]%list_elem_of_lookup_1 & ->). destruct (Forall2_lookup_l _ _ _ _ _ Hls Hi) as ([k v] & Hkv & Hl).
      exists k, v. split; [by eapply list_elem_of_lookup_2|by apply label_for_row in Hl].
    - intros (k & v & [i Hi]%list_elem_of_lookup_1 & ->). destruct (Forall2_lookup_r _ _ _ _ _ Hls Hi) as (l & Hl & Hf).
      exists l. split; [by eapply list_elem_of_lookup_2|by apply label_for_row in Hf]. }
  by rewrite Hrow.
Qed.
Lemma updateLabels_outcome id changes w : settled changes = true ->
  outcome (fun _ w' => forall r, held w' r <->
      (held w r \/ exists k v, (exists c, c ∈ changes /\ effect c k v = Some true) /\ r = row_for id k v) /\
      ~ row_matches id (map_to_list (p_remove (foldl plan_change no_plan changes))) r) (updateLabels t id changes w).
Proof.
  intros Hp%plan_changes. eapply run_weaken; [|apply updateLabels_rows; exact (po_nodup _ _ Hp)].
  intros u w' Hw' r. rewrite (Hw' r). by setoid_rewrite (po_add _ _ Hp).
Qed.
Definition removable (c : LabelChange) : Prop := lc_Key c <> "" /\ (is_removal c = true -> "" ∉ lc_Values c).
Lemma matches_removal id changes k v : id <> "" -> settled changes = true -> Forall removable changes ->
  row_matches id (map_to_list (p_remove (foldl plan_change no_plan changes))) (row_for id k v) <->
  exists c, c ∈ changes /\ effect c k v = Some false.
Proof.
  intros Hid Hs Hr. pose proof (plan_changes changes Hs) as Hp. set (p := foldl plan_change no_plan changes) in *.
  rewrite <- (po_remove _ _ Hp). unfold row_matches, planned_removal, row_for. simpl. split.
  - intros (k' & vs & Hk%elem_of_map_to_list & [= _ [<- _]%column_some] & Hv). exists vs. split; [done|].
    destruct Hv as [->|(v' & Hv & [<- _]%column_some)]; auto.
  - intros (vs & Hk & Hv).
    assert (Hc : exists c, c ∈ changes /\ effect c k v = Some false) by (apply (po_remove _ _ Hp); by exists vs).
    destruct Hc as (c & Hc & (Hrm & <- & Hcv)%effect_remove). rewrite Forall_forall in Hr.
    destruct (Hr c Hc) as [Hne Hemp]. exists (lc_Key c), vs.
    split; [by apply elem_of_map_to_list|]. split; [f_equal; by apply column_some|]. destruct Hv as [->|Hv]; [by left|].
    destruct (decide (v = "")) as [->|Hve]; [|right; exists v; split; [done|by apply column_some]].
    destruct Hcv as [Hnil|Hin]; [|by destruct (Hemp Hrm)]. left. set (x := fresh (list_to_set vs : gset string)).
    assert (Hx : planned_removal p (lc_Key c) x) by (apply (po_remove _ _ Hp); exists c; split; [done|]; apply effect_remove; auto).
    destruct Hx as (vs' & E & [->|Hx]); [by rewrite Hk in E; injection E|]. rewrite Hk in E. injection E as <-.
    exfalso. apply (is_fresh (list_to_set vs : gset string)). by apply elem_of_list_to_set.
Qed.
End LabelTables.

(** ** Where the table and the labels in memory part *)
Definition change_of (op : LabelOperation) (k : string) (vs : list string) : LabelChange :=
  {| lc_Operation := op; lc_Key := k; lc_Values := vs |}.
(** A value that is removed and added again by one list of changes is a label in memory, but the
    statements add it first and delete it then. *)
Theorem readded_label_is_lost {A} `{LabelTable A t} `{GrowPolicy} id k v w : id <> "" -> k <> "" -> v <> "" ->
  let changes := [change_of RemoveLabelValuesOperation k [v]; change_of AddLabelValuesOperation k [v]] in
  (forall m, has_value (foldl spec_change m changes) k v) /\
  outcome (fun _ w' => ~ held w' (row_for id k v)) (updateLabels t id changes w).
Proof.
  intros Hid Hk Hv changes. split.
  { intros m. apply has_value_changes. unfold last_effect, effect. simpl. rewrite decide_True, !decide_True; [done|..]; set_solver. }
  assert (Hp : foldl plan_change no_plan changes = {| p_merged := {[ k := [v] ]}; p_add := {[ k := [v] ]}; p_remove := {[ k := [v] ]} |}).
  { unfold changes, plan_change, change_of, added_values, no_plan, spec_change, spec_remove, plan_add, spec_add. simpl.
    rewrite lookup_empty. simpl. done. }
  eapply run_weaken; [|apply updateLabels_rows; rewrite Hp; simpl; intros k'].
  - intros u w' Hw' Hh. apply Hw' in Hh as [_ Hn]. apply Hn. rewrite Hp. cbn [p_remove]. rewrite map_to_list_singleton. exists k, [v].
    split; [by apply list_elem_of_singleton|]. split; [unfold row_for; simpl; f_equal; by apply column_some|].
    right. exists v. split; [by apply list_elem_of_singleton|]. unfold row_for. simpl. by apply column_some.
  - destruct (decide (k' = k)) as [->|Hne]; [rewrite lookup_singleton_eq|rewrite lookup_singleton_ne by done]; simpl;
      [apply NoDup_singleton|constructor].
Qed.
(** The empty value is stored as NULL, which the condition on the values never matches. *)
Theorem empty_value_is_kept {A} `{LabelTable A t} `{GrowPolicy} id k w : held w (row_for id k "") ->
  (forall m, ~ has_value (spec_change m (change_of RemoveLabelValuesOperation k [""])) k "") /\
  outcome (fun _ w' => held w' (row_for id k "")) (updateLabels t id [change_of RemoveLabelValuesOperation k [""]] w).
Proof.
  intros Hh. split.
  { intros m Hm. apply has_value_change in Hm.
    assert (He : effect (change_of RemoveLabelValuesOperation k [""]) k "" = Some false) by (apply effect_remove; simpl; set_solver).
    by rewrite He in Hm. }
  eapply run_weaken; [|by apply updateLabels_outcome]. intros u w' Hw'. apply Hw'. split; [by left|].
  assert (Hp : p_remove (foldl plan_change no_plan [change_of RemoveLabelValuesOperation k [""]]) = {[ k := [""] ]}) by done.
  rewrite Hp, map_to_list_singleton. intros (k' & vs & [= -> ->]%list_elem_of_singleton & _ & [?|(v & ->%list_elem_of_singleton & Hc)]); done.
Qed.

(** ** Rows and the objects they are read as *)
Definition values_of (k : string) (kvs : list (string * string)) : list string := (filter (fun kv => kv.1 = k) kvs).*2.
Definition group_labels (ls : gmap string (list string)) (kvs : list (string * string)) : gmap string (list string) :=
  foldl (fun ls kv => <[kv.1 := (default [] (ls !! kv.1) ++ [kv.2])%list]> ls) ls kvs.
Lemma values_of_cons k k' v kvs : values_of k ((k', v) :: kvs) = if decide (k' = k) then v :: values_of k kvs else values_of k kvs.
Proof. unfold values_of. rewrite filter_cons. simpl. by case_decide. Qed.
Lemma group_lookup kvs k : forall ls, group_labels ls kvs !! k =
  if decide (values_of k kvs = []) then ls !! k else Some (default [] (ls !! k) ++ values_of k kvs)%list.
Proof.
  induction kvs as [|[k' v] kvs IH]; intros ls; [done|]. rewrite values_of_cons.
  change (group_labels ls ((k', v) :: kvs)) with (group_labels (<[k' := (default [] (ls !! k') ++ [v])%list]> ls) kvs). rewrite IH.
  destruct (decide (k' = k)) as [->|Hne]; [|by rewrite lookup_insert_ne].
  rewrite lookup_insert_eq, (decide_False (P := v :: values_of k kvs = [])) by done. simpl.
  destruct (decide (values_of k kvs = [])) as [->|]; [done|]. by rewrite <- app_assoc.
Qed.
Lemma values_of_app k l1 l2 : values_of k (l1 ++ l2) = (values_of k l1 ++ values_of k l2)%list.
Proof. unfold values_of. by rewrite filter_app, fmap_app. Qed.
Lemma values_of_key k k' vs : values_of k (map (pair k') vs) = if decide (k' = k) then vs else [].
Proof.
  induction vs as [|v vs IH]; [by case_decide|]. cbn [map]. rewrite values_of_cons, IH. by case_decide.
Qed.
Lemma values_of_none k (l : list (string * list string)) : k ∉ l.*1 -> values_of k (pairs_of l) = [].
Proof.
  induction l as [|[k' vs] l IH]; [done|]. simpl. rewrite not_elem_of_cons. intros [Hne Hk].
  rewrite values_of_app, values_of_key, decide_False, IH; done.
Qed.
Lemma values_of_pairs k vs (l : list (string * list string)) : NoDup l.*1 -> (k, vs) ∈ l -> values_of k (pairs_of l) = vs.
Proof.
  induction l as [|[k' vs'] l IH]; [by intros _ ?%elem_of_nil|]. simpl. rewrite NoDup_cons. intros [Hk Hnd] [[= -> ->]|Hin]%elem_of_cons.
  - by rewrite values_of_app, values_of_key, decide_True, values_of_none, app_nil_r.
  - rewrite values_of_app, values_of_key, decide_False, IH; [done..|]. intros ->. apply Hk, list_elem_of_fmap. by exists (k, vs).
Qed.
Lemma values_of_map k (m : gmap string (list string)) : values_of k (pairs_of (map_to_list m)) = default [] (m !! k).
Proof.
  destruct (m !! k) as [vs|] eqn:Em; simpl.
  - apply values_of_pairs; [apply NoDup_fst_map_to_list|by apply elem_of_map_to_list].
  - apply values_of_none. intros ([k' vs] & -> & Hin%elem_of_map_to_list)%list_elem_of_fmap. simpl in Em. by rewrite Em in Hin.
Qed.
(** Labels with the same values under each key, in any order. *)
Definition same_labels (ls ls' : gmap string (list string)) : Prop := forall k, option_Forall2 (≡ₚ) (ls !! k) (ls' !! k).
Lemma grouped_labels m kvs : map_Forall (fun _ vs => vs <> []) m -> kvs ≡ₚ pairs_of (map_to_list m) -> same_labels (group_labels ∅ kvs) m.
Proof.
  intros Hne Hp k. rewrite group_lookup, lookup_empty. simpl.
  assert (Hv : values_of k kvs ≡ₚ default [] (m !! k)) by (rewrite <- values_of_map; unfold values_of; by rewrite Hp).
  destruct (m !! k) as [vs|] eqn:Em; simpl in Hv.
  - rewrite decide_False; [by constructor|]. intros E. rewrite E in Hv. apply (Hne k vs Em). by apply Permutation_nil.
  - symmetry in Hv. apply Permutation_nil in Hv. rewrite Hv. constructor.
Qed.

Section ReadBack.
Context `{EntityLaws A} (row_id : entity -> string).
Context (row_id_law : forall o e, FromObject o = Ok e -> row_id e = GetID o).
(** The rows of the join for one entity: one per label, or one without. *)
Definition rows_for (e : entity) (kvs : list (string * string)) : list (result (entity * (string * string))) :=
  match kvs with [] => [Ok (e, ("", ""))] | _ => map (fun kv => Ok (e, kv)) kvs end.
Definition labels_at (st : row_state (A := A)) (id : string) : gmap string (list string) := default ∅ (rs_labels st !! id).
Lemma known_rows (e : entity) (u : A) id kvs : row_id e = id -> GetID u = id -> Forall (fun kv => kv.1 <> "") kvs -> forall st,
  rs_entities st !! id = Some u ->
  exists st', fold_result (row_step row_id) st (map (fun kv => Ok (e, kv)) kvs) = Ok st' /\ rs_entities st' = rs_entities st /\
    rs_result st' = rs_result st /\ forall id', labels_at st' id' = if decide (id' = id) then group_labels (labels_at st id) kvs else labels_at st id'.
Proof.
  intros He Hu. induction 1 as [|[k v] kvs Hk _ IH]; intros st Hst; simpl.
  - exists st. split; [done|]. split; [done|]. split; [done|]. intros id'. by case_decide; subst.
  - rewrite He, Hst. simpl in *. destruct (String.eqb_spec k ""); [done|]. simpl. rewrite Hu. fold (labels_at st id).
    set (st1 := {| rs_entities := rs_entities st |}). destruct (IH st1 Hst) as (st' & E & H1 & H2 & H3). exists st'.
    split; [exact E|]. split; [done|]. split; [done|]. intros id'. rewrite (H3 id'). unfold st1, labels_at. simpl. case_decide as Hid.
    + by rewrite lookup_insert_eq.
    + by rewrite lookup_insert_ne.
Qed.
(** What the rows of one new object do. *)
Lemma new_rows (e : entity) (u : A) id kvs st : row_id e = id -> GetID u = id -> ToObject e = Ok u -> Forall (fun kv => kv.1 <> "") kvs ->
  rs_entities st !! id = None -> labels_at st id = ∅ ->
  exists st', fold_result (row_step row_id) st (rows_for e kvs) = Ok st' /\ rs_entities st' = <[id := u]> (rs_entities st) /\
    rs_result st' = (rs_result st ++ [u])%list /\
    forall id', labels_at st' id' = if decide (id' = id) then group_labels ∅ kvs else labels_at st id'.
Proof.
  intros He Hu Ho Hk Hn Hl. set (st1 := {| rs_entities := <[id := u]> (rs_entities st); rs_labels := rs_labels st; rs_result := (rs_result st ++ [u])%list |}).
  assert (Hfirst : forall k v, row_step row_id st (Ok (e, (k, v))) = row_step row_id st1 (Ok (e, (k, v)))).
  { intros k v. unfold row_step. simpl. rewrite He, Hn, Ho, lookup_insert_eq. simpl. reflexivity. }
  assert (Hst1 : rs_entities st1 !! id = Some u) by apply lookup_insert_eq.
  destruct kvs as [|[k v] kvs].
  - assert (Hrun : row_step row_id st1 (Ok (e, ("", ""))) = Ok st1) by (unfold row_step; simpl; rewrite He, lookup_insert_eq; done).
    unfold rows_for. cbn [fold_result]. rewrite Hfirst, Hrun. exists st1. split; [done|].
    split; [done|]. split; [done|]. intros id'. case_decide as E; [by subst id'|done].
  - destruct (known_rows e u id ((k, v) :: kvs) He Hu Hk st1 Hst1) as (st' & E & H1 & H2 & H3). exists st'. split; [|split; [done|split; [done|]]].
    + rewrite <- E. unfold rows_for. cbn [map fold_result]. by rewrite Hfirst.
    + intros id'. rewrite (H3 id'). case_decide; [|done]. by change (labels_at st1 id) with (labels_at st id); rewrite Hl.
Qed.
(** An object with the row of its table and the label rows joined to it, in any order. *)
Record stored_as (x : A * (entity * list (string * string))) : Prop := {
  sa_storable : storable x.1;
  sa_row : FromObject (table_part x.1) = Ok x.2.1;
  sa_labels : map_Forall (fun k vs => k <> "" /\ vs <> []) (base_Labels (object_base x.1));
  sa_rows : x.2.2 ≡ₚ pairs_of (map_to_list (base_Labels (object_base x.1)))
}.
Lemma unlabelled_id o : GetID (unlabelled o) = GetID o.
Proof. unfold GetID, unlabelled. by rewrite base_set. Qed.
Lemma part_id o : GetID (unlabelled (table_part o)) = GetID o.
Proof. rewrite unlabelled_id. unfold GetID. by rewrite part_base. Qed.
Lemma stored_keys x : stored_as x -> Forall (fun kv => kv.1 <> "") x.2.2.
Proof.
  intros Hx. rewrite (sa_rows _ Hx). apply Forall_forall. intros [k v] Hkv%elem_of_pairs. unfold has_value in Hkv.
  destruct (base_Labels (object_base x.1) !! k) as [vs|] eqn:E; [|by apply elem_of_nil in Hkv]. by destruct (sa_labels _ Hx k vs E).
Qed.
Definition joined (l : list (A * (entity * list (string * string)))) : list (result (entity * (string * string))) :=
  concat (map (fun x => rows_for x.2.1 x.2.2) l).
Lemma joined_rows l : Forall stored_as l -> NoDup (map (fun x => GetID x.1) l) -> forall st,
  (forall x, x ∈ l -> rs_entities st !! GetID x.1 = None /\ labels_at st (GetID x.1) = ∅) ->
  exists st', fold_result (row_step row_id) st (joined l) = Ok st' /\
    rs_result st' = (rs_result st ++ map (fun x => unlabelled (table_part x.1)) l)%list /\
    (forall x, x ∈ l -> labels_at st' (GetID x.1) = group_labels ∅ x.2.2) /\
    (forall id, id ∉ map (fun x => GetID x.1) l -> labels_at st' id = labels_at st id).
Proof.
  induction 1 as [|[o [e kvs]] l Hx _ IH]; intros Hnd st Hst.
  { exists st. rewrite app_nil_r. split; [done|]. split; [done|]. by split; [intros x ?%elem_of_nil|]. }
  cbn [map] in Hnd. apply NoDup_cons in Hnd as [Hni Hnd]. destruct (Hst (o, (e, kvs))) as [Hn Hl]; [by apply list_elem_of_here|].
  pose proof (row_id_law _ _ (sa_row _ Hx)) as Hid. rewrite <- unlabelled_id, part_id in Hid. destruct (round_trip (table_part o) (part_storable_law o (sa_storable _ Hx))) as (e' & Ee & Eo).
  pose proof (sa_row _ Hx) as Er. simpl in Er, Hid, Hn, Hl. rewrite Ee in Er. injection Er as ->.
  destruct (new_rows e (unlabelled (table_part o)) (GetID o) kvs st Hid (part_id o) Eo (stored_keys _ Hx) Hn Hl) as (st1 & E1 & H1 & H2 & H3).
  destruct (IH Hnd st1) as (st2 & E2 & G1 & G2 & G3).
  { intros x Hx'. assert (Hne : GetID x.1 <> GetID o) by (intros E; apply Hni; simpl; rewrite <- E; by apply (list_elem_of_fmap_2 (fun x => GetID x.1))).
    rewrite H1, lookup_insert_ne by done. rewrite (H3 (GetID x.1)), decide_False by done. apply Hst. by apply list_elem_of_further. }
  exists st2. split; [|split; [|split]].
  - unfold joined. cbn [map concat]. rewrite fold_result_app. simpl. rewrite E1. exact E2.
  - rewrite G1, H2, <- app_assoc. done.
  - intros x [-> |Hx']%elem_of_cons; [|by apply G2]. simpl in *. by rewrite (G3 _ Hni), (H3 (GetID o)), decide_True.
  - cbn [map]. intros id [Hne Hid']%not_elem_of_cons. simpl in Hne. by rewrite (G3 _ Hid'), (H3 id), decide_False.
Qed.
End ReadBack.

(** ** The claims *)

(** C35: when no change of a key follows a removal from it, no key is empty and no removal names the
    empty value, updateLabels leaves in the table of labels of the object exactly the labels that
    [ApplyLabelChangesToLabels] computes in memory from the stored ones, and the rows of other
    objects as they were; it fails only with an error of the database, of the expansion of its
    lists or of the generator of ids, never for a duplicate label. *)
Theorem stored_labels_follow_changes {A} `{LabelTable A t} `{GrowPolicy} id changes h labels w :
  id <> "" -> settled changes = true -> Forall removable changes -> wf_labels h labels ->
  (forall k v, has_value (contents h labels) k v <-> held w (row_for id k v)) ->
  exists st, ApplyLabelChangesToLabels h changes labels = Ok st /\
    outcome (fun _ w' => (forall k v, has_value (contents (heap st) (mergedLabels st)) k v <-> held w' (row_for id k v)) /\
      forall r, r.1.1 <> Some id -> held w' r <-> held w r) (updateLabels t id changes w).
Proof.
  intros Hid Hs Hr Hwf Hsame. destruct (Apply_spec h labels changes Hwf) as (st & Est & Hm & _). exists st. split; [done|].
  eapply run_weaken; [|by apply updateLabels_outcome]. intros u w' Hw'. cbv beta in Hw'. split.
  - intros k v. rewrite Hm, has_value_changes, last_effect_settled, (Hw' (row_for id k v)), matches_removal by done.
    assert (Hadd : (exists k' v', (exists c, c ∈ changes /\ effect c k' v' = Some true) /\ row_for id k v = row_for id k' v') <->
      Exists (fun c => effect c k v = Some true) changes).
    { rewrite Exists_exists. split; [|naive_solver]. by intros (k' & v' & Hc & [= <-%column_inj <-%column_inj]). }
    rewrite Hadd, <- Exists_exists. specialize (Hsame k v). repeat case_decide; naive_solver.
  - intros r Hne. rewrite Hw'. split.
    + intros [[?|(k & v & _ & ->)] _]; [done|]. destruct Hne. by apply column_some.
    + intros Hh. split; [by left|]. intros (k & vs & _ & E & _). by rewrite E in Hne.
Qed.

(** C36: objects that are stored as rows of a table and label rows come back from rowsToList: for
    objects with distinct ids that the table can hold, whose labels have no empty key and no key
    without values, reading the join of their rows, one per label in any order and one for an object
    without labels, gives the objects in the same order, each once, with every field that is in
    the table (the services of a broker and the plans of an offering are not, [table_part]) and with
    the same labels up to the order of the values of a key. *)
Theorem rows_read_back `{EntityLaws A} row_id l err :
  (forall o e, FromObject o = Ok e -> row_id e = GetID o) -> Forall stored_as l -> NoDup (map (fun x => GetID x.1) l) ->
  exists os, rowsToList row_id {| scanned := joined l; rows_Err := err |} = Ok os /\
    Forall2 (fun x o' => exists ls, o' = set_labels ls (unlabelled (table_part x.1)) /\ same_labels ls (base_Labels (object_base x.1))) l os.
Proof.
  intros Hid Hl Hnd.
  destruct (joined_rows row_id Hid l Hl Hnd {| rs_entities := ∅; rs_labels := ∅; rs_result := [] |}) as (st & E & H1 & H2 & _); [done|].
  unfold rowsToList. cbn [scanned]. rewrite E. simpl. eexists. split; [reflexivity|]. rewrite H1. simpl. rewrite List.map_map.
  clear E H1 Hnd. induction Hl as [|x l Hx Hl IH]; [constructor|]. cbn [map]. constructor.
  - eexists. split; [reflexivity|]. rewrite part_id. fold (labels_at st (GetID x.1)). rewrite (H2 x) by apply list_elem_of_here.
    apply grouped_labels; [|exact (sa_rows _ Hx)]. intros k vs Hk. by destruct (sa_labels _ Hx k vs Hk).
  - apply IH. intros y Hy. apply H2. by apply list_elem_of_further.
Qed.

(** ** A database of label rows *)
Module ToyTable.
(** The text of a DELETE statement is read token by token, and each row is checked against it. *)
Inductive colname := KeyCol | ValCol | RefCol.
Inductive tok := TOpen | TClose | TAnd | TOr | TCompare (c : colname) | TMember (c : colname).
Definition visibility_labels : labelEntity := {| LabelsTableName := "visibility_labels"; ReferenceColumn := "visibility_id" |}.
Definition col_text (c : colname) : string := match c with KeyCol => "key" | ValCol => "val" | RefCol => "visibility_id" end.
Definition tok_text (t : tok) : string :=
  match t with
  | TOpen => "(" | TClose => ")" | TAnd => " AND " | TOr => " OR "
  | TCompare c => col_text c ++ "=?" | TMember c => col_text c ++ " IN (?)"
  end.
Fixpoint strip (p s : string) : option string :=
  match p, s with
  | EmptyString, s => Some s
  | String a p', String b s' => if Ascii.eqb a b then strip p' s' else None
  | _, _ => None
  end.
Fixpoint next_tok (ts : list tok) (s : string) : option (tok * string) :=
  match ts with
  | [] => None
  | t :: ts' => match strip (tok_text t) s with Some rest => Some (t, rest) | None => next_tok ts' s end
  end.
Definition all_toks : list tok :=
  [TOpen; TClose; TAnd; TOr; TCompare KeyCol; TCompare ValCol; TCompare RefCol; TMember KeyCol; TMember ValCol; TMember RefCol].
Fixpoint toks (n : nat) (s : string) : list tok :=
  match n with
  | 0 => []
  | S n => match next_tok all_toks s with Some (t, rest) => t :: toks n rest | None => [] end
  end.
Definition col_cell (r : label_row) (c : colname) : option string := match c with KeyCol => r.1.2 | ValCol => r.2 | RefCol => r.1.1 end.
Definition compared (v : option string) (a : param) : bool :=
  match a with
  | PText x => bool_decide (v = Some x)
  | PList xs => existsb (fun x => bool_decide (v = Some x)) xs
  end.
Fixpoint eval_toks (r : label_row) (ts : list tok) (args : list param) (conj disj : bool) : bool :=
  match ts with
  | [] => disj
  | TOpen :: ts => eval_toks r ts args true disj
  | TClose :: ts => eval_toks r ts args conj (disj || conj)
  | (TAnd | TOr) :: ts => eval_toks r ts args conj disj
  | (TCompare c | TMember c) :: ts =>
      match args with [] => false | a :: args => eval_toks r ts args (conj && compared (col_cell r c) a) disj end
  end.
Definition exec_delete (q : string) (args : list param) (w : list label_row) : list label_row :=
  match strip "DELETE FROM visibility_labels WHERE " q with
  | Some cond => List.filter (fun r => negb (eval_toks r (toks (String.length cond) cond) args false false)) w
  | None => w
  end.

Definition toks_text (ts : list tok) : string := foldr (fun t s => tok_text t ++ s) "" ts.
Lemma next_tok_text t s : next_tok all_toks (tok_text t ++ s) = Some (t, s).
Proof. by destruct t as [| | | |[]|[]]. Qed.
Lemma toks_read ts : forall n, length ts <= n -> toks n (toks_text ts) = ts.
Proof.
  induction ts as [|t ts IH]; intros [|n] Hn; [done|done|simpl in Hn; lia|].
  change (toks_text (t :: ts)) with (tok_text t ++ toks_text ts). cbn [toks]. rewrite next_tok_text. f_equal. apply IH.
  simpl in Hn. lia.
Qed.
Lemma text_length a b : String.length (a ++ b) = String.length a + String.length b.
Proof. induction a as [|c a IH]; [done|]. change (String c a ++ b) with (String c (a ++ b)). simpl. by rewrite IH. Qed.
Lemma toks_long ts : length ts <= String.length (toks_text ts).
Proof.
  induction ts as [|t ts IH]; [simpl; lia|]. change (toks_text (t :: ts)) with (tok_text t ++ toks_text ts).
  rewrite text_length. assert (1 <= String.length (tok_text t)) by (destruct t as [| | | |[]|[]]; vm_compute; lia). simpl. lia.
Qed.
Lemma toks_text_app ts ts' : toks_text (ts ++ ts') = toks_text ts ++ toks_text ts'.
Proof. induction ts as [|t ts IH]; simpl; [done|]. by rewrite IH, Strings.app_assoc. Qed.

Fixpoint separated (sep : tok) (l : list (list tok)) : list tok :=
  match l with [] => [] | [x] => x | x :: l' => x ++ sep :: separated sep l' end%list.
Lemma separated_text sep l : toks_text (separated sep l) = Strings.join (tok_text sep) (map toks_text l).
Proof.
  induction l as [|x [|y l] IH]; [done|done|].
  change (separated sep (x :: y :: l)) with (x ++ sep :: separated sep (y :: l))%list. rewrite toks_text_app.
  change (toks_text (sep :: separated sep (y :: l))) with (tok_text sep ++ toks_text (separated sep (y :: l))). by rewrite IH.
Qed.
Definition atom_colname (a : atom) : colname :=
  if String.eqb (atom_col a) "key" then KeyCol else if String.eqb (atom_col a) "val" then ValCol else RefCol.
Definition atom_tok (a : atom) : tok :=
  match a with Equals _ _ => TCompare (atom_colname a) | OneOf _ _ => TMember (atom_colname a) end.
Definition conj_toks (c : list atom) : list tok := TOpen :: (separated TAnd (map (fun a => [atom_tok a]) c) ++ [TClose])%list.
Definition atom_holds (r : label_row) (a : atom) : bool := compared (col_cell r (atom_colname a)) (atom_arg a).

Lemma atom_colname_text a : atom_col a ∈ ["key"; "val"; "visibility_id"] -> col_text (atom_colname a) = atom_col a.
Proof.
  unfold atom_colname. destruct (String.eqb_spec (atom_col a) "key") as [->|]; [done|].
  destruct (String.eqb_spec (atom_col a) "val") as [->|]; [done|]. set_solver.
Qed.
Lemma conj_toks_text c : (forall a, a ∈ c -> atom_col a ∈ ["key"; "val"; "visibility_id"]) ->
  toks_text (conj_toks c) = conjunction_text c.
Proof.
  intros Hc. unfold conj_toks, conjunction_text. change (toks_text (TOpen :: ?l)) with ("(" ++ toks_text l). rewrite toks_text_app, separated_text.
  do 2 f_equal. rewrite map_map. f_equal. apply map_ext_in. intros a Ha%list_elem_of_In. specialize (Hc a Ha).
  apply atom_colname_text in Hc. unfold atom_tok, atom_text. destruct a; simpl in *; rewrite Hc; by rewrite Strings.app_assoc.
Qed.
Lemma eval_conj r c : forall ts args conj disj,
  eval_toks r (separated TAnd (map (fun a => [atom_tok a]) c) ++ ts) (map atom_arg c ++ args) conj disj =
  eval_toks r ts args (conj && forallb (atom_holds r) c) disj.
Proof.
  induction c as [|a [|a' c] IH]; intros ts args conj disj.
  - simpl. by rewrite andb_true_r.
  - simpl. rewrite andb_true_r. by destruct a.
  - change (separated TAnd (map (fun a => [atom_tok a]) (a :: a' :: c))) with
      (atom_tok a :: TAnd :: separated TAnd (map (fun a => [atom_tok a]) (a' :: c))).
    transitivity (eval_toks r (separated TAnd (map (fun a => [atom_tok a]) (a' :: c)) ++ ts) (map atom_arg (a' :: c) ++ args)
      (conj && atom_holds r a) disj); [by destruct a|]. rewrite IH. cbn [forallb]. by rewrite !andb_assoc.
Qed.
Lemma eval_disj r d : forall conj disj,
  eval_toks r (separated TOr (map conj_toks d)) (delete_args d) conj disj = disj || existsb (forallb (atom_holds r)) d.
Proof.
  assert (Hone : forall c ts args conj disj, eval_toks r (conj_toks c ++ ts) (map atom_arg c ++ args) conj disj =
    eval_toks r ts args (forallb (atom_holds r) c) (disj || forallb (atom_holds r) c)).
  { intros c ts args conj disj. unfold conj_toks. cbn [app eval_toks]. rewrite <- (assoc_L (++)%list), eval_conj. done. }
  unfold delete_args. induction d as [|c [|c' d] IH]; intros conj disj.
  - simpl. by rewrite orb_false_r.
  - cbn [map separated concat existsb]. rewrite orb_false_r, map_app. cbn [map].
    rewrite <- (app_nil_r (conj_toks c)). by rewrite Hone.
  - cbn [map separated concat]. rewrite map_app, Hone. cbn [eval_toks]. cbn [map concat] in IH. rewrite IH. cbn [existsb]. by rewrite <- !orb_assoc.
Qed.
Lemma atom_holds_true r a : atom_col a ∈ ["key"; "val"; "visibility_id"] ->
  atom_holds r a = true <-> atom_true visibility_labels r a.
Proof.
  intros Hc. unfold atom_holds, atom_true. assert (Hcell : col_cell r (atom_colname a) = cell visibility_labels r (atom_col a)).
  { unfold atom_colname, cell. destruct (String.eqb_spec (atom_col a) "key"); [done|]. destruct (String.eqb_spec (atom_col a) "val"); [done|].
    destruct (String.eqb_spec (atom_col a) (ReferenceColumn visibility_labels)) as [|Hn]; [done|]. simpl in Hn. set_solver. }
  rewrite Hcell. destruct a; simpl; [by rewrite bool_decide_eq_true|]. rewrite existsb_exists. setoid_rewrite bool_decide_eq_true.
  by setoid_rewrite <- list_elem_of_In.
Qed.
Lemma eval_selected r d : (forall c, c ∈ d -> forall a, a ∈ c -> atom_col a ∈ ["key"; "val"; "visibility_id"]) ->
  existsb (forallb (atom_holds r)) d = true <-> selected visibility_labels d r.
Proof.
  intros Hd. rewrite existsb_exists. unfold selected. split.
  - intros (c & Hc%list_elem_of_In & Hall). exists c. split; [done|]. intros a Ha. rewrite forallb_forall in Hall.
    apply atom_holds_true; [by eapply Hd|]. by apply Hall, list_elem_of_In.
  - intros (c & Hc & Hall). exists c. split; [by apply list_elem_of_In|]. apply forallb_forall. intros a Ha%list_elem_of_In.
    apply atom_holds_true; [by eapply Hd|by apply Hall].
Qed.
Definition visibility_id (e : @entity Visibility Visibility_entity) : string := be_ID (ve_Base e).
(** World, fields, id, then the calls in the order of the interface. *)
#[export] Instance toy_postgres : Postgres Visibility :=
  Build_Postgres Visibility Visibility_entity (list label_row) (fun _ => []) visibility_id (fun _ => c_ret tt) (fun _ e => c_ret e)
    (fun _ _ => c_ret (Ok 1%Z)) (fun _ rows w => ((w ++ map row_of rows)%list, Ok tt))
    (fun q args w => (exec_delete q args w, Ok (Ok 1%Z)))
    (fun _ _ => c_ret {| scanned := []; rows_Err := None |}) (fun _ _ => c_ret 0%Z) (fun q args => Ok (q, args)) (fun q => q)
    (c_ret "id") (fun _ => 0%Z) (fun _ => None).
#[export] Instance toy_table : LabelTable Visibility visibility_labels.
Proof.
  refine (Build_LabelTable Visibility _ toy_postgres visibility_labels (fun (w : list label_row) r => r ∈ w) _ _ _ _ _).
  - split; [simpl; set_solver|done].
  - done.
  - simpl. intros w cols rows _ _ r. rewrite elem_of_app. apply or_iff_compat_l. rewrite list_elem_of_fmap. naive_solver.
  - done.
  - simpl. intros w d q args [_ Hd] E.
    assert (q = delete_text "visibility_labels" d /\ args = delete_args d) as [-> ->] by (destruct (has_list d); by injection E as <- <-).
    assert (Hcols : forall c, c ∈ d -> forall a, a ∈ c -> atom_col a ∈ ["key"; "val"; "visibility_id"]) by (intros c Hc; by apply Hd).
    assert (Htext : Strings.join " OR " (map conjunction_text d) = toks_text (separated TOr (map conj_toks d))).
    { rewrite separated_text, map_map. f_equal. apply map_ext_in. intros c Hc%list_elem_of_In. symmetry. by apply conj_toks_text, Hcols. }
    intros r. unfold exec_delete, delete_text.
    change (strip _ _) with (Some (Strings.join " OR " (map conjunction_text d))). cbv iota. rewrite Htext.
    rewrite toks_read by apply toks_long. rewrite list_elem_of_In, filter_In, <- list_elem_of_In, eval_disj. simpl.
    rewrite negb_true_iff, <- (eval_selected r d Hcols). destruct (existsb _ _); naive_solver.
Defined.
Definition kept : LabelChange := change_of AddLabelValuesOperation "env" ["prod"].
Definition dropped : LabelChange := change_of RemoveLabelOperation "tenant" [].
Definition stored : @World Visibility _ toy_postgres := [row_for "v1" "tenant" "t1"; row_for "v2" "tenant" "t2"].
Definition labels_heap : gmap nat (list string) := {[ 0 := ["t1"] ]}.
Definition labels_before : gmap string slice := {[ "tenant" := {| ptr := 0; off := 0; slen := 1; scap := 1 |} ]}.
Definition sample_visibility (id : string) (labels : gmap string (list string)) : Visibility :=
  {| vi_Base := {| base_ID := id; base_CreatedAt := 1; base_UpdatedAt := 2; base_Labels := labels; base_PagingSequence := 3;
                   base_Ready := true; base_LastOperation := None |}; vi_PlatformID := ""; vi_ServicePlanID := "plan" |}.
Definition sample_rows : list (Visibility * (@entity Visibility Visibility_entity * list (string * string))) :=
  map (fun '(v, kvs) => (v, ({| ve_Base := from_base (vi_Base v); ve_PlatformID := toNullString (vi_PlatformID v);
                               ve_ServicePlanID := vi_ServicePlanID v |}, kvs)))
    [(sample_visibility "v1" {[ "env" := ["a"; "b"] ]}, [("env", "b"); ("env", "a")]); (sample_visibility "v2" ∅, [])].
End ToyTable.
Import ToyTable.

Lemma stored_labels_follow_changes_witness : exists st,
  ApplyLabelChangesToLabels labels_heap [kept; dropped] labels_before = Ok st /\
  (updateLabels visibility_labels "v1" [kept; dropped] stored).1 = [row_for "v2" "tenant" "t2"; row_for "v1" "env" "prod"] /\
  outcome
    (fun _ w' => (forall k v, has_value (contents (heap st) (mergedLabels st)) k v <-> held w' (row_for "v1" k v)) /\
      forall r, r.1.1 <> Some "v1" -> held w' r <-> held stored r) (updateLabels visibility_labels "v1" [kept; dropped] stored).
Proof.
  destruct (stored_labels_follow_changes (t := visibility_labels) "v1" [kept; dropped] labels_heap labels_before stored) as (st & E & Ho).
  - done.
  - done.
  - repeat constructor; simpl; try done. intros _. apply not_elem_of_nil.
  - unfold labels_before, labels_heap. split.
    + intros k s [<- <-]%lookup_singleton_Some. split; [|apply NoDup_singleton]. split; simpl; [lia|]. intros _. eexists. split; [reflexivity|done].
    + by intros k1 k2 s1 s2 q [<- _]%lookup_singleton_Some [<- _]%lookup_singleton_Some.
  - intros k v. unfold has_value, contents, labels_before. rewrite lookup_fmap. simpl. unfold stored.
    rewrite !elem_of_cons, elem_of_nil. destruct (decide (k = "tenant")) as [->|Hk].
    + rewrite lookup_singleton_eq. change (default [] _) with ["t1"]. rewrite list_elem_of_singleton. split; [intros ->; by left|].
      intros [[= Hv]|[[= ? _]|[]]]. by apply (column_inj v "t1").
    + rewrite lookup_singleton_ne by done. simpl. rewrite elem_of_nil. split; [done|].
      intros [[= Hv _]|[[= ? _]|[]]]. by apply Hk, (column_inj k "tenant").
  - exists st. split; [exact E|]. split; [vm_compute; reflexivity|exact Ho].
Defined.

Lemma rows_read_back_witness : exists os,
  rowsToList (A := Visibility) visibility_id {| scanned := joined sample_rows; rows_Err := None |} = Ok os /\
  os = [sample_visibility "v1" {[ "env" := ["b"; "a"] ]}; sample_visibility "v2" ∅] /\
  Forall2 (fun x o' => exists ls, o' = set_labels ls (unlabelled (table_part x.1)) /\ same_labels ls (base_Labels (object_base x.1))) sample_rows os.
Proof.
  destruct (rows_read_back (A := Visibility) visibility_id sample_rows None) as (os & E & Hos).
  - by intros o e [= <-].
  - constructor; [|constructor; [|constructor]]; (split; [exact I|reflexivity| |]).
    + change (base_Labels _) with ({[ "env" := ["a"; "b"] ]} : gmap string (list string)).
      intros k vs [<- <-]%lookup_singleton_Some. done.
    + cbn [fst snd]. change (base_Labels _) with ({[ "env" := ["a"; "b"] ]} : gmap string (list string)). rewrite map_to_list_singleton.
      apply perm_swap.
    + change (base_Labels _) with (∅ : gmap string (list string)). intros k vs Hk. by rewrite lookup_empty in Hk.
    + cbn [fst snd]. change (base_Labels _) with (∅ : gmap string (list string)). rewrite map_to_list_empty. constructor.
  - apply (bool_decide_unpack _). vm_compute. exact I.
  - exists os. split; [exact E|]. split; [|exact Hos]. vm_compute in E. injection E as <-. reflexivity.
Defined.
